(* ===== verification/_CoqProject ===== *)
-Q . S2P
Prelude.v
Text.v
Errors.v
Types.v
Supervisor.v
Platform.v
TestPlatform.v
Validation.v
Submit.v
Store.v
Transaction.v
Migrations.v
MigrationStates.v
MigrationsSpec.v
Projection.v
Lifecycle.v
Admission.v
Preservation.v
Recovery.v
AdminRepair.v
Registry.v
StoreInvariant.v
Scenario.v
Safety.v
History.v
Refinement.v
AdmissionSpec.v
Capacity.v
LifecycleSpec.v
CommitTruth.v
RecoverySpec.v
SupervisorSpec.v
ValidationSpec.v
CommandLine.v
SubmitSpec.v
StoreSpec.v
Query.v
SideTruth.v
Listing.v
Effects.v
Utf8.v
Engine.v
Linux.v
Launch.v
Inputs.v
Binding.v
Output.v
Evidence.v
Observation.v
Reconciliation.v
Workspace.v
Bundle.v
Dispatching.v
Materials.v
Passes.v
Requests.v
Planning.v
Admitting.v
Silence.v
Observed.v
TestWorld.v
Worlds.v
ReconciliationSpec.v
Justified.v
StartSpec.v
DispatchSpec.v
PlanSpec.v
EngineSpec.v
CommitEvidence.v
Concurrency.v
Drift.v
ReportSpec.v
OutputSpec.v
PathWatch.v
Runner.v
RunnerSpec.v
Doctor.v
Repair.v
DoctorSpec.v
RepairSpec.v
