(* ===== verification/Prelude.v ===== *)
(** * The Ordivon Runtime core, verified

    Ordivon Runtime admits Jobs on behalf of agents, dispatches each as an
    Attempt to a supervised Runner process (systemd on Linux, a job launcher on
    Windows), records what happens in a SQLite Registry, and recovers after
    crashes.  This library models the Registry, the engine that drives it and
    the Runner that it starts: [src/crates/ordivon-runtime-core/src/runtime/]
    and the parts of [src/crates/ordivon-runtime-core/src/universal/] they use.

    ** The program and its parts

    A client proposes a Job.  The engine looks the proposal up under its
    identity, and if it is new resolves it against the operator's policy, plans
    it, prepares its inputs and credentials, and hands a [SubmitRequest] to the
    Registry.  [validate_submit] checks it; [submit] replays a known client
    request or, below the Workspace and global capacity limits, inserts a Job,
    its Attempt and a capacity reservation.  The engine then drives the Attempt:
    it publishes a bundle of files, records the dispatch, starts a unit or a
    launcher, binds the process that answered, asks it to stop when the Job is
    cancelled, and commits a terminal result; each of these is one immediate
    SQLite transaction.  The Runner reads its request from the bundle, measures
    what was committed to, runs the steps, and leaves its result in the bundle.
    Reconciliation looks at the files of the bundle and at what systemd, [/proc]
    or the Windows launcher say, classifies it, commits what happened, recovers
    late results of orphaned Attempts, converges reservations and records
    failures; an operator's repair batch may correct what is left.  Clients see
    a projection of the Job and windows of its output.

    ** Files

    Foundations.
    - [Prelude] (this file): results, notations, row sets, tactics, hints.
    - [Text]: Rust's [str], [char] and [Path] operations the code uses;
      [Utf8]: [from_utf8] and [from_utf8_lossy].
    - [Errors]: [runtime/error.rs] and [universal/error.rs].  [Types]:
      [runtime/types.rs]: enumerations with their database text, the records,
      the transition relation of Attempts.  [Supervisor]:
      [runtime/supervisor.rs], all of it that is pure.
    - [Platform]: the interface to third-party code (SHA-256, UUIDs,
      serde_json, [sysconf]) as a class, with the documented behaviour that
      theorems rely on as [PlatformLaws].  [TestPlatform] gives an instance
      with a JSON printer and parser, used by the witnesses.

    The Registry.
    - [Validation], [Submit]: the request validators of [runtime/registry.rs],
      [runtime/types.rs], [runtime/windows.rs] and [universal/fsutil.rs].
      [CommandLine]: how the Windows launcher builds a command line
      ([platform/windows/Ordivon.WindowsJobLauncher.cs]).
    - [Store]: the tables, row codecs, triggers and CHECKs of the migrations,
      the statements, events and reservations of [runtime/registry.rs].
    - [Transaction]: [immediate] and COMMIT.  A [TxIo] says what SQLite does:
      opening or BEGIN may fail, and COMMIT may succeed, or fail with the writes
      applied, rolled back, or left in an open transaction.  An operation maps
      a database to its answer and the durable database.
    - [Migrations], [MigrationStates]: [registry/storage.rs], opening the
      database and migrating it, statement by statement, and the states of the
      catalogue on the way.
    - [Projection]: [project_job], [load_job_snapshot].  [Admission],
      [Lifecycle], [Recovery], [AdminRepair]: the operations of
      [registry/admission.rs], [registry/lifecycle.rs], [registry/recovery.rs]
      and [registry/reconciliation.rs], and the invariant inspection and repair
      transactions of [runtime/registry.rs].  [name_tx] is the body of the
      transaction of [name].  [Query]: [registry/query.rs], the reads.
    - [Registry]: the operations as one step relation [registry_step], for any
      arguments and any [TxIo]; [registry_reachable] is its closure from the
      empty database.  [Preservation]: inversion of statements and the [Frame]
      class.  [StoreInvariant] proves the store invariant [store_wf].

    The engine.
    - [Effects]: programs that act on the outside, as trees of [call]s on
      files, systemd, the launcher, the clock, processes and the Registry.
      [runs] is their semantics: every answer but the Registry's is arbitrary,
      other callers move the database between two calls, and a program may be
      stopped anywhere.  [wp] proves a condition on every call.
    - [Engine]: the records and file names of a bundle, [io_error] and the
      mapping of errors of [runtime/engine.rs], with their codec as the class
      [EngineCodec].  [Linux], [Launch]: [platform/linux.rs], what the tools say
      and the command line of [systemd-run].
    - [Requests], [Planning], [Materials], [Admitting]: proposals and their
      identity, the plan of a Job, inputs and credentials on disk, and the
      admission of all four kinds of Jobs ([engine/admission.rs],
      [engine/release.rs], [engine/execution.rs]).  [Workspace]: the records of
      Workspaces and the digest of their sources ([universal/]).
    - [Inputs], [Bundle], [Dispatching], [Binding]: what is verified before a
      dispatch, the published bundle, the start of a process, and the binding of
      its identity ([engine/execution.rs], [engine/control_query.rs]).
    - [Evidence], [Observation], [Reconciliation], [Passes], [Output]: result
      files, receipts and terminal evidence ([evidence.rs]), what a client is
      shown, the reconciliation of one Attempt and of all, [job.cancel], and
      windows of output ([engine/reconciliation.rs],
      [engine/control_query.rs], [runtime/engine.rs]).

    The Runner.
    - [PathWatch]: its witness of path drift, down to the bytes of inotify
      events.  [Runner]: [universal/runner.rs], the whole file: the structure of
      a request, commitments, start evidence, steps, captures, results.

    The operator.
    - [Doctor]: [runtime/doctor.rs], the offline diagnosis: its cases, what it
      proposes for each, and the fingerprints by which a report is named.
    - [Repair]: [runtime/repair.rs], the check of a request against the report
      and the backup, the plan of a batch, and the cancelling of an Attempt that
      cannot be identified.

    Reasoning and examples.
    - [Silence], [Observed], [Justified]: the programs that only observe, what
      an observation establishes, and [engine_ok], what must have been answered
      before each call that changes anything.
    - [Scenario], [TestWorld], [Worlds]: one concrete run of the Registry and
      concrete answers of the outside, on which witnesses evaluate.

    ** What the theorems show

    - Safety of the whole Registry: [Safety], [History] (the operator's
      inspection never finds a violation, the Workspace limit holds, outcomes
      are final, dispatch is at most once, the log is append-only and
      numbered, row versions stamp every change).
    - Refinement: [Refinement] gives the abstract life cycle of a Job, six
      phases, and shows that every operation moves along it.
    - Functional behaviour of each operation on its branches: [AdmissionSpec],
      [Capacity], [LifecycleSpec], [RecoverySpec]; [StoreSpec]: rows read back
      exactly, and an owner is bound once.
    - Failed COMMITs: [CommitTruth] shows that what the caller is told is true
      of the durable database, with one exception that it states.
    - Opening the database: [MigrationsSpec] (openings that fail anywhere still
      converge to the current schema; a database that is not understood is
      refused and left alone).
    - Queries: [SideTruth] (side truth is read back as it was submitted, and
      any change of it is noticed), [Listing] (following cursors ends and
      misses no Job that stays).
    - Evidence: [StartSpec], [DispatchSpec], [PlanSpec] and [EngineSpec] prove
      [engine_ok] of every program of the engine; [CommitEvidence] and
      [ReconciliationSpec] state what follows: admissions, dispatches, process
      starts, bound identities, recorded bundles, stopped units and terminal
      outcomes each rest on the answers that justify them, whatever the outside
      does.  [ReportSpec]: a pass accounts for every Attempt.
    - Concurrency: [Concurrency] interleaves any number of callers, before and
      after crashes, and shows that an Attempt starts one process at most.
      [Drift] exhibits two races, in runs beside which nobody else writes.
    - The Runner, and its composition with the engine: [RunnerSpec].  A target
      is started only as the next step of the request after its commitments
      were measured; the result tells the truth; the engine takes it; and an
      Attempt committed as succeeded ran every step.  The Runner takes a
      materialised request exactly when what it demands beyond [validate_submit]
      holds; its witness of path drift passes over no change.
    - The operator: [RepairSpec] (a repair carries out what was diagnosed, and an
      Attempt is cancelled only when nothing of it was seen to run);
      [DoctorSpec] (every violation has a proposal, and what is proposed for
      release can be released where references hold, with one exception that it
      states).
    - Output: [OutputSpec] (windows of output that is UTF-8 join to the output, a
      loop of them reads all of it, and what happens on output that is not UTF-8).
    - Classification: [SupervisorSpec].  Validation: [ValidationSpec],
      [SubmitSpec], [CommandLine].

    ** Conventions and bounds

    A Rust [String] is its UTF-8 bytes.  Integers are [Z]; where the code
    checks or saturates ([checked_add], [checked_mul], [saturating_add],
    [saturating_sub], [try_from]) the model computes the same against
    [2^64 - 1]; database counters ([i64] versions, sequences, times) are
    unbounded, since no run reaches [2^63] writes.

    The loops over bytes that are not structural ([Utf8.first_error],
    [Utf8.lossy], [Linux.characters_from], the decoding of inotify events) take
    the length of the text as fuel, and each step consumes a byte.  Walks of
    directories and of the parents of a path take as fuel the depth that the
    code itself bounds, the number of entries or the length of the path; a walk
    through the sources of a Workspace takes [PATH_MAX], since every level makes
    the path longer.  A loop that polls until a
    deadline runs as often as the answer of [PollBudget] or [PollsBefore] says:
    the clock of the outside decides, and every theorem holds for any answer.

    A table is a finite map by primary key; the event log is a list, oldest
    first.  [Db] holds decoded rows, because rows decode exactly ([StoreSpec]);
    rows written by other programs are outside the model.  Transactions are
    serialised by SQLite ([BEGIN IMMEDIATE]); operations that read before they
    begin take the two databases they may see.  The two threads that capture
    the output of a target are run where they are joined: they touch the pipes
    and the output files only.  inotify events are laid out as on a
    little-endian machine.

    ** Not modelled

    - The read models for operators ([runtime/inspection/]), capability reports
      and the construction of a Runtime from its configuration
      ([engine/construction.rs]): presentation and settings, without state.
    - What changes a Workspace: editing files, Git worktrees, change sets and
      closing ([universal/], [engine/workspace.rs]); Workspaces are read here.
    - The MCP server and the binaries: HTTP, argument and process glue.
    - The Windows broker, launcher and deployment scripts are other languages
      or process control; the launcher's command line is modelled, and what the
      engine asks of it is a call.
    - Third-party code: [Platform], [EngineCodec], [RepairCodec] and the codec of
      the Runner are parameters. *)

From Stdlib Require Export ZArith Lia.
From stdpp Require Export base gmap sets list strings fin_maps pretty numbers option sorting.

(** ** Results

    Rust's [Result<T, E>]; [?] is the monadic bind. *)
Inductive result (E A : Type) : Type :=
  | Ok (a : A)
  | Err (e : E).
Arguments Ok {E A} a.
Arguments Err {E A} e.

#[export] Instance result_ret E : MRet (result E) := fun A a => Ok a.
#[export] Instance result_bind E : MBind (result E) :=
  fun A B f m => match m with Ok a => f a | Err e => Err e end.
#[export] Instance result_map E : FMap (result E) :=
  fun A B f m => match m with Ok a => Ok (f a) | Err e => Err e end.

#[export] Instance result_eq_dec E A `{EqDecision E, EqDecision A} : EqDecision (result E A).
Proof. solve_decision. Defined.

(** [is_ok] is Rust's [Result::is_ok]. *)
Definition is_ok {E A} (m : result E A) : bool :=
  match m with Ok _ => true | Err _ => false end.

(** [map_err] is Rust's [Result::map_err]. *)
Definition map_err {E F A} (f : E -> F) (m : result E A) : result F A :=
  match m with Ok a => Ok a | Err e => Err (f e) end.

(** [ok_or e o] is Rust's [Option::ok_or_else]. *)
Definition ok_or {E A} (e : E) (o : option A) : result E A :=
  match o with Some a => Ok a | None => Err e end.

(** [fail_if c e] is the early return [if c { return Err(e) }]. *)
Definition fail_if {E} (c : bool) (e : E) : result E unit :=
  if c then Err e else Ok tt.

(** [for_each f l] runs [f] on every element and stops at the first error,
    as a Rust [for] loop whose body uses [?]. *)
Fixpoint for_each {E A} (f : A -> result E unit) (l : list A) : result E unit :=
  match l with
  | [] => Ok tt
  | x :: l' => f x ;; for_each f l'
  end.

(** [for_each_i f i l] is the same loop with [enumerate()], counting from [i]. *)
Fixpoint for_each_i {E A} (f : nat -> A -> result E unit) (i : nat) (l : list A)
    : result E unit :=
  match l with
  | [] => Ok tt
  | x :: l' => f i x ;; for_each_i f (S i) l'
  end.

(** ** Notations of the development *)
Declare Scope ordivon_scope.
Delimit Scope ordivon_scope with ord.
(** Rust's [==] on a type with decidable equality. *)
Notation "x == y" := (bool_decide (x = y)) (at level 70, no associativity) : ordivon_scope.
Notation "x != y" := (negb (bool_decide (x = y))) (at level 70, no associativity) : ordivon_scope.
#[global] Open Scope ordivon_scope.

(** ** Generic lemmas on results *)
Section result_lemmas.
Context {E : Type}.

Lemma bind_Ok_inv {A B} (m : result E A) (f : A -> result E B) b :
  m ≫= f = Ok b -> exists a, m = Ok a /\ f a = Ok b.
Proof. destruct m as [a | e]; simpl; [eauto | discriminate]. Qed.

Lemma fmap_Ok_inv {A B} (m : result E A) (f : A -> B) b :
  f <$> m = Ok b -> exists a, m = Ok a /\ b = f a.
Proof. destruct m as [a | e]; simpl; [ | discriminate]. intros [= <-]. eauto. Qed.

Lemma fail_if_Ok_inv c (e : E) u : fail_if c e = Ok u -> c = false.
Proof. destruct c; [discriminate | done]. Qed.

Lemma fail_if_false c (e : E) : c = false -> fail_if c e = Ok tt.
Proof. by intros ->. Qed.

Lemma fail_if_Ok c (e : E) : fail_if c e = Ok tt <-> c = false.
Proof. by destruct c. Qed.

Lemma seq_Ok {A} (m : result E unit) (n : result E A) b :
  (m ;; n) = Ok b <-> m = Ok tt /\ n = Ok b.
Proof. destruct m as [[] | e]; split; cbn; intros; destruct_and?; try done. Qed.

Lemma ok_or_Ok_inv {A} (e : E) (o : option A) a : ok_or e o = Ok a -> o = Some a.
Proof. destruct o; [by intros [= ->] | discriminate]. Qed.

Lemma map_err_Ok_inv {F A} (f : F -> E) (m : result F A) a : map_err f m = Ok a -> m = Ok a.
Proof. destruct m; [by intros [= ->] | discriminate]. Qed.

Lemma map_err_Ok {F A} (f : F -> E) (m : result F A) a : map_err f m = Ok a <-> m = Ok a.
Proof. destruct m; split; cbn; congruence. Qed.

Lemma for_each_Ok {A} (f : A -> result E unit) l :
  for_each f l = Ok tt <-> Forall (fun x => f x = Ok tt) l.
Proof.
  induction l as [ | x l IH]; simpl; [split; [constructor | done] | ].
  split.
  - intros H. apply bind_Ok_inv in H as ([] & Hx & Hl). constructor; [done | by apply IH].
  - intros H. inversion H as [ | ? ? Hx Hl]; subst. rewrite Hx. by apply IH.
Qed.

Lemma for_each_i_Ok {A} (f : nat -> A -> result E unit) l : forall i,
  for_each_i f i l = Ok tt <-> (forall k x, l !! k = Some x -> f (i + k)%nat x = Ok tt).
Proof.
  induction l as [ | x l IH]; intros i; simpl; [split; [by intros _ k y | done] | ].
  split.
  - intros H. apply bind_Ok_inv in H as ([] & Hx & Hl). intros [ | k] y Hk; simpl in Hk.
    + injection Hk as <-. by rewrite Nat.add_0_r.
    + rewrite <- Nat.add_succ_comm. by apply (proj1 (IH (S i))).
  - intros H. pose proof (H 0%nat x eq_refl) as H0. rewrite Nat.add_0_r in H0.
    rewrite H0; simpl.
    apply IH. intros k y Hk. rewrite Nat.add_succ_comm. by apply H.
Qed.
End result_lemmas.

Lemma existsb_false_Forall {A} (f : A -> bool) l :
  existsb f l = false <-> Forall (fun x => f x = false) l.
Proof.
  induction l as [ | x l IH]; [split; [constructor | done] | ].
  cbn [existsb]. by rewrite Forall_cons, orb_false_iff, IH.
Qed.

(** ** SQL row sets *)

#[local] Instance le_decision {A} (le : A -> A -> bool) (x y : A) : Decision (le x y = true) :=
  decide (le x y = true).

(** [ORDER BY]: a sort by a boolean order. *)
Definition order_by {A} (le : A -> A -> bool) (l : list A) : list A :=
  merge_sort (fun x y => le x y = true) l.

Lemma order_by_Permutation {A} (le : A -> A -> bool) l : order_by le l ≡ₚ l.
Proof. apply merge_sort_Permutation. Qed.

Lemma order_by_sorted {A} (le : A -> A -> bool) l :
  (forall x y, le x y = true \/ le y x = true) ->
  (forall x y z, le x y = true -> le y z = true -> le x z = true) ->
  StronglySorted (fun x y => le x y = true) (order_by le l).
Proof. intros Htot Htr. apply StronglySorted_merge_sort; intros x; eauto. Qed.

(** The first occurrence of each element, in order: [SELECT DISTINCT], and a
    loop that pushes under a [contains] guard. *)
Fixpoint distinct {A} `{EqDecision A} (seen l : list A) : list A :=
  match l with
  | [] => []
  | x :: rest =>
      if bool_decide (x ∈ seen) then distinct seen rest else x :: distinct (x :: seen) rest
  end.

Lemma elem_of_distinct {A} `{EqDecision A} (l : list A) : forall seen x,
  x ∈ distinct seen l <-> x ∈ l /\ x ∉ seen.
Proof.
  induction l as [ | y l IH]; intros seen x; cbn [distinct].
  - rewrite elem_of_nil. tauto.
  - case_bool_decide as Hy; rewrite ?elem_of_cons, ?IH, ?elem_of_cons.
    + split; [tauto | ]. intros [[-> | ?] ?]; tauto.
    + destruct (decide (x = y)) as [-> | ]; tauto.
Qed.

Lemma NoDup_distinct {A} `{EqDecision A} (l : list A) : forall seen, NoDup (distinct seen l).
Proof.
  induction l as [ | y l IH]; intros seen; cbn [distinct]; [constructor | ].
  case_bool_decide; [done | ]. constructor; [ | done].
  rewrite elem_of_distinct, elem_of_cons. tauto.
Qed.

(** A sorted sequence cut anywhere: what comes first is not after what is left. *)
Lemma StronglySorted_take_rest {A} (R : A -> A -> Prop) l n x y :
  StronglySorted R l -> x ∈ take n l -> y ∈ drop n l -> R x y.
Proof.
  revert n. induction l as [ | z l IH]; intros [ | n] Hs Hx Hy; simpl in *;
    try (by apply not_elem_of_nil in Hx).
  apply StronglySorted_inv in Hs as [Hs Hz]. apply elem_of_cons in Hx as [-> | Hx]; [ | eauto].
  rewrite Forall_forall in Hz. apply Hz. rewrite <- (take_drop n l). apply elem_of_app. by right.
Qed.

Lemma StronglySorted_take {A} (R : A -> A -> Prop) l n :
  StronglySorted R l -> StronglySorted R (take n l).
Proof.
  revert n. induction l as [ | z l IH]; intros [ | n] Hs; simpl; try constructor.
  - apply StronglySorted_inv in Hs as [Hs Hz]. auto.
  - apply StronglySorted_inv in Hs as [Hs Hz]. by apply Forall_take.
Qed.

Create HintDb ordivon.
Create Rewrite HintDb ordivon_rw.

(** ** Automation *)

(** [inv_ok] peels one layer off a hypothesis that says a computation
    returned [Ok]. *)
Ltac inv_ok_step :=
  match goal with
  | H : _ ≫= _ = Ok _ |- _ =>
      let a := fresh "v" in let Ha := fresh "Hv" in apply bind_Ok_inv in H as (a & Ha & H)
  | H : _ <$> _ = Ok _ |- _ =>
      let a := fresh "v" in let Ha := fresh "Hv" in apply fmap_Ok_inv in H as (a & Ha & H)
  | H : fail_if _ _ = Ok _ |- _ => apply fail_if_Ok_inv in H
  | H : ok_or _ _ = Ok _ |- _ => apply ok_or_Ok_inv in H
  | H : map_err _ _ = Ok _ |- _ => apply map_err_Ok_inv in H
  | H : mret _ = Ok _ |- _ => injection H as H
  | H : Ok _ = Ok _ |- _ => injection H as H
  | H : Err _ = Ok _ |- _ => discriminate H
  | v : unit |- _ => destruct v
  end.
Ltac inv_ok := repeat inv_ok_step.

(** [bool_props] turns boolean tests among the hypotheses into propositions. *)
Ltac bool_props :=
  repeat match goal with
  | H : orb _ _ = false |- _ => apply orb_false_elim in H as [??]
  | H : andb _ _ = true |- _ => apply andb_prop in H as [??]
  | H : negb _ = true |- _ => apply negb_true_iff in H
  | H : negb _ = false |- _ => apply negb_false_iff in H
  | H : bool_decide _ = true |- _ => apply bool_decide_eq_true in H
  | H : bool_decide _ = false |- _ => apply bool_decide_eq_false in H
  | H : (_ <=? _)%Z = true |- _ => apply Z.leb_le in H
  | H : (_ <=? _)%Z = false |- _ => apply Z.leb_gt in H
  | H : (_ <? _)%Z = true |- _ => apply Z.ltb_lt in H
  | H : (_ <? _)%Z = false |- _ => apply Z.ltb_ge in H
  | H : (_ =? _)%Z = true |- _ => apply Z.eqb_eq in H
  | H : (_ =? _)%Z = false |- _ => apply Z.eqb_neq in H
  end.
