(* ===== verification/Text.v ===== *)
(** * Text

    The parts of Rust's [str], [char] and [std::path] that the Runtime uses.
    A Rust [String] is its UTF-8 byte sequence (a Rocq [string]); [chars]
    decodes it to Unicode scalar values.  Paths follow the Unix rules of
    [std::path::Path::components]. *)

From S2P Require Import Prelude.

#[local] Open Scope Z_scope.

Definition byte_of (c : Ascii.ascii) : Z := Z.of_N (Ascii.N_of_ascii c).

(** ** Bytes *)

(** [value.len()] *)
Definition str_len (s : string) : Z := Z.of_nat (String.length s).

Fixpoint bytes (s : string) : list Z :=
  match s with
  | EmptyString => []
  | String c s' => byte_of c :: bytes s'
  end.

(** [value.as_bytes().contains(&0)] *)
Definition contains_nul (s : string) : bool := existsb (Z.eqb 0) (bytes s).

Definition is_ascii_digit (b : Z) : bool := (48 <=? b) && (b <=? 57).
Definition is_ascii_uppercase (b : Z) : bool := (65 <=? b) && (b <=? 90).
Definition is_ascii_lowercase (b : Z) : bool := (97 <=? b) && (b <=? 122).
Definition is_ascii_alphabetic (b : Z) : bool := is_ascii_uppercase b || is_ascii_lowercase b.
Definition is_ascii_alphanumeric (b : Z) : bool := is_ascii_alphabetic b || is_ascii_digit b.
Definition is_ascii_hexdigit (b : Z) : bool :=
  is_ascii_digit b || ((65 <=? b) && (b <=? 70)) || ((97 <=? b) && (b <=? 102)).

(** [value.starts_with(p)] *)
Definition starts_with (p s : string) : bool := String.prefix p s.

Fixpoint str_drop (n : nat) (s : string) : string :=
  match n, s with
  | O, _ => s
  | S n', String _ s' => str_drop n' s'
  | S _, EmptyString => EmptyString
  end.

(** [value.strip_prefix(p)] *)
Definition strip_prefix (p s : string) : option string :=
  if starts_with p s then Some (str_drop (String.length p) s) else None.

(** [value.ends_with(p)] *)
Definition ends_with (p s : string) : bool :=
  (String.length p <=? String.length s)%nat
  && String.eqb (str_drop (String.length s - String.length p) s) p.

Fixpoint map_bytes (f : Ascii.ascii -> Ascii.ascii) (s : string) : string :=
  match s with
  | EmptyString => EmptyString
  | String c s' => String (f c) (map_bytes f s')
  end.

(** [to_ascii_lowercase] and [to_ascii_uppercase] *)
Definition ascii_lower (c : Ascii.ascii) : Ascii.ascii :=
  if is_ascii_uppercase (byte_of c)
  then Ascii.ascii_of_N (Z.to_N (byte_of c + 32)) else c.
Definition ascii_upper (c : Ascii.ascii) : Ascii.ascii :=
  if is_ascii_lowercase (byte_of c)
  then Ascii.ascii_of_N (Z.to_N (byte_of c - 32)) else c.
Definition to_ascii_lowercase : string -> string := map_bytes ascii_lower.
Definition to_ascii_uppercase : string -> string := map_bytes ascii_upper.
Definition eq_ignore_ascii_case (a b : string) : bool :=
  String.eqb (to_ascii_lowercase a) (to_ascii_lowercase b).

(** [value.split(c)] for an ASCII separator: never empty, empty segments kept. *)
Fixpoint split_on (sep : Ascii.ascii) (s : string) : list string :=
  match s with
  | EmptyString => [EmptyString]
  | String c s' =>
      if Ascii.eqb c sep then EmptyString :: split_on sep s'
      else match split_on sep s' with
           | seg :: rest => String c seg :: rest
           | [] => [String c EmptyString]
           end
  end.

Fixpoint join (sep : string) (l : list string) : string :=
  match l with
  | [] => EmptyString
  | [x] => x
  | x :: l' => (x +:+ sep +:+ join sep l')%string
  end.

(** ** Characters *)

(** UTF-8 decoding of a valid byte sequence: [pending] continuation bytes
    are still due and [acc] holds the bits read so far. *)
Fixpoint decode_utf8 (pending : nat) (acc : Z) (bs : list Z) : list Z :=
  match bs with
  | [] => []
  | b :: bs' =>
      match pending with
      | O => if b <? 128 then b :: decode_utf8 0 0 bs'
             else if b <? 224 then decode_utf8 1 (b mod 32) bs'
             else if b <? 240 then decode_utf8 2 (b mod 16) bs'
             else decode_utf8 3 (b mod 8) bs'
      | S O => (acc * 64 + b mod 64) :: decode_utf8 0 0 bs'
      | S p => decode_utf8 p (acc * 64 + b mod 64) bs'
      end
  end.

Definition chars (s : string) : list Z := decode_utf8 0 0 (bytes s).

(** [char::is_control]: general category Cc. *)
Definition is_control (c : Z) : bool := (c <=? 31) || ((127 <=? c) && (c <=? 159)).

(** [char::is_whitespace]: the property White_Space. *)
Definition is_whitespace (c : Z) : bool :=
  ((9 <=? c) && (c <=? 13)) || (c =? 32) || (c =? 133) || (c =? 160)
  || (c =? 5760) || ((8192 <=? c) && (c <=? 8202)) || (c =? 8232) || (c =? 8233)
  || (c =? 8239) || (c =? 8287) || (c =? 12288).

Fixpoint trim_start (cs : list Z) : list Z :=
  match cs with
  | [] => []
  | c :: cs' => if is_whitespace c then trim_start cs' else cs
  end.

(** [value.trim()] on the decoded characters. *)
Definition trim (cs : list Z) : list Z := rev (trim_start (rev (trim_start cs))).

(** [value.encode_utf16().count()] *)
Definition utf16_len (s : string) : Z :=
  foldr (fun c n => (if c <? 65536 then 1 else 2) + n) 0 (chars s).

(** ** Paths *)

Inductive Component : Type :=
  | RootDir
  | CurDir
  | ParentDir
  | Normal (segment : string).

#[export] Instance component_eq_dec : EqDecision Component.
Proof. solve_decision. Defined.

Definition slash : Ascii.ascii := Ascii.ascii_of_N 47.

(** [Path::is_absolute] *)
Definition is_absolute (p : string) : bool := starts_with "/" p.

Definition component_of (segment : string) : option Component :=
  if String.eqb segment "" then None
  else if String.eqb segment "." then None
  else if String.eqb segment ".." then Some ParentDir
  else Some (Normal segment).

(** [Path::components]: repeated separators and inner [.] segments vanish; a
    leading [.] of a relative path is kept. *)
Definition components (p : string) : list Component :=
  let segments := split_on slash p in
  let body := omap component_of segments in
  if is_absolute p then RootDir :: body
  else match segments with
       | seg :: _ => if String.eqb seg "." then CurDir :: body else body
       | [] => body
       end.

Fixpoint components_strip_prefix (pre l : list Component) : option (list Component) :=
  match pre, l with
  | [], _ => Some l
  | x :: pre', y :: l' => if x == y then components_strip_prefix pre' l' else None
  | _ :: _, [] => None
  end.

(** [Path::starts_with] *)
Definition path_starts_with (p base : string) : bool :=
  match components_strip_prefix (components base) (components p) with
  | Some _ => true
  | None => false
  end.

Definition component_text (c : Component) : string :=
  match c with
  | RootDir => "/"
  | CurDir => "."
  | ParentDir => ".."
  | Normal s => s
  end.

(** The text of a relative component list, as [PathBuf] renders it. *)
Definition relative_text (l : list Component) : string := join "/" (map component_text l).

Definition is_normal (c : Component) : bool :=
  match c with Normal _ => true | _ => false end.

(** [Path::join] of a base path and a relative or absolute text. *)
Definition path_join (base p : string) : string :=
  if is_absolute p then p
  else if String.eqb base "" then p
  else if ends_with "/" base then (base +:+ p)%string
  else (base +:+ "/" +:+ p)%string.

(** [Path::file_name] *)
Definition file_name (p : string) : option string :=
  match head (rev (components p)) with
  | Some (Normal s) => Some s
  | _ => None
  end.

(** ** Facts *)

Lemma trim_start_id cs :
  match head cs with Some c => is_whitespace c = false | None => True end ->
  trim_start cs = cs.
Proof. destruct cs as [ | c cs]; simpl; [done | by intros ->]. Qed.

Lemma trim_start_length cs : (length (trim_start cs) <= length cs)%nat.
Proof. induction cs as [ | c cs IH]; simpl; [done | ]. destruct (is_whitespace c); simpl; lia. Qed.

Lemma trim_start_id_inv cs c cs' :
  cs = c :: cs' -> trim_start cs = cs -> is_whitespace c = false.
Proof.
  intros -> H. simpl in H. destruct (is_whitespace c); [ | done].
  pose proof (trim_start_length cs') as Hl. rewrite H in Hl. simpl in Hl. lia.
Qed.

(** A non-empty text equals its trimmed form exactly when neither end is white space. *)
Lemma trim_id_iff c mid d :
  (trim (c :: mid ++ [d]) = c :: mid ++ [d]) <->
  is_whitespace c = false /\ is_whitespace d = false.
Proof.
  unfold trim. split.
  - intros H.
    assert (Hlen : length (trim_start (c :: mid ++ [d])) = length (c :: mid ++ [d])).
    { apply (f_equal length) in H. rewrite length_rev in H.
      pose proof (trim_start_length (c :: mid ++ [d])).
      pose proof (trim_start_length (rev (trim_start (c :: mid ++ [d])))) as H2.
      rewrite length_rev in H2. lia. }
    destruct (is_whitespace c) eqn:Hc.
    { exfalso. cbn [trim_start] in Hlen. rewrite Hc in Hlen.
      pose proof (trim_start_length (mid ++ [d])). simpl in Hlen. lia. }
    split; [done | ].
    cbn [trim_start] in H. rewrite Hc in H.
    change (c :: mid ++ [d]) with ((c :: mid) ++ [d]) in H. rewrite rev_app_distr in H.
    cbn [rev app] in H. apply (f_equal (@rev Z)) in H. rewrite rev_involutive in H.
    change (c :: mid ++ [d]) with ((c :: mid) ++ [d]) in H.
    rewrite rev_app_distr in H.
    by apply (trim_start_id_inv _ d (rev (c :: mid)) eq_refl) in H.
  - intros [Hc Hd]. rewrite (trim_start_id (c :: mid ++ [d])) by (simpl; done).
    change (c :: mid ++ [d]) with ((c :: mid) ++ [d]). rewrite rev_app_distr.
    rewrite trim_start_id by (simpl; done). by rewrite <- rev_app_distr, rev_involutive.
Qed.

Lemma trim_singleton_iff c : trim [c] = [c] <-> is_whitespace c = false.
Proof. unfold trim. simpl. destruct (is_whitespace c) eqn:Hc; simpl; [done | ]. by rewrite Hc. Qed.

Lemma components_strip_prefix_app pre l :
  components_strip_prefix pre (pre ++ l) = Some l.
Proof. induction pre as [ | x pre IH]; simpl; [done | ]. by rewrite bool_decide_eq_true_2. Qed.

Lemma components_strip_prefix_Some pre l r :
  components_strip_prefix pre l = Some r -> l = pre ++ r.
Proof.
  revert l. induction pre as [ | x pre IH]; intros l; simpl; [by intros [= ->] | ].
  destruct l as [ | y l]; [done | ]. case_bool_decide as Hxy; [ | done].
  subst. intros H. by rewrite (IH _ H).
Qed.

(** Rust's order on [str] is lexicographic on bytes. *)
Lemma string_leb_cons c d s t :
  String.leb (String c s) (String d t)
  = if byte_of c <? byte_of d then true
    else if byte_of c =? byte_of d then String.leb s t else false.
Proof.
  unfold String.leb. simpl. unfold Ascii.compare, byte_of.
  destruct (N.compare_spec (Ascii.N_of_ascii c) (Ascii.N_of_ascii d)) as [He | Hl | Hg].
  - rewrite He, Z.ltb_irrefl, Z.eqb_refl. done.
  - by rewrite (proj2 (Z.ltb_lt _ _)) by lia.
  - rewrite (proj2 (Z.ltb_ge _ _)) by lia. by rewrite (proj2 (Z.eqb_neq _ _)) by lia.
Qed.

Lemma string_leb_trans s1 : forall s2 s3,
  String.leb s1 s2 = true -> String.leb s2 s3 = true -> String.leb s1 s3 = true.
Proof.
  induction s1 as [ | c1 s1 IH]; intros [ | c2 s2] [ | c3 s3] H1 H2; try done.
  rewrite string_leb_cons in *.
  destruct (Z.ltb_spec (byte_of c1) (byte_of c2)), (Z.ltb_spec (byte_of c2) (byte_of c3)),
    (Z.eqb_spec (byte_of c1) (byte_of c2)), (Z.eqb_spec (byte_of c2) (byte_of c3)); try done;
    try (by rewrite (proj2 (Z.ltb_lt _ _)) by lia).
  rewrite (proj2 (Z.ltb_ge _ _)), (proj2 (Z.eqb_eq _ _)) by lia. eauto.
Qed.
