(* ===== verification/Errors.v ===== *)
(** * Errors

    Model of [runtime/error.rs]: the error codes, the error record and its
    constructors, and the mapping from SQLite failures. *)

From S2P Require Import Prelude Text.

#[local] Open Scope Z_scope.

Inductive RuntimeErrorCode : Type :=
  | InvalidRequest
  | RegistryUnavailable
  | RegistryBusy
  | RegistryCorrupt
  | SchemaVersionUnsupported
  | MigrationChecksumMismatch
  | IdempotencyConflict
  | ConcurrencyLimit
  | DeploymentInProgress
  | WorkspaceBusy
  | WorkspaceExists
  | WorkspaceNotFound
  | WorkspacePathNotFound
  | WorkspaceDirty
  | WorkspacePathDenied
  | RevisionNotFound
  | RevisionMismatch
  | WorkspaceStateMismatch
  | MetadataCorrupt
  | JobNotFound
  | AttemptNotFound
  | AttemptStateConflict
  | JobAlreadyResolved
  | ResultIdentityConflict
  | DispatchOutcomeUnknown
  | LaunchIdentityMismatch
  | ProviderStateMismatch
  | ReservationStateConflict
  | ArtifactIdentityConflict
  | ArtifactNotFound
  | ArtifactNotUtf8
  | OutputLimitExceeded
  | ReconciliationRequired
  | OrphanRemediationDenied
  | WorkspaceCapacityExceeded
  | IoError
  | ToolUnavailable
  | ToolFailed.

#[export] Instance error_code_eq_dec : EqDecision RuntimeErrorCode.
Proof. solve_decision. Defined.

(** The variant name: [{:?}] of a [RuntimeErrorCode]. *)
Definition debug_name (code : RuntimeErrorCode) : string :=
  match code with
  | InvalidRequest => "InvalidRequest"
  | RegistryUnavailable => "RegistryUnavailable"
  | RegistryBusy => "RegistryBusy"
  | RegistryCorrupt => "RegistryCorrupt"
  | SchemaVersionUnsupported => "SchemaVersionUnsupported"
  | MigrationChecksumMismatch => "MigrationChecksumMismatch"
  | IdempotencyConflict => "IdempotencyConflict"
  | ConcurrencyLimit => "ConcurrencyLimit"
  | DeploymentInProgress => "DeploymentInProgress"
  | WorkspaceBusy => "WorkspaceBusy"
  | WorkspaceExists => "WorkspaceExists"
  | WorkspaceNotFound => "WorkspaceNotFound"
  | WorkspacePathNotFound => "WorkspacePathNotFound"
  | WorkspaceDirty => "WorkspaceDirty"
  | WorkspacePathDenied => "WorkspacePathDenied"
  | RevisionNotFound => "RevisionNotFound"
  | RevisionMismatch => "RevisionMismatch"
  | WorkspaceStateMismatch => "WorkspaceStateMismatch"
  | MetadataCorrupt => "MetadataCorrupt"
  | JobNotFound => "JobNotFound"
  | AttemptNotFound => "AttemptNotFound"
  | AttemptStateConflict => "AttemptStateConflict"
  | JobAlreadyResolved => "JobAlreadyResolved"
  | ResultIdentityConflict => "ResultIdentityConflict"
  | DispatchOutcomeUnknown => "DispatchOutcomeUnknown"
  | LaunchIdentityMismatch => "LaunchIdentityMismatch"
  | ProviderStateMismatch => "ProviderStateMismatch"
  | ReservationStateConflict => "ReservationStateConflict"
  | ArtifactIdentityConflict => "ArtifactIdentityConflict"
  | ArtifactNotFound => "ArtifactNotFound"
  | ArtifactNotUtf8 => "ArtifactNotUtf8"
  | OutputLimitExceeded => "OutputLimitExceeded"
  | ReconciliationRequired => "ReconciliationRequired"
  | OrphanRemediationDenied => "OrphanRemediationDenied"
  | WorkspaceCapacityExceeded => "WorkspaceCapacityExceeded"
  | IoError => "IoError"
  | ToolUnavailable => "ToolUnavailable"
  | ToolFailed => "ToolFailed"
  end.

(** [RuntimeErrorCode::as_str] *)
Definition as_str (code : RuntimeErrorCode) : string :=
  match code with
  | InvalidRequest => "INVALID_REQUEST"
  | RegistryUnavailable => "REGISTRY_UNAVAILABLE"
  | RegistryBusy => "REGISTRY_BUSY"
  | RegistryCorrupt => "REGISTRY_CORRUPT"
  | SchemaVersionUnsupported => "SCHEMA_VERSION_UNSUPPORTED"
  | MigrationChecksumMismatch => "MIGRATION_CHECKSUM_MISMATCH"
  | IdempotencyConflict => "IDEMPOTENCY_CONFLICT"
  | ConcurrencyLimit => "CONCURRENCY_LIMIT"
  | DeploymentInProgress => "DEPLOYMENT_IN_PROGRESS"
  | WorkspaceBusy => "WORKSPACE_BUSY"
  | WorkspaceExists => "WORKSPACE_EXISTS"
  | WorkspaceNotFound => "WORKSPACE_NOT_FOUND"
  | WorkspacePathNotFound => "WORKSPACE_PATH_NOT_FOUND"
  | WorkspaceDirty => "WORKSPACE_DIRTY"
  | WorkspacePathDenied => "WORKSPACE_PATH_DENIED"
  | RevisionNotFound => "REVISION_NOT_FOUND"
  | RevisionMismatch => "REVISION_MISMATCH"
  | WorkspaceStateMismatch => "WORKSPACE_STATE_MISMATCH"
  | MetadataCorrupt => "METADATA_CORRUPT"
  | JobNotFound => "JOB_NOT_FOUND"
  | AttemptNotFound => "ATTEMPT_NOT_FOUND"
  | AttemptStateConflict => "ATTEMPT_STATE_CONFLICT"
  | JobAlreadyResolved => "JOB_ALREADY_RESOLVED"
  | ResultIdentityConflict => "RESULT_IDENTITY_CONFLICT"
  | DispatchOutcomeUnknown => "DISPATCH_OUTCOME_UNKNOWN"
  | LaunchIdentityMismatch => "LAUNCH_IDENTITY_MISMATCH"
  | ProviderStateMismatch => "PROVIDER_STATE_MISMATCH"
  | ReservationStateConflict => "RESERVATION_STATE_CONFLICT"
  | ArtifactIdentityConflict => "ARTIFACT_IDENTITY_CONFLICT"
  | ArtifactNotFound => "ARTIFACT_NOT_FOUND"
  | ArtifactNotUtf8 => "ARTIFACT_NOT_UTF8"
  | OutputLimitExceeded => "OUTPUT_LIMIT_EXCEEDED"
  | ReconciliationRequired => "RECONCILIATION_REQUIRED"
  | OrphanRemediationDenied => "ORPHAN_REMEDIATION_DENIED"
  | WorkspaceCapacityExceeded => "WORKSPACE_CAPACITY_EXCEEDED"
  | IoError => "IO_ERROR"
  | ToolUnavailable => "TOOL_UNAVAILABLE"
  | ToolFailed => "TOOL_FAILED"
  end.

Record RuntimeCapacity : Type := {
  cap_scope : string;
  cap_active : Z;
  cap_limit : Z;
  cap_workspace_id : option string;
  cap_holder_job_ids : list string;
  cap_holder_workspace_ids : list string;
  cap_holders_truncated : bool;
}.

#[export] Instance capacity_eq_dec : EqDecision RuntimeCapacity.
Proof. solve_decision. Defined.

Record RuntimeError : Type := {
  err_code : RuntimeErrorCode;
  err_message : string;
  err_field : option string;
  err_retryable : bool;
  err_retry_after_ms : option Z;
  err_capacity : option RuntimeCapacity;
  err_operation_id : option string;
}.

#[export] Instance error_eq_dec : EqDecision RuntimeError.
Proof. solve_decision. Defined.

Abbreviation RuntimeResult := (result RuntimeError).

(** [RuntimeError::new] *)
Definition error_new (code : RuntimeErrorCode) (message : string) (field : option string)
    (retryable : bool) : RuntimeError :=
  {| err_code := code; err_message := message; err_field := field;
     err_retryable := retryable; err_retry_after_ms := None; err_capacity := None;
     err_operation_id := None |}.

(** [RuntimeError]'s [Display] *)
Definition error_to_string (e : RuntimeError) : string :=
  debug_name (err_code e) +:+ ": " +:+ err_message e.

(** [RuntimeError::with_operation_id] *)
Definition with_operation_id (operation_id : string) (e : RuntimeError) : RuntimeError :=
  {| err_code := err_code e; err_message := err_message e; err_field := err_field e;
     err_retryable := err_retryable e; err_retry_after_ms := err_retry_after_ms e;
     err_capacity := err_capacity e; err_operation_id := Some operation_id |}.

(** The assignment [error.retryable = true] of the callers. *)
Definition set_retryable (b : bool) (e : RuntimeError) : RuntimeError :=
  {| err_code := err_code e; err_message := err_message e; err_field := err_field e;
     err_retryable := b; err_retry_after_ms := err_retry_after_ms e;
     err_capacity := err_capacity e; err_operation_id := err_operation_id e |}.

(** [RuntimeError::deployment_in_progress] *)
Definition deployment_in_progress : RuntimeError :=
  {| err_code := DeploymentInProgress;
     err_message := "Runtime deployment holds the new-admission fence";
     err_field := None; err_retryable := true; err_retry_after_ms := Some 1000;
     err_capacity := None; err_operation_id := None |}.

(** [RuntimeError::concurrency] *)
Definition concurrency (message field : string) (capacity : RuntimeCapacity) : RuntimeError :=
  {| err_code := ConcurrencyLimit; err_message := message; err_field := Some field;
     err_retryable := true; err_retry_after_ms := Some 1000;
     err_capacity := Some capacity; err_operation_id := None |}.

(** [RuntimeError::invalid] *)
Definition invalid (message field : string) : RuntimeError :=
  error_new InvalidRequest message (Some field) false.

(** [RuntimeError::is_reconciliation_fatal] *)
Definition is_reconciliation_fatal (e : RuntimeError) : bool :=
  match err_code e with
  | RegistryUnavailable | RegistryBusy | SchemaVersionUnsupported
  | MigrationChecksumMismatch => true
  | RegistryCorrupt => match err_field e with None => true | Some _ => false end
  | _ => false
  end.

(** ** SQLite failures, as [rusqlite] reports them *)

Inductive SqlErrorCode : Type :=
  | DatabaseBusy
  | DatabaseLocked
  | DatabaseCorrupt
  | NotADatabase
  | ConstraintViolation
  | OtherSqlCode.

Inductive SqlError : Type :=
  | SqliteFailure (code : SqlErrorCode) (text : string)
  | OtherSqlError (text : string).

Definition sql_error_text (e : SqlError) : string :=
  match e with SqliteFailure _ text => text | OtherSqlError text => text end.

(** [RuntimeError::from_sql] *)
Definition from_sql (e : SqlError) (context : string) : RuntimeError :=
  let '(code, retryable) :=
    match e with
    | SqliteFailure DatabaseBusy _ | SqliteFailure DatabaseLocked _ => (RegistryBusy, true)
    | SqliteFailure DatabaseCorrupt _ | SqliteFailure NotADatabase _ => (RegistryCorrupt, false)
    | SqliteFailure _ _ => (RegistryUnavailable, false)
    | OtherSqlError _ => (RegistryUnavailable, false)
    end in
  error_new code (context +:+ ": " +:+ sql_error_text e) None retryable.

(** [safe_same_request_sql_error] of [runtime/registry.rs] *)
Definition safe_same_request_sql_error (e : SqlError) (context : string) : RuntimeError :=
  let mapped := from_sql e context in
  match err_code mapped with
  | RegistryUnavailable | RegistryBusy => set_retryable true mapped
  | _ => mapped
  end.

(** [unknown_commit_outcome] of [runtime/registry.rs] *)
Definition unknown_commit_outcome (context : string) (commit_error : RuntimeError)
    (reconcile : option RuntimeError) : RuntimeError :=
  let suffix :=
    match reconcile with
    | Some e => "; reconciliation failed: " +:+ as_str (err_code e) +:+ ": " +:+ err_message e
    | None => ""
    end in
  error_new DispatchOutcomeUnknown
    (context +:+ ": " +:+ err_message commit_error +:+ suffix) None true.

(** [committed_reconciliation] of [runtime/registry.rs] *)
Definition committed_reconciliation (job_id context : string) : RuntimeError :=
  with_operation_id job_id (error_new ReconciliationRequired context None true).

(** [state_conflict] of [runtime/registry.rs] *)
Definition state_conflict (message : string) : RuntimeError :=
  error_new AttemptStateConflict message (Some "attemptId") false.

(** [idempotency_conflict] of [runtime/registry.rs] *)
Definition idempotency_conflict : RuntimeError :=
  error_new IdempotencyConflict
    "clientRequestId is already bound to a different operation request"
    (Some "clientRequestId") false.

(** ** Errors of the Workspace executor ([universal/error.rs]) *)

Module UniversalExecErrorCode.
Inductive t : Type :=
  | InvalidRequest
  | WorkspaceExists
  | WorkspaceNotFound
  | WorkspacePathNotFound
  | WorkspaceDirty
  | WorkspacePathDenied
  | RevisionNotFound
  | RevisionMismatch
  | WorkspaceStateMismatch
  | InputStateMismatch
  | HostDependencyRuntimeDrift
  | ExecutableRuntimeDrift
  | WorkspaceMutationIncomplete
  | ArtifactNotFound
  | ArtifactNotUtf8
  | OutputLimitExceeded
  | ToolUnavailable
  | ToolFailed
  | IoError
  | WorkspaceCapacityExceeded
  | MetadataCorrupt.
#[global] Instance eq_dec : EqDecision t.
Proof. solve_decision. Defined.

(** [UniversalExecErrorCode::as_str] *)
Definition as_str (code : t) : string :=
  match code with
  | InvalidRequest => "INVALID_REQUEST"
  | WorkspaceExists => "WORKSPACE_EXISTS"
  | WorkspaceNotFound => "WORKSPACE_NOT_FOUND"
  | WorkspacePathNotFound => "WORKSPACE_PATH_NOT_FOUND"
  | WorkspaceDirty => "WORKSPACE_DIRTY"
  | WorkspacePathDenied => "WORKSPACE_PATH_DENIED"
  | RevisionNotFound => "REVISION_NOT_FOUND"
  | RevisionMismatch => "REVISION_MISMATCH"
  | WorkspaceStateMismatch => "WORKSPACE_STATE_MISMATCH"
  | InputStateMismatch => "INPUT_STATE_MISMATCH"
  | HostDependencyRuntimeDrift => "HOST_DEPENDENCY_RUNTIME_DRIFT"
  | ExecutableRuntimeDrift => "EXECUTABLE_RUNTIME_DRIFT"
  | WorkspaceMutationIncomplete => "WORKSPACE_MUTATION_INCOMPLETE"
  | ArtifactNotFound => "ARTIFACT_NOT_FOUND"
  | ArtifactNotUtf8 => "ARTIFACT_NOT_UTF8"
  | OutputLimitExceeded => "OUTPUT_LIMIT_EXCEEDED"
  | ToolUnavailable => "TOOL_UNAVAILABLE"
  | ToolFailed => "TOOL_FAILED"
  | IoError => "IO_ERROR"
  | WorkspaceCapacityExceeded => "WORKSPACE_CAPACITY_EXCEEDED"
  | MetadataCorrupt => "METADATA_CORRUPT"
  end.
End UniversalExecErrorCode.

Record UniversalExecError : Type := {
  ue_code : UniversalExecErrorCode.t;
  ue_message : string;
  ue_field : option string;
  ue_retryable : bool;
}.

(** [invalid] of [universal/fsutil.rs] *)
Definition universal_invalid (message field : string) : UniversalExecError :=
  {| ue_code := UniversalExecErrorCode.InvalidRequest; ue_message := message;
     ue_field := Some field; ue_retryable := false |}.
