(* ===== verification/Types.v ===== *)
(** * Types

    Model of [runtime/types.rs]: the state enumerations with their database
    text, and the records that the Registry stores and exchanges.  A Rust
    [u32]/[u64] field is a [Z]; a [BTreeMap<String, String>] is a [gmap]. *)

From S2P Require Import Prelude Text Errors.

#[local] Open Scope Z_scope.

Definition RUNTIME_SCHEMA_VERSION : Z := 1.
Definition MAX_RUNTIME_LIST_LIMIT : Z := 100.
Definition LOGICAL_ID_MIN_LENGTH : Z := 1.
Definition LOGICAL_ID_MAX_LENGTH : Z := 256.

Definition REQUEST_IDENTITY_PREFIX : string := "runtime-request-v1:".
Definition PROPOSAL_IDENTITY_PREFIX : string := "runtime-request-v2:".
Definition INPUT_BOUND_IDENTITY_PREFIX : string := "runtime-request-input-v1:".
Definition INPUT_BOUND_PROPOSAL_IDENTITY_PREFIX : string := "runtime-request-input-v2:".
Definition CREDENTIAL_BOUND_PROPOSAL_IDENTITY_PREFIX : string := "runtime-request-credential-v1:".
Definition RUNTIME_RELEASE_IDENTITY_PREFIX : string := "runtime-release-v1:".

(** ** Enumerations *)

Module JobDesiredState.
Inductive t : Type :=
    | Run
    | Cancelled.
#[global] Instance eq_dec : EqDecision t.
Proof. solve_decision. Defined.

(** [JobDesiredState::as_db] *)
Definition as_db (s : t) : string :=
  match s with
  | Run => "run"
  | Cancelled => "cancelled"
  end.

(** [JobDesiredState::parse] *)
Definition parse (value : string) : RuntimeResult t :=
  if String.eqb value "run" then Ok Run
  else if String.eqb value "cancelled" then Ok Cancelled
  else Err (invalid "unknown desired state" "desiredState").
End JobDesiredState.

Module JobResolution.
Inductive t : Type :=
    | Succeeded
    | Failed
    | TimedOut
    | Cancelled
    | Lost
    | Orphaned.
#[global] Instance eq_dec : EqDecision t.
Proof. solve_decision. Defined.

(** [JobResolution::as_db] *)
Definition as_db (s : t) : string :=
  match s with
  | Succeeded => "succeeded"
  | Failed => "failed"
  | TimedOut => "timed_out"
  | Cancelled => "cancelled"
  | Lost => "lost"
  | Orphaned => "orphaned"
  end.

(** [JobResolution::parse] *)
Definition parse (value : string) : RuntimeResult t :=
  if String.eqb value "succeeded" then Ok Succeeded
  else if String.eqb value "failed" then Ok Failed
  else if String.eqb value "timed_out" then Ok TimedOut
  else if String.eqb value "cancelled" then Ok Cancelled
  else if String.eqb value "lost" then Ok Lost
  else if String.eqb value "orphaned" then Ok Orphaned
  else Err (invalid "unknown job resolution" "resolution").
End JobResolution.

Module AttemptState.
Inductive t : Type :=
    | Accepted
    | Starting
    | Running
    | Stopping
    | Recovering
    | Succeeded
    | Failed
    | TimedOut
    | Cancelled
    | Lost
    | Orphaned.
#[global] Instance eq_dec : EqDecision t.
Proof. solve_decision. Defined.

(** [AttemptState::as_db] *)
Definition as_db (s : t) : string :=
  match s with
  | Accepted => "accepted"
  | Starting => "starting"
  | Running => "running"
  | Stopping => "stopping"
  | Recovering => "recovering"
  | Succeeded => "succeeded"
  | Failed => "failed"
  | TimedOut => "timed_out"
  | Cancelled => "cancelled"
  | Lost => "lost"
  | Orphaned => "orphaned"
  end.

(** [AttemptState::parse] *)
Definition parse (value : string) : RuntimeResult t :=
  if String.eqb value "accepted" then Ok Accepted
  else if String.eqb value "starting" then Ok Starting
  else if String.eqb value "running" then Ok Running
  else if String.eqb value "stopping" then Ok Stopping
  else if String.eqb value "recovering" then Ok Recovering
  else if String.eqb value "succeeded" then Ok Succeeded
  else if String.eqb value "failed" then Ok Failed
  else if String.eqb value "timed_out" then Ok TimedOut
  else if String.eqb value "cancelled" then Ok Cancelled
  else if String.eqb value "lost" then Ok Lost
  else if String.eqb value "orphaned" then Ok Orphaned
  else Err (invalid "unknown attempt state" "state").

(** [AttemptState::is_terminal] *)
Definition is_terminal (s : t) : bool :=
  match s with
  | Succeeded | Failed | TimedOut | Cancelled | Lost | Orphaned => true
  | _ => false
  end.

(** [AttemptState::can_transition_to] *)
Definition can_transition_to (s next : t) : bool :=
  match s with
  | Accepted =>
      match next with Starting | Cancelled | Failed | Lost | Orphaned => true | _ => false end
  | Starting =>
      match next with
      | Running | Recovering | Succeeded | Failed | TimedOut | Cancelled | Lost | Orphaned => true
      | _ => false
      end
  | Running =>
      match next with
      | Stopping | Recovering | Succeeded | Failed | TimedOut | Cancelled | Lost | Orphaned => true
      | _ => false
      end
  | Stopping =>
      match next with
      | Recovering | Succeeded | Cancelled | Failed | TimedOut | Lost | Orphaned => true
      | _ => false
      end
  | Recovering =>
      match next with
      | Starting | Running | Stopping | Succeeded | Failed | TimedOut | Cancelled | Lost
      | Orphaned => true
      | _ => false
      end
  | Succeeded | Failed | TimedOut | Cancelled | Lost | Orphaned => false
  end.

(** The [{:?}] rendering of a state in error messages. *)
Definition debug_name (s : t) : string :=
  match s with
  | Accepted => "Accepted"
  | Starting => "Starting"
  | Running => "Running"
  | Stopping => "Stopping"
  | Recovering => "Recovering"
  | Succeeded => "Succeeded"
  | Failed => "Failed"
  | TimedOut => "TimedOut"
  | Cancelled => "Cancelled"
  | Lost => "Lost"
  | Orphaned => "Orphaned"
  end.
End AttemptState.

Module AttemptTerminationIntent.
Inductive t : Type :=
    | Natural
    | StopRequested
    | DeadlineExceeded.
#[global] Instance eq_dec : EqDecision t.
Proof. solve_decision. Defined.

(** [AttemptTerminationIntent::as_db] *)
Definition as_db (s : t) : string :=
  match s with
  | Natural => "natural"
  | StopRequested => "stop_requested"
  | DeadlineExceeded => "deadline_exceeded"
  end.

(** [AttemptTerminationIntent::parse] *)
Definition parse (value : string) : RuntimeResult t :=
  if String.eqb value "natural" then Ok Natural
  else if String.eqb value "stop_requested" then Ok StopRequested
  else if String.eqb value "deadline_exceeded" then Ok DeadlineExceeded
  else Err (invalid "unknown termination intent" "terminationIntent").
End AttemptTerminationIntent.

Module ReservationState.
Inductive t : Type :=
    | Active
    | HeldOrphaned
    | Released.
#[global] Instance eq_dec : EqDecision t.
Proof. solve_decision. Defined.

(** [ReservationState::as_db] *)
Definition as_db (s : t) : string :=
  match s with
  | Active => "active"
  | HeldOrphaned => "held_orphaned"
  | Released => "released"
  end.

(** [ReservationState::parse] *)
Definition parse (value : string) : RuntimeResult t :=
  if String.eqb value "active" then Ok Active
  else if String.eqb value "held_orphaned" then Ok HeldOrphaned
  else if String.eqb value "released" then Ok Released
  else Err (invalid "unknown reservation state" "reservationState").
End ReservationState.

Module ExecutionProfile.
Inductive t : Type :=
    | TrustedLocal
    | ContainedLocal.
#[global] Instance eq_dec : EqDecision t.
Proof. solve_decision. Defined.

(** [ExecutionProfile::as_str] *)
Definition as_str (s : t) : string :=
  match s with
  | TrustedLocal => "trusted_local"
  | ContainedLocal => "contained_local"
  end.
End ExecutionProfile.

Module ExecutionTarget.
Inductive t : Type :=
    | LocalLinux
    | WindowsNative.
#[global] Instance eq_dec : EqDecision t.
Proof. solve_decision. Defined.

(** [ExecutionTarget::as_str] *)
Definition as_str (s : t) : string :=
  match s with
  | LocalLinux => "local_linux"
  | WindowsNative => "windows_native"
  end.
End ExecutionTarget.

Module WindowsAuthority.
Inductive t : Type :=
    | Limited
    | Elevated
    | ActiveUser.
#[global] Instance eq_dec : EqDecision t.
Proof. solve_decision. Defined.

(** [WindowsAuthority::as_str] *)
Definition as_str (s : t) : string :=
  match s with
  | Limited => "limited"
  | Elevated => "elevated"
  | ActiveUser => "active_user"
  end.
End WindowsAuthority.

Module WindowsTokenClass.
Inductive t : Type :=
    | Limited
    | Elevated
    | ActiveUser.
#[global] Instance eq_dec : EqDecision t.
Proof. solve_decision. Defined.
End WindowsTokenClass.

Module ExecutionProviderContract.
Inductive t : Type :=
    | LocalLinuxRunnerV1
    | WindowsNativeLauncherV1.
#[global] Instance eq_dec : EqDecision t.
Proof. solve_decision. Defined.
End ExecutionProviderContract.

Module RuntimeReleaseContract.
Inductive t : Type :=
    | RuntimeReleaseV1.
#[global] Instance eq_dec : EqDecision t.
Proof. solve_decision. Defined.
End RuntimeReleaseContract.

Module InputAccessMode.
Inductive t : Type :=
    | ReadOnly.
#[global] Instance eq_dec : EqDecision t.
Proof. solve_decision. Defined.
End InputAccessMode.

Module RuntimeDeliveryDisposition.
Inductive t : Type :=
    | InProgress
    | Committed
    | ReconciliationRequired
    | Unknown.
#[global] Instance eq_dec : EqDecision t.
Proof. solve_decision. Defined.
End RuntimeDeliveryDisposition.

(** ** Records *)

Record WindowsExecutionContext : Type := {
  wec_token_class : WindowsTokenClass.t;
  wec_token_user_sid : string;
  wec_session_id : option Z;
  wec_environment_source : string;
  wec_privileged_broker_digest : option string;
}.

Record ForeignReference : Type := {
  fr_namespace : string;
  fr_reference_type : string;
  fr_id : string;
  fr_generation : option string;
  fr_digest : option string;
}.

Record HostDependencyBinding : Type := {
  hd_path : string;
  hd_expected_digest : string;
}.

Record ExecutionProviderSnapshot : Type := {
  eps_contract : ExecutionProviderContract.t;
  eps_executable_digest : string;
  eps_wsl_distribution : option string;
}.

Record RuntimeReleaseEffectBinding : Type := {
  rel_contract : RuntimeReleaseContract.t;
  rel_effect_id : string;
  rel_request_digest : string;
  rel_workspace_id : string;
  rel_commit : string;
  rel_candidate_manifest_digest : string;
  rel_expected_tool_count : Z;
  rel_receipt_path : string;
}.

Record EffectiveInputBinding : Type := {
  ei_authority : string;
  ei_relative_object : string;
  ei_digest : string;
  ei_byte_length : Z;
  ei_presentation_relative_path : string;
  ei_access : InputAccessMode.t;
}.

Record ExecutionBudget : Type := {
  budget_memory_max_bytes : option Z;
  budget_tasks_max : option Z;
  budget_cpu_quota_percent : option Z;
}.

Record UniversalExecutionStep : Type := {
  ues_id : string;
  ues_executable : string;
  ues_args : list string;
  ues_cwd_relative : string;
  ues_env : gmap string string;
  ues_timeout_ms : Z;
  ues_continue_on_error : bool;
}.

Record ExecutionStepProposal : Type := {
  esp_id : string;
  esp_executable : string;
  esp_args : list string;
  esp_cwd_relative : string;
  esp_env : gmap string string;
  esp_timeout_ms : option Z;
  esp_continue_on_error : bool;
}.

Record RuntimeExecutionStep : Type := {
  step_id : string;
  step_executable : string;
  step_executable_digest : string;
  step_args : list string;
  step_cwd : string;
  step_env : gmap string string;
  step_timeout_ms : Z;
  step_continue_on_error : bool;
}.

Record RuntimeExecutionPlan : Type := {
  plan_schema_version : Z;
  plan_workspace_id : string;
  plan_workspace_path : string;
  plan_source_revision : string;
  plan_workspace_source_digest : option string;
  plan_workspace_git_common_dir : option string;
  plan_executable : string;
  plan_executable_digest : string;
  plan_args : list string;
  plan_cwd : string;
  plan_env : gmap string string;
  plan_timeout_ms : Z;
  plan_stdout_limit_bytes : Z;
  plan_stderr_limit_bytes : Z;
  plan_steps : list RuntimeExecutionStep;
  plan_budget : ExecutionBudget;
  plan_execution_profile : ExecutionProfile.t;
  plan_execution_target : ExecutionTarget.t;
  plan_windows_authority : WindowsAuthority.t;
  plan_windows_execution_context : option WindowsExecutionContext;
  plan_foreign_references : list ForeignReference;
  plan_input_set_id : option string;
  plan_effective_inputs : list EffectiveInputBinding;
  plan_credential_set_id : option string;
  plan_principal : string;
}.

Record SubmitRequest : Type := {
  sub_schema_version : Z;
  sub_client_request_id : string;
  sub_request_identity_digest : option string;
  sub_execution_provider : option ExecutionProviderSnapshot;
  sub_runtime_release_effect : option RuntimeReleaseEffectBinding;
  sub_host_dependencies : list HostDependencyBinding;
  sub_plan : RuntimeExecutionPlan;
  sub_global_limit : Z;
}.

Record OperationRequestIdentity : Type := {
  ori_schema_version : Z;
  ori_principal : string;
  ori_workspace_id : string;
  ori_executable : string;
  ori_args : list string;
  ori_cwd_relative : string;
  ori_env : gmap string string;
  ori_timeout_ms : Z;
  ori_stdout_limit_bytes : Z;
  ori_stderr_limit_bytes : Z;
  ori_steps : list UniversalExecutionStep;
  ori_budget : ExecutionBudget;
  ori_execution_profile : ExecutionProfile.t;
  ori_execution_target : ExecutionTarget.t;
  ori_windows_authority : option WindowsAuthority.t;
  ori_foreign_references : list ForeignReference;
  ori_host_dependencies : list HostDependencyBinding;
}.

Record RuntimeJobRecord : Type := {
  job_job_id : string;
  job_principal : string;
  job_client_request_id : string;
  job_request_digest : string;
  job_operation_digest : string;
  job_workspace_id : string;
  job_workspace_snapshot_json : string;
  job_execution_plan_json : string;
  job_execution_plan_digest : string;
  job_created_at_ms : Z;
  job_desired_state : JobDesiredState.t;
  job_resolution : option JobResolution.t;
  job_current_attempt_id : option string;
  job_row_version : Z;
}.

Record AttemptRecord : Type := {
  att_attempt_id : string;
  att_job_id : string;
  att_attempt_number : Z;
  att_state : AttemptState.t;
  att_termination_intent : AttemptTerminationIntent.t;
  att_launch_token_digest : string;
  att_bundle_path : string;
  att_bundle_digest : option string;
  att_boot_id : option string;
  att_unit_name : string;
  att_invocation_id : option string;
  att_control_group : option string;
  att_main_pid : option Z;
  att_process_start_identity : option string;
  att_runner_start_digest : option string;
  att_result_digest : option string;
  att_exit_code : option Z;
  att_infrastructure_error_digest : option string;
  att_created_at_ms : Z;
  att_started_at_ms : option Z;
  att_finished_at_ms : option Z;
  att_row_version : Z;
}.

Record ReservationRecord : Type := {
  res_reservation_id : string;
  res_attempt_id : string;
  res_global_limit : Z;
  res_state : ReservationState.t;
  res_acquired_at_ms : Z;
  res_released_at_ms : option Z;
  res_release_reason : option string;
}.

Record CreatedAdmission : Type := {
  created_job : RuntimeJobRecord;
  created_attempt : AttemptRecord;
  created_reservation : ReservationRecord;
  created_launch_token : string;
}.

Inductive AdmissionOutcome : Type :=
  | Created (admission : CreatedAdmission)
  | Existing (job : RuntimeJobRecord).

Record ArtifactRegistration : Type := {
  areg_artifact_id : string;
  areg_kind : string;
  areg_relative_path : string;
  areg_digest : string;
  areg_media_type : string;
  areg_byte_length : Z;
  areg_truncated : bool;
}.

Record ArtifactDescriptor : Type := {
  adesc_artifact_id : string;
  adesc_kind : string;
  adesc_digest : string;
  adesc_retained_bytes : Z;
  adesc_dropped_bytes : option Z;
  adesc_truncated : bool;
}.

Record RuntimeArtifactRecord : Type := {
  art_artifact_id : string;
  art_job_id : string;
  art_attempt_id : string;
  art_kind : string;
  art_relative_path : string;
  art_digest : string;
  art_media_type : string;
  art_byte_length : Z;
  art_truncated : bool;
  art_created_at_ms : Z;
}.

Record TerminalCommit : Type := {
  tc_attempt_id : string;
  tc_expected_row_version : Z;
  tc_state : AttemptState.t;
  tc_result_digest : string;
  tc_exit_code : option Z;
  tc_infrastructure_error_digest : option string;
  tc_finished_at_ms : Z;
  tc_artifacts : list ArtifactRegistration;
  tc_reason_code : string;
}.

Record JobProjection : Type := {
  jp_job_id : string;
  jp_operation_digest : string;
  jp_status : string;
  jp_desired_state : JobDesiredState.t;
  jp_attempt_id : option string;
  jp_attempt_state : option AttemptState.t;
  jp_termination_intent : option AttemptTerminationIntent.t;
  jp_exit_code : option Z;
  jp_execution_terminal : bool;
  jp_execution_disposition : option JobResolution.t;
  jp_execution_reason_code : option string;
  jp_delivery_disposition : RuntimeDeliveryDisposition.t;
  jp_recovery_required : bool;
  jp_semantic_completion_evaluated : bool;
  jp_result_available : bool;
  jp_artifacts_available : bool;
  jp_artifacts : list ArtifactDescriptor;
  jp_poll_after_ms : option Z;
}.

Record RuntimeJobListCursor : Type := {
  jlc_created_at_ms : Z;
  jlc_job_id : string;
}.

Record RuntimeJobListRequest : Type := {
  jlr_limit : Z;
  jlr_cursor : option RuntimeJobListCursor;
  jlr_client_request_id : option string;
  jlr_workspace_id : option string;
}.

Record RuntimeJobSummary : Type := {
  js_job_id : string;
  js_operation_digest : string;
  js_status : string;
  js_desired_state : JobDesiredState.t;
  js_attempt_id : option string;
  js_attempt_state : option AttemptState.t;
  js_termination_intent : option AttemptTerminationIntent.t;
  js_exit_code : option Z;
  js_execution_terminal : bool;
  js_execution_disposition : option JobResolution.t;
  js_execution_reason_code : option string;
  js_delivery_disposition : RuntimeDeliveryDisposition.t;
  js_recovery_required : bool;
  js_semantic_completion_evaluated : bool;
  js_client_request_id : string;
  js_workspace_id : string;
  js_source_revision : string;
  js_executable_name : string;
  js_cwd_relative : string;
  js_created_at_ms : Z;
  js_started_at_ms : option Z;
  js_finished_at_ms : option Z;
  js_duration_ms : Z;
  js_result_available : bool;
  js_artifacts_available : bool;
  js_artifact_count : Z;
  js_poll_after_ms : option Z;
}.

Record RuntimeJobListResult : Type := {
  jl_jobs : list RuntimeJobSummary;
  jl_next_cursor : option RuntimeJobListCursor;
}.

Record RuntimeInvariantViolation : Type := {
  riv_code : string;
  riv_job_id : option string;
  riv_attempt_id : option string;
  riv_detail : string;
}.

Record RunnerIdentity : Type := {
  rid_boot_id : string;
  rid_unit_name : string;
  rid_invocation_id : string;
  rid_control_group : string;
  rid_main_pid : Z;
  rid_process_start_identity : string;
  rid_runner_start_digest : string;
  rid_observed_at_ms : Z;
}.

Record ExecutionProposal : Type := {
  ep_workspace_id : string;
  ep_executable : string;
  ep_args : list string;
  ep_cwd_relative : string;
  ep_env : gmap string string;
  ep_timeout_ms : option Z;
  ep_stdout_limit_bytes : option Z;
  ep_stderr_limit_bytes : option Z;
  ep_steps : list ExecutionStepProposal;
  ep_budget : ExecutionBudget;
  ep_execution_profile : ExecutionProfile.t;
  ep_execution_target : ExecutionTarget.t;
  ep_windows_authority : WindowsAuthority.t;
  ep_foreign_references : list ForeignReference;
  ep_host_dependencies : list HostDependencyBinding;
}.

Record JobRunProposal : Type := {
  prop_schema_version : Z;
  prop_client_request_id : string;
  prop_principal : string;
  prop_global_limit : Z;
  prop_execution : ExecutionProposal;
  prop_wait_ms : Z;
  prop_stdout_tail_bytes : Z;
  prop_stderr_tail_bytes : Z;
}.

Record UniversalExecutionRequest : Type := {
  uer_workspace_id : string;
  uer_executable : string;
  uer_args : list string;
  uer_cwd_relative : string;
  uer_env : gmap string string;
  uer_timeout_ms : Z;
  uer_stdout_limit_bytes : Z;
  uer_stderr_limit_bytes : Z;
  uer_steps : list UniversalExecutionStep;
  uer_budget : ExecutionBudget;
  uer_execution_profile : ExecutionProfile.t;
  uer_execution_target : ExecutionTarget.t;
  uer_windows_authority : WindowsAuthority.t;
  uer_foreign_references : list ForeignReference;
  uer_host_dependencies : list HostDependencyBinding;
}.

Record JobRunRequest : Type := {
  run_schema_version : Z;
  run_client_request_id : string;
  run_principal : string;
  run_global_limit : Z;
  run_execution : UniversalExecutionRequest;
  run_wait_ms : Z;
  run_stdout_tail_bytes : Z;
  run_stderr_tail_bytes : Z;
}.

(** ** Field updates *)

Definition set_job_desired_state (v : JobDesiredState.t) (r : RuntimeJobRecord) : RuntimeJobRecord :=
  {| job_job_id := job_job_id r; job_principal := job_principal r;
     job_client_request_id := job_client_request_id r;
     job_request_digest := job_request_digest r;
     job_operation_digest := job_operation_digest r; job_workspace_id := job_workspace_id r;
     job_workspace_snapshot_json := job_workspace_snapshot_json r;
     job_execution_plan_json := job_execution_plan_json r;
     job_execution_plan_digest := job_execution_plan_digest r;
     job_created_at_ms := job_created_at_ms r; job_desired_state := v;
     job_resolution := job_resolution r; job_current_attempt_id := job_current_attempt_id r;
     job_row_version := job_row_version r |}.

Definition set_job_resolution (v : option JobResolution.t) (r : RuntimeJobRecord) : RuntimeJobRecord :=
  {| job_job_id := job_job_id r; job_principal := job_principal r;
     job_client_request_id := job_client_request_id r;
     job_request_digest := job_request_digest r;
     job_operation_digest := job_operation_digest r; job_workspace_id := job_workspace_id r;
     job_workspace_snapshot_json := job_workspace_snapshot_json r;
     job_execution_plan_json := job_execution_plan_json r;
     job_execution_plan_digest := job_execution_plan_digest r;
     job_created_at_ms := job_created_at_ms r; job_desired_state := job_desired_state r;
     job_resolution := v; job_current_attempt_id := job_current_attempt_id r;
     job_row_version := job_row_version r |}.

Definition set_job_current_attempt_id (v : option string) (r : RuntimeJobRecord) : RuntimeJobRecord :=
  {| job_job_id := job_job_id r; job_principal := job_principal r;
     job_client_request_id := job_client_request_id r;
     job_request_digest := job_request_digest r;
     job_operation_digest := job_operation_digest r; job_workspace_id := job_workspace_id r;
     job_workspace_snapshot_json := job_workspace_snapshot_json r;
     job_execution_plan_json := job_execution_plan_json r;
     job_execution_plan_digest := job_execution_plan_digest r;
     job_created_at_ms := job_created_at_ms r; job_desired_state := job_desired_state r;
     job_resolution := job_resolution r; job_current_attempt_id := v;
     job_row_version := job_row_version r |}.

Definition set_job_row_version (v : Z) (r : RuntimeJobRecord) : RuntimeJobRecord :=
  {| job_job_id := job_job_id r; job_principal := job_principal r;
     job_client_request_id := job_client_request_id r;
     job_request_digest := job_request_digest r;
     job_operation_digest := job_operation_digest r; job_workspace_id := job_workspace_id r;
     job_workspace_snapshot_json := job_workspace_snapshot_json r;
     job_execution_plan_json := job_execution_plan_json r;
     job_execution_plan_digest := job_execution_plan_digest r;
     job_created_at_ms := job_created_at_ms r; job_desired_state := job_desired_state r;
     job_resolution := job_resolution r; job_current_attempt_id := job_current_attempt_id r;
     job_row_version := v |}.

Definition set_att_state (v : AttemptState.t) (r : AttemptRecord) : AttemptRecord :=
  {| att_attempt_id := att_attempt_id r; att_job_id := att_job_id r;
     att_attempt_number := att_attempt_number r; att_state := v;
     att_termination_intent := att_termination_intent r;
     att_launch_token_digest := att_launch_token_digest r;
     att_bundle_path := att_bundle_path r; att_bundle_digest := att_bundle_digest r;
     att_boot_id := att_boot_id r; att_unit_name := att_unit_name r;
     att_invocation_id := att_invocation_id r; att_control_group := att_control_group r;
     att_main_pid := att_main_pid r;
     att_process_start_identity := att_process_start_identity r;
     att_runner_start_digest := att_runner_start_digest r;
     att_result_digest := att_result_digest r; att_exit_code := att_exit_code r;
     att_infrastructure_error_digest := att_infrastructure_error_digest r;
     att_created_at_ms := att_created_at_ms r; att_started_at_ms := att_started_at_ms r;
     att_finished_at_ms := att_finished_at_ms r; att_row_version := att_row_version r |}.

Definition set_att_termination_intent (v : AttemptTerminationIntent.t) (r : AttemptRecord) : AttemptRecord :=
  {| att_attempt_id := att_attempt_id r; att_job_id := att_job_id r;
     att_attempt_number := att_attempt_number r; att_state := att_state r;
     att_termination_intent := v; att_launch_token_digest := att_launch_token_digest r;
     att_bundle_path := att_bundle_path r; att_bundle_digest := att_bundle_digest r;
     att_boot_id := att_boot_id r; att_unit_name := att_unit_name r;
     att_invocation_id := att_invocation_id r; att_control_group := att_control_group r;
     att_main_pid := att_main_pid r;
     att_process_start_identity := att_process_start_identity r;
     att_runner_start_digest := att_runner_start_digest r;
     att_result_digest := att_result_digest r; att_exit_code := att_exit_code r;
     att_infrastructure_error_digest := att_infrastructure_error_digest r;
     att_created_at_ms := att_created_at_ms r; att_started_at_ms := att_started_at_ms r;
     att_finished_at_ms := att_finished_at_ms r; att_row_version := att_row_version r |}.

Definition set_att_bundle_digest (v : option string) (r : AttemptRecord) : AttemptRecord :=
  {| att_attempt_id := att_attempt_id r; att_job_id := att_job_id r;
     att_attempt_number := att_attempt_number r; att_state := att_state r;
     att_termination_intent := att_termination_intent r;
     att_launch_token_digest := att_launch_token_digest r;
     att_bundle_path := att_bundle_path r; att_bundle_digest := v;
     att_boot_id := att_boot_id r; att_unit_name := att_unit_name r;
     att_invocation_id := att_invocation_id r; att_control_group := att_control_group r;
     att_main_pid := att_main_pid r;
     att_process_start_identity := att_process_start_identity r;
     att_runner_start_digest := att_runner_start_digest r;
     att_result_digest := att_result_digest r; att_exit_code := att_exit_code r;
     att_infrastructure_error_digest := att_infrastructure_error_digest r;
     att_created_at_ms := att_created_at_ms r; att_started_at_ms := att_started_at_ms r;
     att_finished_at_ms := att_finished_at_ms r; att_row_version := att_row_version r |}.

Definition set_att_boot_id (v : option string) (r : AttemptRecord) : AttemptRecord :=
  {| att_attempt_id := att_attempt_id r; att_job_id := att_job_id r;
     att_attempt_number := att_attempt_number r; att_state := att_state r;
     att_termination_intent := att_termination_intent r;
     att_launch_token_digest := att_launch_token_digest r;
     att_bundle_path := att_bundle_path r; att_bundle_digest := att_bundle_digest r;
     att_boot_id := v; att_unit_name := att_unit_name r;
     att_invocation_id := att_invocation_id r; att_control_group := att_control_group r;
     att_main_pid := att_main_pid r;
     att_process_start_identity := att_process_start_identity r;
     att_runner_start_digest := att_runner_start_digest r;
     att_result_digest := att_result_digest r; att_exit_code := att_exit_code r;
     att_infrastructure_error_digest := att_infrastructure_error_digest r;
     att_created_at_ms := att_created_at_ms r; att_started_at_ms := att_started_at_ms r;
     att_finished_at_ms := att_finished_at_ms r; att_row_version := att_row_version r |}.

Definition set_att_invocation_id (v : option string) (r : AttemptRecord) : AttemptRecord :=
  {| att_attempt_id := att_attempt_id r; att_job_id := att_job_id r;
     att_attempt_number := att_attempt_number r; att_state := att_state r;
     att_termination_intent := att_termination_intent r;
     att_launch_token_digest := att_launch_token_digest r;
     att_bundle_path := att_bundle_path r; att_bundle_digest := att_bundle_digest r;
     att_boot_id := att_boot_id r; att_unit_name := att_unit_name r; att_invocation_id := v;
     att_control_group := att_control_group r; att_main_pid := att_main_pid r;
     att_process_start_identity := att_process_start_identity r;
     att_runner_start_digest := att_runner_start_digest r;
     att_result_digest := att_result_digest r; att_exit_code := att_exit_code r;
     att_infrastructure_error_digest := att_infrastructure_error_digest r;
     att_created_at_ms := att_created_at_ms r; att_started_at_ms := att_started_at_ms r;
     att_finished_at_ms := att_finished_at_ms r; att_row_version := att_row_version r |}.

Definition set_att_control_group (v : option string) (r : AttemptRecord) : AttemptRecord :=
  {| att_attempt_id := att_attempt_id r; att_job_id := att_job_id r;
     att_attempt_number := att_attempt_number r; att_state := att_state r;
     att_termination_intent := att_termination_intent r;
     att_launch_token_digest := att_launch_token_digest r;
     att_bundle_path := att_bundle_path r; att_bundle_digest := att_bundle_digest r;
     att_boot_id := att_boot_id r; att_unit_name := att_unit_name r;
     att_invocation_id := att_invocation_id r; att_control_group := v;
     att_main_pid := att_main_pid r;
     att_process_start_identity := att_process_start_identity r;
     att_runner_start_digest := att_runner_start_digest r;
     att_result_digest := att_result_digest r; att_exit_code := att_exit_code r;
     att_infrastructure_error_digest := att_infrastructure_error_digest r;
     att_created_at_ms := att_created_at_ms r; att_started_at_ms := att_started_at_ms r;
     att_finished_at_ms := att_finished_at_ms r; att_row_version := att_row_version r |}.

Definition set_att_main_pid (v : option Z) (r : AttemptRecord) : AttemptRecord :=
  {| att_attempt_id := att_attempt_id r; att_job_id := att_job_id r;
     att_attempt_number := att_attempt_number r; att_state := att_state r;
     att_termination_intent := att_termination_intent r;
     att_launch_token_digest := att_launch_token_digest r;
     att_bundle_path := att_bundle_path r; att_bundle_digest := att_bundle_digest r;
     att_boot_id := att_boot_id r; att_unit_name := att_unit_name r;
     att_invocation_id := att_invocation_id r; att_control_group := att_control_group r;
     att_main_pid := v; att_process_start_identity := att_process_start_identity r;
     att_runner_start_digest := att_runner_start_digest r;
     att_result_digest := att_result_digest r; att_exit_code := att_exit_code r;
     att_infrastructure_error_digest := att_infrastructure_error_digest r;
     att_created_at_ms := att_created_at_ms r; att_started_at_ms := att_started_at_ms r;
     att_finished_at_ms := att_finished_at_ms r; att_row_version := att_row_version r |}.

Definition set_att_process_start_identity (v : option string) (r : AttemptRecord) : AttemptRecord :=
  {| att_attempt_id := att_attempt_id r; att_job_id := att_job_id r;
     att_attempt_number := att_attempt_number r; att_state := att_state r;
     att_termination_intent := att_termination_intent r;
     att_launch_token_digest := att_launch_token_digest r;
     att_bundle_path := att_bundle_path r; att_bundle_digest := att_bundle_digest r;
     att_boot_id := att_boot_id r; att_unit_name := att_unit_name r;
     att_invocation_id := att_invocation_id r; att_control_group := att_control_group r;
     att_main_pid := att_main_pid r; att_process_start_identity := v;
     att_runner_start_digest := att_runner_start_digest r;
     att_result_digest := att_result_digest r; att_exit_code := att_exit_code r;
     att_infrastructure_error_digest := att_infrastructure_error_digest r;
     att_created_at_ms := att_created_at_ms r; att_started_at_ms := att_started_at_ms r;
     att_finished_at_ms := att_finished_at_ms r; att_row_version := att_row_version r |}.

Definition set_att_runner_start_digest (v : option string) (r : AttemptRecord) : AttemptRecord :=
  {| att_attempt_id := att_attempt_id r; att_job_id := att_job_id r;
     att_attempt_number := att_attempt_number r; att_state := att_state r;
     att_termination_intent := att_termination_intent r;
     att_launch_token_digest := att_launch_token_digest r;
     att_bundle_path := att_bundle_path r; att_bundle_digest := att_bundle_digest r;
     att_boot_id := att_boot_id r; att_unit_name := att_unit_name r;
     att_invocation_id := att_invocation_id r; att_control_group := att_control_group r;
     att_main_pid := att_main_pid r;
     att_process_start_identity := att_process_start_identity r; att_runner_start_digest := v;
     att_result_digest := att_result_digest r; att_exit_code := att_exit_code r;
     att_infrastructure_error_digest := att_infrastructure_error_digest r;
     att_created_at_ms := att_created_at_ms r; att_started_at_ms := att_started_at_ms r;
     att_finished_at_ms := att_finished_at_ms r; att_row_version := att_row_version r |}.

Definition set_att_result_digest (v : option string) (r : AttemptRecord) : AttemptRecord :=
  {| att_attempt_id := att_attempt_id r; att_job_id := att_job_id r;
     att_attempt_number := att_attempt_number r; att_state := att_state r;
     att_termination_intent := att_termination_intent r;
     att_launch_token_digest := att_launch_token_digest r;
     att_bundle_path := att_bundle_path r; att_bundle_digest := att_bundle_digest r;
     att_boot_id := att_boot_id r; att_unit_name := att_unit_name r;
     att_invocation_id := att_invocation_id r; att_control_group := att_control_group r;
     att_main_pid := att_main_pid r;
     att_process_start_identity := att_process_start_identity r;
     att_runner_start_digest := att_runner_start_digest r; att_result_digest := v;
     att_exit_code := att_exit_code r;
     att_infrastructure_error_digest := att_infrastructure_error_digest r;
     att_created_at_ms := att_created_at_ms r; att_started_at_ms := att_started_at_ms r;
     att_finished_at_ms := att_finished_at_ms r; att_row_version := att_row_version r |}.

Definition set_att_exit_code (v : option Z) (r : AttemptRecord) : AttemptRecord :=
  {| att_attempt_id := att_attempt_id r; att_job_id := att_job_id r;
     att_attempt_number := att_attempt_number r; att_state := att_state r;
     att_termination_intent := att_termination_intent r;
     att_launch_token_digest := att_launch_token_digest r;
     att_bundle_path := att_bundle_path r; att_bundle_digest := att_bundle_digest r;
     att_boot_id := att_boot_id r; att_unit_name := att_unit_name r;
     att_invocation_id := att_invocation_id r; att_control_group := att_control_group r;
     att_main_pid := att_main_pid r;
     att_process_start_identity := att_process_start_identity r;
     att_runner_start_digest := att_runner_start_digest r;
     att_result_digest := att_result_digest r; att_exit_code := v;
     att_infrastructure_error_digest := att_infrastructure_error_digest r;
     att_created_at_ms := att_created_at_ms r; att_started_at_ms := att_started_at_ms r;
     att_finished_at_ms := att_finished_at_ms r; att_row_version := att_row_version r |}.

Definition set_att_infrastructure_error_digest (v : option string) (r : AttemptRecord) : AttemptRecord :=
  {| att_attempt_id := att_attempt_id r; att_job_id := att_job_id r;
     att_attempt_number := att_attempt_number r; att_state := att_state r;
     att_termination_intent := att_termination_intent r;
     att_launch_token_digest := att_launch_token_digest r;
     att_bundle_path := att_bundle_path r; att_bundle_digest := att_bundle_digest r;
     att_boot_id := att_boot_id r; att_unit_name := att_unit_name r;
     att_invocation_id := att_invocation_id r; att_control_group := att_control_group r;
     att_main_pid := att_main_pid r;
     att_process_start_identity := att_process_start_identity r;
     att_runner_start_digest := att_runner_start_digest r;
     att_result_digest := att_result_digest r; att_exit_code := att_exit_code r;
     att_infrastructure_error_digest := v; att_created_at_ms := att_created_at_ms r;
     att_started_at_ms := att_started_at_ms r; att_finished_at_ms := att_finished_at_ms r;
     att_row_version := att_row_version r |}.

Definition set_att_started_at_ms (v : option Z) (r : AttemptRecord) : AttemptRecord :=
  {| att_attempt_id := att_attempt_id r; att_job_id := att_job_id r;
     att_attempt_number := att_attempt_number r; att_state := att_state r;
     att_termination_intent := att_termination_intent r;
     att_launch_token_digest := att_launch_token_digest r;
     att_bundle_path := att_bundle_path r; att_bundle_digest := att_bundle_digest r;
     att_boot_id := att_boot_id r; att_unit_name := att_unit_name r;
     att_invocation_id := att_invocation_id r; att_control_group := att_control_group r;
     att_main_pid := att_main_pid r;
     att_process_start_identity := att_process_start_identity r;
     att_runner_start_digest := att_runner_start_digest r;
     att_result_digest := att_result_digest r; att_exit_code := att_exit_code r;
     att_infrastructure_error_digest := att_infrastructure_error_digest r;
     att_created_at_ms := att_created_at_ms r; att_started_at_ms := v;
     att_finished_at_ms := att_finished_at_ms r; att_row_version := att_row_version r |}.

Definition set_att_finished_at_ms (v : option Z) (r : AttemptRecord) : AttemptRecord :=
  {| att_attempt_id := att_attempt_id r; att_job_id := att_job_id r;
     att_attempt_number := att_attempt_number r; att_state := att_state r;
     att_termination_intent := att_termination_intent r;
     att_launch_token_digest := att_launch_token_digest r;
     att_bundle_path := att_bundle_path r; att_bundle_digest := att_bundle_digest r;
     att_boot_id := att_boot_id r; att_unit_name := att_unit_name r;
     att_invocation_id := att_invocation_id r; att_control_group := att_control_group r;
     att_main_pid := att_main_pid r;
     att_process_start_identity := att_process_start_identity r;
     att_runner_start_digest := att_runner_start_digest r;
     att_result_digest := att_result_digest r; att_exit_code := att_exit_code r;
     att_infrastructure_error_digest := att_infrastructure_error_digest r;
     att_created_at_ms := att_created_at_ms r; att_started_at_ms := att_started_at_ms r;
     att_finished_at_ms := v; att_row_version := att_row_version r |}.

Definition set_att_row_version (v : Z) (r : AttemptRecord) : AttemptRecord :=
  {| att_attempt_id := att_attempt_id r; att_job_id := att_job_id r;
     att_attempt_number := att_attempt_number r; att_state := att_state r;
     att_termination_intent := att_termination_intent r;
     att_launch_token_digest := att_launch_token_digest r;
     att_bundle_path := att_bundle_path r; att_bundle_digest := att_bundle_digest r;
     att_boot_id := att_boot_id r; att_unit_name := att_unit_name r;
     att_invocation_id := att_invocation_id r; att_control_group := att_control_group r;
     att_main_pid := att_main_pid r;
     att_process_start_identity := att_process_start_identity r;
     att_runner_start_digest := att_runner_start_digest r;
     att_result_digest := att_result_digest r; att_exit_code := att_exit_code r;
     att_infrastructure_error_digest := att_infrastructure_error_digest r;
     att_created_at_ms := att_created_at_ms r; att_started_at_ms := att_started_at_ms r;
     att_finished_at_ms := att_finished_at_ms r; att_row_version := v |}.

Definition set_res_state (v : ReservationState.t) (r : ReservationRecord) : ReservationRecord :=
  {| res_reservation_id := res_reservation_id r; res_attempt_id := res_attempt_id r;
     res_global_limit := res_global_limit r; res_state := v;
     res_acquired_at_ms := res_acquired_at_ms r; res_released_at_ms := res_released_at_ms r;
     res_release_reason := res_release_reason r |}.

Definition set_res_released_at_ms (v : option Z) (r : ReservationRecord) : ReservationRecord :=
  {| res_reservation_id := res_reservation_id r; res_attempt_id := res_attempt_id r;
     res_global_limit := res_global_limit r; res_state := res_state r;
     res_acquired_at_ms := res_acquired_at_ms r; res_released_at_ms := v;
     res_release_reason := res_release_reason r |}.

Definition set_res_release_reason (v : option string) (r : ReservationRecord) : ReservationRecord :=
  {| res_reservation_id := res_reservation_id r; res_attempt_id := res_attempt_id r;
     res_global_limit := res_global_limit r; res_state := res_state r;
     res_acquired_at_ms := res_acquired_at_ms r; res_released_at_ms := res_released_at_ms r;
     res_release_reason := v |}.

(** ** Database text round trips *)

Lemma desired_state_roundtrip s : JobDesiredState.parse (JobDesiredState.as_db s) = Ok s.
Proof. by destruct s. Qed.
Lemma resolution_roundtrip s : JobResolution.parse (JobResolution.as_db s) = Ok s.
Proof. by destruct s. Qed.
Lemma attempt_state_roundtrip s : AttemptState.parse (AttemptState.as_db s) = Ok s.
Proof. by destruct s. Qed.
Lemma termination_intent_roundtrip s :
  AttemptTerminationIntent.parse (AttemptTerminationIntent.as_db s) = Ok s.
Proof. by destruct s. Qed.
Lemma reservation_state_roundtrip s : ReservationState.parse (ReservationState.as_db s) = Ok s.
Proof. by destruct s. Qed.

#[export] Hint Rewrite desired_state_roundtrip resolution_roundtrip attempt_state_roundtrip
  termination_intent_roundtrip reservation_state_roundtrip : ordivon_rw.

Lemma terminal_has_no_successor s next :
  AttemptState.is_terminal s = true -> AttemptState.can_transition_to s next = false.
Proof. by destruct s. Qed.
