(* ===== verification/Supervisor.v ===== *)
(** * Supervisor

    Model of [runtime/supervisor.rs]: the identity a supervisor leaves behind,
    what is observed of it later, and the classification of an Attempt after
    a restart. *)

From S2P Require Import Prelude Text Errors Types.

#[local] Open Scope Z_scope.

Record SupervisorIdentity : Type := {
  si_boot_id : string;
  si_unit_name : string;
  si_invocation_id : string;
  si_control_group : string;
  si_main_pid : Z;
  si_main_process_start_identity : string;
}.

Module SupervisorUnitState.
Inductive t : Type := Running | Terminal | NotFound.
#[global] Instance eq_dec : EqDecision t.
Proof. solve_decision. Defined.
End SupervisorUnitState.

Record SupervisorObservation : Type := {
  so_boot_id : string;
  so_unit_state : SupervisorUnitState.t;
  so_invocation_id : option string;
  so_control_group : option string;
  so_main_pid : option Z;
  so_main_process_start_identity : option string;
  so_recorded_pid_alive : bool;
  so_recorded_pid_start_identity : option string;
  so_result : option string;
  so_exec_main_code : option Z;
  so_exec_main_status : option Z;
}.

Module SupervisorRecoveryDisposition.
Inductive t : Type :=
  | Running
  | Terminal (state : AttemptState.t)
  | Lost
  | Orphaned (reason : string).
#[global] Instance eq_dec : EqDecision t.
Proof. solve_decision. Defined.
End SupervisorRecoveryDisposition.

Module TerminationIntent.
Inductive t : Type := Natural | StopRequested | DeadlineExceeded.
#[global] Instance eq_dec : EqDecision t.
Proof. solve_decision. Defined.
End TerminationIntent.

(** [AttemptSupervisorOwner::WindowsLauncherV1] *)
Inductive AttemptSupervisorOwner : Type :=
  | WindowsLauncherV1
      (launcher_process_id : Z)
      (launcher_process_creation_time_file_time : Z)
      (launcher_image_digest : string)
      (job_name : string)
      (start_evidence_digest : string).

(** [AttemptSupervisorOwner::start_evidence_digest] *)
Definition start_evidence_digest (owner : AttemptSupervisorOwner) : string :=
  let '(WindowsLauncherV1 _ _ _ _ digest) := owner in digest.

(** [AttemptSupervisorOwner::contract_name] *)
Definition contract_name (owner : AttemptSupervisorOwner) : string :=
  match owner with WindowsLauncherV1 _ _ _ _ _ => "windows_launcher_v1" end.

Record WindowsLauncherOwnerObservation : Type := {
  wo_process_alive : bool;
  wo_process_creation_time_file_time : option Z;
}.

Definition is_sha256_digest (value : string) : bool :=
  (str_len value =? 71) && starts_with "sha256:" value
  && forallb is_ascii_hexdigit (bytes (str_drop 7 value)).

Definition validate_attempt_supervisor_owner (owner : AttemptSupervisorOwner)
    : RuntimeResult unit :=
  match owner with
  | WindowsLauncherV1 pid creation image job_name start =>
      fail_if
        ((pid =? 0) || (creation =? 0) || String.eqb job_name ""
         || negb (starts_with "Ordivon." job_name)
         || negb (is_sha256_digest image) || negb (is_sha256_digest start))
        (error_new RegistryCorrupt "persisted Windows launcher owner identity is incomplete"
           (Some "attemptSupervisorOwner") false)
  end.

Definition classify_windows_launcher_recovery (expected : AttemptSupervisorOwner)
    (observation : WindowsLauncherOwnerObservation) (termination_intent : TerminationIntent.t)
    : RuntimeResult SupervisorRecoveryDisposition.t :=
  validate_attempt_supervisor_owner expected ;;
  let '(WindowsLauncherV1 _ creation _ _ _) := expected in
  if wo_process_alive observation then
    if wo_process_creation_time_file_time observation != Some creation then
      Ok (SupervisorRecoveryDisposition.Orphaned
            "launcher process creation identity does not match persisted owner")
    else Ok SupervisorRecoveryDisposition.Running
  else
    Ok (SupervisorRecoveryDisposition.Terminal
          match termination_intent with
          | TerminationIntent.StopRequested => AttemptState.Cancelled
          | TerminationIntent.DeadlineExceeded => AttemptState.TimedOut
          | TerminationIntent.Natural => AttemptState.Failed
          end).

Definition classify_terminal_state (intent : TerminationIntent.t) (result : option string)
    (exec_main_code exec_main_status : option Z) : AttemptState.t :=
  match intent with
  | TerminationIntent.StopRequested => AttemptState.Cancelled
  | TerminationIntent.DeadlineExceeded => AttemptState.TimedOut
  | TerminationIntent.Natural =>
      if (result == Some "success"%string)
         || ((exec_main_code == Some 1) && (exec_main_status == Some 0))
      then AttemptState.Succeeded
      else AttemptState.Failed
  end.

Definition validate_identity (identity : SupervisorIdentity) : RuntimeResult unit :=
  fail_if
    (String.eqb (si_boot_id identity) ""
     || String.eqb (si_invocation_id identity) ""
     || String.eqb (si_main_process_start_identity identity) ""
     || (si_main_pid identity =? 0)
     || negb (ends_with ".service" (si_unit_name identity))
     || negb (starts_with "/" (si_control_group identity)))
    (error_new RegistryCorrupt "persisted supervisor identity is incomplete"
       (Some "supervisorIdentity") false).

Definition terminal_identity_mismatch (expected : SupervisorIdentity)
    (observed : SupervisorObservation) : option string :=
  if so_invocation_id observed != Some (si_invocation_id expected) then
    Some "invocationId does not match persisted supervisor identity"
  else if match so_control_group observed with
          | Some actual => actual != si_control_group expected
          | None => false
          end then
    Some "controlGroup does not match persisted supervisor identity"
  else None.

(** The [for] loop over (field, actual, expected) of [running_identity_mismatch]. *)
Fixpoint first_field_mismatch (l : list (string * option string * string)) : option string :=
  match l with
  | [] => None
  | (field, actual, expected_value) :: l' =>
      if actual != Some expected_value
      then Some (field +:+ " does not match persisted supervisor identity")
      else first_field_mismatch l'
  end.

Definition running_identity_mismatch (expected : SupervisorIdentity)
    (observed : SupervisorObservation) : option string :=
  match first_field_mismatch
          [ ("invocationId", so_invocation_id observed, si_invocation_id expected);
            ("controlGroup", so_control_group observed, si_control_group expected);
            ("mainProcessStartIdentity", so_main_process_start_identity observed,
             si_main_process_start_identity expected) ] with
  | Some reason => Some reason
  | None =>
      if so_main_pid observed != Some (si_main_pid expected)
      then Some "mainPid does not match persisted supervisor identity"
      else None
  end.

Definition classify_supervisor_recovery (expected : SupervisorIdentity)
    (observation : SupervisorObservation) (termination_intent : TerminationIntent.t)
    : RuntimeResult SupervisorRecoveryDisposition.t :=
  validate_identity expected ;;
  if so_boot_id observation != si_boot_id expected then
    Ok SupervisorRecoveryDisposition.Lost
  else
    match so_unit_state observation with
    | SupervisorUnitState.Running =>
        match running_identity_mismatch expected observation with
        | Some reason => Ok (SupervisorRecoveryDisposition.Orphaned reason)
        | None => Ok SupervisorRecoveryDisposition.Running
        end
    | SupervisorUnitState.Terminal =>
        match terminal_identity_mismatch expected observation with
        | Some reason => Ok (SupervisorRecoveryDisposition.Orphaned reason)
        | None =>
            Ok (SupervisorRecoveryDisposition.Terminal
                  (classify_terminal_state termination_intent (so_result observation)
                     (so_exec_main_code observation) (so_exec_main_status observation)))
        end
    | SupervisorUnitState.NotFound =>
        if so_recorded_pid_alive observation
           && (so_recorded_pid_start_identity observation
               == Some (si_main_process_start_identity expected)) then
          Ok (SupervisorRecoveryDisposition.Orphaned
                "recorded process identity is alive but supervisor unit is missing")
        else
          Ok match termination_intent with
             | TerminationIntent.StopRequested =>
                 SupervisorRecoveryDisposition.Terminal AttemptState.Cancelled
             | TerminationIntent.DeadlineExceeded =>
                 SupervisorRecoveryDisposition.Terminal AttemptState.TimedOut
             | TerminationIntent.Natural => SupervisorRecoveryDisposition.Lost
             end
    end.
