(* ===== verification/Platform.v ===== *)
(** * Platform

    The code outside this repository that the Runtime calls, as one interface:
    the [sha2]/[hex] digest, [uuid], the [serde_json] renderings, and the
    [sysconf] limits.  Every component takes it as a parameter; what the
    theorems rely on is stated in [PlatformLaws]. *)

From S2P Require Import Prelude Text Errors Types Supervisor.

#[local] Open Scope Z_scope.

(** A [serde_json::Value]; [JOther] is an array or a number that is no 64-bit
    integer, by its text: the code never looks into one. *)
Inductive Json : Type :=
  | JNull
  | JBool (b : bool)
  | JNum (n : Z)
  | JStr (s : string)
  | JOther (text : string)
  | JObj (fields : list (string * Json)).

(** [value[key] = v] on an object: fields stay ordered by key, as in the
    [BTreeMap] behind [serde_json::Map]. *)
Fixpoint obj_insert (key : string) (v : Json) (fields : list (string * Json))
    : list (string * Json) :=
  match fields with
  | [] => [(key, v)]
  | (k, w) :: rest =>
      if String.eqb key k then (key, v) :: rest
      else if String.leb key k then (key, v) :: (k, w) :: rest
      else (k, w) :: obj_insert key v rest
  end.

Definition obj (fields : list (string * Json)) : Json :=
  JObj (foldl (fun acc kv => obj_insert kv.1 kv.2 acc) [] fields).

(** [serde_json] renders [None] as [null]. *)
Definition opt_str (o : option string) : Json :=
  match o with Some s => JStr s | None => JNull end.
Definition opt_num (o : option Z) : Json :=
  match o with Some n => JNum n | None => JNull end.

Class Platform : Type := {
  (** [hex::encode(Sha256::digest(bytes))] *)
  sha256_hex : string -> string;
  (** the text of the [n]-th [Uuid::now_v7()] drawn for a Job event *)
  uuid_v7 : nat -> string;
  (** [serde_json::to_string] on a [Value], and [from_str] *)
  json_to_string : Json -> string;
  json_of_string : string -> result string Json;
  (** [serde_json::to_string] / [from_str] on the derived types *)
  plan_to_json : RuntimeExecutionPlan -> string;
  plan_of_json : string -> result string RuntimeExecutionPlan;
  provider_to_json : ExecutionProviderSnapshot -> string;
  provider_of_json : string -> result string ExecutionProviderSnapshot;
  host_dependencies_to_json : list HostDependencyBinding -> string;
  host_dependencies_of_json : string -> result string (list HostDependencyBinding);
  release_to_json : RuntimeReleaseEffectBinding -> string;
  submit_to_json : SubmitRequest -> string;
  operation_identity_to_json : OperationRequestIdentity -> string;
  owner_to_json : AttemptSupervisorOwner -> string;
  owner_of_json : string -> result string AttemptSupervisorOwner;
  (** [sysconf(_SC_PAGESIZE)] and [sysconf(_SC_ARG_MAX)] *)
  sc_page_size : Z;
  sc_arg_max : Z;
  (** [str::to_lowercase]: the Unicode lower-case mapping *)
  to_lowercase : string -> string;
}.

(** The values that [serde_json] writes and reads back unchanged: integers
    between the least [i64] and the greatest [u64], fields in strict key order. *)
Fixpoint keys_sorted (fields : list (string * Json)) : bool :=
  match fields with
  | (k1, _) :: (((k2, _) :: _) as rest) =>
      String.leb k1 k2 && negb (String.eqb k1 k2) && keys_sorted rest
  | _ => true
  end.

Fixpoint json_canonical (v : Json) : bool :=
  match v with
  | JNull | JBool _ | JStr _ => true
  | JNum n => (- 2 ^ 63 <=? n) && (n <? 2 ^ 64)
  | JOther _ => false
  | JObj fields => keys_sorted fields && forallb (fun kv => json_canonical kv.2) fields
  end.

(** Documented behaviour of that code. *)
Class PlatformLaws (P : Platform) : Prop := {
  (** a SHA-256 digest is 32 bytes, [hex::encode] prints two lower-case digits each *)
  sha256_hex_length : forall s, String.length (sha256_hex s) = 64%nat;
  sha256_hex_digits : forall s, Forall (fun b => is_ascii_hexdigit b = true) (bytes (sha256_hex s));
  (** version 7 UUIDs are unique *)
  uuid_v7_unique : forall n m, uuid_v7 n = uuid_v7 m -> n = m;
  (** [from_str] reads back what [to_string] wrote *)
  json_roundtrip : forall v, json_canonical v = true -> json_of_string (json_to_string v) = Ok v;
  plan_json_roundtrip : forall p, plan_of_json (plan_to_json p) = Ok p;
  provider_json_roundtrip : forall p, provider_of_json (provider_to_json p) = Ok p;
  host_dependencies_json_roundtrip : forall l,
    host_dependencies_of_json (host_dependencies_to_json l) = Ok l;
  owner_json_roundtrip : forall o, owner_of_json (owner_to_json o) = Ok o;
}.

Section platform.
Context `{P : Platform}.

(** [sha256_bytes] of [runtime/registry.rs] and [universal/fsutil.rs] *)
Definition sha256_bytes (text : string) : string := "sha256:" +:+ sha256_hex text.
End platform.

(** The [\0] separator of the digest inputs. *)
Definition nul : string := String (Ascii.ascii_of_N 0) EmptyString.
