(* ===== verification/TestPlatform.v ===== *)
(** * A platform to test on

    An instance of [Platform]: a JSON printer with its parser, a digest, ids
    and fixed system limits, on which every witness evaluates. *)

From S2P Require Import Prelude Text Errors Types Supervisor Platform.

(** ** A concrete JSON text

    A small serialiser with its reader, for the executable platform: every
    [Json] value reads back, and records are coded through the class [Coded]. *)

#[local] Open Scope Z_scope.

Definition chr (n : N) : Ascii.ascii := Ascii.ascii_of_N n.
(** [']: ends a text; [\\] escapes. *)
Definition quote : Ascii.ascii := chr 39.
Definition backslash : Ascii.ascii := chr 92.
Definition text_of (c : Ascii.ascii) : string := String c EmptyString.

(** ** Writing *)

Fixpoint escape (s : string) (rest : string) : string :=
  match s with
  | EmptyString => String quote rest
  | String c s' =>
      if Ascii.eqb c quote || Ascii.eqb c backslash
      then String backslash (String c (escape s' rest)) else String c (escape s' rest)
  end.

Fixpoint bits (p : positive) (rest : string) : string :=
  match p with
  | xH => String (chr 46) rest
  | xO p' => String (chr 48) (bits p' rest)
  | xI p' => String (chr 49) (bits p' rest)
  end.

(** [json_text v rest] is the text of [v] followed by [rest]. *)
Fixpoint json_text (v : Json) (rest : string) : string :=
  match v with
  | JNull => String (chr 110) rest
  | JBool true => String (chr 116) rest
  | JBool false => String (chr 102) rest
  | JNum n => String (chr 35) (bits (encode n) rest)
  | JStr s => String quote (escape s rest)
  | JOther t => String (chr 37) (escape t rest)
  | JObj fields =>
      String (chr 123)
        ((fix go (l : list (string * Json)) : string :=
            match l with
            | [] => String (chr 125) rest
            | (k, w) :: l' => String quote (escape k (json_text w (go l')))
            end) fields)
  end.

(** ** Reading *)

Fixpoint unescape (s : string) : option (string * string) :=
  match s with
  | EmptyString => None
  | String c s' =>
      if Ascii.eqb c quote then Some (EmptyString, s')
      else if Ascii.eqb c backslash then
        match s' with
        | String c' s'' => '(t, rest) ← unescape s''; Some (String c' t, rest)
        | EmptyString => None
        end
      else '(t, rest) ← unescape s'; Some (String c t, rest)
  end.

Fixpoint unbits (s : string) : option (positive * string) :=
  match s with
  | EmptyString => None
  | String c s' =>
      if Ascii.eqb c (chr 46) then Some (xH, s')
      else '(p, rest) ← unbits s';
           if Ascii.eqb c (chr 48) then Some (xO p, rest)
           else if Ascii.eqb c (chr 49) then Some (xI p, rest) else None
  end.

Fixpoint read_json (fuel : nat) (s : string) : option (Json * string) :=
  match fuel, s with
  | S fuel', String c s' =>
      if Ascii.eqb c (chr 110) then Some (JNull, s')
      else if Ascii.eqb c (chr 116) then Some (JBool true, s')
      else if Ascii.eqb c (chr 102) then Some (JBool false, s')
      else if Ascii.eqb c (chr 35) then
        '(p, rest) ← unbits s'; n ← decode p; Some (JNum n, rest)
      else if Ascii.eqb c quote then '(t, rest) ← unescape s'; Some (JStr t, rest)
      else if Ascii.eqb c (chr 37) then '(t, rest) ← unescape s'; Some (JOther t, rest)
      else if Ascii.eqb c (chr 123) then '(l, rest) ← read_fields fuel' s'; Some (JObj l, rest)
      else None
  | _, _ => None
  end
with read_fields (fuel : nat) (s : string) : option (list (string * Json) * string) :=
  match fuel, s with
  | S fuel', String c s' =>
      if Ascii.eqb c (chr 125) then Some ([], s')
      else if Ascii.eqb c quote then
        '(k, r1) ← unescape s'; '(v, r2) ← read_json fuel' r1;
        '(l, r3) ← read_fields fuel' r2; Some ((k, v) :: l, r3)
      else None
  | _, _ => None
  end.

Definition json_read (s : string) : result string Json :=
  match read_json (S (String.length s)) s with
  | Some (v, EmptyString) => Ok v
  | _ => Err "malformed JSON"
  end.

(** ** Round trip *)

Lemma unescape_escape s rest : unescape (escape s rest) = Some (s, rest).
Proof.
  induction s as [ | c s IH]; [done | ]. cbn [escape].
  destruct (Ascii.eqb c quote) eqn:Hq; [ | destruct (Ascii.eqb c backslash) eqn:Hb]; cbn [orb unescape].
  - change (Ascii.eqb backslash quote) with false. cbn [unescape]. rewrite Ascii.eqb_refl. by rewrite IH.
  - change (Ascii.eqb backslash quote) with false. rewrite Ascii.eqb_refl. by rewrite IH.
  - rewrite Hq, Hb. by rewrite IH.
Qed.

Lemma unbits_bits p rest : unbits (bits p rest) = Some (p, rest).
Proof. induction p as [p IH | p IH | ]; simpl; [by rewrite IH | by rewrite IH | done]. Qed.

Definition fields_text (l : list (string * Json)) (rest : string) : string :=
  foldr (fun kw s => String quote (escape kw.1 (json_text kw.2 s))) (String (chr 125) rest) l.

Lemma json_text_obj l rest : json_text (JObj l) rest = String (chr 123) (fields_text l rest).
Proof. cbn [json_text]. f_equal. induction l as [ | [k w] l IH]; [done | ].
  exact (f_equal (fun s => String quote (escape k (json_text w s))) IH).
Qed.

Section json_ind.
Context (Q : Json -> Prop) (Hnull : Q JNull) (Hbool : forall b, Q (JBool b))
  (Hnum : forall n, Q (JNum n)) (Hstr : forall s, Q (JStr s))
  (Hother : forall t, Q (JOther t))
  (Hobj : forall l, Forall (fun kv => Q kv.2) l -> Q (JObj l)).

Fixpoint json_nested_ind (v : Json) : Q v :=
  match v with
  | JNull => Hnull
  | JBool b => Hbool b
  | JNum n => Hnum n
  | JStr s => Hstr s
  | JOther t => Hother t
  | JObj l =>
      Hobj l ((fix go (l : list (string * Json)) : Forall (fun kv => Q kv.2) l :=
                 match l with
                 | [] => Forall_nil_2 _
                 | kv :: l' => Forall_cons_2 _ kv l' (json_nested_ind kv.2) (go l')
                 end) l)
  end.
End json_ind.

Lemma escape_length s rest : (String.length rest < String.length (escape s rest))%nat.
Proof. induction s as [ | c s IH]; simpl; [lia | ]. destruct (_ || _); simpl; lia. Qed.

Lemma bits_length p rest : (String.length rest < String.length (bits p rest))%nat.
Proof. induction p as [p IH | p IH | ]; simpl; lia. Qed.

Lemma json_text_length v : forall rest,
  (String.length rest < String.length (json_text v rest))%nat.
Proof.
  induction v as [ | b | n | s | s | l IH] using json_nested_ind; intros rest.
  - simpl. lia.
  - destruct b; simpl; lia.
  - cbn [json_text String.length]. pose proof (bits_length (encode n) rest). lia.
  - cbn [json_text String.length]. pose proof (escape_length s rest). lia.
  - cbn [json_text String.length]. pose proof (escape_length s rest). lia.
  - rewrite json_text_obj. cbn [String.length].
    induction IH as [ | [k w] l Hw _ IHl]; [simpl; lia | ]. cbn [snd] in Hw.
    change (fields_text ((k, w) :: l) rest)
      with (String quote (escape k (json_text w (fields_text l rest)))). cbn [String.length].
    pose proof (escape_length k (json_text w (fields_text l rest))).
    pose proof (Hw (fields_text l rest)). lia.
Qed.

(** Reading needs no more fuel than the length of the text that is read. *)
Lemma read_json_text v : forall fuel rest,
  (String.length (json_text v rest) <= fuel + String.length rest)%nat ->
  read_json fuel (json_text v rest) = Some (v, rest).
Proof.
  induction v as [ | b | n | s | s | l IH] using json_nested_ind; intros fuel rest Hf;
    (destruct fuel as [ | fuel];
      [match type of Hf with
       | (String.length (json_text ?v rest) <= _)%nat => pose proof (json_text_length v rest); lia
       end | ]).
  - done.
  - by destruct b.
  - change (read_json (S fuel) (json_text (JNum n) rest))
      with ('(p, rest') ← unbits (bits (encode n) rest); n' ← decode p; Some (JNum n', rest')).
    rewrite unbits_bits. cbn [mbind option_bind]. by rewrite decode_encode.
  - change (read_json (S fuel) (json_text (JStr s) rest))
      with ('(t, rest') ← unescape (escape s rest); Some (JStr t, rest')).
    by rewrite unescape_escape.
  - change (read_json (S fuel) (json_text (JOther s) rest))
      with ('(t, rest') ← unescape (escape s rest); Some (JOther t, rest')).
    by rewrite unescape_escape.
  - rewrite json_text_obj in *. cbn [String.length] in Hf.
    assert (Hl : forall fuel, (String.length (fields_text l rest) <= fuel + String.length rest)%nat ->
      (String.length rest < String.length (fields_text l rest))%nat
      /\ read_fields fuel (fields_text l rest) = Some (l, rest)).
    { clear fuel Hf. induction IH as [ | [k w] l Hw _ IHl]; intros fuel Hf.
      - destruct fuel; simpl in *; [lia | ]. split; [lia | done].
      - change (fields_text ((k, w) :: l) rest)
          with (String quote (escape k (json_text w (fields_text l rest)))) in *.
        cbn [snd] in Hw. set (tail := fields_text l rest) in *.
        pose proof (escape_length k (json_text w tail)) as He.
        pose proof (json_text_length w tail) as Hlt.
        pose proof (proj1 (IHl (String.length tail) ltac:(lia))) as Hrt.
        cbn [String.length] in Hf. destruct fuel as [ | fuel]; [lia | ].
        split; [cbn [String.length]; lia | ].
        cbn [read_fields]. change (Ascii.eqb quote (chr 125)) with false. rewrite Ascii.eqb_refl.
        rewrite unescape_escape. cbn [mbind option_bind].
        rewrite (Hw fuel tail ltac:(lia)). cbn [mbind option_bind].
        by rewrite (proj2 (IHl fuel ltac:(lia))). }
    change (read_json (S fuel) (String (chr 123) (fields_text l rest)))
      with ('(l, rest') ← read_fields fuel (fields_text l rest); Some (JObj l, rest')).
    by rewrite (proj2 (Hl fuel ltac:(lia))).
Qed.

Lemma json_read_text v : json_read (json_text v "") = Ok v.
Proof.
  unfold json_read.
  by rewrite (read_json_text v (S (String.length (json_text v ""))) "") by (simpl; lia).
Qed.

(** ** Coded data *)

Class Coded (A : Type) : Type := {
  code : A -> Json;
  uncode : Json -> option A;
  uncode_code : forall a, uncode (code a) = Some a;
}.

#[export] Instance coded_string : Coded string :=
  {| code := JStr; uncode v := match v with JStr s => Some s | _ => None end;
     uncode_code s := eq_refl |}.
#[export] Instance coded_Z : Coded Z :=
  {| code := JNum; uncode v := match v with JNum n => Some n | _ => None end;
     uncode_code n := eq_refl |}.
#[export] Instance coded_bool : Coded bool :=
  {| code := JBool; uncode v := match v with JBool n => Some n | _ => None end;
     uncode_code n := eq_refl |}.
#[export] Instance coded_option A `{!Coded A} : Coded (option A).
Proof.
  refine {| code o := match o with Some a => JObj [("", code a)] | None => JNull end;
            uncode v := match v with
                        | JNull => Some None
                        | JObj [(_, w)] => Some <$> uncode w
                        | _ => None
                        end |}.
  intros [a | ]; simpl; [by rewrite uncode_code | done].
Defined.
#[export] Instance coded_list A `{!Coded A} : Coded (list A).
Proof.
  refine {| code l := JObj (map (fun a => ("", code a)) l);
            uncode v := match v with JObj fs => mapM (fun kv => uncode kv.2) fs | _ => None end |}.
  intros l. simpl. induction l as [ | a l IH]; [done | ].
  simpl. rewrite uncode_code. simpl. by rewrite IH.
Defined.
#[export] Instance coded_prod A B `{!Coded A, !Coded B} : Coded (A * B).
Proof.
  refine {| code p := JObj [("", code p.1); ("", code p.2)];
            uncode v := match v with
                        | JObj [(_, a); (_, b)] => x ← uncode a; y ← uncode b; Some (x, y)
                        | _ => None
                        end |}.
  intros [a b]. simpl. by rewrite !uncode_code.
Defined.

(** A type that is coded through another one. *)
Definition coded_via {A B} `{!Coded B} (f : A -> B) (g : B -> option A)
    (H : forall a, g (f a) = Some a) : Coded A.
Proof.
  refine {| code a := code (f a); uncode v := uncode v ≫= g |}.
  intros a. rewrite uncode_code. apply H.
Defined.

#[export] Instance coded_env : Coded (gmap string string) :=
  coded_via map_to_list (fun l => Some (list_to_map l))
    (fun m => f_equal Some (list_to_map_to_list m)).

(** ** A concrete platform

    A small executable instance of [Platform] with its laws: the witnesses of
    the development evaluate the models with it. *)

#[local] Open Scope Z_scope.

(** [n] hexadecimal digits of [z], least significant first. *)
Fixpoint hex_digits (n : nat) (z : Z) : string :=
  match n with
  | O => EmptyString
  | S n' =>
      let d := z mod 16 in
      let c := if d <? 10 then 48 + d else 87 + d in
      String (Ascii.ascii_of_N (Z.to_N c)) (hex_digits n' (z / 16))
  end.

Definition poly_hash (s : string) : Z :=
  foldl (fun h b => Z.land (h * 257 + b + 1) (Z.ones 256)) 0 (bytes s).

(** ** Coded records *)

#[export] Instance coded_ExecutionProfile : Coded ExecutionProfile.t :=
  coded_via (fun x => match x with | ExecutionProfile.TrustedLocal => 0 | ExecutionProfile.ContainedLocal => 1 end)
    (fun n => Some (if n =? 0 then ExecutionProfile.TrustedLocal else ExecutionProfile.ContainedLocal))
    ltac:(by intros []).
#[export] Instance coded_ExecutionTarget : Coded ExecutionTarget.t :=
  coded_via (fun x => match x with | ExecutionTarget.LocalLinux => 0 | ExecutionTarget.WindowsNative => 1 end)
    (fun n => Some (if n =? 0 then ExecutionTarget.LocalLinux else ExecutionTarget.WindowsNative))
    ltac:(by intros []).
#[export] Instance coded_WindowsAuthority : Coded WindowsAuthority.t :=
  coded_via (fun x => match x with | WindowsAuthority.Limited => 0 | WindowsAuthority.Elevated => 1 | WindowsAuthority.ActiveUser => 2 end)
    (fun n => Some (if n =? 0 then WindowsAuthority.Limited else if n =? 1 then WindowsAuthority.Elevated else WindowsAuthority.ActiveUser))
    ltac:(by intros []).
#[export] Instance coded_WindowsTokenClass : Coded WindowsTokenClass.t :=
  coded_via (fun x => match x with | WindowsTokenClass.Limited => 0 | WindowsTokenClass.Elevated => 1 | WindowsTokenClass.ActiveUser => 2 end)
    (fun n => Some (if n =? 0 then WindowsTokenClass.Limited else if n =? 1 then WindowsTokenClass.Elevated else WindowsTokenClass.ActiveUser))
    ltac:(by intros []).
#[export] Instance coded_ExecutionProviderContract : Coded ExecutionProviderContract.t :=
  coded_via (fun x => match x with | ExecutionProviderContract.LocalLinuxRunnerV1 => 0 | ExecutionProviderContract.WindowsNativeLauncherV1 => 1 end)
    (fun n => Some (if n =? 0 then ExecutionProviderContract.LocalLinuxRunnerV1 else ExecutionProviderContract.WindowsNativeLauncherV1))
    ltac:(by intros []).
#[export] Instance coded_InputAccessMode : Coded InputAccessMode.t :=
  coded_via (fun x => match x with | InputAccessMode.ReadOnly => 0 end)
    (fun n => Some (InputAccessMode.ReadOnly))
    ltac:(by intros []).
#[export] Instance coded_WindowsExecutionContext : Coded WindowsExecutionContext :=
  coded_via (fun x =>
    (wec_token_class x, wec_token_user_sid x, wec_session_id x, wec_environment_source x,
     wec_privileged_broker_digest x))
    (fun '(f0, f1, f2, f3, f4) => Some
      {| wec_token_class := f0; wec_token_user_sid := f1; wec_session_id := f2;
         wec_environment_source := f3; wec_privileged_broker_digest := f4 |})
    ltac:(by intros []).
#[export] Instance coded_ForeignReference : Coded ForeignReference :=
  coded_via (fun x =>
    (fr_namespace x, fr_reference_type x, fr_id x, fr_generation x, fr_digest x))
    (fun '(f0, f1, f2, f3, f4) => Some
      {| fr_namespace := f0; fr_reference_type := f1; fr_id := f2; fr_generation := f3;
         fr_digest := f4 |})
    ltac:(by intros []).
#[export] Instance coded_HostDependencyBinding : Coded HostDependencyBinding :=
  coded_via (fun x =>
    (hd_path x, hd_expected_digest x))
    (fun '(f0, f1) => Some
      {| hd_path := f0; hd_expected_digest := f1 |})
    ltac:(by intros []).
#[export] Instance coded_ExecutionProviderSnapshot : Coded ExecutionProviderSnapshot :=
  coded_via (fun x =>
    (eps_contract x, eps_executable_digest x, eps_wsl_distribution x))
    (fun '(f0, f1, f2) => Some
      {| eps_contract := f0; eps_executable_digest := f1; eps_wsl_distribution := f2 |})
    ltac:(by intros []).
#[export] Instance coded_EffectiveInputBinding : Coded EffectiveInputBinding :=
  coded_via (fun x =>
    (ei_authority x, ei_relative_object x, ei_digest x, ei_byte_length x,
     ei_presentation_relative_path x, ei_access x))
    (fun '(f0, f1, f2, f3, f4, f5) => Some
      {| ei_authority := f0; ei_relative_object := f1; ei_digest := f2; ei_byte_length := f3;
         ei_presentation_relative_path := f4; ei_access := f5 |})
    ltac:(by intros []).
#[export] Instance coded_ExecutionBudget : Coded ExecutionBudget :=
  coded_via (fun x =>
    (budget_memory_max_bytes x, budget_tasks_max x, budget_cpu_quota_percent x))
    (fun '(f0, f1, f2) => Some
      {| budget_memory_max_bytes := f0; budget_tasks_max := f1; budget_cpu_quota_percent := f2 |})
    ltac:(by intros []).
#[export] Instance coded_RuntimeExecutionStep : Coded RuntimeExecutionStep :=
  coded_via (fun x =>
    (step_id x, step_executable x, step_executable_digest x, step_args x, step_cwd x,
     step_env x, step_timeout_ms x, step_continue_on_error x))
    (fun '(f0, f1, f2, f3, f4, f5, f6, f7) => Some
      {| step_id := f0; step_executable := f1; step_executable_digest := f2; step_args := f3;
         step_cwd := f4; step_env := f5; step_timeout_ms := f6; step_continue_on_error := f7 |})
    ltac:(by intros []).
#[export] Instance coded_RuntimeExecutionPlan : Coded RuntimeExecutionPlan :=
  coded_via (fun x =>
    (plan_schema_version x, plan_workspace_id x, plan_workspace_path x, plan_source_revision x,
     plan_workspace_source_digest x, plan_workspace_git_common_dir x, plan_executable x,
     plan_executable_digest x, plan_args x, plan_cwd x, plan_env x, plan_timeout_ms x,
     plan_stdout_limit_bytes x, plan_stderr_limit_bytes x, plan_steps x, plan_budget x,
     plan_execution_profile x, plan_execution_target x, plan_windows_authority x,
     plan_windows_execution_context x, plan_foreign_references x, plan_input_set_id x,
     plan_effective_inputs x, plan_credential_set_id x, plan_principal x))
    (fun '(f0, f1, f2, f3, f4, f5, f6, f7, f8, f9, f10, f11, f12, f13, f14, f15, f16, f17, f18,
       f19, f20, f21, f22, f23, f24) => Some
      {| plan_schema_version := f0; plan_workspace_id := f1; plan_workspace_path := f2;
         plan_source_revision := f3; plan_workspace_source_digest := f4;
         plan_workspace_git_common_dir := f5; plan_executable := f6;
         plan_executable_digest := f7; plan_args := f8; plan_cwd := f9; plan_env := f10;
         plan_timeout_ms := f11; plan_stdout_limit_bytes := f12;
         plan_stderr_limit_bytes := f13; plan_steps := f14; plan_budget := f15;
         plan_execution_profile := f16; plan_execution_target := f17;
         plan_windows_authority := f18; plan_windows_execution_context := f19;
         plan_foreign_references := f20; plan_input_set_id := f21;
         plan_effective_inputs := f22; plan_credential_set_id := f23; plan_principal := f24 |})
    ltac:(by intros []).

(** [to_string] and [from_str] of a coded type. *)
Definition to_text {A} `{!Coded A} (a : A) : string := json_text (code a) "".
Definition of_text {A} `{!Coded A} (s : string) : result string A :=
  v ← json_read s; ok_or "unexpected JSON" (uncode v).

Lemma of_text_to_text {A} `{!Coded A} (a : A) : of_text (to_text a) = Ok a.
Proof. unfold of_text, to_text. rewrite json_read_text. simpl. by rewrite uncode_code. Qed.

(** An owner as a tuple. *)
#[export] Instance coded_owner : Coded AttemptSupervisorOwner :=
  coded_via (fun o => let '(WindowsLauncherV1 pid created image name start) := o in
                      (pid, created, image, name, start))
    (fun '(pid, created, image, name, start) =>
       Some (WindowsLauncherV1 pid created image name start))
    ltac:(by intros []).

#[export] Instance test_platform : Platform := {
  sha256_hex s := hex_digits 64 (poly_hash s);
  uuid_v7 n := pretty n;
  json_to_string v := json_text v "";
  json_of_string := json_read;
  plan_to_json := to_text;
  plan_of_json := of_text;
  provider_to_json := to_text;
  provider_of_json := of_text;
  host_dependencies_to_json := to_text;
  host_dependencies_of_json := of_text;
  release_to_json r := join "|" ["release"; rel_effect_id r; rel_request_digest r];
  submit_to_json r := join "|" ["submit"; sub_client_request_id r; to_text (sub_plan r);
                                  pretty (sub_global_limit r)];
  operation_identity_to_json i := join "|" ["identity"; ori_workspace_id i; ori_executable i];
  owner_to_json := to_text;
  owner_of_json := of_text;
  sc_page_size := 4096;
  sc_arg_max := 2097152;
  to_lowercase := to_ascii_lowercase;
}.

Lemma hex_digits_length n z : String.length (hex_digits n z) = n.
Proof. revert z. induction n as [ | n IH]; intros z; simpl; [done | by rewrite IH]. Qed.

Lemma hex_digit_ok d : 0 <= d < 16 ->
  is_ascii_hexdigit
    (byte_of (Ascii.ascii_of_N (Z.to_N (if d <? 10 then 48 + d else 87 + d)))) = true.
Proof.
  intros Hd.
  assert (d = 0 \/ d = 1 \/ d = 2 \/ d = 3 \/ d = 4 \/ d = 5 \/ d = 6 \/ d = 7 \/
          d = 8 \/ d = 9 \/ d = 10 \/ d = 11 \/ d = 12 \/ d = 13 \/ d = 14 \/ d = 15) as Hd16 by lia.
  destruct_or! Hd16; subst d; reflexivity.
Qed.

Lemma hex_digits_digits n z :
  Forall (fun b => is_ascii_hexdigit b = true) (bytes (hex_digits n z)).
Proof.
  revert z. induction n as [ | n IH]; intros z; [constructor | ].
  cbn [hex_digits bytes]. constructor; [ | apply IH].
  apply hex_digit_ok. by apply Z.mod_pos_bound.
Qed.

#[export] Instance test_platform_laws : PlatformLaws test_platform.
Proof.
  split.
  - intros s. apply hex_digits_length.
  - intros s. apply hex_digits_digits.
  - intros n m. cbn [uuid_v7 test_platform]. apply (inj pretty).
  - intros v _. apply json_read_text.
  - intros p. apply of_text_to_text.
  - intros p. apply of_text_to_text.
  - intros l. apply of_text_to_text.
  - intros o. apply of_text_to_text.
Qed.
