(* ===== verification/Validation.v ===== *)
(** * Validation

    The request validators of [runtime/registry.rs], [runtime/types.rs],
    [universal/fsutil.rs] and [runtime/windows.rs], in the order in which the
    code applies them. *)

From S2P Require Import Prelude Text Errors Types Supervisor Platform.

#[local] Open Scope Z_scope.

(** A regular expression over Unicode scalar values: the fragment used by the
    published identifier patterns. *)
Inductive regex : Type :=
  | NotIn (ranges : list (Z * Z))
  | Seq (a b : regex)
  | Star (a : regex)
  | Opt (a : regex).

Definition in_ranges (ranges : list (Z * Z)) (c : Z) : bool :=
  existsb (fun r => (r.1 <=? c) && (c <=? r.2)) ranges.

Inductive matches : regex -> list Z -> Prop :=
  | matches_not_in ranges c : in_ranges ranges c = false -> matches (NotIn ranges) [c]
  | matches_seq a b l1 l2 : matches a l1 -> matches b l2 -> matches (Seq a b) (l1 ++ l2)
  | matches_star_nil a : matches (Star a) []
  | matches_star_app a l1 l2 : matches a l1 -> matches (Star a) l2 -> matches (Star a) (l1 ++ l2)
  | matches_opt_none a : matches (Opt a) []
  | matches_opt_some a l : matches a l -> matches (Opt a) l.

(** The character classes of [LOGICAL_ID_PATTERN]. *)
Definition edge_ranges : list (Z * Z) :=
  [(0, 32); (127, 160); (5760, 5760); (8192, 8202); (8232, 8233); (8239, 8239);
   (8287, 8287); (12288, 12288)].
Definition inner_ranges : list (Z * Z) := [(0, 31); (127, 159)].

Definition LOGICAL_ID_PATTERN : regex :=
  Seq (NotIn edge_ranges) (Opt (Seq (Star (NotIn inner_ranges)) (NotIn edge_ranges))).

Definition validate_logical_id (value field : string) : RuntimeResult unit :=
  let scalar_length := Z.of_nat (length (chars value)) in
  fail_if
    (negb ((LOGICAL_ID_MIN_LENGTH <=? scalar_length) && (scalar_length <=? LOGICAL_ID_MAX_LENGTH))
     || (chars value != trim (chars value))
     || existsb is_control (chars value))
    (invalid (field +:+ " must contain 1..=" +:+ pretty LOGICAL_ID_MAX_LENGTH +:+
              " Unicode characters, be trimmed, and be control-free") field).

Definition validate_client_request_id (value field : string) : RuntimeResult unit :=
  validate_logical_id value field.

Definition validate_identifier (value field : string) : RuntimeResult unit :=
  fail_if
    ((match trim (chars value) with [] => true | _ => false end)
     || (256 <? str_len value)
     || contains_nul value
     || existsb is_control (chars value))
    (invalid (field +:+ " must be non-empty, bounded, and control-free") field).

Definition digest_valid (value : string) : bool :=
  match strip_prefix "sha256:" value with
  | Some hex => (str_len hex =? 64) && forallb is_ascii_hexdigit (bytes hex)
  | None => false
  end.

Definition validate_digest (value field : string) : RuntimeResult unit :=
  fail_if (negb (digest_valid value)) (invalid (field +:+ " must be a SHA-256 digest") field).

Definition or_else {A} (a b : option A) : option A :=
  match a with Some _ => a | None => b end.

Definition identity_prefixes : list string :=
  [REQUEST_IDENTITY_PREFIX; PROPOSAL_IDENTITY_PREFIX; INPUT_BOUND_IDENTITY_PREFIX;
   INPUT_BOUND_PROPOSAL_IDENTITY_PREFIX; CREDENTIAL_BOUND_PROPOSAL_IDENTITY_PREFIX;
   RUNTIME_RELEASE_IDENTITY_PREFIX].

Definition validate_request_identity_digest (value : string) : RuntimeResult unit :=
  digest ← ok_or (invalid "unsupported request identity digest" "requestIdentityDigest")
    (foldr (fun prefix rest => or_else (strip_prefix prefix value) rest) None identity_prefixes);
  validate_digest digest "requestIdentityDigest".

Definition lowercase_hex (b : Z) : bool := is_ascii_hexdigit b && negb (is_ascii_uppercase b).

Definition validate_execution_provider_snapshot (snapshot : ExecutionProviderSnapshot)
    (field : string) : RuntimeResult unit :=
  validate_digest (eps_executable_digest snapshot) (field +:+ ".executableDigest") ;;
  match eps_contract snapshot with
  | ExecutionProviderContract.LocalLinuxRunnerV1 =>
      fail_if (match eps_wsl_distribution snapshot with Some _ => true | None => false end)
        (invalid "local Linux execution provider cannot carry a WSL distribution"
           (field +:+ ".wslDistribution"))
  | ExecutionProviderContract.WindowsNativeLauncherV1 =>
      match eps_wsl_distribution snapshot with
      | Some distribution =>
          fail_if
            (String.eqb distribution ""
             || negb (forallb (fun b => is_ascii_alphanumeric b || existsb (Z.eqb b) [45; 95; 46])
                        (bytes distribution)))
            (invalid "Windows execution provider has an invalid WSL distribution"
               (field +:+ ".wslDistribution"))
      | None => Ok tt
      end
  end.

(** Rust compares [str] bytewise. *)
Definition str_lt (a b : string) : bool := String.leb a b && negb (String.eqb a b).

Definition field_at (field : string) (index : nat) : string :=
  field +:+ "[" +:+ pretty index +:+ "]".

Fixpoint validate_host_dependencies_from (previous_path : option string) (index : nat)
    (bindings : list HostDependencyBinding) (field : string) : RuntimeResult unit :=
  match bindings with
  | [] => Ok tt
  | binding :: rest =>
      let binding_field := field_at field index in
      fail_if (negb (is_absolute (hd_path binding)) || contains_nul (hd_path binding))
        (invalid "Host Dependency path must be absolute and NUL-free" (binding_field +:+ ".path")) ;;
      validate_digest (hd_expected_digest binding) (binding_field +:+ ".expectedDigest") ;;
      fail_if (match previous_path with
               | Some previous => negb (str_lt previous (hd_path binding))
               | None => false
               end)
        (invalid "Host Dependencies must be sorted by unique path" field) ;;
      validate_host_dependencies_from (Some (hd_path binding)) (S index) rest field
  end.

Definition validate_host_dependency_bindings (bindings : list HostDependencyBinding)
    (field : string) : RuntimeResult unit :=
  validate_host_dependencies_from None 0 bindings field.

Definition provider_is (contract : ExecutionProviderContract.t) (request : SubmitRequest) : bool :=
  match sub_execution_provider request with
  | Some provider => eps_contract provider == contract
  | None => false
  end.

Definition validate_windows_release_context (request : SubmitRequest) : RuntimeResult unit :=
  fail_if (plan_windows_authority (sub_plan request) != WindowsAuthority.Elevated)
    (invalid "native Windows Runtime Release requires elevated authority" "plan.windowsAuthority") ;;
  fail_if (negb (provider_is ExecutionProviderContract.WindowsNativeLauncherV1 request))
    (invalid "native Windows Runtime Release requires a committed Windows launcher"
       "executionProvider") ;;
  context ← ok_or
    (invalid "native Windows Runtime Release requires frozen elevated execution context"
       "plan.windowsExecutionContext")
    (plan_windows_execution_context (sub_plan request));
  fail_if ((wec_token_class context != WindowsTokenClass.Elevated)
           || negb (String.eqb (wec_environment_source context)
                      "windows_privileged_broker_profile_allowlist_v1"))
    (invalid "native Windows Runtime Release requires privileged broker execution context"
       "plan.windowsExecutionContext") ;;
  broker_digest ← ok_or
    (invalid "native Windows Runtime Release requires a frozen privileged broker digest"
       "plan.windowsExecutionContext.privilegedBrokerDigest")
    (wec_privileged_broker_digest context);
  validate_digest broker_digest "plan.windowsExecutionContext.privilegedBrokerDigest".

Definition validate_runtime_release_effect_binding (release : RuntimeReleaseEffectBinding)
    (request : SubmitRequest) : RuntimeResult unit :=
  fail_if (rel_contract release != RuntimeReleaseContract.RuntimeReleaseV1)
    (invalid "unsupported Runtime Release contract" "runtimeReleaseEffect.contract") ;;
  fail_if ((str_len (rel_effect_id release) != 64)
           || negb (forallb lowercase_hex (bytes (rel_effect_id release))))
    (invalid "Runtime Release effectId must be 64 lowercase hexadecimal characters"
       "runtimeReleaseEffect.effectId") ;;
  fail_if (negb (starts_with RUNTIME_RELEASE_IDENTITY_PREFIX (rel_request_digest release)))
    (invalid "Runtime Release request digest has the wrong contract prefix"
       "runtimeReleaseEffect.requestDigest") ;;
  validate_request_identity_digest (rel_request_digest release) ;;
  fail_if (sub_request_identity_digest request != Some (rel_request_digest release))
    (invalid "Runtime Release side truth must match the committed request identity"
       "runtimeReleaseEffect.requestDigest") ;;
  fail_if (negb (String.eqb (rel_workspace_id release) (plan_workspace_id (sub_plan request))))
    (invalid "Runtime Release workspace does not match the execution plan"
       "runtimeReleaseEffect.workspaceId") ;;
  fail_if ((str_len (rel_commit release) != 40)
           || negb (forallb lowercase_hex (bytes (rel_commit release))))
    (invalid "Runtime Release commit must be exactly 40 lowercase hexadecimal characters"
       "runtimeReleaseEffect.commit") ;;
  validate_digest (rel_candidate_manifest_digest release)
    "runtimeReleaseEffect.candidateManifestDigest" ;;
  fail_if (negb (is_absolute (rel_receipt_path release)) || contains_nul (rel_receipt_path release))
    (invalid "Runtime Release receipt path must be absolute and NUL-free"
       "runtimeReleaseEffect.receiptPath") ;;
  fail_if (plan_execution_profile (sub_plan request) != ExecutionProfile.TrustedLocal)
    (invalid "Runtime Release v1 requires trusted_local execution"
       "runtimeReleaseEffect.contract") ;;
  match plan_execution_target (sub_plan request) with
  | ExecutionTarget.LocalLinux =>
      fail_if ((plan_windows_authority (sub_plan request) != WindowsAuthority.Limited)
               || match plan_windows_execution_context (sub_plan request) with
                  | Some _ => true | None => false end)
        (invalid "local Linux Runtime Release cannot carry Windows elevated authority"
           "plan.windowsAuthority") ;;
      fail_if (negb (provider_is ExecutionProviderContract.LocalLinuxRunnerV1 request))
        (invalid "local Linux Runtime Release requires a committed local Linux Runner"
           "executionProvider")
  | ExecutionTarget.WindowsNative => validate_windows_release_context request
  end.

(** ** Process payloads *)

(** [BTreeMap::iter]: entries in bytewise key order. *)
Definition entry_le (x y : string * string) : Prop := String.leb x.1 y.1 = true.
#[export] Instance entry_le_dec : RelDecision entry_le.
Proof. intros x y. unfold entry_le. apply _. Defined.
Definition btree_iter (m : gmap string string) : list (string * string) :=
  merge_sort entry_le (map_to_list m).

(** [usize] on the supported 64-bit targets. *)
Definition usize_max : Z := 2 ^ 64 - 1.
Definition checked_add (a b : Z) : option Z :=
  if a + b <=? usize_max then Some (a + b) else None.
Definition checked_mul (a b : Z) : option Z :=
  if a * b <=? usize_max then Some (a * b) else None.

Definition valid_env_name (name : string) : bool :=
  match chars name with
  | first :: rest =>
      ((first =? 95) || is_ascii_alphabetic first)
      && forallb (fun c => (c =? 95) || is_ascii_alphanumeric c) rest
  | [] => false
  end.

(** [validate_env] of [universal/fsutil.rs] *)
Definition validate_env (env : gmap string string) : result UniversalExecError unit :=
  for_each (fun '(name, value) =>
    fail_if (negb (valid_env_name name) || contains_nul value)
      (universal_invalid ("invalid environment entry " +:+ name) "env")) (btree_iter env).

Section exec_payload.
Context `{P : Platform}.

(** [linux_exec_string_limit_bytes] *)
Definition linux_exec_string_limit_bytes : result UniversalExecError Z :=
  if sc_page_size <=? 0 then
    Err (universal_invalid "cannot determine Linux execve per-string limit" "execution")
  else
    ok_or (universal_invalid "Linux execve per-string limit is not representable" "execution")
      (b ← checked_mul sc_page_size 32; if b <? 1 then None else Some (b - 1)).

(** [linux_exec_payload_limit_bytes] *)
Definition linux_exec_payload_limit_bytes : result UniversalExecError Z :=
  if sc_arg_max <=? 0 then
    Err (universal_invalid "cannot determine Linux execve argv/environment limit" "execution")
  else Ok sc_arg_max.

(** [validate_args] *)
Definition validate_args (args : list string) : result UniversalExecError unit :=
  max_string_bytes ← linux_exec_string_limit_bytes;
  fail_if (existsb (fun arg => (max_string_bytes <? str_len arg) || contains_nul arg) args)
    (universal_invalid
       ("args contains a value that exceeds the Linux execve per-string limit of "
        +:+ pretty max_string_bytes +:+ " bytes or contains NUL") "args").

(** The two accumulation loops of [validate_exec_payload]. *)
Fixpoint args_bytes (acc : Z) (args : list string) : option Z :=
  match args with
  | [] => Some acc
  | arg :: rest =>
      a ← checked_add acc (str_len arg); b ← checked_add a 1; args_bytes b rest
  end.
Fixpoint env_bytes (acc : Z) (env : list (string * string)) : option Z :=
  match env with
  | [] => Some acc
  | (name, value) :: rest =>
      a ← checked_add acc (str_len name); b ← checked_add a 1;
      c ← checked_add b (str_len value); d ← checked_add c 1; env_bytes d rest
  end.

(** [validate_exec_payload] of [universal/fsutil.rs] *)
Definition validate_exec_payload (args : list string) (env : gmap string string)
    (field : string) : result UniversalExecError unit :=
  validate_args args ;;
  validate_env env ;;
  max_string_bytes ← linux_exec_string_limit_bytes;
  fail_if (existsb (fun '(name, value) =>
             max_string_bytes <? Z.min usize_max (Z.min usize_max (str_len name + 1) + str_len value))
             (btree_iter env))
    (universal_invalid
       ("env contains an entry that exceeds the Linux execve per-string limit of "
        +:+ pretty max_string_bytes +:+ " bytes") "env") ;;
  arg_total ← ok_or (universal_invalid "execve payload size overflow" field) (args_bytes 0 args);
  string_bytes ← ok_or (universal_invalid "execve payload size overflow" field)
    (env_bytes arg_total (btree_iter env));
  pointer_count ← ok_or (universal_invalid "execve pointer count overflow" field)
    (n ← checked_add (Z.of_nat (length args)) (Z.of_nat (size env)); checked_add n 2);
  pointer_bytes ← ok_or (universal_invalid "execve pointer size overflow" field)
    (checked_mul pointer_count 8);
  required_bytes ← ok_or (universal_invalid "execve payload size overflow" field)
    (checked_add string_bytes pointer_bytes);
  max_bytes ← linux_exec_payload_limit_bytes;
  fail_if (max_bytes <? required_bytes)
    (universal_invalid
       ("argv and environment require " +:+ pretty required_bytes +:+
        " bytes, exceeding the host Linux execve limit of " +:+ pretty max_bytes +:+ " bytes")
       field).
End exec_payload.

(** ** Windows command lines ([runtime/windows.rs]) *)

Definition WINDOWS_CREATE_PROCESS_COMMAND_LINE_LIMIT_UTF16 : Z := 32767.
Definition WINDOWS_ENVIRONMENT_VARIABLE_LIMIT_UTF16 : Z := 32767.

Definition len_utf16 (c : Z) : Z := if c <? 65536 then 1 else 2.

(** The loop of [checked_windows_quoted_argument_utf16_len]: the length so far
    and the run of backslashes just read. *)
Fixpoint quoted_length (length backslashes : Z) (cs : list Z) : option Z :=
  match cs with
  | [] => b ← checked_mul backslashes 2; checked_add length b
  | c :: rest =>
      if c =? 92 then b ← checked_add backslashes 1; quoted_length length b rest
      else if c =? 34 then
        d ← checked_mul backslashes 2; e ← checked_add d 2;
        l ← checked_add length e; quoted_length l 0 rest
      else
        l ← checked_add length backslashes; m ← checked_add l (len_utf16 c);
        quoted_length m 0 rest
  end.

Definition checked_windows_quoted_argument_utf16_len (value field : string) : RuntimeResult Z :=
  fail_if (contains_nul value) (invalid "Windows command-line value contains NUL" field) ;;
  let needs_quotes :=
    String.eqb value "" || existsb (fun c => is_whitespace c || (c =? 34)) (chars value) in
  if negb needs_quotes then Ok (utf16_len value)
  else ok_or (invalid "Windows command-line length overflow" field)
         (quoted_length 2 0 (chars value)).

Fixpoint command_line_length (acc : Z) (args : list string) (field : string) : option Z :=
  match args with
  | [] => Some acc
  | arg :: rest =>
      a ← checked_add acc 1;
      match checked_windows_quoted_argument_utf16_len arg field with
      | Ok l => b ← checked_add a l; command_line_length b rest field
      | Err _ => None
      end
  end.

Definition validate_windows_exec_payload (executable : string) (args : list string)
    (env : gmap string string) (field : string) : RuntimeResult unit :=
  map_err (fun e => invalid (ue_message e) (default field (ue_field e))) (validate_env env) ;;
  exe_length ← checked_windows_quoted_argument_utf16_len executable field;
  command_line_utf16 ← ok_or (invalid "Windows command-line length overflow" field)
    (command_line_length exe_length args field);
  command_line_with_nul ← ok_or (invalid "Windows command-line length overflow" field)
    (checked_add command_line_utf16 1);
  fail_if (WINDOWS_CREATE_PROCESS_COMMAND_LINE_LIMIT_UTF16 <? command_line_with_nul)
    (invalid ("Windows command line requires " +:+ pretty command_line_with_nul +:+
              " UTF-16 code units including NUL, exceeding the CreateProcessW limit of " +:+
              pretty WINDOWS_CREATE_PROCESS_COMMAND_LINE_LIMIT_UTF16) field) ;;
  for_each (fun '(name, value) =>
    entry_utf16 ← ok_or (invalid "Windows environment entry length overflow" field)
      (a ← checked_add (utf16_len name) 1; b ← checked_add a (utf16_len value); checked_add b 1);
    fail_if (WINDOWS_ENVIRONMENT_VARIABLE_LIMIT_UTF16 <? entry_utf16)
      (invalid ("Windows environment entry " +:+ name +:+ " requires " +:+ pretty entry_utf16 +:+
                " UTF-16 code units including separator/NUL, exceeding the per-variable limit of "
                +:+ pretty WINDOWS_ENVIRONMENT_VARIABLE_LIMIT_UTF16) field))
    (btree_iter env).

Definition byte_char (n : N) : Ascii.ascii := Ascii.ascii_of_N n.

Definition reserved_device (component : string) : bool :=
  let stem := to_ascii_uppercase (default component (head (split_on (byte_char 46) component))) in
  existsb (String.eqb stem) ["CON"; "PRN"; "AUX"; "NUL"]
  || ((str_len stem =? 4) && (starts_with "COM" stem || starts_with "LPT" stem)
      && match bytes stem with
         | [_; _; _; d] => is_ascii_digit d && negb (d =? 48)
         | _ => false
         end).

Definition validate_windows_input_relative_path (path : string) (index : nat)
    : RuntimeResult unit :=
  let field := field_at "inputs" index +:+ ".presentationRelativePath" in
  fail_if (existsb (Z.eqb 92) (bytes path))
    (invalid "Windows immutable input presentation paths must use '/' separators only" field) ;;
  for_each (fun component =>
    fail_if
      (String.eqb component "" || ends_with " " component || ends_with "." component
       || existsb (fun ch => (ch <? 32) || existsb (Z.eqb ch) [60; 62; 58; 34; 124; 63; 42])
            (chars component))
      (invalid "Windows immutable input presentation path contains an invalid component" field) ;;
    fail_if (reserved_device component)
      (invalid "Windows immutable input presentation path uses a reserved device name" field))
    (split_on slash path).

Definition folded_overlap (folded existing : string) : bool :=
  let under base p :=
    match strip_prefix base p with Some suffix => starts_with "/" suffix | None => false end in
  String.eqb folded existing || under existing folded || under folded existing.

Section windows_inputs.
Context `{P : Platform}.

Definition fold_path (path : string) : string :=
  join "/" (map to_lowercase (split_on slash path)).

Fixpoint validate_windows_inputs_from (normalized : list string) (index : nat)
    (paths : list string) : RuntimeResult unit :=
  match paths with
  | [] => Ok tt
  | path :: rest =>
      validate_windows_input_relative_path path index ;;
      fail_if (existsb (folded_overlap (fold_path path)) normalized)
        (invalid "Windows immutable input presentation paths must not alias or overlap case-insensitively"
           (field_at "inputs" index +:+ ".presentationRelativePath")) ;;
      validate_windows_inputs_from (normalized ++ [fold_path path]) (S index) rest
  end.

Definition validate_windows_input_relative_paths (paths : list string) : RuntimeResult unit :=
  validate_windows_inputs_from [] 0 paths.

(** [validate_exec_payload_for_plan] *)
Definition validate_exec_payload_for_plan (target : ExecutionTarget.t) (executable : string)
    (args : list string) (env : gmap string string) (field : string) : RuntimeResult unit :=
  match target with
  | ExecutionTarget.LocalLinux =>
      map_err (fun e =>
        let error_field := default field (ue_field e) in
        if ue_code e == UniversalExecErrorCode.ToolUnavailable
        then error_new ToolUnavailable (ue_message e) (Some error_field) false
        else invalid (ue_message e) error_field) (validate_exec_payload args env field)
  | ExecutionTarget.WindowsNative => validate_windows_exec_payload executable args env field
  end.
End windows_inputs.

Definition validate_plan_budget (budget : ExecutionBudget) : RuntimeResult unit :=
  fail_if (budget_memory_max_bytes budget == Some 0)
    (invalid "plan memoryMaxBytes must be positive" "plan.budget.memoryMaxBytes") ;;
  fail_if (budget_tasks_max budget == Some 0)
    (invalid "plan tasksMax must be positive" "plan.budget.tasksMax") ;;
  fail_if (budget_cpu_quota_percent budget == Some 0)
    (invalid "plan cpuQuotaPercent must be positive" "plan.budget.cpuQuotaPercent").
