(* ===== verification/Submit.v ===== *)
(** * Submit validation

    [validate_submit] of [runtime/registry.rs] with its phases, the Runner and
    Artifact identity validators, and the request identity of a stored plan
    ([runtime/types.rs]). *)

From S2P Require Import Prelude Text Errors Types Supervisor Platform Validation.

#[local] Open Scope Z_scope.

Section submit.
Context `{P : Platform}.

(** Schema, identifiers, capacity and execution provider. *)
Definition validate_submit_header (request : SubmitRequest) : RuntimeResult unit :=
  fail_if ((sub_schema_version request != RUNTIME_SCHEMA_VERSION)
           || (plan_schema_version (sub_plan request) != RUNTIME_SCHEMA_VERSION))
    (invalid "unsupported runtime schema version" "schemaVersion") ;;
  validate_client_request_id (sub_client_request_id request) "clientRequestId" ;;
  match sub_request_identity_digest request with
  | Some digest => validate_request_identity_digest digest
  | None => Ok tt
  end ;;
  validate_identifier (plan_principal (sub_plan request)) "plan.principal" ;;
  validate_identifier (plan_workspace_id (sub_plan request)) "plan.workspaceId" ;;
  fail_if (sub_global_limit request =? 0)
    (invalid "globalLimit must be positive" "globalLimit") ;;
  match sub_execution_provider request with
  | Some provider =>
      validate_execution_provider_snapshot provider "executionProvider" ;;
      fail_if
        match plan_execution_target (sub_plan request), eps_contract provider with
        | ExecutionTarget.LocalLinux, ExecutionProviderContract.LocalLinuxRunnerV1
        | ExecutionTarget.WindowsNative, ExecutionProviderContract.WindowsNativeLauncherV1 => false
        | _, _ => true
        end
        (invalid "execution provider contract does not match execution target"
           "executionProvider.contract")
  | None => Ok tt
  end.

(** Host Dependencies and the Runtime Release side truth. *)
Definition validate_submit_side_truth (request : SubmitRequest) : RuntimeResult unit :=
  validate_host_dependency_bindings (sub_host_dependencies request) "hostDependencies" ;;
  match sub_host_dependencies request with
  | [] => Ok tt
  | _ :: _ =>
      fail_if ((plan_execution_target (sub_plan request) != ExecutionTarget.LocalLinux)
               || (plan_execution_profile (sub_plan request) != ExecutionProfile.TrustedLocal))
        (invalid "Host Dependencies require trusted_local local_linux execution"
           "hostDependencies") ;;
      fail_if match sub_runtime_release_effect request with Some _ => true | None => false end
        (invalid "Host Dependencies cannot be attached to Runtime Release Jobs"
           "hostDependencies") ;;
      fail_if (negb (provider_is ExecutionProviderContract.LocalLinuxRunnerV1 request))
        (invalid "Host Dependencies require a committed local Linux Runner" "executionProvider")
  end ;;
  match sub_runtime_release_effect request with
  | Some release => validate_runtime_release_effect_binding release request
  | None =>
      fail_if match sub_request_identity_digest request with
              | Some digest => starts_with RUNTIME_RELEASE_IDENTITY_PREFIX digest
              | None => false
              end
        (invalid "Runtime Release request identity requires Runtime Release side truth"
           "runtimeReleaseEffect")
  end.

Definition validate_absolute_path (path field : string) : RuntimeResult unit :=
  fail_if (negb (is_absolute path) || contains_nul path)
    (invalid (field +:+ " must be an absolute NUL-free path") field).

(** Paths and digests of the plan. *)
Definition validate_submit_paths (plan : RuntimeExecutionPlan) : RuntimeResult unit :=
  validate_absolute_path (plan_workspace_path plan) "plan.workspacePath" ;;
  validate_absolute_path (plan_executable plan) "plan.executable" ;;
  validate_absolute_path (plan_cwd plan) "plan.cwd" ;;
  fail_if (negb (path_starts_with (plan_cwd plan) (plan_workspace_path plan)))
    (invalid "plan.cwd must remain inside workspacePath" "plan.cwd") ;;
  validate_digest (plan_executable_digest plan) "plan.executableDigest" ;;
  match plan_workspace_source_digest plan with
  | Some digest => validate_digest digest "plan.workspaceSourceDigest"
  | None => Ok tt
  end.

(** The [match (input_set_id, effective_inputs.is_empty())]. *)
Definition validate_submit_input_set (plan : RuntimeExecutionPlan) : RuntimeResult unit :=
  match plan_input_set_id plan, plan_effective_inputs plan with
  | None, [] => Ok tt
  | Some input_set_id, _ :: _ =>
      fail_if ((str_len input_set_id != 64)
               || negb (forallb is_ascii_hexdigit (bytes input_set_id))
               || existsb is_ascii_uppercase (bytes input_set_id))
        (invalid "plan.inputSetId must be lowercase 32-byte SHA-256 hex" "plan.inputSetId") ;;
      match plan_execution_target plan with
      | ExecutionTarget.LocalLinux => Ok tt
      | ExecutionTarget.WindowsNative =>
          fail_if (plan_execution_profile plan != ExecutionProfile.TrustedLocal)
            (invalid "windows_native effective inputs require trusted_local execution"
               "plan.executionProfile") ;;
          fail_if (plan_windows_authority plan != WindowsAuthority.Limited)
            (invalid "windows_native effective inputs require limited authority"
               "plan.windowsAuthority")
      end
  | Some _, [] =>
      Err (invalid "plan.inputSetId requires effectiveInputs" "plan.inputSetId")
  | None, _ :: _ =>
      Err (invalid "effectiveInputs require plan.inputSetId" "plan.inputSetId")
  end.

Definition validate_input_path (path field : string) : RuntimeResult unit :=
  fail_if (is_absolute path || String.eqb path ""
           || existsb (fun c => negb (is_normal c)) (components path))
    (invalid "effective input paths must contain only normal relative components" field).

(** Two presentation paths overlap when one is a path prefix of the other. *)
Definition paths_overlap (presentation existing : string) : bool :=
  (components presentation == components existing)
  || path_starts_with presentation existing || path_starts_with existing presentation.

(** The loop over [effective_inputs]; [seen] is [input_paths]. *)
Fixpoint validate_effective_inputs (target : ExecutionTarget.t) (seen : list string)
    (index : nat) (inputs : list EffectiveInputBinding) : RuntimeResult unit :=
  match inputs with
  | [] => Ok tt
  | input :: rest =>
      let at_input suffix := field_at "plan.effectiveInputs" index +:+ suffix in
      validate_identifier (ei_authority input) (at_input ".authority") ;;
      validate_digest (ei_digest input) (at_input ".digest") ;;
      validate_input_path (ei_relative_object input) (at_input ".relativeObject") ;;
      validate_input_path (ei_presentation_relative_path input)
        (at_input ".presentationRelativePath") ;;
      match target with
      | ExecutionTarget.WindowsNative =>
          validate_windows_input_relative_path (ei_presentation_relative_path input) index
      | ExecutionTarget.LocalLinux => Ok tt
      end ;;
      fail_if (existsb (paths_overlap (ei_presentation_relative_path input)) seen)
        (invalid "effective input presentation paths must not overlap"
           (at_input ".presentationRelativePath")) ;;
      validate_effective_inputs target (ei_presentation_relative_path input :: seen)
        (S index) rest
  end.

(** Revision, limits, budget and process payloads. *)
Definition validate_submit_limits (plan : RuntimeExecutionPlan) : RuntimeResult unit :=
  fail_if (String.eqb (plan_source_revision plan) ""
           || (256 <? str_len (plan_source_revision plan)))
    (invalid "sourceRevision must be non-empty and bounded" "plan.sourceRevision") ;;
  fail_if ((plan_timeout_ms plan =? 0) || (plan_stdout_limit_bytes plan =? 0)
           || (plan_stderr_limit_bytes plan =? 0))
    (invalid "runtime and output limits must be positive" "plan") ;;
  validate_plan_budget (plan_budget plan) ;;
  validate_exec_payload_for_plan (plan_execution_target plan) (plan_executable plan)
    (plan_args plan) (plan_env plan) "plan" ;;
  for_each_i (fun index step =>
    validate_exec_payload_for_plan (plan_execution_target plan) (step_executable step)
      (step_args step) (step_env step) (field_at "plan.steps" index)) 0 (plan_steps plan).

Definition validate_submit (request : SubmitRequest) : RuntimeResult unit :=
  validate_submit_header request ;;
  validate_submit_side_truth request ;;
  validate_submit_paths (sub_plan request) ;;
  validate_submit_input_set (sub_plan request) ;;
  match plan_execution_target (sub_plan request) with
  | ExecutionTarget.WindowsNative =>
      validate_windows_input_relative_paths
        (map ei_presentation_relative_path (plan_effective_inputs (sub_plan request)))
  | ExecutionTarget.LocalLinux => Ok tt
  end ;;
  validate_effective_inputs (plan_execution_target (sub_plan request)) [] 0
    (plan_effective_inputs (sub_plan request)) ;;
  validate_submit_limits (sub_plan request).

(** ** Identities presented by Runners and Artifacts *)

Definition attempt_runner_identity_matches (attempt : AttemptRecord) (identity : RunnerIdentity)
    : bool :=
  String.eqb (att_unit_name attempt) (rid_unit_name identity)
  && (att_boot_id attempt == Some (rid_boot_id identity))
  && (att_invocation_id attempt == Some (rid_invocation_id identity))
  && (att_control_group attempt == Some (rid_control_group identity))
  && (att_main_pid attempt == Some (rid_main_pid identity))
  && (att_process_start_identity attempt == Some (rid_process_start_identity identity))
  && (att_runner_start_digest attempt == Some (rid_runner_start_digest identity)).

Definition validate_runner_identity (identity : RunnerIdentity) : RuntimeResult unit :=
  validate_identifier (rid_boot_id identity) "bootId" ;;
  validate_identifier (rid_unit_name identity) "unitName" ;;
  validate_identifier (rid_invocation_id identity) "invocationId" ;;
  validate_identifier (rid_process_start_identity identity) "processStartIdentity" ;;
  fail_if (negb (ends_with ".service" (rid_unit_name identity)) || (rid_main_pid identity =? 0))
    (invalid "invalid Runner unit or PID" "runnerIdentity") ;;
  fail_if (negb (is_absolute (rid_control_group identity)))
    (invalid "controlGroup must be absolute" "controlGroup") ;;
  validate_digest (rid_runner_start_digest identity) "runnerStartDigest".

Definition validate_artifact_registration (artifact : ArtifactRegistration)
    : RuntimeResult unit :=
  validate_identifier (areg_artifact_id artifact) "artifactId" ;;
  validate_identifier (areg_kind artifact) "artifact.kind" ;;
  validate_digest (areg_digest artifact) "artifact.digest" ;;
  fail_if (String.eqb (areg_relative_path artifact) ""
           || is_absolute (areg_relative_path artifact)
           || existsb (String.eqb "..") (split_on slash (areg_relative_path artifact)))
    (invalid "Artifact path must be a bounded relative path" "artifact.relativePath") ;;
  fail_if (String.eqb (areg_media_type artifact) "" || (256 <? str_len (areg_media_type artifact)))
    (invalid "Artifact mediaType must be non-empty and bounded" "artifact.mediaType").

(** ** Request identity of a stored plan *)

(** The loop of [normalize_path_text] on the components already pushed
    (innermost first). *)
Fixpoint normalize_components (absolute : bool) (acc : list Component) (l : list Component)
    : list Component :=
  match l with
  | [] => rev acc
  | RootDir :: rest | CurDir :: rest => normalize_components absolute acc rest
  | ParentDir :: rest =>
      match acc with
      | Normal _ :: acc' => normalize_components absolute acc' rest
      | _ => normalize_components absolute (if absolute then acc else ParentDir :: acc) rest
      end
  | Normal s :: rest => normalize_components absolute (Normal s :: acc) rest
  end.

Definition normalize_path_text (value : string) : string :=
  let absolute := is_absolute value in
  let body := relative_text (normalize_components absolute [] (components value)) in
  if absolute then "/" +:+ body else body.

Definition normalize_relative_path_text (value : string) : string :=
  let normalized := normalize_path_text value in
  if String.eqb normalized "" then "." else normalized.

Definition identity_windows_authority (target : ExecutionTarget.t)
    (authority : WindowsAuthority.t) : option WindowsAuthority.t :=
  match target, authority with
  | ExecutionTarget.WindowsNative, WindowsAuthority.Limited => None
  | ExecutionTarget.WindowsNative, _ => Some authority
  | _, _ => None
  end.

Definition operation_request_identity_digest_from_parts (identity : OperationRequestIdentity)
    : string :=
  REQUEST_IDENTITY_PREFIX +:+ sha256_bytes (operation_identity_to_json identity).

Definition cwd_relative_to (workspace cwd : string) : option string :=
  relative_text <$> components_strip_prefix (components workspace) (components cwd).

Definition step_identity (workspace : string) (step : RuntimeExecutionStep)
    : UniversalExecutionStep :=
  {| ues_id := step_id step;
     ues_executable := normalize_path_text (step_executable step);
     ues_args := step_args step;
     ues_cwd_relative :=
       match cwd_relative_to workspace (step_cwd step) with
       | Some path => normalize_relative_path_text path
       | None => step_cwd step
       end;
     ues_env := step_env step;
     ues_timeout_ms := step_timeout_ms step;
     ues_continue_on_error := step_continue_on_error step |}.

Definition operation_request_identity_digest_from_plan (plan : RuntimeExecutionPlan)
    : RuntimeResult string :=
  cwd ← ok_or (error_new RegistryCorrupt "stored execution cwd is outside its Workspace"
                 (Some "executionPlan") false)
    (cwd_relative_to (plan_workspace_path plan) (plan_cwd plan));
  Ok (operation_request_identity_digest_from_parts
    {| ori_schema_version := plan_schema_version plan;
       ori_principal := plan_principal plan;
       ori_workspace_id := plan_workspace_id plan;
       ori_executable := normalize_path_text (plan_executable plan);
       ori_args := plan_args plan;
       ori_cwd_relative := normalize_relative_path_text cwd;
       ori_env := plan_env plan;
       ori_timeout_ms := plan_timeout_ms plan;
       ori_stdout_limit_bytes := plan_stdout_limit_bytes plan;
       ori_stderr_limit_bytes := plan_stderr_limit_bytes plan;
       ori_steps := map (step_identity (plan_workspace_path plan)) (plan_steps plan);
       ori_budget := plan_budget plan;
       ori_execution_profile := plan_execution_profile plan;
       ori_execution_target := plan_execution_target plan;
       ori_windows_authority :=
         identity_windows_authority (plan_execution_target plan) (plan_windows_authority plan);
       ori_foreign_references := plan_foreign_references plan;
       ori_host_dependencies := [] |}).

(** [job_request_identity_digest] *)
Definition job_request_identity_digest (job : RuntimeJobRecord) : RuntimeResult string :=
  if existsb (fun prefix => starts_with prefix (job_request_digest job)) identity_prefixes then
    validate_request_identity_digest (job_request_digest job) ;;
    Ok (job_request_digest job)
  else
    plan ← map_err (fun text =>
             error_new RegistryCorrupt ("stored execution plan is invalid: " +:+ text)
               (Some "executionPlan") false) (plan_of_json (job_execution_plan_json job));
    operation_request_identity_digest_from_plan plan.
End submit.
