(* ===== verification/Store.v ===== *)
(** * Store

    The Registry database ([migrations/runtime/*.sql]) as a record of tables,
    and the SQL statements of [runtime/registry.rs] as operations of a
    transaction monad.  A row holds the typed record that the [Raw*] decoders
    rebuild from the stored text (the round trips below justify that);
    [UNIQUE], primary-key and [CHECK] constraints and the two triggers are
    checked where they can fire. *)

From S2P Require Import Prelude Text Errors Types Supervisor Platform Validation Submit.

#[local] Open Scope Z_scope.

(** ** Row decoding *)

(** [RawJob]: a row as SQLite returns it. *)
Record RawJob : Type := {
  rj_job_id : string;
  rj_principal : string;
  rj_client_request_id : string;
  rj_request_digest : string;
  rj_operation_digest : string;
  rj_workspace_id : string;
  rj_workspace_snapshot_json : string;
  rj_execution_plan_json : string;
  rj_execution_plan_digest : string;
  rj_created_at_ms : Z;
  rj_desired_state : string;
  rj_resolution : option string;
  rj_current_attempt_id : option string;
  rj_row_version : Z;
}.

(** [RawJob::into_record] *)
Definition raw_job_into_record (r : RawJob) : RuntimeResult RuntimeJobRecord :=
  desired_state ← JobDesiredState.parse (rj_desired_state r);
  resolution ← match rj_resolution r with
               | Some text => Some <$> JobResolution.parse text
               | None => Ok None
               end;
  Ok {| job_job_id := rj_job_id r; job_principal := rj_principal r;
        job_client_request_id := rj_client_request_id r;
        job_request_digest := rj_request_digest r;
        job_operation_digest := rj_operation_digest r; job_workspace_id := rj_workspace_id r;
        job_workspace_snapshot_json := rj_workspace_snapshot_json r;
        job_execution_plan_json := rj_execution_plan_json r;
        job_execution_plan_digest := rj_execution_plan_digest r;
        job_created_at_ms := rj_created_at_ms r; job_desired_state := desired_state;
        job_resolution := resolution; job_current_attempt_id := rj_current_attempt_id r;
        job_row_version := rj_row_version r |}.

(** [RawAttempt]: a row as SQLite returns it. *)
Record RawAttempt : Type := {
  ra_attempt_id : string;
  ra_job_id : string;
  ra_attempt_number : Z;
  ra_state : string;
  ra_termination_intent : string;
  ra_launch_token_digest : string;
  ra_bundle_path : string;
  ra_bundle_digest : option string;
  ra_boot_id : option string;
  ra_unit_name : string;
  ra_invocation_id : option string;
  ra_control_group : option string;
  ra_main_pid : option Z;
  ra_process_start_identity : option string;
  ra_runner_start_digest : option string;
  ra_result_digest : option string;
  ra_exit_code : option Z;
  ra_infrastructure_error_digest : option string;
  ra_created_at_ms : Z;
  ra_started_at_ms : option Z;
  ra_finished_at_ms : option Z;
  ra_row_version : Z;
}.

(** [RawAttempt::into_record] *)
Definition raw_attempt_into_record (r : RawAttempt) : RuntimeResult AttemptRecord :=
  state ← AttemptState.parse (ra_state r);
  termination_intent ← AttemptTerminationIntent.parse (ra_termination_intent r);
  Ok {| att_attempt_id := ra_attempt_id r; att_job_id := ra_job_id r;
        att_attempt_number := ra_attempt_number r; att_state := state;
        att_termination_intent := termination_intent;
        att_launch_token_digest := ra_launch_token_digest r;
        att_bundle_path := ra_bundle_path r; att_bundle_digest := ra_bundle_digest r;
        att_boot_id := ra_boot_id r; att_unit_name := ra_unit_name r;
        att_invocation_id := ra_invocation_id r; att_control_group := ra_control_group r;
        att_main_pid := ra_main_pid r;
        att_process_start_identity := ra_process_start_identity r;
        att_runner_start_digest := ra_runner_start_digest r;
        att_result_digest := ra_result_digest r; att_exit_code := ra_exit_code r;
        att_infrastructure_error_digest := ra_infrastructure_error_digest r;
        att_created_at_ms := ra_created_at_ms r; att_started_at_ms := ra_started_at_ms r;
        att_finished_at_ms := ra_finished_at_ms r; att_row_version := ra_row_version r |}.

(** [RawReservation]: a row as SQLite returns it. *)
Record RawReservation : Type := {
  rr_reservation_id : string;
  rr_attempt_id : string;
  rr_global_limit : Z;
  rr_state : string;
  rr_acquired_at_ms : Z;
  rr_released_at_ms : option Z;
  rr_release_reason : option string;
}.

(** The decoding at the end of [load_reservation]. *)
Definition raw_reservation_into_record (r : RawReservation) : RuntimeResult ReservationRecord :=
  state ← ReservationState.parse (rr_state r);
  Ok {| res_reservation_id := rr_reservation_id r; res_attempt_id := rr_attempt_id r;
        res_global_limit := rr_global_limit r; res_state := state;
        res_acquired_at_ms := rr_acquired_at_ms r; res_released_at_ms := rr_released_at_ms r;
        res_release_reason := rr_release_reason r |}.

(** The bound parameters of the INSERT: enumerations as text. *)
Definition raw_of_job (r : RuntimeJobRecord) : RawJob :=
  {| rj_job_id := job_job_id r; rj_principal := job_principal r;
     rj_client_request_id := job_client_request_id r;
     rj_request_digest := job_request_digest r;
     rj_operation_digest := job_operation_digest r; rj_workspace_id := job_workspace_id r;
     rj_workspace_snapshot_json := job_workspace_snapshot_json r;
     rj_execution_plan_json := job_execution_plan_json r;
     rj_execution_plan_digest := job_execution_plan_digest r;
     rj_created_at_ms := job_created_at_ms r;
     rj_desired_state := JobDesiredState.as_db (job_desired_state r);
     rj_resolution := JobResolution.as_db <$> job_resolution r;
     rj_current_attempt_id := job_current_attempt_id r;
     rj_row_version := job_row_version r |}.

(** The bound parameters of the INSERT: enumerations as text. *)
Definition raw_of_attempt (r : AttemptRecord) : RawAttempt :=
  {| ra_attempt_id := att_attempt_id r; ra_job_id := att_job_id r;
     ra_attempt_number := att_attempt_number r;
     ra_state := AttemptState.as_db (att_state r);
     ra_termination_intent := AttemptTerminationIntent.as_db (att_termination_intent r);
     ra_launch_token_digest := att_launch_token_digest r;
     ra_bundle_path := att_bundle_path r; ra_bundle_digest := att_bundle_digest r;
     ra_boot_id := att_boot_id r; ra_unit_name := att_unit_name r;
     ra_invocation_id := att_invocation_id r; ra_control_group := att_control_group r;
     ra_main_pid := att_main_pid r;
     ra_process_start_identity := att_process_start_identity r;
     ra_runner_start_digest := att_runner_start_digest r;
     ra_result_digest := att_result_digest r; ra_exit_code := att_exit_code r;
     ra_infrastructure_error_digest := att_infrastructure_error_digest r;
     ra_created_at_ms := att_created_at_ms r; ra_started_at_ms := att_started_at_ms r;
     ra_finished_at_ms := att_finished_at_ms r; ra_row_version := att_row_version r |}.

(** The bound parameters of the INSERT: enumerations as text. *)
Definition raw_of_reservation (r : ReservationRecord) : RawReservation :=
  {| rr_reservation_id := res_reservation_id r; rr_attempt_id := res_attempt_id r;
     rr_global_limit := res_global_limit r;
     rr_state := ReservationState.as_db (res_state r);
     rr_acquired_at_ms := res_acquired_at_ms r; rr_released_at_ms := res_released_at_ms r;
     rr_release_reason := res_release_reason r |}.

(** ** Tables *)

(** The four [recovery_*] columns: the triggers of migration 5 keep them all
    null or all present. *)
Record RecoveryColumns : Type := {
  rec_required : bool;
  rec_reason_code : string;
  rec_evidence_digest : string;
  rec_observed_at_ms : Z;
}.

Record AttemptRow : Type := {
  row_attempt : AttemptRecord;
  row_recovery : option RecoveryColumns;
}.

Record ReservationRow : Type := {
  row_reservation : ReservationRecord;
  row_state_observed_at_ms : Z;
}.

Record IdempotencyKey : Type := {
  key_operation_digest : string;
  key_job_id : string;
  key_created_at_ms : Z;
}.

Record ReleaseEffectRow : Type := {
  rer_effect_id : string;
  rer_contract : string;
  rer_request_digest : string;
  rer_workspace_id : string;
  rer_commit_revision : string;
  rer_candidate_manifest_digest : string;
  rer_expected_tool_count : Z;
  rer_receipt_path : string;
  rer_binding_digest : string;
}.

Record JobEvent : Type := {
  ev_event_id : string;
  ev_job_id : string;
  ev_attempt_id : option string;
  ev_event_sequence : Z;
  ev_event_type : string;
  ev_origin : string;
  ev_previous_state : option AttemptState.t;
  ev_new_state : option AttemptState.t;
  ev_reason_code : string;
  ev_detail_json : string;
  ev_detail_digest : string;
  ev_observed_at_ms : Z;
}.

(** The database.  Tables are keyed by primary key, except the reservations,
    keyed by their UNIQUE [attempt_id], and the append-only event log, oldest
    event first. *)
Record Db : Type := {
  db_jobs : gmap string RuntimeJobRecord;
  db_attempts : gmap string AttemptRow;
  db_idempotency_keys : gmap (string * string) IdempotencyKey;
  db_reservations : gmap string ReservationRow;
  db_events : list JobEvent;
  db_artifacts : gmap string RuntimeArtifactRecord;
  db_execution_providers : gmap string (string * string);
  db_host_dependencies : gmap string (string * string);
  db_release_effects : gmap string ReleaseEffectRow;
  db_supervisor_owners : gmap string (string * string);
}.

Definition empty_db : Db :=
  {| db_jobs := ∅; db_attempts := ∅; db_idempotency_keys := ∅; db_reservations := ∅; db_events := []; db_artifacts := ∅; db_execution_providers := ∅; db_host_dependencies := ∅; db_release_effects := ∅; db_supervisor_owners := ∅ |}.

Definition set_db_jobs (v : gmap string RuntimeJobRecord) (d : Db) : Db :=
  {| db_jobs := v; db_attempts := db_attempts d; db_idempotency_keys := db_idempotency_keys d;
     db_reservations := db_reservations d; db_events := db_events d;
     db_artifacts := db_artifacts d; db_execution_providers := db_execution_providers d;
     db_host_dependencies := db_host_dependencies d;
     db_release_effects := db_release_effects d;
     db_supervisor_owners := db_supervisor_owners d |}.

Definition set_db_attempts (v : gmap string AttemptRow) (d : Db) : Db :=
  {| db_jobs := db_jobs d; db_attempts := v; db_idempotency_keys := db_idempotency_keys d;
     db_reservations := db_reservations d; db_events := db_events d;
     db_artifacts := db_artifacts d; db_execution_providers := db_execution_providers d;
     db_host_dependencies := db_host_dependencies d;
     db_release_effects := db_release_effects d;
     db_supervisor_owners := db_supervisor_owners d |}.

Definition set_db_idempotency_keys (v : gmap (string * string) IdempotencyKey) (d : Db) : Db :=
  {| db_jobs := db_jobs d; db_attempts := db_attempts d; db_idempotency_keys := v;
     db_reservations := db_reservations d; db_events := db_events d;
     db_artifacts := db_artifacts d; db_execution_providers := db_execution_providers d;
     db_host_dependencies := db_host_dependencies d;
     db_release_effects := db_release_effects d;
     db_supervisor_owners := db_supervisor_owners d |}.

Definition set_db_reservations (v : gmap string ReservationRow) (d : Db) : Db :=
  {| db_jobs := db_jobs d; db_attempts := db_attempts d;
     db_idempotency_keys := db_idempotency_keys d; db_reservations := v;
     db_events := db_events d; db_artifacts := db_artifacts d;
     db_execution_providers := db_execution_providers d;
     db_host_dependencies := db_host_dependencies d;
     db_release_effects := db_release_effects d;
     db_supervisor_owners := db_supervisor_owners d |}.

Definition set_db_events (v : list JobEvent) (d : Db) : Db :=
  {| db_jobs := db_jobs d; db_attempts := db_attempts d;
     db_idempotency_keys := db_idempotency_keys d; db_reservations := db_reservations d;
     db_events := v; db_artifacts := db_artifacts d;
     db_execution_providers := db_execution_providers d;
     db_host_dependencies := db_host_dependencies d;
     db_release_effects := db_release_effects d;
     db_supervisor_owners := db_supervisor_owners d |}.

Definition set_db_artifacts (v : gmap string RuntimeArtifactRecord) (d : Db) : Db :=
  {| db_jobs := db_jobs d; db_attempts := db_attempts d;
     db_idempotency_keys := db_idempotency_keys d; db_reservations := db_reservations d;
     db_events := db_events d; db_artifacts := v;
     db_execution_providers := db_execution_providers d;
     db_host_dependencies := db_host_dependencies d;
     db_release_effects := db_release_effects d;
     db_supervisor_owners := db_supervisor_owners d |}.

Definition set_db_execution_providers (v : gmap string (string * string)) (d : Db) : Db :=
  {| db_jobs := db_jobs d; db_attempts := db_attempts d;
     db_idempotency_keys := db_idempotency_keys d; db_reservations := db_reservations d;
     db_events := db_events d; db_artifacts := db_artifacts d; db_execution_providers := v;
     db_host_dependencies := db_host_dependencies d;
     db_release_effects := db_release_effects d;
     db_supervisor_owners := db_supervisor_owners d |}.

Definition set_db_host_dependencies (v : gmap string (string * string)) (d : Db) : Db :=
  {| db_jobs := db_jobs d; db_attempts := db_attempts d;
     db_idempotency_keys := db_idempotency_keys d; db_reservations := db_reservations d;
     db_events := db_events d; db_artifacts := db_artifacts d;
     db_execution_providers := db_execution_providers d; db_host_dependencies := v;
     db_release_effects := db_release_effects d;
     db_supervisor_owners := db_supervisor_owners d |}.

Definition set_db_release_effects (v : gmap string ReleaseEffectRow) (d : Db) : Db :=
  {| db_jobs := db_jobs d; db_attempts := db_attempts d;
     db_idempotency_keys := db_idempotency_keys d; db_reservations := db_reservations d;
     db_events := db_events d; db_artifacts := db_artifacts d;
     db_execution_providers := db_execution_providers d;
     db_host_dependencies := db_host_dependencies d; db_release_effects := v;
     db_supervisor_owners := db_supervisor_owners d |}.

Definition set_db_supervisor_owners (v : gmap string (string * string)) (d : Db) : Db :=
  {| db_jobs := db_jobs d; db_attempts := db_attempts d;
     db_idempotency_keys := db_idempotency_keys d; db_reservations := db_reservations d;
     db_events := db_events d; db_artifacts := db_artifacts d;
     db_execution_providers := db_execution_providers d;
     db_host_dependencies := db_host_dependencies d;
     db_release_effects := db_release_effects d; db_supervisor_owners := v |}.

(** ** Transactions

    A transaction body reads and writes the tables; an error discards its
    writes (the [Transaction] is dropped, which rolls it back). *)
Definition tx (A : Type) : Type := Db -> RuntimeResult (A * Db).

#[export] Instance tx_ret : MRet tx := fun A a d => Ok (a, d).
#[export] Instance tx_bind : MBind tx :=
  fun A B f m d => match m d with Ok (a, d') => f a d' | Err e => Err e end.

Definition throw {A} (e : RuntimeError) : tx A := fun _ => Err e.
Definition lift {A} (m : RuntimeResult A) : tx A :=
  fun d => match m with Ok a => Ok (a, d) | Err e => Err e end.
Definition reject_if (c : bool) (e : RuntimeError) : tx unit :=
  if c then throw e else mret tt.
Definition read {A} (f : Db -> A) : tx A := fun d => Ok (f d, d).
Definition write (f : Db -> Db) : tx unit := fun d => Ok (tt, f d).

Lemma tx_bind_Ok {A B} (m : tx A) (f : A -> tx B) d b d' :
  (m ≫= f) d = Ok (b, d') <-> exists a d1, m d = Ok (a, d1) /\ f a d1 = Ok (b, d').
Proof.
  unfold mbind, tx_bind. destruct (m d) as [[a d1] | e]; split.
  - eauto.
  - by intros (? & ? & [= <- <-] & ?).
  - done.
  - by intros (? & ? & ? & _).
Qed.

Lemma reject_if_Ok c e d u d' : reject_if c e d = Ok (u, d') <-> c = false /\ d' = d.
Proof. destruct c, u; simpl; split; try done; [by intros [? _] | by intros [= ->] | by intros [_ ->]]. Qed.

Lemma lift_Ok {A} (m : RuntimeResult A) d a d' : lift m d = Ok (a, d') <-> m = Ok a /\ d' = d.
Proof.
  unfold lift. destruct m; split; try done; try (by intros [? _]).
  - by intros [= -> ->].
  - by intros [[= ->] ->].
Qed.

(** SQLite's report of a violated constraint or of [RAISE(ABORT, ...)]. *)
Definition constraint_error (text context : string) : RuntimeError :=
  from_sql (SqliteFailure ConstraintViolation text) context.

(** [EXISTS (SELECT 1 FROM t WHERE ...)] *)
Definition any {K V} `{Countable K} (f : V -> bool) (m : gmap K V) : bool :=
  existsb (fun kv => f kv.2) (map_to_list m).

Lemma any_false {K V} `{Countable K} (f : V -> bool) (m : gmap K V) :
  any f m = false <-> forall k v, m !! k = Some v -> f v = false.
Proof.
  unfold any. rewrite <- not_true_iff_false, existsb_exists. split.
  - intros Hn k v Hk. apply not_true_iff_false. intros Hf. apply Hn.
    exists (k, v). split; [ | done]. by apply list_elem_of_In, elem_of_map_to_list.
  - intros Hall ([k v] & Hin & Hf). apply list_elem_of_In, elem_of_map_to_list in Hin.
    apply Hall in Hin. simpl in Hf. congruence.
Qed.

(** ** Triggers (as migration 4 leaves them) *)

Definition runner_terminal (s : AttemptState.t) : bool :=
  match s with
  | AttemptState.Succeeded | AttemptState.Failed | AttemptState.TimedOut
  | AttemptState.Cancelled => true
  | _ => false
  end.

(** [attempts_terminal_no_reopen] aborts this update of [state]. *)
Definition attempts_terminal_no_reopen (old new : AttemptState.t) : bool :=
  AttemptState.is_terminal old && (new != old)
  && negb (((((old == AttemptState.Lost) || (old == AttemptState.Orphaned))
             && runner_terminal new))
           || ((old == AttemptState.Orphaned) && (new == AttemptState.Lost))).

(** [jobs_resolution_immutable] aborts this update of [resolution]. *)
Definition jobs_resolution_immutable (old new : option JobResolution.t) : bool :=
  match old with
  | None => false
  | Some o =>
      (new != Some o)
      && negb (match o, new with
               | JobResolution.Lost, Some n | JobResolution.Orphaned, Some n =>
                   match n with
                   | JobResolution.Succeeded | JobResolution.Failed | JobResolution.TimedOut
                   | JobResolution.Cancelled => true
                   | JobResolution.Lost => o == JobResolution.Orphaned
                   | JobResolution.Orphaned => false
                   end
               (* [NEW.resolution IN (..)] is NULL, and with it the condition *)
               | JobResolution.Lost, None | JobResolution.Orphaned, None => true
               | _, _ => false
               end)
  end.

(** ** UPDATE statements

    Each returns the number of changed rows, as [Transaction::execute]. *)

Definition update_attempts (context attempt_id : string) (where_ : AttemptRow -> bool)
    (set : AttemptRow -> AttemptRow) : tx Z := fun d =>
  match db_attempts d !! attempt_id with
  | Some row =>
      if where_ row then
        if attempts_terminal_no_reopen (att_state (row_attempt row))
             (att_state (row_attempt (set row)))
        then Err (constraint_error "terminal attempt cannot reopen" context)
        else Ok (1, set_db_attempts (<[attempt_id := set row]> (db_attempts d)) d)
      else Ok (0, d)
  | None => Ok (0, d)
  end.

Definition update_jobs (context job_id : string) (where_ : RuntimeJobRecord -> bool)
    (set : RuntimeJobRecord -> RuntimeJobRecord) : tx Z := fun d =>
  match db_jobs d !! job_id with
  | Some job =>
      if where_ job then
        if jobs_resolution_immutable (job_resolution job) (job_resolution (set job))
        then Err (constraint_error "job resolution is immutable" context)
        else Ok (1, set_db_jobs (<[job_id := set job]> (db_jobs d)) d)
      else Ok (0, d)
  | None => Ok (0, d)
  end.

(** The [CHECK] ties [released_at_ms] to the state. *)
Definition reservation_check (r : ReservationRecord) : bool :=
  Bool.eqb (res_state r == ReservationState.Released)
    (match res_released_at_ms r with Some _ => true | None => false end).

Definition update_reservations (context attempt_id : string) (where_ : ReservationRow -> bool)
    (set : ReservationRow -> ReservationRow) : tx Z := fun d =>
  match db_reservations d !! attempt_id with
  | Some row =>
      if where_ row then
        if reservation_check (row_reservation (set row))
        then Ok (1, set_db_reservations (<[attempt_id := set row]> (db_reservations d)) d)
        else Err (constraint_error "CHECK constraint failed" context)
      else Ok (0, d)
  | None => Ok (0, d)
  end.

(** Row-level setters. *)
Definition on_attempt (f : AttemptRecord -> AttemptRecord) (row : AttemptRow) : AttemptRow :=
  {| row_attempt := f (row_attempt row); row_recovery := row_recovery row |}.
Definition on_recovery (v : option RecoveryColumns) (row : AttemptRow) : AttemptRow :=
  {| row_attempt := row_attempt row; row_recovery := v |}.
Definition bump_attempt (a : AttemptRecord) : AttemptRecord :=
  set_att_row_version (att_row_version a + 1) a.
Definition bump_job (j : RuntimeJobRecord) : RuntimeJobRecord :=
  set_job_row_version (job_row_version j + 1) j.

(** ** Reads *)

Definition load_job (job_id : string) : tx RuntimeJobRecord := fun d =>
  match db_jobs d !! job_id with
  | Some job => Ok (job, d)
  | None => Err (error_new JobNotFound "Job not found" (Some "jobId") false)
  end.

Definition load_attempt (attempt_id : string) : tx AttemptRecord := fun d =>
  match db_attempts d !! attempt_id with
  | Some row => Ok (row_attempt row, d)
  | None => Err (error_new AttemptNotFound "Attempt not found" (Some "attemptId") false)
  end.

Definition load_reservation (attempt_id : string) : tx ReservationRecord := fun d =>
  match db_reservations d !! attempt_id with
  | Some row => Ok (row_reservation row, d)
  | None => Err (error_new ReservationStateConflict "Attempt has no reservation"
                   (Some "attemptId") false)
  end.

Definition live_reservation (r : ReservationRecord) : bool :=
  match res_state r with
  | ReservationState.Active | ReservationState.HeldOrphaned => true
  | ReservationState.Released => false
  end.

(** ** Events *)

Definition max_sequence (job_id : string) (events : list JobEvent) : Z :=
  foldr (fun e n => if String.eqb (ev_job_id e) job_id then Z.max (ev_event_sequence e) n else n)
    0 events.

Section events.
Context `{P : Platform}.

Definition new_event (job_id : string) (attempt_id : option string)
    (event_type origin : string) (previous_state new_state : option AttemptState.t)
    (reason_code : string) (detail : Json) (observed_at_ms : Z) (events : list JobEvent)
    : JobEvent :=
  {| ev_event_id := "event-" +:+ uuid_v7 (length events);
     ev_job_id := job_id;
     ev_attempt_id := attempt_id;
     ev_event_sequence := max_sequence job_id events + 1;
     ev_event_type := event_type;
     ev_origin := origin;
     ev_previous_state := previous_state;
     ev_new_state := new_state;
     ev_reason_code := reason_code;
     ev_detail_json := json_to_string detail;
     ev_detail_digest := sha256_bytes (json_to_string detail);
     ev_observed_at_ms := observed_at_ms |}.

Definition append_event (job_id : string) (attempt_id : option string)
    (event_type origin : string) (previous_state new_state : option AttemptState.t)
    (reason_code : string) (detail : Json) (observed_at_ms : Z) : tx unit := fun d =>
  Ok (tt, set_db_events
            (db_events d ++ [new_event job_id attempt_id event_type origin previous_state
                               new_state reason_code detail observed_at_ms (db_events d)]) d).
End events.

(** ** Reservations *)

Definition release_reservation (attempt_id : string) (released_at_ms : Z) (reason : string)
    : tx unit :=
  changed ← update_reservations "cannot release reservation" attempt_id
    (fun row => live_reservation (row_reservation row))
    (fun row => {| row_reservation :=
                     set_res_state ReservationState.Released
                       (set_res_released_at_ms (Some released_at_ms)
                          (set_res_release_reason (Some reason) (row_reservation row)));
                   row_state_observed_at_ms := released_at_ms |});
  if changed =? 0 then
    current ← (fun d => match db_reservations d !! attempt_id with
                        | Some row => Ok (res_state (row_reservation row), d)
                        | None => Err (error_new ReservationStateConflict "reservation is missing"
                                         (Some "attemptId") false)
                        end);
    reject_if (negb (String.eqb (ReservationState.as_db current) "released"))
      (error_new ReservationStateConflict
         ("reservation cannot be released from " +:+ ReservationState.as_db current)
         (Some "attemptId") false)
  else mret tt.

Definition hold_orphaned_reservation (attempt_id : string) (observed_at_ms : Z)
    (reason : string) : tx unit :=
  changed ← update_reservations "cannot hold orphaned reservation" attempt_id
    (fun row => live_reservation (row_reservation row))
    (fun row => {| row_reservation :=
                     set_res_state ReservationState.HeldOrphaned
                       (set_res_released_at_ms None
                          (set_res_release_reason (Some reason) (row_reservation row)));
                   row_state_observed_at_ms := observed_at_ms |});
  reject_if (changed != 1)
    (error_new ReservationStateConflict "orphaned Attempt has no active reservation"
       (Some "attemptId") false).

(** ** Artifacts *)

(** The artifact INSERT of the three commit paths, with its primary key and
    [UNIQUE (attempt_id, kind, relative_path)]. *)
Definition insert_artifact (record : RuntimeArtifactRecord) (message : string) : tx unit :=
  fun d =>
    if match db_artifacts d !! art_artifact_id record with Some _ => true | None => false end
       || any (fun a => String.eqb (art_attempt_id a) (art_attempt_id record)
                        && String.eqb (art_kind a) (art_kind record)
                        && String.eqb (art_relative_path a) (art_relative_path record))
            (db_artifacts d)
    then Err (error_new ArtifactIdentityConflict
                (message +:+ art_artifact_id record +:+ ": UNIQUE constraint failed")
                (Some "artifacts") false)
    else Ok (tt, set_db_artifacts (<[art_artifact_id record := record]> (db_artifacts d)) d).

Definition artifact_record (attempt : AttemptRecord) (finished_at_ms : Z)
    (artifact : ArtifactRegistration) : RuntimeArtifactRecord :=
  {| art_artifact_id := areg_artifact_id artifact;
     art_job_id := att_job_id attempt;
     art_attempt_id := att_attempt_id attempt;
     art_kind := areg_kind artifact;
     art_relative_path := areg_relative_path artifact;
     art_digest := areg_digest artifact;
     art_media_type := areg_media_type artifact;
     art_byte_length := areg_byte_length artifact;
     art_truncated := areg_truncated artifact;
     art_created_at_ms := finished_at_ms |}.

Fixpoint insert_artifacts (attempt : AttemptRecord) (finished_at_ms : Z) (message : string)
    (artifacts : list ArtifactRegistration) : tx unit :=
  match artifacts with
  | [] => mret tt
  | artifact :: rest =>
      insert_artifact (artifact_record attempt finished_at_ms artifact) message ;;
      insert_artifacts attempt finished_at_ms message rest
  end.

Definition resolution_for_state (state : AttemptState.t) : RuntimeResult JobResolution.t :=
  match state with
  | AttemptState.Succeeded => Ok JobResolution.Succeeded
  | AttemptState.Failed => Ok JobResolution.Failed
  | AttemptState.TimedOut => Ok JobResolution.TimedOut
  | AttemptState.Cancelled => Ok JobResolution.Cancelled
  | AttemptState.Lost => Ok JobResolution.Lost
  | AttemptState.Orphaned => Ok JobResolution.Orphaned
  | _ => Err (invalid "Attempt state is not terminal" "state")
  end.
