(* ===== verification/Transaction.v ===== *)
(** * Transactions against a fallible database

    How an operation of [runtime/registry] runs: open the connection, begin an
    IMMEDIATE transaction, run the body, commit, and read back.  The outcome
    of each call on SQLite is an input ([TxIo]); what the operation does about
    it is the code's. *)

From S2P Require Import Prelude Text Errors Types Supervisor Platform Validation Submit Store.

#[local] Open Scope Z_scope.

(** What SQLite's COMMIT did.  A failed COMMIT may have taken effect, may have
    rolled the transaction back, or may have left it open (a deferred
    constraint, say), which [Connection::is_autocommit] tells. *)
Inductive CommitOutcome : Type :=
  | CommitDone
  | CommitErrorApplied (e : SqlError)
  | CommitErrorRolledBack (e : SqlError)
  | CommitErrorOpen (e : SqlError).

Record TxIo : Type := {
  io_open : option RuntimeError;
  io_begin : option SqlError;
  io_commit : CommitOutcome;
}.

Definition io_ok : TxIo := {| io_open := None; io_begin := None; io_commit := CommitDone |}.

(** How a body ends: an early [return Ok(r)] that drops the transaction, or a
    COMMIT with what is done after it succeeds and after it fails.  [after_error]
    receives the error, whether the connection is back in autocommit mode, and
    the durable database. *)
Inductive flow (R : Type) : Type :=
  | Return (r : R)
  | Commit (context : string) (after_ok : Db -> RuntimeResult R)
      (after_error : RuntimeError -> bool -> Db -> RuntimeResult R).
Arguments Return {R} r.
Arguments Commit {R} context after_ok after_error.

(** [transaction.commit().map_err(|error| RuntimeError::from_sql(error, context))?] *)
Definition commit_or_fail {R} (context : string) (after_ok : Db -> RuntimeResult R) : flow R :=
  Commit context after_ok (fun e _ _ => Err e).

(** COMMIT of the transaction that leads from [d] to [d']: the report to the
    caller and the durable database. *)
Definition finish {R} (io : TxIo) (d d' : Db) (f : flow R) : RuntimeResult R * Db :=
  match f with
  | Return r => (Ok r, d)
  | Commit context after_ok after_error =>
      match io_commit io with
      | CommitDone => (after_ok d', d')
      | CommitErrorApplied e => (after_error (from_sql e context) true d', d')
      | CommitErrorRolledBack e => (after_error (from_sql e context) true d, d)
      | CommitErrorOpen e => (after_error (from_sql e context) false d, d)
      end
  end.

Definition with_tx {R} (io : TxIo) (begin_error : SqlError -> RuntimeError)
    (body : tx (flow R)) (d : Db) : RuntimeResult R * Db :=
  match io_open io with
  | Some e => (Err e, d)
  | None =>
      match io_begin io with
      | Some e => (Err (begin_error e), d)
      | None =>
          match body d with
          | Err e => (Err e, d)
          | Ok (f, d') => finish io d d' f
          end
      end
  end.

(** [immediate(&mut connection, context)] of [runtime/registry.rs] *)
Definition immediate {R} (io : TxIo) (context : string) (body : tx (flow R)) (d : Db)
    : RuntimeResult R * Db :=
  with_tx io (fun e => safe_same_request_sql_error e ("cannot begin " +:+ context)) body d.

(** A read on an open connection. *)
Definition query {A} (m : tx A) (d : Db) : RuntimeResult A := fst <$> m d.

(** A read-only operation: [self.open_connection()?] and the query. *)
Definition with_connection {A} (io : TxIo) (m : tx A) (d : Db) : RuntimeResult A :=
  match io_open io with Some e => Err e | None => query m d end.

(** ** Atomicity *)

(** An operation leaves the database as it was, or exactly as its body wrote it. *)
Lemma with_tx_cases {R} io begin_error (body : tx (flow R)) d :
  snd (with_tx io begin_error body d) = d \/
  exists f d', body d = Ok (f, d') /\ snd (with_tx io begin_error body d) = d'
    /\ io_open io = None /\ io_begin io = None
    /\ with_tx io begin_error body d = finish io d d' f.
Proof.
  unfold with_tx. destruct (io_open io); [by left | ]. destruct (io_begin io); [by left | ].
  destruct (body d) as [[f d'] | e]; [ | by left].
  destruct f as [r | ctx ok err]; [by left | ]. cbn [finish].
  destruct (io_commit io) as [ | e | e | e] eqn:He; simpl; try (by left);
    right; exists (Commit ctx ok err), d'; (repeat split); simpl; by rewrite ?He.
Qed.

(** An invariant that every successful body preserves holds after the
    operation, whatever the database did. *)
Lemma with_tx_invariant {R} (I : Db -> Prop) io begin_error (body : tx (flow R)) d :
  I d -> (forall f d', body d = Ok (f, d') -> I d') ->
  I (snd (with_tx io begin_error body d)).
Proof.
  intros Hd Hbody.
  destruct (with_tx_cases io begin_error body d) as [-> | (f & d' & Hb & -> & _)]; eauto.
Qed.

Lemma with_tx_ok {R} begin_error (body : tx (flow R)) d ctx after_ok after_error d' :
  body d = Ok (Commit ctx after_ok after_error, d') ->
  with_tx io_ok begin_error body d = (after_ok d', d').
Proof. unfold with_tx. simpl. by intros ->. Qed.

Lemma immediate_invariant {R} (I : Db -> Prop) io ctx (body : tx (flow R)) d :
  I d -> (forall f d', body d = Ok (f, d') -> I d') -> I (snd (immediate io ctx body d)).
Proof. apply with_tx_invariant. Qed.

(** ** Automation on transaction bodies *)

Lemma ret_Ok {A} (a b : A) d d' : (mret a : tx A) d = Ok (b, d') <-> b = a /\ d' = d.
Proof. split; [by intros [= <- <-] | by intros [-> ->]]. Qed.

Lemma read_Ok {A} (f : Db -> A) d b d' : read f d = Ok (b, d') <-> b = f d /\ d' = d.
Proof. split; [by intros [= <- <-] | by intros [-> ->]]. Qed.

(** [inv_tx] splits a hypothesis that says a body ran to completion into the
    runs of its statements. *)
Ltac inv_tx_step :=
  match goal with
  | H : (_ ≫= _) _ = Ok (_, _) |- _ =>
      let a := fresh "x" in let d1 := fresh "d" in let H1 := fresh "Hx" in
      apply tx_bind_Ok in H as (a & d1 & H1 & H)
  | H : reject_if _ _ _ = Ok (_, _) |- _ =>
      let Hc := fresh "Hc" in apply reject_if_Ok in H as [Hc ->]
  | H : lift _ _ = Ok (_, _) |- _ =>
      let Hl := fresh "Hl" in apply lift_Ok in H as [Hl ->]
  | H : mret _ _ = Ok (_, _) |- _ => apply ret_Ok in H as [? ->]
  | H : read _ _ = Ok (_, _) |- _ => apply read_Ok in H as [? ->]
  | H : throw _ _ = Ok _ |- _ => discriminate H
  | H : Ok _ = Ok _ |- _ => injection H; clear H; intros
  | H : Err _ = Ok _ |- _ => discriminate H
  | u : unit |- _ => destruct u
  end.
Ltac inv_tx := repeat (inv_tx_step; subst).
