(* ===== verification/Migrations.v ===== *)
(** * Opening the Registry's database

    [registry/storage.rs]: the connection and its pragmas, the migrations with
    their ledger, and the maintenance of the tables and indexes that came after
    the ledger was closed.  The scripts are the files of [migrations/runtime/]
    and the [*_storage.sql] of [runtime/], statement by statement. *)

From S2P Require Import Prelude Text Errors Types Supervisor Platform Validation Submit Store.
From S2P Require Import Transaction.

#[local] Open Scope Z_scope.

(** ** The catalogue of a database

    Of [sqlite_master]: tables and indexes share their names, triggers have
    names of their own. *)
Inductive relation : Type :=
  | Table (columns : list string)
  | Index (table : string) (columns : list string).

(** When a trigger aborts the statement that fires it. *)
Inductive rule : Type :=
  | AppendOnly
  (** a final [state], or a [resolution], changes only as excepted *)
  | FinalState (except : list (list AttemptState.t * list AttemptState.t))
  | FinalResolution (except : list (list JobResolution.t * list JobResolution.t))
  | RecoveryFieldsConsistent
  | StateObservedPresent.

(** Whether the trigger aborts an update of [state], and of [resolution], which
    may be NULL: [NEW.resolution IN (..)] is NULL then, and so is a condition in
    which it counts. *)
Definition aborts_state (except : list (list AttemptState.t * list AttemptState.t))
    (old new : AttemptState.t) : bool :=
  AttemptState.is_terminal old && (new != old)
  && negb (existsb (fun '(from, to) => bool_decide (old ∈ from) && bool_decide (new ∈ to)) except).

Definition aborts_resolution (except : list (list JobResolution.t * list JobResolution.t))
    (old new : option JobResolution.t) : bool :=
  match old, new with
  | None, _ => false
  | Some o, None => negb (existsb (fun '(from, _) => bool_decide (o ∈ from)) except)
  | Some o, Some n =>
      (n != o) && negb (existsb (fun '(from, to) => bool_decide (o ∈ from) && bool_decide (n ∈ to)) except)
  end.

Record Catalogue : Type := {
  cat_relations : gmap string relation;
  cat_triggers : gmap string (string * rule);
}.

#[export] Instance relation_eq_dec : EqDecision relation.
Proof. solve_decision. Defined.
#[export] Instance rule_eq_dec : EqDecision rule.
Proof. solve_decision. Defined.
#[export] Instance catalogue_eq_dec : EqDecision Catalogue.
Proof. solve_decision. Defined.

(** ** Rows that a migration rewrites *)

Record ConditionRow : Type := {
  cnd_status : string;
  cnd_reason_code : string;
  cnd_evidence_digest : string;
  cnd_observed_at_ms : Z;
}.

(** The recovery columns of an Attempt, each of which may be NULL. *)
Record RecoveryCells : Type := {
  rcl_required : option bool;
  rcl_reason_code : option string;
  rcl_evidence_digest : option string;
  rcl_observed_at_ms : option Z;
}.

Record ReservationCells : Type := {
  rvc_state : ReservationState.t;
  rvc_acquired_at_ms : Z;
  rvc_released_at_ms : option Z;
  rvc_state_observed_at_ms : option Z;
}.

(** [attempt_conditions] by Attempt and type, [attempts] and
    [concurrency_reservations] by Attempt. *)
Record Rows : Type := {
  rows_conditions : gmap (string * string) ConditionRow;
  rows_attempts : gmap string RecoveryCells;
  rows_reservations : gmap string ReservationCells;
}.

Record LedgerRow : Type := {
  led_name : string;
  led_checksum : string;
  led_applied_at_ms : Z;
}.

Record Schema : Type := {
  sch_catalogue : Catalogue;
  sch_ledger : gmap Z LedgerRow;
  sch_rows : Rows;
}.

(** ** Statements *)

Inductive statement : Type :=
  | CreateTable (if_missing : bool) (name : string) (columns : list string)
  | DropTable (if_there : bool) (name : string)
  | AddColumn (table column : string)
  | CreateIndex (if_missing : bool) (name table : string) (columns : list string)
  | DropIndex (if_there : bool) (name : string)
  | CreateTrigger (name table : string) (r : rule)
  | DropTrigger (name : string)
  (** the two [UPDATE]s of [0005_condition_retirement.sql] *)
  | CopyRecoveryConditions
  | CopyReservationObservations.

Definition sql_failure {A} (text : string) : result SqlError A :=
  Err (SqliteFailure OtherSqlCode text).

Definition is_table (r : option relation) : bool :=
  match r with Some (Table _) => true | _ => false end.
Definition is_index (r : option relation) : bool :=
  match r with Some (Index _ _) => true | _ => false end.
Definition there {A} (x : option A) : bool := match x with Some _ => true | None => false end.

Definition on_relations (f : gmap string relation -> gmap string relation) (c : Catalogue) : Catalogue :=
  {| cat_relations := f (cat_relations c); cat_triggers := cat_triggers c |}.
Definition on_triggers (f : gmap string (string * rule) -> gmap string (string * rule)) (c : Catalogue)
    : Catalogue :=
  {| cat_relations := cat_relations c; cat_triggers := f (cat_triggers c) |}.

Definition belongs_to (table : string) (r : relation) : bool :=
  match r with Index t _ => String.eqb t table | Table _ => false end.

(** A table goes with its indexes and triggers. *)
Definition drop_table (name : string) (c : Catalogue) : Catalogue :=
  {| cat_relations := filter (fun p => belongs_to name p.2 = false) (delete name (cat_relations c));
     cat_triggers := filter (fun p => String.eqb p.2.1 name = false) (cat_triggers c) |}.

(** What a statement does to the catalogue, or the error of SQLite. *)
Definition define (s : statement) (c : Catalogue) : result SqlError Catalogue :=
  let relations := cat_relations c in
  match s with
  | CreateTable if_missing name columns =>
      match relations !! name with
      | None => Ok (on_relations <[name := Table columns]> c)
      | Some (Table _) => if if_missing then Ok c else sql_failure ("table " +:+ name +:+ " already exists")
      | Some (Index _ _) => sql_failure ("there is already an index named " +:+ name)
      end
  | DropTable if_there name =>
      if is_table (relations !! name) then Ok (drop_table name c)
      else if if_there then Ok c
      else sql_failure ("no such table: " +:+ name)
  | AddColumn table column =>
      match relations !! table with
      | Some (Table columns) =>
          if existsb (String.eqb column) columns then sql_failure ("duplicate column name: " +:+ column)
          else Ok (on_relations <[table := Table (columns ++ [column])]> c)
      | _ => sql_failure ("no such table: " +:+ table)
      end
  | CreateIndex if_missing name table columns =>
      match relations !! name with
      | Some (Index _ _) =>
          if if_missing then Ok c else sql_failure ("index " +:+ name +:+ " already exists")
      | Some (Table _) => sql_failure ("there is already a table named " +:+ name)
      | None =>
          match relations !! table with
          | Some (Table there) =>
              if forallb (fun column => existsb (String.eqb column) there) columns
              then Ok (on_relations <[name := Index table columns]> c)
              else sql_failure ("no such column in " +:+ table)
          | _ => sql_failure ("no such table: " +:+ table)
          end
      end
  | DropIndex if_there name =>
      if is_index (relations !! name) then Ok (on_relations (delete name) c)
      else if if_there then Ok c else sql_failure ("no such index: " +:+ name)
  | CreateTrigger name table r =>
      if there (cat_triggers c !! name) then sql_failure ("trigger " +:+ name +:+ " already exists")
      else if is_table (relations !! table) then Ok (on_triggers <[name := (table, r)]> c)
      else sql_failure ("no such table: " +:+ table)
  | DropTrigger name =>
      if there (cat_triggers c !! name) then Ok (on_triggers (delete name) c)
      else sql_failure ("no such trigger: " +:+ name)
  | CopyRecoveryConditions | CopyReservationObservations =>
      if is_table (relations !! "attempt_conditions"%string) then Ok c
      else sql_failure "no such table: attempt_conditions"
  end.

(** The [UPDATE] of [attempts]. *)
Definition copy_recovery (conditions : gmap (string * string) ConditionRow) (attempt_id : string)
    (cells : RecoveryCells) : RecoveryCells :=
  match conditions !! (attempt_id, "recovery_required"%string) with
  | None => cells
  | Some c =>
      {| rcl_required := if String.eqb (cnd_status c) "true" then Some true
                         else if String.eqb (cnd_status c) "false" then Some false else None;
         rcl_reason_code := Some (cnd_reason_code c);
         rcl_evidence_digest := Some (cnd_evidence_digest c);
         rcl_observed_at_ms := Some (cnd_observed_at_ms c) |}
  end.

(** The [UPDATE] of [concurrency_reservations]. *)
Definition copy_observation (conditions : gmap (string * string) ConditionRow) (attempt_id : string)
    (cells : ReservationCells) : ReservationCells :=
  {| rvc_state := rvc_state cells;
     rvc_acquired_at_ms := rvc_acquired_at_ms cells;
     rvc_released_at_ms := rvc_released_at_ms cells;
     rvc_state_observed_at_ms :=
       match rvc_state cells with
       | ReservationState.Active => Some (rvc_acquired_at_ms cells)
       | ReservationState.Released => rvc_released_at_ms cells
       | ReservationState.HeldOrphaned =>
           Some (match conditions !! (attempt_id, "reservation_held"%string) with
                 | Some c => cnd_observed_at_ms c
                 | None => rvc_acquired_at_ms cells
                 end)
       end |}.

(** A column that was just added is NULL in every row. *)
Definition clear_attempt (column : string) (cells : RecoveryCells) : RecoveryCells :=
  let keep {A} (name : string) (x : option A) := if String.eqb column name then None else x in
  {| rcl_required := keep "recovery_required"%string (rcl_required cells);
     rcl_reason_code := keep "recovery_reason_code"%string (rcl_reason_code cells);
     rcl_evidence_digest := keep "recovery_evidence_digest"%string (rcl_evidence_digest cells);
     rcl_observed_at_ms := keep "recovery_observed_at_ms"%string (rcl_observed_at_ms cells) |}.
Definition clear_reservation (column : string) (cells : ReservationCells) : ReservationCells :=
  {| rvc_state := rvc_state cells;
     rvc_acquired_at_ms := rvc_acquired_at_ms cells;
     rvc_released_at_ms := rvc_released_at_ms cells;
     rvc_state_observed_at_ms :=
       if String.eqb column "state_observed_at_ms" then None else rvc_state_observed_at_ms cells |}.

Definition each {A} (f : string -> A -> A) (m : gmap string A) : gmap string A :=
  map_imap (fun key x => Some (f key x)) m.

(** What a statement does to the rows. *)
Definition rewrite_rows (s : statement) (rows : Rows) : Rows :=
  let conditions := rows_conditions rows in
  match s with
  | AddColumn table column =>
      {| rows_conditions := conditions;
         rows_attempts := if String.eqb table "attempts" then each (fun _ => clear_attempt column) (rows_attempts rows)
                          else rows_attempts rows;
         rows_reservations :=
           if String.eqb table "concurrency_reservations"
           then each (fun _ => clear_reservation column) (rows_reservations rows)
           else rows_reservations rows |}
  | CopyRecoveryConditions =>
      {| rows_conditions := conditions;
         rows_attempts := each (copy_recovery conditions) (rows_attempts rows);
         rows_reservations := rows_reservations rows |}
  | CopyReservationObservations =>
      {| rows_conditions := conditions;
         rows_attempts := rows_attempts rows;
         rows_reservations := each (copy_observation conditions) (rows_reservations rows) |}
  | DropTable _ table =>
      {| rows_conditions := if String.eqb table "attempt_conditions" then ∅ else conditions;
         rows_attempts := rows_attempts rows;
         rows_reservations := rows_reservations rows |}
  | _ => rows
  end.

Definition define_all (script : list statement) (c : Catalogue) : result SqlError Catalogue :=
  foldl (fun acc s => c ← acc; define s c) (Ok c) script.
Definition rewrite_all (script : list statement) (rows : Rows) : Rows :=
  foldl (fun rows s => rewrite_rows s rows) rows script.

(** [execute_batch] *)
Definition execute_batch (script : list statement) (d : Schema) : result SqlError Schema :=
  c ← define_all script (sch_catalogue d);
  Ok {| sch_catalogue := c; sch_ledger := sch_ledger d; sch_rows := rewrite_all script (sch_rows d) |}.

(** ** The scripts *)

(** [0001_runtime.sql] *)
Definition MIGRATION_V1_SQL : list statement := [
  CreateTable false "schema_migrations" ["version"; "name"; "checksum"; "applied_at_ms"];
  CreateTable false "jobs"
    ["job_id"; "principal"; "client_request_id"; "request_digest"; "operation_digest"; "workspace_id";
     "workspace_snapshot_json"; "execution_plan_json"; "execution_plan_digest"; "created_at_ms";
     "desired_state"; "resolution"; "current_attempt_id"; "row_version"];
  CreateTable false "attempts"
    ["attempt_id"; "job_id"; "attempt_number"; "state"; "termination_intent"; "launch_token_digest";
     "bundle_path"; "bundle_digest"; "boot_id"; "unit_name"; "invocation_id"; "control_group";
     "main_pid"; "process_start_identity"; "runner_start_digest"; "result_digest"; "exit_code";
     "infrastructure_error_digest"; "created_at_ms"; "started_at_ms"; "finished_at_ms"; "row_version"];
  CreateTable false "idempotency_keys"
    ["principal"; "client_request_id"; "operation_digest"; "job_id"; "created_at_ms"];
  CreateTable false "concurrency_reservations"
    ["reservation_id"; "attempt_id"; "global_limit"; "state"; "acquired_at_ms"; "released_at_ms";
     "release_reason"];
  CreateTable false "job_events"
    ["event_id"; "job_id"; "attempt_id"; "event_sequence"; "event_type"; "origin"; "previous_state";
     "new_state"; "reason_code"; "detail_json"; "detail_digest"; "observed_at_ms"];
  CreateTable false "artifacts"
    ["artifact_id"; "job_id"; "attempt_id"; "kind"; "relative_path"; "digest"; "media_type";
     "byte_length"; "truncated"; "created_at_ms"];
  CreateTable false "attempt_conditions"
    ["attempt_id"; "condition_type"; "status"; "reason_code"; "evidence_digest"; "observed_at_ms"];
  CreateIndex false "idx_jobs_created" "jobs" ["created_at_ms"; "job_id"];
  CreateIndex false "idx_attempts_nonterminal" "attempts" ["state"; "created_at_ms"];
  CreateIndex false "idx_events_job_sequence" "job_events" ["job_id"; "event_sequence"];
  CreateIndex false "idx_reservations_active" "concurrency_reservations" ["state"];
  CreateTrigger "job_events_no_update" "job_events" AppendOnly;
  CreateTrigger "job_events_no_delete" "job_events" AppendOnly;
  CreateTrigger "attempts_terminal_no_reopen" "attempts" (FinalState []);
  CreateTrigger "jobs_resolution_immutable" "jobs" (FinalResolution [])]%string.

(** The results that a Runner can report. *)
Definition reported_states : list AttemptState.t :=
  [AttemptState.Succeeded; AttemptState.Failed; AttemptState.TimedOut; AttemptState.Cancelled].
Definition reported_resolutions : list JobResolution.t :=
  [JobResolution.Succeeded; JobResolution.Failed; JobResolution.TimedOut; JobResolution.Cancelled].

(** The triggers on final states are replaced. *)
Definition replace_triggers (states : list (list AttemptState.t * list AttemptState.t))
    (resolutions : list (list JobResolution.t * list JobResolution.t)) : list statement := [
  DropTrigger "attempts_terminal_no_reopen";
  CreateTrigger "attempts_terminal_no_reopen" "attempts" (FinalState states);
  DropTrigger "jobs_resolution_immutable";
  CreateTrigger "jobs_resolution_immutable" "jobs" (FinalResolution resolutions)]%string.

(** [0002_orphan_recovery.sql] *)
Definition MIGRATION_V2_SQL : list statement :=
  replace_triggers [([AttemptState.Orphaned], reported_states)]
    [([JobResolution.Orphaned], reported_resolutions)].

(** [0003_terminal_repair.sql] *)
Definition MIGRATION_V3_SQL : list statement :=
  replace_triggers [([AttemptState.Lost; AttemptState.Orphaned], reported_states)]
    [([JobResolution.Lost; JobResolution.Orphaned], reported_resolutions)].

(** [0004_orphan_reclaim.sql] *)
Definition MIGRATION_V4_SQL : list statement :=
  replace_triggers
    [([AttemptState.Lost; AttemptState.Orphaned], reported_states);
     ([AttemptState.Orphaned], [AttemptState.Lost])]
    [([JobResolution.Lost; JobResolution.Orphaned], reported_resolutions);
     ([JobResolution.Orphaned], [JobResolution.Lost])].

(** [0005_condition_retirement.sql] *)
Definition MIGRATION_V5_SQL : list statement := [
  AddColumn "attempts" "recovery_required";
  AddColumn "attempts" "recovery_reason_code";
  AddColumn "attempts" "recovery_evidence_digest";
  AddColumn "attempts" "recovery_observed_at_ms";
  CopyRecoveryConditions;
  CreateTrigger "attempts_recovery_fields_consistent_insert" "attempts" RecoveryFieldsConsistent;
  CreateTrigger "attempts_recovery_fields_consistent_update" "attempts" RecoveryFieldsConsistent;
  AddColumn "concurrency_reservations" "state_observed_at_ms";
  CopyReservationObservations;
  CreateTrigger "reservations_state_observed_present_insert" "concurrency_reservations" StateObservedPresent;
  CreateTrigger "reservations_state_observed_present_update" "concurrency_reservations" StateObservedPresent;
  DropTable false "attempt_conditions"]%string.

(** [0006_workspace_patch_retirement.sql] *)
Definition MIGRATION_V6_SQL : list statement := [DropTable true "workspace_patch_operations"]%string.

Record Migration : Type := {
  mig_version : Z;
  mig_name : string;
  mig_sql : list statement;
  mig_checksum : string;
  (** as the messages call it *)
  mig_label : string;
}.

Definition MIGRATION_V1 : Migration := {|
  mig_version := 1; mig_name := "0001_runtime"; mig_sql := MIGRATION_V1_SQL;
  mig_checksum := "sha256:9c5e0ccf94b0c3efa9b671a9300cfe00e4539d0c880e6a8df8982df9fa8826ac";
  mig_label := "initial migration" |}.
Definition MIGRATION_V2 : Migration := {|
  mig_version := 2; mig_name := "0002_orphan_recovery"; mig_sql := MIGRATION_V2_SQL;
  mig_checksum := "sha256:08361881c9f589254e5e9fad089fcbf756bd8613352e995437fb7a616e9ce500";
  mig_label := "orphan-recovery migration" |}.
Definition MIGRATION_V3 : Migration := {|
  mig_version := 3; mig_name := "0003_terminal_repair"; mig_sql := MIGRATION_V3_SQL;
  mig_checksum := "sha256:464c9b769dacd10f7302d7a371f5b36a7553eda0b0b112bae35b901d00a67f0d";
  mig_label := "terminal-repair migration" |}.
Definition MIGRATION_V4 : Migration := {|
  mig_version := 4; mig_name := "0004_orphan_reclaim"; mig_sql := MIGRATION_V4_SQL;
  mig_checksum := "sha256:b76afbfaf70645b60456b08ad257e5ac2be1f63499f24a555cbf0157791e19ad";
  mig_label := "orphan-reclaim migration" |}.
Definition CONDITION_RETIREMENT_MIGRATION : Migration := {|
  mig_version := 5; mig_name := "0005_condition_retirement"; mig_sql := MIGRATION_V5_SQL;
  mig_checksum := "sha256:ae8e45dde797715492d383a01a1802c9a4d5a4c2f77042fe40379052eb06d097";
  mig_label := "condition-retirement migration" |}.
Definition WORKSPACE_PATCH_RETIREMENT_MIGRATION : Migration := {|
  mig_version := 6; mig_name := "0006_workspace_patch_retirement"; mig_sql := MIGRATION_V6_SQL;
  mig_checksum := "sha256:90288d85d61bbd67646fd7c86f17280c0e0145aa8aa4c018025f2259c804b890";
  mig_label := "workspace-patch-retirement migration" |}.

Definition MAX_MIGRATION_VERSION : Z := 6.

(** The migrations after the first. *)
Definition later_migrations : list Migration :=
  [MIGRATION_V2; MIGRATION_V3; MIGRATION_V4; CONDITION_RETIREMENT_MIGRATION;
   WORKSPACE_PATCH_RETIREMENT_MIGRATION].

Definition EXECUTION_PROVIDER_STORAGE_SQL : list statement :=
  [CreateTable true "job_execution_providers" ["job_id"; "snapshot_json"; "snapshot_digest"]]%string.
Definition ATTEMPT_SUPERVISOR_OWNER_STORAGE_SQL : list statement :=
  [CreateTable true "attempt_supervisor_owners" ["attempt_id"; "owner_json"; "owner_digest"]]%string.
Definition HOST_DEPENDENCY_STORAGE_SQL : list statement :=
  [CreateTable true "job_host_dependencies" ["job_id"; "bindings_json"; "bindings_digest"]]%string.
Definition RUNTIME_RELEASE_STORAGE_SQL : list statement :=
  [CreateTable true "job_runtime_release_effects"
     ["job_id"; "effect_id"; "contract"; "request_digest"; "workspace_id"; "commit_revision";
      "candidate_manifest_digest"; "expected_tool_count"; "receipt_path"; "binding_digest"];
   CreateIndex true "idx_runtime_release_effect_request" "job_runtime_release_effects"
     ["request_digest"; "job_id"]]%string.

Definition REDUNDANT_EVENT_SEQUENCE_INDEX : string := "idx_events_job_sequence".

(** The indexes of [ensure_query_indexes] with what their errors call them. *)
Definition lookup_indexes : list (string * statement * string) := [
  ("idx_jobs_client_request_id_created",
   CreateIndex true "idx_jobs_client_request_id_created" "jobs"
     ["client_request_id"; "created_at_ms"; "job_id"],
   "Job client request lookup index");
  ("idx_jobs_workspace_created",
   CreateIndex true "idx_jobs_workspace_created" "jobs" ["workspace_id"; "created_at_ms"; "job_id"],
   "Job Workspace lookup index");
  ("idx_artifacts_job", CreateIndex true "idx_artifacts_job" "artifacts" ["job_id"],
   "Artifact Job lookup index")]%string.

(** [EXISTS(SELECT 1 FROM sqlite_master WHERE type='table' AND name=..)] *)
Definition has_table (name : string) (c : Catalogue) : bool := is_table (cat_relations c !! name).
Definition has_index (name : string) (c : Catalogue) : bool := is_index (cat_relations c !! name).

(** ** Running them

    What SQLite does is an input: any statement may fail, named by the part of
    the code and the context of its error; so may BEGIN, COMMIT and the clock. *)
Record SchemaIo : Type := {
  sio_statement : string -> string -> option SqlError;
  sio_begin : string -> option SqlError;
  sio_commit : string -> CommitOutcome;
  sio_now : string -> RuntimeResult Z;
  sio_journal_mode : string;
}.

(** The database stays as it is when a step fails. *)
Definition db (A : Type) : Type := Schema -> RuntimeResult A * Schema.
#[export] Instance db_mret : MRet db := fun A a d => (Ok a, d).
#[export] Instance db_mbind : MBind db := fun A B f m d =>
  match m d with (Ok a, d') => f a d' | (Err e, d') => (Err e, d') end.

Section opening.
Context (io : SchemaIo).

(** One statement outside of a transaction, or a query. *)
Definition run_statement (part context : string) (f : Schema -> result SqlError Schema) (d : Schema)
    : RuntimeResult Schema :=
  match sio_statement io part context with
  | Some e => Err (from_sql e context)
  | None => map_err (fun e => from_sql e context) (f d)
  end.

Definition select {A} (part context : string) (f : Schema -> result SqlError A) : db A := fun d =>
  (match sio_statement io part context with
   | Some e => Err (from_sql e context)
   | None => map_err (fun e => from_sql e context) (f d)
   end, d).

Definition of_pure {A} (r : RuntimeResult A) : db A := fun d => (r, d).

(** [immediate(..)?], the statements, and [commit().map_err(..)?] *)
Definition in_transaction (part : string) (body : Schema -> RuntimeResult Schema) : db unit := fun d =>
  match sio_begin io part with
  | Some e => (Err (safe_same_request_sql_error e ("cannot begin " +:+ part)), d)
  | None =>
      match body d with
      | Err e => (Err e, d)
      | Ok d' =>
          match sio_commit io part with
          | CommitDone => (Ok tt, d')
          | CommitErrorApplied e => (Err (from_sql e ("cannot commit " +:+ part)), d')
          | CommitErrorRolledBack e | CommitErrorOpen e =>
              (Err (from_sql e ("cannot commit " +:+ part)), d)
          end
      end
  end.

(** [INSERT INTO schema_migrations], under its keys and its [CHECK] *)
Definition record_migration (m : Migration) (now : Z) (d : Schema) : result SqlError Schema :=
  if has_table "schema_migrations" (sch_catalogue d) then
    if there (sch_ledger d !! mig_version m)
       || existsb (fun '(_, row) => String.eqb (led_name row) (mig_name m)) (map_to_list (sch_ledger d))
       || (now <? 0)
    then Err (SqliteFailure ConstraintViolation "constraint failed")
    else Ok {| sch_catalogue := sch_catalogue d;
               sch_ledger := <[mig_version m :=
                 {| led_name := mig_name m; led_checksum := mig_checksum m; led_applied_at_ms := now |}]>
                 (sch_ledger d);
               sch_rows := sch_rows d |}
  else sql_failure "no such table: schema_migrations".

(** The body of one migration and its transaction. *)
Definition migration_body (m : Migration) (d : Schema) : RuntimeResult Schema :=
  d ← run_statement (mig_label m) ("cannot apply " +:+ mig_label m) (execute_batch (mig_sql m)) d;
  now ← sio_now io (mig_label m);
  run_statement (mig_label m) ("cannot record " +:+ mig_label m) (record_migration m now) d.

Definition run_migration (m : Migration) : db unit := in_transaction (mig_label m) (migration_body m).

(** A query of [schema_migrations] *)
Definition ledger (d : Schema) : result SqlError (gmap Z LedgerRow) :=
  if has_table "schema_migrations" (sch_catalogue d) then Ok (sch_ledger d)
  else sql_failure "no such table: schema_migrations".

Definition validate_migration_checksum (m : Migration) : db unit :=
  rows ← select (mig_label m) "cannot read migration checksum" ledger;
  of_pure (
    row ← ok_or (error_new RegistryCorrupt ("required " +:+ mig_label m +:+ " is missing") None false)
            (rows !! mig_version m);
    fail_if (negb (String.eqb (led_checksum row) (mig_checksum m)))
      (error_new MigrationChecksumMismatch
         (mig_label m +:+ " checksum does not match the compiled migration") None false)).

(** [SELECT MAX(version)] *)
Definition max_version (rows : gmap Z LedgerRow) : option Z :=
  foldr (fun v acc => Some (match acc with Some w => Z.max v w | None => v end)) None
    (map_to_list rows).*1.

(** [if max_version < .. { .. }] and the check of one migration. *)
Definition catch_up (highest : Z) (m : Migration) : db unit :=
  (if highest <? mig_version m then run_migration m else mret tt) ;;
  validate_migration_checksum m.

Fixpoint catch_up_all (highest : Z) (ms : list Migration) : db unit :=
  match ms with
  | [] => mret tt
  | m :: rest => catch_up highest m ;; catch_up_all highest rest
  end.

Definition apply_migrations : db unit :=
  found ← select "schema" "cannot inspect schema migrations"
    (fun d => Ok (has_table "schema_migrations" (sch_catalogue d)));
  (if found : bool then mret tt else run_migration MIGRATION_V1) ;;
  highest ← select "schema" "cannot read migration version" (fun d => max_version <$> ledger d);
  highest ← of_pure (ok_or (error_new RegistryCorrupt "schema_migrations is empty" None false) highest);
  of_pure (fail_if (MAX_MIGRATION_VERSION <? highest)
    (error_new SchemaVersionUnsupported
       ("registry schema " +:+ pretty highest +:+ " is newer than supported "
        +:+ pretty MAX_MIGRATION_VERSION) None false)) ;;
  validate_migration_checksum MIGRATION_V1 ;;
  catch_up_all highest later_migrations.

(** [SELECT EXISTS(SELECT 1 FROM sqlite_master ..)], and the error if it is not
    what it has to be. *)
Definition verify (part context : string) (test : Catalogue -> bool) (message : string) : db unit :=
  found ← select part context (fun d => Ok (test (sch_catalogue d)));
  of_pure (fail_if (negb found) (error_new RegistryCorrupt message None false)).

(** [ensure_query_indexes] *)
Definition index_body (d : Schema) : RuntimeResult Schema :=
  d ← run_statement "Runtime query index maintenance" "cannot drop redundant Job event lookup index"
        (execute_batch [DropIndex true REDUNDANT_EVENT_SEQUENCE_INDEX]) d;
  foldl (fun acc '(_, sql, what) =>
           d ← acc;
           run_statement "Runtime query index maintenance" ("cannot ensure " +:+ what) (execute_batch [sql]) d)
    (Ok d) lookup_indexes.

Fixpoint verify_indexes (indexes : list (string * statement * string)) : db unit :=
  match indexes with
  | [] => mret tt
  | (name, _, what) :: rest =>
      verify "Runtime query index maintenance" ("cannot verify " +:+ what)
        (has_index name) (what +:+ " is missing after maintenance") ;;
      verify_indexes rest
  end.

Definition ensure_query_indexes : db unit :=
  in_transaction "Runtime query index maintenance" index_body ;;
  verify "Runtime query index maintenance" "cannot verify redundant Job event lookup index removal"
    (fun c => negb (has_index REDUNDANT_EVENT_SEQUENCE_INDEX c))
    "redundant Job event lookup index remains after maintenance" ;;
  verify_indexes lookup_indexes.

(** The transaction of [ensure_execution_provider_storage] and its siblings. *)
Definition ensure_storage (what : string) (script : list statement) : db unit :=
  in_transaction (what +:+ " storage maintenance")
    (run_statement (what +:+ " storage maintenance") ("cannot ensure " +:+ what +:+ " storage")
       (execute_batch script)).

Definition verify_storage (what : string) (test : Catalogue -> bool) (missing : string) : db unit :=
  verify (what +:+ " storage maintenance") ("cannot verify " +:+ what +:+ " storage") test
    (missing +:+ " is missing after maintenance").

Definition ensure_execution_provider_storage : db unit :=
  ensure_storage "Execution Provider" EXECUTION_PROVIDER_STORAGE_SQL ;;
  verify_storage "Execution Provider" (has_table "job_execution_providers") "Execution Provider storage".

Definition ensure_attempt_supervisor_owner_storage : db unit :=
  ensure_storage "Attempt Supervisor Owner" ATTEMPT_SUPERVISOR_OWNER_STORAGE_SQL ;;
  verify_storage "Attempt Supervisor Owner" (has_table "attempt_supervisor_owners")
    "Attempt Supervisor Owner storage".

Definition ensure_host_dependency_storage : db unit :=
  ensure_storage "Host Dependency" HOST_DEPENDENCY_STORAGE_SQL ;;
  verify_storage "Host Dependency" (has_table "job_host_dependencies") "Host Dependency storage".

Definition ensure_runtime_release_storage : db unit :=
  ensure_storage "Runtime Release" RUNTIME_RELEASE_STORAGE_SQL ;;
  verify_storage "Runtime Release" (has_table "job_runtime_release_effects")
    "Runtime Release table job_runtime_release_effects" ;;
  verify_storage "Runtime Release"
    (has_index "idx_runtime_release_effect_request")
    "Runtime Release index idx_runtime_release_effect_request".

(** [open_connection]: the calls in order, each of which may fail. *)
Definition open_connection : db unit := fun d =>
  (for_each (fun context =>
     match sio_statement io "connection" context with
     | Some e => Err (safe_same_request_sql_error e context)
     | None => Ok tt
     end)
     ["cannot open runtime registry"; "cannot set registry busy timeout"; "cannot enable foreign keys";
      "cannot disable trusted schema"; "cannot set synchronous mode"]%string, d).

Definition ensure_wal_mode : db unit :=
  mode ← select "connection" "cannot enable WAL mode" (fun _ => Ok (sio_journal_mode io));
  of_pure (fail_if (negb (eq_ignore_ascii_case mode "wal"))
    (error_new RegistryUnavailable ("SQLite refused WAL mode and returned " +:+ mode) None false)).

(** The part of [Registry::initialize] that works on the database. *)
Definition open_database : db unit :=
  open_connection ;;
  ensure_wal_mode ;;
  apply_migrations ;;
  ensure_query_indexes ;;
  ensure_execution_provider_storage ;;
  ensure_attempt_supervisor_owner_storage ;;
  ensure_host_dependency_storage ;;
  ensure_runtime_release_storage.
End opening.
