(* ===== verification/MigrationStates.v ===== *)
(** * The states of the database while it is opened

    The catalogue and the ledger after some of the migrations and maintenance
    steps, and what each script makes of them. *)

From S2P Require Import Prelude Text Errors Types Supervisor Platform Validation Submit Store.
From S2P Require Import Transaction Migrations.

#[local] Open Scope Z_scope.

(** ** The states that opening passes through *)

(** What a database may hold beside the migrations: the table that migration 6
    drops, and what the maintenance steps add. *)
Record Extras : Type := {
  ex_patch : bool;
  ex_indexes : bool;
  ex_provider : bool;
  ex_owner : bool;
  ex_host : bool;
  ex_release : bool;
}.

Definition no_extras : Extras := {|
  ex_patch := false; ex_indexes := false; ex_provider := false; ex_owner := false; ex_host := false;
  ex_release := false |}.

Definition all_extras : Extras := {|
  ex_patch := false; ex_indexes := true; ex_provider := true; ex_owner := true; ex_host := true;
  ex_release := true |}.

Definition without_patch (e : Extras) : Extras := {|
  ex_patch := false; ex_indexes := ex_indexes e; ex_provider := ex_provider e; ex_owner := ex_owner e;
  ex_host := ex_host e; ex_release := ex_release e |}.

Definition all_migrations : list Migration := MIGRATION_V1 :: later_migrations.

Definition index_script : list statement :=
  DropIndex true REDUNDANT_EVENT_SEQUENCE_INDEX :: map (fun '(_, sql, _) => sql) lookup_indexes.

Definition extras_script (e : Extras) : list statement :=
  (if ex_patch e then [CreateTable false "workspace_patch_operations" []] else [])
  ++ (if ex_indexes e then index_script else [])
  ++ (if ex_provider e then EXECUTION_PROVIDER_STORAGE_SQL else [])
  ++ (if ex_owner e then ATTEMPT_SUPERVISOR_OWNER_STORAGE_SQL else [])
  ++ (if ex_host e then HOST_DEPENDENCY_STORAGE_SQL else [])
  ++ (if ex_release e then RUNTIME_RELEASE_STORAGE_SQL else []).

Definition no_catalogue : Catalogue := {| cat_relations := ∅; cat_triggers := ∅ |}.

(** The catalogue after [k] migrations, with these extras. *)
Definition catalogue_at (k : nat) (e : Extras) : Catalogue :=
  match define_all (concat (map mig_sql (take k all_migrations))
                    ++ match k with O => [] | _ => extras_script e end) no_catalogue with
  | Ok c => c
  | Err _ => no_catalogue
  end.

(** The ledger with these times. *)
Definition ledger_row (m : Migration) (time : Z) : LedgerRow :=
  {| led_name := mig_name m; led_checksum := mig_checksum m; led_applied_at_ms := time |}.
Definition ledger_at (times : list Z) : gmap Z LedgerRow :=
  foldl (fun rows '(m, time) => <[mig_version m := ledger_row m time]> rows) ∅ (zip all_migrations times).

(** The rows of [d0] once [k] migrations have run, of which [k0] before. *)
Definition rows_at (d0 : Schema) (k0 k : nat) : Rows :=
  if (k0 <? 5)%nat && (5 <=? k)%nat then rewrite_all MIGRATION_V5_SQL (sch_rows d0) else sch_rows d0.

(** [d] has [k] migrations and came from [d0], which had [k0]. *)
Record reached (d0 : Schema) (k0 k : nat) (e : Extras) (d : Schema) : Prop := {
  rea_range : (k0 <= k <= 6)%nat;
  rea_extras : k = 6%nat -> ex_patch e = false;
  rea_catalogue : sch_catalogue d = catalogue_at k e;
  rea_ledger : exists times, length times = k /\ Forall (fun time => 0 <= time) times
                             /\ sch_ledger d = ledger_at times;
  rea_kept : sch_ledger d0 ⊆ sch_ledger d;
  rea_rows : sch_rows d = rows_at d0 k0 k;
}.

(** A database of this Runtime or of an earlier one. *)
Definition supported (k : nat) (d : Schema) : Prop := exists e, reached d k k e d.

(** ** The scripts on those states *)

Definition next (k : nat) (e : Extras) : Extras :=
  match k with O => no_extras | 5%nat => without_patch e | _ => e end.

(** Every state, so that what holds of them is computed. *)
Definition booleans : list bool := [false; true].
Definition all_extras_list : list Extras :=
  patch ← booleans; indexes ← booleans; provider ← booleans; owner ← booleans; host ← booleans;
  release ← booleans;
  [{| ex_patch := patch; ex_indexes := indexes; ex_provider := provider; ex_owner := owner;
      ex_host := host; ex_release := release |}].
Definition all_states (test : nat -> Extras -> bool) : bool :=
  forallb (fun k => forallb (test k) all_extras_list) (seq 0 7).

Lemma by_states (test : nat -> Extras -> bool) :
  all_states test = true -> forall k e, (k <= 6)%nat -> test k e = true.
Proof.
  intros Hall k e Hk. unfold all_states in Hall. rewrite forallb_forall in Hall.
  specialize (Hall k). rewrite forallb_forall in Hall. apply Hall.
  - apply in_seq. lia.
  - apply list_elem_of_In. destruct e as [[] [] [] [] [] []]; vm_compute; repeat constructor;
      repeat (first [apply list_elem_of_here | apply list_elem_of_further]).
Qed.

Definition leads_to (script : list statement) (c c' : Catalogue) : bool :=
  match define_all script c with Ok found => bool_decide (found = c') | Err _ => false end.

Lemma leads_to_true script c c' : leads_to script c c' = true -> define_all script c = Ok c'.
Proof.
  unfold leads_to. destruct (define_all script c) as [found | ]; [ | done].
  by intros ->%bool_decide_eq_true.
Qed.

Lemma catalogue_next k e m :
  nth_error all_migrations k = Some m ->
  define_all (mig_sql m) (catalogue_at k e) = Ok (catalogue_at (S k) (next k e)).
Proof.
  intros Hm. assert (H : (k < 6)%nat) by (apply (nth_error_Some all_migrations k); by rewrite Hm).
  apply Nat.lt_le_incl in H.
  pose proof (by_states (fun k e =>
    match nth_error all_migrations k with
    | Some m => leads_to (mig_sql m) (catalogue_at k e) (catalogue_at (S k) (next k e))
    | None => true
    end) ltac:(vm_compute; reflexivity) k e H) as Htest.
  cbn beta in Htest. rewrite Hm in Htest. by apply leads_to_true.
Qed.

(** The maintenance scripts, once there are tables. *)
Definition with_indexes (e : Extras) : Extras := {|
  ex_patch := ex_patch e; ex_indexes := true; ex_provider := ex_provider e; ex_owner := ex_owner e;
  ex_host := ex_host e; ex_release := ex_release e |}.
Definition with_provider (e : Extras) : Extras := {|
  ex_patch := ex_patch e; ex_indexes := ex_indexes e; ex_provider := true; ex_owner := ex_owner e;
  ex_host := ex_host e; ex_release := ex_release e |}.
Definition with_owner (e : Extras) : Extras := {|
  ex_patch := ex_patch e; ex_indexes := ex_indexes e; ex_provider := ex_provider e; ex_owner := true;
  ex_host := ex_host e; ex_release := ex_release e |}.
Definition with_host (e : Extras) : Extras := {|
  ex_patch := ex_patch e; ex_indexes := ex_indexes e; ex_provider := ex_provider e; ex_owner := ex_owner e;
  ex_host := true; ex_release := ex_release e |}.
Definition with_release (e : Extras) : Extras := {|
  ex_patch := ex_patch e; ex_indexes := ex_indexes e; ex_provider := ex_provider e; ex_owner := ex_owner e;
  ex_host := ex_host e; ex_release := true |}.

(** The scripts of the maintenance steps with what they add. *)
Definition maintenance : list (list statement * (Extras -> Extras)) :=
  [(index_script, with_indexes); (EXECUTION_PROVIDER_STORAGE_SQL, with_provider);
   (ATTEMPT_SUPERVISOR_OWNER_STORAGE_SQL, with_owner); (HOST_DEPENDENCY_STORAGE_SQL, with_host);
   (RUNTIME_RELEASE_STORAGE_SQL, with_release)].

Lemma catalogue_maintained k e script add :
  In (script, add) maintenance -> (1 <= k <= 6)%nat ->
  define_all script (catalogue_at k e) = Ok (catalogue_at k (add e)).
Proof.
  intros Hin Hk.
  pose proof (by_states (fun k e =>
    match k with
    | O => true
    | _ => forallb (fun '(script, add) => leads_to script (catalogue_at k e) (catalogue_at k (add e))) maintenance
    end) ltac:(vm_compute; reflexivity) k e ltac:(lia)) as Htest.
  cbn beta in Htest. destruct k as [ | k]; [lia | ]. rewrite forallb_forall in Htest.
  by apply leads_to_true, (Htest (script, add)).
Qed.

Lemma catalogue_ledger k e : (k <= 6)%nat ->
  has_table "schema_migrations" (catalogue_at k e) = (1 <=? k)%nat.
Proof.
  intros Hk.
  pose proof (by_states (fun k e =>
    Bool.eqb (has_table "schema_migrations" (catalogue_at k e)) (1 <=? k)%nat)
    ltac:(vm_compute; reflexivity) k e Hk) as Htest.
  cbn beta in Htest. by apply Bool.eqb_prop in Htest.
Qed.

(** What the maintenance steps verify. *)
Definition verified_tests (e : Extras) (c : Catalogue) : bool :=
  implb (ex_indexes e)
    (negb (has_index REDUNDANT_EVENT_SEQUENCE_INDEX c)
     && forallb (fun '(name, _, _) => has_index name c) lookup_indexes)
  && implb (ex_provider e) (has_table "job_execution_providers" c)
  && implb (ex_owner e) (has_table "attempt_supervisor_owners" c)
  && implb (ex_host e) (has_table "job_host_dependencies" c)
  && implb (ex_release e)
       (has_table "job_runtime_release_effects" c
        && has_index "idx_runtime_release_effect_request" c).

Lemma catalogue_verified k e : (1 <= k <= 6)%nat -> verified_tests e (catalogue_at k e) = true.
Proof.
  intros Hk.
  pose proof (by_states (fun k e => match k with O => true | _ => verified_tests e (catalogue_at k e) end)
    ltac:(vm_compute; reflexivity) k e ltac:(lia)) as Htest.
  cbn beta in Htest. destruct k; [lia | assumption].
Qed.

(** ** The ledger *)

Ltac few_times times Hk :=
  destruct times as [ | t1 [ | t2 [ | t3 [ | t4 [ | t5 [ | t6 [ | t7 times]]]]]]]; simpl in Hk; try lia.

Lemma ledger_max times k : length times = k -> (1 <= k <= 6)%nat ->
  max_version (ledger_at times) = Some (Z.of_nat k).
Proof. intros <- Hk. few_times times Hk; vm_compute; reflexivity. Qed.

Lemma ledger_lookup times k i m :
  length times = k -> (k <= 6)%nat -> nth_error all_migrations i = Some m ->
  ledger_at times !! mig_version m
  = (if (i <? k)%nat then ledger_row m <$> nth_error times i else None).
Proof.
  intros <- Hk Hm.
  do 6 (destruct i as [ | i]; [injection Hm as <-; few_times times Hk; vm_compute; reflexivity | ]).
  by destruct i.
Qed.

Lemma ledger_extend times k m now :
  length times = k -> nth_error all_migrations k = Some m ->
  ledger_at (times ++ [now]) = <[mig_version m := ledger_row m now]> (ledger_at times)
  /\ existsb (fun '(_, row) => String.eqb (led_name row) (mig_name m)) (map_to_list (ledger_at times)) = false.
Proof.
  intros <- Hm. do 6 (destruct times as [ | ? times]; [injection Hm as <-; split; vm_compute; reflexivity | ]).
  by destruct times.
Qed.
