(* ===== verification/MigrationsSpec.v ===== *)
(** * What opening the database leads to

    From any supported earlier state, whatever fails on the way, opening the
    Registry again ends in the current schema, with its ledger and its rows. *)

From S2P Require Import Prelude Text Errors Types Supervisor Platform Validation Submit Store.
From S2P Require Import Transaction Migrations MigrationStates.

#[local] Open Scope Z_scope.

(** ** Every step keeps the state among those *)

(** Nothing fails on the outside. *)
Record fine (io : SchemaIo) : Prop := {
  fine_statement : forall part context, sio_statement io part context = None;
  fine_begin : forall part, sio_begin io part = None;
  fine_commit : forall part, sio_commit io part = CommitDone;
  fine_now : forall part, exists now, sio_now io part = Ok now /\ 0 <= now;
  fine_journal : eq_ignore_ascii_case (sio_journal_mode io) "wal" = true;
}.

Section steps.
Context (io : SchemaIo) (d0 : Schema) (k0 : nat).

Definition somewhere (d : Schema) : Prop := exists k e, reached d0 k0 k e d.

(** From [P], [m] ends in [Q], or fails for an outside reason in a state that
    can be opened again. *)
Definition safely {A} (P : Schema -> Prop) (m : db A) (Q : A -> Schema -> Prop) : Prop :=
  forall d, P d ->
  match m d with
  | (Ok a, d') => Q a d'
  | (Err _, d') => somewhere d' /\ ~ fine io
  end.

Lemma safely_bind {A B} P (m : db A) Q (f : A -> db B) R :
  safely P m Q -> (forall a, safely (Q a) (f a) R) -> safely P (m ≫= f) R.
Proof.
  intros Hm Hf d Hd. unfold mbind, db_mbind. specialize (Hm d Hd). destruct (m d) as [[a | e] d']; [ | done].
  by apply Hf.
Qed.

Lemma safely_weaken {A} (P P' : Schema -> Prop) (m : db A) (Q : A -> Schema -> Prop) :
  (forall d, P d -> P' d) -> safely P' m Q -> safely P m Q.
Proof. intros HP Hm d Hd. by apply Hm, HP. Qed.

Lemma safely_ret {A} (P : Schema -> Prop) (a : A) Q : (forall d, P d -> Q a d) -> safely P (mret a) Q.
Proof. intros H d Hd. by apply H. Qed.

(** A query. *)
Lemma safely_select {A} (P : Schema -> Prop) part context (f : Schema -> result SqlError A) (Q : A -> Schema -> Prop) :
  (forall d, P d -> somewhere d) -> (forall d, P d -> exists a, f d = Ok a /\ Q a d) ->
  safely P (select io part context f) Q.
Proof.
  intros Hsome Hf d Hd. unfold select. destruct (sio_statement io part context) eqn:He.
  - split; [by apply Hsome | ]. intros []. congruence.
  - destruct (Hf d Hd) as (a & -> & HQ). exact HQ.
Qed.

Lemma safely_pure {A} (P : Schema -> Prop) (r : RuntimeResult A) (Q : A -> Schema -> Prop) a :
  r = Ok a -> (forall d, P d -> Q a d) -> safely P (of_pure r) Q.
Proof. intros -> HQ d Hd. by apply HQ. Qed.

(** A result is as wanted, or an error from outside. *)
Definition outside {A} (r : RuntimeResult A) (Q : A -> Prop) : Prop :=
  match r with Ok a => Q a | Err _ => ~ fine io end.

Lemma outside_bind {A B} (r : RuntimeResult A) (f : A -> RuntimeResult B) Q R :
  outside r Q -> (forall a, Q a -> outside (f a) R) -> outside (r ≫= f) R.
Proof. intros Hr Hf. destruct r as [a | e]; [by apply Hf | exact Hr]. Qed.

Lemma outside_statement part context f d (Q : Schema -> Prop) :
  outside (map_err (fun e => from_sql e context) (f d)) Q -> outside (run_statement io part context f d) Q.
Proof.
  intros Hf. unfold run_statement. destruct (sio_statement io part context) eqn:He; [ | exact Hf].
  intros []. congruence.
Qed.

Lemma outside_now part : outside (sio_now io part) (fun now => fine io -> 0 <= now).
Proof.
  destruct (sio_now io part) as [now | e] eqn:Hnow; intros []; destruct (fine_now0 part) as (? & Heq & ?);
    rewrite Hnow in Heq; by simplify_eq.
Qed.

Definition leads (body : Schema -> RuntimeResult Schema) (P Q : Schema -> Prop) : Prop :=
  forall d, P d -> outside (body d) Q.

Lemma safely_transaction part body (P Q : Schema -> Prop) :
  (forall d, P d -> somewhere d) -> (forall d, Q d -> somewhere d) -> leads body P Q ->
  safely P (in_transaction io part body) (fun _ => Q).
Proof.
  intros HP HQ Hbody d Hd. unfold in_transaction. destruct (sio_begin io part) eqn:Hb.
  { split; [by apply HP | ]. intros []. congruence. }
  specialize (Hbody d Hd). unfold outside in Hbody. destruct (body d) as [d' | e]; [ | by split; [apply HP | ]].
  destruct (sio_commit io part) eqn:Hc; [done | | | ];
    (split; [first [by apply HQ | by apply HP] | intros [? ? Hcommit]; by rewrite Hcommit in Hc]).
Qed.

(** ** The steps of opening *)

Definition at_version (k : nat) (d : Schema) : Prop := exists e, reached d0 k0 k e d.

Lemma at_version_somewhere k d : at_version k d -> somewhere d.
Proof. intros [e H]. by exists k, e. Qed.

Lemma reached_batch k e d script e' :
  reached d0 k0 k e d -> (k = 6%nat -> ex_patch e' = false) ->
  define_all script (catalogue_at k e) = Ok (catalogue_at k e') ->
  rewrite_all script (sch_rows d) = sch_rows d ->
  exists d', execute_batch script d = Ok d' /\ reached d0 k0 k e' d'.
Proof.
  intros [Hrange Hextras Hc Hl Hk Hr] He' Hscript Hrows. unfold execute_batch. rewrite Hc, Hscript.
  eexists. split; [reflexivity | ]. split; simpl; try done. by rewrite Hrows.
Qed.

(** One migration. *)
Lemma rows_next k m e d :
  nth_error all_migrations k = Some m -> reached d0 k0 k e d ->
  rewrite_all (mig_sql m) (sch_rows d) = rows_at d0 k0 (S k).
Proof.
  intros Hm [Hrange _ _ _ _ ->]. unfold rows_at.
  destruct (sch_rows d0) as [conditions attempts reservations].
  do 6 (destruct k as [ | k]; [injection Hm as <-; destruct (k0 <? 5)%nat eqn:Hlow;
    [reflexivity | first [reflexivity | apply Nat.ltb_ge in Hlow; lia]] | ]).
  by destruct k.
Qed.

Lemma migration_leads k m :
  nth_error all_migrations k = Some m ->
  leads (migration_body io m) (at_version k) (at_version (S k)).
Proof.
  intros Hm d [e He]. assert (Hk : (k < 6)%nat) by (apply (nth_error_Some all_migrations k); by rewrite Hm).
  unfold migration_body. set (d1 := {|
    sch_catalogue := catalogue_at (S k) (next k e); sch_ledger := sch_ledger d; sch_rows := rows_at d0 k0 (S k) |}).
  assert (Hbatch : execute_batch (mig_sql m) d = Ok d1).
  { unfold execute_batch. rewrite (rea_catalogue _ _ _ _ _ He), (catalogue_next k e m Hm).
    by rewrite (rows_next k m e d Hm He). }
  apply (outside_bind _ _ (eq d1)); [apply outside_statement; by rewrite Hbatch | ]. intros _ <-.
  eapply outside_bind; [apply outside_now | ]. intros now Hnow. apply outside_statement.
  destruct He as [Hrange Hextras Hc (times & Hlen & Htimes & Hl) Hkept Hr].
  destruct (ledger_extend times k m now Hlen Hm) as [Hext Hnames].
  pose proof (ledger_lookup times k k m Hlen ltac:(lia) Hm) as Hfree. rewrite Nat.ltb_irrefl in Hfree.
  unfold record_migration. cbn [sch_catalogue sch_ledger d1].
  rewrite (catalogue_ledger (S k) (next k e)) by lia. rewrite Hl, Hfree, Hnames. simpl.
  destruct (now <? 0) eqn:Hneg; simpl; [intros Hfine; specialize (Hnow Hfine); lia | ].
  exists (next k e). split; simpl; [lia | | done | | | done].
  - intros [= ->]. done.
  - exists (times ++ [now]). rewrite length_app, Hlen. simpl. split_and!; [lia | | done].
    apply Forall_app. split; [done | ]. constructor; [lia | done].
  - etrans; [exact Hkept | ]. rewrite Hl. by apply insert_subseteq.
Qed.

Lemma run_migration_safe k m :
  nth_error all_migrations k = Some m ->
  safely (at_version k) (run_migration io m) (fun _ => at_version (S k)).
Proof.
  intros Hm. apply safely_transaction; [apply at_version_somewhere.. | ]. by apply migration_leads.
Qed.

Lemma validate_safe k i m :
  nth_error all_migrations i = Some m -> (i < k)%nat ->
  safely (at_version k) (validate_migration_checksum io m) (fun _ => at_version k).
Proof.
  intros Hm Hi. unfold validate_migration_checksum.
  apply (safely_bind _ _ (fun rows d => at_version k d /\ rows = sch_ledger d)).
  - apply safely_select; [apply at_version_somewhere | ]. intros d Hd. exists (sch_ledger d).
    split; [ | done]. destruct Hd as [e He]. unfold ledger. rewrite (rea_catalogue _ _ _ _ _ He).
    destruct (rea_range _ _ _ _ _ He). rewrite catalogue_ledger by lia.
    by rewrite (proj2 (Nat.leb_le 1 k)) by lia.
  - intros rows d [[e He] ->]. destruct (rea_ledger _ _ _ _ _ He) as (times & Hlen & _ & Hl).
    destruct (rea_range _ _ _ _ _ He).
    unfold of_pure. rewrite Hl, (ledger_lookup times k i m Hlen ltac:(lia) Hm), (proj2 (Nat.ltb_lt i k) Hi).
    destruct (nth_error times i) eqn:Ht; [ | apply nth_error_None in Ht; lia].
    simpl. rewrite String.eqb_refl. simpl. by exists e.
Qed.
(** The migrations from the [i]th on, [highest] of which had run. *)
Lemma catch_up_safe highest i m :
  nth_error all_migrations i = Some m ->
  safely (at_version (Nat.max highest i)) (catch_up io (Z.of_nat highest) m)
    (fun _ => at_version (Nat.max highest (S i))).
Proof.
  intros Hm. assert (Hversion : mig_version m = Z.of_nat (S i)).
  { do 6 (destruct i as [ | i]; [by injection Hm as <- | ]). by destruct i. }
  unfold catch_up. rewrite Hversion.
  apply (safely_bind _ _ (fun _ => at_version (Nat.max highest (S i)))).
  - destruct (Z.ltb_spec (Z.of_nat highest) (Z.of_nat (S i))).
    + rewrite !Nat.max_r by lia. by apply run_migration_safe.
    + apply safely_ret. intros d. by rewrite !Nat.max_l by lia.
  - intros []. apply (validate_safe _ i); [done | lia].
Qed.

Lemma catch_up_all_safe highest ms : forall i,
  (forall j m, nth_error ms j = Some m -> nth_error all_migrations (i + j) = Some m) ->
  safely (at_version (Nat.max highest i)) (catch_up_all io (Z.of_nat highest) ms)
    (fun _ => at_version (Nat.max highest (i + length ms))).
Proof.
  induction ms as [ | m ms IH]; intros i Hms; simpl.
  - apply safely_ret. intros d. by rewrite Nat.add_0_r.
  - apply (safely_bind _ _ (fun _ => at_version (Nat.max highest (S i)))).
    + apply catch_up_safe. rewrite <- (Nat.add_0_r i). by apply Hms.
    + intros []. rewrite Nat.add_succ_r. apply (IH (S i)). intros j m' Hj.
      rewrite Nat.add_succ_l, <- Nat.add_succ_r. by apply Hms.
Qed.

Lemma apply_migrations_safe : safely somewhere (apply_migrations io) (fun _ => at_version 6).
Proof.
  unfold apply_migrations.
  apply (safely_bind _ _ (fun found d => exists k, at_version k d /\ found = (1 <=? k)%nat)).
  { apply safely_select; [done | ]. intros d (k & e & He). eexists. split; [reflexivity | ].
    exists k. split; [by exists e | ]. rewrite (rea_catalogue _ _ _ _ _ He).
    destruct (rea_range _ _ _ _ _ He). by rewrite catalogue_ledger. }
  intros found. apply (safely_bind _ _ (fun _ d => exists k, (1 <= k)%nat /\ at_version k d)).
  { destruct found.
    - apply safely_ret. intros d (k & Hk & Hfound). exists k. split; [ | done]. by apply Nat.leb_le.
    - apply (safely_weaken _ (at_version 0)).
      + intros d (k & Hk & Hfound). symmetry in Hfound. apply Nat.leb_gt in Hfound. by assert (k = 0%nat) as -> by lia.
      + intros d Hd. pose proof (run_migration_safe 0 MIGRATION_V1 eq_refl d Hd) as Hrun.
        destruct (run_migration io MIGRATION_V1 d) as [[] d']; [by exists 1%nat | done]. }
  intros [].
  apply (safely_bind _ _ (fun highest d => exists k, (1 <= k <= 6)%nat /\ at_version k d /\ highest = Some (Z.of_nat k))).
  { apply safely_select; [intros d (k & _ & Hk); by eapply at_version_somewhere | ].
    intros d (k & Hpos & e & He). destruct (rea_range _ _ _ _ _ He).
    destruct (rea_ledger _ _ _ _ _ He) as (times & Hlen & _ & Hl).
    unfold ledger. rewrite (rea_catalogue _ _ _ _ _ He), catalogue_ledger by lia.
    rewrite (proj2 (Nat.leb_le 1 k)) by lia. eexists. split; [reflexivity | ].
    exists k. split_and!; [lia | lia | by exists e | ]. rewrite Hl. by apply ledger_max. }
  intros highest d (k & Hk & Hat & ->).
  assert (Hrest : safely (at_version k)
    (of_pure (fail_if (MAX_MIGRATION_VERSION <? Z.of_nat k)
       (error_new SchemaVersionUnsupported ("registry schema " +:+ pretty (Z.of_nat k)
          +:+ " is newer than supported " +:+ pretty MAX_MIGRATION_VERSION) None false)) ;;
     validate_migration_checksum io MIGRATION_V1 ;;
     catch_up_all io (Z.of_nat k) later_migrations) (fun _ => at_version 6)).
  { apply (safely_bind _ _ (fun _ => at_version k)).
    { apply (safely_pure _ _ _ tt); [ | done]. rewrite (proj2 (Z.ltb_ge _ _)); [done | ].
      unfold MAX_MIGRATION_VERSION. lia. }
    intros []. apply (safely_bind _ _ (fun _ => at_version k)).
    { apply (validate_safe _ 0); [done | lia]. }
    intros []. rewrite <- (Nat.max_l k 1) at 1 by lia. rewrite <- (Nat.max_r k 6) by lia.
    by apply (catch_up_all_safe k later_migrations 1). }
  exact (Hrest d Hat).
Qed.

(** ** Maintenance *)

Definition holding (want : Extras -> Prop) (d : Schema) : Prop :=
  exists e, want e /\ reached d0 k0 6 e d.

Lemma holding_somewhere want d : holding want d -> somewhere d.
Proof. intros (e & _ & He). by exists 6%nat, e. Qed.

Lemma verify_safe want part context test message :
  (forall e, want e -> verified_tests e (catalogue_at 6 e) = true -> test (catalogue_at 6 e) = true) ->
  safely (holding want) (verify io part context test message) (fun _ => holding want).
Proof.
  intros Htest. unfold verify.
  apply (safely_bind _ _ (fun found d => holding want d /\ found = true)).
  - apply safely_select; [apply holding_somewhere | ]. intros d (e & Hwant & He).
    eexists. split; [reflexivity | ]. split; [by exists e | ]. rewrite (rea_catalogue _ _ _ _ _ He).
    apply Htest; [done | ]. apply catalogue_verified. lia.
  - intros found d [Hd ->]. exact Hd.
Qed.

Lemma batch_safe want want' part (body : Schema -> RuntimeResult Schema) :
  leads body (holding want) (holding want') ->
  safely (holding want) (in_transaction io part body) (fun _ => holding want').
Proof. intros Hbody. by apply safely_transaction; [apply holding_somewhere.. | ]. Qed.

Lemma maintained_batch script add (want want' : Extras -> Prop) d :
  In (script, add) maintenance -> (forall e, want e -> want' (add e)) -> holding want d ->
  exists d', execute_batch script d = Ok d' /\ holding want' d'.
Proof.
  intros Hin Hwant (e & He & Hd). destruct (reached_batch 6 e d script (add e) Hd) as (d' & Hrun & Hd').
  - intros _. pose proof (rea_extras _ _ _ _ _ Hd eq_refl) as Hpatch.
    repeat (destruct Hin as [[= <- <-] | Hin]; [exact Hpatch | ]). done.
  - apply catalogue_maintained; [done | lia].
  - destruct (sch_rows d). repeat (destruct Hin as [[= <- <-] | Hin]; [reflexivity | ]). done.
  - exists d'. split; [done | ]. exists (add e). auto.
Qed.
Lemma define_all_error script e : foldl (fun acc s => c ← acc; define s c) (Err e) script = Err e.
Proof. induction script; [done | ]. assumption. Qed.

Lemma execute_batch_cons s script d d' :
  execute_batch (s :: script) d = Ok d' ->
  exists d1, execute_batch [s] d = Ok d1 /\ execute_batch script d1 = Ok d'.
Proof.
  unfold execute_batch, define_all. simpl. intros H.
  destruct (define s (sch_catalogue d)) as [c | e] eqn:Hc; simpl in *; [by eauto | ].
  by rewrite define_all_error in H.
Qed.

(** Statements one by one are the batch of them. *)
Lemma outside_statements (Q : Schema -> Prop) part d' (indexes : list (string * statement * string)) : Q d' -> forall acc,
  outside acc (fun d => execute_batch (map (fun '(_, sql, _) => sql) indexes) d = Ok d') ->
  outside (foldl (fun acc '(_, sql, what) =>
             d ← acc; run_statement io part ("cannot ensure " +:+ what) (execute_batch [sql]) d) acc indexes) Q.
Proof.
  intros HQ. induction indexes as [ | [[name sql] what] rest IH]; intros acc Hacc; simpl.
  - destruct acc as [[c l r] | e]; [ | exact Hacc]. simpl in *. unfold execute_batch in Hacc. simpl in Hacc.
    by simplify_eq.
  - apply IH. eapply outside_bind; [exact Hacc | ]. intros d1 Hd1. apply outside_statement.
    apply execute_batch_cons in Hd1 as (d2 & Hone & Hrest). by rewrite Hone.
Qed.

Lemma index_body_leads want :
  leads (index_body io) (holding want) (holding (fun e => ex_indexes e = true /\ exists e', want e' /\ e = with_indexes e')).
Proof.
  intros d Hd.
  destruct (maintained_batch index_script with_indexes want
    (fun e => ex_indexes e = true /\ exists e', want e' /\ e = with_indexes e') d) as (d' & Hrun & Hd').
  { by left. } { intros e He. split; [done | ]. by exists e. } { done. }
  apply execute_batch_cons in Hrun as (d1 & Hdrop & Hrest).
  unfold index_body. eapply (outside_bind _ _ (fun d => execute_batch (map (fun '(_, sql, _) => sql) lookup_indexes) d = Ok d')).
  - apply outside_statement. by rewrite Hdrop.
  - intros d2 Hd2. by apply (outside_statements _ _ d').
Qed.

Lemma implied a b : a && b = true -> a = true /\ b = true.
Proof. apply andb_true_iff. Qed.

Lemma ensure_query_indexes_safe :
  safely (at_version 6) (ensure_query_indexes io) (fun _ => holding (fun e => ex_indexes e = true)).
Proof.
  apply (safely_weaken _ (holding (fun _ => True))); [intros d [e He]; by exists e | ].
  unfold ensure_query_indexes.
  apply (safely_bind _ _ (fun _ => holding (fun e => ex_indexes e = true))).
  { apply batch_safe. intros d Hd. pose proof (index_body_leads _ d Hd) as Hleads.
    unfold outside in *. destruct (index_body io d); [ | done].
    destruct Hleads as (e & [He _] & Hr). by exists e. }
  intros []. apply (safely_bind _ _ (fun _ => holding (fun e => ex_indexes e = true))).
  { apply verify_safe. intros e He Htests. unfold verified_tests in Htests. rewrite He in Htests. simpl in Htests.
    by repeat (apply andb_true_iff in Htests as [Htests _]). }
  intros []. unfold lookup_indexes. cbn [verify_indexes].
  repeat (apply (safely_bind _ _ (fun _ => holding (fun e => ex_indexes e = true)));
    [apply verify_safe; intros e He Htests; unfold verified_tests in Htests; rewrite He in Htests;
     cbn [implb lookup_indexes forallb] in Htests; rewrite !andb_true_iff in Htests; tauto | intros []]).
  by apply safely_ret.
Qed.

(** One of the four storages. *)
Lemma ensure_storage_safe want want' what script add :
  In (script, add) maintenance -> (forall e, want e -> want' (add e)) ->
  safely (holding want) (ensure_storage io what script) (fun _ => holding want').
Proof.
  intros Hin Hwant. apply batch_safe. intros d Hd. apply outside_statement.
  by destruct (maintained_batch _ _ _ _ d Hin Hwant Hd) as (d' & -> & Hd').
Qed.

(** What has been added after each step. *)
Definition step1 (e : Extras) : Prop := ex_indexes e = true /\ ex_provider e = true.
Definition step2 (e : Extras) : Prop := step1 e /\ ex_owner e = true.
Definition step3 (e : Extras) : Prop := step2 e /\ ex_host e = true.
Definition step4 (e : Extras) : Prop := step3 e /\ ex_release e = true.

Ltac verified :=
  let e := fresh in let He := fresh "He" in let Htests := fresh "Htests" in
  apply verify_safe; intros e He Htests; unfold verified_tests in Htests;
  unfold step4, step3, step2, step1 in He; decompose [and] He;
  repeat match goal with H : _ e = true |- _ => rewrite H in Htests; clear H end;
  cbn [implb] in Htests; rewrite !andb_true_iff in Htests; tauto.

Lemma open_connection_safe : safely somewhere (open_connection io) (fun _ => somewhere).
Proof.
  intros d Hd. unfold open_connection. cbn [for_each].
  repeat match goal with |- context [sio_statement io ?p ?c] => destruct (sio_statement io p c) eqn:? end;
    simpl; first [done | split; [done | intros []; congruence]].
Qed.

Lemma ensure_wal_mode_safe : safely somewhere (ensure_wal_mode io) (fun _ => somewhere).
Proof.
  unfold ensure_wal_mode. apply (safely_bind _ _ (fun mode d => somewhere d /\ mode = sio_journal_mode io)).
  - apply safely_select; [done | ]. intros d Hd. by eexists.
  - intros mode d [Hd ->]. unfold of_pure. destruct (eq_ignore_ascii_case _ _) eqn:Hwal; [done | ].
    split; [done | ]. intros []. congruence.
Qed.

Lemma open_database_safe : safely somewhere (open_database io) (fun _ => holding step4).
Proof.
  unfold open_database.
  apply (safely_bind _ _ (fun _ => somewhere)); [apply open_connection_safe | intros []].
  apply (safely_bind _ _ (fun _ => somewhere)); [apply ensure_wal_mode_safe | intros []].
  apply (safely_bind _ _ (fun _ => at_version 6)); [apply apply_migrations_safe | intros []].
  apply (safely_bind _ _ (fun _ => holding (fun e => ex_indexes e = true)));
    [apply ensure_query_indexes_safe | intros []].
  apply (safely_bind _ _ (fun _ => holding step1)); [ | intros []].
  { apply (safely_bind _ _ (fun _ => holding step1)); [ | intros []; verified].
    eapply ensure_storage_safe; [right; by left | by intros e He]. }
  apply (safely_bind _ _ (fun _ => holding step2)); [ | intros []].
  { apply (safely_bind _ _ (fun _ => holding step2)); [ | intros []; verified].
    eapply ensure_storage_safe; [do 2 right; by left | by intros e He]. }
  apply (safely_bind _ _ (fun _ => holding step3)); [ | intros []].
  { apply (safely_bind _ _ (fun _ => holding step3)); [ | intros []; verified].
    eapply ensure_storage_safe; [do 3 right; by left | by intros e He]. }
  apply (safely_bind _ _ (fun _ => holding step4)); [ | intros []].
  { eapply ensure_storage_safe; [do 4 right; by left | by intros e He]. }
  apply (safely_bind _ _ (fun _ => holding step4)); [verified | intros []; verified].
Qed.
End steps.

(** ** Data *)

Lemma each_lookup {A} (f : string -> A -> A) m key : each f m !! key = f key <$> m !! key.
Proof. unfold each. rewrite map_lookup_imap. by destruct (m !! key). Qed.

Definition no_cells : RecoveryCells := {|
  rcl_required := None; rcl_reason_code := None; rcl_evidence_digest := None; rcl_observed_at_ms := None |}.

(** Whether the triggers on the recovery columns would accept the row. *)
Definition cells_consistent (cells : RecoveryCells) : bool :=
  Bool.eqb (there (rcl_required cells)) (there (rcl_reason_code cells))
  && Bool.eqb (there (rcl_required cells)) (there (rcl_evidence_digest cells))
  && Bool.eqb (there (rcl_required cells)) (there (rcl_observed_at_ms cells)).

Lemma retired_attempts rows attempt_id :
  rows_attempts (rewrite_all MIGRATION_V5_SQL rows) !! attempt_id
  = copy_recovery (rows_conditions rows) attempt_id <$> ((fun _ => no_cells) <$> rows_attempts rows !! attempt_id).
Proof.
  destruct rows as [conditions attempts reservations].
  unfold rewrite_all, MIGRATION_V5_SQL. cbn [foldl rewrite_rows String.eqb Ascii.eqb Bool.eqb rows_attempts rows_conditions].
  rewrite !each_lookup. by destruct (attempts !! attempt_id).
Qed.

Lemma retired_reservations rows attempt_id :
  rows_reservations (rewrite_all MIGRATION_V5_SQL rows) !! attempt_id
  = copy_observation (rows_conditions rows) attempt_id <$> rows_reservations rows !! attempt_id.
Proof.
  destruct rows as [conditions attempts reservations].
  unfold rewrite_all, MIGRATION_V5_SQL. cbn [foldl rewrite_rows String.eqb Ascii.eqb Bool.eqb rows_reservations rows_conditions].
  rewrite !each_lookup. by destruct (reservations !! attempt_id).
Qed.

(** ** Theorems *)

Lemma interrupted_openings d0 k0 ios d :
  somewhere d0 k0 d -> somewhere d0 k0 (foldl (fun d io => snd (open_database io d)) d ios).
Proof.
  revert d. induction ios as [ | io ios IH]; intros d Hd; [done | ]. apply IH.
  pose proof (open_database_safe io d0 k0 d Hd) as Hsafe.
  destruct (open_database io d) as [[[] | e] d']; simpl; [by eapply holding_somewhere | by destruct Hsafe].
Qed.

(** C17: Opening the Registry converges.  From a database after any number of
    migrations, with or without what the maintenance steps add, and after any
    number of openings that failed wherever SQLite, COMMIT or the clock may
    fail, an opening in which nothing fails succeeds, and then: the catalogue is
    the current one, whose triggers abort exactly the updates that the model of
    the tables refuses; the ledger names every migration with the compiled
    checksum and keeps the entries it had; and the rows are those that were
    there, rewritten once by the retirement of conditions if it had not run. *)
Theorem registry_opening_converges (d0 : Schema) (k0 : nat) (ios : list SchemaIo) (io : SchemaIo) :
  supported k0 d0 -> fine io ->
  exists d', open_database io (foldl (fun d io => snd (open_database io d)) d0 ios) = (Ok tt, d')
    /\ sch_catalogue d' = catalogue_at 6 all_extras
    /\ (exists states, cat_triggers (sch_catalogue d') !! "attempts_terminal_no_reopen"%string
                       = Some ("attempts"%string, FinalState states)
        /\ forall old new, aborts_state states old new = attempts_terminal_no_reopen old new)
    /\ (exists resolutions, cat_triggers (sch_catalogue d') !! "jobs_resolution_immutable"%string
                       = Some ("jobs"%string, FinalResolution resolutions)
        /\ forall old new, aborts_resolution resolutions old new = jobs_resolution_immutable old new)
    /\ (forall m, In m all_migrations -> exists time, 0 <= time
        /\ sch_ledger d' !! mig_version m = Some (ledger_row m time))
    /\ sch_ledger d0 ⊆ sch_ledger d'
    /\ sch_rows d' = (if (k0 <? 5)%nat then rewrite_all MIGRATION_V5_SQL (sch_rows d0) else sch_rows d0).
Proof.
  intros [e He] Hfine.
  pose proof (open_database_safe io d0 k0 _ (interrupted_openings d0 k0 ios d0 (ex_intro _ k0 (ex_intro _ e He)))) as Hsafe.
  destruct (open_database io _) as [[[] | error] d']; [ | by destruct Hsafe].
  exists d'. split; [done | ]. destruct Hsafe as (e' & Hstep & [Hrange Hextras Hc (times & Hlen & Htimes & Hl) Hkept Hrows]).
  assert (e' = all_extras) as ->.
  { specialize (Hextras eq_refl). clear -Hstep Hextras. destruct e' as [[] [] [] [] [] []]; unfold step4, step3, step2, step1 in Hstep;
      simpl in *; decompose [and] Hstep; first [discriminate | reflexivity]. }
  rewrite Hc, Hl, Hrows. split_and!; [done | | | | by rewrite <- Hl | ].
  - eexists. split; [vm_compute; reflexivity | ]. by intros [] [].
  - eexists. split; [vm_compute; reflexivity | ]. by intros [[] | ] [[] | ].
  - intros m Hm. apply In_nth_error in Hm as [i Hi].
    rewrite (ledger_lookup times 6 i m Hlen ltac:(lia) Hi).
    assert (Hi6 : (i < 6)%nat) by (apply (nth_error_Some all_migrations i); by rewrite Hi).
    rewrite (proj2 (Nat.ltb_lt i 6) Hi6). destruct (nth_error times i) as [time | ] eqn:Ht;
      [ | apply nth_error_None in Ht; lia].
    exists time. split; [ | done]. rewrite Forall_forall in Htimes. apply Htimes, list_elem_of_In.
    by eapply nth_error_In.
  - unfold rows_at. by rewrite andb_true_r.
Qed.

(** ** What is refused *)

Section refusals.
Context (io : SchemaIo).

(** [m] fails and leaves the database as it was, with the code if nothing fails
    on the outside. *)
Definition refuses {A} (code : RuntimeErrorCode) (m : db A) (d : Schema) : Prop :=
  exists e, m d = (Err e, d) /\ (fine io -> err_code e = code).

(** [m] changes nothing, and answers [a] if nothing fails on the outside. *)
Definition reads {A} (a : A) (m : db A) (d : Schema) : Prop :=
  m d = (Ok a, d) \/ exists e, m d = (Err e, d) /\ ~ fine io.

Lemma refuses_bind {A B} code a (m : db A) (f : A -> db B) d :
  reads a m d -> refuses code (f a) d -> refuses code (m ≫= f) d.
Proof.
  unfold mbind, db_mbind. intros [Hm | (e & Hm & Hfine)] Hf; unfold refuses; rewrite Hm; [exact Hf | ].
  exists e. split; [done | ]. intros Hf'. by destruct Hfine.
Qed.

Lemma refuses_now {A B} code (m : db A) (f : A -> db B) d : refuses code m d -> refuses code (m ≫= f) d.
Proof. intros (e & Hm & Hcode). unfold refuses, mbind, db_mbind. rewrite Hm. by exists e. Qed.

Lemma reads_select {A} part context (f : Schema -> result SqlError A) a d :
  f d = Ok a -> reads a (select io part context f) d.
Proof.
  intros Hf. unfold reads, select. destruct (sio_statement io part context) eqn:He; [right | left; by rewrite Hf].
  eexists. split; [done | ]. intros []. congruence.
Qed.

Lemma reads_connection d : reads tt (open_connection io) d.
Proof.
  unfold reads, open_connection. cbn [for_each].
  repeat match goal with |- context [sio_statement io ?p ?c] => destruct (sio_statement io p c) eqn:? end;
    simpl; first [by left | right; eexists; split; [done | intros []; congruence]].
Qed.

Lemma reads_wal d : reads tt (ensure_wal_mode io) d.
Proof.
  unfold reads, ensure_wal_mode, mbind, db_mbind, select.
  destruct (sio_statement io _ _) eqn:He; [right; eexists; split; [done | intros []; congruence] | ].
  simpl. unfold of_pure. destruct (eq_ignore_ascii_case (sio_journal_mode io) "wal") eqn:Hwal; [by left | ].
  right. eexists. split; [done | ]. intros []. congruence.
Qed.

(** The check of one ledger row. *)
Lemma validated d m row :
  has_table "schema_migrations" (sch_catalogue d) = true -> sch_ledger d !! mig_version m = Some row ->
  (if String.eqb (led_checksum row) (mig_checksum m) then reads tt (validate_migration_checksum io m) d
   else refuses MigrationChecksumMismatch (validate_migration_checksum io m) d).
Proof.
  intros Htable Hrow. unfold validate_migration_checksum.
  pose proof (reads_select (mig_label m) "cannot read migration checksum" ledger (sch_ledger d) d) as Hread.
  unfold ledger in Hread at 1. rewrite Htable in Hread. specialize (Hread eq_refl).
  destruct (String.eqb (led_checksum row) (mig_checksum m)) eqn:Hsum.
  - destruct Hread as [Hread | (e & Hread & Hfine)]; unfold reads, mbind, db_mbind; rewrite Hread; [left | right; eauto].
    unfold of_pure. rewrite Hrow. simpl. by rewrite Hsum.
  - eapply refuses_bind; [exact Hread | ]. unfold refuses, of_pure. rewrite Hrow. simpl. rewrite Hsum. simpl.
    eexists. by split.
Qed.

(** Among the migrations that ran, one whose row is not the compiled one. *)
Lemma altered_caught d highest ms :
  has_table "schema_migrations" (sch_catalogue d) = true ->
  Forall (fun m => is_Some (sch_ledger d !! mig_version m)) ms ->
  Forall (fun m => mig_version m <= highest) ms ->
  (exists m row, In m ms /\ sch_ledger d !! mig_version m = Some row /\ led_checksum row <> mig_checksum m) ->
  forall rest, refuses MigrationChecksumMismatch (catch_up_all io highest (ms ++ rest)) d.
Proof.
  intros Htable Hrows Hran (m & row & Hin & Hrow & Hsum) rest.
  induction ms as [ | m' ms IH]; [done | ]. apply Forall_cons in Hrows as [[row' Hrow'] Hrows].
  apply Forall_cons in Hran as [Hle Hran]. simpl. unfold catch_up at 1.
  rewrite (proj2 (Z.ltb_ge _ _) Hle).
  assert (Hskip : (mret tt ;; validate_migration_checksum io m' : db unit) d = validate_migration_checksum io m' d) by done.
  pose proof (validated d m' row' Htable Hrow') as Hvalid.
  destruct (String.eqb_spec (led_checksum row') (mig_checksum m')) as [Heq | Hne].
  - eapply refuses_bind; [unfold reads; rewrite Hskip; exact Hvalid | ]. apply IH; [done | done | ].
    destruct Hin as [<- | Hin]; [simplify_eq | done].
  - apply refuses_now. unfold refuses. rewrite Hskip. exact Hvalid.
Qed.

Lemma refuses_open code d :
  has_table "schema_migrations" (sch_catalogue d) = true ->
  (forall highest, max_version (sch_ledger d) = Some highest ->
     refuses code (of_pure (fail_if (MAX_MIGRATION_VERSION <? highest)
       (error_new SchemaVersionUnsupported ("registry schema " +:+ pretty highest
          +:+ " is newer than supported " +:+ pretty MAX_MIGRATION_VERSION) None false)) ;;
     validate_migration_checksum io MIGRATION_V1 ;;
     catch_up_all io highest later_migrations) d) ->
  (exists highest, max_version (sch_ledger d) = Some highest) ->
  refuses code (open_database io) d.
Proof.
  intros Htable Hrest [highest Hmax]. unfold open_database.
  eapply refuses_bind; [apply reads_connection | ]. eapply refuses_bind; [apply reads_wal | ].
  apply refuses_now. unfold apply_migrations.
  eapply refuses_bind; [apply reads_select; by rewrite Htable | ].
  eapply (refuses_bind _ tt); [by left | ].
  eapply (refuses_bind _ (Some highest)).
  { apply reads_select. unfold ledger. rewrite Htable. simpl. by rewrite Hmax. }
  eapply (refuses_bind _ highest); [by left | ]. by apply Hrest.
Qed.
End refusals.

Lemma max_version_spec rows : match max_version rows with
  | None => rows = ∅
  | Some highest => is_Some (rows !! highest) /\ forall v, is_Some (rows !! v) -> v <= highest
  end.
Proof.
  unfold max_version. assert (Hin : forall v, v ∈ (map_to_list rows).*1 <-> is_Some (rows !! v)).
  { intros v. rewrite list_elem_of_fmap. split.
    - intros ([w row] & -> & Hrow%elem_of_map_to_list). by exists row.
    - intros [row Hrow]. exists (v, row). split; [done | ]. by apply elem_of_map_to_list. }
  assert (Hfold : forall l : list Z, match foldr (fun v acc => Some (match acc with Some w => Z.max v w | None => v end)) None l with
    | None => l = []
    | Some highest => highest ∈ l /\ forall v, v ∈ l -> v <= highest end).
  { induction l as [ | v l IH]; [done | ]. simpl. destruct (foldr _ _ l) as [w | ].
    - destruct IH as [Hw Hmax]. split.
      + destruct (Z.max_spec v w) as [[_ ->] | [_ ->]]; [by apply list_elem_of_further | apply list_elem_of_here].
      + intros u [-> | Hu]%elem_of_cons; [lia | ]. specialize (Hmax u Hu). lia.
    - subst. split; [apply list_elem_of_here | ]. intros u [-> | Hu]%elem_of_cons; [done | by apply not_elem_of_nil in Hu]. }
  specialize (Hfold (map_to_list rows).*1). destruct (foldr _ _ _) as [highest | ].
  - destruct Hfold as [Hh Hmax]. split; [by apply Hin | ]. intros v Hv. by apply Hmax, Hin.
  - apply fmap_nil_inv in Hfold. by apply map_to_list_empty_iff.
Qed.

(** A database that this Runtime does not understand is refused and left as
    it is, whatever else fails: one whose ledger names a newer migration, and
    one with the right migrations of which a row does not carry the compiled
    checksum.  A process that is too late with a migration, because another one
    has recorded it since the versions were read, changes nothing either. *)
Theorem foreign_database_untouched (io : SchemaIo) (d : Schema) :
  has_table "schema_migrations" (sch_catalogue d) = true ->
  ((exists v, MAX_MIGRATION_VERSION < v /\ is_Some (sch_ledger d !! v)) ->
     refuses io SchemaVersionUnsupported (open_database io) d)
  /\ (forall k, (1 <= k <= 6)%nat ->
      (forall v, is_Some (sch_ledger d !! v) <-> 1 <= v <= Z.of_nat k) ->
      (exists m row, In m (take k all_migrations) /\ sch_ledger d !! mig_version m = Some row
         /\ led_checksum row <> mig_checksum m) ->
      refuses io MigrationChecksumMismatch (open_database io) d)
  /\ (forall m, is_Some (sch_ledger d !! mig_version m) -> exists e, run_migration io m d = (Err e, d)).
Proof.
  intros Htable. split_and!.
  - intros (v & Hv & Hrow). pose proof (max_version_spec (sch_ledger d)) as Hmax.
    destruct (max_version (sch_ledger d)) as [highest | ] eqn:Hhigh; [ | rewrite Hmax, lookup_empty in Hrow; by destruct Hrow].
    destruct Hmax as [_ Hmax]. specialize (Hmax v Hrow).
    apply refuses_open; [done | | by eauto]. intros h Hh; rewrite Hhigh in Hh; injection Hh as <-. apply refuses_now.
    rewrite (proj2 (Z.ltb_lt _ _)) by lia. unfold refuses, of_pure. simpl. eexists. by split.
  - intros k Hk Hdom (m & row & Hin & Hrow & Hsum). pose proof (max_version_spec (sch_ledger d)) as Hmax.
    destruct (max_version (sch_ledger d)) as [highest | ] eqn:Hhigh; cycle 1.
    { rewrite Hmax, lookup_empty in Hrow. done. }
    assert (highest = Z.of_nat k) as ->.
    { destruct Hmax as [Hh Hmax]. apply Hdom in Hh. specialize (Hmax (Z.of_nat k)). rewrite Hdom in Hmax. lia. }
    apply refuses_open; [done | | by eauto]. intros h Hh; rewrite Hhigh in Hh; injection Hh as <-.
    eapply (refuses_bind _ _ tt).
    { left. rewrite (proj2 (Z.ltb_ge _ _)); [done | ]. unfold MAX_MIGRATION_VERSION. lia. }
    assert (Hfirst : is_Some (sch_ledger d !! mig_version MIGRATION_V1)) by (apply Hdom; simpl; lia).
    destruct Hfirst as [first Hfirst]. pose proof (validated io d MIGRATION_V1 first Htable Hfirst) as Hvalid.
    destruct (String.eqb_spec (led_checksum first) (mig_checksum MIGRATION_V1)); [ | by apply refuses_now].
    eapply refuses_bind; [exact Hvalid | ].
    rewrite <- (take_drop (k - 1) later_migrations).
    assert (Hversions : Forall (fun m => 1 <= mig_version m <= Z.of_nat k) (take (k - 1) later_migrations)).
    { do 7 (destruct k as [ | k]; [try lia; simpl; repeat constructor; simpl; lia | ]). lia. }
    apply altered_caught; [done | | | ].
    + eapply Forall_impl; [exact Hversions | ]. intros m' Hm'. by apply Hdom.
    + eapply Forall_impl; [exact Hversions | ]. simpl. lia.
    + exists m, row. split_and!; [ | done | done]. destruct k as [ | k]; [lia | ]. simpl in Hin |- *.
      rewrite Nat.sub_0_r. destruct Hin as [<- | Hin]; [ | done]. simplify_eq.
  - intros m [row Hrow]. unfold run_migration, in_transaction. destruct (sio_begin io _); [by eexists | ].
    unfold migration_body, run_statement at 2. destruct (sio_statement io _ _); [by eexists | ].
    destruct (execute_batch (mig_sql m) d) as [d1 | ] eqn:Hbatch; [ | by eexists]. simpl.
    destruct (sio_now io _) as [now | ]; [ | by eexists]. simpl.
    unfold run_statement. destruct (sio_statement io _ _); [by eexists | ].
    unfold record_migration. destruct (has_table "schema_migrations" (sch_catalogue d1)); [ | by eexists].
    assert (sch_ledger d1 = sch_ledger d) as ->.
    { unfold execute_batch in Hbatch. destruct (define_all _ _); simpl in Hbatch; [by simplify_eq | done]. }
    rewrite Hrow. simpl. by eexists.
Qed.

(** Retiring the conditions keeps what they said.  An Attempt has its recovery
    columns from its [recovery_required] condition, or none of them; the triggers
    that are created next accept the row exactly if the condition was [true] or
    [false].  A reservation keeps its row and is observed when its condition, its
    release or its acquisition was; no row appears or is lost. *)
Theorem condition_retirement_keeps_facts (rows : Rows) (attempt_id : string) :
  let rows' := rewrite_all MIGRATION_V5_SQL rows in
  match rows_attempts rows !! attempt_id with
  | None => rows_attempts rows' !! attempt_id = None
  | Some _ => exists cells, rows_attempts rows' !! attempt_id = Some cells
      /\ match rows_conditions rows !! (attempt_id, "recovery_required"%string) with
         | None => cells = no_cells
         | Some c => rcl_reason_code cells = Some (cnd_reason_code c)
             /\ rcl_evidence_digest cells = Some (cnd_evidence_digest c)
             /\ rcl_observed_at_ms cells = Some (cnd_observed_at_ms c)
             /\ (rcl_required cells = Some true <-> cnd_status c = "true"%string)
             /\ (rcl_required cells = Some false <-> cnd_status c = "false"%string)
             /\ (cells_consistent cells = true <-> cnd_status c = "true"%string \/ cnd_status c = "false"%string)
         end
  end
  /\ match rows_reservations rows !! attempt_id with
     | None => rows_reservations rows' !! attempt_id = None
     | Some before => exists cells, rows_reservations rows' !! attempt_id = Some cells
         /\ rvc_state cells = rvc_state before /\ rvc_acquired_at_ms cells = rvc_acquired_at_ms before
         /\ rvc_released_at_ms cells = rvc_released_at_ms before
         /\ match rvc_state before with
            | ReservationState.Active => rvc_state_observed_at_ms cells = Some (rvc_acquired_at_ms before)
            | ReservationState.Released => rvc_state_observed_at_ms cells = rvc_released_at_ms before
            | ReservationState.HeldOrphaned => rvc_state_observed_at_ms cells
                = Some (default (rvc_acquired_at_ms before)
                    (cnd_observed_at_ms <$> rows_conditions rows !! (attempt_id, "reservation_held"%string)))
            end
     end.
Proof.
  cbv zeta. split.
  - rewrite retired_attempts. destruct (rows_attempts rows !! attempt_id); [ | done].
    eexists. split; [reflexivity | ]. unfold copy_recovery.
    destruct (rows_conditions rows !! _) as [c | ]; [ | done]. cbn [rcl_required rcl_reason_code rcl_evidence_digest rcl_observed_at_ms].
    do 3 (split; [done | ]). unfold cells_consistent. simpl.
    destruct (String.eqb_spec (cnd_status c) "true") as [Ht | Ht]; [rewrite Ht; naive_solver | ].
    destruct (String.eqb_spec (cnd_status c) "false") as [Hf | Hf]; [rewrite Hf | ]; naive_solver.
  - rewrite retired_reservations. destruct (rows_reservations rows !! attempt_id) as [before | ]; [ | done].
    eexists. split; [reflexivity | ]. do 3 (split; [done | ]). unfold copy_observation. simpl.
    destruct (rvc_state before); [done | | done]. by destruct (rows_conditions rows !! _).
Qed.

(** ** A database that is opened *)

Definition fine_io : SchemaIo := {|
  sio_statement := fun _ _ => None; sio_begin := fun _ => None; sio_commit := fun _ => CommitDone;
  sio_now := fun _ => Ok 0; sio_journal_mode := "wal" |}.

Lemma fine_io_fine : fine fine_io.
Proof. split; [done | done | done | intros part; by exists 0 | done]. Qed.

(** The COMMIT of the third migration fails without a trace. *)
Definition full_disk_io : SchemaIo := {|
  sio_statement := fun _ _ => None; sio_begin := fun _ => None;
  sio_commit := fun part => if String.eqb part "terminal-repair migration"
                            then CommitErrorRolledBack (SqliteFailure OtherSqlCode "disk is full") else CommitDone;
  sio_now := fun _ => Ok 0; sio_journal_mode := "wal" |}.

Definition new_database : Schema := {|
  sch_catalogue := no_catalogue; sch_ledger := ∅;
  sch_rows := {| rows_conditions := ∅; rows_attempts := ∅; rows_reservations := ∅ |} |}.

Lemma new_database_supported : supported 0 new_database.
Proof. exists no_extras. split; [lia | done | done | by exists [] | done | done]. Qed.

Example full_disk_stops_at_two :
  let '(answer, d) := open_database full_disk_io new_database in
  is_ok answer = false /\ max_version (sch_ledger d) = Some 2.
Proof. vm_compute. by split. Qed.

Lemma registry_opening_converges_witness :
  exists d', open_database fine_io (snd (open_database full_disk_io new_database)) = (Ok tt, d')
    /\ sch_catalogue d' = catalogue_at 6 all_extras.
Proof.
  destruct (registry_opening_converges new_database 0 [full_disk_io] fine_io new_database_supported fine_io_fine)
    as (d' & Hopen & Hcatalogue & _).
  exists d'. split; [exact Hopen | exact Hcatalogue].
Defined.

Definition newer_database : Schema := {|
  sch_catalogue := catalogue_at 6 all_extras;
  sch_ledger := {[ 7 := {| led_name := "0007_future"; led_checksum := ""; led_applied_at_ms := 0 |} ]};
  sch_rows := sch_rows new_database |}.

Lemma foreign_database_untouched_witness :
  refuses full_disk_io SchemaVersionUnsupported (open_database full_disk_io) newer_database.
Proof.
  apply foreign_database_untouched.
  - vm_compute. reflexivity.
  - exists 7. split; [done | ]. eexists. reflexivity.
Defined.
