(* ===== verification/Projection.v ===== *)
(** * Projection

    The observable view of a Job ([project_job], [load_job_snapshot_in],
    [job_execution_reason_code] of [runtime/registry.rs]). *)

From S2P Require Import Prelude Text Errors Types Supervisor Platform Validation Submit Store.
From S2P Require Import Transaction.

#[local] Open Scope Z_scope.

Record JobSnapshot : Type := {
  snap_job : RuntimeJobRecord;
  snap_attempt : option AttemptRecord;
  snap_projection : JobProjection;
}.

(** [SELECT attempt_id FROM attempts WHERE job_id=?1 ORDER BY attempt_number DESC LIMIT 1] *)
Definition latest_attempt_id (job_id : string) (attempts : gmap string AttemptRow)
    : option string :=
  fst <$>
  foldr (fun (kv : string * AttemptRow) (best : option (string * Z)) =>
           let a := row_attempt kv.2 in
           if String.eqb (att_job_id a) job_id then
             match best with
             | Some (_, n) => if n <? att_attempt_number a then Some (kv.1, att_attempt_number a)
                              else best
             | None => Some (kv.1, att_attempt_number a)
             end
           else best)
    None (map_to_list attempts).

(** The events that carry an execution reason. *)
Definition reason_event (job_id : string) (e : JobEvent) : bool :=
  String.eqb (ev_job_id e) job_id
  && (existsb (String.eqb (ev_event_type e))
        ["JOB_TERMINAL"; "JOB_RESOLUTION_CORRECTED"; "JOB_RESOLUTION_ADMIN_CORRECTED"]
      || (String.eqb (ev_event_type e) "STOP_REQUESTED"
          && (ev_new_state e == Some AttemptState.Cancelled))).

(** [... ORDER BY event_sequence DESC LIMIT 1] *)
Definition job_execution_reason_code (job_id : string) (resolved : bool)
    (events : list JobEvent) : option string :=
  if negb resolved then None
  else ev_reason_code <$>
    foldl (fun best e =>
             if reason_event job_id e then
               match best with
               | Some b => if ev_event_sequence b <? ev_event_sequence e then Some e else best
               | None => Some e
               end
             else best) None events.

(** [SELECT COALESCE(recovery_required,0) FROM attempts WHERE attempt_id=?1] *)
Definition attempt_recovery_condition_active (row : AttemptRow) : bool :=
  match row_recovery row with Some r => rec_required r | None => false end.

Definition job_status (job : RuntimeJobRecord) (attempt : option AttemptRecord) : string :=
  match job_resolution job with
  | Some resolution => JobResolution.as_db resolution
  | None =>
      match attempt with
      | Some attempt =>
          match att_state attempt with
          | AttemptState.Accepted | AttemptState.Starting => "queued"
          | AttemptState.Running | AttemptState.Stopping | AttemptState.Recovering => "working"
          | terminal => AttemptState.as_db terminal
          end
      | None => "unknown"
      end
  end.

Definition project_job (job : RuntimeJobRecord) (attempt : option AttemptRecord)
    (recovery_condition_active artifacts_available : bool)
    (execution_reason_code : option string) : JobProjection :=
  let execution_terminal := match job_resolution job with Some _ => true | None => false end in
  let recovery_required :=
    recovery_condition_active
    || match attempt with
       | Some attempt =>
           match att_state attempt with
           | AttemptState.Recovering | AttemptState.Orphaned => true
           | _ => false
           end
       | None => false
       end in
  let delivery_disposition :=
    if recovery_required then RuntimeDeliveryDisposition.ReconciliationRequired
    else match job_resolution job with
         | None => RuntimeDeliveryDisposition.InProgress
         | Some JobResolution.Orphaned => RuntimeDeliveryDisposition.ReconciliationRequired
         | Some JobResolution.Lost => RuntimeDeliveryDisposition.Unknown
         | Some _ => RuntimeDeliveryDisposition.Committed
         end in
  {| jp_job_id := job_job_id job;
     jp_operation_digest := job_operation_digest job;
     jp_status := job_status job attempt;
     jp_desired_state := job_desired_state job;
     jp_attempt_id := att_attempt_id <$> attempt;
     jp_attempt_state := att_state <$> attempt;
     jp_termination_intent := att_termination_intent <$> attempt;
     jp_exit_code := attempt ≫= att_exit_code;
     jp_execution_terminal := execution_terminal;
     jp_execution_disposition := job_resolution job;
     jp_execution_reason_code := execution_reason_code;
     jp_delivery_disposition := delivery_disposition;
     jp_recovery_required := recovery_required;
     jp_semantic_completion_evaluated := false;
     jp_result_available := execution_terminal;
     jp_artifacts_available := artifacts_available;
     jp_artifacts := [];
     jp_poll_after_ms :=
       match delivery_disposition with
       | RuntimeDeliveryDisposition.InProgress
       | RuntimeDeliveryDisposition.ReconciliationRequired => Some 250
       | _ => None
       end |}.

(** The row of the current Attempt, or of the latest one. *)
Definition snapshot_attempt (job : RuntimeJobRecord) : tx (option AttemptRow) := fun d =>
  match (match job_current_attempt_id job with
         | Some attempt_id => Some attempt_id
         | None => latest_attempt_id (job_job_id job) (db_attempts d)
         end) with
  | Some attempt_id =>
      match db_attempts d !! attempt_id with
      | Some row => Ok (Some row, d)
      | None => Err (error_new AttemptNotFound "Attempt not found" (Some "attemptId") false)
      end
  | None => Ok (None, d)
  end.

Definition load_job_snapshot_in (job_id : string) : tx JobSnapshot :=
  job ← load_job job_id;
  row ← snapshot_attempt job;
  artifacts_available ← read (fun d =>
    any (fun a => String.eqb (art_job_id a) (job_job_id job)) (db_artifacts d));
  execution_reason_code ← read (fun d =>
    job_execution_reason_code (job_job_id job)
      (match job_resolution job with Some _ => true | None => false end) (db_events d));
  mret {| snap_job := job;
          snap_attempt := row_attempt <$> row;
          snap_projection :=
            project_job job (row_attempt <$> row)
              (match row with Some row => attempt_recovery_condition_active row | None => false end)
              artifacts_available execution_reason_code |}.

(** [load_job_snapshot]: the same in a read transaction of its own. *)
Definition load_job_snapshot (job_id : string) (d : Db) : RuntimeResult JobSnapshot :=
  query (load_job_snapshot_in job_id) d.

Definition load_projection (job_id : string) (d : Db) : RuntimeResult JobProjection :=
  snap_projection <$> load_job_snapshot job_id d.
