(* ===== verification/Lifecycle.v ===== *)
(** * Lifecycle

    The Attempt and Job transitions of [runtime/registry/lifecycle.rs]: bundle
    commitment, dispatch intent, Runner and supervisor binding, deadline and
    cancel intents, and the terminal commit, each with its commit-failure
    reconciliation. *)

From S2P Require Import Prelude Text Errors Types Supervisor Platform Validation Submit Store.
From S2P Require Import Transaction Projection.

#[local] Open Scope Z_scope.

(** [validate(...)?] before the database is touched. *)
Definition checked {R} (v : RuntimeResult unit) (op : Db -> RuntimeResult R * Db) (d : Db)
    : RuntimeResult R * Db :=
  match v with Ok _ => op d | Err e => (Err e, d) end.

Lemma checked_invariant {R} (I : Db -> Prop) v (op : Db -> RuntimeResult R * Db) d :
  I d -> I (snd (op d)) -> I (snd (checked v op d)).
Proof. by destruct v. Qed.

Section lifecycle.
Context `{P : Platform}.

(** ** [mark_bundle_ready] *)

Definition mark_bundle_ready_tx (attempt_id : string) (expected_row_version : Z)
    (bundle_digest : string) (observed_at_ms : Z) : tx (flow AttemptRecord) :=
  attempt ← load_attempt attempt_id;
  reject_if ((att_state attempt != AttemptState.Accepted)
             || (att_row_version attempt != expected_row_version))
    (state_conflict "Attempt is not the expected accepted version") ;;
  changed ← update_attempts "cannot bind bundle identity" attempt_id
    (fun row => (att_state (row_attempt row) == AttemptState.Accepted)
                && (att_row_version (row_attempt row) == expected_row_version))
    (on_attempt (fun a => bump_attempt (set_att_bundle_digest (Some bundle_digest) a)));
  reject_if (changed != 1) (state_conflict "Attempt changed while binding bundle") ;;
  append_event (att_job_id attempt) (Some attempt_id) "BUNDLE_READY" "SYSTEM_OBSERVED"
    (Some AttemptState.Accepted) (Some AttemptState.Accepted) "BUNDLE_COMMITTED"
    (obj [("bundleDigest", JStr bundle_digest)]) observed_at_ms ;;
  mret (commit_or_fail "cannot commit bundle identity" (query (load_attempt attempt_id))).

Definition mark_bundle_ready (io : TxIo) (attempt_id : string) (expected_row_version : Z)
    (bundle_digest : string) (observed_at_ms : Z) : Db -> RuntimeResult AttemptRecord * Db :=
  checked (validate_digest bundle_digest "bundleDigest")
    (immediate io "bundle-ready transaction"
       (mark_bundle_ready_tx attempt_id expected_row_version bundle_digest observed_at_ms)).

(** ** [mark_dispatch_issued] *)

Definition mark_dispatch_issued_tx (attempt_id : string) (expected_row_version : Z)
    (observed_at_ms : Z) : tx (flow AttemptRecord) :=
  attempt ← load_attempt attempt_id;
  reject_if ((att_state attempt != AttemptState.Accepted)
             || (att_row_version attempt != expected_row_version)
             || (att_bundle_digest attempt == None))
    (state_conflict "Attempt must be accepted with a committed bundle") ;;
  changed ← update_attempts "cannot persist dispatch intent" attempt_id
    (fun row => (att_state (row_attempt row) == AttemptState.Accepted)
                && (att_row_version (row_attempt row) == expected_row_version)
                && (att_bundle_digest (row_attempt row) != None))
    (on_attempt (fun a => bump_attempt (set_att_state AttemptState.Starting a)));
  reject_if (changed != 1) (state_conflict "Attempt changed before dispatch intent") ;;
  append_event (att_job_id attempt) (Some attempt_id) "DISPATCH_ISSUED" "SYSTEM_DERIVED"
    (Some AttemptState.Accepted) (Some AttemptState.Starting)
    "AT_MOST_ONCE_BOUNDARY_COMMITTED"
    (obj [("bundleDigest", JStr (default "" (att_bundle_digest attempt)))]) observed_at_ms ;;
  mret (commit_or_fail "cannot commit dispatch intent" (query (load_attempt attempt_id))).

Definition mark_dispatch_issued (io : TxIo) (attempt_id : string) (expected_row_version : Z)
    (observed_at_ms : Z) : Db -> RuntimeResult AttemptRecord * Db :=
  immediate io "dispatch-intent transaction"
    (mark_dispatch_issued_tx attempt_id expected_row_version observed_at_ms).

(** ** [bind_running] *)

Definition bindable (s : AttemptState.t) : bool :=
  match s with AttemptState.Starting | AttemptState.Recovering => true | _ => false end.

Definition bind_identity (identity : RunnerIdentity) (a : AttemptRecord) : AttemptRecord :=
  bump_attempt
    (set_att_state AttemptState.Running
    (set_att_boot_id (Some (rid_boot_id identity))
    (set_att_invocation_id (Some (rid_invocation_id identity))
    (set_att_control_group (Some (rid_control_group identity))
    (set_att_main_pid (Some (rid_main_pid identity))
    (set_att_process_start_identity (Some (rid_process_start_identity identity))
    (set_att_runner_start_digest (Some (rid_runner_start_digest identity))
    (set_att_started_at_ms
       (Some (default (rid_observed_at_ms identity) (att_started_at_ms a))) a)))))))).

Definition bind_running_tx (attempt_id : string) (expected_row_version : Z)
    (identity : RunnerIdentity) : tx (flow AttemptRecord) :=
  attempt ← load_attempt attempt_id;
  if attempt_runner_identity_matches attempt identity then mret (Return attempt)
  else
    reject_if (negb (bindable (att_state attempt))
               || (att_row_version attempt != expected_row_version)
               || negb (String.eqb (att_unit_name attempt) (rid_unit_name identity)))
      (state_conflict "Attempt is not bindable to this Runner identity") ;;
    changed ← update_attempts "cannot bind Runner identity" attempt_id
      (fun row => (att_row_version (row_attempt row) == expected_row_version)
                  && bindable (att_state (row_attempt row)))
      (on_attempt (bind_identity identity));
    reject_if (changed != 1) (state_conflict "Attempt changed while binding Runner") ;;
    append_event (att_job_id attempt) (Some attempt_id) "RUNNER_BOUND" "SYSTEM_OBSERVED"
      (Some (att_state attempt)) (Some AttemptState.Running) "RUNNER_IDENTITY_MATCHED"
      (obj [("bootId", JStr (rid_boot_id identity));
            ("unitName", JStr (rid_unit_name identity));
            ("invocationId", JStr (rid_invocation_id identity));
            ("controlGroup", JStr (rid_control_group identity));
            ("mainPid", JNum (rid_main_pid identity));
            ("processStartIdentity", JStr (rid_process_start_identity identity))])
      (rid_observed_at_ms identity) ;;
    mret (commit_or_fail "cannot commit Runner identity" (query (load_attempt attempt_id))).

Definition bind_running (io : TxIo) (attempt_id : string) (expected_row_version : Z)
    (identity : RunnerIdentity) : Db -> RuntimeResult AttemptRecord * Db :=
  checked (validate_runner_identity identity)
    (immediate io "runner-bind transaction"
       (bind_running_tx attempt_id expected_row_version identity)).

(** ** Supervisor owners *)

Definition owner_digest_mismatch : RuntimeError :=
  error_new RegistryCorrupt
    "stored Attempt Supervisor Owner digest does not match side truth"
    (Some "attemptSupervisorOwner") false.

Definition attempt_supervisor_owner_tx (attempt_id : string)
    : tx (option AttemptSupervisorOwner) :=
  row ← read (fun d => db_supervisor_owners d !! attempt_id);
  match row with
  | None => mret None
  | Some (owner_json, owner_digest) =>
      reject_if (negb (String.eqb (sha256_bytes owner_json) owner_digest))
        owner_digest_mismatch ;;
      owner ← lift (map_err (fun text =>
                error_new RegistryCorrupt
                  ("stored Attempt Supervisor Owner is invalid: " +:+ text)
                  (Some "attemptSupervisorOwner") false) (owner_of_json owner_json));
      lift (validate_attempt_supervisor_owner owner) ;;
      mret (Some owner)
  end.

Definition attempt_supervisor_owner (io : TxIo) (attempt_id : string) (d : Db)
    : RuntimeResult (option AttemptSupervisorOwner) :=
  with_connection io (attempt_supervisor_owner_tx attempt_id) d.

Definition owner_bindable (s : AttemptState.t) : bool :=
  match s with
  | AttemptState.Starting | AttemptState.Recovering | AttemptState.Stopping => true
  | _ => false
  end.

(** The CASE of the owner UPDATE: a stopping Attempt stays stopping. *)
Definition owner_bound_state (s : AttemptState.t) : AttemptState.t :=
  if s == AttemptState.Stopping then AttemptState.Stopping else AttemptState.Running.

Definition insert_supervisor_owner (attempt_id owner_json owner_digest : string) : tx unit :=
  fun d =>
    match db_supervisor_owners d !! attempt_id with
    | Some _ => Err (constraint_error "UNIQUE constraint failed"
                       "cannot persist Attempt Supervisor Owner")
    | None => Ok (tt, set_db_supervisor_owners
                        (<[attempt_id := (owner_json, owner_digest)]> (db_supervisor_owners d)) d)
    end.

Definition bind_supervisor_owner_tx (attempt_id : string) (expected_row_version : Z)
    (owner : AttemptSupervisorOwner) (observed_at_ms : Z) : tx (flow AttemptRecord) :=
  let owner_json := owner_to_json owner in
  let owner_digest := sha256_bytes owner_json in
  attempt ← load_attempt attempt_id;
  existing ← read (fun d => db_supervisor_owners d !! attempt_id);
  match existing with
  | Some (existing_json, existing_digest) =>
      reject_if (negb (String.eqb (sha256_bytes existing_json) existing_digest))
        owner_digest_mismatch ;;
      if String.eqb existing_digest owner_digest
         && match att_state attempt with
            | AttemptState.Running | AttemptState.Stopping => true
            | _ => false
            end
         && (att_runner_start_digest attempt == Some (start_evidence_digest owner))
      then mret (Return attempt)
      else throw (state_conflict "Attempt is already bound to a different Supervisor Owner")
  | None =>
      reject_if (negb (owner_bindable (att_state attempt))
                 || (att_row_version attempt != expected_row_version))
        (state_conflict "Attempt is not bindable to this Supervisor Owner") ;;
      insert_supervisor_owner attempt_id owner_json owner_digest ;;
      changed ← update_attempts "cannot bind Attempt Supervisor Owner" attempt_id
        (fun row => (att_row_version (row_attempt row) == expected_row_version)
                    && owner_bindable (att_state (row_attempt row)))
        (on_attempt (fun a =>
           bump_attempt
             (set_att_state (owner_bound_state (att_state a))
             (set_att_runner_start_digest (Some (start_evidence_digest owner))
             (set_att_started_at_ms
                (Some (default observed_at_ms (att_started_at_ms a))) a)))));
      reject_if (changed != 1) (state_conflict "Attempt changed while binding Supervisor Owner") ;;
      append_event (att_job_id attempt) (Some attempt_id) "RUNNER_BOUND" "SYSTEM_OBSERVED"
        (Some (att_state attempt)) (Some (owner_bound_state (att_state attempt)))
        "SUPERVISOR_OWNER_MATCHED"
        (obj [("ownerContract", JStr (contract_name owner)); ("ownerDigest", JStr owner_digest)])
        observed_at_ms ;;
      mret (commit_or_fail "cannot commit Attempt Supervisor Owner"
              (query (load_attempt attempt_id)))
  end.

Definition bind_supervisor_owner (io : TxIo) (attempt_id : string) (expected_row_version : Z)
    (owner : AttemptSupervisorOwner) (observed_at_ms : Z)
    : Db -> RuntimeResult AttemptRecord * Db :=
  checked (validate_attempt_supervisor_owner owner)
    (immediate io "supervisor-owner bind transaction"
       (bind_supervisor_owner_tx attempt_id expected_row_version owner observed_at_ms)).

(** ** [request_deadline_termination] *)

Definition dispatched_nonterminal (s : AttemptState.t) : bool :=
  match s with
  | AttemptState.Starting | AttemptState.Running | AttemptState.Recovering
  | AttemptState.Stopping => true
  | _ => false
  end.

Definition request_deadline_termination_tx (attempt_id : string) (observed_at_ms : Z)
    : tx (flow AttemptRecord) :=
  attempt ← load_attempt attempt_id;
  job ← load_job (att_job_id attempt);
  if AttemptState.is_terminal (att_state attempt)
     || (att_termination_intent attempt == AttemptTerminationIntent.DeadlineExceeded)
     || (att_termination_intent attempt == AttemptTerminationIntent.StopRequested)
     || (job_desired_state job == JobDesiredState.Cancelled)
  then
    mret (commit_or_fail "cannot close deadline-intent replay" (query (load_attempt attempt_id)))
  else
    reject_if (job_resolution job != None)
      (error_new ReconciliationRequired "unresolved Attempt belongs to a resolved Job"
         (Some "attemptId") false) ;;
    reject_if (negb (dispatched_nonterminal (att_state attempt)))
      (error_new AttemptStateConflict
         "deadline termination requires a dispatched nonterminal Attempt"
         (Some "attemptId") false) ;;
    changed ← update_attempts "cannot persist Attempt deadline intent" attempt_id
      (fun row => (att_row_version (row_attempt row) == att_row_version attempt)
                  && dispatched_nonterminal (att_state (row_attempt row))
                  && (att_termination_intent (row_attempt row)
                      == AttemptTerminationIntent.Natural))
      (on_attempt (fun a =>
         bump_attempt (set_att_state AttemptState.Stopping
           (set_att_termination_intent AttemptTerminationIntent.DeadlineExceeded a))));
    reject_if (changed != 1)
      (state_conflict "Attempt changed while committing outer deadline intent") ;;
    append_event (att_job_id attempt) (Some attempt_id) "DEADLINE_EXCEEDED" "SYSTEM_DERIVED"
      (Some (att_state attempt)) (Some AttemptState.Stopping)
      "OUTER_DEADLINE_INTENT_COMMITTED" (obj []) observed_at_ms ;;
    mret (commit_or_fail "cannot commit Attempt deadline intent"
            (query (load_attempt attempt_id))).

Definition request_deadline_termination (io : TxIo) (attempt_id : string)
    (observed_at_ms : Z) : Db -> RuntimeResult AttemptRecord * Db :=
  immediate io "deadline-intent transaction"
    (request_deadline_termination_tx attempt_id observed_at_ms).

(** ** [request_cancel] *)

(** What a failed COMMIT of a cancel intent is reported as. *)
Definition reconcile_cancel_commit_failure (job_id : string) (commit_error : RuntimeError)
    (is_autocommit : bool) (durable : Db) : RuntimeResult JobProjection :=
  if negb is_autocommit then
    Err (unknown_commit_outcome
           "cancel-intent commit outcome remains inside an open SQLite transaction"
           commit_error None)
  else
    let intent s i := match s with
                      | Some attempt => att_termination_intent attempt == i
                      | None => false
                      end in
    match load_job_snapshot job_id durable with
    | Ok snapshot =>
        if job_resolution (snap_job snapshot) != None then Ok (snap_projection snapshot)
        else if (job_desired_state (snap_job snapshot) == JobDesiredState.Cancelled)
                && intent (snap_attempt snapshot) AttemptTerminationIntent.StopRequested
        then Ok (snap_projection snapshot)
        else if (job_desired_state (snap_job snapshot) == JobDesiredState.Run)
                && intent (snap_attempt snapshot) AttemptTerminationIntent.Natural
        then Err (set_retryable true commit_error)
        else Err (committed_reconciliation (job_job_id (snap_job snapshot))
                    "cancel-intent commit raced with another durable Job/Attempt transition")
    | Err reconcile_error =>
        Err (unknown_commit_outcome "cancel-intent commit outcome cannot be proven" commit_error
               (Some reconcile_error))
    end.

Definition commit_cancel (job_id context : string) : flow JobProjection :=
  Commit context (load_projection job_id) (reconcile_cancel_commit_failure job_id).

(** The branch of an orphaned Job: the intent is recorded, nothing is released. *)
Definition request_cancel_orphaned (job : RuntimeJobRecord) (observed_at_ms : Z)
    : tx (flow JobProjection) :=
  let job_id := job_job_id job in
  latest ← read (fun d => latest_attempt_id job_id (db_attempts d));
  attempt_id ← lift (ok_or (error_new RegistryCorrupt "orphaned Job has no Attempt"
                              (Some "jobId") false) latest);
  attempt ← load_attempt attempt_id;
  reservation ← load_reservation attempt_id;
  reject_if ((att_state attempt != AttemptState.Orphaned)
             || (res_state reservation != ReservationState.HeldOrphaned))
    (error_new ReconciliationRequired "orphaned Job is not backed by a held orphaned Attempt"
       (Some "jobId") false) ;;
  update_jobs "cannot persist orphan cancel intent" job_id
    (fun j => (job_resolution j == Some JobResolution.Orphaned)
              && (job_desired_state j != JobDesiredState.Cancelled))
    (fun j => bump_job (set_job_desired_state JobDesiredState.Cancelled j)) ;;
  update_attempts "cannot persist orphan stop intent" attempt_id
    (fun row => (att_state (row_attempt row) == AttemptState.Orphaned)
                && (att_termination_intent (row_attempt row)
                    != AttemptTerminationIntent.StopRequested))
    (on_attempt (fun a =>
       bump_attempt (set_att_termination_intent AttemptTerminationIntent.StopRequested a))) ;;
  (if (job_desired_state job != JobDesiredState.Cancelled)
      || (att_termination_intent attempt != AttemptTerminationIntent.StopRequested)
   then append_event job_id (Some attempt_id) "STOP_REQUESTED" "SYSTEM_DERIVED"
          (Some AttemptState.Orphaned) (Some AttemptState.Orphaned)
          "ORPHAN_CANCEL_INTENT_COMMITTED" (obj []) observed_at_ms
   else mret tt) ;;
  mret (commit_cancel job_id "cannot commit orphan cancel intent").

(** An accepted Attempt was never dispatched: the Job resolves at once. *)
Definition cancel_before_dispatch (job_id attempt_id : string) (observed_at_ms : Z) : tx unit :=
  let result_digest :=
    sha256_bytes ("runtime-cancel-before-dispatch" +:+ nul +:+ job_id +:+ nul +:+ attempt_id) in
  update_attempts "cannot cancel accepted Attempt" attempt_id
    (fun row => att_state (row_attempt row) == AttemptState.Accepted)
    (on_attempt (fun a =>
       bump_attempt
         (set_att_state AttemptState.Cancelled
         (set_att_termination_intent AttemptTerminationIntent.StopRequested
         (set_att_result_digest (Some result_digest)
         (set_att_finished_at_ms (Some observed_at_ms) a)))))) ;;
  release_reservation attempt_id observed_at_ms "CANCELLED_BEFORE_DISPATCH" ;;
  update_jobs "cannot resolve cancelled Job" job_id
    (fun j => job_resolution j == None)
    (fun j => bump_job (set_job_resolution (Some JobResolution.Cancelled)
                          (set_job_current_attempt_id None j))) ;;
  append_event job_id (Some attempt_id) "STOP_REQUESTED" "SYSTEM_DERIVED"
    (Some AttemptState.Accepted) (Some AttemptState.Cancelled)
    "CANCELLED_BEFORE_DISPATCH" (obj []) observed_at_ms.

Definition stoppable (s : AttemptState.t) : bool :=
  match s with
  | AttemptState.Starting | AttemptState.Running | AttemptState.Recovering => true
  | _ => false
  end.

(** A dispatched Attempt is moved to stopping; its Runner acts on that. *)
Definition stop_dispatched (job_id attempt_id : string) (state : AttemptState.t)
    (observed_at_ms : Z) : tx unit :=
  update_attempts "cannot move Attempt to stopping" attempt_id
    (fun row => stoppable (att_state (row_attempt row)))
    (on_attempt (fun a =>
       bump_attempt
         (set_att_state AttemptState.Stopping
         (set_att_termination_intent AttemptTerminationIntent.StopRequested a)))) ;;
  append_event job_id (Some attempt_id) "STOP_REQUESTED" "SYSTEM_DERIVED"
    (Some state) (Some AttemptState.Stopping) "CANCEL_INTENT_COMMITTED" (obj []) observed_at_ms.

Definition request_cancel_unresolved (job : RuntimeJobRecord) (observed_at_ms : Z)
    : tx (flow JobProjection) :=
  let job_id := job_job_id job in
  attempt_id ← lift (ok_or (error_new RegistryCorrupt "unresolved Job has no current Attempt"
                              (Some "currentAttemptId") false) (job_current_attempt_id job));
  attempt ← load_attempt attempt_id;
  reject_if (AttemptState.is_terminal (att_state attempt))
    (error_new ReconciliationRequired "Attempt is terminal but Job is unresolved"
       (Some "jobId") false) ;;
  update_jobs "cannot persist cancel intent" job_id
    (fun j => job_resolution j == None)
    (fun j => bump_job (set_job_desired_state JobDesiredState.Cancelled j)) ;;
  (if att_state attempt == AttemptState.Accepted
   then cancel_before_dispatch job_id attempt_id observed_at_ms
   else if att_state attempt != AttemptState.Stopping
   then stop_dispatched job_id attempt_id (att_state attempt) observed_at_ms
   else mret tt) ;;
  mret (commit_cancel job_id "cannot commit cancel intent").

Definition request_cancel_tx (job_id : string) (observed_at_ms : Z) : tx (flow JobProjection) :=
  job ← load_job job_id;
  match job_resolution job with
  | Some JobResolution.Orphaned => request_cancel_orphaned job observed_at_ms
  | Some _ =>
      mret (commit_or_fail "cannot close terminal cancel replay" (load_projection job_id))
  | None => request_cancel_unresolved job observed_at_ms
  end.

Definition request_cancel (io : TxIo) (job_id : string) (observed_at_ms : Z)
    : Db -> RuntimeResult JobProjection * Db :=
  immediate io "cancel-intent transaction" (request_cancel_tx job_id observed_at_ms).

(** ** [commit_terminal] *)

Definition apply_terminal (request : TerminalCommit) (a : AttemptRecord) : AttemptRecord :=
  bump_attempt
    (set_att_state (tc_state request)
    (set_att_result_digest (Some (tc_result_digest request))
    (set_att_exit_code (tc_exit_code request)
    (set_att_infrastructure_error_digest (tc_infrastructure_error_digest request)
    (set_att_finished_at_ms (Some (tc_finished_at_ms request)) a))))).

(** What a failed COMMIT of a terminal result is reported as. *)
Definition reconcile_terminal_commit_failure (request : TerminalCommit)
    (commit_error : RuntimeError) (is_autocommit : bool) (durable : Db)
    : RuntimeResult JobProjection :=
  if negb is_autocommit then
    Err (unknown_commit_outcome
           "terminal commit outcome remains inside an open SQLite transaction" commit_error None)
  else
    match query (load_attempt (tc_attempt_id request)) durable with
    | Ok current =>
        if (att_state current == tc_state request)
           && (att_result_digest current == Some (tc_result_digest request))
        then
          match load_job_snapshot (att_job_id current) durable with
          | Ok snapshot => Ok (snap_projection snapshot)
          | Err reconcile_error =>
              Err (committed_reconciliation (att_job_id current)
                ("terminal result committed but Job projection requires reconciliation: "
                 +:+ err_message reconcile_error))
          end
        else if negb (AttemptState.is_terminal (att_state current))
                && (att_row_version current == tc_expected_row_version request)
        then Err (set_retryable true commit_error)
        else Err (committed_reconciliation (att_job_id current)
                    "terminal commit raced with another durable Attempt transition")
    | Err reconcile_error =>
        Err (unknown_commit_outcome "terminal commit outcome cannot be proven" commit_error
               (Some reconcile_error))
    end.

(** The reservation of a finished Attempt: held when its process may be alive. *)
Definition settle_reservation (request : TerminalCommit) (attempt_id : string) : tx unit :=
  if tc_state request == AttemptState.Orphaned
  then hold_orphaned_reservation attempt_id (tc_finished_at_ms request) (tc_reason_code request)
  else release_reservation attempt_id (tc_finished_at_ms request) (tc_reason_code request).

(** The two events that end an Attempt and its Job. *)
Definition append_terminal_events (request : TerminalCommit) (attempt : AttemptRecord)
    (resolution : JobResolution.t) : tx unit :=
  append_event (att_job_id attempt) (Some (att_attempt_id attempt)) "PROCESS_EXITED"
    "SYSTEM_OBSERVED" (Some (att_state attempt)) (Some (tc_state request))
    (tc_reason_code request)
    (obj [("resultDigest", JStr (tc_result_digest request));
          ("exitCode", opt_num (tc_exit_code request))]) (tc_finished_at_ms request) ;;
  append_event (att_job_id attempt) (Some (att_attempt_id attempt)) "JOB_TERMINAL"
    "SYSTEM_DERIVED" (Some (att_state attempt)) (Some (tc_state request))
    (tc_reason_code request) (obj [("resolution", JStr (JobResolution.as_db resolution))])
    (tc_finished_at_ms request).

Definition commit_terminal_tx (request : TerminalCommit) : tx (flow JobProjection) :=
  attempt ← load_attempt (tc_attempt_id request);
  job ← load_job (att_job_id attempt);
  if AttemptState.is_terminal (att_state attempt) then
    if (att_result_digest attempt == Some (tc_result_digest request))
       && (att_state attempt == tc_state request)
    then mret (commit_or_fail "cannot close terminal replay" (load_projection (job_job_id job)))
    else throw (error_new ResultIdentityConflict "Attempt already has a different terminal result"
                  (Some "resultDigest") false)
  else
    reject_if (att_row_version attempt != tc_expected_row_version request)
      (state_conflict "Attempt row version changed before terminal commit") ;;
    reject_if (negb (AttemptState.can_transition_to (att_state attempt) (tc_state request)))
      (state_conflict ("invalid Attempt transition " +:+ AttemptState.debug_name (att_state attempt)
                       +:+ " -> " +:+ AttemptState.debug_name (tc_state request))) ;;
    reject_if (job_resolution job != None)
      (error_new JobAlreadyResolved "Job is already resolved" (Some "jobId") false) ;;
    changed ← update_attempts "cannot commit terminal Attempt" (tc_attempt_id request)
      (fun row => (att_row_version (row_attempt row) == tc_expected_row_version request)
                  && negb (AttemptState.is_terminal (att_state (row_attempt row))))
      (on_attempt (apply_terminal request));
    reject_if (changed != 1) (state_conflict "Attempt changed during terminal commit") ;;
    insert_artifacts attempt (tc_finished_at_ms request) "cannot register Artifact "
      (tc_artifacts request) ;;
    settle_reservation request (att_attempt_id attempt) ;;
    resolution ← lift (resolution_for_state (tc_state request));
    update_jobs "cannot resolve Job" (att_job_id attempt)
      (fun j => job_resolution j == None)
      (fun j => bump_job (set_job_resolution (Some resolution)
                            (set_job_current_attempt_id None j))) ;;
    append_terminal_events request attempt resolution ;;
    mret (Commit "cannot commit terminal transaction" (load_projection (att_job_id attempt))
            (reconcile_terminal_commit_failure request)).

Definition validate_terminal_commit (request : TerminalCommit) : RuntimeResult unit :=
  fail_if (negb (AttemptState.is_terminal (tc_state request)))
    (invalid "terminal commit requires a terminal Attempt state" "state") ;;
  validate_digest (tc_result_digest request) "resultDigest" ;;
  for_each validate_artifact_registration (tc_artifacts request).

Definition commit_terminal (io : TxIo) (request : TerminalCommit)
    : Db -> RuntimeResult JobProjection * Db :=
  checked (validate_terminal_commit request)
    (immediate io "terminal transaction" (commit_terminal_tx request)).
End lifecycle.
