(* ===== verification/Admission.v ===== *)
(** * Admission

    [runtime/registry/admission.rs]: the idempotent submission of a Job.  One
    IMMEDIATE transaction replays a known request, enforces the Workspace and
    global capacity, and otherwise inserts the Job, its first Attempt, its
    idempotency key and its reservation. *)

From S2P Require Import Prelude Text Errors Types Supervisor Platform Validation Submit Store.
From S2P Require Import Transaction.

#[local] Open Scope Z_scope.

(** The paths of [RuntimeConfig] that admission uses. *)
Record RegistryConfig : Type := { store_root : string }.

(** [RegistryConfig::attempts_root] *)
Definition attempts_root (config : RegistryConfig) : string :=
  path_join (store_root config) "attempts".
(** [RegistryConfig::attempt_path] *)
Definition attempt_path (config : RegistryConfig) (attempt_id : string) : string :=
  path_join (attempts_root config) attempt_id.
(** [RegistryConfig::admission_fence_path] *)
Definition admission_fence_path (config : RegistryConfig) : string :=
  path_join (store_root config) "admission.lock".

Definition WORKSPACE_EXECUTION_LIMIT : Z := 1.

Record PreallocatedAdmissionIds : Type := {
  pre_job_id : string;
  pre_attempt_id : string;
  pre_reservation_id : string;
}.

(** [preallocate_admission_ids], from the three UUIDs drawn. *)
Definition preallocate_admission_ids (job attempt reservation : string)
    : PreallocatedAdmissionIds :=
  {| pre_job_id := "job-" +:+ job; pre_attempt_id := "attempt-" +:+ attempt;
     pre_reservation_id := "reservation-" +:+ reservation |}.

(** What opening and share-locking the fence file did. *)
Inductive FenceIo : Type :=
  | FenceAcquired
  | FenceWouldBlock
  | FenceOpenError (text : string)
  | FenceLockError (text : string).

Definition acquire_admission_fence (config : RegistryConfig) (fence : FenceIo)
    : RuntimeResult unit :=
  match fence with
  | FenceAcquired => Ok tt
  | FenceWouldBlock => Err deployment_in_progress
  | FenceOpenError text =>
      Err (error_new RegistryUnavailable
             ("cannot open admission fence " +:+ admission_fence_path config +:+ ": " +:+ text)
             None true)
  | FenceLockError text =>
      Err (error_new RegistryUnavailable
             ("cannot acquire admission fence " +:+ admission_fence_path config +:+ ": " +:+ text)
             None true)
  end.

(** ** Capacity *)

(** [reservations r JOIN attempts a ... JOIN jobs j ... WHERE r.state IN
    ('active','held_orphaned')] *)
Definition live_joined (d : Db) : list (ReservationRecord * RuntimeJobRecord) :=
  omap (fun kv =>
          let r := row_reservation kv.2 in
          if live_reservation r then
            row ← db_attempts d !! res_attempt_id r;
            job ← db_jobs d !! att_job_id (row_attempt row);
            Some (r, job)
          else None)
       (map_to_list (db_reservations d)).

Definition in_workspace (workspace_id : option string)
    (rj : ReservationRecord * RuntimeJobRecord) : bool :=
  match workspace_id with
  | Some w => String.eqb (job_workspace_id rj.2) w
  | None => true
  end.

Definition workspace_active (workspace_id : string) (d : Db) : Z :=
  Z.of_nat (length (List.filter (in_workspace (Some workspace_id)) (live_joined d))).

(** [SELECT COUNT( * ) FROM concurrency_reservations WHERE state IN (...)] *)
Definition global_active (d : Db) : Z :=
  Z.of_nat (length (List.filter (fun kv => live_reservation (row_reservation kv.2))
                      (map_to_list (db_reservations d)))).

(** [ORDER BY r.acquired_at_ms ASC, j.job_id ASC] *)
Definition holder_le (x y : ReservationRecord * RuntimeJobRecord) : bool :=
  (res_acquired_at_ms x.1 <? res_acquired_at_ms y.1)
  || ((res_acquired_at_ms x.1 =? res_acquired_at_ms y.1)
      && String.leb (job_job_id x.2) (job_job_id y.2)).

Definition capacity_holders (workspace_id : option string) (limit : Z) (d : Db)
    : list string * list string :=
  let rows := order_by holder_le
                (List.filter (in_workspace workspace_id) (live_joined d)) in
  let selected :=
    take (Z.to_nat limit)
      (distinct [] (map (fun rj => (job_job_id rj.2, job_workspace_id rj.2)) rows)) in
  (map fst selected, distinct [] (map snd selected)).

(** ** The records of a new Job *)

Section admission.
Context `{P : Platform}.

(** The side truth of a request as it is stored: JSON text and its digest. *)
Definition digested (json : string) : string * string := (json, sha256_bytes json).

Definition execution_provider_columns (request : SubmitRequest) : option (string * string) :=
  (fun provider => digested (provider_to_json provider)) <$> sub_execution_provider request.

Definition host_dependencies_columns (request : SubmitRequest) : option (string * string) :=
  match sub_host_dependencies request with
  | [] => None
  | bindings => Some (digested (host_dependencies_to_json bindings))
  end.

Definition runtime_release_digest (request : SubmitRequest) : option string :=
  (fun release => sha256_bytes (release_to_json release)) <$> sub_runtime_release_effect request.

Definition submit_request_digest (request : SubmitRequest) : string :=
  default (sha256_bytes (submit_to_json request)) (sub_request_identity_digest request).

Definition workspace_snapshot (request : SubmitRequest) : Json :=
  let plan := sub_plan request in
  let extra (key : string) (digest : option string) :=
    match digest with Some text => [(key, JStr text)] | None => [] end in
  obj ([("workspaceId", JStr (plan_workspace_id plan));
        ("workspacePath", JStr (plan_workspace_path plan));
        ("sourceRevision", JStr (plan_source_revision plan));
        ("workspaceSourceDigest", opt_str (plan_workspace_source_digest plan))]
       ++ extra "executionProviderDigest" (snd <$> execution_provider_columns request)
       ++ extra "hostDependenciesDigest" (snd <$> host_dependencies_columns request)
       ++ extra "runtimeReleaseEffectDigest" (runtime_release_digest request)).

(** The [format!] of the digest inputs: parts separated by NUL. *)
Definition nul_joined (parts : list string) : string := join nul parts.

Definition operation_digest_of (request_digest plan_digest : string)
    (provider host release : option string) : RuntimeResult string :=
  match provider, host, release with
  | Some provider_digest, Some host_digest, None =>
      Ok (sha256_bytes (nul_joined ["runtime-operation-v6"; request_digest; plan_digest;
                                    provider_digest; host_digest]))
  | Some provider_digest, None, Some release_digest =>
      Ok (sha256_bytes (nul_joined ["runtime-operation-v5"; request_digest; plan_digest;
                                    provider_digest; release_digest]))
  | Some provider_digest, None, None =>
      Ok (sha256_bytes (nul_joined ["runtime-operation-v4"; request_digest; plan_digest;
                                    provider_digest]))
  | None, None, None =>
      Ok (sha256_bytes (nul_joined ["runtime-operation-v3"; request_digest; plan_digest]))
  | Some _, Some _, Some _ =>
      Err (invalid "Runtime Release effect and Host Dependencies cannot share one Job"
             "hostDependencies")
  | None, Some _, _ =>
      Err (invalid "Host Dependencies require a committed execution provider" "executionProvider")
  | None, None, Some _ =>
      Err (invalid "Runtime Release effect requires a committed execution provider"
             "executionProvider")
  end.

Definition submit_operation_digest (request : SubmitRequest) : RuntimeResult string :=
  operation_digest_of (submit_request_digest request)
    (sha256_bytes (plan_to_json (sub_plan request)))
    (snd <$> execution_provider_columns request)
    (snd <$> host_dependencies_columns request)
    (runtime_release_digest request).

Definition new_launch_token (attempt_id operation_digest : string) : string :=
  sha256_bytes (nul_joined ["runtime-launch-v1"; attempt_id; operation_digest]).

Definition new_job (request : SubmitRequest) (ids : PreallocatedAdmissionIds)
    (operation_digest : string) (created_at_ms : Z) : RuntimeJobRecord :=
  {| job_job_id := pre_job_id ids;
     job_principal := plan_principal (sub_plan request);
     job_client_request_id := sub_client_request_id request;
     job_request_digest := submit_request_digest request;
     job_operation_digest := operation_digest;
     job_workspace_id := plan_workspace_id (sub_plan request);
     job_workspace_snapshot_json := json_to_string (workspace_snapshot request);
     job_execution_plan_json := plan_to_json (sub_plan request);
     job_execution_plan_digest := sha256_bytes (plan_to_json (sub_plan request));
     job_created_at_ms := created_at_ms;
     job_desired_state := JobDesiredState.Run;
     job_resolution := None;
     job_current_attempt_id := Some (pre_attempt_id ids);
     job_row_version := 0 |}.

Definition new_attempt (config : RegistryConfig) (ids : PreallocatedAdmissionIds)
    (operation_digest : string) (created_at_ms : Z) : AttemptRecord :=
  {| att_attempt_id := pre_attempt_id ids;
     att_job_id := pre_job_id ids;
     att_attempt_number := 1;
     att_state := AttemptState.Accepted;
     att_termination_intent := AttemptTerminationIntent.Natural;
     att_launch_token_digest :=
       sha256_bytes (new_launch_token (pre_attempt_id ids) operation_digest);
     att_bundle_path := attempt_path config (pre_attempt_id ids);
     att_bundle_digest := None;
     att_boot_id := None;
     att_unit_name := "ordivon-" +:+ pre_attempt_id ids +:+ ".service";
     att_invocation_id := None;
     att_control_group := None;
     att_main_pid := None;
     att_process_start_identity := None;
     att_runner_start_digest := None;
     att_result_digest := None;
     att_exit_code := None;
     att_infrastructure_error_digest := None;
     att_created_at_ms := created_at_ms;
     att_started_at_ms := None;
     att_finished_at_ms := None;
     att_row_version := 0 |}.

Definition new_reservation (request : SubmitRequest) (ids : PreallocatedAdmissionIds)
    (created_at_ms : Z) : ReservationRecord :=
  {| res_reservation_id := pre_reservation_id ids;
     res_attempt_id := pre_attempt_id ids;
     res_global_limit := sub_global_limit request;
     res_state := ReservationState.Active;
     res_acquired_at_ms := created_at_ms;
     res_released_at_ms := None;
     res_release_reason := None |}.
End admission.

(** ** INSERT statements *)

Definition present {A} (o : option A) : bool := match o with Some _ => true | None => false end.

(** An INSERT whose PRIMARY KEY or UNIQUE constraint is violated fails. *)
Definition insert_unless (violated : Db -> bool) (context : string) (set : Db -> Db) : tx unit :=
  fun d =>
    if violated d then Err (constraint_error "UNIQUE constraint failed" context)
    else Ok (tt, set d).

Definition insert_job (job : RuntimeJobRecord) : tx unit :=
  insert_unless
    (fun d => present (db_jobs d !! job_job_id job)
              || any (fun j => String.eqb (job_principal j) (job_principal job)
                               && String.eqb (job_client_request_id j) (job_client_request_id job))
                   (db_jobs d))
    "cannot insert Job"
    (fun d => set_db_jobs (<[job_job_id job := job]> (db_jobs d)) d).

Definition insert_execution_provider (job_id : string) (columns : option (string * string))
    : tx unit :=
  match columns with
  | Some row =>
      insert_unless (fun d => present (db_execution_providers d !! job_id))
        "cannot bind Job execution provider"
        (fun d => set_db_execution_providers (<[job_id := row]> (db_execution_providers d)) d)
  | None => mret tt
  end.

Definition insert_host_dependencies (job_id : string) (columns : option (string * string))
    : tx unit :=
  match columns with
  | Some row =>
      insert_unless (fun d => present (db_host_dependencies d !! job_id))
        "cannot bind Job Host Dependencies"
        (fun d => set_db_host_dependencies (<[job_id := row]> (db_host_dependencies d)) d)
  | None => mret tt
  end.

Definition release_effect_row (release : RuntimeReleaseEffectBinding) (binding_digest : string)
    : ReleaseEffectRow :=
  {| rer_effect_id := rel_effect_id release;
     rer_contract := "runtime_release_v1";
     rer_request_digest := rel_request_digest release;
     rer_workspace_id := rel_workspace_id release;
     rer_commit_revision := rel_commit release;
     rer_candidate_manifest_digest := rel_candidate_manifest_digest release;
     rer_expected_tool_count := rel_expected_tool_count release;
     rer_receipt_path := rel_receipt_path release;
     rer_binding_digest := binding_digest |}.

Definition insert_release_effect (job_id : string)
    (release : option RuntimeReleaseEffectBinding) (digest : option string) : tx unit :=
  match release, digest with
  | Some release, Some binding_digest =>
      insert_unless
        (fun d => present (db_release_effects d !! job_id)
                  || any (fun r => String.eqb (rer_effect_id r) (rel_effect_id release))
                       (db_release_effects d))
        "cannot bind Job Runtime Release effect"
        (fun d => set_db_release_effects
                    (<[job_id := release_effect_row release binding_digest]>
                       (db_release_effects d)) d)
  | _, _ => mret tt
  end.

Definition insert_attempt (attempt : AttemptRecord) : tx unit :=
  insert_unless
    (fun d => present (db_attempts d !! att_attempt_id attempt)
              || any (fun row =>
                        String.eqb (att_unit_name (row_attempt row)) (att_unit_name attempt)
                        || (String.eqb (att_job_id (row_attempt row)) (att_job_id attempt)
                            && (att_attempt_number (row_attempt row)
                                =? att_attempt_number attempt)))
                   (db_attempts d))
    "cannot insert Attempt"
    (fun d => set_db_attempts
                (<[att_attempt_id attempt := {| row_attempt := attempt; row_recovery := None |}]>
                   (db_attempts d)) d).

Definition insert_idempotency_key (principal client_request_id : string) (key : IdempotencyKey)
    : tx unit :=
  insert_unless
    (fun d => present (db_idempotency_keys d !! (principal, client_request_id))
              || any (fun k => String.eqb (key_job_id k) (key_job_id key))
                   (db_idempotency_keys d))
    "cannot insert idempotency key"
    (fun d => set_db_idempotency_keys
                (<[(principal, client_request_id) := key]> (db_idempotency_keys d)) d).

Definition insert_reservation (reservation : ReservationRecord) : tx unit :=
  insert_unless
    (fun d => present (db_reservations d !! res_attempt_id reservation)
              || any (fun row => String.eqb (res_reservation_id (row_reservation row))
                                   (res_reservation_id reservation))
                   (db_reservations d))
    "cannot reserve execution capacity"
    (fun d => set_db_reservations
                (<[res_attempt_id reservation :=
                     {| row_reservation := reservation;
                        row_state_observed_at_ms := res_acquired_at_ms reservation |}]>
                   (db_reservations d)) d).

(** ** [submit_preallocated] *)

Section submit.
Context `{P : Platform}.

Definition idempotency_row (request : SubmitRequest) (d : Db) : option IdempotencyKey :=
  db_idempotency_keys d !! (plan_principal (sub_plan request), sub_client_request_id request).

(** The replay of a known (principal, clientRequestId). *)
Definition replay_submit (request : SubmitRequest) (operation_digest : string)
    (key : IdempotencyKey) : tx (flow AdmissionOutcome) :=
  existing ← load_job (key_job_id key);
  matches ← lift (match sub_request_identity_digest request with
                  | Some request_identity_digest =>
                      stored ← job_request_identity_digest existing;
                      Ok (String.eqb stored request_identity_digest)
                  | None => Ok (String.eqb (key_operation_digest key) operation_digest)
                  end);
  reject_if (negb matches) idempotency_conflict ;;
  mret (commit_or_fail "cannot close replay transaction" (fun _ => Ok (Existing existing))).

(** The Workspace limit, then the global one. *)
Definition check_capacity (request : SubmitRequest) : tx unit := fun d =>
  let workspace_id := plan_workspace_id (sub_plan request) in
  let active := workspace_active workspace_id d in
  if WORKSPACE_EXECUTION_LIMIT <=? active then
    let '(holder_job_ids, holder_workspace_ids) :=
      capacity_holders (Some workspace_id) WORKSPACE_EXECUTION_LIMIT d in
    Err (concurrency
           ("workspace execution concurrency limit reached (active=" +:+ pretty active
            +:+ ", limit=" +:+ pretty WORKSPACE_EXECUTION_LIMIT +:+ ")")
           "workspaceId"
           {| cap_scope := "workspace"; cap_active := active;
              cap_limit := WORKSPACE_EXECUTION_LIMIT; cap_workspace_id := Some workspace_id;
              cap_holder_job_ids := holder_job_ids;
              cap_holder_workspace_ids := holder_workspace_ids;
              cap_holders_truncated := WORKSPACE_EXECUTION_LIMIT <? active |})
  else
    let active := global_active d in
    let limit := sub_global_limit request in
    if limit <=? active then
      let holder_limit := Z.min limit 16 in
      let '(holder_job_ids, holder_workspace_ids) := capacity_holders None holder_limit d in
      Err (concurrency
             ("global execution concurrency limit reached (active=" +:+ pretty active
              +:+ ", limit=" +:+ pretty limit +:+ ")")
             "globalLimit"
             {| cap_scope := "global"; cap_active := active; cap_limit := limit;
                cap_workspace_id := None; cap_holder_job_ids := holder_job_ids;
                cap_holder_workspace_ids := holder_workspace_ids;
                cap_holders_truncated := holder_limit <? active |})
    else Ok (tt, d).

(** What a failed COMMIT of an admission is reported as. *)
Definition reconcile_admission_commit_failure (request : SubmitRequest)
    (operation_digest : string) (commit_error : RuntimeError) (is_autocommit : bool)
    (durable : Db) : RuntimeResult AdmissionOutcome :=
  if negb is_autocommit then
    Err (unknown_commit_outcome
           "admission commit outcome remains inside an open SQLite transaction" commit_error None)
  else
    match idempotency_row request durable with
    | Some key =>
        if negb (String.eqb (key_operation_digest key) operation_digest)
        then Err idempotency_conflict
        else
          match query (load_job (key_job_id key)) durable with
          | Ok existing => Ok (Existing existing)
          | Err reconcile_error =>
              Err (committed_reconciliation (key_job_id key)
                     ("admission committed but Job projection requires reconciliation: "
                      +:+ err_message reconcile_error))
          end
    | None => Err (set_retryable true commit_error)
    end.

Definition append_admission_events (request : SubmitRequest) (ids : PreallocatedAdmissionIds)
    (operation_digest : string) (created_at_ms : Z) : tx unit :=
  let job_id := pre_job_id ids in
  let attempt_id := Some (pre_attempt_id ids) in
  append_event job_id attempt_id "REQUEST_RECEIVED" "SYSTEM_DERIVED" None None
    "REQUEST_ACCEPTED" (obj [("requestDigest", JStr (submit_request_digest request))])
    created_at_ms ;;
  append_event job_id attempt_id "JOB_RECORD_CREATED" "SYSTEM_DERIVED" None None
    "JOB_CREATED" (obj [("operationDigest", JStr operation_digest)]) created_at_ms ;;
  append_event job_id attempt_id "ATTEMPT_CREATED" "SYSTEM_DERIVED" None
    (Some AttemptState.Accepted) "ATTEMPT_ACCEPTED" (obj [("attemptNumber", JNum 1)])
    created_at_ms.

(** The rows of a new Job, in the order of the statements. *)
Definition insert_admission (request : SubmitRequest) (admission : CreatedAdmission)
    (operation_digest : string) (created_at_ms : Z) : tx unit :=
  let job := created_job admission in
  insert_job job ;;
  insert_execution_provider (job_job_id job) (execution_provider_columns request) ;;
  insert_host_dependencies (job_job_id job) (host_dependencies_columns request) ;;
  insert_release_effect (job_job_id job) (sub_runtime_release_effect request)
    (runtime_release_digest request) ;;
  insert_attempt (created_attempt admission) ;;
  insert_idempotency_key (plan_principal (sub_plan request)) (sub_client_request_id request)
    {| key_operation_digest := operation_digest; key_job_id := job_job_id job;
       key_created_at_ms := created_at_ms |} ;;
  insert_reservation (created_reservation admission).

Definition new_admission (config : RegistryConfig) (request : SubmitRequest)
    (ids : PreallocatedAdmissionIds) (operation_digest : string) (created_at_ms : Z)
    : CreatedAdmission :=
  {| created_job := new_job request ids operation_digest created_at_ms;
     created_attempt := new_attempt config ids operation_digest created_at_ms;
     created_reservation := new_reservation request ids created_at_ms;
     created_launch_token := new_launch_token (pre_attempt_id ids) operation_digest |}.

Definition submit_tx (config : RegistryConfig) (fence : FenceIo) (request : SubmitRequest)
    (ids : PreallocatedAdmissionIds) (operation_digest : string) (created_at_ms : Z)
    : tx (flow AdmissionOutcome) :=
  key ← read (idempotency_row request);
  match key with
  | Some key => replay_submit request operation_digest key
  | None =>
      lift (acquire_admission_fence config fence) ;;
      check_capacity request ;;
      let admission := new_admission config request ids operation_digest created_at_ms in
      insert_admission request admission operation_digest created_at_ms ;;
      append_admission_events request ids operation_digest created_at_ms ;;
      mret (Commit "cannot commit admission" (fun _ => Ok (Created admission))
              (reconcile_admission_commit_failure request operation_digest))
  end.

Definition submit_preallocated (io : TxIo) (config : RegistryConfig) (fence : FenceIo)
    (now : RuntimeResult Z) (request : SubmitRequest) (ids : PreallocatedAdmissionIds) (d : Db)
    : RuntimeResult AdmissionOutcome * Db :=
  match (validate_submit request ;; created_at_ms ← now;
         operation_digest ← submit_operation_digest request;
         Ok (created_at_ms, operation_digest)) with
  | Err e => (Err e, d)
  | Ok (created_at_ms, operation_digest) =>
      with_tx io (fun e => from_sql e "cannot begin admission transaction")
        (submit_tx config fence request ids operation_digest created_at_ms) d
  end.

(** ** [find_idempotent_job] *)

Definition find_idempotent_job (io : TxIo)
    (principal client_request_id request_identity_digest : string)
    (compatible_request_identity_digest : option string) (d : Db)
    : RuntimeResult (option RuntimeJobRecord) :=
  validate_identifier principal "principal" ;;
  validate_client_request_id client_request_id "clientRequestId" ;;
  validate_request_identity_digest request_identity_digest ;;
  match compatible_request_identity_digest with
  | Some digest => validate_request_identity_digest digest
  | None => Ok tt
  end ;;
  with_connection io
    (key ← read (fun d => db_idempotency_keys d !! (principal, client_request_id));
     match key with
     | None => mret None
     | Some key =>
         job ← load_job (key_job_id key);
         stored_identity ← lift (job_request_identity_digest job);
         reject_if (negb (String.eqb stored_identity request_identity_digest)
                    && (compatible_request_identity_digest != Some stored_identity))
           idempotency_conflict ;;
         mret (Some job)
     end) d.
End submit.
