(* ===== verification/Preservation.v ===== *)
(** * Preservation

    Two ways to reason about a transaction body: inversion of its statements
    ([inv_stmt]), and relations between the database before and after that
    every statement satisfies ([tx_rel], closed under [bind]). *)

From S2P Require Import Prelude Text Errors Types Supervisor Platform Validation Submit Store.
From S2P Require Import Transaction Projection Lifecycle Admission.

#[local] Open Scope Z_scope.

(** ** Inversion of the UPDATE statements *)

(** The row, if there is one, fails the WHERE clause. *)
Definition no_match {A} (w : A -> bool) (o : option A) : Prop :=
  match o with Some x => w x = false | None => True end.

Lemma update_attempts_inv ctx k w s d n d' :
  update_attempts ctx k w s d = Ok (n, d') ->
  (n = 0 /\ d' = d /\ no_match w (db_attempts d !! k)) \/
  (exists row, db_attempts d !! k = Some row /\ w row = true /\ n = 1
     /\ attempts_terminal_no_reopen (att_state (row_attempt row))
          (att_state (row_attempt (s row))) = false
     /\ d' = set_db_attempts (<[k := s row]> (db_attempts d)) d).
Proof.
  unfold update_attempts. destruct (db_attempts d !! k) as [row | ] eqn:Hk.
  - destruct (w row) eqn:Hw.
    + destruct (attempts_terminal_no_reopen _ _) eqn:Ht; [done | ]. intros [= <- <-].
      right. exists row. eauto 10.
    + intros [= <- <-]. by left.
  - intros [= <- <-]. by left.
Qed.

Lemma update_jobs_inv ctx k w s d n d' :
  update_jobs ctx k w s d = Ok (n, d') ->
  (n = 0 /\ d' = d /\ no_match w (db_jobs d !! k)) \/
  (exists job, db_jobs d !! k = Some job /\ w job = true /\ n = 1
     /\ jobs_resolution_immutable (job_resolution job) (job_resolution (s job)) = false
     /\ d' = set_db_jobs (<[k := s job]> (db_jobs d)) d).
Proof.
  unfold update_jobs. destruct (db_jobs d !! k) as [job | ] eqn:Hk.
  - destruct (w job) eqn:Hw.
    + destruct (jobs_resolution_immutable _ _) eqn:Ht; [done | ]. intros [= <- <-].
      right. exists job. eauto 10.
    + intros [= <- <-]. by left.
  - intros [= <- <-]. by left.
Qed.

Lemma update_reservations_inv ctx k w s d n d' :
  update_reservations ctx k w s d = Ok (n, d') ->
  (n = 0 /\ d' = d /\ no_match w (db_reservations d !! k)) \/
  (exists row, db_reservations d !! k = Some row /\ w row = true /\ n = 1
     /\ reservation_check (row_reservation (s row)) = true
     /\ d' = set_db_reservations (<[k := s row]> (db_reservations d)) d).
Proof.
  unfold update_reservations. destruct (db_reservations d !! k) as [row | ] eqn:Hk.
  - destruct (w row) eqn:Hw.
    + destruct (reservation_check _) eqn:Ht; [ | done]. intros [= <- <-].
      right. exists row. eauto 10.
    + intros [= <- <-]. by left.
  - intros [= <- <-]. by left.
Qed.

Lemma load_job_inv k d j d' : load_job k d = Ok (j, d') -> db_jobs d !! k = Some j /\ d' = d.
Proof. unfold load_job. destruct (db_jobs d !! k); [by intros [= -> ->] | done]. Qed.

Lemma load_attempt_inv k d a d' :
  load_attempt k d = Ok (a, d') ->
  exists row, db_attempts d !! k = Some row /\ row_attempt row = a /\ d' = d.
Proof.
  unfold load_attempt. destruct (db_attempts d !! k) as [row | ]; [ | done].
  intros [= <- <-]. eauto.
Qed.

Lemma load_reservation_inv k d r d' :
  load_reservation k d = Ok (r, d') ->
  exists row, db_reservations d !! k = Some row /\ row_reservation row = r /\ d' = d.
Proof.
  unfold load_reservation. destruct (db_reservations d !! k) as [row | ]; [ | done].
  intros [= <- <-]. eauto.
Qed.

(** A released reservation, as [release_reservation] writes it. *)
Definition released_row (at_ms : Z) (reason : string) (row : ReservationRow) : ReservationRow :=
  {| row_reservation :=
       set_res_state ReservationState.Released
         (set_res_released_at_ms (Some at_ms)
            (set_res_release_reason (Some reason) (row_reservation row)));
     row_state_observed_at_ms := at_ms |}.

Definition held_row (at_ms : Z) (reason : string) (row : ReservationRow) : ReservationRow :=
  {| row_reservation :=
       set_res_state ReservationState.HeldOrphaned
         (set_res_released_at_ms None
            (set_res_release_reason (Some reason) (row_reservation row)));
     row_state_observed_at_ms := at_ms |}.

(** Either the reservation was live and is released, or it was released before. *)
Lemma release_reservation_inv k at_ms reason d u d' :
  release_reservation k at_ms reason d = Ok (u, d') ->
  exists row, db_reservations d !! k = Some row /\
    ((live_reservation (row_reservation row) = true
      /\ d' = set_db_reservations (<[k := released_row at_ms reason row]> (db_reservations d)) d)
     \/ (res_state (row_reservation row) = ReservationState.Released /\ d' = d)).
Proof.
  unfold release_reservation. intros H.
  apply tx_bind_Ok in H as (n & d1 & Hn & H).
  apply update_reservations_inv in Hn as [(-> & -> & Hw) | (row & Hk & Hw & -> & _ & ->)].
  - simpl in H. apply tx_bind_Ok in H as (s & d2 & Hs & H).
    destruct (db_reservations d !! k) as [row | ] eqn:Hk; [ | done].
    injection Hs as <- <-. apply reject_if_Ok in H as [Hs ->].
    exists row. split; [done | ]. right. split; [ | done].
    by destruct (res_state (row_reservation row)).
  - simpl in H. injection H as <- <-. eauto 10.
Qed.

Lemma hold_orphaned_reservation_inv k at_ms reason d u d' :
  hold_orphaned_reservation k at_ms reason d = Ok (u, d') ->
  exists row, db_reservations d !! k = Some row
    /\ live_reservation (row_reservation row) = true
    /\ d' = set_db_reservations (<[k := held_row at_ms reason row]> (db_reservations d)) d.
Proof.
  unfold hold_orphaned_reservation. intros H.
  apply tx_bind_Ok in H as (n & d1 & Hn & H). apply reject_if_Ok in H as [Hc ->].
  apply update_reservations_inv in Hn as [(-> & -> & Hw) | (row & Hk & Hw & -> & _ & ->)];
    [done | eauto 10].
Qed.

(** The two ways to settle a reservation. *)
Definition settled_row (held : bool) (at_ms : Z) (reason : string) : ReservationRow -> ReservationRow :=
  if held then held_row at_ms reason else released_row at_ms reason.

Lemma settle_inv (held : bool) k at_ms r1 r2 d u d' :
  (if held then hold_orphaned_reservation k at_ms r1 else release_reservation k at_ms r2) d
    = Ok (u, d') ->
  exists res, db_reservations d !! k = Some res /\
    ((live_reservation (row_reservation res) = true
      /\ d' = set_db_reservations
                (<[k := settled_row held at_ms (if held then r1 else r2) res]>
                   (db_reservations d)) d)
     \/ (res_state (row_reservation res) = ReservationState.Released /\ held = false /\ d' = d)).
Proof.
  destruct held; intros H.
  - apply hold_orphaned_reservation_inv in H as (res & Hres & Hl & ->). eauto 10.
  - apply release_reservation_inv in H as (res & Hres & [[Hl ->] | [Hl ->]]); eauto 10.
Qed.

Lemma append_event_inv `{P : Platform} j a ty o ps ns rc dt at_ms d u d' :
  append_event j a ty o ps ns rc dt at_ms d = Ok (u, d') ->
  d' = set_db_events
         (db_events d ++ [new_event j a ty o ps ns rc dt at_ms (db_events d)]) d.
Proof. by intros [= _ <-]. Qed.

Lemma insert_artifacts_inv a at_ms message artifacts : forall d u d',
  insert_artifacts a at_ms message artifacts d = Ok (u, d') ->
  exists m, d' = set_db_artifacts m d.
Proof.
  induction artifacts as [ | x rest IH]; intros d u d' H; cbn [insert_artifacts] in H.
  - injection H as <- <-. exists (db_artifacts d). by destruct d.
  - apply tx_bind_Ok in H as (v & d1 & H1 & H2). unfold insert_artifact in H1.
    destruct (_ || _) in H1; [done | ]. injection H1 as _ <-.
    apply IH in H2 as [m ->]. by exists m.
Qed.

Lemma insert_unless_inv violated ctx set d u d' :
  insert_unless violated ctx set d = Ok (u, d') -> violated d = false /\ d' = set d.
Proof. unfold insert_unless. destruct (violated d); [done | ]. by intros [= _ <-]. Qed.

Lemma present_false {A} (o : option A) : present o = false -> o = None.
Proof. by destruct o. Qed.

Lemma check_capacity_inv `{P : Platform} request d u d' :
  check_capacity request d = Ok (u, d') ->
  d' = d /\ workspace_active (plan_workspace_id (sub_plan request)) d <= 0
  /\ global_active d < sub_global_limit request.
Proof.
  unfold check_capacity, WORKSPACE_EXECUTION_LIMIT. intros H.
  destruct (1 <=? _) eqn:Hw; [by destruct (capacity_holders _ _ _) | ].
  destruct (_ <=? global_active d) eqn:Hg; [by destruct (capacity_holders _ _ _) | ].
  injection H as _ <-. bool_props. split; [done | lia].
Qed.

(** [inv_stmt] inverts the statements that [inv_tx] has isolated. *)
Ltac inv_stmt_step :=
  match goal with
  | H : load_attempt _ _ = Ok (_, _) |- _ =>
      let row := fresh "row" in let Hrow := fresh "Hrow" in
      apply load_attempt_inv in H as (row & Hrow & <- & ->)
  | H : load_job _ _ = Ok (_, _) |- _ =>
      let Hjob := fresh "Hjob" in apply load_job_inv in H as [Hjob ->]
  | H : load_reservation _ _ = Ok (_, _) |- _ =>
      let res := fresh "res" in let Hres := fresh "Hres" in
      apply load_reservation_inv in H as (res & Hres & <- & ->)
  | H : append_event _ _ _ _ _ _ _ _ _ _ = Ok (_, _) |- _ => apply append_event_inv in H as ->
  | H : insert_artifacts _ _ _ _ _ = Ok (_, _) |- _ =>
      let m := fresh "m" in apply insert_artifacts_inv in H as [m ->]
  | H : (if _ then hold_orphaned_reservation _ _ _ else release_reservation _ _ _) _
        = Ok (_, _) |- _ =>
      let res := fresh "res" in let Hres := fresh "Hres" in let Hlive := fresh "Hlive" in
      let Hheld := fresh "Hheld" in
      apply settle_inv in H as (res & Hres & [[Hlive ->] | (Hlive & Hheld & ->)])
  | H : insert_unless _ _ _ _ = Ok (_, _) |- _ =>
      let Hnew := fresh "Hnew" in apply insert_unless_inv in H as [Hnew ->]
  | H : release_reservation _ _ _ _ = Ok (_, _) |- _ =>
      let res := fresh "res" in let Hres := fresh "Hres" in let Hlive := fresh "Hlive" in
      apply release_reservation_inv in H as (res & Hres & [[Hlive ->] | [Hlive ->]])
  | H : hold_orphaned_reservation _ _ _ _ = Ok (_, _) |- _ =>
      let res := fresh "res" in let Hres := fresh "Hres" in let Hlive := fresh "Hlive" in
      apply hold_orphaned_reservation_inv in H as (res & Hres & Hlive & ->)
  end.
Ltac inv_stmt := repeat (first [inv_tx_step | inv_stmt_step]; subst).

(** [inv_update] also inverts the UPDATEs, one case for "no row changed" and
    one for "one row changed"; a guard on the count rules out the first. *)
Ltac inv_update_step :=
  match goal with
  | H : update_attempts _ _ _ _ _ = Ok (_, _) |- _ =>
      let row := fresh "row" in let Hrow := fresh "Hrow" in
      let Hw := fresh "Hw" in let Ht := fresh "Htrigger" in
      apply update_attempts_inv in H as [(-> & -> & Hw) | (row & Hrow & Hw & -> & Ht & ->)]
  | H : update_jobs _ _ _ _ _ = Ok (_, _) |- _ =>
      let job := fresh "job" in let Hjob := fresh "Hjob" in
      let Hw := fresh "Hw" in let Ht := fresh "Htrigger" in
      apply update_jobs_inv in H as [(-> & -> & Hw) | (job & Hjob & Hw & -> & Ht & ->)]
  | H : (if ?c then _ else _) _ = Ok (_, _) |- _ => destruct c eqn:?
  | H : (0 != 1) = false |- _ => discriminate H
  | H : (1 != 1) = false |- _ => clear H
  end.
Ltac inv_update :=
  repeat (first [inv_tx_step | inv_stmt_step | inv_update_step]; subst).

(** ** Relations preserved by every statement *)

Definition tx_rel {A} (R : Db -> Db -> Prop) (m : tx A) : Prop :=
  forall d a d', m d = Ok (a, d') -> R d d'.

Section rel.
Context (R : Db -> Db -> Prop) `{HR : !PreOrder R}.

Lemma tx_rel_ret {A} (a : A) : tx_rel R (mret a).
Proof. intros d b d' H. injection H as <- <-. done. Qed.

Lemma tx_rel_bind {A B} (m : tx A) (f : A -> tx B) :
  tx_rel R m -> (forall a, tx_rel R (f a)) -> tx_rel R (m ≫= f).
Proof.
  intros Hm Hf d b d' H. apply tx_bind_Ok in H as (a & d1 & H1 & H2).
  etrans; [by eapply Hm | by eapply Hf].
Qed.

Lemma tx_rel_throw {A} e : tx_rel R (throw (A := A) e).
Proof. by intros d a d' H. Qed.

Lemma tx_rel_lift {A} (m : RuntimeResult A) : tx_rel R (lift m).
Proof. intros d a d' H. by apply lift_Ok in H as [_ ->]. Qed.

Lemma tx_rel_reject c e : tx_rel R (reject_if c e).
Proof. intros d a d' H. by apply reject_if_Ok in H as [_ ->]. Qed.

Lemma tx_rel_read {A} (f : Db -> A) : tx_rel R (read f).
Proof. intros d a d' H. by injection H as _ ->. Qed.

Lemma tx_rel_load_job k : tx_rel R (load_job k).
Proof. intros d a d' H. by apply load_job_inv in H as [_ ->]. Qed.

Lemma tx_rel_load_attempt k : tx_rel R (load_attempt k).
Proof. intros d a d' H. by apply load_attempt_inv in H as (_ & _ & _ & ->). Qed.

Lemma tx_rel_load_reservation k : tx_rel R (load_reservation k).
Proof. intros d a d' H. by apply load_reservation_inv in H as (_ & _ & _ & ->). Qed.

Lemma tx_rel_if {A} (c : bool) (m1 m2 : tx A) :
  tx_rel R m1 -> tx_rel R m2 -> tx_rel R (if c then m1 else m2).
Proof. by destruct c. Qed.

(** What a guard has excluded holds for the rest of the body. *)
Lemma tx_rel_guard {A} c e (f : unit -> tx A) :
  (c = false -> tx_rel R (f tt)) -> tx_rel R (reject_if c e ≫= f).
Proof.
  intros Hf d a d' H. apply tx_bind_Ok in H as ([] & d1 & Hc & H).
  apply reject_if_Ok in Hc as [Hc ->]. by eapply Hf.
Qed.

Lemma tx_rel_lift_bind {A B} (m : RuntimeResult A) (f : A -> tx B) :
  (forall a, m = Ok a -> tx_rel R (f a)) -> tx_rel R (lift m ≫= f).
Proof.
  intros Hf d b d' H. apply tx_bind_Ok in H as (a & d1 & Hm & H).
  apply lift_Ok in Hm as [Hm ->]. by eapply Hf.
Qed.

Lemma tx_rel_update_attempts ctx k w s :
  (forall d row, db_attempts d !! k = Some row -> w row = true ->
     attempts_terminal_no_reopen (att_state (row_attempt row))
       (att_state (row_attempt (s row))) = false ->
     R d (set_db_attempts (<[k := s row]> (db_attempts d)) d)) ->
  tx_rel R (update_attempts ctx k w s).
Proof.
  intros Hs d n d' H. apply update_attempts_inv in H as [(_ & -> & _) | H]; [done | ].
  destruct H as (row & Hk & Hw & _ & Ht & ->). eauto.
Qed.

Lemma tx_rel_update_jobs ctx k w s :
  (forall d job, db_jobs d !! k = Some job -> w job = true ->
     jobs_resolution_immutable (job_resolution job) (job_resolution (s job)) = false ->
     R d (set_db_jobs (<[k := s job]> (db_jobs d)) d)) ->
  tx_rel R (update_jobs ctx k w s).
Proof.
  intros Hs d n d' H. apply update_jobs_inv in H as [(_ & -> & _) | H]; [done | ].
  destruct H as (row & Hk & Hw & _ & Ht & ->). eauto.
Qed.
End rel.

(** ** Frames

    A relation that only looks at Jobs, Attempts and events holds for every
    statement that leaves these alone. *)
Class Frame (R : Db -> Db -> Prop) : Prop := {
  frame_preorder :: PreOrder R;
  frame_same d d' : db_jobs d' = db_jobs d -> db_attempts d' = db_attempts d ->
    db_events d' = db_events d -> R d d';
}.

Section frame.
Context `{P : Platform} (R : Db -> Db -> Prop) `{HF : !Frame R}.

Lemma tx_frame_release k at_ms reason : tx_rel R (release_reservation k at_ms reason).
Proof.
  intros d u d' H. apply release_reservation_inv in H as (res & _ & [[_ ->] | [_ ->]]);
    by apply frame_same.
Qed.

Lemma tx_frame_hold k at_ms reason : tx_rel R (hold_orphaned_reservation k at_ms reason).
Proof.
  intros d u d' H. apply hold_orphaned_reservation_inv in H as (res & _ & _ & ->).
  by apply frame_same.
Qed.

Lemma tx_frame_artifacts a at_ms message artifacts :
  tx_rel R (insert_artifacts a at_ms message artifacts).
Proof. intros d u d' H. apply insert_artifacts_inv in H as [m ->]. by apply frame_same. Qed.

Lemma tx_frame_insert_owner k j g : tx_rel R (insert_supervisor_owner k j g).
Proof.
  intros d u d' H. unfold insert_supervisor_owner in H.
  destruct (db_supervisor_owners d !! k); [done | ]. injection H as _ <-. by apply frame_same.
Qed.

Lemma tx_frame_check_capacity request : tx_rel R (check_capacity request).
Proof. intros d u d' H. by apply check_capacity_inv in H as [-> _]. Qed.

Lemma tx_frame_insert violated ctx set :
  (forall d, db_jobs (set d) = db_jobs d /\ db_attempts (set d) = db_attempts d
     /\ db_events (set d) = db_events d) ->
  tx_rel R (insert_unless violated ctx set).
Proof.
  intros Hs d u d' H. apply insert_unless_inv in H as [_ ->]. by apply frame_same; apply Hs.
Qed.
End frame.

#[export] Hint Resolve tx_frame_release tx_frame_hold tx_frame_artifacts tx_frame_insert_owner
  tx_frame_check_capacity : ordivon.
#[export] Hint Extern 0 (Frame _) => typeclasses eauto : ordivon.
#[export] Hint Extern 1 (tx_rel _ (insert_unless _ _ _)) => 
  apply tx_frame_insert; [apply _ | done] : ordivon.

(** Tables of an updated database. *)
Ltac db_simpl :=
  cbn [db_jobs db_attempts db_idempotency_keys db_reservations db_events db_artifacts
       db_execution_providers db_host_dependencies db_release_effects db_supervisor_owners
       set_db_jobs set_db_attempts set_db_idempotency_keys set_db_reservations set_db_events
       set_db_artifacts set_db_execution_providers set_db_host_dependencies
       set_db_release_effects set_db_supervisor_owners] in *.

(** [tx_rel_auto R] descends through the structure of a body; the statements
    that write are left to the hint database. *)
Ltac tx_rel_auto :=
  repeat first
    [ solve [auto 4 with ordivon nocore]
    | apply tx_rel_ret; apply _
    | apply tx_rel_throw
    | apply tx_rel_lift; apply _
    | apply tx_rel_reject; apply _
    | apply tx_rel_read; apply _
    | apply tx_rel_load_job; apply _
    | apply tx_rel_load_attempt; apply _
    | apply tx_rel_load_reservation; apply _
    | apply tx_rel_guard; intros ?
    | apply tx_rel_lift_bind; intros ? ?
    | apply tx_rel_bind; [apply _ | | intros ?]
    | apply tx_rel_if
    | match goal with |- tx_rel _ (match ?x with _ => _ end) => destruct x end ].

(** A run of a body relates the databases when the body does. *)
Ltac tx_run_rel :=
  match goal with
  | H : ?m ?d = Ok (?a, ?d') |- ?R ?d ?d' =>
      let Hr := fresh "Hrel" in
      assert (Hr : tx_rel R m); [clear H | exact (Hr d a d' H)]
  end.
