(* ===== verification/Recovery.v ===== *)
(** * Recovery

    [runtime/registry/recovery.rs] and [reconciliation.rs], with the admin
    repair transactions of [runtime/registry.rs]: the maintenance scans, the
    late results of orphaned Attempts, the convergence of terminal
    reservations, the reconciliation marks, and the operator's repair batch. *)

From S2P Require Import Prelude Text Errors Types Supervisor Platform Validation Submit Store.
From S2P Require Import Transaction Projection Lifecycle.

#[local] Open Scope Z_scope.

(** A read on the open connection decides whether to begin the transaction.
    The read sees [d0]; another process may write before the transaction
    begins on [d]. *)
Definition precheck {R} (io : TxIo) (pre : tx (option R)) (op : Db -> RuntimeResult R * Db)
    (d0 d : Db) : RuntimeResult R * Db :=
  match io_open io with
  | Some e => (Err e, d)
  | None =>
      match query pre d0 with
      | Err e => (Err e, d)
      | Ok (Some r) => (Ok r, d)
      | Ok None => op d
      end
  end.

Lemma precheck_invariant {R} (I : Db -> Prop) io (pre : tx (option R)) op d0 d :
  I d -> I (snd (op d)) -> I (snd (precheck io pre op d0 d)).
Proof.
  unfold precheck. intros Hd Hop. destruct (io_open io); [done | ].
  by destruct (query pre d0) as [[r | ] | e].
Qed.

(** ** Maintenance scans *)

Definition reservation_state (d : Db) (attempt_id : string) : option ReservationState.t :=
  (fun row => res_state (row_reservation row)) <$> db_reservations d !! attempt_id.

Definition held_orphan (d : Db) (kv : string * AttemptRow) : bool :=
  (att_state (row_attempt kv.2) == AttemptState.Orphaned)
  && (reservation_state d kv.1 == Some ReservationState.HeldOrphaned).

Definition recovery_active (row : AttemptRow) : bool :=
  match row_recovery row with Some r => rec_required r | None => false end.

(** The WHERE of [list_maintenance_attempts_bounded]. *)
Definition needs_maintenance (d : Db) (kv : string * AttemptRow) : bool :=
  negb (AttemptState.is_terminal (att_state (row_attempt kv.2)))
  || held_orphan d kv || recovery_active kv.2.

(** Its ORDER BY: recovery marks first, then held orphans, then by age. *)
Definition maintenance_rank (d : Db) (kv : string * AttemptRow) : Z :=
  if recovery_active kv.2 then 0 else if held_orphan d kv then 1 else 2.

Definition age_le (x y : string * AttemptRow) : bool :=
  let cx := att_created_at_ms (row_attempt x.2) in
  let cy := att_created_at_ms (row_attempt y.2) in
  (cx <? cy) || ((cx =? cy) && String.leb x.1 y.1).

Definition maintenance_le (d : Db) (x y : string * AttemptRow) : bool :=
  (maintenance_rank d x <? maintenance_rank d y)
  || ((maintenance_rank d x =? maintenance_rank d y) && age_le x y).

Definition maintenance_rows (limit : Z) (d : Db) : list AttemptRecord :=
  map (fun kv => row_attempt kv.2)
    (take (Z.to_nat limit)
       (order_by (maintenance_le d)
          (List.filter (needs_maintenance d) (map_to_list (db_attempts d))))).

Definition list_maintenance_attempts_bounded (io : TxIo) (limit : Z) (d : Db)
    : RuntimeResult (list AttemptRecord) :=
  fail_if (limit =? 0) (invalid "limit must be positive" "limit") ;;
  with_connection io (read (maintenance_rows limit)) d.

Definition list_held_orphaned_attempts (io : TxIo) (d : Db)
    : RuntimeResult (list AttemptRecord) :=
  with_connection io
    (read (fun d => map (fun kv => row_attempt kv.2)
       (order_by age_le (List.filter (held_orphan d) (map_to_list (db_attempts d)))))) d.

(** ** [recover_orphaned_terminal] *)

Definition conclusive (s : AttemptState.t) : bool :=
  match s with
  | AttemptState.Succeeded | AttemptState.Failed | AttemptState.TimedOut
  | AttemptState.Cancelled | AttemptState.Lost => true
  | _ => false
  end.

Section recovery.
Context `{P : Platform}.

Definition recover_orphaned_terminal_tx (request : TerminalCommit) : tx (flow JobProjection) :=
  attempt ← load_attempt (tc_attempt_id request);
  job ← load_job (att_job_id attempt);
  reservation ← load_reservation (att_attempt_id attempt);
  reject_if ((att_state attempt != AttemptState.Orphaned)
             || (job_resolution job != Some JobResolution.Orphaned)
             || (res_state reservation != ReservationState.HeldOrphaned))
    (error_new OrphanRemediationDenied
       "Attempt, Job, or reservation changed before Runner-result recovery"
       (Some "attemptId") false) ;;
  reject_if (att_row_version attempt != tc_expected_row_version request)
    (state_conflict "Attempt row version changed before orphan recovery") ;;
  changed ← update_attempts "cannot recover orphaned Attempt" (tc_attempt_id request)
    (fun row => (att_row_version (row_attempt row) == tc_expected_row_version request)
                && (att_state (row_attempt row) == AttemptState.Orphaned))
    (on_attempt (apply_terminal request));
  reject_if (changed != 1) (state_conflict "Attempt changed during orphan recovery") ;;
  insert_artifacts attempt (tc_finished_at_ms request) "cannot register recovered Artifact "
    (tc_artifacts request) ;;
  release_reservation (att_attempt_id attempt) (tc_finished_at_ms request)
    (tc_reason_code request) ;;
  resolution ← lift (resolution_for_state (tc_state request));
  update_jobs "cannot correct orphaned Job resolution" (att_job_id attempt)
    (fun j => job_resolution j == Some JobResolution.Orphaned)
    (fun j => bump_job (set_job_resolution (Some resolution) j)) ;;
  append_event (att_job_id attempt) (Some (att_attempt_id attempt)) "RUNNER_RESULT_RECOVERED"
    "SYSTEM_OBSERVED" (Some AttemptState.Orphaned) (Some (tc_state request))
    (tc_reason_code request)
    (obj [("resultDigest", JStr (tc_result_digest request));
          ("exitCode", opt_num (tc_exit_code request))]) (tc_finished_at_ms request) ;;
  append_event (att_job_id attempt) (Some (att_attempt_id attempt)) "JOB_RESOLUTION_CORRECTED"
    "SYSTEM_DERIVED" (Some AttemptState.Orphaned) (Some (tc_state request))
    (tc_reason_code request) (obj [("resolution", JStr (JobResolution.as_db resolution))])
    (tc_finished_at_ms request) ;;
  mret (commit_or_fail "cannot commit orphan recovery" (load_projection (att_job_id attempt))).

Definition recover_orphaned_terminal (io : TxIo) (request : TerminalCommit)
    : Db -> RuntimeResult JobProjection * Db :=
  checked (fail_if (negb (conclusive (tc_state request)))
             (invalid "orphan recovery requires a conclusive terminal state" "state") ;;
           validate_digest (tc_result_digest request) "resultDigest" ;;
           for_each validate_artifact_registration (tc_artifacts request))
    (immediate io "orphan recovery transaction" (recover_orphaned_terminal_tx request)).

(** ** Terminal reservations *)

Definition terminal_reservation_target (attempt : AttemptRecord) (job : RuntimeJobRecord)
    : RuntimeResult ReservationState.t :=
  fail_if (negb (AttemptState.is_terminal (att_state attempt)))
    (error_new ReconciliationRequired
       "Attempt is not terminal while repairing terminal reservation" (Some "attemptId") false) ;;
  expected_resolution ← resolution_for_state (att_state attempt);
  let evidence_complete :=
    (att_result_digest attempt != None)
    && (att_finished_at_ms attempt != None)
    && (job_resolution job == Some expected_resolution)
    && (job_current_attempt_id job == None) in
  fail_if (negb evidence_complete)
    (error_new ReconciliationRequired
       "terminal Attempt lacks complete result, Job resolution, or current-Attempt evidence"
       (Some "attemptId") false) ;;
  Ok (if att_state attempt == AttemptState.Orphaned then ReservationState.HeldOrphaned
      else ReservationState.Released).

Definition apply_reservation_target (target : ReservationState.t) (attempt_id : string)
    (observed_at_ms : Z) (held_reason released_reason : string) : tx unit :=
  if target == ReservationState.HeldOrphaned
  then hold_orphaned_reservation attempt_id observed_at_ms held_reason
  else release_reservation attempt_id observed_at_ms released_reason.

(** The loads and the target, shared by the pre-check and the transaction. *)
Definition load_terminal_target (attempt_id : string)
    : tx (AttemptRecord * ReservationRecord * ReservationState.t) :=
  attempt ← load_attempt attempt_id;
  job ← load_job (att_job_id attempt);
  reservation ← load_reservation attempt_id;
  target ← lift (terminal_reservation_target attempt job);
  mret (attempt, reservation, target).

Definition converge_terminal_reservation_tx (attempt_id : string) (observed_at_ms : Z)
    : tx (flow bool) :=
  loaded ← load_terminal_target attempt_id;
  let '(attempt, reservation, target) := loaded in
  if res_state reservation == target
  then mret (commit_or_fail "cannot close converged terminal reservation" (fun _ => Ok false))
  else
    apply_reservation_target target attempt_id observed_at_ms
      "TERMINAL_ORPHAN_RESERVATION_CONVERGED" "TERMINAL_RESERVATION_CONVERGED" ;;
    append_event (att_job_id attempt) (Some attempt_id) "TERMINAL_RESERVATION_CONVERGED"
      "SYSTEM_DERIVED" (Some (att_state attempt)) (Some (att_state attempt))
      "TERMINAL_RESERVATION_CONVERGED"
      (obj [("previousReservationState", JStr (ReservationState.as_db (res_state reservation)));
            ("newReservationState", JStr (ReservationState.as_db target))]) observed_at_ms ;;
    mret (commit_or_fail "cannot commit terminal reservation convergence" (fun _ => Ok true)).

Definition converge_terminal_reservation (io : TxIo) (attempt_id : string) (observed_at_ms : Z)
    : Db -> Db -> RuntimeResult bool * Db :=
  precheck io
    (loaded ← load_terminal_target attempt_id;
     mret (if res_state loaded.1.2 == loaded.2 then Some false else None))
    (immediate io "terminal reservation convergence"
       (converge_terminal_reservation_tx attempt_id observed_at_ms)).

(** ** Reconciliation marks *)

Definition failure_evidence_digest (attempt_id : string) (error : RuntimeError) : string :=
  sha256_bytes (join nul ["runtime-reconciliation-failure"; attempt_id;
                          as_str (err_code error); err_message error]).

Definition record_reconciliation_failure_tx (attempt_id : string) (error : RuntimeError)
    (observed_at_ms : Z) : tx (flow unit) :=
  current ← load_attempt attempt_id;
  update_attempts "cannot record recovery state" (att_attempt_id current) (fun _ => true)
    (on_recovery (Some {| rec_required := true;
                          rec_reason_code := as_str (err_code error);
                          rec_evidence_digest := failure_evidence_digest attempt_id error;
                          rec_observed_at_ms := observed_at_ms |})) ;;
  append_event (att_job_id current) (Some (att_attempt_id current)) "RECONCILIATION_FAILED"
    "SYSTEM_OBSERVED" (Some (att_state current)) None (as_str (err_code error))
    (obj [("message", JStr (err_message error)); ("field", opt_str (err_field error));
          ("retryable", JBool (err_retryable error))]) observed_at_ms ;;
  mret (commit_or_fail "cannot commit reconciliation failure" (fun _ => Ok tt)).

(** The recorded mark of an Attempt. *)
Definition recovery_mark (attempt_id : string) (d : Db) : option RecoveryColumns :=
  db_attempts d !! attempt_id ≫= row_recovery.

Definition record_reconciliation_failure (io : TxIo) (attempt : AttemptRecord)
    (error : RuntimeError) (observed_at_ms : Z) : Db -> Db -> RuntimeResult unit * Db :=
  let attempt_id := att_attempt_id attempt in
  precheck io
    (existing ← read (recovery_mark attempt_id);
     mret (match existing with
           | Some r =>
               if rec_required r && String.eqb (rec_reason_code r) (as_str (err_code error))
                  && String.eqb (rec_evidence_digest r) (failure_evidence_digest attempt_id error)
               then Some tt else None
           | None => None
           end))
    (immediate io "reconciliation failure transaction"
       (record_reconciliation_failure_tx attempt_id error observed_at_ms)).

Definition clear_reconciliation_failure_tx (attempt_id : string) (observed_at_ms : Z)
    : tx (flow unit) :=
  current ← load_attempt attempt_id;
  changed ← update_attempts "cannot clear recovery condition" attempt_id recovery_active
    (on_recovery (Some {| rec_required := false;
                          rec_reason_code := "RECONCILIATION_CONVERGED";
                          rec_evidence_digest :=
                            sha256_bytes (join nul ["runtime-reconciliation-converged"; attempt_id;
                                                    pretty observed_at_ms]);
                          rec_observed_at_ms := observed_at_ms |}));
  (if 0 <? changed
   then append_event (att_job_id current) (Some (att_attempt_id current))
          "RECONCILIATION_CONVERGED" "SYSTEM_OBSERVED" (Some (att_state current))
          (Some (att_state current)) "RECONCILIATION_CONVERGED" (obj []) observed_at_ms
   else mret tt) ;;
  mret (commit_or_fail "cannot commit reconciliation success" (fun _ => Ok tt)).

Definition clear_reconciliation_failure (io : TxIo) (attempt_id : string) (observed_at_ms : Z)
    : Db -> Db -> RuntimeResult unit * Db :=
  precheck io
    (existing ← read (recovery_mark attempt_id);
     mret (match existing with
           | Some r => if rec_required r then None else Some tt
           | None => Some tt
           end))
    (immediate io "reconciliation success transaction"
       (clear_reconciliation_failure_tx attempt_id observed_at_ms)).
End recovery.
