(* ===== verification/AdminRepair.v ===== *)
(** * Invariant inspection and administrative repair

    [inspect_runtime_invariants_connection] of [runtime/registry.rs] and the
    operator's repair batch: every operation of the batch runs in one
    transaction, which commits only when the inspection then finds nothing. *)

From S2P Require Import Prelude Text Errors Types Supervisor Platform Validation Submit Store.
From S2P Require Import Transaction Projection Lifecycle Recovery.

#[local] Open Scope Z_scope.

(** ** The seven queries *)

Definition resolution_matches (resolution : JobResolution.t) (state : AttemptState.t) : bool :=
  match resolution with
  | JobResolution.Succeeded => state == AttemptState.Succeeded
  | JobResolution.Failed => state == AttemptState.Failed
  | JobResolution.TimedOut => state == AttemptState.TimedOut
  | JobResolution.Cancelled => state == AttemptState.Cancelled
  | JobResolution.Lost => state == AttemptState.Lost
  | JobResolution.Orphaned => state == AttemptState.Orphaned
  end.

(** [collect]: one violation for each row of the query. *)
Definition collect (rows : list (option string * option string)) (code detail : string)
    : list RuntimeInvariantViolation :=
  map (fun ids => {| riv_code := code; riv_job_id := ids.1; riv_attempt_id := ids.2;
                     riv_detail := detail |}) rows.

Definition jobs_where (f : RuntimeJobRecord -> bool) (d : Db) : list RuntimeJobRecord :=
  List.filter f (map snd (map_to_list (db_jobs d))).

Definition attempts_where (f : AttemptRecord -> bool) (d : Db) : list AttemptRecord :=
  List.filter f (map (fun kv => row_attempt kv.2) (map_to_list (db_attempts d))).

Definition unresolved_without_current (d : Db) : list (option string * option string) :=
  map (fun j => (Some (job_job_id j), None))
    (jobs_where (fun j => (job_resolution j == None) && (job_current_attempt_id j == None)) d).

Definition resolved_with_current (d : Db) : list (option string * option string) :=
  map (fun j => (Some (job_job_id j), job_current_attempt_id j))
    (jobs_where (fun j => (job_resolution j != None) && (job_current_attempt_id j != None)) d).

Definition unresolved_on_terminal (d : Db) : list (option string * option string) :=
  omap (fun j =>
          attempt_id ← job_current_attempt_id j;
          row ← db_attempts d !! attempt_id;
          if AttemptState.is_terminal (att_state (row_attempt row))
          then Some (Some (job_job_id j), Some attempt_id) else None)
    (jobs_where (fun j => job_resolution j == None) d).

(** [NOT EXISTS (SELECT 1 FROM attempts newer ...)] *)
Definition is_latest (a : AttemptRecord) (d : Db) : bool :=
  negb (any (fun row => String.eqb (att_job_id (row_attempt row)) (att_job_id a)
                        && (att_attempt_number a <? att_attempt_number (row_attempt row)))
          (db_attempts d)).

Definition resolution_mismatch (d : Db) : list (option string * option string) :=
  omap (fun a =>
          job ← db_jobs d !! att_job_id a;
          resolution ← job_resolution job;
          if is_latest a d && negb (resolution_matches resolution (att_state a))
          then Some (Some (job_job_id job), Some (att_attempt_id a)) else None)
    (attempts_where (fun _ => true) d).

Definition reservation_mismatch (state : AttemptState.t -> bool) (expected : ReservationState.t)
    (d : Db) : list (option string * option string) :=
  omap (fun a =>
          row ← db_reservations d !! att_attempt_id a;
          if res_state (row_reservation row) == expected then None
          else Some (Some (att_job_id a), Some (att_attempt_id a)))
    (attempts_where (fun a => state (att_state a)) d).

Definition terminal_without_evidence (d : Db) : list (option string * option string) :=
  map (fun a => (Some (att_job_id a), Some (att_attempt_id a)))
    (attempts_where (fun a => AttemptState.is_terminal (att_state a)
                              && ((att_result_digest a == None) || (att_finished_at_ms a == None)))
       d).

Definition inspect_runtime_invariants_connection (d : Db) : list RuntimeInvariantViolation :=
  collect (unresolved_without_current d) "UNRESOLVED_JOB_WITHOUT_CURRENT_ATTEMPT"
    "unresolved Job must reference its current Attempt"
  ++ collect (resolved_with_current d) "RESOLVED_JOB_WITH_CURRENT_ATTEMPT"
       "resolved Job must not retain current_attempt_id"
  ++ collect (unresolved_on_terminal d) "UNRESOLVED_JOB_POINTS_TO_TERMINAL_ATTEMPT"
       "unresolved Job must not reference a terminal Attempt"
  ++ collect (resolution_mismatch d) "JOB_RESOLUTION_ATTEMPT_STATE_MISMATCH"
       "resolved Job must agree with its latest terminal Attempt"
  ++ collect (reservation_mismatch conclusive ReservationState.Released d)
       "TERMINAL_ATTEMPT_HOLDS_RESERVATION"
       "non-orphan terminal Attempt must release its reservation"
  ++ collect (reservation_mismatch (fun s => s == AttemptState.Orphaned)
                ReservationState.HeldOrphaned d)
       "ORPHAN_RESERVATION_NOT_HELD" "orphaned Attempt must hold its reservation"
  ++ collect (terminal_without_evidence d) "TERMINAL_ATTEMPT_MISSING_EVIDENCE"
       "terminal Attempt must retain result digest and finish time".

(** ** The repair batch *)

Record AdminRepairAudit : Type := {
  aud_report_fingerprint : string;
  aud_case_fingerprint : string;
  aud_snapshot_path : string;
  aud_snapshot_digest : string;
  aud_principal : string;
  aud_action : string;
  aud_observed_at_ms : Z;
  aud_expected_job_row_version : Z;
  aud_expected_current_attempt_id : option string;
  aud_expected_reservation_state : ReservationState.t;
}.

Inductive AdminRepairOperation : Type :=
  | Terminal (terminal : TerminalCommit) (audit : AdminRepairAudit)
  | Reservation (attempt_id : string) (expected_attempt_row_version : Z)
      (audit : AdminRepairAudit).

Section repair.
Context `{P : Platform}.

Definition plan_changed : RuntimeError :=
  error_new ReconciliationRequired "Runtime state changed after the Doctor plan was created"
    (Some "caseFingerprint") false.

Definition audit_detail (audit : AdminRepairAudit) (extra : list (string * Json)) : Json :=
  obj ([("action", JStr (aud_action audit));
        ("principal", JStr (aud_principal audit));
        ("reportFingerprint", JStr (aud_report_fingerprint audit));
        ("caseFingerprint", JStr (aud_case_fingerprint audit));
        ("snapshotPath", JStr (aud_snapshot_path audit));
        ("snapshotDigest", JStr (aud_snapshot_digest audit))] ++ extra).

Definition repair_allowed (from to : AttemptState.t) : bool :=
  (((from == AttemptState.Lost) || (from == AttemptState.Orphaned)) && runner_terminal to)
  || ((from == AttemptState.Lost) && (to == AttemptState.Lost)).

Definition append_repair_events (attempt : AttemptRecord) (request : TerminalCommit)
    (audit : AdminRepairAudit) : tx unit :=
  let detail := audit_detail audit [("resultDigest", JStr (tc_result_digest request));
                                    ("exitCode", opt_num (tc_exit_code request))] in
  append_event (att_job_id attempt) (Some (att_attempt_id attempt)) "ADMIN_TERMINAL_REPAIR"
    "SYSTEM_OBSERVED" (Some (att_state attempt)) (Some (tc_state request))
    (tc_reason_code request) detail (aud_observed_at_ms audit) ;;
  append_event (att_job_id attempt) (Some (att_attempt_id attempt))
    "JOB_RESOLUTION_ADMIN_CORRECTED" "SYSTEM_DERIVED" (Some (att_state attempt))
    (Some (tc_state request)) (tc_reason_code request) detail (aud_observed_at_ms audit).

Definition repair_terminal_admin_transaction (request : TerminalCommit)
    (audit : AdminRepairAudit) : tx unit :=
  lift (validate_digest (tc_result_digest request) "resultDigest") ;;
  lift (for_each validate_artifact_registration (tc_artifacts request)) ;;
  attempt ← load_attempt (tc_attempt_id request);
  job ← load_job (att_job_id attempt);
  reservation ← load_reservation (att_attempt_id attempt);
  reject_if (negb (repair_allowed (att_state attempt) (tc_state request)))
    (error_new OrphanRemediationDenied
       "administrative repair cannot rewrite this terminal state" (Some "attemptId") false) ;;
  source_resolution ← lift (resolution_for_state (att_state attempt));
  reject_if ((att_row_version attempt != tc_expected_row_version request)
             || (job_row_version job != aud_expected_job_row_version audit)
             || (job_resolution job != Some source_resolution)
             || (job_current_attempt_id job != aud_expected_current_attempt_id audit)
             || (res_state reservation != aud_expected_reservation_state audit))
    plan_changed ;;
  changed ← update_attempts "cannot repair terminal Attempt" (tc_attempt_id request)
    (fun row => (att_row_version (row_attempt row) == tc_expected_row_version request)
                && (att_state (row_attempt row) == att_state attempt))
    (on_attempt (apply_terminal request));
  reject_if (changed != 1) (state_conflict "Attempt changed during administrative repair") ;;
  insert_artifacts attempt (tc_finished_at_ms request)
    "cannot register administrative repair Artifact " (tc_artifacts request) ;;
  update_attempts "cannot record administrative recovery convergence" (att_attempt_id attempt)
    (fun _ => true)
    (on_recovery (Some {| rec_required := false;
                          rec_reason_code := "ADMIN_REPAIR_COMPLETED";
                          rec_evidence_digest := aud_case_fingerprint audit;
                          rec_observed_at_ms := aud_observed_at_ms audit |})) ;;
  release_reservation (att_attempt_id attempt) (aud_observed_at_ms audit)
    "ADMIN_RUNTIME_REPAIR" ;;
  resolution ← lift (resolution_for_state (tc_state request));
  job_changed ← update_jobs "cannot repair Job terminal state" (att_job_id attempt)
    (fun j => job_row_version j == aud_expected_job_row_version audit)
    (fun j => bump_job (set_job_resolution (Some resolution) (set_job_current_attempt_id None j)));
  reject_if (job_changed != 1) (state_conflict "Job changed during administrative repair") ;;
  append_repair_events attempt request audit.

Definition repair_terminal_reservation_admin_transaction (attempt_id : string)
    (expected_attempt_row_version : Z) (audit : AdminRepairAudit) : tx unit :=
  attempt ← load_attempt attempt_id;
  job ← load_job (att_job_id attempt);
  reservation ← load_reservation attempt_id;
  reject_if ((att_row_version attempt != expected_attempt_row_version)
             || (job_row_version job != aud_expected_job_row_version audit)
             || (job_current_attempt_id job != aud_expected_current_attempt_id audit)
             || (res_state reservation != aud_expected_reservation_state audit))
    plan_changed ;;
  target ← lift (terminal_reservation_target attempt job);
  if target == res_state reservation then mret tt
  else
    apply_reservation_target target attempt_id (aud_observed_at_ms audit)
      "ADMIN_RUNTIME_REPAIR" "ADMIN_RUNTIME_REPAIR" ;;
    append_event (att_job_id attempt) (Some attempt_id) "ADMIN_RESERVATION_REPAIR"
      "SYSTEM_OBSERVED" (Some (att_state attempt)) (Some (att_state attempt))
      "ADMIN_RUNTIME_REPAIR"
      (audit_detail audit
         [("previousReservationState", JStr (ReservationState.as_db (res_state reservation)));
          ("newReservationState", JStr (ReservationState.as_db target))])
      (aud_observed_at_ms audit).

Definition repair_operation (operation : AdminRepairOperation) : tx unit :=
  match operation with
  | Terminal terminal audit => repair_terminal_admin_transaction terminal audit
  | Reservation attempt_id expected_attempt_row_version audit =>
      repair_terminal_reservation_admin_transaction attempt_id expected_attempt_row_version audit
  end.

Fixpoint repair_operations (operations : list AdminRepairOperation) : tx unit :=
  match operations with
  | [] => mret tt
  | operation :: rest => repair_operation operation ;; repair_operations rest
  end.

Definition repair_admin_batch_tx (operations : list AdminRepairOperation) : tx (flow unit) :=
  repair_operations operations ;;
  remaining ← read inspect_runtime_invariants_connection;
  reject_if (remaining != [])
    (error_new ReconciliationRequired
       ("administrative Runtime repair would leave " +:+ pretty (length remaining)
        +:+ " invariant violations") (Some "violations") false) ;;
  mret (commit_or_fail "cannot commit administrative Runtime repair batch" (fun _ => Ok tt)).

Definition repair_admin_batch (io : TxIo) (operations : list AdminRepairOperation)
    : Db -> RuntimeResult unit * Db :=
  immediate io "administrative Runtime repair batch" (repair_admin_batch_tx operations).
End repair.
