(* ===== verification/Registry.v ===== *)
(** * The Registry as a state machine

    [registry_step] is one call of a state-changing operation of
    [runtime/registry], with any outcome of the calls on SQLite;
    [registry_reachable] is any sequence of them from the empty database.
    Concurrent callers are sequences too: every operation changes the database
    in one IMMEDIATE transaction, and the reads an operation makes before it
    begins are made on an arbitrary database [d0]. *)

From S2P Require Import Prelude Text Errors Types Supervisor Platform Validation Submit Store.
From S2P Require Import Transaction Projection Preservation Lifecycle Admission Recovery.
From S2P Require Import AdminRepair.

#[local] Open Scope Z_scope.

Section registry.
Context `{P : Platform}.

Inductive registry_step (d : Db) : Db -> Prop :=
  | StepSubmit io config fence now request ids :
      registry_step d (snd (submit_preallocated io config fence now request ids d))
  | StepBundleReady io attempt_id version digest at_ms :
      registry_step d (snd (mark_bundle_ready io attempt_id version digest at_ms d))
  | StepDispatchIssued io attempt_id version at_ms :
      registry_step d (snd (mark_dispatch_issued io attempt_id version at_ms d))
  | StepBindRunning io attempt_id version identity :
      registry_step d (snd (bind_running io attempt_id version identity d))
  | StepBindOwner io attempt_id version owner at_ms :
      registry_step d (snd (bind_supervisor_owner io attempt_id version owner at_ms d))
  | StepDeadline io attempt_id at_ms :
      registry_step d (snd (request_deadline_termination io attempt_id at_ms d))
  | StepCancel io job_id at_ms :
      registry_step d (snd (request_cancel io job_id at_ms d))
  | StepTerminal io request :
      registry_step d (snd (commit_terminal io request d))
  | StepRecoverOrphan io request :
      registry_step d (snd (recover_orphaned_terminal io request d))
  | StepConverge io attempt_id at_ms d0 :
      registry_step d (snd (converge_terminal_reservation io attempt_id at_ms d0 d))
  | StepRecordFailure io attempt error at_ms d0 :
      registry_step d (snd (record_reconciliation_failure io attempt error at_ms d0 d))
  | StepClearFailure io attempt_id at_ms d0 :
      registry_step d (snd (clear_reconciliation_failure io attempt_id at_ms d0 d))
  | StepRepairBatch io operations :
      registry_step d (snd (repair_admin_batch io operations d)).

Definition registry_reachable (d : Db) : Prop := rtc registry_step empty_db d.

(** The transaction that a step ran, with what was checked before it began. *)
Inductive registry_body (d d' : Db) : Prop :=
  | BodySubmit config fence request ids operation_digest created_at_ms f :
      validate_submit request = Ok tt ->
      submit_operation_digest request = Ok operation_digest ->
      submit_tx config fence request ids operation_digest created_at_ms d = Ok (f, d') ->
      registry_body d d'
  | BodyBundleReady attempt_id version digest at_ms f :
      mark_bundle_ready_tx attempt_id version digest at_ms d = Ok (f, d') ->
      registry_body d d'
  | BodyDispatchIssued attempt_id version at_ms f :
      mark_dispatch_issued_tx attempt_id version at_ms d = Ok (f, d') ->
      registry_body d d'
  | BodyBindRunning attempt_id version identity f :
      bind_running_tx attempt_id version identity d = Ok (f, d') ->
      registry_body d d'
  | BodyBindOwner attempt_id version owner at_ms f :
      bind_supervisor_owner_tx attempt_id version owner at_ms d = Ok (f, d') ->
      registry_body d d'
  | BodyDeadline attempt_id at_ms f :
      request_deadline_termination_tx attempt_id at_ms d = Ok (f, d') ->
      registry_body d d'
  | BodyCancel job_id at_ms f :
      request_cancel_tx job_id at_ms d = Ok (f, d') ->
      registry_body d d'
  | BodyTerminal request f :
      AttemptState.is_terminal (tc_state request) = true ->
      commit_terminal_tx request d = Ok (f, d') ->
      registry_body d d'
  | BodyRecoverOrphan request f :
      conclusive (tc_state request) = true ->
      recover_orphaned_terminal_tx request d = Ok (f, d') ->
      registry_body d d'
  | BodyConverge attempt_id at_ms f :
      converge_terminal_reservation_tx attempt_id at_ms d = Ok (f, d') ->
      registry_body d d'
  | BodyRecordFailure attempt_id error at_ms f :
      record_reconciliation_failure_tx attempt_id error at_ms d = Ok (f, d') ->
      registry_body d d'
  | BodyClearFailure attempt_id at_ms f :
      clear_reconciliation_failure_tx attempt_id at_ms d = Ok (f, d') ->
      registry_body d d'
  | BodyRepair operation u :
      repair_operation operation d = Ok (u, d') ->
      registry_body d d'.

Lemma with_tx_body {R} io be (body : tx (flow R)) d :
  snd (with_tx io be body d) = d \/
  exists f d', body d = Ok (f, d') /\ snd (with_tx io be body d) = d'.
Proof.
  destruct (with_tx_cases io be body d) as [-> | (f & d' & Hb & -> & _)]; eauto.
Qed.

Lemma with_tx_rtc {R} (B : Db -> Db -> Prop) io be (body : tx (flow R)) d :
  (forall f d', body d = Ok (f, d') -> B d d') -> rtc B d (snd (with_tx io be body d)).
Proof.
  intros HB. destruct (with_tx_body io be body d) as [-> | (f & d' & Hb & ->)];
    [constructor | by eapply rtc_once, HB].
Qed.

Lemma checked_rtc {R} (B : Db -> Db -> Prop) v io ctx (body : tx (flow R)) d :
  (forall f d', v = Ok tt -> body d = Ok (f, d') -> B d d') ->
  rtc B d (snd (checked v (immediate io ctx body) d)).
Proof.
  intros HB. destruct v as [[] | e]; [ | constructor]. apply with_tx_rtc. intros f d'. by apply HB.
Qed.

Lemma precheck_rtc {R} (B : Db -> Db -> Prop) io pre ctx (body : tx (flow R)) d0 d :
  (forall f d', body d = Ok (f, d') -> B d d') ->
  rtc B d (snd (precheck io pre (immediate io ctx body) d0 d)).
Proof.
  intros HB. unfold precheck. destruct (io_open io); [constructor | ].
  destruct (query pre d0) as [[r | ] | e]; [constructor | by apply with_tx_rtc | constructor].
Qed.

(** Every operation of a batch runs as a body of its own. *)
Lemma repair_operations_bodies operations : forall d u d',
  repair_operations operations d = Ok (u, d') -> rtc registry_body d d'.
Proof.
  induction operations as [ | operation rest IH]; intros d u d' H; simpl in H.
  - injection H as _ <-. constructor.
  - apply tx_bind_Ok in H as (x & d1 & H1 & H2).
    econstructor; [by eapply BodyRepair | by eapply IH].
Qed.

Lemma registry_step_bodies d d' : registry_step d d' -> rtc registry_body d d'.
Proof.
  intros Hstep. destruct Hstep.
  - unfold submit_preallocated.
    destruct (_ ≫= _) as [[at_ms od] | e] eqn:Hv; [ | constructor].
    apply bind_Ok_inv in Hv as ([] & Hval & Hv).
    apply bind_Ok_inv in Hv as (at_ms' & _ & Hv).
    apply bind_Ok_inv in Hv as (od' & Hod & [= <- <-]).
    apply with_tx_rtc. intros f d'. by apply BodySubmit.
  - apply checked_rtc. intros f d' _. apply BodyBundleReady.
  - apply with_tx_rtc. intros f d'. apply BodyDispatchIssued.
  - apply checked_rtc. intros f d' _. apply BodyBindRunning.
  - apply checked_rtc. intros f d' _. apply BodyBindOwner.
  - apply with_tx_rtc. intros f d'. apply BodyDeadline.
  - apply with_tx_rtc. intros f d'. apply BodyCancel.
  - apply checked_rtc. intros f d' Hv. apply BodyTerminal.
    unfold validate_terminal_commit in Hv. inv_ok. by bool_props.
  - apply checked_rtc. intros f d' Hv. apply BodyRecoverOrphan. inv_ok. by bool_props.
  - apply precheck_rtc. intros f d'. apply BodyConverge.
  - apply precheck_rtc. intros f d'. apply BodyRecordFailure.
  - apply precheck_rtc. intros f d'. apply BodyClearFailure.
  - unfold repair_admin_batch, immediate.
    destruct (with_tx_body io (fun e => safe_same_request_sql_error e
                ("cannot begin " +:+ "administrative Runtime repair batch"))
                (repair_admin_batch_tx operations) d) as [-> | (f & d1 & Hb & ->)];
      [constructor | ].
    unfold repair_admin_batch_tx in Hb. inv_stmt. by eapply repair_operations_bodies.
Qed.

(** Invariants by rule induction on the bodies. *)
Lemma step_invariant (I : Db -> Prop) :
  (forall d d', I d -> registry_body d d' -> I d') ->
  forall d d', I d -> registry_step d d' -> I d'.
Proof.
  intros Hbody d d' Hd Hstep. apply registry_step_bodies in Hstep.
  induction Hstep as [ | d d1 d2 Hb _ IH]; eauto.
Qed.

Lemma reachable_invariant (I : Db -> Prop) :
  I empty_db -> (forall d d', I d -> registry_body d d' -> I d') ->
  forall d, registry_reachable d -> I d.
Proof.
  intros H0 Hbody d Hr. unfold registry_reachable in Hr.
  revert H0. induction Hr as [ | x y z Hstep _ IH]; [done | ].
  intros Hx. apply IH. by eapply step_invariant.
Qed.

(** A preorder that every body respects relates the ends of every step. *)
Lemma step_rel (R : Db -> Db -> Prop) `{!PreOrder R} :
  (forall d d', registry_body d d' -> R d d') ->
  forall d d', registry_step d d' -> R d d'.
Proof.
  intros Hbody d d' Hstep. apply registry_step_bodies in Hstep.
  induction Hstep as [ | d d1 d2 Hb _ IH]; [done | ]. etrans; eauto.
Qed.
End registry.

(** ** Relations preserved by every body *)

Create HintDb ordivon_bodies.
#[export] Hint Unfold
  submit_tx replay_submit append_admission_events insert_admission insert_execution_provider
  insert_host_dependencies insert_release_effect insert_idempotency_key insert_reservation
  mark_bundle_ready_tx mark_dispatch_issued_tx bind_running_tx bind_supervisor_owner_tx
  request_deadline_termination_tx request_cancel_tx request_cancel_orphaned
  request_cancel_unresolved cancel_before_dispatch stop_dispatched commit_terminal_tx
  settle_reservation append_terminal_events recover_orphaned_terminal_tx
  converge_terminal_reservation_tx load_terminal_target apply_reservation_target
  record_reconciliation_failure_tx clear_reconciliation_failure_tx
  repair_operation repair_terminal_admin_transaction append_repair_events
  repair_terminal_reservation_admin_transaction : ordivon_bodies.

(** Descends into every body; what is left are the statements that the hints of
    the relation do not cover. *)
Ltac registry_body_auto :=
  tx_run_rel; autounfold with ordivon_bodies; cbv zeta; tx_rel_auto.
