(* ===== verification/StoreInvariant.v ===== *)
(** * The invariant of the Registry database

    [store_wf]: every Job has one Attempt and that Attempt one reservation, the
    three agree ([cell_ok]), the idempotency keys and the Jobs determine each
    other, and no Workspace has two live reservations.  Every operation
    preserves it. *)

From S2P Require Import Prelude Text Errors Types Supervisor Platform Validation Submit Store.
From S2P Require Import Transaction Projection Preservation Lifecycle Admission Recovery.
From S2P Require Import AdminRepair Registry.

#[local] Open Scope Z_scope.

(** The cell of a Job in progress. *)
Record cell_open (job : RuntimeJobRecord) (a : AttemptRecord) (r : ReservationRecord) : Prop := {
  open_resolution : job_resolution job = None;
  open_current : job_current_attempt_id job = Some (att_attempt_id a);
  open_state : AttemptState.is_terminal (att_state a) = false;
  open_reservation : res_state r = ReservationState.Active;
  open_run : job_desired_state job = JobDesiredState.Run ->
    att_termination_intent a <> AttemptTerminationIntent.StopRequested;
  open_cancelled : job_desired_state job = JobDesiredState.Cancelled ->
    att_state a = AttemptState.Stopping;
  open_dispatched : att_state a <> AttemptState.Accepted -> att_bundle_digest a <> None;
  open_accepted : att_state a = AttemptState.Accepted ->
    att_termination_intent a = AttemptTerminationIntent.Natural;
}.

(** The cell of a finished Job. *)
Record cell_closed (job : RuntimeJobRecord) (a : AttemptRecord) (r : ReservationRecord)
    : Prop := {
  closed_resolution : exists resolution, job_resolution job = Some resolution
    /\ resolution_for_state (att_state a) = Ok resolution;
  closed_current : job_current_attempt_id job = None;
  closed_result : att_result_digest a <> None;
  closed_finished : att_finished_at_ms a <> None;
  closed_reservation : res_state r = (if att_state a == AttemptState.Orphaned
                                      then ReservationState.HeldOrphaned
                                      else ReservationState.Released);
}.

(** A Job, its Attempt and its reservation agree. *)
Definition cell_ok (job : RuntimeJobRecord) (a : AttemptRecord) (r : ReservationRecord) : Prop :=
  reservation_check r = true /\ (cell_open job a r \/ cell_closed job a r).

Lemma resolution_for_state_terminal s resolution :
  resolution_for_state s = Ok resolution -> AttemptState.is_terminal s = true.
Proof. by destruct s. Qed.

Lemma cell_ok_open job a r :
  cell_ok job a r -> AttemptState.is_terminal (att_state a) = false -> cell_open job a r.
Proof.
  intros [_ [Ho | Hc]] Ht; [done | ].
  destruct (closed_resolution _ _ _ Hc) as (x & _ & Hs).
  apply resolution_for_state_terminal in Hs. congruence.
Qed.

Lemma cell_ok_unresolved job a r :
  cell_ok job a r -> job_resolution job = None -> cell_open job a r.
Proof.
  intros [_ [Ho | Hc]] Hr; [done | ].
  destruct (closed_resolution _ _ _ Hc) as (x & ? & _). congruence.
Qed.

Lemma cell_ok_closed job a r :
  cell_ok job a r -> AttemptState.is_terminal (att_state a) = true -> cell_closed job a r.
Proof. intros [_ [Ho | Hc]] Ht; [ | done]. pose proof (open_state _ _ _ Ho). congruence. Qed.

Record store_wf (d : Db) : Prop := {
  wf_jobs : forall k job, db_jobs d !! k = Some job ->
    job_job_id job = k
    /\ (exists a row, db_attempts d !! a = Some row /\ att_job_id (row_attempt row) = k)
    /\ (exists key, db_idempotency_keys d !! (job_principal job, job_client_request_id job)
                      = Some key /\ key_job_id key = k);
  wf_attempts : forall k row, db_attempts d !! k = Some row ->
    att_attempt_id (row_attempt row) = k /\ att_attempt_number (row_attempt row) = 1
    /\ exists job res, db_jobs d !! att_job_id (row_attempt row) = Some job
       /\ db_reservations d !! k = Some res
       /\ cell_ok job (row_attempt row) (row_reservation res);
  wf_reservations : forall k res, db_reservations d !! k = Some res ->
    res_attempt_id (row_reservation res) = k /\ is_Some (db_attempts d !! k);
  wf_single : forall k1 k2 row1 row2,
    db_attempts d !! k1 = Some row1 -> db_attempts d !! k2 = Some row2 ->
    att_job_id (row_attempt row1) = att_job_id (row_attempt row2) -> k1 = k2;
  wf_keys : forall p c key, db_idempotency_keys d !! (p, c) = Some key ->
    exists job, db_jobs d !! key_job_id key = Some job
      /\ job_principal job = p /\ job_client_request_id job = c
      /\ job_operation_digest job = key_operation_digest key;
  wf_workspace : forall k1 k2 res1 res2 row1 row2 job1 job2,
    db_reservations d !! k1 = Some res1 -> db_reservations d !! k2 = Some res2 ->
    live_reservation (row_reservation res1) = true ->
    live_reservation (row_reservation res2) = true ->
    db_attempts d !! k1 = Some row1 -> db_attempts d !! k2 = Some row2 ->
    db_jobs d !! att_job_id (row_attempt row1) = Some job1 ->
    db_jobs d !! att_job_id (row_attempt row2) = Some job2 ->
    job_workspace_id job1 = job_workspace_id job2 -> k1 = k2;
}.

Lemma store_wf_empty : store_wf empty_db.
Proof. split; intros; simpl in *; by rewrite lookup_empty in *. Qed.

(** Columns an UPDATE never writes. *)
Definition same_job_identity (j j' : RuntimeJobRecord) : Prop :=
  job_job_id j' = job_job_id j /\ job_principal j' = job_principal j
  /\ job_client_request_id j' = job_client_request_id j
  /\ job_request_digest j' = job_request_digest j
  /\ job_operation_digest j' = job_operation_digest j
  /\ job_workspace_id j' = job_workspace_id j
  /\ job_workspace_snapshot_json j' = job_workspace_snapshot_json j
  /\ job_execution_plan_json j' = job_execution_plan_json j
  /\ job_execution_plan_digest j' = job_execution_plan_digest j
  /\ job_created_at_ms j' = job_created_at_ms j.

Definition same_attempt_identity (a a' : AttemptRecord) : Prop :=
  att_attempt_id a' = att_attempt_id a /\ att_job_id a' = att_job_id a
  /\ att_attempt_number a' = att_attempt_number a
  /\ att_launch_token_digest a' = att_launch_token_digest a
  /\ att_bundle_path a' = att_bundle_path a /\ att_unit_name a' = att_unit_name a
  /\ att_created_at_ms a' = att_created_at_ms a.

(** [d'] is [d] with the cell of Attempt [k] rewritten. *)
Record cell_update (k : string) (row row' : AttemptRow) (job job' : RuntimeJobRecord)
    (res res' : ReservationRow) (d d' : Db) : Prop := {
  cu_row : db_attempts d !! k = Some row;
  cu_job : db_jobs d !! att_job_id (row_attempt row) = Some job;
  cu_res : db_reservations d !! k = Some res;
  cu_attempts : db_attempts d' = <[k := row']> (db_attempts d);
  cu_jobs : db_jobs d' = <[att_job_id (row_attempt row) := job']> (db_jobs d);
  cu_reservations : db_reservations d' = <[k := res']> (db_reservations d);
  cu_keys : db_idempotency_keys d' = db_idempotency_keys d;
  cu_attempt_id : same_attempt_identity (row_attempt row) (row_attempt row');
  cu_job_id : same_job_identity job job';
  cu_res_id : res_attempt_id (row_reservation res') = res_attempt_id (row_reservation res);
}.

(** A rewritten cell that is consistent, and not live unless it was, keeps the
    invariant. *)
Lemma cell_update_wf k row row' job job' res res' d d' :
  store_wf d -> cell_update k row row' job job' res res' d d' ->
  cell_ok job' (row_attempt row') (row_reservation res') ->
  (live_reservation (row_reservation res') = true ->
   live_reservation (row_reservation res) = true) ->
  store_wf d'.
Proof.
  intros Hwf [Hrow Hjob Hres Ha Hj Hr Hk Hai Hji Hri] Hcell Hlive.
  destruct Hai as (Hai1 & Hai2 & Hai3 & _).
  destruct Hji as (Hji1 & Hji2 & Hji3 & _ & Hji5 & Hji6 & _).
  assert (Hattempt : forall k' r, db_attempts d' !! k' = Some r ->
            exists r0, db_attempts d !! k' = Some r0
              /\ att_job_id (row_attempt r) = att_job_id (row_attempt r0)).
  { intros k' r. rewrite Ha. destruct (decide (k' = k)) as [-> | Hne].
    - rewrite lookup_insert_eq. intros [= <-]. eauto.
    - rewrite lookup_insert_ne by done. eauto. }
  assert (Hjobs : forall k' j, db_jobs d' !! k' = Some j ->
            exists j0, db_jobs d !! k' = Some j0 /\ job_job_id j = job_job_id j0
              /\ job_principal j = job_principal j0
              /\ job_client_request_id j = job_client_request_id j0
              /\ job_workspace_id j = job_workspace_id j0).
  { intros k' j. rewrite Hj. destruct (decide (k' = att_job_id (row_attempt row))) as [-> | Hne].
    - rewrite lookup_insert_eq. intros [= <-]. eauto 10.
    - rewrite lookup_insert_ne by done. eauto 10. }
  split.
  - intros k' j Hl. destruct (Hjobs _ _ Hl) as (j0 & Hl0 & -> & -> & -> & _).
    destruct (wf_jobs d Hwf _ _ Hl0) as (? & (a & r & Hr1 & Hr2) & Hkey).
    split; [done | ]. split; [ | by rewrite Hk].
    rewrite Ha. destruct (decide (a = k)) as [-> | Hne].
    + exists k, row'. rewrite lookup_insert_eq. split; [done | ]. congruence.
    + exists a, r. by rewrite lookup_insert_ne.
  - intros k' r. rewrite Ha. destruct (decide (k' = k)) as [-> | Hne].
    + rewrite lookup_insert_eq. intros [= <-].
      destruct (wf_attempts d Hwf _ _ Hrow) as (? & ? & _).
      split; [congruence | ]. split; [congruence | ].
      exists job', res'. rewrite Hai2, Hj, Hr, !lookup_insert_eq. done.
    + rewrite lookup_insert_ne by done. intros Hl.
      destruct (wf_attempts d Hwf _ _ Hl) as (? & ? & j & rs & ? & ? & ?).
      split; [done | ]. split; [done | ]. exists j, rs.
      rewrite Hj, Hr, !lookup_insert_ne; [done | done | ].
      intros Heq. apply Hne. symmetry. by eapply (wf_single d Hwf).
  - intros k' rs. rewrite Ha, Hr. destruct (decide (k' = k)) as [-> | Hne].
    + rewrite !lookup_insert_eq. intros [= <-]. rewrite Hri.
      split; [ | done]. by apply (wf_reservations d Hwf).
    + rewrite !lookup_insert_ne by done. apply (wf_reservations d Hwf).
  - intros k1 k2 r1 r2 H1 H2 Heq.
    destruct (Hattempt _ _ H1) as (q1 & ? & ?). destruct (Hattempt _ _ H2) as (q2 & ? & ?).
    eapply (wf_single d Hwf); [done | done | congruence].
  - intros p c key. rewrite Hk. intros Hl.
    destruct (wf_keys d Hwf _ _ _ Hl) as (j & Hl' & ? & ? & ?). rewrite Hj.
    destruct (decide (key_job_id key = att_job_id (row_attempt row))) as [Heq | Hne].
    + rewrite Heq, lookup_insert_eq. rewrite Heq in Hl'. simplify_eq.
      exists job'. (repeat split); congruence.
    + rewrite lookup_insert_ne by done. eauto.
  - intros k1 k2 s1 s2 r1 r2 j1 j2 Hs1 Hs2 Hl1 Hl2 Hr1 Hr2 Hj1 Hj2 Hws.
    destruct (Hattempt _ _ Hr1) as (q1 & ? & Hq1). destruct (Hattempt _ _ Hr2) as (q2 & ? & Hq2).
    destruct (Hjobs _ _ Hj1) as (i1 & ? & _ & _ & _ & ?).
    destruct (Hjobs _ _ Hj2) as (i2 & ? & _ & _ & _ & ?).
    assert (Hres' : forall k' s, db_reservations d' !! k' = Some s ->
              live_reservation (row_reservation s) = true ->
              exists s0, db_reservations d !! k' = Some s0
                /\ live_reservation (row_reservation s0) = true).
    { intros k' s. rewrite Hr. destruct (decide (k' = k)) as [-> | Hne].
      - rewrite lookup_insert_eq. intros [= <-]. eauto.
      - rewrite lookup_insert_ne by done. eauto. }
    destruct (Hres' _ _ Hs1 Hl1) as (t1 & ? & ?). destruct (Hres' _ _ Hs2 Hl2) as (t2 & ? & ?).
    eapply (wf_workspace d Hwf k1 k2 t1 t2 q1 q2 i1 i2); congruence.
Qed.

(** ** The operations on one cell *)

(** [cell_update] of a chain of UPDATEs. *)
Ltac solve_cell_update :=
  split; simpl; rewrite ?insert_insert_eq;
  first [ eassumption
        | reflexivity
        | by rewrite insert_id
        | by (repeat split)
        | by unfold settled_row; case_bool_decide ].

(** The cell of a known Attempt. *)
Ltac open_cell Hwf Hrow :=
  let job := fresh "job" in let res := fresh "res" in
  let Hjob := fresh "Hjob" in let Hres := fresh "Hres" in
  let Hid := fresh "Hid" in let Hnum := fresh "Hnum" in
  let Hcell := fresh "Hcell" in
  destruct (wf_attempts _ Hwf _ _ Hrow) as (Hid & Hnum & job & res & Hjob & Hres & Hcell).

Section cells.
Context `{P : Platform}.

(** An UPDATE of the Attempt alone that keeps an open cell open. *)
Lemma attempt_update_wf k row row' d d' job res :
  store_wf d -> db_attempts d !! k = Some row ->
  db_jobs d !! att_job_id (row_attempt row) = Some job ->
  db_reservations d !! k = Some res ->
  db_attempts d' = <[k := row']> (db_attempts d) -> db_jobs d' = db_jobs d ->
  db_reservations d' = db_reservations d ->
  db_idempotency_keys d' = db_idempotency_keys d ->
  same_attempt_identity (row_attempt row) (row_attempt row') ->
  cell_ok job (row_attempt row') (row_reservation res) ->
  store_wf d'.
Proof.
  intros Hwf Hrow Hjob Hres Ha Hj Hr Hk Hid Hcell.
  eapply (cell_update_wf k row row' job job res res); [done | | done | done].
  split; try done; try (by rewrite insert_id); by (repeat split).
Qed.

(** The cell of a nonterminal Attempt, after an UPDATE of the Attempt. *)
Ltac keep_open k row job res Hcell Ho :=
  eapply (attempt_update_wf k row _ _ _ job res); try done;
  split; [apply Hcell | left];
  assert (Ho : cell_open job (row_attempt row) (row_reservation res));
  [apply cell_ok_open; [done | ] | destruct Ho; split; simpl; try done; try congruence].

Lemma mark_bundle_ready_wf k version digest at_ms d f d' :
  store_wf d -> mark_bundle_ready_tx k version digest at_ms d = Ok (f, d') -> store_wf d'.
Proof.
  intros Hwf H. unfold mark_bundle_ready_tx in H. inv_update. bool_props. simplify_eq.
  open_cell Hwf Hrow. keep_open k row job res Hcell Ho. by rewrite H.
Qed.

Lemma mark_dispatch_issued_wf k version at_ms d f d' :
  store_wf d -> mark_dispatch_issued_tx k version at_ms d = Ok (f, d') -> store_wf d'.
Proof.
  intros Hwf H. unfold mark_dispatch_issued_tx in H. inv_update. bool_props. simplify_eq.
  open_cell Hwf Hrow. keep_open k row job res Hcell Ho; [by rewrite H | ].
  intros Hc. specialize (open_cancelled0 Hc). congruence.
Qed.

Lemma bind_running_wf k version identity d f d' :
  store_wf d -> bind_running_tx k version identity d = Ok (f, d') -> store_wf d'.
Proof.
  intros Hwf H. unfold bind_running_tx in H. apply tx_bind_Ok in H as (a & d1 & H1 & H).
  destruct (attempt_runner_identity_matches a identity); inv_update; [done | ].
  bool_props. simplify_eq. unfold bindable in *.
  open_cell Hwf Hrow. keep_open k row job res Hcell Ho.
  - by destruct (att_state (row_attempt row)).
  - intros Hc. specialize (open_cancelled0 Hc). by rewrite open_cancelled0 in *.
  - intros _. apply open_dispatched0. by destruct (att_state (row_attempt row)).
Qed.

Lemma bind_supervisor_owner_wf k version owner at_ms d f d' :
  store_wf d -> bind_supervisor_owner_tx k version owner at_ms d = Ok (f, d') -> store_wf d'.
Proof.
  intros Hwf H. unfold bind_supervisor_owner_tx in H. inv_stmt.
  destruct (db_supervisor_owners d !! k) as [[ej ed] | ] eqn:Hown.
  - inv_stmt. destruct (_ && _ && _); by inv_stmt.
  - inv_update. unfold insert_supervisor_owner in *. rewrite Hown in *. inv_update.
    bool_props. db_simpl. simplify_eq. unfold owner_bindable, owner_bound_state in *.
    open_cell Hwf Hrow. keep_open k row job res Hcell Ho.
    + by destruct (att_state (row_attempt row)).
    + by case_bool_decide.
    + intros Hc. by rewrite (open_cancelled0 Hc).
    + intros _. apply open_dispatched0. by destruct (att_state (row_attempt row)).
    + by case_bool_decide.
Qed.

Lemma request_deadline_termination_wf k at_ms d f d' :
  store_wf d -> request_deadline_termination_tx k at_ms d = Ok (f, d') -> store_wf d'.
Proof.
  intros Hwf H. unfold request_deadline_termination_tx in H. inv_stmt.
  destruct (_ || _) eqn:Hreplay; inv_update; [done | ].
  bool_props. simplify_eq. unfold dispatched_nonterminal in *.
  open_cell Hwf Hrow. keep_open k row job res Hcell Ho.
  - by destruct (att_state (row_attempt row)).
  - intros _. apply open_dispatched0. intros Ha. by rewrite Ha in *.
Qed.

(** An UPDATE that leaves the cells alone. *)
Lemma untouched_wf d d' :
  store_wf d -> db_attempts d' = db_attempts d -> db_jobs d' = db_jobs d ->
  db_reservations d' = db_reservations d -> db_idempotency_keys d' = db_idempotency_keys d ->
  store_wf d'.
Proof.
  intros [H1 H2 H3 H4 H5 H6] Ha Hj Hr Hk. split; rewrite ?Ha, ?Hj, ?Hr, ?Hk; done.
Qed.

(** A terminal result closes the cell. *)
Lemma terminal_cell job a r request resolution :
  reservation_check r = true ->
  res_state r = (if tc_state request == AttemptState.Orphaned then ReservationState.HeldOrphaned
                 else ReservationState.Released) ->
  job_current_attempt_id job = None -> job_resolution job = Some resolution ->
  resolution_for_state (tc_state request) = Ok resolution ->
  cell_ok job (apply_terminal request a) r.
Proof. intros Hr Hs Hc Hj Hres. split; [done | right]. split; simpl; eauto. Qed.

Lemma closed_cell job a res request resolution at_ms reason :
  job_current_attempt_id job = None -> job_resolution job = Some resolution ->
  resolution_for_state (tc_state request) = Ok resolution ->
  cell_ok job (apply_terminal request a)
    (row_reservation
       (settled_row (tc_state request == AttemptState.Orphaned) at_ms reason res)).
Proof.
  intros Hc Hj Hr.
  eapply terminal_cell; try done; unfold settled_row; by case_bool_decide.
Qed.

(** Rules out the branches in which an UPDATE guarded by a known column
    changed no row. *)
Ltac no_change :=
  match goal with
  | Hw : no_match _ ?o |- _ =>
      exfalso;
      try match goal with Hk : o = Some _ |- _ => rewrite Hk in Hw end;
      simpl in Hw;
      repeat match goal with E : _ = _ |- _ =>
        tryif constr_eq E Hw then fail else rewrite E in Hw end;
      discriminate Hw
  end.

Lemma commit_terminal_wf request d f d' :
  store_wf d -> AttemptState.is_terminal (tc_state request) = true ->
  commit_terminal_tx request d = Ok (f, d') -> store_wf d'.
Proof.
  intros Hwf Hterm H. unfold commit_terminal_tx in H. inv_stmt.
  destruct (AttemptState.is_terminal (att_state (row_attempt row))) eqn:Hnt.
  { destruct (_ && _); by inv_stmt. }
  unfold settle_reservation, append_terminal_events in H.
  open_cell Hwf Hrow. pose proof (cell_ok_open _ _ _ Hcell Hnt) as Ho.
  pose proof (open_reservation _ _ _ Ho). pose proof (open_resolution _ _ _ Ho).
  inv_update; bool_props; db_simpl; simplify_eq; rewrite ?Hid in *; simplify_eq;
    try congruence; try no_change.
  eapply (cell_update_wf (tc_attempt_id request) row);
    [done | solve_cell_update | by eapply (closed_cell _ (row_attempt row)) | done].
Qed.

Lemma conclusive_not_orphaned s : conclusive s = true -> (s == AttemptState.Orphaned) = false.
Proof. by destruct s. Qed.

Lemma recover_orphaned_terminal_wf request d f d' :
  store_wf d -> conclusive (tc_state request) = true ->
  recover_orphaned_terminal_tx request d = Ok (f, d') -> store_wf d'.
Proof.
  intros Hwf Hterm H. unfold recover_orphaned_terminal_tx in H.
  inv_update; bool_props; db_simpl; simplify_eq; try no_change; [ | congruence].
  destruct (wf_attempts _ Hwf _ _ Hrow) as (Hid & _ & j & r & Hj & Hr & Hcell).
  rewrite Hid in *. simplify_eq.
  assert (Hc : cell_closed x0 (row_attempt row) (row_reservation res))
    by (apply cell_ok_closed; [done | by rewrite H]).
  eapply (cell_update_wf (tc_attempt_id request) row);
    [done | solve_cell_update | | done].
  apply conclusive_not_orphaned in Hterm.
  pose proof (closed_cell (bump_job (set_job_resolution (Some x8) x0)) (row_attempt row) res
                request x8 (tc_finished_at_ms request) (tc_reason_code request)) as Hcl.
  rewrite Hterm in Hcl. apply Hcl; [by apply Hc | done | done].
Qed.

(** A consistent cell already has the reservation its terminal state calls for. *)
Lemma cell_ok_target job a r target :
  cell_ok job a r -> terminal_reservation_target a job = Ok target -> target = res_state r.
Proof.
  intros Hcell H. unfold terminal_reservation_target in H. inv_ok. bool_props.
  by rewrite (closed_reservation _ _ _ (cell_ok_closed _ _ _ Hcell Hv)).
Qed.

Lemma converge_terminal_reservation_noop k at_ms d f d' :
  store_wf d -> converge_terminal_reservation_tx k at_ms d = Ok (f, d') -> d' = d.
Proof.
  intros Hwf H. unfold converge_terminal_reservation_tx, load_terminal_target in H. inv_stmt.
  open_cell Hwf Hrow. simplify_eq. rewrite (cell_ok_target _ _ _ _ Hcell Hl) in H.
  rewrite bool_decide_eq_true_2 in H by done. by inv_stmt.
Qed.

Lemma record_reconciliation_failure_wf k error at_ms d f d' :
  store_wf d -> record_reconciliation_failure_tx k error at_ms d = Ok (f, d') -> store_wf d'.
Proof.
  intros Hwf H. unfold record_reconciliation_failure_tx in H. inv_update; [by eapply untouched_wf | ].
  open_cell Hwf Hrow. rewrite Hid in *. simplify_eq.
  by eapply (attempt_update_wf (att_attempt_id (row_attempt row)) row _ _ _ job res).
Qed.

Lemma clear_reconciliation_failure_wf k at_ms d f d' :
  store_wf d -> clear_reconciliation_failure_tx k at_ms d = Ok (f, d') -> store_wf d'.
Proof.
  intros Hwf H. unfold clear_reconciliation_failure_tx in H. inv_update; try done.
  open_cell Hwf Hrow. simplify_eq.
  by eapply (attempt_update_wf (att_attempt_id (row_attempt row)) row _ _ _ job res).
Qed.

Lemma repair_allowed_not_orphaned from to :
  repair_allowed from to = true ->
  (to == AttemptState.Orphaned) = false /\ AttemptState.is_terminal from = true.
Proof. by destruct from, to. Qed.

Lemma repair_terminal_admin_wf request audit d u d' :
  store_wf d -> repair_terminal_admin_transaction request audit d = Ok (u, d') -> store_wf d'.
Proof.
  intros Hwf H. unfold repair_terminal_admin_transaction, append_repair_events in H.
  inv_update; bool_props; db_simpl; simplify_eq; try no_change;
    destruct (wf_attempts _ Hwf _ _ Hrow) as (Hid & _ & j & r & Hj & Hr & Hcell);
    rewrite Hid, ?lookup_insert_eq in *; simplify_eq; try discriminate.
  all: destruct (repair_allowed_not_orphaned _ _ Hc2) as [Hno _].
  all: eapply (cell_update_wf (tc_attempt_id request) row);
    [done | solve_cell_update | eapply terminal_cell; rewrite ?Hno; try done | done].
  apply Hcell.
Qed.

Lemma repair_reservation_noop k version audit d u d' :
  store_wf d -> repair_terminal_reservation_admin_transaction k version audit d = Ok (u, d') ->
  d' = d.
Proof.
  intros Hwf H. unfold repair_terminal_reservation_admin_transaction in H. inv_stmt.
  open_cell Hwf Hrow. simplify_eq. rewrite (cell_ok_target _ _ _ _ Hcell Hl) in H.
  rewrite bool_decide_eq_true_2 in H by done. by inv_stmt.
Qed.
(** ** Cancellation *)

Lemma latest_attempt_id_Some j m k :
  latest_attempt_id j m = Some k -> exists row, m !! k = Some row /\ att_job_id (row_attempt row) = j.
Proof.
  unfold latest_attempt_id.
  assert (Hall : forall kv, kv ∈ map_to_list m -> m !! kv.1 = Some kv.2)
    by (intros [x y] Hin; by apply elem_of_map_to_list).
  revert Hall. generalize (map_to_list m) as l. intros l Hall.
  destruct (foldr _ None l) as [[k' n] | ] eqn:Hf; [ | done]. intros [= <-].
  revert k' n Hf. induction l as [ | [x y] l IH]; intros k' n Hf; [done | ]. simpl in Hf.
  assert (Hl : forall kv, kv ∈ l -> m !! kv.1 = Some kv.2)
    by (intros kv Hin; apply Hall; by apply list_elem_of_further).
  assert (Hx : m !! x = Some y) by (by apply (Hall (x, y)), list_elem_of_here).
  destruct (String.eqb_spec (att_job_id (row_attempt y)) j) as [Hj | _]; [ | by eapply IH].
  destruct (foldr _ None l) as [[b nb] | ] eqn:Hb.
  - destruct (nb <? _); [ | by eapply (IH Hl)]. injection Hf as <- _. eauto.
  - injection Hf as <- _. eauto.
Qed.

(** A closed cell stays closed when only the intents change. *)
Lemma intent_cell job job' a a' r :
  cell_ok job a r -> AttemptState.is_terminal (att_state a) = true ->
  job_resolution job' = job_resolution job ->
  job_current_attempt_id job' = job_current_attempt_id job ->
  att_state a' = att_state a -> att_result_digest a' = att_result_digest a ->
  att_finished_at_ms a' = att_finished_at_ms a ->
  cell_ok job' a' r.
Proof.
  intros Hcell Ht H1 H2 H3 H4 H5. destruct (cell_ok_closed _ _ _ Hcell Ht).
  split; [apply Hcell | right]. split; rewrite ?H1, ?H2, ?H3, ?H4, ?H5; done.
Qed.

Lemma request_cancel_orphaned_wf job at_ms d f d' :
  store_wf d -> db_jobs d !! job_job_id job = Some job ->
  request_cancel_orphaned job at_ms d = Ok (f, d') -> store_wf d'.
Proof.
  intros Hwf Hjob H. unfold request_cancel_orphaned in H. inv_tx.
  apply ok_or_Ok_inv, latest_attempt_id_Some in Hl as (row & Hrow & Hj).
  destruct (wf_attempts _ Hwf _ _ Hrow) as (Hid & _ & j & r & Hj' & Hr & Hcell).
  rewrite Hj in Hj'. simplify_eq.
  rewrite <- Hj in *.
  inv_update; bool_props; db_simpl; simplify_eq; try (by eapply untouched_wf).
  all: eapply (cell_update_wf (att_attempt_id (row_attempt row)) row);
    [done | solve_cell_update | | done].
  all: by eapply intent_cell; [done | by rewrite H | ..].
Qed.

Lemma request_cancel_unresolved_wf job at_ms d f d' :
  store_wf d -> db_jobs d !! job_job_id job = Some job -> job_resolution job = None ->
  request_cancel_unresolved job at_ms d = Ok (f, d') -> store_wf d'.
Proof.
  intros Hwf Hjob Hnone H.
  unfold request_cancel_unresolved, cancel_before_dispatch, stop_dispatched in H. inv_tx.
  apply ok_or_Ok_inv in Hl.
  destruct (wf_jobs _ Hwf _ _ Hjob) as (_ & (k & row & Hrow & Hj) & _).
  destruct (wf_attempts _ Hwf _ _ Hrow) as (Hid & _ & j & r & Hj' & Hr & Hcell).
  rewrite Hj in Hj'. simplify_eq.
  pose proof (cell_ok_unresolved _ _ _ Hcell Hnone) as Ho.
  pose proof (open_current _ _ _ Ho). pose proof (open_reservation _ _ _ Ho).
  simplify_eq. rewrite <- Hj in *.
  inv_update; bool_props; db_simpl; rewrite ?lookup_insert_eq in *; simplify_eq;
    try discriminate; try no_change; try congruence.
  - eapply (cell_update_wf (att_attempt_id (row_attempt row1)) row1);
      [done | solve_cell_update | | done].
    split; [done | right]. by split; simpl; eauto.
  - exfalso. match goal with Hw : no_match _ _, Hk : db_attempts d !! _ = Some _ |- _ =>
      rewrite Hk in Hw; simpl in Hw end.
    by destruct (att_state (row_attempt row0)).
  - eapply (cell_update_wf (att_attempt_id (row_attempt row1)) row1);
      [done | solve_cell_update | | done].
    destruct Ho. split; [apply Hcell | left]. split; simpl; try done. by intros _; auto.
  - eapply (cell_update_wf (att_attempt_id (row_attempt row0)) row0);
      [done | solve_cell_update | | done].
    destruct Ho. split; [apply Hcell | left]. by split; simpl.
Qed.

Lemma request_cancel_wf job_id at_ms d f d' :
  store_wf d -> request_cancel_tx job_id at_ms d = Ok (f, d') -> store_wf d'.
Proof.
  intros Hwf H. unfold request_cancel_tx in H. inv_tx. inv_stmt.
  destruct (wf_jobs _ Hwf _ _ Hjob) as (Hid & _). rewrite <- Hid in Hjob.
  destruct (job_resolution x) as [[] | ] eqn:Hr; inv_stmt; try done.
  - by eapply request_cancel_orphaned_wf.
  - by eapply request_cancel_unresolved_wf.
Qed.
End cells.

(** ** Admission *)

Definition workspace_free (workspace_id : string) (d : Db) : Prop :=
  forall k res row job, db_reservations d !! k = Some res ->
    live_reservation (row_reservation res) = true -> db_attempts d !! k = Some row ->
    db_jobs d !! att_job_id (row_attempt row) = Some job -> job_workspace_id job <> workspace_id.

(** The four rows of a new Job. *)
Record cell_insert (job : RuntimeJobRecord) (row : AttemptRow) (res : ReservationRow)
    (key : IdempotencyKey) (d d' : Db) : Prop := {
  ci_job : db_jobs d !! job_job_id job = None;
  ci_attempt : db_attempts d !! att_attempt_id (row_attempt row) = None;
  ci_key : db_idempotency_keys d !! (job_principal job, job_client_request_id job) = None;
  ci_free : workspace_free (job_workspace_id job) d;
  ci_jobs : db_jobs d' = <[job_job_id job := job]> (db_jobs d);
  ci_attempts : db_attempts d' = <[att_attempt_id (row_attempt row) := row]> (db_attempts d);
  ci_reservations : db_reservations d'
    = <[att_attempt_id (row_attempt row) := res]> (db_reservations d);
  ci_keys : db_idempotency_keys d'
    = <[(job_principal job, job_client_request_id job) := key]> (db_idempotency_keys d);
  ci_job_id : att_job_id (row_attempt row) = job_job_id job;
  ci_number : att_attempt_number (row_attempt row) = 1;
  ci_res_id : res_attempt_id (row_reservation res) = att_attempt_id (row_attempt row);
  ci_key_job : key_job_id key = job_job_id job;
  ci_key_digest : key_operation_digest key = job_operation_digest job;
}.

(** An existing Attempt is another one, of another Job. *)
Lemma cell_insert_attempt job row res key d d' k r :
  store_wf d -> cell_insert job row res key d d' -> db_attempts d' !! k = Some r ->
  (k = att_attempt_id (row_attempt row) /\ r = row) \/
  (k <> att_attempt_id (row_attempt row) /\ db_attempts d !! k = Some r
   /\ att_job_id (row_attempt r) <> job_job_id job).
Proof.
  intros Hwf Hci. rewrite (ci_attempts _ _ _ _ _ _ Hci). intros Hl.
  apply lookup_insert_Some in Hl as [[<- <-] | [Hne Hl]]; [by left | right].
  split; [done | split; [done | ]]. intros Heq.
  destruct (wf_attempts _ Hwf _ _ Hl) as (_ & _ & j & s & Hj & _).
  rewrite Heq, (ci_job _ _ _ _ _ _ Hci) in Hj. done.
Qed.

Lemma cell_insert_wf job row res key d d' :
  store_wf d -> cell_insert job row res key d d' ->
  cell_ok job (row_attempt row) (row_reservation res) -> store_wf d'.
Proof.
  intros Hwf Hci Hcell. pose proof (fun k r => cell_insert_attempt _ _ _ _ _ _ k r Hwf Hci) as Hatt.
  destruct Hci as [Hj Ha Hk Hfree Hjs Has Hrs Hks Hjid Hnum Hrid Hkj Hkd].
  split.
  - intros k j. rewrite Hjs, Has, Hks. intros Hl.
    apply lookup_insert_Some in Hl as [[<- <-] | [Hne Hl]].
    + split; [done | ]. split.
      * exists (att_attempt_id (row_attempt row)), row. by rewrite lookup_insert_eq.
      * exists key. by rewrite lookup_insert_eq.
    + destruct (wf_jobs _ Hwf _ _ Hl) as (? & (a & r & Hr & ?) & (y & Hy & ?)).
      split; [done | ]. split.
      * exists a, r. rewrite lookup_insert_ne by congruence. done.
      * exists y. rewrite lookup_insert_ne by congruence. done.
  - intros k r Hl. rewrite Hjs, Hrs. destruct (Hatt _ _ Hl) as [[-> ->] | (Hne & Hl0 & Hnj)].
    + split; [done | split; [done | ]]. exists job, res. by rewrite Hjid, !lookup_insert_eq.
    + destruct (wf_attempts _ Hwf _ _ Hl0) as (? & ? & j & s & ? & ? & ?).
      split; [done | split; [done | ]]. exists j, s. by rewrite !lookup_insert_ne by done.
  - intros k s. rewrite Hrs, Has. intros Hl.
    apply lookup_insert_Some in Hl as [[<- <-] | [Hne Hl]].
    + by rewrite lookup_insert_eq.
    + rewrite lookup_insert_ne by done. by apply (wf_reservations _ Hwf).
  - intros k1 k2 r1 r2 H1 H2 Heq.
    destruct (Hatt _ _ H1) as [[-> ->] | (? & ? & ?)], (Hatt _ _ H2) as [[-> ->] | (? & ? & ?)];
      [done | congruence | congruence | by eapply (wf_single _ Hwf)].
  - intros p c y. rewrite Hks, Hjs. intros Hl.
    apply lookup_insert_Some in Hl as [[Hpc <-] | [Hne Hl]].
    + injection Hpc as <- <-. rewrite Hkj, lookup_insert_eq. eauto.
    + destruct (wf_keys _ Hwf _ _ _ Hl) as (j & ? & ? & ? & ?). exists j.
      rewrite lookup_insert_ne by congruence. done.
  - intros k1 k2 s1 s2 r1 r2 j1 j2. rewrite Hrs, Hjs. intros Hs1 Hs2 Hl1 Hl2 Hr1 Hr2 Hj1 Hj2 Hw.
    destruct (Hatt _ _ Hr1) as [[-> ->] | (? & ? & ?)], (Hatt _ _ Hr2) as [[-> ->] | (? & ? & ?)];
      [done | | | ].
    all: rewrite ?Hjid, ?lookup_insert_eq in *; rewrite ?lookup_insert_ne in * by congruence;
      simplify_eq.
    + exfalso. by eapply (Hfree k2).
    + exfalso. by eapply (Hfree k1).
    + by eapply (wf_workspace _ Hwf k1 k2 s1 s2 r1 r2 j1 j2).
Qed.

Lemma live_joined_spec d r job :
  (r, job) ∈ live_joined d <->
  exists k res row, db_reservations d !! k = Some res /\ row_reservation res = r
    /\ live_reservation r = true /\ db_attempts d !! res_attempt_id r = Some row
    /\ db_jobs d !! att_job_id (row_attempt row) = Some job.
Proof.
  unfold live_joined. rewrite list_elem_of_omap. split.
  - intros ([k res] & Hin & Hf). apply elem_of_map_to_list in Hin. simpl in Hf.
    destruct (live_reservation (row_reservation res)) eqn:Hl; [ | done].
    destruct (db_attempts d !! _) as [row | ] eqn:Hrow; [ | done]. simpl in Hf.
    destruct (db_jobs d !! _) as [j | ] eqn:Hj; [ | done]. simpl in Hf.
    injection Hf as <- <-. eauto 10.
  - intros (k & res & row & Hk & <- & Hl & Hrow & Hj).
    exists (k, res). split; [by apply elem_of_map_to_list | ]. simpl.
    by rewrite Hl, Hrow; simpl; rewrite Hj.
Qed.

Lemma workspace_active_free w d :
  store_wf d -> workspace_active w d <= 0 -> workspace_free w d.
Proof.
  intros Hwf Hact k res row job Hk Hl Hrow Hj Hw.
  assert (Hin : (row_reservation res, job) ∈ live_joined d).
  { apply live_joined_spec. exists k, res, row.
    by rewrite (proj1 (wf_reservations _ Hwf _ _ Hk)). }
  apply list_elem_of_In in Hin.
  assert (Hf : In (row_reservation res, job)
                 (List.filter (in_workspace (Some w)) (live_joined d)))
    by (apply filter_In; split; [done | simpl; by apply String.eqb_eq]).
  unfold workspace_active in Hact.
  destruct (List.filter _ _); [done | simpl in Hact; lia].
Qed.

Section submit.
Context `{P : Platform}.

Lemma side_truth_tables request job_id d u1 d1 u2 d2 u3 d3 :
  insert_execution_provider job_id (execution_provider_columns request) d = Ok (u1, d1) ->
  insert_host_dependencies job_id (host_dependencies_columns request) d1 = Ok (u2, d2) ->
  insert_release_effect job_id (sub_runtime_release_effect request)
    (runtime_release_digest request) d2 = Ok (u3, d3) ->
  db_jobs d3 = db_jobs d /\ db_attempts d3 = db_attempts d
  /\ db_idempotency_keys d3 = db_idempotency_keys d
  /\ db_reservations d3 = db_reservations d /\ db_events d3 = db_events d.
Proof.
  unfold insert_execution_provider, insert_host_dependencies, insert_release_effect.
  intros H1 H2 H3.
  destruct (execution_provider_columns request), (host_dependencies_columns request),
    (sub_runtime_release_effect request), (runtime_release_digest request); by inv_stmt.
Qed.

Lemma insert_admission_cell config request ids digest at_ms d u d' :
  store_wf d -> idempotency_row request d = None ->
  workspace_active (plan_workspace_id (sub_plan request)) d <= 0 ->
  insert_admission request (new_admission config request ids digest at_ms) digest at_ms d
    = Ok (u, d') ->
  cell_insert (new_job request ids digest at_ms)
    {| row_attempt := new_attempt config ids digest at_ms; row_recovery := None |}
    {| row_reservation := new_reservation request ids at_ms; row_state_observed_at_ms := at_ms |}
    {| key_operation_digest := digest; key_job_id := pre_job_id ids;
       key_created_at_ms := at_ms |} d d'
  /\ db_events d' = db_events d.
Proof.
  intros Hwf Hkey Hact H. unfold insert_admission, insert_job, insert_attempt,
    insert_idempotency_key, insert_reservation in H.
  repeat (inv_tx_step; subst). inv_stmt.
  match goal with H1 : insert_execution_provider _ _ _ = _, H2 : insert_host_dependencies _ _ _ = _,
    H3 : insert_release_effect _ _ _ _ = _ |- _ =>
    destruct (side_truth_tables _ _ _ _ _ _ _ _ _ H1 H2 H3) as (E1 & E2 & E3 & E4 & E5) end.
  bool_props. db_simpl. simpl in *. rewrite ?E1, ?E2, ?E3, ?E4 in *.
  repeat match goal with H : present _ = false |- _ => apply present_false in H end.
  split; [ | done]. split; simpl; try done.
  by apply workspace_active_free.
Qed.

Lemma submit_wf config fence request ids digest at_ms d f d' :
  store_wf d -> submit_tx config fence request ids digest at_ms d = Ok (f, d') -> store_wf d'.
Proof.
  intros Hwf H. unfold submit_tx, replay_submit, append_admission_events in H. inv_tx.
  destruct (idempotency_row request d) as [key | ] eqn:Hkey.
  - by inv_stmt.
  - inv_tx.
    match goal with Hc : check_capacity _ _ = _ |- _ =>
      apply check_capacity_inv in Hc as (-> & Hact & _) end.
    match goal with Hi : insert_admission _ _ _ _ _ = _ |- _ =>
      apply insert_admission_cell in Hi as [Hci _]; [ | done..] end.
    inv_stmt. eapply untouched_wf; [ | by db_simpl..].
    eapply cell_insert_wf; [done | done | ].
    split; [done | left]. by split.
Qed.

(** Every operation preserves the invariant. *)
Lemma registry_body_wf d d' : store_wf d -> registry_body d d' -> store_wf d'.
Proof.
  intros Hwf Hb. destruct Hb.
  - by eapply submit_wf.
  - by eapply mark_bundle_ready_wf.
  - by eapply mark_dispatch_issued_wf.
  - by eapply bind_running_wf.
  - by eapply bind_supervisor_owner_wf.
  - by eapply request_deadline_termination_wf.
  - by eapply request_cancel_wf.
  - by eapply commit_terminal_wf.
  - by eapply recover_orphaned_terminal_wf.
  - by erewrite converge_terminal_reservation_noop.
  - by eapply record_reconciliation_failure_wf.
  - by eapply clear_reconciliation_failure_wf.
  - destruct operation; simpl in *; [by eapply repair_terminal_admin_wf | ].
    by erewrite repair_reservation_noop.
Qed.

Lemma reachable_wf d : registry_reachable d -> store_wf d.
Proof. apply reachable_invariant; [apply store_wf_empty | apply registry_body_wf]. Qed.
End submit.
