(* ===== verification/Scenario.v ===== *)
(** * A concrete run

    One request and the calls that carry its Job through the Registry, on the
    concrete platform of [TestPlatform].  The witnesses of the development
    evaluate the operations on these databases. *)

From S2P Require Import Prelude Text Errors Types Supervisor Platform TestPlatform Validation.
From S2P Require Import Submit Store Transaction Projection Preservation Lifecycle Admission.
From S2P Require Import Recovery AdminRepair Registry.

#[local] Open Scope Z_scope.

(** A well-formed digest. *)
Definition sample_digest : string :=
  "sha256:0123456789abcdef0123456789abcdef0123456789abcdef0123456789abcdef".
Definition other_digest : string :=
  "sha256:1123456789abcdef0123456789abcdef0123456789abcdef0123456789abcdef".

Definition plan_in (workspace_id path : string) : RuntimeExecutionPlan := {|
  plan_schema_version := RUNTIME_SCHEMA_VERSION;
  plan_workspace_id := workspace_id;
  plan_workspace_path := path;
  plan_source_revision := "rev-1";
  plan_workspace_source_digest := None;
  plan_workspace_git_common_dir := None;
  plan_executable := "/usr/bin/true";
  plan_executable_digest := sample_digest;
  plan_args := ["-v"];
  plan_cwd := path +:+ "/src";
  plan_env := ∅;
  plan_timeout_ms := 1000;
  plan_stdout_limit_bytes := 4096;
  plan_stderr_limit_bytes := 4096;
  plan_steps := [];
  plan_budget := {| budget_memory_max_bytes := None; budget_tasks_max := None;
                    budget_cpu_quota_percent := None |};
  plan_execution_profile := ExecutionProfile.TrustedLocal;
  plan_execution_target := ExecutionTarget.LocalLinux;
  plan_windows_authority := WindowsAuthority.Limited;
  plan_windows_execution_context := None;
  plan_foreign_references := [];
  plan_input_set_id := None;
  plan_effective_inputs := [];
  plan_credential_set_id := None;
  plan_principal := "local-operator" |}.
Definition sample_plan : RuntimeExecutionPlan := plan_in "ws-1" "/srv/ws-1".

Definition sample_request : SubmitRequest := {|
  sub_schema_version := RUNTIME_SCHEMA_VERSION;
  sub_client_request_id := "request-1";
  sub_request_identity_digest := None;
  sub_execution_provider := None;
  sub_runtime_release_effect := None;
  sub_host_dependencies := [];
  sub_plan := sample_plan;
  sub_global_limit := 4 |}.

(** The same key, another operation. *)
Definition conflicting_request : SubmitRequest := {|
  sub_schema_version := RUNTIME_SCHEMA_VERSION;
  sub_client_request_id := "request-1";
  sub_request_identity_digest := None;
  sub_execution_provider := None;
  sub_runtime_release_effect := None;
  sub_host_dependencies := [];
  sub_plan := sample_plan;
  sub_global_limit := 5 |}.

(** Another key, the same Workspace. *)
Definition second_request : SubmitRequest := {|
  sub_schema_version := RUNTIME_SCHEMA_VERSION;
  sub_client_request_id := "request-2";
  sub_request_identity_digest := None;
  sub_execution_provider := None;
  sub_runtime_release_effect := None;
  sub_host_dependencies := [];
  sub_plan := sample_plan;
  sub_global_limit := 4 |}.

(** Another Workspace, in a Runtime of one slot. *)
Definition elsewhere_request : SubmitRequest := {|
  sub_schema_version := RUNTIME_SCHEMA_VERSION;
  sub_client_request_id := "request-3";
  sub_request_identity_digest := None;
  sub_execution_provider := None;
  sub_runtime_release_effect := None;
  sub_host_dependencies := [];
  sub_plan := plan_in "ws-2" "/srv/ws-2";
  sub_global_limit := 1 |}.

Definition sample_config : RegistryConfig := {| store_root := "/var/lib/ordivon" |}.
Definition sample_ids : PreallocatedAdmissionIds := preallocate_admission_ids "1" "1" "1".
Definition second_ids : PreallocatedAdmissionIds := preallocate_admission_ids "2" "2" "2".

Definition sample_identity : RunnerIdentity := {|
  rid_boot_id := "boot"; rid_unit_name := "ordivon-attempt-1.service";
  rid_invocation_id := "invocation"; rid_control_group := "/ordivon";
  rid_main_pid := 42; rid_process_start_identity := "start-42";
  rid_runner_start_digest := sample_digest; rid_observed_at_ms := 30 |}.

Definition sample_terminal (version : Z) (state : AttemptState.t) : TerminalCommit := {|
  tc_attempt_id := "attempt-1";
  tc_expected_row_version := version;
  tc_state := state;
  tc_result_digest := sample_digest;
  tc_exit_code := Some 0;
  tc_infrastructure_error_digest := None;
  tc_finished_at_ms := 50;
  tc_artifacts := [];
  tc_reason_code := "RUNNER_RESULT" |}.

(** The databases of the run. *)
Definition submitted_db : Db :=
  snd (submit_preallocated io_ok sample_config FenceAcquired (Ok 10) sample_request sample_ids
         empty_db).
Definition bundled_db : Db :=
  snd (mark_bundle_ready io_ok "attempt-1" 0 sample_digest 15 submitted_db).
Definition dispatched_db : Db :=
  snd (mark_dispatch_issued io_ok "attempt-1" 1 20 bundled_db).
Definition running_db : Db :=
  snd (bind_running io_ok "attempt-1" 2 sample_identity dispatched_db).
Definition finished_db : Db :=
  snd (commit_terminal io_ok (sample_terminal 3 AttemptState.Succeeded) running_db).
Definition orphaned_db : Db :=
  snd (commit_terminal io_ok (sample_terminal 3 AttemptState.Orphaned) running_db).
Definition recovered_db : Db :=
  snd (recover_orphaned_terminal io_ok (sample_terminal 4 AttemptState.Failed) orphaned_db).

Lemma step_reachable d d' : registry_reachable d -> registry_step d d' -> registry_reachable d'.
Proof. apply rtc_r. Qed.

Lemma submitted_reachable : registry_reachable submitted_db.
Proof. apply rtc_once, StepSubmit. Qed.
Lemma bundled_reachable : registry_reachable bundled_db.
Proof. eapply step_reachable; [apply submitted_reachable | apply StepBundleReady]. Qed.
Lemma dispatched_reachable : registry_reachable dispatched_db.
Proof. eapply step_reachable; [apply bundled_reachable | apply StepDispatchIssued]. Qed.
Lemma running_reachable : registry_reachable running_db.
Proof. eapply step_reachable; [apply dispatched_reachable | apply StepBindRunning]. Qed.
Lemma finished_reachable : registry_reachable finished_db.
Proof. eapply step_reachable; [apply running_reachable | apply StepTerminal]. Qed.
Lemma orphaned_reachable : registry_reachable orphaned_db.
Proof. eapply step_reachable; [apply running_reachable | apply StepTerminal]. Qed.
Lemma recovered_reachable : registry_reachable recovered_db.
Proof. eapply step_reachable; [apply orphaned_reachable | apply StepRecoverOrphan]. Qed.

(** The run does what its names say. *)
Definition attempt_state_of (k : string) (d : Db) : option AttemptState.t :=
  (fun row => att_state (row_attempt row)) <$> db_attempts d !! k.

Lemma scenario_states :
  map (attempt_state_of "attempt-1")
    [submitted_db; bundled_db; dispatched_db; running_db; finished_db; orphaned_db; recovered_db]
  = [Some AttemptState.Accepted; Some AttemptState.Accepted; Some AttemptState.Starting;
     Some AttemptState.Running; Some AttemptState.Succeeded; Some AttemptState.Orphaned;
     Some AttemptState.Failed].
Proof. vm_compute. reflexivity. Qed.
