(* ===== verification/Safety.v ===== *)
(** * Safety of the Registry

    What holds in every reachable database: the inspection of
    [inspect_runtime_invariants_connection] finds nothing, capacity is never
    oversubscribed, and what is decided stays decided. *)

From S2P Require Import Prelude Text Errors Types Supervisor Platform TestPlatform Validation.
From S2P Require Import Submit Store Transaction Projection Preservation Lifecycle Admission.
From S2P Require Import Recovery AdminRepair Registry StoreInvariant Scenario.

#[local] Open Scope Z_scope.

(** ** The inspection finds nothing *)

Lemma collect_nil rows code detail : rows = [] -> collect rows code detail = [].
Proof. by intros ->. Qed.

Lemma omap_nil {A B} (f : A -> option B) l : (forall x, x ∈ l -> f x = None) -> omap f l = [].
Proof.
  induction l as [ | x l IH]; intros H; [done | ]. simpl.
  rewrite (H x) by apply list_elem_of_here. apply IH. intros y Hy. apply H.
  by apply list_elem_of_further.
Qed.

Lemma map_nil_of {A B} (f : A -> B) l : (forall x, x ∉ l) -> map f l = [].
Proof. destruct l as [ | x l]; [done | ]. intros H. exfalso. apply (H x), list_elem_of_here. Qed.

Lemma elem_of_jobs_where f d j :
  j ∈ jobs_where f d -> exists k, db_jobs d !! k = Some j /\ f j = true.
Proof.
  unfold jobs_where. rewrite list_elem_of_In, filter_In. intros [Hin Hf].
  apply in_map_iff in Hin as ([k j'] & Heq & Hin). simpl in Heq. subst.
  apply list_elem_of_In, elem_of_map_to_list in Hin. eauto.
Qed.

Lemma elem_of_attempts_where f d a :
  a ∈ attempts_where f d ->
  exists k row, db_attempts d !! k = Some row /\ row_attempt row = a /\ f a = true.
Proof.
  unfold attempts_where. rewrite list_elem_of_In, filter_In. intros [Hin Hf].
  apply in_map_iff in Hin as ([k row] & Heq & Hin). simpl in Heq. subst.
  apply list_elem_of_In, elem_of_map_to_list in Hin. eauto.
Qed.

(** The cell of a Job. *)
Lemma job_cell d k job :
  store_wf d -> db_jobs d !! k = Some job ->
  exists a row res, db_attempts d !! a = Some row /\ db_reservations d !! a = Some res
    /\ att_attempt_id (row_attempt row) = a /\ att_job_id (row_attempt row) = k
    /\ cell_ok job (row_attempt row) (row_reservation res).
Proof.
  intros Hwf Hjob. destruct (wf_jobs _ Hwf _ _ Hjob) as (_ & (a & row & Hrow & Hj) & _).
  destruct (wf_attempts _ Hwf _ _ Hrow) as (Hid & _ & j & res & Hj' & Hres & Hcell).
  rewrite Hj in Hj'. simplify_eq. eauto 10.
Qed.

Lemma resolution_for_state_matches s resolution :
  resolution_for_state s = Ok resolution -> resolution_matches resolution s = true.
Proof. by destruct s; intros [= <-]. Qed.

Lemma inspect_cells_nil d :
  store_wf d -> resolution_mismatch d = [] /\ terminal_without_evidence d = []
    /\ reservation_mismatch conclusive ReservationState.Released d = []
    /\ reservation_mismatch (fun s => s == AttemptState.Orphaned) ReservationState.HeldOrphaned d
       = [].
Proof.
  intros Hwf. split; [ | split; [ | split]].
  - apply omap_nil. intros a Hin. apply elem_of_attempts_where in Hin as (k & row & Hk & <- & _).
    destruct (wf_attempts _ Hwf _ _ Hk) as (_ & _ & job & res & Hj & _ & Hcell).
    rewrite Hj. simpl. destruct (job_resolution job) as [r | ] eqn:Hr; [ | done]. simpl.
    destruct Hcell as [_ [Ho | Hc]]; [by destruct Ho; congruence | ].
    destruct (closed_resolution _ _ _ Hc) as (r' & Hr' & Hs). simplify_eq.
    by rewrite (resolution_for_state_matches _ _ Hs), andb_false_r.
  - apply map_nil_of. intros a Hin.
    apply elem_of_attempts_where in Hin as (k & row & Hk & <- & Hf). bool_props.
    destruct (wf_attempts _ Hwf _ _ Hk) as (_ & _ & job & res & _ & _ & Hcell).
    destruct (cell_ok_closed _ _ _ Hcell); [done | ].
    apply orb_prop in H0 as [H0 | H0]; by apply bool_decide_eq_true in H0.
  - apply omap_nil. intros a Hin. apply elem_of_attempts_where in Hin as (k & row & Hk & <- & Hf).
    destruct (wf_attempts _ Hwf _ _ Hk) as (Hid & _ & job & res & _ & Hres & Hcell).
    rewrite Hid, Hres. simpl.
    rewrite (closed_reservation _ _ _ (cell_ok_closed _ _ _ Hcell ltac:(by destruct (att_state _)))).
    by destruct (att_state _).
  - apply omap_nil. intros a Hin. apply elem_of_attempts_where in Hin as (k & row & Hk & <- & Hf).
    destruct (wf_attempts _ Hwf _ _ Hk) as (Hid & _ & job & res & _ & Hres & Hcell).
    rewrite Hid, Hres. simpl. apply bool_decide_eq_true in Hf.
    rewrite (closed_reservation _ _ _ (cell_ok_closed _ _ _ Hcell ltac:(by rewrite Hf))).
    by rewrite Hf.
Qed.

Lemma inspect_jobs_nil d :
  store_wf d -> unresolved_without_current d = [] /\ resolved_with_current d = []
    /\ unresolved_on_terminal d = [].
Proof.
  intros Hwf. split; [ | split].
  - apply map_nil_of. intros j Hin. apply elem_of_jobs_where in Hin as (k & Hj & Hf). bool_props.
    destruct (job_cell _ _ _ Hwf Hj) as (a & row & res & _ & _ & _ & _ & Hcell).
    destruct (cell_ok_unresolved _ _ _ Hcell); congruence.
  - apply map_nil_of. intros j Hin. apply elem_of_jobs_where in Hin as (k & Hj & Hf). bool_props.
    destruct (job_cell _ _ _ Hwf Hj) as (a & row & res & _ & _ & _ & _ & [_ [Ho | Hc]]).
    + by destruct Ho; congruence.
    + by destruct Hc; congruence.
  - apply omap_nil. intros j Hin. apply elem_of_jobs_where in Hin as (k & Hj & Hf). bool_props.
    destruct (job_cell _ _ _ Hwf Hj) as (a & row & res & Hrow & _ & Hid & _ & Hcell).
    pose proof (cell_ok_unresolved _ _ _ Hcell Hf) as Ho.
    rewrite (open_current _ _ _ Ho), Hid. simpl. rewrite Hrow. simpl.
    by rewrite (open_state _ _ _ Ho).
Qed.

(** C1: in every database reachable by the Registry's operations, whatever
    SQLite did on the way, the inspection reports no violation: an unresolved
    Job points to its nonterminal Attempt, a resolved Job agrees with its
    terminal Attempt, terminal Attempts have their evidence, and reservations
    are held exactly while a process may be alive. *)
Theorem reachable_inspection_clean `{P : Platform} d :
  registry_reachable d -> inspect_runtime_invariants_connection d = [].
Proof.
  intros Hr. apply reachable_wf in Hr.
  destruct (inspect_jobs_nil d Hr) as (H1 & H2 & H3).
  destruct (inspect_cells_nil d Hr) as (H4 & H5 & H6 & H7).
  unfold inspect_runtime_invariants_connection.
  by rewrite H1, H2, H3, H4, H5, H6, H7.
Qed.

Lemma reachable_inspection_clean_witness :
  registry_reachable orphaned_db /\ inspect_runtime_invariants_connection orphaned_db = [].
Proof.
  split; [exact orphaned_reachable | ].
  apply reachable_inspection_clean. exact orphaned_reachable.
Defined.

(** ** Capacity *)

(** Rows that can only come from one key are at most one. *)
Lemma omap_at_most_one {K V B} (h : K * V -> option B) (l : list (K * V)) :
  NoDup (map fst l) ->
  (forall x y, x ∈ l -> y ∈ l -> h x <> None -> h y <> None -> x.1 = y.1) ->
  (length (omap h l) <= 1)%nat.
Proof.
  induction l as [ | x l IH]; intros Hnd Hu; [simpl; lia | ].
  apply NoDup_cons in Hnd as [Hx Hnd]. simpl.
  assert (Hl : (length (omap h l) <= 1)%nat)
    by (apply IH; [done | ]; intros y z Hy Hz; apply Hu; by apply list_elem_of_further).
  destruct (h x) as [b | ] eqn:Hb; [ | done].
  assert (Hnil : omap h l = []); [apply omap_nil | unfold omap in Hnil; rewrite Hnil; simpl; lia].
  intros y Hy. destruct (h y) eqn:Hhy; [exfalso | done]. apply Hx.
  rewrite (Hu x y (list_elem_of_here _ _) (list_elem_of_further _ _ _ Hy)); [ | congruence..].
  apply list_elem_of_In, in_map, list_elem_of_In, Hy.
Qed.

Lemma filter_omap {A B} (p : B -> bool) (g : A -> option B) l :
  List.filter p (omap g l) = omap (fun x => b ← g x; if p b then Some b else None) l.
Proof.
  unfold omap in *. induction l as [ | x l IH]; [done | ]. simpl.
  destruct (g x) as [b | ]; simpl; [ | done]. destruct (p b); by rewrite IH.
Qed.

Lemma store_wf_workspace_active d w : store_wf d -> workspace_active w d <= 1.
Proof.
  intros Hwf. unfold workspace_active, live_joined. rewrite filter_omap.
  match goal with |- Z.of_nat (length ?x) <= 1 => enough ((length x <= 1)%nat) by lia end.
  apply omap_at_most_one; [apply NoDup_fst_map_to_list | ].
  intros [k1 s1] [k2 s2] H1 H2 Hd1 Hd2. simpl in *.
  apply elem_of_map_to_list in H1, H2.
  destruct (wf_reservations _ Hwf _ _ H1) as [E1 _], (wf_reservations _ Hwf _ _ H2) as [E2 _].
  rewrite E1 in Hd1. rewrite E2 in Hd2.
  destruct (live_reservation (row_reservation s1)) eqn:L1; [ | done].
  destruct (live_reservation (row_reservation s2)) eqn:L2; [ | done].
  destruct (db_attempts d !! k1) as [r1 | ] eqn:R1; [ | done].
  destruct (db_attempts d !! k2) as [r2 | ] eqn:R2; [ | done]. simpl in Hd1, Hd2.
  destruct (db_jobs d !! att_job_id (row_attempt r1)) as [j1 | ] eqn:J1; [ | done].
  destruct (db_jobs d !! att_job_id (row_attempt r2)) as [j2 | ] eqn:J2; [ | done].
  unfold in_workspace in Hd1, Hd2. simpl in Hd1, Hd2.
  destruct (String.eqb_spec (job_workspace_id j1) w) as [W1 | ]; [ | done].
  destruct (String.eqb_spec (job_workspace_id j2) w) as [W2 | ]; [ | done].
  eapply (wf_workspace _ Hwf k1 k2 s1 s2 r1 r2 j1 j2); congruence.
Qed.

(** C2: a Workspace is never oversubscribed.  In every reachable database the
    number of live (active or orphan-held) reservations of a Workspace is at
    most [WORKSPACE_EXECUTION_LIMIT]. *)
Theorem workspace_capacity_respected `{P : Platform} d w :
  registry_reachable d -> workspace_active w d <= WORKSPACE_EXECUTION_LIMIT.
Proof. intros Hr. by apply store_wf_workspace_active, reachable_wf. Qed.

Lemma workspace_capacity_respected_witness :
  registry_reachable orphaned_db /\ workspace_active "ws-1" orphaned_db = 1
  /\ workspace_active "ws-1" orphaned_db <= WORKSPACE_EXECUTION_LIMIT.
Proof.
  split; [exact orphaned_reachable | split; [vm_compute; reflexivity | ]].
  apply workspace_capacity_respected. exact orphaned_reachable.
Defined.
