(* ===== verification/History.v ===== *)
(** * What no operation undoes

    The event log is append-only, a dispatch is issued at most once, outcomes
    are final, identities are immutable, and row versions stamp every change. *)

From S2P Require Import Prelude Text Errors Types Supervisor Platform TestPlatform Validation.
From S2P Require Import Submit Store Transaction Projection Lifecycle Admission Preservation.
From S2P Require Import Recovery AdminRepair Registry StoreInvariant Scenario.

(** ** The event log

    [append_event] is the only statement that writes [job_events]: the log of
    every reachable database is append-only and numbers the events of each Job
    1, 2, 3, ... *)

#[local] Open Scope Z_scope.

Definition events_of (job_id : string) (events : list JobEvent) : list JobEvent :=
  List.filter (fun e => String.eqb (ev_job_id e) job_id) events.

(** The events of each Job are numbered from 1 without gaps. *)
Definition log_ok (events : list JobEvent) : Prop :=
  forall j, map ev_event_sequence (events_of j events)
            = seqZ 1 (Z.of_nat (length (events_of j events))).

Lemma events_of_app j l1 l2 : events_of j (l1 ++ l2) = events_of j l1 ++ events_of j l2.
Proof. apply List.filter_app. Qed.

Lemma max_sequence_events_of j l : max_sequence j l = max_sequence j (events_of j l).
Proof.
  induction l as [ | e l IH]; [done | ]. simpl.
  destruct (String.eqb (ev_job_id e) j) eqn:He; simpl; [rewrite He | ]; by rewrite IH.
Qed.

(** On a numbered log the maximum is the number of events. *)
Lemma max_sequence_numbered j l : forall m n,
  Forall (fun e => ev_job_id e = j) l -> 0 <= m ->
  map ev_event_sequence l = seqZ (m + 1) n -> 0 <= n ->
  max_sequence j l = if n =? 0 then 0 else m + n.
Proof.
  induction l as [ | e l IH]; intros m n Hall Hm Hs Hn.
  - destruct (Z.eqb_spec n 0) as [-> | Hne]; [done | ]. rewrite seqZ_cons in Hs by lia. done.
  - apply Forall_cons in Hall as [He Hall]. simpl.
    rewrite (proj2 (String.eqb_eq _ _) He).
    destruct (Z.eqb_spec n 0) as [-> | Hne]; [done | ].
    rewrite seqZ_cons in Hs by lia. simpl in Hs. injection Hs as He1 Hs.
    rewrite (IH (m + 1) (n - 1)); [ | done | lia | | lia].
    + destruct (Z.eqb_spec (n - 1) 0); lia.
    + rewrite Hs. f_equal; lia.
Qed.

Lemma events_of_job j events : Forall (fun e => ev_job_id e = j) (events_of j events).
Proof.
  apply Forall_forall. intros e Hin. apply list_elem_of_In, filter_In in Hin as [_ He].
  by apply String.eqb_eq.
Qed.

Lemma log_ok_max j events :
  log_ok events -> max_sequence j events = Z.of_nat (length (events_of j events)).
Proof.
  intros Hseq. rewrite max_sequence_events_of.
  rewrite (max_sequence_numbered j _ 0 (Z.of_nat (length (events_of j events))));
    [ | apply events_of_job | done | apply Hseq | lia].
  destruct (Z.eqb_spec (Z.of_nat (length (events_of j events))) 0); lia.
Qed.

(** The log only grows, and stays numbered. *)
Definition log_rel (d d' : Db) : Prop :=
  db_events d `prefix_of` db_events d' /\ (log_ok (db_events d) -> log_ok (db_events d')).

#[export] Instance log_rel_preorder : PreOrder log_rel.
Proof.
  split.
  - intros d. by split.
  - intros d1 d2 d3 [H1 H2] [H3 H4]. split; [by etrans | auto].
Qed.

Lemma log_rel_same d d' : db_events d' = db_events d -> log_rel d d'.
Proof. intros He. unfold log_rel. by rewrite He. Qed.

#[export] Instance log_rel_frame : Frame log_rel.
Proof. split; [apply _ | ]. intros. by apply log_rel_same. Qed.

Section log.
Context `{P : Platform}.

Lemma log_ok_append events j a ty o ps ns rc dt at_ms :
  log_ok events ->
  log_ok (events ++ [new_event j a ty o ps ns rc dt at_ms events]).
Proof.
  intros Hok k. pose proof (log_ok_max j _ Hok) as Hmax.
  set (e := new_event j a ty o ps ns rc dt at_ms events).
  assert (He : events_of k [e] = if String.eqb j k then [e] else []) by done.
  rewrite events_of_app, map_app, Hok, length_app, He.
  destruct (String.eqb_spec j k) as [<- | Hne].
  - rewrite Nat2Z.inj_add, seqZ_app by lia. f_equal.
    simpl. rewrite Hmax. rewrite seqZ_cons by lia. simpl. f_equal. lia.
  - simpl. by rewrite app_nil_r, Nat.add_0_r.
Qed.

Lemma tx_log_append j a ty o ps ns rc dt at_ms :
  tx_rel log_rel (append_event j a ty o ps ns rc dt at_ms).
Proof.
  intros d u d' H. apply append_event_inv in H as ->. split; simpl.
  - by eexists.
  - apply log_ok_append.
Qed.

Lemma tx_log_update_attempts ctx k w s : tx_rel log_rel (update_attempts ctx k w s).
Proof. apply tx_rel_update_attempts; [apply _ | ]. intros. by apply log_rel_same. Qed.

Lemma tx_log_update_jobs ctx k w s : tx_rel log_rel (update_jobs ctx k w s).
Proof. apply tx_rel_update_jobs; [apply _ | ]. intros. by apply log_rel_same. Qed.

(** An INSERT never writes an event. *)
Lemma tx_log_insert violated ctx set :
  (forall d, db_events (set d) = db_events d) -> tx_rel log_rel (insert_unless violated ctx set).
Proof.
  intros Hs d u d' H. apply log_rel_same. apply insert_unless_inv in H as [_ ->]. apply Hs.
Qed.

Lemma tx_log_insert_job job : tx_rel log_rel (insert_job job).
Proof. by apply tx_log_insert. Qed.

Lemma tx_log_insert_attempt a : tx_rel log_rel (insert_attempt a).
Proof. by apply tx_log_insert. Qed.

Hint Resolve tx_log_append tx_log_update_attempts tx_log_update_jobs tx_log_insert_job
  tx_log_insert_attempt : ordivon.

Lemma registry_body_log d d' : registry_body d d' -> log_rel d d'.
Proof. intros Hb. destruct Hb; try destruct operation; registry_body_auto. Qed.
End log.

Lemma reachable_log_ok `{P : Platform} d : registry_reachable d -> log_ok (db_events d).
Proof.
  apply (reachable_invariant (fun d => log_ok (db_events d))); [done | ].
  intros d1 d2 Hok Hb. by apply (registry_body_log d1 d2 Hb).
Qed.

(** C26: the event log is an append-only, gap-free history.  From any reachable
    database every step extends [job_events] by a suffix, and for each Job the
    stored sequence numbers stay exactly 1, 2, ..., n, in the order of the
    log. *)
Theorem event_log_append_only `{P : Platform} d d' :
  registry_reachable d -> registry_step d d' ->
  db_events d `prefix_of` db_events d' /\ log_ok (db_events d').
Proof.
  intros Hr Hs. destruct (step_rel log_rel registry_body_log d d' Hs) as [Hp Hok].
  split; [done | ]. by apply Hok, reachable_log_ok.
Qed.

Lemma event_log_append_only_witness :
  registry_reachable running_db /\ db_events running_db `prefix_of` db_events finished_db
  /\ map ev_event_sequence (events_of "job-1" (db_events finished_db)) = [1; 2; 3; 4; 5; 6; 7; 8].
Proof.
  destruct (event_log_append_only running_db finished_db running_reachable
              (StepTerminal _ _ _)) as [Hp Hok].
  split; [exact running_reachable | split; [exact Hp | ]].
  rewrite Hok. vm_compute. reflexivity.
Defined.

(** ** At-most-once dispatch

    [mark_dispatch_issued] is the boundary that the formal model
    [formal/RuntimeDispatchR1.tla] describes: an Attempt crosses it once, and
    only an Attempt that crossed it can be in flight. *)

#[local] Open Scope Z_scope.

Definition is_dispatch (k : string) (e : JobEvent) : bool :=
  String.eqb (ev_event_type e) "DISPATCH_ISSUED" && (ev_attempt_id e == Some k).

(** How often the dispatch of Attempt [k] was committed. *)
Definition dispatches (k : string) (d : Db) : nat :=
  length (List.filter (is_dispatch k) (db_events d)).

Definition in_state (p : AttemptState.t -> bool) (k : string) (d : Db) : Prop :=
  exists row, db_attempts d !! k = Some row /\ p (att_state (row_attempt row)) = true.

Definition left_accepted (s : AttemptState.t) : bool := s != AttemptState.Accepted.

(** What every operation but the dispatch does to the dispatch state. *)
Definition dispatch_rel (d d' : Db) : Prop := forall k,
  dispatches k d' = dispatches k d
  /\ (in_state left_accepted k d -> in_state left_accepted k d')
  /\ (in_state dispatched_nonterminal k d' -> in_state dispatched_nonterminal k d).

#[export] Instance dispatch_rel_preorder : PreOrder dispatch_rel.
Proof.
  split; [done | ]. intros d1 d2 d3 H1 H2 k.
  destruct (H1 k) as (? & ? & ?), (H2 k) as (? & ? & ?). split; [congruence | auto].
Qed.

Lemma dispatch_rel_same d d' :
  db_events d' = db_events d -> db_attempts d' = db_attempts d -> dispatch_rel d d'.
Proof. intros He Ha k. unfold dispatches, in_state. by rewrite He, Ha. Qed.

#[export] Instance dispatch_rel_frame : Frame dispatch_rel.
Proof. split; [apply _ | ]. intros. by apply dispatch_rel_same. Qed.

(** A change of state that neither returns to accepted nor takes off. *)
Definition state_rel (s s' : AttemptState.t) : Prop :=
  (left_accepted s = true -> left_accepted s' = true)
  /\ (dispatched_nonterminal s' = true -> dispatched_nonterminal s = true).

Lemma tx_dispatch_update_attempts ctx k w s :
  (forall row, w row = true -> state_rel (att_state (row_attempt row))
                                 (att_state (row_attempt (s row)))) ->
  tx_rel dispatch_rel (update_attempts ctx k w s).
Proof.
  intros Hs. apply tx_rel_update_attempts; [apply _ | ]. intros d row Hk Hw _ k'.
  destruct (Hs row Hw) as [H1 H2]. split; [done | ]. unfold in_state; simpl.
  destruct (decide (k' = k)) as [-> | Hne].
  - rewrite lookup_insert_eq. split.
    + intros (r & ? & ?). simplify_eq. eauto.
    + intros (r & [= <-] & ?). eauto.
  - by rewrite lookup_insert_ne.
Qed.

Section dispatch.
Context `{P : Platform}.

Lemma tx_dispatch_append j a ty o ps ns rc dt at_ms :
  String.eqb ty "DISPATCH_ISSUED" = false ->
  tx_rel dispatch_rel (append_event j a ty o ps ns rc dt at_ms).
Proof.
  intros Hty d u d' H k. apply append_event_inv in H as ->. split; [ | done].
  unfold dispatches; simpl. rewrite List.filter_app, length_app. simpl.
  unfold is_dispatch at 2. simpl. rewrite Hty. simpl. lia.
Qed.

Lemma tx_dispatch_update_jobs ctx k w s : tx_rel dispatch_rel (update_jobs ctx k w s).
Proof. apply tx_rel_update_jobs; [apply _ | ]. intros. by apply dispatch_rel_same. Qed.

Lemma tx_dispatch_insert_job job : tx_rel dispatch_rel (insert_job job).
Proof.
  intros d u d' H. unfold insert_job in H. apply insert_unless_inv in H as [_ ->].
  by apply dispatch_rel_same.
Qed.

Lemma tx_dispatch_insert_attempt a :
  att_state a = AttemptState.Accepted -> tx_rel dispatch_rel (insert_attempt a).
Proof.
  intros Hacc d u d' H k. unfold insert_attempt in H.
  apply insert_unless_inv in H as [Hnew ->]. bool_props.
  apply present_false in H. split; [done | ]. unfold in_state; simpl.
  destruct (decide (k = att_attempt_id a)) as [-> | Hne].
  - rewrite lookup_insert_eq. split.
    + intros (r & ? & ?). congruence.
    + intros (r & [= <-] & Hr). simpl in Hr. by rewrite Hacc in Hr.
  - by rewrite lookup_insert_ne.
Qed.
End dispatch.

#[export] Hint Resolve tx_dispatch_update_jobs tx_dispatch_insert_job : ordivon.
#[export] Hint Extern 1 (tx_rel dispatch_rel (append_event _ _ _ _ _ _ _ _ _)) =>
  apply tx_dispatch_append; reflexivity : ordivon.
#[export] Hint Extern 1 (tx_rel dispatch_rel (insert_attempt _)) =>
  apply tx_dispatch_insert_attempt; reflexivity : ordivon.

(** The state conditions of the UPDATEs, by cases on the old state. *)
Ltac solve_state_rel :=
  apply tx_dispatch_update_attempts; intros row Hw; simpl; bool_props;
  unfold bindable, owner_bindable, owner_bound_state, stoppable, dispatched_nonterminal,
    left_accepted, state_rel in *;
  destruct (att_state (row_attempt row)); try done; simpl in *; try done.
#[export] Hint Extern 2 (tx_rel dispatch_rel (update_attempts _ _ _ _)) =>
  solve_state_rel : ordivon.

Section bodies.
Context `{P : Platform}.

Lemma terminal_state_rel s s' : AttemptState.is_terminal s' = true -> state_rel s s'.
Proof. by destruct s, s'. Qed.

Lemma tx_dispatch_terminal ctx k w request :
  AttemptState.is_terminal (tc_state request) = true ->
  tx_rel dispatch_rel (update_attempts ctx k w (on_attempt (apply_terminal request))).
Proof. intros Ht. apply tx_dispatch_update_attempts. intros row _. by apply terminal_state_rel. Qed.

Hint Resolve tx_dispatch_terminal : ordivon.

Lemma conclusive_terminal s : conclusive s = true -> AttemptState.is_terminal s = true.
Proof. by destruct s. Qed.

Lemma repair_allowed_terminal from to :
  negb (repair_allowed from to) = false -> AttemptState.is_terminal to = true.
Proof. by destruct from, to. Qed.

Hint Resolve conclusive_terminal : ordivon.
Hint Extern 1 (AttemptState.is_terminal _ = true) =>
  eapply repair_allowed_terminal; eassumption : ordivon.

(** Every body but the dispatch and the admission. *)
Lemma registry_body_dispatch d d' :
  registry_body d d' ->
  (exists k v t f, mark_dispatch_issued_tx k v t d = Ok (f, d')) \/ dispatch_rel d d'.
Proof.
  intros Hb. destruct Hb; [ | | left; by eauto | ..]; right; try destruct operation;
    registry_body_auto.
Qed.
End bodies.

(** Each Attempt is dispatched at most once, and what is in flight was dispatched. *)
Definition dispatch_inv (d : Db) : Prop := forall k,
  (dispatches k d <= 1)%nat
  /\ (dispatches k d = 1%nat -> in_state left_accepted k d)
  /\ (in_state dispatched_nonterminal k d -> dispatches k d = 1%nat).

Section invariant.
Context `{P : Platform}.

Lemma dispatch_rel_inv d d' : dispatch_inv d -> dispatch_rel d d' -> dispatch_inv d'.
Proof.
  intros Hinv Hrel k. destruct (Hinv k) as (H1 & H2 & H3), (Hrel k) as (R1 & R2 & R3).
  rewrite R1. auto.
Qed.

Lemma mark_dispatch_issued_inv k version at_ms d f d' :
  dispatch_inv d -> mark_dispatch_issued_tx k version at_ms d = Ok (f, d') -> dispatch_inv d'.
Proof.
  intros Hinv H. unfold mark_dispatch_issued_tx in H. inv_update. bool_props. simplify_eq.
  intros k'. destruct (Hinv k') as (H4 & H5 & H6).
  unfold dispatches, in_state in *; simpl. rewrite List.filter_app, length_app. simpl.
  unfold is_dispatch at 2 4 6. simpl. destruct (decide (k = k')) as [-> | Hne].
  - rewrite bool_decide_eq_true_2, lookup_insert_eq by done. simpl.
    assert (Hz : length (List.filter (is_dispatch k') (db_events d)) = 0%nat).
    { destruct (length _) as [ | [ | n]] eqn:Hn; [done | | lia].
      destruct H5 as (r & ? & Hr); [done | ]. simplify_eq. unfold left_accepted in Hr.
      by rewrite H in Hr. }
    rewrite Hz. simpl. split; [lia | ]. split; [ | done]. intros _. by eexists.
  - rewrite bool_decide_eq_false_2, lookup_insert_ne by congruence. simpl.
    rewrite Nat.add_0_r. auto.
Qed.

Lemma reachable_dispatch_inv d : registry_reachable d -> dispatch_inv d.
Proof.
  apply reachable_invariant.
  - intros k. split; [simpl; unfold dispatches; simpl; lia | ]. split; [done | ].
    intros (row & Hk & _). simpl in Hk. by rewrite lookup_empty in Hk.
  - intros d1 d2 Hinv Hb.
    destruct (registry_body_dispatch _ _ Hb) as [(k & v & t & f & H) | Hrel].
    + by eapply mark_dispatch_issued_inv.
    + by eapply dispatch_rel_inv.
Qed.

(** C24: at-most-once dispatch.  In every reachable database the dispatch of an
    Attempt was committed at most once, and exactly once for an Attempt that is
    in flight (starting, running, recovering or stopping): no Runner runs
    without a committed dispatch intent, none is launched twice. *)
Theorem at_most_once_dispatch d k :
  registry_reachable d ->
  (dispatches k d <= 1)%nat
  /\ (in_state dispatched_nonterminal k d -> dispatches k d = 1%nat).
Proof. intros Hr. destruct (reachable_dispatch_inv d Hr k) as (? & _ & ?). auto. Qed.
End invariant.

Lemma at_most_once_dispatch_witness :
  registry_reachable running_db /\ in_state dispatched_nonterminal "attempt-1" running_db
  /\ dispatches "attempt-1" running_db = 1%nat.
Proof.
  assert (Hs : in_state dispatched_nonterminal "attempt-1" running_db).
  { eexists. split; vm_compute; reflexivity. }
  split; [exact running_reachable | ]. split; [exact Hs | ].
  apply (at_most_once_dispatch running_db "attempt-1"); [exact running_reachable | exact Hs].
Defined.

(** ** Finality of outcomes

    Once a Runner's outcome (succeeded, failed, timed out, cancelled) is
    committed, no operation of the Registry changes it or the resolution of its
    Job; only a lost or orphaned Attempt can still be corrected. *)

#[local] Open Scope Z_scope.

(** The columns that record how an Attempt ended. *)
Definition outcome (a : AttemptRecord) : AttemptState.t * option string * option Z * option string
    * option Z :=
  (att_state a, att_result_digest a, att_exit_code a, att_infrastructure_error_digest a,
   att_finished_at_ms a).

Definition final_resolution (r : JobResolution.t) : bool :=
  match r with
  | JobResolution.Succeeded | JobResolution.Failed | JobResolution.TimedOut
  | JobResolution.Cancelled => true
  | _ => false
  end.

Definition final_rel (d d' : Db) : Prop :=
  (forall k row, db_attempts d !! k = Some row -> runner_terminal (att_state (row_attempt row)) = true ->
     exists row', db_attempts d' !! k = Some row'
       /\ outcome (row_attempt row') = outcome (row_attempt row))
  /\ (forall k job r, db_jobs d !! k = Some job -> job_resolution job = Some r ->
        final_resolution r = true ->
        exists job', db_jobs d' !! k = Some job' /\ job_resolution job' = Some r).

#[export] Instance final_rel_preorder : PreOrder final_rel.
Proof.
  split; [split; eauto | ]. intros d1 d2 d3 [A1 J1] [A2 J2]. split.
  - intros k row Hk Hf. destruct (A1 _ _ Hk Hf) as (row' & Hk' & Ho).
    destruct (A2 _ _ Hk') as (row'' & ? & ?); [ | eexists; split; [done | congruence]].
    unfold outcome in Ho. injection Ho as Hs _ _ _ _. by rewrite Hs.
  - intros k job r Hk Hr Hf. destruct (J1 _ _ _ Hk Hr Hf) as (job' & ? & ?). eauto.
Qed.

Lemma final_rel_same d d' :
  db_attempts d' = db_attempts d -> db_jobs d' = db_jobs d -> final_rel d d'.
Proof. intros Ha Hj. unfold final_rel. rewrite Ha, Hj. split; eauto. Qed.

#[export] Instance final_rel_frame : Frame final_rel.
Proof. split; [apply _ | ]. intros. by apply final_rel_same. Qed.

Lemma tx_final_update_attempts ctx k w s :
  (forall row, w row = true -> runner_terminal (att_state (row_attempt row)) = true ->
     outcome (row_attempt (s row)) = outcome (row_attempt row)) ->
  tx_rel final_rel (update_attempts ctx k w s).
Proof.
  intros Hs. apply tx_rel_update_attempts; [apply _ | ]. intros d row Hk Hw _.
  split; simpl; [ | eauto]. intros k' row' Hk' Hf.
  destruct (decide (k' = k)) as [-> | Hne].
  - simplify_eq. rewrite lookup_insert_eq. eauto.
  - rewrite lookup_insert_ne by done. eauto.
Qed.

(** The trigger guards the resolution. *)
Lemma tx_final_update_jobs ctx k w s : tx_rel final_rel (update_jobs ctx k w s).
Proof.
  apply tx_rel_update_jobs; [apply _ | ]. intros d job Hk _ Ht.
  split; simpl; [eauto | ]. intros k' job' r Hk' Hr Hf.
  destruct (decide (k' = k)) as [-> | Hne].
  - simplify_eq. rewrite lookup_insert_eq. eexists. split; [done | ].
    rewrite Hr in Ht. simpl in Ht. apply andb_false_iff in Ht as [Ht | Ht].
    + by apply negb_false_iff, bool_decide_eq_true in Ht.
    + by destruct r.
  - rewrite lookup_insert_ne by done. eauto.
Qed.

Section final.
Context `{P : Platform}.

Lemma tx_final_append j a ty o ps ns rc dt at_ms :
  tx_rel final_rel (append_event j a ty o ps ns rc dt at_ms).
Proof. intros d u d' H. apply append_event_inv in H as ->. by apply final_rel_same. Qed.

Lemma tx_final_insert_attempt a : tx_rel final_rel (insert_attempt a).
Proof.
  intros d u d' H. unfold insert_attempt in H. apply insert_unless_inv in H as [Hnew ->].
  bool_props. apply present_false in H. split; simpl; [ | eauto]. intros k row Hk _.
  rewrite lookup_insert_ne by congruence. eauto.
Qed.

Lemma tx_final_insert_job job : tx_rel final_rel (insert_job job).
Proof.
  intros d u d' H. unfold insert_job in H. apply insert_unless_inv in H as [Hnew ->].
  bool_props. apply present_false in H. split; simpl; [eauto | ]. intros k j r Hk Hr _.
  rewrite lookup_insert_ne by congruence. eauto.
Qed.
End final.

#[export] Hint Resolve tx_final_update_jobs tx_final_append tx_final_insert_attempt
  tx_final_insert_job : ordivon.

(** The WHERE clause excludes a final state, or the SET keeps the outcome. *)
Ltac solve_final :=
  apply tx_final_update_attempts; intros row Hw Hfinal; simpl in *; bool_props;
  try reflexivity; exfalso;
  unfold bindable, owner_bindable, stoppable, dispatched_nonterminal in *;
  match goal with
  | H : repair_allowed ?a _ = true, E : att_state (row_attempt row) = ?a |- _ =>
      rewrite <- E in H; destruct (att_state (row_attempt row)), (tc_state _); done
  | _ => destruct (att_state (row_attempt row)); done
  end.
#[export] Hint Extern 2 (tx_rel final_rel (update_attempts _ _ _ _)) => solve_final : ordivon.

Section bodies.
Context `{P : Platform}.

Lemma registry_body_final d d' : registry_body d d' -> final_rel d d'.
Proof. intros Hb. destruct Hb; try destruct operation; registry_body_auto. Qed.

(** C25: outcomes are final.  No step of the Registry, on any database and
    whatever SQLite reports, changes the state, result digest, exit code or
    finish time of an Attempt that succeeded, failed, timed out or was
    cancelled, nor the resolution of a Job resolved that way. *)
Theorem outcome_final d d' :
  registry_step d d' ->
  (forall k row, db_attempts d !! k = Some row ->
     runner_terminal (att_state (row_attempt row)) = true ->
     exists row', db_attempts d' !! k = Some row'
       /\ outcome (row_attempt row') = outcome (row_attempt row))
  /\ (forall k job r, db_jobs d !! k = Some job -> job_resolution job = Some r ->
        final_resolution r = true ->
        exists job', db_jobs d' !! k = Some job' /\ job_resolution job' = Some r).
Proof. intros Hs. exact (step_rel final_rel registry_body_final d d' Hs). Qed.
End bodies.

Lemma outcome_final_witness :
  registry_step finished_db (snd (request_cancel io_ok "job-1" 90 finished_db))
  /\ exists row', db_attempts (snd (request_cancel io_ok "job-1" 90 finished_db))
                    !! "attempt-1"%string = Some row'
     /\ att_state (row_attempt row') = AttemptState.Succeeded.
Proof.
  split; [apply StepCancel | ].
  destruct (proj1 (outcome_final _ _ (StepCancel finished_db io_ok "job-1" 90))
              "attempt-1"%string (default {| row_attempt := new_attempt sample_config sample_ids "" 0;
                 row_recovery := None |} (db_attempts finished_db !! "attempt-1"%string)))
    as (row' & Hrow & Ho); [vm_compute; reflexivity | vm_compute; reflexivity | ].
  exists row'. split; [exact Hrow | ].
  apply (f_equal (fun o => o.1.1.1.1)) in Ho. transitivity (outcome (row_attempt row')).1.1.1.1;
    [reflexivity | ]. rewrite Ho. vm_compute. reflexivity.
Defined.

(** ** Identities are immutable

    What was admitted never changes: the request identity, plan, Workspace and
    owner of a Job, the unit and launch token of an Attempt; and an idempotency
    key keeps naming the Job it was given to. *)

#[local] Open Scope Z_scope.

#[export] Instance same_job_identity_preorder : PreOrder same_job_identity.
Proof.
  unfold same_job_identity. split; [by intros j | ].
  intros j1 j2 j3 H1 H2. decompose [and] H1. decompose [and] H2. (repeat split); congruence.
Qed.

#[export] Instance same_attempt_identity_preorder : PreOrder same_attempt_identity.
Proof.
  unfold same_attempt_identity. split; [by intros a | ].
  intros a1 a2 a3 H1 H2. decompose [and] H1. decompose [and] H2. (repeat split); congruence.
Qed.

(** Every Job and every Attempt is still there, with its identity. *)
Definition identity_rel (d d' : Db) : Prop :=
  (forall k job, db_jobs d !! k = Some job ->
     exists job', db_jobs d' !! k = Some job' /\ same_job_identity job job')
  /\ (forall k row, db_attempts d !! k = Some row ->
        exists row', db_attempts d' !! k = Some row'
          /\ same_attempt_identity (row_attempt row) (row_attempt row')).

#[export] Instance identity_rel_preorder : PreOrder identity_rel.
Proof.
  split.
  - intros d. split; intros k x Hk; (exists x; split; [done | reflexivity]).
  - intros d1 d2 d3 [J1 A1] [J2 A2]. split.
    + intros k j Hk. destruct (J1 _ _ Hk) as (j' & Hk' & ?). destruct (J2 _ _ Hk') as (j'' & ? & ?).
      exists j''. split; [done | by etrans].
    + intros k j Hk. destruct (A1 _ _ Hk) as (j' & Hk' & ?). destruct (A2 _ _ Hk') as (j'' & ? & ?).
      exists j''. split; [done | by etrans].
Qed.

#[export] Instance identity_rel_frame : Frame identity_rel.
Proof.
  split; [apply _ | ]. intros d d' Hj Ha _. unfold identity_rel. rewrite Hj, Ha.
  apply (reflexivity (R := identity_rel)).
Qed.

(** A rewritten or added row. *)
Lemma row_kept {A} (R : A -> A -> Prop) `{!PreOrder R} (m : gmap string A) k v :
  (forall x, m !! k = Some x -> R x v) ->
  forall k' x, m !! k' = Some x -> exists x', <[k := v]> m !! k' = Some x' /\ R x x'.
Proof.
  intros Hv k' x Hx. destruct (decide (k' = k)) as [-> | Hne].
  - rewrite lookup_insert_eq. eauto.
  - rewrite lookup_insert_ne by done. eexists. split; [done | reflexivity].
Qed.

Lemma rows_kept {A} (R : A -> A -> Prop) `{!PreOrder R} (m : gmap string A) k x :
  m !! k = Some x -> exists x', m !! k = Some x' /\ R x x'.
Proof. intros. eexists. split; [done | reflexivity]. Qed.

Section identity.
Context `{P : Platform}.

Lemma tx_identity_update_attempts ctx k w s :
  (forall row, same_attempt_identity (row_attempt row) (row_attempt (s row))) ->
  tx_rel identity_rel (update_attempts ctx k w s).
Proof.
  intros Hs. apply tx_rel_update_attempts; [apply _ | ]. intros d row Hk _ _.
  split; simpl; [intros k' j; by apply rows_kept, _ | ].
  intros k' r Hr. destruct (decide (k' = k)) as [-> | Hne].
  - rewrite lookup_insert_eq. simplify_eq. eauto.
  - rewrite lookup_insert_ne by done. eexists. split; [done | reflexivity].
Qed.

Lemma tx_identity_update_jobs ctx k w s :
  (forall job, same_job_identity job (s job)) -> tx_rel identity_rel (update_jobs ctx k w s).
Proof.
  intros Hs. apply tx_rel_update_jobs; [apply _ | ]. intros d job Hk _ _. split; simpl.
  - apply (row_kept same_job_identity). intros x Hx. by simplify_eq.
  - intros k' r Hr. eexists. split; [done | reflexivity].
Qed.

Lemma tx_identity_append j a ty o ps ns rc dt at_ms :
  tx_rel identity_rel (append_event j a ty o ps ns rc dt at_ms).
Proof.
  intros d u d' H. apply append_event_inv in H as ->.
  apply (reflexivity (R := identity_rel) d).
Qed.

Lemma tx_identity_insert_attempt a : tx_rel identity_rel (insert_attempt a).
Proof.
  intros d u d' H. unfold insert_attempt in H. apply insert_unless_inv in H as [Hnew ->].
  bool_props. apply present_false in H. split; simpl; intros k x Hx.
  - eexists. split; [done | reflexivity].
  - rewrite lookup_insert_ne by congruence. eexists. split; [done | reflexivity].
Qed.

Lemma tx_identity_insert_job job : tx_rel identity_rel (insert_job job).
Proof.
  intros d u d' H. unfold insert_job in H. apply insert_unless_inv in H as [Hnew ->].
  bool_props. apply present_false in H. split; simpl; intros k x Hx.
  - rewrite lookup_insert_ne by congruence. eexists. split; [done | reflexivity].
  - eexists. split; [done | reflexivity].
Qed.

Hint Resolve tx_identity_append tx_identity_insert_attempt tx_identity_insert_job : ordivon.
Hint Extern 1 (tx_rel identity_rel (update_attempts _ _ _ _)) =>
  apply tx_identity_update_attempts; intros row; by (repeat split) : ordivon.
Hint Extern 1 (tx_rel identity_rel (update_jobs _ _ _ _)) =>
  apply tx_identity_update_jobs; intros j; by (repeat split) : ordivon.

Lemma registry_body_identity d d' : registry_body d d' -> identity_rel d d'.
Proof. intros Hb. destruct Hb; try destruct operation; registry_body_auto. Qed.

(** Along any run. *)
Lemma run_identity d d' : rtc registry_step d d' -> identity_rel d d'.
Proof.
  induction 1 as [ | d1 d2 d3 Hs _ IH]; [done | ].
  etrans; [apply (step_rel identity_rel registry_body_identity _ _ Hs) | done].
Qed.

(** An idempotency key keeps naming its Job and its operation. *)
Lemma run_key d d' p c key :
  store_wf d -> store_wf d' -> rtc registry_step d d' ->
  db_idempotency_keys d !! (p, c) = Some key ->
  exists key', db_idempotency_keys d' !! (p, c) = Some key'
    /\ key_job_id key' = key_job_id key
    /\ key_operation_digest key' = key_operation_digest key.
Proof.
  intros Hwf Hwf' Hrun Hkey.
  destruct (wf_keys _ Hwf _ _ _ Hkey) as (job & Hjob & <- & <- & Hdig).
  destruct (run_identity _ _ Hrun) as [Hjobs _].
  destruct (Hjobs _ _ Hjob) as (job' & Hjob' & Hid).
  destruct Hid as (_ & Hp & Hc & _ & Ho & _).
  destruct (wf_jobs _ Hwf' _ _ Hjob') as (_ & _ & key' & Hkey' & Hj).
  rewrite Hp, Hc in Hkey'. exists key'. split; [done | ]. split; [done | ].
  destruct (wf_keys _ Hwf' _ _ _ Hkey') as (job2 & Hjob2 & _ & _ & Hdig2). congruence.
Qed.

(** identities are immutable.  Along any run of the Registry, whatever SQLite
    does, no Job and no Attempt disappears; a Job keeps its owner, client
    request, request and operation digests, Workspace, plan and admission time,
    an Attempt its Job, number, launch token, unit and bundle path; and from a
    reachable database every idempotency key keeps naming the same Job and the
    same operation. *)
Theorem identities_immutable d d' :
  registry_reachable d -> rtc registry_step d d' ->
  (forall k job, db_jobs d !! k = Some job ->
     exists job', db_jobs d' !! k = Some job' /\ same_job_identity job job')
  /\ (forall k row, db_attempts d !! k = Some row ->
        exists row', db_attempts d' !! k = Some row'
          /\ same_attempt_identity (row_attempt row) (row_attempt row'))
  /\ (forall p c key, db_idempotency_keys d !! (p, c) = Some key ->
        exists key', db_idempotency_keys d' !! (p, c) = Some key'
          /\ key_job_id key' = key_job_id key
          /\ key_operation_digest key' = key_operation_digest key).
Proof.
  intros Hr Hrun. pose proof (reachable_wf d Hr) as Hwf.
  assert (Hwf' : store_wf d') by (apply reachable_wf; unfold registry_reachable in *; by etrans).
  destruct (run_identity _ _ Hrun) as [Hj Ha]. split; [done | split; [done | ]].
  intros p c key. by apply run_key.
Qed.
End identity.

Lemma identities_immutable_witness :
  registry_reachable submitted_db /\ rtc registry_step submitted_db bundled_db
  /\ exists key', db_idempotency_keys bundled_db !! ("local-operator", "request-1") = Some key'
       /\ key_job_id key' = "job-1".
Proof.
  assert (Hrun : rtc registry_step submitted_db bundled_db) by apply rtc_once, StepBundleReady.
  split; [exact submitted_reachable | split; [exact Hrun | ]].
  destruct (identities_immutable _ _ submitted_reachable Hrun) as (_ & _ & Hk).
  destruct (db_idempotency_keys submitted_db !! ("local-operator", "request-1")) as [key | ] eqn:Hkey;
    [ | exfalso; revert Hkey; vm_compute; discriminate].
  destruct (Hk _ _ _ Hkey) as (key' & Hkey' & Hj & _). exists key'. split; [exact Hkey' | ].
  rewrite Hj. apply (f_equal (fmap key_job_id)) in Hkey. simpl in Hkey.
  cut (Some (key_job_id key) = Some "job-1"%string); [by intros [= ->] | ].
  rewrite <- Hkey. vm_compute. reflexivity.
Defined.

(** ** Row versions

    [row_version] is the compare-and-swap token of Attempts and Jobs: it never
    decreases, it grows whenever the row changes, and at most one writer
    succeeds at each version. *)

#[local] Open Scope Z_scope.

(** [v] stamps the value: the same stamp means the same value. *)
Definition stamped {A} (v : A -> Z) (a a' : A) : Prop := v a <= v a' /\ (v a' = v a -> a' = a).

#[export] Instance stamped_preorder {A} (v : A -> Z) : PreOrder (stamped v).
Proof.
  split; [split; [lia | done] | ]. intros a b c [H1 E1] [H2 E2]. split; [lia | ].
  intros Heq. rewrite <- E1 by lia. apply E2. lia.
Qed.

Lemma stamped_bump {A} (v : A -> Z) a a' : v a' = v a + 1 -> stamped v a a'.
Proof. intros H. split; [lia | ]. lia. Qed.

(** Rows stay, and their stamps tell whether they changed. *)
Definition version_rel (d d' : Db) : Prop :=
  (forall k job, db_jobs d !! k = Some job ->
     exists job', db_jobs d' !! k = Some job' /\ stamped job_row_version job job')
  /\ (forall k row, db_attempts d !! k = Some row ->
        exists row', db_attempts d' !! k = Some row'
          /\ stamped att_row_version (row_attempt row) (row_attempt row')).

#[export] Instance version_rel_preorder : PreOrder version_rel.
Proof.
  split.
  - intros d. split; intros k x Hk; (exists x; split; [done | reflexivity]).
  - intros d1 d2 d3 [J1 A1] [J2 A2]. split.
    + intros k j Hk. destruct (J1 _ _ Hk) as (j' & Hk' & ?). destruct (J2 _ _ Hk') as (j'' & ? & ?).
      exists j''. split; [done | by etrans].
    + intros k j Hk. destruct (A1 _ _ Hk) as (j' & Hk' & ?). destruct (A2 _ _ Hk') as (j'' & ? & ?).
      exists j''. split; [done | by etrans].
Qed.

#[export] Instance version_rel_frame : Frame version_rel.
Proof.
  split; [apply _ | ]. intros d d' Hj Ha _. unfold version_rel. rewrite Hj, Ha.
  apply (reflexivity (R := version_rel)).
Qed.

Section versions.
Context `{P : Platform}.

Lemma tx_version_update_attempts ctx k w s :
  (forall row, stamped att_row_version (row_attempt row) (row_attempt (s row))) ->
  tx_rel version_rel (update_attempts ctx k w s).
Proof.
  intros Hs. apply tx_rel_update_attempts; [apply _ | ]. intros d row Hk _ _. split; simpl.
  - intros k' j Hj. eexists. split; [done | reflexivity].
  - intros k' r Hr. destruct (decide (k' = k)) as [-> | Hne].
    + rewrite lookup_insert_eq. simplify_eq. eauto.
    + rewrite lookup_insert_ne by done. eexists. split; [done | reflexivity].
Qed.

Lemma tx_version_update_jobs ctx k w s :
  (forall job, stamped job_row_version job (s job)) -> tx_rel version_rel (update_jobs ctx k w s).
Proof.
  intros Hs. apply tx_rel_update_jobs; [apply _ | ]. intros d job Hk _ _. split; simpl.
  - apply (row_kept (stamped job_row_version)). intros x Hx. by simplify_eq.
  - intros k' r Hr. eexists. split; [done | reflexivity].
Qed.

Lemma tx_version_append j a ty o ps ns rc dt at_ms :
  tx_rel version_rel (append_event j a ty o ps ns rc dt at_ms).
Proof.
  intros d u d' H. apply append_event_inv in H as ->. apply (reflexivity (R := version_rel) d).
Qed.

Lemma tx_version_insert_attempt a : tx_rel version_rel (insert_attempt a).
Proof.
  intros d u d' H. unfold insert_attempt in H. apply insert_unless_inv in H as [Hnew ->].
  bool_props. apply present_false in H. split; simpl; intros k x Hx.
  - eexists. split; [done | reflexivity].
  - rewrite lookup_insert_ne by congruence. eexists. split; [done | reflexivity].
Qed.

Lemma tx_version_insert_job job : tx_rel version_rel (insert_job job).
Proof.
  intros d u d' H. unfold insert_job in H. apply insert_unless_inv in H as [Hnew ->].
  bool_props. apply present_false in H. split; simpl; intros k x Hx.
  - rewrite lookup_insert_ne by congruence. eexists. split; [done | reflexivity].
  - eexists. split; [done | reflexivity].
Qed.

Hint Resolve tx_version_append tx_version_insert_attempt tx_version_insert_job : ordivon.
Hint Extern 1 (tx_rel version_rel (update_attempts _ _ _ _)) =>
  apply tx_version_update_attempts; intros row;
  first [by apply stamped_bump | reflexivity] : ordivon.
Hint Extern 1 (tx_rel version_rel (update_jobs _ _ _ _)) =>
  apply tx_version_update_jobs; intros j; by apply stamped_bump : ordivon.

Lemma registry_body_version d d' : registry_body d d' -> version_rel d d'.
Proof. intros Hb. destruct Hb; try destruct operation; registry_body_auto. Qed.

Lemma run_version d d' : rtc registry_step d d' -> version_rel d d'.
Proof.
  induction 1 as [ | d1 d2 d3 Hs _ IH]; [done | ].
  etrans; [apply (step_rel version_rel registry_body_version _ _ Hs) | done].
Qed.

(** the row version is a faithful change stamp.  Along any run of the
    Registry, on any database, the version of a Job or an Attempt never
    decreases, and if it is unchanged the whole record is unchanged. *)
Theorem row_versions_stamp_changes d d' :
  rtc registry_step d d' ->
  (forall k job, db_jobs d !! k = Some job ->
     exists job', db_jobs d' !! k = Some job' /\ job_row_version job <= job_row_version job'
       /\ (job_row_version job' = job_row_version job -> job' = job))
  /\ (forall k row, db_attempts d !! k = Some row ->
        exists row', db_attempts d' !! k = Some row'
          /\ att_row_version (row_attempt row) <= att_row_version (row_attempt row')
          /\ (att_row_version (row_attempt row') = att_row_version (row_attempt row) ->
              row_attempt row' = row_attempt row)).
Proof. intros Hrun. exact (run_version _ _ Hrun). Qed.

(** ** One writer per version *)

(** The operations that carry an expected version of Attempt [k]. *)
Inductive versioned_write (k : string) (v : Z) (d : Db) : Db -> Prop :=
  | WriteBundle io digest at_ms :
      versioned_write k v d (snd (mark_bundle_ready io k v digest at_ms d))
  | WriteDispatch io at_ms :
      versioned_write k v d (snd (mark_dispatch_issued io k v at_ms d))
  | WriteRunning io identity :
      versioned_write k v d (snd (bind_running io k v identity d))
  | WriteOwner io owner at_ms :
      versioned_write k v d (snd (bind_supervisor_owner io k v owner at_ms d))
  | WriteTerminal io request :
      tc_attempt_id request = k -> tc_expected_row_version request = v ->
      versioned_write k v d (snd (commit_terminal io request d))
  | WriteRecovered io request :
      tc_attempt_id request = k -> tc_expected_row_version request = v ->
      versioned_write k v d (snd (recover_orphaned_terminal io request d)).

(** [d'] has Attempt [k], which was at version [v], at version [v + 1]. *)
Definition advances (k : string) (v : Z) (d d' : Db) : Prop :=
  exists row row', db_attempts d !! k = Some row /\ db_attempts d' !! k = Some row'
    /\ att_row_version (row_attempt row) = v /\ att_row_version (row_attempt row') = v + 1.

(** A body that leaves the database alone or advances the Attempt. *)
Definition writes_once {R} (k : string) (v : Z) (body : tx (flow R)) : Prop :=
  forall d f d', body d = Ok (f, d') -> d' = d \/ advances k v d d'.

Lemma immediate_writes_once {R} k v io ctx (body : tx (flow R)) d :
  writes_once k v body ->
  snd (immediate io ctx body d) = d \/ advances k v d (snd (immediate io ctx body d)).
Proof.
  intros Hw. unfold immediate.
  destruct (with_tx_body io (fun e => safe_same_request_sql_error e ("cannot begin " +:+ ctx))
              body d) as [Heq | (f & d' & Hb & ->)]; [by left | by eapply Hw].
Qed.

Lemma checked_writes_once {R} k v w io ctx (body : tx (flow R)) d :
  writes_once k v body ->
  snd (checked w (immediate io ctx body) d) = d
  \/ advances k v d (snd (checked w (immediate io ctx body) d)).
Proof. intros Hw. destruct w; [by apply immediate_writes_once | by left]. Qed.

(** A body whose only UPDATE of the Attempt is guarded by the version. *)
Ltac solve_writes_once :=
  inv_update; bool_props; db_simpl; simplify_eq;
  first [ left; reflexivity
        | right; do 2 eexists; split; [eassumption | ]; db_simpl;
          split; [apply lookup_insert_eq | ]; split; simpl; congruence ].

Lemma bind_supervisor_owner_writes_once k v owner at_ms :
  writes_once k v (bind_supervisor_owner_tx k v owner at_ms).
Proof.
  intros d f d' H. unfold bind_supervisor_owner_tx in H. inv_stmt.
  destruct (db_supervisor_owners d !! k) as [[json digest] | ] eqn:Hown.
  - inv_stmt. destruct (_ && _); inv_stmt. by left.
  - inv_stmt. match goal with Hi : insert_supervisor_owner _ _ _ _ = _ |- _ =>
      unfold insert_supervisor_owner in Hi; rewrite Hown in Hi; injection Hi as <- end.
    solve_writes_once.
Qed.

Lemma commit_terminal_writes_once request :
  writes_once (tc_attempt_id request) (tc_expected_row_version request)
    (commit_terminal_tx request).
Proof.
  intros d f d' H. unfold commit_terminal_tx, settle_reservation, append_terminal_events in H.
  inv_stmt. destruct (AttemptState.is_terminal _).
  - destruct (_ && _); inv_stmt. by left.
  - solve_writes_once.
Qed.

Lemma versioned_write_cases k v d d' : versioned_write k v d d' -> d' = d \/ advances k v d d'.
Proof.
  intros Hw. destruct Hw as [ | | | | ? request <- <- | ? request <- <-];
    (first [apply checked_writes_once | apply immediate_writes_once]); try intros d1 f d' H.
  - unfold mark_bundle_ready_tx in H. solve_writes_once.
  - unfold mark_dispatch_issued_tx in H. solve_writes_once.
  - unfold bind_running_tx in H. solve_writes_once.
  - by eapply bind_supervisor_owner_writes_once.
  - by eapply commit_terminal_writes_once.
  - unfold recover_orphaned_terminal_tx in H. solve_writes_once.
Qed.

(** at most one writer succeeds at each version.  When one of the operations
    that expect version [v] of an Attempt changes the database, then after any
    further run no operation that expects version [v] of that Attempt changes
    anything again: concurrent binders, dispatchers and result committers
    exclude each other. *)
Theorem one_writer_per_version k v d d1 d2 d3 :
  versioned_write k v d d1 -> d1 <> d -> rtc registry_step d1 d2 ->
  versioned_write k v d2 d3 -> d3 = d2.
Proof.
  intros H1 Hne Hrun H2. destruct (versioned_write_cases _ _ _ _ H2) as [ | Hadv]; [done | exfalso].
  destruct (versioned_write_cases _ _ _ _ H1) as [ | (row & row1 & _ & Hrow1 & _ & Hv1)]; [done | ].
  destruct (proj2 (run_version _ _ Hrun) _ _ Hrow1) as (row2 & Hrow2 & Hle & _).
  destruct Hadv as (row2' & _ & Hrow2' & _ & Hv2 & _). simplify_eq. lia.
Qed.
End versions.

Lemma row_versions_stamp_changes_witness :
  rtc registry_step dispatched_db running_db
  /\ exists row, db_attempts running_db !! "attempt-1"%string = Some row
     /\ 2 <= att_row_version (row_attempt row).
Proof.
  assert (Hrun : rtc registry_step dispatched_db running_db) by apply rtc_once, StepBindRunning.
  split; [exact Hrun | ].
  destruct (db_attempts dispatched_db !! "attempt-1"%string) as [row | ] eqn:Hrow;
    [ | exfalso; revert Hrow; vm_compute; discriminate].
  destruct (proj2 (row_versions_stamp_changes _ _ Hrun) _ _ Hrow) as (row' & Hrow' & Hle & _).
  exists row'. split; [exact Hrow' | ].
  assert (Hv : (fun row => att_row_version (row_attempt row)) <$>
    db_attempts dispatched_db !! "attempt-1"%string = Some 2) by (vm_compute; reflexivity).
  rewrite Hrow in Hv. injection Hv as Hv. rewrite Hv in Hle. exact Hle.
Defined.

Lemma one_writer_per_version_witness :
  running_db <> dispatched_db
  /\ snd (commit_terminal io_ok (sample_terminal 2 AttemptState.Failed) running_db) = running_db.
Proof.
  assert (Hne : running_db <> dispatched_db).
  { intros Heq. apply (f_equal (attempt_state_of "attempt-1")) in Heq. revert Heq.
    vm_compute. discriminate. }
  split; [exact Hne | ].
  apply (one_writer_per_version "attempt-1" 2 dispatched_db running_db running_db);
    [apply WriteRunning | exact Hne | constructor | by apply WriteTerminal].
Defined.
