(* ===== verification/Refinement.v ===== *)
(** * The abstract life cycle of a Job

    The promise of the Registry to its clients: a Job is admitted, dispatched
    at most once, possibly asked to stop, and settles, with a detour through
    "held" when its process may have outlived its supervisor.  [life_step] is
    that specification; every operation of the detailed model moves every Job
    along it. *)

From S2P Require Import Prelude Text Errors Types Supervisor Platform TestPlatform Validation.
From S2P Require Import Submit Store Transaction Projection Lifecycle Admission Preservation.
From S2P Require Import Recovery AdminRepair Registry StoreInvariant Scenario Safety History.

#[local] Open Scope Z_scope.

Inductive phase : Type :=
  | Absent
  | Pending
  | InFlight
  | Stopping
  | Held
  | Settled (r : JobResolution.t).

Inductive life_step : phase -> phase -> Prop :=
  | Admit : life_step Absent Pending
  | Dispatch : life_step Pending InFlight
  | RefuseToRun r :
      r = JobResolution.Cancelled \/ r = JobResolution.Failed \/ r = JobResolution.Lost ->
      life_step Pending (Settled r)
  | LoseBeforeRun : life_step Pending Held
  | AskToStop : life_step InFlight Stopping
  | Finish r : r <> JobResolution.Orphaned -> life_step InFlight (Settled r)
  | FinishStopping r : r <> JobResolution.Orphaned -> life_step Stopping (Settled r)
  | LoseTrack : life_step InFlight Held
  | LoseTrackStopping : life_step Stopping Held
  | RecoverResult r : r <> JobResolution.Orphaned -> life_step Held (Settled r)
  | CorrectLost r : final_resolution r = true -> life_step (Settled JobResolution.Lost) (Settled r).

(** The phase of a nonterminal Attempt. *)
Definition open_phase (s : AttemptState.t) : phase :=
  match s with
  | AttemptState.Accepted => Pending
  | AttemptState.Stopping => Stopping
  | _ => InFlight
  end.

Definition closed_phase (r : JobResolution.t) : phase :=
  match r with JobResolution.Orphaned => Held | _ => Settled r end.

(** The abstraction: what the tables say of a Job. *)
Definition phase_of (job_id : string) (d : Db) : phase :=
  match db_jobs d !! job_id with
  | None => Absent
  | Some job =>
      match job_resolution job with
      | Some r => closed_phase r
      | None =>
          match job_current_attempt_id job ≫= fun k => db_attempts d !! k with
          | Some row => open_phase (att_state (row_attempt row))
          | None => Absent
          end
      end
  end.

(** The phase that an Attempt state stands for. *)
Definition phase_of_state (s : AttemptState.t) : phase :=
  match resolution_for_state s with
  | Ok r => closed_phase r
  | Err _ => open_phase s
  end.

Lemma phase_of_cell d k row :
  store_wf d -> db_attempts d !! k = Some row ->
  phase_of (att_job_id (row_attempt row)) d = phase_of_state (att_state (row_attempt row)).
Proof.
  intros Hwf Hrow. open_cell Hwf Hrow. unfold phase_of, phase_of_state. rewrite Hjob.
  destruct Hcell as [_ [Ho | Hc]].
  - rewrite (open_resolution _ _ _ Ho), (open_current _ _ _ Ho), Hid. simpl. rewrite Hrow.
    pose proof (open_state _ _ _ Ho). by destruct (att_state (row_attempt row)).
  - destruct (closed_resolution _ _ _ Hc) as (r & -> & ->). done.
Qed.

(** ** Transitions of Attempt states *)

Inductive attempt_step : AttemptState.t -> AttemptState.t -> Prop :=
  | TakeOff : attempt_step AttemptState.Accepted AttemptState.Starting
  | Bind s : bindable s = true -> attempt_step s AttemptState.Running
  | Stop s : dispatched_nonterminal s = true -> attempt_step s AttemptState.Stopping
  | End s s' : AttemptState.is_terminal s' = true -> AttemptState.can_transition_to s s' = true ->
      attempt_step s s'
  | RecoverOrphan s : conclusive s = true -> attempt_step AttemptState.Orphaned s
  | RepairLost s : repair_allowed AttemptState.Lost s = true -> attempt_step AttemptState.Lost s.

Lemma attempt_step_life s s' :
  attempt_step s s' -> rtc life_step (phase_of_state s) (phase_of_state s').
Proof.
  intros H. destruct H as [ | s Hs | s Hs | s s' Ht Hc | s Hs | s Hs].
  - by apply rtc_once, Dispatch.
  - by destruct s.
  - destruct s; try done; simpl; first [by apply rtc_refl | by apply rtc_once, AskToStop].
  - destruct s, s'; try done; simpl; apply rtc_once;
      first [ by apply RefuseToRun; auto | by apply LoseBeforeRun | by apply Finish
            | by apply FinishStopping | by apply LoseTrack | by apply LoseTrackStopping ].
  - destruct s; try done; simpl; by apply rtc_once, RecoverResult.
  - destruct s; try done; simpl; first [by apply rtc_refl | by apply rtc_once, CorrectLost].
Qed.

Lemma attempt_steps_life s s' :
  rtc attempt_step s s' -> rtc life_step (phase_of_state s) (phase_of_state s').
Proof.
  induction 1 as [ | s1 s2 s3 H _ IH]; [done | ]. etrans; [by apply attempt_step_life | done].
Qed.

(** ** What the operations do to the Attempts *)

Definition life_rel (d d' : Db) : Prop :=
  (forall k row, db_attempts d !! k = Some row ->
     exists row', db_attempts d' !! k = Some row'
       /\ att_job_id (row_attempt row') = att_job_id (row_attempt row)
       /\ rtc attempt_step (att_state (row_attempt row)) (att_state (row_attempt row')))
  /\ (forall k row', db_attempts d' !! k = Some row' -> db_attempts d !! k = None ->
        rtc attempt_step AttemptState.Accepted (att_state (row_attempt row')))
  /\ (forall k, db_jobs d !! k <> None -> db_jobs d' !! k <> None).

#[export] Instance life_rel_preorder : PreOrder life_rel.
Proof.
  split.
  - intros d. split; [eauto using rtc_refl | ]. split; [congruence | done].
  - intros d1 d2 d3 (A1 & N1 & J1) (A2 & N2 & J2). split; [ | split; [ | auto]].
    + intros k row Hk. destruct (A1 _ _ Hk) as (row2 & Hk2 & E2 & S2).
      destruct (A2 _ _ Hk2) as (row3 & Hk3 & E3 & S3). exists row3.
      split; [done | ]. split; [congruence | by etrans].
    + intros k row3 Hk3 Hk1. destruct (db_attempts d2 !! k) as [row2 | ] eqn:Hk2; [ | eauto].
      destruct (A2 _ _ Hk2) as (row3' & Hk3' & _ & S3). simplify_eq.
      etrans; [by eapply N1 | done].
Qed.

Lemma life_rel_same d d' :
  db_attempts d' = db_attempts d -> db_jobs d' = db_jobs d -> life_rel d d'.
Proof.
  intros Ha Hj. unfold life_rel. rewrite Ha, Hj.
  split; [eauto using rtc_refl | ]. split; [congruence | done].
Qed.

#[export] Instance life_rel_frame : Frame life_rel.
Proof. split; [apply _ | ]. intros. by apply life_rel_same. Qed.

Lemma insert_present {A} (m : gmap string A) k v j : m !! j <> None -> <[k := v]> m !! j <> None.
Proof.
  intros Hj. destruct (decide (j = k)) as [-> | Hne];
    [by rewrite lookup_insert_eq | by rewrite lookup_insert_ne].
Qed.

(** One Attempt rewritten, no Job removed. *)
Lemma life_rel_update d d' k row row' :
  db_attempts d !! k = Some row -> db_attempts d' = <[k := row']> (db_attempts d) ->
  (forall j, db_jobs d !! j <> None -> db_jobs d' !! j <> None) ->
  att_job_id (row_attempt row') = att_job_id (row_attempt row) ->
  rtc attempt_step (att_state (row_attempt row)) (att_state (row_attempt row')) ->
  life_rel d d'.
Proof.
  intros Hk Ha Hj Hid Hs. split; [ | split; [ | done]]; rewrite Ha.
  - intros k' r Hr. destruct (decide (k' = k)) as [-> | Hne].
    + rewrite lookup_insert_eq. simplify_eq. eauto.
    + rewrite lookup_insert_ne by done. eauto using rtc_refl.
  - intros k' r. destruct (decide (k' = k)) as [-> | Hne]; [congruence | ].
    rewrite lookup_insert_ne by done. congruence.
Qed.

Lemma tx_life_update_attempts ctx k w s :
  (forall row, w row = true ->
     att_job_id (row_attempt (s row)) = att_job_id (row_attempt row)
     /\ rtc attempt_step (att_state (row_attempt row)) (att_state (row_attempt (s row)))) ->
  tx_rel life_rel (update_attempts ctx k w s).
Proof.
  intros Hs. apply tx_rel_update_attempts; [apply _ | ]. intros d row Hk Hw _.
  destruct (Hs row Hw). by eapply life_rel_update.
Qed.

Lemma tx_life_update_jobs ctx k w s : tx_rel life_rel (update_jobs ctx k w s).
Proof.
  apply tx_rel_update_jobs; [apply _ | ]. intros d job Hk _ _.
  split; [eauto using rtc_refl | ]. split; simpl; [congruence | ].
  intros k' Hk'. by apply insert_present.
Qed.

Section life.
Context `{P : Platform}.

Lemma tx_life_append j a ty o ps ns rc dt at_ms :
  tx_rel life_rel (append_event j a ty o ps ns rc dt at_ms).
Proof. intros d u d' H. apply append_event_inv in H as ->. by apply life_rel_same. Qed.

Lemma tx_life_insert_attempt a :
  att_state a = AttemptState.Accepted -> tx_rel life_rel (insert_attempt a).
Proof.
  intros Ha d u d' H. unfold insert_attempt in H. apply insert_unless_inv in H as [Hnew ->].
  bool_props. apply present_false in H. split; [ | split; [ | done]]; simpl.
  - intros k row Hk. rewrite lookup_insert_ne by congruence. eauto using rtc_refl.
  - intros k row. destruct (decide (k = att_attempt_id a)) as [-> | Hne].
    + rewrite lookup_insert_eq. intros [= <-] _. simpl. by rewrite Ha.
    + rewrite lookup_insert_ne by done. congruence.
Qed.

Lemma tx_life_insert_job job : tx_rel life_rel (insert_job job).
Proof.
  intros d u d' H. unfold insert_job in H. apply insert_unless_inv in H as [_ ->].
  split; [eauto using rtc_refl | ]. split; simpl; [congruence | ].
  intros k Hk. by apply insert_present.
Qed.
End life.

#[export] Hint Resolve tx_life_update_jobs tx_life_append tx_life_insert_job : ordivon.
#[export] Hint Extern 1 (tx_rel life_rel (insert_attempt _)) =>
  apply tx_life_insert_attempt; reflexivity : ordivon.

(** One attempt step, or none, by cases on the old state. *)
Ltac solve_life :=
  apply tx_life_update_attempts; intros row Hw; split; [reflexivity | ]; simpl in *; bool_props;
  unfold bindable, owner_bindable, owner_bound_state, stoppable, dispatched_nonterminal in *;
  match goal with
  | H : repair_allowed ?a _ = true, E : att_state (row_attempt row) = ?a |- _ =>
      rewrite <- E in H
  | _ => idtac
  end;
  first
    [ apply rtc_refl
    | destruct (att_state (row_attempt row)); try done; simpl;
      first [ apply rtc_refl
            | apply rtc_once;
              first [ apply TakeOff | by apply Bind | by apply Stop
                    | by apply RecoverOrphan | by apply RepairLost | by apply End
                    | apply RecoverOrphan; by destruct (tc_state _) ] ] ].
#[export] Hint Extern 2 (tx_rel life_rel (update_attempts _ _ _ _)) => solve_life : ordivon.

Section bodies.
Context `{P : Platform}.

(** The transition is checked on the row that is updated. *)
Lemma commit_terminal_life request d f d' :
  AttemptState.is_terminal (tc_state request) = true ->
  commit_terminal_tx request d = Ok (f, d') -> life_rel d d'.
Proof.
  intros Hterm H. unfold commit_terminal_tx in H. inv_stmt.
  destruct (AttemptState.is_terminal (att_state (row_attempt row))) eqn:Hnt.
  { destruct (_ && _); by inv_stmt. }
  unfold settle_reservation, append_terminal_events in H.
  inv_update; bool_props; db_simpl; simplify_eq.
  all: eapply life_rel_update; [exact Hrow | done | | done | by apply rtc_once, End].
  all: intros j Hj; db_simpl; first [by apply insert_present | exact Hj].
Qed.

Lemma registry_body_life d d' : registry_body d d' -> life_rel d d'.
Proof.
  intros Hb. destruct Hb; try (by eapply commit_terminal_life); try destruct operation;
    registry_body_auto.
Qed.
End bodies.

Section refinement.
Context `{P : Platform}.

Lemma phase_of_absent j d : db_jobs d !! j = None -> phase_of j d = Absent.
Proof. unfold phase_of. by intros ->. Qed.

Lemma life_rel_phase d d' j :
  store_wf d -> store_wf d' -> life_rel d d' -> rtc life_step (phase_of j d) (phase_of j d').
Proof.
  intros Hwf Hwf' (Hold & Hnew & Hjobs).
  destruct (db_jobs d !! j) as [job | ] eqn:Hj.
  - destruct (job_cell _ _ _ Hwf Hj) as (k & row & res & Hrow & _ & _ & <- & _).
    destruct (Hold _ _ Hrow) as (row' & Hrow' & Hid & Hsteps).
    rewrite (phase_of_cell _ _ _ Hwf Hrow). rewrite <- Hid, (phase_of_cell _ _ _ Hwf' Hrow').
    by apply attempt_steps_life.
  - rewrite (phase_of_absent _ _ Hj). destruct (db_jobs d' !! j) as [job' | ] eqn:Hj'.
    + destruct (job_cell _ _ _ Hwf' Hj') as (k & row' & res & Hrow' & _ & _ & Hid & _).
      rewrite <- Hid, (phase_of_cell _ _ _ Hwf' Hrow').
      apply (rtc_l _ _ Pending); [constructor | ].
      apply (attempt_steps_life AttemptState.Accepted), (Hnew k); [done | ].
      destruct (db_attempts d !! k) as [row | ] eqn:Hrow; [exfalso | done].
      destruct (Hold _ _ Hrow) as (row2 & Hrow2 & Hid2 & _).
      destruct (wf_attempts _ Hwf _ _ Hrow) as (_ & _ & job & _ & Hjob & _). congruence.
    + by rewrite (phase_of_absent _ _ Hj').
Qed.

Lemma step_life d d' : registry_step d d' -> life_rel d d'.
Proof. apply step_rel; [apply _ | apply registry_body_life]. Qed.

(** C4: the Registry refines the abstract life cycle.  Whatever operation runs
    on a reachable database, and whatever SQLite does with its transaction,
    every Job moves along [life_step]: it is admitted, dispatched, possibly
    asked to stop, and settles, possibly after being held as orphaned; it never
    goes back, and a settled result changes only if it said "lost". *)
Theorem registry_refines_life_cycle d d' j :
  registry_reachable d -> registry_step d d' -> rtc life_step (phase_of j d) (phase_of j d').
Proof.
  intros Hr Hs. pose proof (reachable_wf d Hr).
  assert (store_wf d') by (by eapply reachable_wf, rtc_r). by apply life_rel_phase, step_life.
Qed.
End refinement.

Lemma registry_refines_life_cycle_witness :
  phase_of "job-1" running_db = InFlight /\ phase_of "job-1" orphaned_db = Held
  /\ rtc life_step (phase_of "job-1" running_db) (phase_of "job-1" orphaned_db).
Proof.
  split; [vm_compute; reflexivity | split; [vm_compute; reflexivity | ]].
  apply registry_refines_life_cycle; [exact running_reachable | apply StepTerminal].
Defined.

(** ** Phases and capacity *)

(** A Job occupies its Workspace from admission until its result is conclusive. *)
Definition occupies (p : phase) : bool :=
  match p with Absent | Settled _ => false | _ => true end.

(** the abstract phase decides capacity.  In a reachable database a Job
    has a live reservation, the thing that admission counts, exactly when it is
    pending, in flight, stopping or held: capacity is never released while a
    process may be alive, and never kept after a conclusive result. *)
Theorem phase_decides_capacity `{P : Platform} d j job :
  registry_reachable d -> db_jobs d !! j = Some job ->
  (exists r, (r, job) ∈ live_joined d) <-> occupies (phase_of j d) = true.
Proof.
  intros Hr Hj. pose proof (reachable_wf d Hr) as Hwf.
  destruct (job_cell _ _ _ Hwf Hj) as (k & row & res & Hrow & Hres & Hid & <- & Hcell).
  rewrite (phase_of_cell _ _ _ Hwf Hrow).
  assert (Hlive : live_reservation (row_reservation res)
                  = occupies (phase_of_state (att_state (row_attempt row)))).
  { unfold live_reservation, phase_of_state. destruct Hcell as [_ [Ho | Hc]].
    - rewrite (open_reservation _ _ _ Ho). pose proof (open_state _ _ _ Ho).
      by destruct (att_state (row_attempt row)).
    - rewrite (closed_reservation _ _ _ Hc).
      destruct (closed_resolution _ _ _ Hc) as (x & _ & Hx).
      by destruct (att_state (row_attempt row)). }
  rewrite <- Hlive. destruct (wf_reservations _ Hwf _ _ Hres) as [Hrk _]. split.
  - intros (r & Hin). apply live_joined_spec in Hin as (k' & res' & row' & Hres' & <- & Hl & H & H').
    destruct (wf_reservations _ Hwf _ _ Hres') as [Hrk' _].
    assert (att_job_id (row_attempt row') = att_job_id (row_attempt row)) as Hsame.
    { destruct (wf_jobs _ Hwf _ _ Hj), (wf_jobs _ Hwf _ _ H'). congruence. }
    pose proof (wf_single _ Hwf _ _ _ _ H Hrow Hsame). congruence.
  - intros Hl. exists (row_reservation res). apply live_joined_spec.
    exists k, res, row. rewrite Hrk. done.
Qed.

Lemma phase_decides_capacity_witness :
  exists job, db_jobs orphaned_db !! "job-1" = Some job
    /\ phase_of "job-1" orphaned_db = Held /\ exists r, (r, job) ∈ live_joined orphaned_db.
Proof.
  destruct (db_jobs orphaned_db !! "job-1") as [job | ] eqn:Hj;
    [ | exfalso; revert Hj; vm_compute; discriminate].
  exists job. split; [done | ]. split; [vm_compute; reflexivity | ].
  apply (phase_decides_capacity orphaned_db "job-1" job); [exact orphaned_reachable | done | ].
  vm_compute. reflexivity.
Defined.
