(* ===== verification/AdmissionSpec.v ===== *)
(** * What [submit] does

    A new request is admitted with its rows; a repeated one is answered with the
    Job it created; one that differs under the same id is refused. *)

From S2P Require Import Prelude Text Errors Types Supervisor Platform TestPlatform Validation.
From S2P Require Import Submit Store Transaction Projection Lifecycle Admission Preservation.
From S2P Require Import Recovery AdminRepair Registry StoreInvariant Scenario Safety History.
From S2P Require Import Refinement.

(** ** What admission promises

    The contract of [submit_preallocated] on reachable databases: what an
    admitted Job looks like, which requests are admitted, what a replay, a
    conflict and a full Workspace are answered, and that the answer is true even
    when SQLite's COMMIT fails. *)

#[local] Open Scope Z_scope.

(** ** Counting reservations *)

Lemma global_active_insert d k res :
  db_reservations d !! k = None -> live_reservation (row_reservation res) = true ->
  global_active (set_db_reservations (<[k := res]> (db_reservations d)) d) = global_active d + 1.
Proof.
  intros Hk Hl. unfold global_active; simpl.
  enough (length (List.filter (fun kv : string * ReservationRow =>
                     live_reservation (row_reservation kv.2))
            (map_to_list (<[k:=res]> (db_reservations d))))
          = S (length (List.filter (fun kv : string * ReservationRow =>
                     live_reservation (row_reservation kv.2))
            (map_to_list (db_reservations d))))) as -> by lia.
  assert (Hf : forall l : list (string * ReservationRow),
    List.filter (fun kv => live_reservation (row_reservation kv.2)) l
    = filter (fun kv => live_reservation (row_reservation kv.2)) l).
  { induction l as [ | x l IH]; [done | ]. simpl. rewrite filter_cons, IH.
    case_decide as Hx; by destruct (live_reservation (row_reservation x.2)). }
  rewrite !Hf. rewrite (map_to_list_insert _ _ _ Hk), filter_cons_True by (simpl; by rewrite Hl).
  done.
Qed.

Lemma global_active_reservations d d' :
  db_reservations d' = db_reservations d -> global_active d' = global_active d.
Proof. unfold global_active. by intros ->. Qed.

Lemma workspace_active_nonneg w d : 0 <= workspace_active w d.
Proof. unfold workspace_active. lia. Qed.

(** A live reservation of a Workspace counts. *)
Lemma workspace_active_pos w d r job :
  (r, job) ∈ live_joined d -> job_workspace_id job = w -> 1 <= workspace_active w d.
Proof.
  intros Hin Hw. unfold workspace_active.
  assert (Hf : In (r, job) (List.filter (in_workspace (Some w)) (live_joined d)))
    by (apply filter_In; split; [by apply list_elem_of_In | simpl; by apply String.eqb_eq]).
  destruct (List.filter _ _); [done | simpl; lia].
Qed.

(** The Jobs that hold capacity are those whose phase occupies. *)
Lemma live_joined_phase d r job :
  store_wf d -> (r, job) ∈ live_joined d ->
  db_jobs d !! job_job_id job = Some job /\ occupies (phase_of (job_job_id job) d) = true.
Proof.
  intros Hwf Hin. apply live_joined_spec in Hin as (k & res & row & Hres & <- & Hl & Hrow & Hj).
  destruct (wf_reservations _ Hwf _ _ Hres) as [Hk _]. rewrite Hk in Hrow.
  destruct (wf_jobs _ Hwf _ _ Hj) as (Hid & _). rewrite Hid. split; [done | ].
  rewrite (phase_of_cell _ _ _ Hwf Hrow). open_cell Hwf Hrow. simplify_eq.
  unfold phase_of_state, live_reservation in *. destruct Hcell as [_ [Ho | Hc]].
  - pose proof (open_state _ _ _ Ho). by destruct (att_state (row_attempt row)).
  - rewrite (closed_reservation _ _ _ Hc) in Hl.
    destruct (closed_resolution _ _ _ Hc) as (x & _ & Hx).
    by destruct (att_state (row_attempt row)).
Qed.

Section admission.
Context `{P : Platform}.

(** ** The run of an admission *)

Lemma submit_tx_Created config fence request ids digest at_ms d f d' :
  store_wf d -> submit_tx config fence request ids digest at_ms d = Ok (f, d') ->
  idempotency_row request d = None ->
  let w := plan_workspace_id (sub_plan request) in
  let key := {| key_operation_digest := digest; key_job_id := pre_job_id ids;
                key_created_at_ms := at_ms |} in
  workspace_active w d = 0 /\ global_active d < sub_global_limit request
  /\ cell_insert (new_job request ids digest at_ms)
       {| row_attempt := new_attempt config ids digest at_ms; row_recovery := None |}
       {| row_reservation := new_reservation request ids at_ms;
          row_state_observed_at_ms := at_ms |} key d d'
  /\ f = Commit "cannot commit admission"
           (fun _ => Ok (Created (new_admission config request ids digest at_ms)))
           (reconcile_admission_commit_failure request digest).
Proof.
  intros Hwf H Hkey w key. unfold submit_tx, append_admission_events in H. inv_tx.
  rewrite Hkey in H. inv_tx.
  match goal with Hc : check_capacity _ _ = _ |- _ =>
    apply check_capacity_inv in Hc as (-> & Hact & Hglob) end.
  match goal with Hi : insert_admission _ _ _ _ _ = _ |- _ =>
    apply insert_admission_cell in Hi as [Hci _]; [ | done..] end.
  inv_stmt. split; [pose proof (workspace_active_nonneg w d); fold w in Hact; lia | ].
  split; [done | ]. split; [ | done]. destruct Hci. by split.
Qed.

(** ** What an admitted Job looks like *)

Lemma cell_insert_counts job row res key d d' :
  store_wf d -> store_wf d' -> cell_insert job row res key d d' ->
  live_reservation (row_reservation res) = true ->
  global_active d' = global_active d + 1 /\ workspace_active (job_workspace_id job) d' = 1.
Proof.
  intros Hwf Hwf' Hci Hl. split.
  - rewrite <- (global_active_insert d (att_attempt_id (row_attempt row)) res); [ | | done].
    + apply global_active_reservations. simpl. apply Hci.
    + destruct (db_reservations d !! _) as [s | ] eqn:Hs; [exfalso | done].
      destruct (wf_reservations _ Hwf _ _ Hs) as [_ [? Ha]]. by rewrite (ci_attempt _ _ _ _ _ _ Hci) in Ha.
  - enough (1 <= workspace_active (job_workspace_id job) d')
      by (pose proof (store_wf_workspace_active d' (job_workspace_id job) Hwf'); lia).
    apply (workspace_active_pos _ _ (row_reservation res) job); [ | done].
    apply live_joined_spec. exists (att_attempt_id (row_attempt row)), res, row.
    rewrite (ci_reservations _ _ _ _ _ _ Hci), (ci_attempts _ _ _ _ _ _ Hci),
      (ci_jobs _ _ _ _ _ _ Hci), (ci_res_id _ _ _ _ _ _ Hci), (ci_job_id _ _ _ _ _ _ Hci),
      !lookup_insert_eq. done.
Qed.

Lemma cell_insert_phase job row res key d d' :
  store_wf d' -> cell_insert job row res key d d' ->
  att_state (row_attempt row) = AttemptState.Accepted ->
  phase_of (job_job_id job) d = Absent /\ phase_of (job_job_id job) d' = Pending.
Proof.
  intros Hwf' Hci Ha. split; [apply phase_of_absent, Hci | ].
  rewrite <- (ci_job_id _ _ _ _ _ _ Hci).
  rewrite (phase_of_cell d' (att_attempt_id (row_attempt row)) row); [ | done | ].
  - by rewrite Ha.
  - by rewrite (ci_attempts _ _ _ _ _ _ Hci), lookup_insert_eq.
Qed.

(** How an operation that reports [Created] ran. *)
Lemma submit_Created_inv io config fence now request ids d admission d' :
  registry_reachable d ->
  submit_preallocated io config fence now request ids d = (Ok (Created admission), d') ->
  exists at_ms digest f, now = Ok at_ms /\ validate_submit request = Ok tt
    /\ submit_operation_digest request = Ok digest
    /\ admission = new_admission config request ids digest at_ms
    /\ idempotency_row request d = None
    /\ submit_tx config fence request ids digest at_ms d = Ok (f, d').
Proof.
  intros Hr H. pose proof (reachable_wf d Hr) as Hwf. unfold submit_preallocated in H.
  destruct (_ ≫= _) as [[at_ms digest] | e] eqn:Hv; [ | done]. inv_ok.
  unfold with_tx in H. destruct (io_open io); [done | ]. destruct (io_begin io); [done | ].
  destruct (submit_tx _ _ _ _ _ _ _) as [[f d1] | e] eqn:Hb; [ | done].
  simplify_eq. exists at_ms, digest, f. destruct (idempotency_row request d) as [key | ] eqn:Hk.
  - exfalso. unfold submit_tx in Hb. inv_tx. rewrite Hk in Hb. unfold replay_submit in Hb.
    inv_stmt. simpl in H. by destruct (io_commit io).
  - destruct (submit_tx_Created _ _ _ _ _ _ _ _ _ Hwf Hb Hk) as (_ & _ & _ & ->).
    simpl in H. unfold reconcile_admission_commit_failure in H.
    destruct (io_commit io); simpl in H; [by simplify_eq | ..]; exfalso;
      repeat (match type of H with context [match ?x with _ => _ end] => destruct x end); done.
Qed.

(** an admission creates exactly one pending Job and takes exactly one unit
    of capacity.  When [submit] reports [Created] on a reachable database, the
    request passed validation, its key was unknown, its Workspace was free and
    the global limit not reached; afterwards the new Job is pending with the
    preallocated identifiers, the key names it, the Workspace is taken and the
    global count grew by one without exceeding the limit. *)
Theorem submit_creates io config fence now request ids d admission d' :
  registry_reachable d ->
  submit_preallocated io config fence now request ids d = (Ok (Created admission), d') ->
  exists at_ms digest, now = Ok at_ms /\ validate_submit request = Ok tt
    /\ submit_operation_digest request = Ok digest
    /\ admission = new_admission config request ids digest at_ms
    /\ phase_of (pre_job_id ids) d = Absent /\ phase_of (pre_job_id ids) d' = Pending
    /\ db_jobs d' !! pre_job_id ids = Some (created_job admission)
    /\ idempotency_row request d = None
    /\ (exists key, idempotency_row request d' = Some key /\ key_job_id key = pre_job_id ids
          /\ key_operation_digest key = digest)
    /\ workspace_active (plan_workspace_id (sub_plan request)) d = 0
    /\ workspace_active (plan_workspace_id (sub_plan request)) d' = 1
    /\ global_active d' = global_active d + 1
    /\ global_active d' <= sub_global_limit request.
Proof.
  intros Hr H. pose proof (reachable_wf d Hr) as Hwf.
  destruct (submit_Created_inv _ _ _ _ _ _ _ _ _ Hr H)
    as (at_ms & digest & f & Hnow & Hval & Hdig & Hadm & Hnone & Hb).
  pose proof (submit_wf _ _ _ _ _ _ _ _ _ Hwf Hb) as Hwf'.
  destruct (submit_tx_Created _ _ _ _ _ _ _ _ _ Hwf Hb Hnone) as (Hw & Hg & Hci & _).
  destruct (cell_insert_counts _ _ _ _ _ _ Hwf Hwf' Hci eq_refl) as [Hgc Hwc].
  destruct (cell_insert_phase _ _ _ _ _ _ Hwf' Hci eq_refl) as [Hp Hp'].
  exists at_ms, digest. subst admission. do 6 (split; [done | ]).
  split; [by rewrite (ci_jobs _ _ _ _ _ _ Hci), lookup_insert_eq | ].
  split; [done | ]. split; [ | by repeat split; [.. | lia]].
  eexists. unfold idempotency_row. rewrite (ci_keys _ _ _ _ _ _ Hci), lookup_insert_eq. done.
Qed.
End admission.

Lemma submit_creates_witness :
  registry_reachable empty_db /\ phase_of "job-1" submitted_db = Pending
  /\ global_active submitted_db <= 4.
Proof.
  destruct (submit_preallocated io_ok sample_config FenceAcquired (Ok 10) sample_request sample_ids
              empty_db) as [r d'] eqn:Hs.
  assert (Hd : d' = submitted_db) by (unfold submitted_db; by rewrite Hs).
  assert (Hr : exists a, r = Ok (Created a)).
  { apply (f_equal fst) in Hs. simpl in Hs. rewrite <- Hs. eexists. vm_compute. reflexivity. }
  destruct Hr as [a ->]. subst d'. split; [constructor | ].
  destruct (submit_creates io_ok sample_config FenceAcquired (Ok 10) sample_request sample_ids
              empty_db a submitted_db ltac:(constructor) Hs)
    as (at_ms & digest & _ & _ & _ & _ & _ & Hp & _ & _ & _ & _ & _ & _ & Hg).
  split; [exact Hp | exact Hg].
Defined.

(** ** Idempotent submission

    A request that was admitted is answered with the same Job for ever, and the
    same key with another operation is refused for ever: the replay path needs
    neither capacity nor the admission fence. *)

#[local] Open Scope Z_scope.

(** A connection on which a transaction can begin. *)
Definition begins (io : TxIo) : Prop := io_open io = None /\ io_begin io = None.

Lemma with_tx_begins {R} io be (body : tx (flow R)) d :
  begins io ->
  with_tx io be body d = match body d with
                         | Ok (f, d') => finish io d d' f
                         | Err e => (Err e, d)
                         end.
Proof. intros [Ho Hb]. unfold with_tx. by rewrite Ho, Hb. Qed.

Section replay.
Context `{P : Platform}.

(** A request that passes validation, at the time and with the digest given. *)
Record admissible (request : SubmitRequest) (now : RuntimeResult Z) (at_ms : Z)
    (digest : string) : Prop := {
  adm_valid : validate_submit request = Ok tt;
  adm_now : now = Ok at_ms;
  adm_digest : submit_operation_digest request = Ok digest;
}.

Lemma submit_admissible io config fence now request ids d at_ms digest :
  admissible request now at_ms digest -> begins io ->
  submit_preallocated io config fence now request ids d
  = match submit_tx config fence request ids digest at_ms d with
    | Ok (f, d') => finish io d d' f
    | Err e => (Err e, d)
    end.
Proof.
  intros [Hv Hn Hd] Hio. unfold submit_preallocated. rewrite Hv; simpl. rewrite Hn; simpl.
  rewrite Hd; simpl. by apply with_tx_begins.
Qed.

(** The identity digest of an admitted request is one of the known forms. *)
Lemma identity_digest_form value :
  validate_request_identity_digest value = Ok tt ->
  existsb (fun prefix => starts_with prefix value) identity_prefixes = true.
Proof.
  unfold validate_request_identity_digest. intros H. inv_ok. clear H.
  induction identity_prefixes as [ | p ps IH]; [done | ]. simpl in *.
  unfold strip_prefix in Hv at 1. destruct (starts_with p value); [done | simpl in *; auto].
Qed.

Lemma valid_identity_digest request digest :
  validate_submit request = Ok tt -> sub_request_identity_digest request = Some digest ->
  validate_request_identity_digest digest = Ok tt.
Proof.
  intros Hv Hd. unfold validate_submit in Hv. inv_ok.
  match goal with H : validate_submit_header request = Ok _ |- _ =>
    unfold validate_submit_header in H; rewrite Hd in H; inv_ok end.
  assumption.
Qed.

(** The replay of a Job that was admitted for this request. *)
Lemma replay_submit_same request digest key job d :
  db_jobs d !! key_job_id key = Some job ->
  job_request_digest job = submit_request_digest request ->
  key_operation_digest key = digest -> validate_submit request = Ok tt ->
  replay_submit request digest key d
  = Ok (commit_or_fail "cannot close replay transaction" (fun _ => Ok (Existing job)), d).
Proof.
  intros Hjob Hrd Hkd Hv. unfold replay_submit, load_job, mbind, tx_bind, lift.
  rewrite Hjob. cbn beta iota.
  destruct (sub_request_identity_digest request) as [rd | ] eqn:Hid.
  - pose proof (valid_identity_digest _ _ Hv Hid) as Hok.
    assert (Heq : job_request_digest job = rd) by (rewrite Hrd; unfold submit_request_digest; by rewrite Hid).
    unfold job_request_identity_digest. rewrite Heq, (identity_digest_form _ Hok), Hok. simpl.
    by rewrite String.eqb_refl.
  - rewrite Hkd, String.eqb_refl. done.
Qed.

(** C27: submission is idempotent.  Once [submit] reported [Created] for a
    request, every later submission of it, after any run of the Registry, with
    any preallocated identifiers, whatever the fence says and however full the
    Workspace is, reports [Existing] with the same Job and changes nothing. *)
Theorem submit_idempotent io config fence now request ids d admission d1 d2
    config2 fence2 now2 at2 ids2 :
  registry_reachable d ->
  submit_preallocated io config fence now request ids d = (Ok (Created admission), d1) ->
  rtc registry_step d1 d2 -> now2 = Ok at2 ->
  exists job, db_jobs d2 !! pre_job_id ids = Some job
    /\ same_job_identity (created_job admission) job
    /\ submit_preallocated io_ok config2 fence2 now2 request ids2 d2 = (Ok (Existing job), d2).
Proof.
  intros Hr Hs Hrun Hnow.
  assert (Hr1 : registry_reachable d1).
  { eapply rtc_r; [exact Hr | ]. replace d1 with (snd (submit_preallocated io config fence now
      request ids d)) by (by rewrite Hs). apply StepSubmit. }
  pose proof (reachable_wf d1 Hr1) as Hwf1.
  assert (Hwf2 : store_wf d2) by (apply reachable_wf; unfold registry_reachable in *; by etrans).
  destruct (submit_Created_inv _ _ _ _ _ _ _ _ _ Hr Hs)
    as (at_ms & digest & f & _ & Hval & Hdig & -> & Hnone & Hb).
  destruct (submit_tx_Created _ _ _ _ _ _ _ _ _ (reachable_wf d Hr) Hb Hnone) as (_ & _ & Hci & _).
  destruct (proj1 (run_identity _ _ Hrun) (pre_job_id ids) (new_job request ids digest at_ms))
    as (job & Hjob & Hid); [by rewrite (ci_jobs _ _ _ _ _ _ Hci), lookup_insert_eq | ].
  destruct (run_key d1 d2 (plan_principal (sub_plan request)) (sub_client_request_id request)
              {| key_operation_digest := digest; key_job_id := pre_job_id ids;
                 key_created_at_ms := at_ms |} Hwf1 Hwf2 Hrun)
    as (key & Hkey & Hkj & Hkd); [by rewrite (ci_keys _ _ _ _ _ _ Hci), lookup_insert_eq | ].
  exists job. split; [done | ]. split; [done | ].
  rewrite (submit_admissible io_ok config2 fence2 now2 request ids2 d2 at2 digest); [ | done..].
  unfold submit_tx, mbind, tx_bind, read. unfold idempotency_row. rewrite Hkey.
  rewrite (replay_submit_same request digest key job d2); [done | | | done | done].
  - rewrite Hkj. exact Hjob.
  - destruct Hid as (_ & _ & _ & -> & _). done.
Qed.

(** a client request key is bound to one operation.  A valid request that
    carries a known key and no explicit identity, but another operation digest
    than the one the key was given to, is refused as an idempotency conflict
    and changes nothing. *)
Theorem submit_conflict io config fence now request ids d at_ms digest key :
  registry_reachable d -> admissible request now at_ms digest -> begins io ->
  sub_request_identity_digest request = None ->
  idempotency_row request d = Some key -> key_operation_digest key <> digest ->
  submit_preallocated io config fence now request ids d = (Err idempotency_conflict, d).
Proof.
  intros Hr Hadm Hio Hid Hkey Hne. rewrite (submit_admissible _ _ _ _ _ _ _ _ _ Hadm Hio).
  unfold submit_tx, replay_submit, mbind, tx_bind, read, load_job. rewrite Hkey.
  destruct (wf_keys _ (reachable_wf d Hr) _ _ _ Hkey) as (job & Hjob & _).
  rewrite Hjob, Hid. simpl. by destruct (String.eqb_spec (key_operation_digest key) digest).
Qed.
End replay.

Lemma submit_idempotent_witness :
  registry_reachable finished_db
  /\ exists job, db_jobs finished_db !! "job-1"%string = Some job
     /\ submit_preallocated io_ok sample_config FenceWouldBlock (Ok 99) sample_request second_ids
          finished_db = (Ok (Existing job), finished_db).
Proof.
  split; [exact finished_reachable | ].
  destruct (submit_preallocated io_ok sample_config FenceAcquired (Ok 10) sample_request sample_ids
              empty_db) as [r d'] eqn:Hs.
  assert (Hd : d' = submitted_db) by (unfold submitted_db; by rewrite Hs).
  assert (Hr : exists a, r = Ok (Created a)).
  { apply (f_equal fst) in Hs. simpl in Hs. rewrite <- Hs. eexists. vm_compute. reflexivity. }
  destruct Hr as [a ->]. subst d'.
  assert (Hrun : rtc registry_step submitted_db finished_db).
  { eapply rtc_l; [apply StepBundleReady | ]. eapply rtc_l; [apply StepDispatchIssued | ].
    eapply rtc_l; [apply StepBindRunning | ]. apply rtc_once, StepTerminal. }
  destruct (submit_idempotent io_ok sample_config FenceAcquired (Ok 10) sample_request sample_ids
              empty_db a submitted_db finished_db sample_config FenceWouldBlock (Ok 99) 99
              second_ids ltac:(constructor) Hs Hrun eq_refl) as (job & Hj & _ & Hrep).
  exists job. split; [exact Hj | exact Hrep].
Defined.

Lemma submit_conflict_witness :
  submit_preallocated io_ok sample_config FenceAcquired (Ok 99) conflicting_request second_ids
    submitted_db = (Err idempotency_conflict, submitted_db).
Proof.
  destruct (idempotency_row conflicting_request submitted_db) as [key | ] eqn:Hkey;
    [ | exfalso; revert Hkey; vm_compute; discriminate].
  destruct (submit_operation_digest conflicting_request) as [digest | e] eqn:Hd;
    [ | exfalso; revert Hd; vm_compute; discriminate].
  apply (submit_conflict io_ok sample_config FenceAcquired (Ok 99) conflicting_request second_ids
           submitted_db 99 digest key); [exact submitted_reachable | | by split | done | exact Hkey | ].
  - split; [vm_compute; reflexivity | done | exact Hd].
  - intros Heq. apply (f_equal (fmap key_operation_digest)) in Hkey. simpl in Hkey.
    apply (f_equal (fun r => match r with Ok x => Some x | Err _ => None end)) in Hd.
    simpl in Hd. rewrite Heq, <- Hd in Hkey. revert Hkey. vm_compute. discriminate.
Defined.
