(* ===== verification/Capacity.v ===== *)
(** * Capacity decisions

    Which valid requests are admitted, and what a refused one is told: the
    scope, the count and the Jobs that hold the capacity. *)

From S2P Require Import Prelude Text Errors Types Supervisor Platform TestPlatform Validation.
From S2P Require Import Submit Store Transaction Projection Lifecycle Admission Preservation.
From S2P Require Import Recovery AdminRepair Registry StoreInvariant Scenario Safety History.
From S2P Require Import Refinement AdmissionSpec.

#[local] Open Scope Z_scope.

(** ** Lists of rows *)

Lemma distinct_NoDup {A} `{EqDecision A} (l : list A) : forall seen,
  NoDup l -> (forall x, x ∈ l -> x ∉ seen) -> distinct seen l = l.
Proof.
  induction l as [ | x l IH]; intros seen Hnd Hs; [done | ]. cbn [distinct].
  apply NoDup_cons in Hnd as [Hx Hnd]. case_bool_decide as Hin.
  { by destruct (Hs x (list_elem_of_here _ _)). }
  f_equal. apply IH; [done | ]. intros y Hy Hys. apply elem_of_cons in Hys as [-> | Hys]; [done | ].
  by apply (Hs y (list_elem_of_further _ _ _ Hy)).
Qed.

Lemma NoDup_map_omap {A B C} (g : B -> C) (f : A -> option B) (l : list A) :
  NoDup l ->
  (forall x y a b, x ∈ l -> y ∈ l -> f x = Some a -> f y = Some b -> g a = g b -> x = y) ->
  NoDup (map g (omap f l)).
Proof.
  induction l as [ | x l IH]; intros Hnd Hinj; [constructor | ].
  apply NoDup_cons in Hnd as [Hx Hnd].
  assert (Hl : NoDup (map g (omap f l))).
  { apply IH; [done | ]. intros y z a b Hy Hz. apply Hinj; by apply list_elem_of_further. }
  simpl. destruct (f x) as [a | ] eqn:Ha; [ | exact Hl]. simpl. apply NoDup_cons.
  split; [ | exact Hl]. intros Hin. apply list_elem_of_In, in_map_iff in Hin as (b & Hb & Hin).
  apply list_elem_of_In, list_elem_of_omap in Hin as (y & Hy & Hfy).
  apply Hx. by rewrite (Hinj x y a b (list_elem_of_here _ _) (list_elem_of_further _ _ _ Hy) Ha Hfy).
Qed.

Lemma length_omap_filter {A B} (f : A -> option B) (p : A -> bool) (l : list A) :
  (forall x, x ∈ l -> p x = match f x with Some _ => true | None => false end) ->
  length (omap f l) = length (List.filter p l).
Proof.
  induction l as [ | x l IH]; intros Hp; [done | ]. simpl.
  rewrite (Hp x (list_elem_of_here _ _)).
  assert (length (omap f l) = length (List.filter p l)) as Hl
    by (apply IH; intros y Hy; apply Hp; by apply list_elem_of_further).
  unfold omap in *. destruct (f x); simpl; by rewrite Hl.
Qed.

(** ** The rows of the capacity queries *)

Lemma live_joined_length d : store_wf d -> global_active d = Z.of_nat (length (live_joined d)).
Proof.
  intros Hwf. unfold global_active, live_joined. f_equal. symmetry. apply length_omap_filter.
  intros [k res] Hin. apply elem_of_map_to_list in Hin. simpl.
  destruct (live_reservation (row_reservation res)); [ | done].
  destruct (wf_reservations _ Hwf _ _ Hin) as [-> [row Hrow]]. rewrite Hrow. simpl.
  destruct (wf_attempts _ Hwf _ _ Hrow) as (_ & _ & job & _ & Hjob & _). by rewrite Hjob.
Qed.

Lemma live_joined_NoDup d :
  store_wf d -> NoDup (map (fun rj => job_job_id rj.2) (live_joined d)).
Proof.
  intros Hwf. apply NoDup_map_omap; [apply NoDup_map_to_list | ].
  intros [k1 s1] [k2 s2] [r1 j1] [r2 j2] H1 H2 Hf1 Hf2 Hid. simpl in *.
  apply elem_of_map_to_list in H1, H2.
  destruct (wf_reservations _ Hwf _ _ H1) as [E1 _], (wf_reservations _ Hwf _ _ H2) as [E2 _].
  rewrite E1 in Hf1. rewrite E2 in Hf2.
  destruct (live_reservation (row_reservation s1)); [ | done].
  destruct (live_reservation (row_reservation s2)); [ | done].
  destruct (db_attempts d !! k1) as [a1 | ] eqn:A1; [ | done].
  destruct (db_attempts d !! k2) as [a2 | ] eqn:A2; [ | done]. simpl in Hf1, Hf2.
  destruct (db_jobs d !! att_job_id (row_attempt a1)) as [i1 | ] eqn:J1; [ | done].
  destruct (db_jobs d !! att_job_id (row_attempt a2)) as [i2 | ] eqn:J2; [ | done].
  simpl in Hf1, Hf2. injection Hf1 as <- <-. injection Hf2 as <- <-.
  destruct (wf_jobs _ Hwf _ _ J1) as [I1 _], (wf_jobs _ Hwf _ _ J2) as [I2 _].
  assert (k1 = k2) by (eapply (wf_single _ Hwf); [done.. | congruence]). subst k2. congruence.
Qed.

(** The rows that [capacity_holders] selects from. *)
Definition holder_rows (workspace_id : option string) (d : Db)
    : list (ReservationRecord * RuntimeJobRecord) :=
  order_by holder_le (List.filter (in_workspace workspace_id) (live_joined d)).

Lemma holder_rows_elem w d r job :
  (r, job) ∈ holder_rows w d <-> (r, job) ∈ live_joined d /\ in_workspace w (r, job) = true.
Proof.
  unfold holder_rows. rewrite order_by_Permutation, list_elem_of_In, filter_In.
  by rewrite <- list_elem_of_In.
Qed.

Lemma map_filter_sublist {A B} (g : A -> B) (p : A -> bool) l :
  NoDup (map g l) -> NoDup (map g (List.filter p l)).
Proof.
  induction l as [ | x l IH]; intros H; [done | ]. simpl in *.
  apply NoDup_cons in H as [Hx H]. destruct (p x); simpl; [ | auto].
  apply NoDup_cons. split; [ | auto]. intros Hin. apply Hx.
  apply list_elem_of_In, in_map_iff in Hin as (y & <- & Hin). apply filter_In in Hin as [Hin _].
  by apply list_elem_of_In, in_map.
Qed.

Lemma map_take {A B} (g : A -> B) n l : map g (take n l) = take n (map g l).
Proof. revert l. induction n as [ | n IH]; intros [ | x l]; simpl; by rewrite ?IH. Qed.

(** The holders are the oldest rows; no Job is listed twice. *)
Lemma capacity_holders_jobs w limit d :
  store_wf d ->
  fst (capacity_holders w limit d)
  = take (Z.to_nat limit) (map (fun rj => job_job_id rj.2) (holder_rows w d)).
Proof.
  intros Hwf. unfold capacity_holders. cbn [fst]. fold (holder_rows w d).
  assert (Hnd : NoDup (map (fun rj => job_job_id rj.2) (holder_rows w d))).
  { unfold holder_rows. rewrite order_by_Permutation.
    by apply map_filter_sublist, live_joined_NoDup. }
  rewrite distinct_NoDup; [ | | intros x _; apply not_elem_of_nil].
  - rewrite map_take, map_map. done.
  - apply (NoDup_fmap_1 fst). change (NoDup (map fst (map (fun rj : ReservationRecord *
      RuntimeJobRecord => (job_job_id rj.2, job_workspace_id rj.2)) (holder_rows w d)))).
    by rewrite map_map.
Qed.

Lemma capacity_holders_occupy w limit d j :
  store_wf d -> j ∈ fst (capacity_holders w limit d) ->
  exists job, db_jobs d !! j = Some job /\ occupies (phase_of j d) = true
    /\ match w with Some w => job_workspace_id job = w | None => True end.
Proof.
  intros Hwf. rewrite capacity_holders_jobs by done. intros Hin.
  apply elem_of_take in Hin as (i & Hi & _). apply list_elem_of_lookup_2 in Hi.
  apply list_elem_of_In, in_map_iff in Hi as ([r job] & <- & Hin). simpl.
  apply list_elem_of_In, holder_rows_elem in Hin as [Hin Hw].
  destruct (live_joined_phase _ _ _ Hwf Hin) as [Hj Ho]. exists job. split; [done | ].
  split; [done | ]. destruct w as [w | ]; [ | done]. by apply String.eqb_eq.
Qed.

Lemma capacity_holders_NoDup w limit d : store_wf d -> NoDup (fst (capacity_holders w limit d)).
Proof.
  intros Hwf. rewrite capacity_holders_jobs by done. eapply sublist_NoDup; [ | apply sublist_take].
  unfold holder_rows. rewrite order_by_Permutation. by apply map_filter_sublist, live_joined_NoDup.
Qed.

Lemma capacity_holders_length w limit d :
  store_wf d ->
  length (fst (capacity_holders w limit d))
  = Nat.min (Z.to_nat limit) (length (List.filter (in_workspace w) (live_joined d))).
Proof.
  intros Hwf. rewrite capacity_holders_jobs, length_take, length_map by done.
  unfold holder_rows. by rewrite order_by_Permutation.
Qed.

Section capacity.
Context `{P : Platform}.

(** A valid request with an unknown key, past the fence. *)
Record fresh_request (request : SubmitRequest) (now : RuntimeResult Z) (at_ms : Z)
    (digest : string) (d : Db) : Prop := {
  fresh_admissible : admissible request now at_ms digest;
  fresh_key : idempotency_row request d = None;
}.

Lemma submit_refused io config now request ids d at_ms digest e :
  fresh_request request now at_ms digest d -> begins io ->
  check_capacity request d = Err e ->
  submit_preallocated io config FenceAcquired now request ids d = (Err e, d).
Proof.
  intros [Hadm Hkey] Hio He. rewrite (submit_admissible _ _ _ _ _ _ _ _ _ Hadm Hio).
  unfold submit_tx, mbind, tx_bind, read, lift. rewrite Hkey. simpl. by rewrite He.
Qed.

(** a taken Workspace refuses, and says who holds it.  On a reachable
    database a valid new request for a Workspace whose single slot is taken is
    refused with the retryable capacity error of scope "workspace" that names
    exactly one holder: a Job of that Workspace that is pending, in flight,
    stopping or held.  Nothing is changed. *)
Theorem workspace_capacity_refusal io config now request ids d at_ms digest :
  let w := plan_workspace_id (sub_plan request) in
  registry_reachable d -> fresh_request request now at_ms digest d -> begins io ->
  0 < workspace_active w d ->
  exists message holder job,
    submit_preallocated io config FenceAcquired now request ids d
    = (Err (concurrency message "workspaceId"
              {| cap_scope := "workspace"; cap_active := 1; cap_limit := 1;
                 cap_workspace_id := Some w; cap_holder_job_ids := [holder];
                 cap_holder_workspace_ids := [w]; cap_holders_truncated := false |}), d)
    /\ db_jobs d !! holder = Some job /\ job_workspace_id job = w
    /\ occupies (phase_of holder d) = true.
Proof.
  intros w Hr Hfresh Hio Hact. pose proof (reachable_wf d Hr) as Hwf.
  assert (H1 : workspace_active w d = 1) by (pose proof (store_wf_workspace_active d w Hwf); lia).
  destruct (capacity_holders (Some w) WORKSPACE_EXECUTION_LIMIT d) as [js ws] eqn:Hcap.
  pose proof (capacity_holders_length (Some w) WORKSPACE_EXECUTION_LIMIT d Hwf) as Hlen.
  rewrite Hcap in Hlen. unfold workspace_active in H1.
  assert (Hn : length js = 1%nat) by (cbn [fst] in Hlen; change (Z.to_nat WORKSPACE_EXECUTION_LIMIT)
    with 1%nat in Hlen; lia).
  destruct js as [ | holder [ | ? ?]]; [done | | done].
  destruct (capacity_holders_occupy (Some w) WORKSPACE_EXECUTION_LIMIT d holder Hwf)
    as (job & Hjob & Hocc & Hjw); [rewrite Hcap; apply list_elem_of_here | ].
  assert (Hws : ws = [w]).
  { unfold capacity_holders in Hcap. injection Hcap as Hjs <-.
    destruct (take _ _) as [ | [j0 w0] [ | ? ?]] eqn:Ht; [done | | done]. simpl.
    assert (Hin : (j0, w0) ∈ take (Z.to_nat WORKSPACE_EXECUTION_LIMIT)
              (distinct [] (map (fun rj : ReservationRecord * RuntimeJobRecord =>
                 (job_job_id rj.2, job_workspace_id rj.2)) (holder_rows (Some w) d))))
      by (unfold holder_rows; rewrite Ht; apply list_elem_of_here).
    apply elem_of_take in Hin as (i & Hi & _). apply list_elem_of_lookup_2 in Hi.
    apply elem_of_distinct in Hi as [Hi _].
    apply list_elem_of_In, in_map_iff in Hi as ([r j] & Heq & Hi). simpl in Heq.
    apply list_elem_of_In, holder_rows_elem in Hi as [_ Hi]. simpl in Hi.
    apply String.eqb_eq in Hi. congruence. }
  eexists _, holder, job. split; [ | done]. eapply submit_refused; [done | done | ].
  unfold check_capacity. fold w. unfold workspace_active in *. rewrite H1, Hcap, Hws.
  reflexivity.
Qed.

(** a full Runtime refuses, and says who fills it.  On a reachable
    database a valid new request for a free Workspace is refused when the
    number of live reservations has reached its global limit; the error carries
    that number, the limit, and the first min(limit, 16) distinct Jobs that
    hold capacity, flagged as truncated exactly when there are more.  Nothing is
    changed. *)
Theorem global_capacity_refusal io config now request ids d at_ms digest :
  registry_reachable d -> fresh_request request now at_ms digest d -> begins io ->
  workspace_active (plan_workspace_id (sub_plan request)) d = 0 ->
  0 <= sub_global_limit request <= global_active d ->
  exists message cap,
    submit_preallocated io config FenceAcquired now request ids d
    = (Err (concurrency message "globalLimit" cap), d)
    /\ cap_scope cap = "global" /\ cap_active cap = global_active d
    /\ cap_limit cap = sub_global_limit request
    /\ NoDup (cap_holder_job_ids cap)
    /\ Z.of_nat (length (cap_holder_job_ids cap)) = Z.min (sub_global_limit request) 16
    /\ (forall j, j ∈ cap_holder_job_ids cap -> occupies (phase_of j d) = true)
    /\ (cap_holders_truncated cap = true <->
          Z.of_nat (length (cap_holder_job_ids cap)) < global_active d).
Proof.
  intros Hr Hfresh Hio H0 Hlim. pose proof (reachable_wf d Hr) as Hwf.
  set (limit := Z.min (sub_global_limit request) 16).
  destruct (capacity_holders None limit d) as [js ws] eqn:Hcap.
  assert (Hlen : Z.of_nat (length js) = limit).
  { pose proof (capacity_holders_length None limit d Hwf) as Hl. rewrite Hcap in Hl. simpl in Hl.
    pose proof (live_joined_length d Hwf) as Hg.
    assert (Hall : forall l, List.filter (in_workspace None) l = l)
      by (induction l as [ | x l IH]; simpl; congruence).
    rewrite Hall in Hl. unfold limit in *. lia. }
  pose proof (capacity_holders_NoDup None limit d Hwf) as Hnd. rewrite Hcap in Hnd.
  eexists _, _. split; [eapply submit_refused; [done | done | ] | ].
  - unfold check_capacity. rewrite H0. rewrite (proj2 (Z.leb_le _ _) (proj2 Hlim)).
    fold limit. rewrite Hcap. reflexivity.
  - cbn [cap_scope cap_active cap_limit cap_holder_job_ids cap_holders_truncated].
    repeat split; [exact Hnd | done | | | ].
    + intros j Hj. destruct (capacity_holders_occupy None limit d j Hwf) as (? & _ & ? & _);
        [by rewrite Hcap | done].
    + intros Ht. rewrite Hlen. by apply Z.ltb_lt.
    + rewrite Hlen. by intros Ht%Z.ltb_lt.
Qed.
(** ** Requests that are admitted *)

(** The preallocated identifiers occur nowhere. *)
Record fresh_ids (config : RegistryConfig) (request : SubmitRequest)
    (ids : PreallocatedAdmissionIds) (d : Db) : Prop := {
  fi_job : db_jobs d !! pre_job_id ids = None;
  fi_attempt : db_attempts d !! pre_attempt_id ids = None;
  fi_unit : forall k row, db_attempts d !! k = Some row ->
    att_unit_name (row_attempt row) <> "ordivon-" +:+ pre_attempt_id ids +:+ ".service";
  fi_reservation : forall k row, db_reservations d !! k = Some row ->
    res_reservation_id (row_reservation row) <> pre_reservation_id ids;
  fi_provider : db_execution_providers d !! pre_job_id ids = None;
  fi_host : db_host_dependencies d !! pre_job_id ids = None;
  fi_release : db_release_effects d !! pre_job_id ids = None;
  fi_effect : forall release k r, sub_runtime_release_effect request = Some release ->
    db_release_effects d !! k = Some r -> rer_effect_id r <> rel_effect_id release;
}.

Lemma insert_unless_ok violated ctx set d :
  violated d = false -> insert_unless violated ctx set d = Ok (tt, set d).
Proof. unfold insert_unless. by intros ->. Qed.

Lemma none_absent {A} (o : option A) : o = None -> present o = false.
Proof. by intros ->. Qed.

Lemma insert_execution_provider_ok job_id columns d :
  db_execution_providers d !! job_id = None ->
  exists d', insert_execution_provider job_id columns d = Ok (tt, d')
    /\ db_host_dependencies d' = db_host_dependencies d
    /\ db_release_effects d' = db_release_effects d.
Proof.
  intros Hd. unfold insert_execution_provider. destruct columns; [ | by exists d].
  eexists. split; [by apply insert_unless_ok, none_absent | done].
Qed.

Lemma insert_host_dependencies_ok job_id columns d :
  db_host_dependencies d !! job_id = None ->
  exists d', insert_host_dependencies job_id columns d = Ok (tt, d')
    /\ db_release_effects d' = db_release_effects d.
Proof.
  intros Hd. unfold insert_host_dependencies. destruct columns; [ | by exists d].
  eexists. split; [by apply insert_unless_ok, none_absent | done].
Qed.

Lemma insert_release_effect_ok job_id release digest d :
  db_release_effects d !! job_id = None ->
  (forall r k row, release = Some r -> db_release_effects d !! k = Some row ->
     rer_effect_id row <> rel_effect_id r) ->
  exists d', insert_release_effect job_id release digest d = Ok (tt, d').
Proof.
  intros Hd He. unfold insert_release_effect. destruct release as [r | ], digest; try by exists d.
  eexists. apply insert_unless_ok. rewrite none_absent by done. simpl.
  apply any_false. intros k row Hk. apply String.eqb_neq. by eapply He.
Qed.

(** A Job without a key has no row at all for this request. *)
Lemma no_duplicate_job d principal client :
  store_wf d -> db_idempotency_keys d !! (principal, client) = None ->
  any (fun j => String.eqb (job_principal j) principal
                && String.eqb (job_client_request_id j) client) (db_jobs d) = false.
Proof.
  intros Hwf Hk. apply any_false. intros k j Hj. apply not_true_iff_false.
  intros [Hp%String.eqb_eq Hc%String.eqb_eq]%andb_prop.
  destruct (wf_jobs _ Hwf _ _ Hj) as (_ & _ & key & Hkey & _). congruence.
Qed.

Lemma no_duplicate_attempt config request ids digest at_ms d :
  store_wf d -> fresh_ids config request ids d ->
  any (fun row => String.eqb (att_unit_name (row_attempt row))
                    (att_unit_name (new_attempt config ids digest at_ms))
        || (String.eqb (att_job_id (row_attempt row)) (pre_job_id ids)
            && (att_attempt_number (row_attempt row) =? 1))) (db_attempts d) = false.
Proof.
  intros Hwf Hf. apply any_false. intros k row Hrow.
  destruct (String.eqb_spec (att_unit_name (row_attempt row))
              (att_unit_name (new_attempt config ids digest at_ms))) as [Hu | _].
  { by destruct (fi_unit _ _ _ _ Hf _ _ Hrow). }
  destruct (String.eqb_spec (att_job_id (row_attempt row)) (pre_job_id ids)) as [Hj | _]; [ | done].
  destruct (wf_attempts _ Hwf _ _ Hrow) as (_ & _ & job & _ & Hjob & _).
  rewrite Hj, (fi_job _ _ _ _ Hf) in Hjob. done.
Qed.

Lemma insert_admission_ok config request ids digest at_ms d :
  store_wf d -> fresh_ids config request ids d -> idempotency_row request d = None ->
  exists d', insert_admission request (new_admission config request ids digest at_ms) digest at_ms d
             = Ok (tt, d').
Proof.
  intros Hwf Hf Hkey. unfold insert_admission, insert_job, insert_attempt, insert_idempotency_key,
    insert_reservation. cbn [created_job created_attempt created_reservation new_admission
    job_job_id new_job].
  set (d0 := set_db_jobs (<[pre_job_id ids := new_job request ids digest at_ms]> (db_jobs d)) d).
  destruct (insert_execution_provider_ok (pre_job_id ids) (execution_provider_columns request) d0)
    as (d1 & H1 & Hh1 & Hr1); [apply Hf | ].
  destruct (insert_host_dependencies_ok (pre_job_id ids) (host_dependencies_columns request) d1)
    as (d2 & H2 & Hr2); [rewrite Hh1; apply Hf | ].
  destruct (insert_release_effect_ok (pre_job_id ids) (sub_runtime_release_effect request)
              (runtime_release_digest request) d2)
    as (d3 & H3); [rewrite Hr2, Hr1; apply Hf | | ].
  { intros r k row Hr Hk. rewrite Hr2, Hr1 in Hk. by eapply (fi_effect _ _ _ _ Hf). }
  destruct (side_truth_tables _ _ _ _ _ _ _ _ _ H1 H2 H3) as (_ & Ea & Ek & Er & _).
  eexists. unfold mbind, tx_bind.
  rewrite insert_unless_ok; [fold d0 | ].
  2:{ simpl. rewrite (none_absent _ (fi_job _ _ _ _ Hf)). by apply no_duplicate_job. }
  cbn beta iota. fold d0. rewrite H1. cbn beta iota. rewrite H2. cbn beta iota. rewrite H3.
  cbn beta iota. rewrite insert_unless_ok.
  2:{ simpl. rewrite Ea. simpl. rewrite (none_absent _ (fi_attempt _ _ _ _ Hf)).
      by apply (no_duplicate_attempt config request ids digest at_ms). }
  rewrite insert_unless_ok.
  2:{ simpl. rewrite Ek. simpl. unfold idempotency_row in Hkey. rewrite Hkey. simpl.
      apply any_false. intros [p c] key Hk. apply String.eqb_neq. intros Hj.
      destruct (wf_keys _ Hwf _ _ _ Hk) as (job & Hjob & _).
      rewrite Hj, (fi_job _ _ _ _ Hf) in Hjob. done. }
  rewrite insert_unless_ok; [reflexivity | ].
  simpl. rewrite Er. simpl. destruct (db_reservations d !! pre_attempt_id ids) as [res | ] eqn:Hres.
  { destruct (wf_reservations _ Hwf _ _ Hres) as [_ [row Hrow]].
    by rewrite (fi_attempt _ _ _ _ Hf) in Hrow. }
  simpl. apply any_false. intros k row Hk. apply String.eqb_neq. by eapply (fi_reservation _ _ _ _ Hf).
Qed.

(** C28: admission is exact.  On a reachable database a valid request with an
    unknown key and fresh identifiers, on a healthy connection and past the
    fence, is admitted exactly when its Workspace is free and the global limit
    is not reached: capacity is the only reason to refuse it. *)
Theorem submit_admits_exactly config now request ids d at_ms digest :
  registry_reachable d -> fresh_request request now at_ms digest d ->
  fresh_ids config request ids d ->
  (exists d', submit_preallocated io_ok config FenceAcquired now request ids d
              = (Ok (Created (new_admission config request ids digest at_ms)), d'))
  <-> workspace_active (plan_workspace_id (sub_plan request)) d = 0
      /\ global_active d < sub_global_limit request.
Proof.
  intros Hr [Hadm Hkey] Hf. pose proof (reachable_wf d Hr) as Hwf.
  assert (Hio : begins io_ok) by done.
  rewrite (submit_admissible _ _ _ _ _ _ _ _ _ Hadm Hio). split.
  - intros [d' H]. destruct (submit_tx _ _ _ _ _ _ _) as [[f d1] | e] eqn:Hb; [ | done].
    by destruct (submit_tx_Created _ _ _ _ _ _ _ _ _ Hwf Hb Hkey) as (? & ? & _).
  - intros [Hw Hg].
    destruct (insert_admission_ok config request ids digest at_ms d Hwf Hf Hkey) as [d1 Hins].
    unfold submit_tx, mbind, tx_bind, read, lift, check_capacity. cbv zeta. rewrite Hkey.
    cbn [acquire_admission_fence]. rewrite Hw. change (WORKSPACE_EXECUTION_LIMIT <=? 0) with false.
    rewrite (proj2 (Z.leb_gt _ _) Hg), Hins. eexists. reflexivity.
Qed.
End capacity.

Lemma workspace_capacity_refusal_witness :
  exists message holder,
    fst (submit_preallocated io_ok sample_config FenceAcquired (Ok 60) second_request second_ids
           orphaned_db)
    = Err (concurrency message "workspaceId"
             {| cap_scope := "workspace"; cap_active := 1; cap_limit := 1;
                cap_workspace_id := Some "ws-1"%string; cap_holder_job_ids := [holder];
                cap_holder_workspace_ids := ["ws-1"%string]; cap_holders_truncated := false |})
    /\ occupies (phase_of holder orphaned_db) = true.
Proof.
  destruct (submit_operation_digest second_request) as [digest | e] eqn:Hd;
    [ | exfalso; revert Hd; vm_compute; discriminate].
  destruct (workspace_capacity_refusal io_ok sample_config (Ok 60) second_request second_ids
              orphaned_db 60 digest) as (message & holder & job & Hs & _ & _ & Hocc).
  - exact orphaned_reachable.
  - split; [split; [vm_compute; reflexivity | reflexivity | exact Hd] | vm_compute; reflexivity].
  - by split.
  - vm_compute. reflexivity.
  - exists message, holder. rewrite Hs. split; [reflexivity | exact Hocc].
Defined.

Lemma global_capacity_refusal_witness :
  exists message cap,
    fst (submit_preallocated io_ok sample_config FenceAcquired (Ok 60) elsewhere_request second_ids
           orphaned_db) = Err (concurrency message "globalLimit" cap)
    /\ cap_active cap = 1 /\ cap_limit cap = 1 /\ length (cap_holder_job_ids cap) = 1%nat.
Proof.
  destruct (submit_operation_digest elsewhere_request) as [digest | e] eqn:Hd;
    [ | exfalso; revert Hd; vm_compute; discriminate].
  destruct (global_capacity_refusal io_ok sample_config (Ok 60) elsewhere_request second_ids
              orphaned_db 60 digest) as (message & cap & Hs & _ & Ha & Hl & _ & Hn & _).
  - exact orphaned_reachable.
  - split; [split; [vm_compute; reflexivity | reflexivity | exact Hd] | vm_compute; reflexivity].
  - by split.
  - vm_compute. reflexivity.
  - vm_compute. by split.
  - exists message, cap. rewrite Hs. split; [reflexivity | ]. rewrite Ha.
    split; [vm_compute; reflexivity | ]. split; [exact Hl | ].
    apply Nat2Z.inj. rewrite Hn. reflexivity.
Defined.

(** No row of a concrete table satisfies [f]. *)
Lemma no_row {A} (f : A -> bool) (m : gmap string A) k v :
  any f m = false -> m !! k = Some v -> f v = true -> False.
Proof. intros Hf Hk Hv. rewrite (proj1 (any_false f m) Hf k v Hk) in Hv. done. Qed.

Lemma finished_fresh_ids : fresh_ids sample_config second_request second_ids finished_db.
Proof.
  split; try (vm_compute; reflexivity).
  - intros k row Hk Hu. apply (no_row (fun row => String.eqb (att_unit_name (row_attempt row))
      ("ordivon-" +:+ pre_attempt_id second_ids +:+ ".service")) (db_attempts finished_db) k row);
      [vm_compute; reflexivity | done | by apply String.eqb_eq].
  - intros k row Hk Hu. apply (no_row (fun row => String.eqb
      (res_reservation_id (row_reservation row)) (pre_reservation_id second_ids))
      (db_reservations finished_db) k row);
      [vm_compute; reflexivity | done | by apply String.eqb_eq].
  - intros release k r Hr. discriminate Hr.
Qed.

Lemma submit_admits_exactly_witness :
  workspace_active "ws-1" finished_db = 0 /\ global_active finished_db < 4
  /\ exists d' adm, submit_preallocated io_ok sample_config FenceAcquired (Ok 60) second_request
       second_ids finished_db = (Ok (Created adm), d').
Proof.
  assert (Hw : workspace_active "ws-1" finished_db = 0) by (vm_compute; reflexivity).
  assert (Hg : global_active finished_db < 4) by (vm_compute; reflexivity).
  split; [exact Hw | split; [exact Hg | ]].
  destruct (submit_operation_digest second_request) as [digest | e] eqn:Hd;
    [ | exfalso; revert Hd; vm_compute; discriminate].
  assert (Hf : fresh_request second_request (Ok 60) 60 digest finished_db).
  { split; [split; [vm_compute; reflexivity | reflexivity | exact Hd] | vm_compute; reflexivity]. }
  destruct (proj2 (submit_admits_exactly sample_config (Ok 60) second_request second_ids finished_db
              60 digest finished_reachable Hf finished_fresh_ids) (conj Hw Hg)) as [d' Hs].
  exists d', (new_admission sample_config second_request second_ids digest 60). exact Hs.
Defined.
