(* ===== verification/LifecycleSpec.v ===== *)
(** * What cancelling and finishing do

    Bodies of transactions run forward, the cancel intent on every phase, and the
    terminal commit. *)

From S2P Require Import Prelude Text Errors Types Supervisor Platform TestPlatform Validation.
From S2P Require Import Submit Store Transaction Projection Lifecycle Admission Preservation.
From S2P Require Import Recovery AdminRepair Registry StoreInvariant Scenario Safety History.
From S2P Require Import Refinement AdmissionSpec.

(** ** Running bodies forward

    The statements of a body on a known row: what each returns.  Also the
    totality of the projection on well-formed databases. *)

#[local] Open Scope Z_scope.

(** ** Statements *)

Lemma tx_bind_run {A B} (m : tx A) (f : A -> tx B) d a d' :
  m d = Ok (a, d') -> (m ≫= f) d = f a d'.
Proof. unfold mbind, tx_bind. by intros ->. Qed.

Lemma tx_bind_err {A B} (m : tx A) (f : A -> tx B) d e : m d = Err e -> (m ≫= f) d = Err e.
Proof. unfold mbind, tx_bind. by intros ->. Qed.

Lemma load_job_run k d job : db_jobs d !! k = Some job -> load_job k d = Ok (job, d).
Proof. unfold load_job. by intros ->. Qed.

Lemma load_attempt_run k d row :
  db_attempts d !! k = Some row -> load_attempt k d = Ok (row_attempt row, d).
Proof. unfold load_attempt. by intros ->. Qed.

Lemma load_reservation_run k d row :
  db_reservations d !! k = Some row -> load_reservation k d = Ok (row_reservation row, d).
Proof. unfold load_reservation. by intros ->. Qed.

Lemma reject_run c e d : c = false -> reject_if c e d = Ok (tt, d).
Proof. by intros ->. Qed.

Lemma reject_err c e d : c = true -> reject_if c e d = Err e.
Proof. by intros ->. Qed.

Lemma lift_run {A} (m : RuntimeResult A) a d : m = Ok a -> lift m d = Ok (a, d).
Proof. by intros ->. Qed.

Lemma update_attempts_hit ctx k w s d row :
  db_attempts d !! k = Some row -> w row = true ->
  attempts_terminal_no_reopen (att_state (row_attempt row)) (att_state (row_attempt (s row)))
    = false ->
  update_attempts ctx k w s d = Ok (1, set_db_attempts (<[k := s row]> (db_attempts d)) d).
Proof. unfold update_attempts. by intros -> -> ->. Qed.

Lemma update_attempts_miss ctx k w s d row :
  db_attempts d !! k = Some row -> w row = false -> update_attempts ctx k w s d = Ok (0, d).
Proof. unfold update_attempts. by intros -> ->. Qed.

Lemma update_jobs_hit ctx k w s d job :
  db_jobs d !! k = Some job -> w job = true ->
  jobs_resolution_immutable (job_resolution job) (job_resolution (s job)) = false ->
  update_jobs ctx k w s d = Ok (1, set_db_jobs (<[k := s job]> (db_jobs d)) d).
Proof. unfold update_jobs. by intros -> -> ->. Qed.

Lemma update_jobs_miss ctx k w s d job :
  db_jobs d !! k = Some job -> w job = false -> update_jobs ctx k w s d = Ok (0, d).
Proof. unfold update_jobs. by intros -> ->. Qed.

(** An UPDATE whose WHERE may or may not hold. *)
Lemma update_attempts_if ctx k w s d row :
  db_attempts d !! k = Some row ->
  (w row = true -> attempts_terminal_no_reopen (att_state (row_attempt row))
                     (att_state (row_attempt (s row))) = false) ->
  exists n, update_attempts ctx k w s d
    = Ok (n, set_db_attempts (<[k := if w row then s row else row]> (db_attempts d)) d).
Proof.
  intros Hk Ht. destruct (w row) eqn:Hw; eexists.
  - apply update_attempts_hit; auto.
  - rewrite insert_id by done. rewrite (update_attempts_miss ctx k w s d row Hk Hw). by destruct d.
Qed.

Lemma update_jobs_if ctx k w s d job :
  db_jobs d !! k = Some job ->
  (w job = true -> jobs_resolution_immutable (job_resolution job) (job_resolution (s job)) = false) ->
  exists n, update_jobs ctx k w s d
    = Ok (n, set_db_jobs (<[k := if w job then s job else job]> (db_jobs d)) d).
Proof.
  intros Hk Ht. destruct (w job) eqn:Hw; eexists.
  - apply update_jobs_hit; auto.
  - rewrite insert_id by done. rewrite (update_jobs_miss ctx k w s d job Hk Hw). by destruct d.
Qed.

Lemma release_run k at_ms reason d row :
  db_reservations d !! k = Some row -> live_reservation (row_reservation row) = true ->
  release_reservation k at_ms reason d
  = Ok (tt, set_db_reservations (<[k := released_row at_ms reason row]> (db_reservations d)) d).
Proof.
  intros Hk Hl. unfold release_reservation, update_reservations, mbind, tx_bind.
  rewrite Hk, Hl. reflexivity.
Qed.

Lemma hold_run k at_ms reason d row :
  db_reservations d !! k = Some row -> live_reservation (row_reservation row) = true ->
  hold_orphaned_reservation k at_ms reason d
  = Ok (tt, set_db_reservations (<[k := held_row at_ms reason row]> (db_reservations d)) d).
Proof.
  intros Hk Hl. unfold hold_orphaned_reservation, update_reservations, mbind, tx_bind.
  rewrite Hk, Hl. reflexivity.
Qed.

(** ** The projection is total *)

Lemma latest_attempt_id_some j m k row :
  m !! k = Some row -> att_job_id (row_attempt row) = j -> is_Some (latest_attempt_id j m).
Proof.
  intros Hk Hj. unfold latest_attempt_id. apply fmap_is_Some.
  assert (Hin : (k, row) ∈ map_to_list m) by (by apply elem_of_map_to_list).
  revert Hin. generalize (map_to_list m) as l. intros l.
  induction l as [ | [x y] l IH]; intros Hin; [by apply not_elem_of_nil in Hin | ]. simpl.
  apply elem_of_cons in Hin as [[= <- <-] | Hin].
  - rewrite (proj2 (String.eqb_eq _ _) Hj).
    destruct (foldr _ None l) as [[b n] | ]; [by destruct (n <? _) | done].
  - destruct (IH Hin) as [[b n] Hb]. rewrite Hb.
    destruct (String.eqb _ j); [by destruct (n <? _) | done].
Qed.

(** The snapshot of a Job whose Attempt row is [row]. *)
Definition snapshot_of (job : RuntimeJobRecord) (row : AttemptRow) (d : Db) : JobSnapshot :=
  {| snap_job := job; snap_attempt := Some (row_attempt row);
     snap_projection :=
       project_job job (Some (row_attempt row)) (attempt_recovery_condition_active row)
         (any (fun a => String.eqb (art_job_id a) (job_job_id job)) (db_artifacts d))
         (job_execution_reason_code (job_job_id job)
            (match job_resolution job with Some _ => true | None => false end) (db_events d)) |}.

Lemma snapshot_attempt_run d k row job :
  store_wf d -> db_attempts d !! k = Some row ->
  db_jobs d !! att_job_id (row_attempt row) = Some job ->
  snapshot_attempt job d = Ok (Some row, d).
Proof.
  intros Hwf Hrow Hjob. open_cell Hwf Hrow. simplify_eq.
  unfold snapshot_attempt. destruct Hcell as [_ [Ho | Hc]].
  - by rewrite (open_current _ _ _ Ho), Hrow.
  - rewrite (closed_current _ _ _ Hc). destruct (wf_jobs _ Hwf _ _ Hjob) as [-> _].
    destruct (latest_attempt_id_some (att_job_id (row_attempt row)) (db_attempts d) _ row Hrow
                eq_refl) as [k' Hk'].
    rewrite Hk'. apply latest_attempt_id_Some in Hk' as (row' & Hrow' & Hj).
    rewrite (wf_single _ Hwf _ _ _ _ Hrow' Hrow Hj). by rewrite Hrow.
Qed.

Lemma load_job_snapshot_total d k row job :
  store_wf d -> db_attempts d !! k = Some row ->
  db_jobs d !! att_job_id (row_attempt row) = Some job ->
  load_job_snapshot (att_job_id (row_attempt row)) d = Ok (snapshot_of job row d).
Proof.
  intros Hwf Hrow Hjob. pose proof (snapshot_attempt_run _ _ _ _ Hwf Hrow Hjob) as Hsnap.
  unfold load_job_snapshot, query, load_job_snapshot_in.
  rewrite (tx_bind_run (load_job _) _ d job d) by (by apply load_job_run).
  rewrite (tx_bind_run (snapshot_attempt job) _ d _ d Hsnap). reflexivity.
Qed.

Lemma load_projection_total d k row job :
  store_wf d -> db_attempts d !! k = Some row ->
  db_jobs d !! att_job_id (row_attempt row) = Some job ->
  load_projection (att_job_id (row_attempt row)) d = Ok (snap_projection (snapshot_of job row d)).
Proof.
  intros Hwf Hrow Hjob. unfold load_projection. by rewrite (load_job_snapshot_total _ _ _ _ Hwf Hrow Hjob).
Qed.

(** ** Cancellation

    What [request_cancel] does to a Job in each phase, on every reachable
    database: it is total, it records the intent, it resolves a Job that was
    never dispatched, and it never touches another Job. *)

#[local] Open Scope Z_scope.

(** ** Phases after one cell was rewritten *)

Record cell_write (k : string) (row row' : AttemptRow) (d d' : Db) : Prop := {
  cw_row : db_attempts d !! k = Some row;
  cw_attempts : db_attempts d' = <[k := row']> (db_attempts d);
  cw_job : att_job_id (row_attempt row') = att_job_id (row_attempt row);
  cw_jobs : forall j, j <> att_job_id (row_attempt row) -> db_jobs d' !! j = db_jobs d !! j;
}.

Lemma cell_write_phase k row row' d d' :
  store_wf d -> store_wf d' -> cell_write k row row' d d' ->
  phase_of (att_job_id (row_attempt row)) d' = phase_of_state (att_state (row_attempt row'))
  /\ forall j, j <> att_job_id (row_attempt row) -> phase_of j d' = phase_of j d.
Proof.
  intros Hwf Hwf' [Hrow Ha Hj Hjobs]. split.
  - rewrite <- Hj. apply (phase_of_cell d' k); [done | ]. by rewrite Ha, lookup_insert_eq.
  - intros j Hne. destruct (db_jobs d !! j) as [job | ] eqn:Hjob.
    + destruct (job_cell _ _ _ Hwf Hjob) as (k2 & row2 & res & Hrow2 & _ & _ & <- & _).
      rewrite (phase_of_cell d k2 row2 Hwf Hrow2). apply (phase_of_cell d' k2 row2 Hwf').
      rewrite Ha, lookup_insert_ne; [done | ]. congruence.
    + rewrite !phase_of_absent; [done | done | by rewrite Hjobs].
Qed.

(** The WHERE and the trigger of an UPDATE of an unresolved Job. *)
Ltac unresolved Ho := cbn; rewrite (open_resolution _ _ _ Ho); reflexivity.

(** The phase a cancel request leads to. *)
Definition cancelled_phase (p : phase) : phase :=
  match p with
  | Pending => Settled JobResolution.Cancelled
  | InFlight => Stopping
  | p => p
  end.

Section cancel.
Context `{P : Platform}.

Definition cancel_recorded (job_id : string) (d : Db) : Prop :=
  exists job, db_jobs d !! job_id = Some job /\ job_desired_state job = JobDesiredState.Cancelled.

(** A body that ends in the commit of a cancel intent, with what it wrote. *)
Definition cancels (job : RuntimeJobRecord) (k : string) (row : AttemptRow) (d : Db)
    (m : tx (flow JobProjection)) (s : AttemptState.t) : Prop :=
  exists row' ctx d', m d = Ok (commit_cancel (job_job_id job) ctx, d')
    /\ cell_write k row row' d d' /\ att_state (row_attempt row') = s
    /\ cancel_recorded (job_job_id job) d'.

Lemma cancel_accepted job k row res d at_ms :
  db_attempts d !! k = Some row -> db_jobs d !! att_job_id (row_attempt row) = Some job ->
  db_reservations d !! k = Some res -> att_attempt_id (row_attempt row) = k ->
  att_job_id (row_attempt row) = job_job_id job ->
  cell_open job (row_attempt row) (row_reservation res) ->
  att_state (row_attempt row) = AttemptState.Accepted ->
  cancels job k row d (request_cancel_unresolved job at_ms) AttemptState.Cancelled.
Proof.
  intros Hrow Hjob Hres Hid Hj Ho Hs. rewrite Hj in Hjob.
  unfold cancels, request_cancel_unresolved.
  rewrite (open_current _ _ _ Ho), Hid.
  do 3 eexists. split; [ | split; [split; [exact Hrow | .. ] | ]].
  - erewrite tx_bind_run by (by apply lift_run).
    erewrite tx_bind_run by (by apply load_attempt_run).
    erewrite tx_bind_run by (by apply reject_run; rewrite Hs).
    erewrite tx_bind_run by (apply update_jobs_hit;
      [done | unresolved Ho | unresolved Ho]).
    rewrite Hs, bool_decide_eq_true_2 by done. unfold cancel_before_dispatch.
    erewrite tx_bind_run.
    2:{ erewrite tx_bind_run by (apply update_attempts_hit; [done | by rewrite Hs | by rewrite Hs]).
        erewrite tx_bind_run by (apply release_run; [done | ];
          unfold live_reservation; by rewrite (open_reservation _ _ _ Ho)).
        erewrite tx_bind_run by (apply update_jobs_hit; simpl; [by apply lookup_insert_eq |
          unresolved Ho | unresolved Ho]).
        reflexivity. }
    reflexivity.
  - reflexivity.
  - done.
  - intros j' Hne. simpl. rewrite !lookup_insert_ne by congruence. done.
  - split; [done | ]. eexists. simpl. rewrite lookup_insert_eq. split; done.
Qed.

Lemma cancel_dispatched job k row res d at_ms :
  db_attempts d !! k = Some row -> db_jobs d !! att_job_id (row_attempt row) = Some job ->
  db_reservations d !! k = Some res -> att_attempt_id (row_attempt row) = k ->
  att_job_id (row_attempt row) = job_job_id job ->
  cell_open job (row_attempt row) (row_reservation res) ->
  stoppable (att_state (row_attempt row)) = true ->
  cancels job k row d (request_cancel_unresolved job at_ms) AttemptState.Stopping.
Proof.
  intros Hrow Hjob Hres Hid Hj Ho Hs. rewrite Hj in Hjob.
  unfold cancels, request_cancel_unresolved. rewrite (open_current _ _ _ Ho), Hid.
  do 3 eexists. split; [ | split; [split; [exact Hrow | .. ] | ]].
  - erewrite tx_bind_run by (by apply lift_run).
    erewrite tx_bind_run by (by apply load_attempt_run).
    erewrite tx_bind_run by (by apply reject_run, (open_state _ _ _ Ho)).
    erewrite tx_bind_run by (apply update_jobs_hit;
      [done | unresolved Ho | unresolved Ho]).
    rewrite bool_decide_eq_false_2 by (by intros Heq; rewrite Heq in Hs). 
    rewrite (bool_decide_eq_false_2 (_ = AttemptState.Stopping))
      by (by intros Heq; rewrite Heq in Hs). cbn [negb]. unfold stop_dispatched.
    erewrite tx_bind_run.
    2:{ erewrite tx_bind_run by (apply update_attempts_hit; [done | done | ];
          by destruct (att_state (row_attempt row))).
        reflexivity. }
    reflexivity.
  - reflexivity.
  - done.
  - intros j' Hne. simpl. rewrite lookup_insert_ne by congruence. done.
  - split; [done | ]. eexists. simpl. rewrite lookup_insert_eq. split; done.
Qed.

Lemma cancel_stopping job k row res d at_ms :
  db_attempts d !! k = Some row -> db_jobs d !! att_job_id (row_attempt row) = Some job ->
  db_reservations d !! k = Some res -> att_attempt_id (row_attempt row) = k ->
  att_job_id (row_attempt row) = job_job_id job ->
  cell_open job (row_attempt row) (row_reservation res) ->
  att_state (row_attempt row) = AttemptState.Stopping ->
  cancels job k row d (request_cancel_unresolved job at_ms) AttemptState.Stopping.
Proof.
  intros Hrow Hjob Hres Hid Hj Ho Hs. rewrite Hj in Hjob.
  unfold cancels, request_cancel_unresolved. rewrite (open_current _ _ _ Ho), Hid.
  exists row. do 2 eexists. split; [ | split; [split; [exact Hrow | .. ] | ]].
  - erewrite tx_bind_run by (by apply lift_run).
    erewrite tx_bind_run by (by apply load_attempt_run).
    erewrite tx_bind_run by (by apply reject_run, (open_state _ _ _ Ho)).
    erewrite tx_bind_run by (apply update_jobs_hit;
      [done | unresolved Ho | unresolved Ho]).
    rewrite Hs, bool_decide_eq_false_2 by done. rewrite bool_decide_eq_true_2 by done.
    reflexivity.
  - simpl. by rewrite insert_id.
  - done.
  - intros j' Hne. simpl. rewrite lookup_insert_ne by congruence. done.
  - split; [done | ]. eexists. simpl. rewrite lookup_insert_eq. split; done.
Qed.
Lemma append_event_if (b : bool) j a ty o ps ns rc dt at_ms d :
  exists d', (if b then append_event j a ty o ps ns rc dt at_ms else mret tt) d = Ok (tt, d')
    /\ db_attempts d' = db_attempts d /\ db_jobs d' = db_jobs d.
Proof. destruct b; eexists; done. Qed.

Lemma cancel_orphaned job k row res d at_ms :
  store_wf d -> db_attempts d !! k = Some row ->
  db_jobs d !! att_job_id (row_attempt row) = Some job ->
  db_reservations d !! k = Some res -> att_job_id (row_attempt row) = job_job_id job ->
  cell_closed job (row_attempt row) (row_reservation res) ->
  att_state (row_attempt row) = AttemptState.Orphaned ->
  cancels job k row d (request_cancel_orphaned job at_ms) AttemptState.Orphaned.
Proof.
  intros Hwf Hrow Hjob Hres Hj Hc Hs. rewrite Hj in Hjob.
  assert (Hr : job_resolution job = Some JobResolution.Orphaned).
  { destruct (closed_resolution _ _ _ Hc) as (r & -> & Hrs). rewrite Hs in Hrs. by injection Hrs as <-. }
  assert (Hk : latest_attempt_id (job_job_id job) (db_attempts d) = Some k).
  { destruct (latest_attempt_id_some _ _ _ _ Hrow Hj) as [k' Hk'].
    pose proof (latest_attempt_id_Some _ _ _ Hk') as (row' & Hrow' & Hj').
    rewrite (wf_single _ Hwf k' k row' row) in Hk'; [done | done | done | congruence]. }
  destruct (update_jobs_if "cannot persist orphan cancel intent" (job_job_id job)
    (fun j => (job_resolution j == Some JobResolution.Orphaned)
              && (job_desired_state j != JobDesiredState.Cancelled))
    (fun j => bump_job (set_job_desired_state JobDesiredState.Cancelled j)) d job Hjob)
    as [n1 H1]; [intros _; cbn; by rewrite Hr | ].
  match type of H1 with _ = Ok (_, ?x) => set (d1 := x) in H1 end.
  destruct (update_attempts_if "cannot persist orphan stop intent" k
    (fun row => (att_state (row_attempt row) == AttemptState.Orphaned)
                && (att_termination_intent (row_attempt row)
                    != AttemptTerminationIntent.StopRequested))
    (on_attempt (fun a =>
       bump_attempt (set_att_termination_intent AttemptTerminationIntent.StopRequested a)))
    d1 row Hrow) as [n2 H2]; [intros _; cbn; by rewrite Hs | ].
  match type of H2 with _ = Ok (_, ?x) => set (d2 := x) in H2 end.
  destruct (append_event_if ((job_desired_state job != JobDesiredState.Cancelled)
      || (att_termination_intent (row_attempt row) != AttemptTerminationIntent.StopRequested))
    (job_job_id job) (Some k) "STOP_REQUESTED" "SYSTEM_DERIVED" (Some AttemptState.Orphaned)
    (Some AttemptState.Orphaned) "ORPHAN_CANCEL_INTENT_COMMITTED" (obj []) at_ms d2)
    as (d3 & H3 & Ha3 & Hj3).
  unfold cancels, request_cancel_orphaned. do 2 eexists. exists d3.
  split; [ | split; [split; [exact Hrow | exact Ha3 | .. ] | ]].
  - erewrite tx_bind_run by reflexivity. rewrite Hk.
    erewrite tx_bind_run by (by apply lift_run).
    erewrite tx_bind_run by (by apply load_attempt_run).
    erewrite tx_bind_run by (by apply load_reservation_run).
    erewrite tx_bind_run by (apply reject_run; by rewrite (closed_reservation _ _ _ Hc), Hs).
    rewrite (tx_bind_run _ _ _ _ _ H1), (tx_bind_run _ _ _ _ _ H2), (tx_bind_run _ _ _ _ _ H3).
    reflexivity.
  - match goal with |- context [if ?b then _ else _] => destruct b; reflexivity end.
  - intros j' Hne. rewrite Hj3. simpl. by rewrite lookup_insert_ne by congruence.
  - split; [match goal with |- context [if ?b then _ else _] => by destruct b end | ]. eexists. split; [rewrite Hj3; apply lookup_insert_eq | ].
    rewrite Hr. by destruct (job_desired_state job) eqn:Hdes.
Qed.

(** What the body of a cancel request does: it commits, with the projection as
    the answer. *)
Record cancel_body (job_id : string) (d : Db) (ctx : string)
    (after_error : RuntimeError -> bool -> Db -> RuntimeResult JobProjection) (d' : Db)
    (new_phase : phase) : Prop := {
  cb_error : after_error = reconcile_cancel_commit_failure job_id
             \/ after_error = (fun e _ _ => Err e);
  cb_wf : store_wf d';
  cb_projection : exists p, load_projection job_id d' = Ok p;
  cb_phase : phase_of job_id d' = new_phase;
  cb_recorded : if occupies (phase_of job_id d) then cancel_recorded job_id d' else d' = d;
  cb_others : forall j, j <> job_id -> phase_of j d' = phase_of j d;
}.

Lemma cancels_body job_id at_ms d k row job s :
  store_wf d -> att_job_id (row_attempt row) = job_id -> job_job_id job = job_id ->
  cancels job k row d (request_cancel_tx job_id at_ms) s ->
  occupies (phase_of job_id d) = true ->
  exists ctx after_error d',
    request_cancel_tx job_id at_ms d = Ok (Commit ctx (load_projection job_id) after_error, d')
    /\ cancel_body job_id d ctx after_error d' (phase_of_state s).
Proof.
  intros Hwf Hj Hjid (row' & ctx & d' & Hm & Hcw & Hs & Hrec) Hocc. rewrite Hjid in *.
  pose proof (request_cancel_wf _ _ _ _ _ Hwf Hm) as Hwf'. pose proof Hrec as (job' & Hjob' & _).
  destruct (cell_write_phase _ _ _ _ _ Hwf Hwf' Hcw) as [Hp Ho]. rewrite Hj in Hp, Ho.
  exists ctx, (reconcile_cancel_commit_failure job_id), d'. split; [exact Hm | ].
  destruct Hcw as [_ Ha Hji _]. split; [by left | done | | by rewrite Hp, Hs | by rewrite Hocc | done].
  eexists. rewrite <- Hj, <- Hji. apply (load_projection_total d' k row' job'); [done | | ].
  - by rewrite Ha, lookup_insert_eq.
  - by rewrite Hji, Hj.
Qed.

Lemma request_cancel_run job_id at_ms d job :
  store_wf d -> db_jobs d !! job_id = Some job ->
  exists ctx after_error d',
    request_cancel_tx job_id at_ms d = Ok (Commit ctx (load_projection job_id) after_error, d')
    /\ cancel_body job_id d ctx after_error d' (cancelled_phase (phase_of job_id d)).
Proof.
  intros Hwf Hjob.
  destruct (job_cell _ _ _ Hwf Hjob) as (k & row & res & Hrow & Hres & Hid & Hj & Hcell).
  destruct (wf_jobs _ Hwf _ _ Hjob) as (Hjid & _ & _).
  assert (Htx : request_cancel_tx job_id at_ms d = match job_resolution job with
      | Some JobResolution.Orphaned => request_cancel_orphaned job at_ms d
      | Some _ => Ok (commit_or_fail "cannot close terminal cancel replay"
                        (load_projection job_id), d)
      | None => request_cancel_unresolved job at_ms d end).
  { unfold request_cancel_tx. erewrite tx_bind_run by (by apply load_job_run).
    by destruct (job_resolution job) as [[] | ]. }
  assert (Hph : phase_of job_id d = phase_of_state (att_state (row_attempt row)))
    by (rewrite <- Hj; by apply (phase_of_cell _ k)).
  pose proof (fun s => cancels_body job_id at_ms d k row job s Hwf Hj Hjid) as Hcancels.
  rewrite Hph in *. rewrite <- Hj in Hjob. rewrite <- Hj in Hjid. unfold cancels in Hcancels.
  rewrite Htx in Hcancels |- *. destruct Hcell as [Hck [Ho | Hc]].
  - rewrite (open_resolution _ _ _ Ho) in *.
    destruct (att_state (row_attempt row)) eqn:Hs;
      try (pose proof (open_state _ _ _ Ho) as Ht; by rewrite Hs in Ht).
    + apply (Hcancels AttemptState.Cancelled); [by eapply cancel_accepted | done].
    + apply (Hcancels AttemptState.Stopping); [eapply cancel_dispatched; try done; by rewrite Hs | done].
    + apply (Hcancels AttemptState.Stopping); [eapply cancel_dispatched; try done; by rewrite Hs | done].
    + apply (Hcancels AttemptState.Stopping); [by eapply cancel_stopping | done].
    + apply (Hcancels AttemptState.Stopping); [eapply cancel_dispatched; try done; by rewrite Hs | done].
  - destruct (closed_resolution _ _ _ Hc) as (r & Hr & Hrs). rewrite Hr in *.
    destruct (decide (att_state (row_attempt row) = AttemptState.Orphaned)) as [Hs | Hs].
    + rewrite Hs in *. injection Hrs as <-.
      apply (Hcancels AttemptState.Orphaned); [by eapply cancel_orphaned | done].
    + exists "cannot close terminal cancel replay", (fun e _ _ => Err e), d.
      split; [by destruct r, (att_state (row_attempt row)) | ].
      split; [by right | done | | | | done].
      * rewrite <- Hj. eexists. by apply (load_projection_total d k row job).
      * rewrite Hph. unfold phase_of_state. rewrite Hrs. by destruct r, (att_state (row_attempt row)).
      * rewrite Hph. unfold phase_of_state. rewrite Hrs. by destruct r, (att_state (row_attempt row)).
Qed.

(** C29: cancellation is total and exact.  On a reachable database and a healthy
    connection [request_cancel] of an existing Job always succeeds and returns
    the new projection: a pending Job becomes settled as cancelled, one in
    flight starts to stop, one that is stopping or held keeps its phase with
    the intent recorded, a settled one is left exactly as it was.  No other Job
    changes phase. *)
Theorem cancel_total job_id at_ms d job :
  registry_reachable d -> db_jobs d !! job_id = Some job ->
  exists p d', request_cancel io_ok job_id at_ms d = (Ok p, d')
    /\ load_projection job_id d' = Ok p
    /\ phase_of job_id d' = cancelled_phase (phase_of job_id d)
    /\ (if occupies (phase_of job_id d) then cancel_recorded job_id d' else d' = d)
    /\ forall j, j <> job_id -> phase_of j d' = phase_of j d.
Proof.
  intros Hreach Hjob.
  destruct (request_cancel_run job_id at_ms d job (reachable_wf d Hreach) Hjob)
    as (ctx & err & d' & Hm & [_ _ [p Hp] Hphase Hrec Hothers]).
  exists p, d'. split; [ | done]. rewrite <- Hp. by apply with_tx_ok with (1 := Hm).
Qed.
End cancel.

Lemma cancel_total_witness :
  phase_of "job-1" running_db = InFlight
  /\ exists p d', request_cancel io_ok "job-1" 40 running_db = (Ok p, d')
     /\ phase_of "job-1" d' = Stopping.
Proof.
  assert (Hp : phase_of "job-1" running_db = InFlight) by (vm_compute; reflexivity).
  split; [exact Hp | ].
  destruct (db_jobs running_db !! "job-1"%string) as [job | ] eqn:Hj;
    [ | exfalso; revert Hj; vm_compute; discriminate].
  destruct (cancel_total "job-1" 40 running_db job running_reachable Hj)
    as (p & d' & Hc & _ & Hp' & _).
  exists p, d'. split; [exact Hc | ]. rewrite Hp', Hp. reflexivity.
Defined.

(** ** Terminal commits

    How an Attempt ends: [commit_terminal] of a nonterminal Attempt settles its
    Job, frees or holds its reservation and answers with the new projection; a
    replay changes nothing, and a different result is refused. *)

#[local] Open Scope Z_scope.

(** Artifact INSERTs read and write the artifact table only. *)
Lemma insert_artifacts_frame a at_ms message artifacts : forall d d2 d',
  insert_artifacts a at_ms message artifacts d = Ok (tt, d') ->
  db_artifacts d2 = db_artifacts d ->
  insert_artifacts a at_ms message artifacts d2
  = Ok (tt, set_db_artifacts (db_artifacts d') d2).
Proof.
  induction artifacts as [ | x rest IH]; intros d d2 d' H Heq; cbn [insert_artifacts] in *.
  - injection H as <-. rewrite <- Heq. by destruct d2.
  - unfold mbind, tx_bind in *. unfold insert_artifact in *. rewrite Heq.
    destruct (_ || _); [done | ]. etrans; [by apply (IH _ _ _ H) | done].
Qed.

Section terminal.
Context `{P : Platform}.

(** The artifacts of a request can be registered. *)
Definition artifacts_insertable (request : TerminalCommit) (a : AttemptRecord) (d : Db) : Prop :=
  is_ok (insert_artifacts a (tc_finished_at_ms request) "cannot register Artifact "
           (tc_artifacts request) d) = true.

(** A request that fits the Attempt [row]. *)
Record fits (request : TerminalCommit) (row : AttemptRow) (d : Db) : Prop := {
  fits_valid : validate_terminal_commit request = Ok tt;
  fits_version : att_row_version (row_attempt row) = tc_expected_row_version request;
  fits_transition :
    AttemptState.can_transition_to (att_state (row_attempt row)) (tc_state request) = true;
  fits_artifacts : artifacts_insertable request (row_attempt row) d;
}.

Lemma fits_terminal request row d :
  fits request row d -> AttemptState.is_terminal (tc_state request) = true.
Proof.
  intros Hf. pose proof (fits_valid _ _ _ Hf) as Hv. unfold validate_terminal_commit in Hv.
  inv_ok. by bool_props.
Qed.

Lemma terminal_resolution s :
  AttemptState.is_terminal s = true -> exists r, resolution_for_state s = Ok r.
Proof. destruct s; eauto; done. Qed.

(** The rows a terminal commit writes. *)
Definition terminal_row (request : TerminalCommit) (row : AttemptRow) : AttemptRow :=
  on_attempt (apply_terminal request) row.
Definition terminal_job (r : JobResolution.t) (job : RuntimeJobRecord) : RuntimeJobRecord :=
  bump_job (set_job_resolution (Some r) (set_job_current_attempt_id None job)).

Lemma settle_reservation_run request k d res :
  db_reservations d !! k = Some res -> live_reservation (row_reservation res) = true ->
  exists m, settle_reservation request k d = Ok (tt, set_db_reservations m d).
Proof.
  intros Hres Hl. unfold settle_reservation. case_bool_decide; eexists.
  - by apply hold_run.
  - by apply release_run.
Qed.

Lemma commit_terminal_run request d k row job res :
  tc_attempt_id request = k -> db_attempts d !! k = Some row ->
  att_attempt_id (row_attempt row) = k ->
  db_jobs d !! att_job_id (row_attempt row) = Some job -> db_reservations d !! k = Some res ->
  cell_open job (row_attempt row) (row_reservation res) -> fits request row d ->
  exists r d', resolution_for_state (tc_state request) = Ok r
    /\ commit_terminal_tx request d
       = Ok (Commit "cannot commit terminal transaction"
               (load_projection (att_job_id (row_attempt row)))
               (reconcile_terminal_commit_failure request), d')
    /\ db_attempts d' = <[k := terminal_row request row]> (db_attempts d)
    /\ db_jobs d' = <[att_job_id (row_attempt row) := terminal_job r job]> (db_jobs d).
Proof.
  intros Hk Hrow Hid Hjob Hres Ho Hf. destruct (terminal_resolution _ (fits_terminal _ _ _ Hf)) as [r Hr].
  pose proof (open_state _ _ _ Ho) as Hnt. pose proof (open_resolution _ _ _ Ho) as Hun.
  pose proof (fits_artifacts _ _ _ Hf) as Hart. unfold artifacts_insertable in Hart.
  destruct (insert_artifacts _ _ _ _ d) as [[[] da] | e] eqn:Hins; [clear Hart | done].
  set (d1 := set_db_attempts (<[k := terminal_row request row]> (db_attempts d)) d).
  pose proof (insert_artifacts_frame _ _ _ _ d d1 da Hins eq_refl) as Hins1.
  destruct (settle_reservation_run request k (set_db_artifacts (db_artifacts da) d1) res) as [mr Hset];
    [done | by unfold live_reservation; rewrite (open_reservation _ _ _ Ho) | ].
  exists r. eexists. split; [done | ]. unfold commit_terminal_tx. rewrite Hk. split.
  - erewrite tx_bind_run by (by apply load_attempt_run).
    erewrite tx_bind_run by (by apply load_job_run). rewrite Hnt.
    erewrite tx_bind_run by (apply reject_run; by rewrite (fits_version _ _ _ Hf),
      bool_decide_eq_true_2).
    erewrite tx_bind_run by (apply reject_run; by rewrite (fits_transition _ _ _ Hf)).
    erewrite tx_bind_run by (apply reject_run; by rewrite Hun).
    erewrite tx_bind_run by (apply update_attempts_hit; [done
      | cbn; by rewrite (fits_version _ _ _ Hf), bool_decide_eq_true_2, Hnt
      | unfold attempts_terminal_no_reopen; by rewrite Hnt]).
    erewrite tx_bind_run by reflexivity.
    rewrite (tx_bind_run _ _ _ _ _ Hins1), Hid, (tx_bind_run _ _ _ _ _ Hset).
    erewrite tx_bind_run by (by apply lift_run).
    erewrite tx_bind_run by (apply update_jobs_hit; [done | unresolved Ho | unresolved Ho]).
    reflexivity.
  - done.
Qed.

(** a terminal commit settles the Job.  On a reachable database and a
    healthy connection, a valid result for a nonterminal Attempt at the expected
    row version, in a state the transition relation allows and with artifacts
    that can be registered, is always committed: the Attempt carries the state,
    digest, exit code and finish time of the request, its Job settles (or is
    held, when the Attempt is orphaned), the answer is the new projection, and
    no other Job changes phase. *)
Theorem commit_terminal_settles request d k row :
  registry_reachable d -> tc_attempt_id request = k -> db_attempts d !! k = Some row ->
  AttemptState.is_terminal (att_state (row_attempt row)) = false -> fits request row d ->
  let job_id := att_job_id (row_attempt row) in
  exists p d', commit_terminal io_ok request d = (Ok p, d')
    /\ load_projection job_id d' = Ok p
    /\ db_attempts d' !! k = Some (terminal_row request row)
    /\ phase_of job_id d' = phase_of_state (tc_state request)
    /\ forall j, j <> job_id -> phase_of j d' = phase_of j d.
Proof.
  intros Hreach Hk Hrow Hnt Hf job_id. pose proof (reachable_wf d Hreach) as Hwf.
  assert (Hwf' : store_wf (snd (commit_terminal io_ok request d)))
    by (eapply reachable_wf, rtc_r; [done | apply StepTerminal]).
  open_cell Hwf Hrow. pose proof (cell_ok_open _ _ _ Hcell Hnt) as Ho.
  destruct (commit_terminal_run request d k row job res Hk Hrow Hid Hjob Hres Ho Hf)
    as (r & d' & Hr & Hb & Ha & Hj).
  assert (Heq : commit_terminal io_ok request d = (load_projection job_id d', d')).
  { unfold commit_terminal, checked. rewrite (fits_valid _ _ _ Hf). by apply with_tx_ok with (1 := Hb). }
  rewrite Heq in *. simpl in Hwf'.
  assert (Hrow' : db_attempts d' !! k = Some (terminal_row request row))
    by (by rewrite Ha, lookup_insert_eq).
  assert (Hproj : load_projection job_id d'
    = Ok (snap_projection (snapshot_of (terminal_job r job) (terminal_row request row) d'))).
  { apply (load_projection_total d' k (terminal_row request row)); [done | done | ].
    simpl. by rewrite Hj, lookup_insert_eq. }
  rewrite Hproj. eexists _, d'. split; [done | ]. split; [done | ].
  split; [done | ]. apply (cell_write_phase k row (terminal_row request row)); [done | done | ].
  split; [done | done | done | ]. intros j Hne. rewrite Hj. by rewrite lookup_insert_ne.
Qed.

(** results are replayed, never replaced.  On a reachable database a commit
    for an Attempt that is already terminal changes nothing: the same digest
    and state are answered with the current projection, anything else is
    refused as a result identity conflict. *)
Theorem commit_terminal_replay request d row :
  registry_reachable d -> db_attempts d !! tc_attempt_id request = Some row ->
  AttemptState.is_terminal (att_state (row_attempt row)) = true ->
  validate_terminal_commit request = Ok tt ->
  commit_terminal io_ok request d
  = (if (att_result_digest (row_attempt row) == Some (tc_result_digest request))
        && (att_state (row_attempt row) == tc_state request)
     then load_projection (att_job_id (row_attempt row)) d
     else Err (error_new ResultIdentityConflict "Attempt already has a different terminal result"
                 (Some "resultDigest") false), d)
  /\ is_ok (load_projection (att_job_id (row_attempt row)) d) = true.
Proof.
  intros Hreach Hrow Ht Hv. pose proof (reachable_wf d Hreach) as Hwf. open_cell Hwf Hrow.
  split.
  - unfold commit_terminal, checked. rewrite Hv. unfold immediate.
    rewrite with_tx_begins by done. unfold commit_terminal_tx.
    erewrite tx_bind_run by (by apply load_attempt_run).
    erewrite tx_bind_run by (by apply load_job_run). rewrite Ht.
    destruct (wf_jobs _ Hwf _ _ Hjob) as [-> _]. by destruct (_ && _).
  - by rewrite (load_projection_total _ _ _ _ Hwf Hrow Hjob).
Qed.
End terminal.

Lemma sample_fits row :
  db_attempts running_db !! "attempt-1"%string = Some row ->
  fits (sample_terminal 3 AttemptState.Succeeded) row running_db.
Proof.
  intros Hrow. assert (Hf : (fun row => (att_row_version (row_attempt row),
    att_state (row_attempt row))) <$> db_attempts running_db !! "attempt-1"%string
    = Some (3, AttemptState.Running)) by (vm_compute; reflexivity).
  rewrite Hrow in Hf. injection Hf as Hversion Hstate.
  split; [vm_compute; reflexivity | by rewrite Hversion | by rewrite Hstate | reflexivity].
Qed.

Lemma commit_terminal_settles_witness :
  exists p d', commit_terminal io_ok (sample_terminal 3 AttemptState.Succeeded) running_db
               = (Ok p, d')
    /\ phase_of "job-1" d' = Settled JobResolution.Succeeded.
Proof.
  destruct (db_attempts running_db !! "attempt-1"%string) as [row | ] eqn:Hrow;
    [ | exfalso; revert Hrow; vm_compute; discriminate].
  assert (Hf : (fun row => (att_job_id (row_attempt row), att_state (row_attempt row)))
    <$> db_attempts running_db !! "attempt-1"%string = Some ("job-1"%string, AttemptState.Running))
    by (vm_compute; reflexivity).
  rewrite Hrow in Hf. injection Hf as Hjob Hstate.
  destruct (commit_terminal_settles (sample_terminal 3 AttemptState.Succeeded) running_db
              "attempt-1" row running_reachable eq_refl Hrow ltac:(by rewrite Hstate)
              (sample_fits row Hrow)) as (p & d' & Hc & _ & _ & Hp & _).
  exists p, d'. rewrite Hjob in Hp. split; [exact Hc | exact Hp].
Defined.

Lemma commit_terminal_replay_witness :
  commit_terminal io_ok (sample_terminal 9 AttemptState.Failed) finished_db
  = (Err (error_new ResultIdentityConflict "Attempt already has a different terminal result"
            (Some "resultDigest"%string) false), finished_db).
Proof.
  destruct (db_attempts finished_db !! "attempt-1"%string) as [row | ] eqn:Hrow;
    [ | exfalso; revert Hrow; vm_compute; discriminate].
  assert (Hf : (fun row => att_state (row_attempt row))
    <$> db_attempts finished_db !! "attempt-1"%string = Some AttemptState.Succeeded)
    by (vm_compute; reflexivity).
  rewrite Hrow in Hf. injection Hf as Hstate.
  destruct (commit_terminal_replay (sample_terminal 9 AttemptState.Failed) finished_db row
              finished_reachable Hrow ltac:(by rewrite Hstate) ltac:(vm_compute; reflexivity))
    as [Heq _].
  rewrite Heq, Hstate, andb_false_r. reflexivity.
Defined.
