(* ===== verification/CommitTruth.v ===== *)
(** * What a failed COMMIT is reported as

    SQLite's COMMIT can fail and yet have taken effect.  The operations look at
    the durable database before they answer: an applied change is reported as
    done, a rolled-back one as retryable, an open transaction as unknown. *)

From S2P Require Import Prelude Text Errors Types Supervisor Platform TestPlatform Validation.
From S2P Require Import Submit Store Transaction Projection Lifecycle Admission Preservation.
From S2P Require Import Recovery AdminRepair Registry StoreInvariant Scenario Safety History.
From S2P Require Import Refinement AdmissionSpec LifecycleSpec.

#[local] Open Scope Z_scope.

(** How an operation that commits ([done], leading from [d] to [d1]) answers for
    each outcome of COMMIT: [applied] is the answer when it took effect anyway. *)
Definition truthful {R} (io : TxIo) (answer : RuntimeResult R * Db) (d d1 : Db)
    (done_ applied : R) : Prop :=
  match io_commit io with
  | CommitDone => answer = (Ok done_, d1)
  | CommitErrorApplied _ => answer = (Ok applied, d1)
  | CommitErrorRolledBack _ => exists e, answer = (Err e, d) /\ err_retryable e = true
  | CommitErrorOpen _ =>
      exists e, answer = (Err e, d) /\ err_code e = DispatchOutcomeUnknown
  end.

Section truth.
Context `{P : Platform}.

(** C30: the answer to an admission is true even when COMMIT fails.  Suppose a
    submission on a reachable database would create a Job on a healthy
    connection.  If COMMIT reports an error but took effect, the same Job is
    reported as existing; if it was rolled back, the error is marked retryable
    and nothing changed; if the transaction is still open, the outcome is
    reported as unknown. *)
Theorem admission_commit_truthful io config fence now request ids d admission d1 :
  registry_reachable d ->
  submit_preallocated io_ok config fence now request ids d = (Ok (Created admission), d1) ->
  begins io ->
  truthful io (submit_preallocated io config fence now request ids d) d d1
    (Created admission) (Existing (created_job admission)).
Proof.
  intros Hr H Hio. pose proof (reachable_wf d Hr) as Hwf.
  destruct (submit_Created_inv _ _ _ _ _ _ _ _ _ Hr H)
    as (at_ms & digest & f & Hnow & Hval & Hdig & -> & Hnone & Hb).
  destruct (submit_tx_Created _ _ _ _ _ _ _ _ _ Hwf Hb Hnone) as (_ & _ & Hci & ->).
  rewrite (submit_admissible io config fence now request ids d at_ms digest), Hb by done.
  unfold truthful. destruct (io_commit io) as [ | e | e | e] eqn:Hc; cbn [finish];
    rewrite Hc; [done | | | eexists; done].
  - unfold reconcile_admission_commit_failure. cbn [negb].
    assert (Hkey : idempotency_row request d1
      = Some {| key_operation_digest := digest; key_job_id := pre_job_id ids;
                key_created_at_ms := at_ms |})
      by (unfold idempotency_row; by rewrite (ci_keys _ _ _ _ _ _ Hci), lookup_insert_eq).
    rewrite Hkey. simpl. rewrite String.eqb_refl. cbn [negb]. unfold query.
    rewrite (load_job_run (pre_job_id ids) d1 (new_job request ids digest at_ms)); [done | ].
    by rewrite (ci_jobs _ _ _ _ _ _ Hci), lookup_insert_eq.
  - unfold reconcile_admission_commit_failure. cbn [negb]. rewrite Hnone. eexists. done.
Qed.

Lemma commit_terminal_open_inv request d f d1 row :
  db_attempts d !! tc_attempt_id request = Some row ->
  AttemptState.is_terminal (att_state (row_attempt row)) = false ->
  commit_terminal_tx request d = Ok (f, d1) ->
  att_row_version (row_attempt row) = tc_expected_row_version request
  /\ db_attempts d1 !! tc_attempt_id request = Some (terminal_row request row)
  /\ f = Commit "cannot commit terminal transaction"
           (load_projection (att_job_id (row_attempt row)))
           (reconcile_terminal_commit_failure request).
Proof.
  intros Hrow Hnt H. unfold commit_terminal_tx, settle_reservation, append_terminal_events in H.
  inv_tx_step; subst. inv_stmt_step. rewrite Hrow in Hrow0. injection Hrow0 as <-.
  inv_tx_step; subst. inv_stmt_step. rewrite Hnt in H.
  inv_update; bool_props; db_simpl; simplify_eq; rewrite lookup_insert_eq; done.
Qed.

(** the answer to a terminal commit is true even when COMMIT fails.
    Suppose a result would be committed on a healthy connection for an Attempt
    that is not terminal.  If COMMIT reports an error but took effect, the answer
    is the projection of the settled Job; if it was rolled back, a retryable
    error and no change; if the transaction is still open, unknown. *)
Theorem terminal_commit_truthful io request d row p d1 :
  registry_reachable d -> db_attempts d !! tc_attempt_id request = Some row ->
  AttemptState.is_terminal (att_state (row_attempt row)) = false ->
  commit_terminal io_ok request d = (Ok p, d1) -> begins io ->
  truthful io (commit_terminal io request d) d d1 p p.
Proof.
  intros Hr Hrow Hnt H Hio. unfold commit_terminal, checked in *.
  destruct (validate_terminal_commit request) as [[] | ] eqn:Hv; [ | done].
  unfold immediate in *. rewrite with_tx_begins in H by done. rewrite with_tx_begins by done.
  destruct (commit_terminal_tx request d) as [[f d2] | ] eqn:Hb; [ | done].
  destruct (commit_terminal_open_inv _ _ _ _ _ Hrow Hnt Hb) as (Hver & Hrow' & ->).
  simpl in H. injection H as Hproj <-.
  unfold truthful. destruct (io_commit io) as [ | e | e | e] eqn:Hc; cbn [finish]; rewrite Hc;
    [by rewrite Hproj | | | eexists; done]; unfold reconcile_terminal_commit_failure; cbn [negb];
    unfold query.
  - rewrite (load_attempt_run _ _ _ Hrow'). simpl. rewrite !bool_decide_eq_true_2 by done. simpl.
    unfold load_projection in Hproj. destruct (load_job_snapshot _ d2); [ | done].
    simpl in Hproj. by injection Hproj as ->.
  - rewrite (load_attempt_run _ _ _ Hrow). simpl. rewrite Hnt.
    rewrite (bool_decide_eq_false_2 (att_state _ = _)).
    + simpl. rewrite Hver, bool_decide_eq_true_2 by done. eexists. done.
    + intros Heq. rewrite Heq in Hnt. unfold validate_terminal_commit in Hv. inv_ok. bool_props.
      congruence.
Qed.

(** The Job is resolved or its cancellation is recorded. *)
Definition cancel_holds (job_id : string) (d : Db) : Prop :=
  exists job, db_jobs d !! job_id = Some job
    /\ (job_resolution job <> None \/ job_desired_state job = JobDesiredState.Cancelled).

Lemma idle_resolved d job_id job :
  store_wf d -> db_jobs d !! job_id = Some job -> occupies (phase_of job_id d) = false ->
  job_resolution job <> None.
Proof.
  intros Hwf Hjob Hp Hn.
  destruct (job_cell _ _ _ Hwf Hjob) as (k & row & res & Hrow & _ & _ & Hj & Hcell).
  pose proof (cell_ok_unresolved _ _ _ Hcell Hn) as Ho.
  rewrite <- Hj, (phase_of_cell _ _ _ Hwf Hrow) in Hp. pose proof (open_state _ _ _ Ho).
  by destruct (att_state (row_attempt row)).
Qed.

Lemma cancel_body_holds job_id d ctx err d' p job :
  store_wf d -> db_jobs d !! job_id = Some job -> cancel_body job_id d ctx err d' p ->
  cancel_holds job_id d'.
Proof.
  intros Hwf Hjob Hcb. pose proof (cb_recorded _ _ _ _ _ _ Hcb) as Hrec.
  destruct (occupies (phase_of job_id d)) eqn:Hocc.
  - destruct Hrec as (job' & ? & ?). exists job'. auto.
  - subst d'. exists job. split; [done | left]. by eapply idle_resolved.
Qed.

(** An answer found by reading the durable database is true of it. *)
Lemma cancel_reconciled_truthfully job_id e auto d p job :
  store_wf d -> db_jobs d !! job_id = Some job ->
  reconcile_cancel_commit_failure job_id e auto d = Ok p ->
  load_projection job_id d = Ok p /\ cancel_holds job_id d.
Proof.
  intros Hwf Hjob H. unfold reconcile_cancel_commit_failure in H.
  destruct auto; cbn [negb] in H; [ | done].
  destruct (job_cell _ _ _ Hwf Hjob) as (k & row & res & Hrow & _ & _ & Hj & _).
  pose proof (load_job_snapshot_total d k row job Hwf Hrow) as Hs. rewrite Hj in Hs.
  unfold load_projection. rewrite (Hs Hjob) in *. simpl in H |- *.
  destruct (decide (job_resolution job = None)) as [Hn | Hn].
  - rewrite bool_decide_eq_true_2 in H by done. cbn [negb] in H.
    destruct (bool_decide (job_desired_state job = JobDesiredState.Cancelled)) eqn:Hd;
      cbn [andb] in H.
    + bool_props. split; [ | exists job; auto].
      destruct (_ == _); [by injection H as <- | by destruct (_ && _)].
    + by destruct (_ && _).
  - rewrite bool_decide_eq_false_2 in H by done. cbn [negb] in H. injection H as <-.
    split; [done | ]. exists job. auto.
Qed.

(** a cancel is never acknowledged falsely.  Whatever SQLite does, when
    [request_cancel] on a reachable database answers with a projection, the
    durable Job is resolved or its cancellation is recorded, and the projection
    is the current one. *)
Theorem cancel_acknowledged_truthfully io job_id at_ms d p d' :
  registry_reachable d -> request_cancel io job_id at_ms d = (Ok p, d') ->
  load_projection job_id d' = Ok p
  /\ exists job, db_jobs d' !! job_id = Some job
       /\ (job_resolution job <> None \/ job_desired_state job = JobDesiredState.Cancelled).
Proof.
  intros Hreach H. pose proof (reachable_wf d Hreach) as Hwf. fold (cancel_holds job_id d').
  unfold request_cancel, immediate, with_tx in H. destruct (io_open io); [done | ].
  destruct (io_begin io); [done | ].
  destruct (request_cancel_tx job_id at_ms d) as [[f d1] | ] eqn:Hb; [ | done].
  assert (Hjob : exists job, db_jobs d !! job_id = Some job).
  { pose proof Hb as Hb'. unfold request_cancel_tx in Hb'. inv_tx_step.
    apply load_job_inv in Hx as [Hjob _]. eauto. }
  destruct Hjob as [job Hjob].
  destruct (request_cancel_run job_id at_ms d job Hwf Hjob) as (ctx & err & d2 & Hm & Hcb).
  rewrite Hb in Hm. injection Hm as -> <-.
  pose proof (cancel_body_holds _ _ _ _ _ _ _ Hwf Hjob Hcb) as Hh. pose proof Hh as (job1 & Hjob1 & _).
  cbn [finish] in H. destruct (io_commit io) as [ | e | e | e].
  - injection H as Hp <-. done.
  - injection H as Hp <-. destruct (cb_error _ _ _ _ _ _ Hcb) as [-> | ->]; [ | done].
    by eapply (cancel_reconciled_truthfully job_id _ _ d1 p job1), Hp; [apply Hcb | ].
  - injection H as Hp <-. destruct (cb_error _ _ _ _ _ _ Hcb) as [-> | ->]; [ | done].
    by eapply (cancel_reconciled_truthfully job_id _ _ d p job), Hp.
  - injection H as Hp <-. by destruct (cb_error _ _ _ _ _ _ Hcb) as [-> | ->].
Qed.
(** The request reaches the branch of an orphaned Job, and would record the
    intent. *)
Lemma orphan_cancel_run job_id at_ms d job :
  store_wf d -> db_jobs d !! job_id = Some job -> job_resolution job = Some JobResolution.Orphaned ->
  exists ctx d', request_cancel_tx job_id at_ms d = Ok (commit_cancel job_id ctx, d')
    /\ cancel_recorded job_id d' /\ phase_of job_id d = Held
    /\ exists p', load_projection job_id d' = Ok p'.
Proof.
  intros Hwf Hjob Hr.
  destruct (job_cell _ _ _ Hwf Hjob) as (k & row & res & Hrow & Hres & _ & Hj & Hcell).
  destruct (wf_jobs _ Hwf _ _ Hjob) as (Hjid & _ & _).
  destruct Hcell as [_ [Ho | Hc]]; [by rewrite (open_resolution _ _ _ Ho) in Hr | ].
  destruct (closed_resolution _ _ _ Hc) as (r & Hr' & Hs). rewrite Hr in Hr'. injection Hr' as <-.
  cbn in Hs. assert (Hstate : att_state (row_attempt row) = AttemptState.Orphaned)
    by (by destruct (att_state (row_attempt row))).
  assert (Hcancels : cancels job k row d (request_cancel_tx job_id at_ms) AttemptState.Orphaned).
  { destruct (cancel_orphaned job k row res d at_ms) as (row' & ctx & d' & Hm & Hrest);
      try done; [by rewrite Hj | by rewrite Hj | ].
    exists row', ctx, d'. split; [ | exact Hrest]. unfold request_cancel_tx.
    erewrite tx_bind_run by (by apply load_job_run). by rewrite Hr. }
  assert (Hphase : phase_of job_id d = Held)
    by (rewrite <- Hj, (phase_of_cell _ k row Hwf Hrow); by rewrite Hstate).
  destruct (cancels_body job_id at_ms d k row job _ Hwf Hj Hjid Hcancels) as (ctx & err & d' & Hm & Hbody);
    [by rewrite Hphase | ].
  destruct Hcancels as (row' & ctx' & d'' & Hm' & _ & _ & Hrec). rewrite Hjid in *.
  exists ctx', d''. rewrite Hm in Hm'. injection Hm' as -> -> ->.
  split; [exact Hm | ]. split; [done | ]. split; [done | ]. apply Hbody.
Qed.

(** C35: the intent of a cancel request for a held Job can be lost although the
    request is answered as a success.  On every reachable database, for every Job
    that is resolved as orphaned (it still holds its Workspace) and whose
    cancellation is not recorded: when the COMMIT of [request_cancel] fails and
    rolls back, the reconciliation finds the Job resolved and answers with its
    projection, in which no cancellation is desired, and the database is
    unchanged.  On a healthy connection the same request records the intent. *)
Theorem orphan_cancel_intent_lost io error job_id at_ms d job :
  registry_reachable d -> db_jobs d !! job_id = Some job ->
  job_resolution job = Some JobResolution.Orphaned ->
  job_desired_state job <> JobDesiredState.Cancelled ->
  io_open io = None -> io_begin io = None -> io_commit io = CommitErrorRolledBack error ->
  phase_of job_id d = Held
  /\ (exists p, request_cancel io job_id at_ms d = (Ok p, d)
       /\ load_projection job_id d = Ok p /\ jp_desired_state p <> JobDesiredState.Cancelled)
  /\ exists p' d', request_cancel io_ok job_id at_ms d = (Ok p', d') /\ cancel_recorded job_id d'.
Proof.
  intros Hreach Hjob Hr Hdesired Hopen Hbegin Hcommit. pose proof (reachable_wf d Hreach) as Hwf.
  destruct (orphan_cancel_run job_id at_ms d job Hwf Hjob Hr) as (ctx & d' & Hm & Hrec & Hheld & p' & Hp').
  destruct (job_cell _ _ _ Hwf Hjob) as (k & row & res & Hrow & _ & _ & Hj & _).
  pose proof (load_job_snapshot_total d k row job Hwf Hrow) as Hs. rewrite Hj in Hs. specialize (Hs Hjob).
  split; [exact Hheld | ]. split.
  - exists (snap_projection (LifecycleSpec.snapshot_of job row d)). split_and!.
    + unfold request_cancel, immediate, with_tx. rewrite Hopen, Hbegin, Hm. cbn [finish commit_cancel].
      unfold finish, commit_cancel. rewrite Hcommit. unfold reconcile_cancel_commit_failure. cbn [negb].
      rewrite Hs. cbn. by rewrite Hr.
    + unfold load_projection. by rewrite Hs.
    + exact Hdesired.
  - exists p', d'. split; [ | exact Hrec]. rewrite <- Hp'. by apply with_tx_ok with (1 := Hm).
Qed.
End truth.

(** ** Concrete failures of COMMIT *)

Definition disk_full : SqlError := OtherSqlError "database or disk is full".
Definition io_applied : TxIo :=
  {| io_open := None; io_begin := None; io_commit := CommitErrorApplied disk_full |}.
Definition io_rolled_back : TxIo :=
  {| io_open := None; io_begin := None; io_commit := CommitErrorRolledBack disk_full |}.

Lemma admission_commit_truthful_witness :
  exists job, submit_preallocated io_applied sample_config FenceAcquired (Ok 10) sample_request
                sample_ids empty_db = (Ok (Existing job), submitted_db)
    /\ job_job_id job = "job-1".
Proof.
  destruct (submit_preallocated io_ok sample_config FenceAcquired (Ok 10) sample_request sample_ids
              empty_db) as [r d'] eqn:Hs.
  assert (Hd : d' = submitted_db) by (unfold submitted_db; by rewrite Hs).
  assert (Hr : exists a, r = Ok (Created a)).
  { change r with (fst (r, d')). rewrite <- Hs. eexists. vm_compute. reflexivity. }
  destruct Hr as [a ->]. subst d'. exists (created_job a). split; [ | ].
  2:{ apply (f_equal (fun x => match fst x with Ok (Created a) => job_job_id (created_job a)
                                | _ => "" end)) in Hs.
      change (job_job_id (created_job a)) with
        (match fst (Ok (E := RuntimeError) (Created a), submitted_db) with
         | Ok (Created a) => job_job_id (created_job a) | _ => "" end).
      rewrite <- Hs. vm_compute. reflexivity. }
  exact (admission_commit_truthful io_applied sample_config FenceAcquired (Ok 10) sample_request
           sample_ids empty_db a submitted_db ltac:(constructor) Hs ltac:(by split)).
Defined.

Lemma terminal_commit_truthful_witness :
  exists p e, commit_terminal io_applied (sample_terminal 3 AttemptState.Succeeded) running_db
              = (Ok p, finished_db)
    /\ commit_terminal io_rolled_back (sample_terminal 3 AttemptState.Succeeded) running_db
       = (Err e, running_db) /\ err_retryable e = true.
Proof.
  destruct (db_attempts running_db !! tc_attempt_id (sample_terminal 3 AttemptState.Succeeded))
    as [row | ] eqn:Hrow; [ | exfalso; revert Hrow; vm_compute; discriminate].
  assert (Hnt : AttemptState.is_terminal (att_state (row_attempt row)) = false).
  { assert (Hf : (fun row => AttemptState.is_terminal (att_state (row_attempt row))) <$>
      db_attempts running_db !! tc_attempt_id (sample_terminal 3 AttemptState.Succeeded)
      = Some false) by (vm_compute; reflexivity).
    rewrite Hrow in Hf. by injection Hf. }
  destruct (commit_terminal io_ok (sample_terminal 3 AttemptState.Succeeded) running_db)
    as [r d'] eqn:Hc.
  assert (Hd : d' = finished_db) by (unfold finished_db; by rewrite Hc).
  assert (Hr : exists p, r = Ok p).
  { change r with (fst (r, d')). rewrite <- Hc. eexists. vm_compute. reflexivity. }
  destruct Hr as [p ->]. subst d'.
  pose proof (terminal_commit_truthful io_applied _ _ row p finished_db running_reachable Hrow Hnt
                Hc ltac:(by split)) as Ha.
  pose proof (terminal_commit_truthful io_rolled_back _ _ row p finished_db running_reachable Hrow
                Hnt Hc ltac:(by split)) as (e & He & Hre).
  exists p, e. split; [exact Ha | split; [exact He | exact Hre]].
Defined.

Lemma cancel_acknowledged_truthfully_witness :
  exists p d', request_cancel io_applied "job-1" 40 running_db = (Ok p, d')
    /\ load_projection "job-1" d' = Ok p.
Proof.
  destruct (request_cancel io_applied "job-1" 40 running_db) as [r d'] eqn:Hc.
  assert (Hr : exists p, r = Ok p).
  { change r with (fst (r, d')). rewrite <- Hc. eexists. vm_compute. reflexivity. }
  destruct Hr as [p ->]. exists p, d'. split; [reflexivity | ].
  apply (cancel_acknowledged_truthfully io_applied "job-1" 40 running_db p d' running_reachable Hc).
Defined.

(** A Job whose Runner is lost, and that nobody has asked to stop. *)
Lemma orphan_cancel_intent_lost_witness :
  exists p, request_cancel io_rolled_back "job-1" 60 orphaned_db = (Ok p, orphaned_db)
    /\ jp_desired_state p <> JobDesiredState.Cancelled.
Proof.
  destruct (db_jobs orphaned_db !! "job-1"%string) as [job | ] eqn:Hjob;
    [ | exfalso; revert Hjob; vm_compute; discriminate].
  assert (Hheld : ((fun job => (job_resolution job, job_desired_state job)) <$> db_jobs orphaned_db !! "job-1"%string)
                  = Some (Some JobResolution.Orphaned, JobDesiredState.Run)) by (vm_compute; reflexivity).
  rewrite Hjob in Hheld. injection Hheld as Hr Hd.
  destruct (orphan_cancel_intent_lost io_rolled_back disk_full "job-1" 60 orphaned_db job orphaned_reachable Hjob Hr)
    as (_ & (p & Hp & _ & Hdesired) & _); [by rewrite Hd | done | done | done | ].
  exists p. split; [exact Hp | exact Hdesired].
Defined.
