(* ===== verification/RecoverySpec.v ===== *)
(** * What maintenance, repair and projection show

    The maintenance scan is complete, a batch of repairs is all or nothing, and
    the projection of a Job reflects its phase. *)

From S2P Require Import Prelude Text Errors Types Supervisor Platform TestPlatform Validation.
From S2P Require Import Submit Store Transaction Projection Lifecycle Admission Preservation.
From S2P Require Import Recovery AdminRepair Registry StoreInvariant Scenario Safety History.
From S2P Require Import Refinement AdmissionSpec LifecycleSpec.

(** ** Recovery

    The maintenance scans find every Job that may still need work, in order of
    urgency; a late result settles a held Job; a terminal reservation never
    needs convergence; and failure marks are recorded once. *)

#[local] Open Scope Z_scope.

(** ** The maintenance scan *)

(** [a ASC, b ASC] on a number and then something else. *)
Lemma lex_total (f : Z) (g : Z) (b c : bool) :
  b = true \/ c = true ->
  (f <? g) || ((f =? g) && b) = true \/ (g <? f) || ((g =? f) && c) = true.
Proof.
  intros Hbc. destruct (Z.ltb_spec f g), (Z.ltb_spec g f), (Z.eqb_spec f g), (Z.eqb_spec g f);
    simpl; try tauto; lia.
Qed.

Lemma lex_trans (f g h : Z) (b c e : bool) :
  (b = true -> c = true -> e = true) ->
  (f <? g) || ((f =? g) && b) = true -> (g <? h) || ((g =? h) && c) = true ->
  (f <? h) || ((f =? h) && e) = true.
Proof.
  intros Hbc.
  destruct (Z.ltb_spec f g), (Z.ltb_spec g h), (Z.ltb_spec f h), (Z.eqb_spec f g),
    (Z.eqb_spec g h), (Z.eqb_spec f h); simpl; try done; try lia; auto.
Qed.

Lemma age_le_total x y : age_le x y = true \/ age_le y x = true.
Proof. apply lex_total, String.leb_total. Qed.

Lemma age_le_trans x y z : age_le x y = true -> age_le y z = true -> age_le x z = true.
Proof. apply lex_trans, string_leb_trans. Qed.

Lemma maintenance_le_sorted d l : StronglySorted (fun x y => maintenance_le d x y = true)
  (order_by (maintenance_le d) l).
Proof.
  apply order_by_sorted.
  - intros x y. apply lex_total, age_le_total.
  - intros x y z. apply lex_trans, age_le_trans.
Qed.

(** The rows of the scan. *)
Definition needy_rows (d : Db) : list (string * AttemptRow) :=
  order_by (maintenance_le d) (List.filter (needs_maintenance d) (map_to_list (db_attempts d))).

Lemma elem_of_needy_rows d k row :
  (k, row) ∈ needy_rows d <->
  db_attempts d !! k = Some row /\ needs_maintenance d (k, row) = true.
Proof.
  unfold needy_rows. rewrite order_by_Permutation, list_elem_of_In, filter_In, <- list_elem_of_In.
  by rewrite elem_of_map_to_list.
Qed.

Section recovery.
Context `{P : Platform}.

(** A Job that occupies capacity has an Attempt in the scan. *)
Lemma occupied_needy d k row :
  store_wf d -> db_attempts d !! k = Some row ->
  occupies (phase_of (att_job_id (row_attempt row)) d) = true ->
  needs_maintenance d (k, row) = true.
Proof.
  intros Hwf Hrow Hocc. rewrite (phase_of_cell _ _ _ Hwf Hrow) in Hocc. open_cell Hwf Hrow.
  unfold needs_maintenance, held_orphan, reservation_state. simpl.
  destruct Hcell as [_ [Ho | Hc]].
  - by rewrite (open_state _ _ _ Ho).
  - rewrite Hres. simpl. rewrite (closed_reservation _ _ _ Hc).
    destruct (closed_resolution _ _ _ Hc) as (r & _ & Hr). unfold phase_of_state in Hocc.
    by destruct (att_state (row_attempt row)).
Qed.

(** maintenance forgets nobody.  On a reachable database the bounded
    maintenance scan lists at most [limit] Attempts, all of which need work, in
    order of urgency: whatever was cut off by the limit is not more urgent than
    what is listed.  If the scan is not full it is complete; in particular every
    Job that occupies capacity is in it. *)
Theorem maintenance_scan_complete limit d :
  registry_reachable d -> 0 < limit ->
  exists rows,
    list_maintenance_attempts_bounded io_ok limit d
    = Ok (map (fun kv => row_attempt (snd kv)) rows)
    /\ Z.of_nat (length rows) <= limit
    /\ StronglySorted (fun x y => maintenance_le d x y = true) rows
    /\ (forall k row, (k, row) ∈ rows ->
          db_attempts d !! k = Some row /\ needs_maintenance d (k, row) = true)
    /\ (forall k row x, db_attempts d !! k = Some row -> needs_maintenance d (k, row) = true ->
          (k, row) ∉ rows -> x ∈ rows -> maintenance_le d x (k, row) = true)
    /\ (forall k row, Z.of_nat (length rows) < limit -> db_attempts d !! k = Some row ->
          needs_maintenance d (k, row) = true
          \/ occupies (phase_of (att_job_id (row_attempt row)) d) = true -> (k, row) ∈ rows).
Proof.
  intros Hr Hl. pose proof (reachable_wf d Hr) as Hwf.
  exists (take (Z.to_nat limit) (needy_rows d)). split; [ | split; [ | split; [ | split; [ | split]]]].
  - unfold list_maintenance_attempts_bounded. by rewrite (proj2 (Z.eqb_neq _ _)) by lia.
  - rewrite length_take. lia.
  - by apply StronglySorted_take, maintenance_le_sorted.
  - intros k row Hin. apply elem_of_needy_rows.
    rewrite <- (take_drop (Z.to_nat limit) (needy_rows d)). apply elem_of_app. by left.
  - intros k row x Hrow Hneed Hout Hx.
    assert (Hin : (k, row) ∈ needy_rows d) by (by apply elem_of_needy_rows).
    rewrite <- (take_drop (Z.to_nat limit) (needy_rows d)) in Hin.
    apply elem_of_app in Hin as [Hin | Hin]; [done | ].
    by eapply (StronglySorted_take_rest (fun x y => maintenance_le d x y = true) (needy_rows d));
      [apply maintenance_le_sorted | ..].
  - intros k row Hlen Hrow Hneed. rewrite take_ge by (rewrite length_take in Hlen; lia).
    apply elem_of_needy_rows. split; [done | ].
    destruct Hneed as [Hneed | Hocc]; [done | by eapply occupied_needy].
Qed.

(** ** Terminal reservations *)

(** terminal reservations are always converged.  On reachable databases,
    whatever the pre-check saw, [converge_terminal_reservation] changes nothing
    and never reports that it repaired something: the terminal transactions
    settle the reservation themselves. *)
Theorem reservation_convergence_idle io k at_ms d0 d :
  registry_reachable d ->
  snd (converge_terminal_reservation io k at_ms d0 d) = d
  /\ fst (converge_terminal_reservation io k at_ms d0 d) <> Ok true.
Proof.
  intros Hr. pose proof (reachable_wf d Hr) as Hwf.
  assert (Htx : forall f d', converge_terminal_reservation_tx k at_ms d = Ok (f, d') ->
            d' = d /\ fst (finish io d d' f) <> Ok true).
  { intros f d' H. pose proof (converge_terminal_reservation_noop _ _ _ _ _ Hwf H) as ->.
    split; [done | ]. unfold converge_terminal_reservation_tx, load_terminal_target in H. inv_stmt.
    open_cell Hwf Hrow. simplify_eq. rewrite (cell_ok_target _ _ _ _ Hcell Hl) in H.
    rewrite bool_decide_eq_true_2 in H by done. injection H as <-. cbn. by destruct (io_commit io). }
  unfold converge_terminal_reservation, precheck. destruct (io_open io) eqn:Ho; [done | ].
  destruct (query _ d0) as [[b | ] | e] eqn:Hq; [ | | done].
  - simpl. split; [done | ]. intros [= ->]. unfold query in Hq.
    apply fmap_Ok_inv in Hq as ([o d'] & Hq & Heq). simpl in Heq. subst o.
    apply tx_bind_Ok in Hq as (x & d1 & _ & Hq). injection Hq as Hq _. by destruct (_ == _).
  - unfold immediate, with_tx. rewrite Ho. destruct (io_begin io); [done | ].
    destruct (converge_terminal_reservation_tx k at_ms d) as [[f d'] | e]; [ | done].
    destruct (Htx f d' eq_refl) as [-> Hne]. split; [ | done].
    destruct f as [ | ctx ok err]; simpl; [done | ]. by destruct (io_commit io).
Qed.
(** ** Late results of held Jobs *)

(** A late result that fits the orphaned Attempt [row]. *)
Record fits_late (request : TerminalCommit) (row : AttemptRow) (d : Db) : Prop := {
  late_conclusive : conclusive (tc_state request) = true;
  late_digest : validate_digest (tc_result_digest request) "resultDigest" = Ok tt;
  late_artifacts : for_each validate_artifact_registration (tc_artifacts request) = Ok tt;
  late_version : att_row_version (row_attempt row) = tc_expected_row_version request;
  late_insertable : is_ok (insert_artifacts (row_attempt row) (tc_finished_at_ms request)
    "cannot register recovered Artifact " (tc_artifacts request) d) = true;
}.

Lemma recover_orphaned_run request d k row job res :
  tc_attempt_id request = k -> db_attempts d !! k = Some row ->
  att_attempt_id (row_attempt row) = k ->
  db_jobs d !! att_job_id (row_attempt row) = Some job -> db_reservations d !! k = Some res ->
  cell_closed job (row_attempt row) (row_reservation res) ->
  att_state (row_attempt row) = AttemptState.Orphaned -> fits_late request row d ->
  exists r d', resolution_for_state (tc_state request) = Ok r
    /\ recover_orphaned_terminal_tx request d
       = Ok (commit_or_fail "cannot commit orphan recovery"
               (load_projection (att_job_id (row_attempt row))), d')
    /\ db_attempts d' = <[k := terminal_row request row]> (db_attempts d)
    /\ db_jobs d' = <[att_job_id (row_attempt row) := bump_job (set_job_resolution (Some r) job)]>
                      (db_jobs d).
Proof.
  intros Hk Hrow Hid Hjob Hres Hc Hs Hf. pose proof (late_conclusive _ _ _ Hf) as Hcon.
  assert (Hjr : job_resolution job = Some JobResolution.Orphaned).
  { destruct (closed_resolution _ _ _ Hc) as (x & -> & Hx). rewrite Hs in Hx. by injection Hx as <-. }
  pose proof (closed_reservation _ _ _ Hc) as Hheld. rewrite Hs in Hheld. simpl in Hheld.
  assert (Hr : exists r, resolution_for_state (tc_state request) = Ok r)
    by (destruct (tc_state request); eauto; done).
  destruct Hr as [r Hr]. pose proof (late_insertable _ _ _ Hf) as Hart.
  destruct (insert_artifacts _ _ _ _ d) as [[[] da] | e] eqn:Hins; [clear Hart | done].
  set (d1 := set_db_attempts (<[k := terminal_row request row]> (db_attempts d)) d).
  pose proof (insert_artifacts_frame _ _ _ _ d d1 da Hins eq_refl) as Hins1.
  exists r. eexists. split; [done | ]. unfold recover_orphaned_terminal_tx. rewrite Hk. split.
  - erewrite tx_bind_run by (by apply load_attempt_run).
    erewrite tx_bind_run by (by apply load_job_run). rewrite Hid.
    erewrite tx_bind_run by (by apply load_reservation_run).
    erewrite tx_bind_run by (apply reject_run; by rewrite Hs, Hjr, Hheld).
    erewrite tx_bind_run by (apply reject_run; by rewrite (late_version _ _ _ Hf),
      bool_decide_eq_true_2).
    erewrite tx_bind_run by (apply update_attempts_hit; [done
      | cbn; by rewrite (late_version _ _ _ Hf), bool_decide_eq_true_2, Hs
      | simpl; rewrite Hs; by destruct (tc_state request)]).
    erewrite tx_bind_run by reflexivity.
    rewrite (tx_bind_run _ _ _ _ _ Hins1).
    erewrite tx_bind_run by (apply release_run; [done | by unfold live_reservation; rewrite Hheld]).
    erewrite tx_bind_run by (by apply lift_run).
    erewrite tx_bind_run by (apply update_jobs_hit; [done | cbn; by rewrite Hjr
      | simpl; rewrite Hjr; by destruct (tc_state request); simplify_eq/=]).
    reflexivity.
  - done.
Qed.

(** a late result settles a held Job.  On a reachable database and a healthy
    connection, a conclusive, valid result for an orphaned Attempt at its
    current row version is always accepted: the Job leaves "held" for the
    settled phase of the result, which frees its capacity, the answer is the
    new projection, and no other Job changes phase. *)
Theorem orphan_recovery_settles request d k row :
  registry_reachable d -> tc_attempt_id request = k -> db_attempts d !! k = Some row ->
  att_state (row_attempt row) = AttemptState.Orphaned -> fits_late request row d ->
  let job_id := att_job_id (row_attempt row) in
  exists p d' r, recover_orphaned_terminal io_ok request d = (Ok p, d')
    /\ load_projection job_id d' = Ok p
    /\ phase_of job_id d = Held /\ phase_of job_id d' = Settled r
    /\ resolution_for_state (tc_state request) = Ok r
    /\ db_attempts d' !! k = Some (terminal_row request row)
    /\ forall j, j <> job_id -> phase_of j d' = phase_of j d.
Proof.
  intros Hreach Hk Hrow Hs Hf job_id. pose proof (reachable_wf d Hreach) as Hwf.
  open_cell Hwf Hrow.
  assert (Hc : cell_closed job (row_attempt row) (row_reservation res))
    by (apply cell_ok_closed; [done | by rewrite Hs]).
  destruct (recover_orphaned_run request d k row job res Hk Hrow Hid Hjob Hres Hc Hs Hf)
    as (r & d' & Hr & Hb & Ha & Hj).
  pose proof (recover_orphaned_terminal_wf _ _ _ _ Hwf (late_conclusive _ _ _ Hf) Hb) as Hwf'.
  assert (Hrow' : db_attempts d' !! k = Some (terminal_row request row))
    by (by rewrite Ha, lookup_insert_eq).
  assert (Hproj : exists p, load_projection job_id d' = Ok p).
  { eexists. apply (load_projection_total d' k (terminal_row request row)
      (bump_job (set_job_resolution (Some r) job))); [done | done | ].
    simpl. by rewrite Hj, lookup_insert_eq. }
  destruct Hproj as [p Hproj]. exists p, d', r.
  assert (Hw : cell_write k row (terminal_row request row) d d').
  { split; [done | done | done | ]. intros j Hne. rewrite Hj. by rewrite lookup_insert_ne. }
  destruct (cell_write_phase _ _ _ _ _ Hwf Hwf' Hw) as [Hp Ho].
  split; [ | split; [done | ]].
  - unfold recover_orphaned_terminal, checked. pose proof (late_conclusive _ _ _ Hf) as Hcon.
    rewrite Hcon, (late_digest _ _ _ Hf). simpl. rewrite (late_artifacts _ _ _ Hf).
    rewrite <- Hproj. by apply with_tx_ok with (1 := Hb).
  - unfold job_id. rewrite (phase_of_cell _ _ _ Hwf Hrow), Hs, Hp. simpl.
    split; [done | ]. split; [ | done]. unfold phase_of_state. rewrite Hr.
    pose proof (late_conclusive _ _ _ Hf). by destruct (tc_state request); simplify_eq/=.
Qed.

(** ** Failure marks *)

Definition failure_mark (k : string) (error : RuntimeError) (at_ms : Z) : RecoveryColumns :=
  {| rec_required := true; rec_reason_code := as_str (err_code error);
     rec_evidence_digest := failure_evidence_digest k error; rec_observed_at_ms := at_ms |}.

(** The mark of Attempt [k] was rewritten and one event appended. *)
Record marks (k : string) (row : AttemptRow) (mark : RecoveryColumns) (d d' : Db) : Prop := {
  marks_attempts : db_attempts d' = <[k := on_recovery (Some mark) row]> (db_attempts d);
  marks_jobs : db_jobs d' = db_jobs d;
  marks_events : length (db_events d') = S (length (db_events d));
}.

Lemma recovery_mark_row k row d :
  db_attempts d !! k = Some row -> recovery_mark k d = row_recovery row.
Proof. unfold recovery_mark. by intros ->. Qed.

(** The mark keeps the state, so the trigger does not fire. *)
Lemma mark_no_reopen v row :
  attempts_terminal_no_reopen (att_state (row_attempt row))
    (att_state (row_attempt (on_recovery v row))) = false.
Proof. unfold attempts_terminal_no_reopen. simpl. by rewrite bool_decide_eq_true_2, andb_false_r. Qed.

Lemma record_failure_run k row a error at_ms d :
  db_attempts d !! k = Some row -> att_attempt_id (row_attempt row) = k -> att_attempt_id a = k ->
  row_recovery row = None ->
  exists d', record_reconciliation_failure io_ok a error at_ms d d = (Ok tt, d')
    /\ marks k row (failure_mark k error at_ms) d d'.
Proof.
  intros Hrow Hid Ha Hnone. unfold record_reconciliation_failure, precheck. cbn [io_open io_ok]. rewrite Ha.
  unfold query at 1. unfold mbind at 1, tx_bind, read. simpl.
  rewrite (recovery_mark_row k row d Hrow), Hnone. simpl.
  unfold immediate. rewrite with_tx_begins by done.
  unfold record_reconciliation_failure_tx.
  erewrite tx_bind_run by (by apply load_attempt_run). rewrite Hid.
  erewrite tx_bind_run by (apply update_attempts_hit; [done | done | apply mark_no_reopen]).
  eexists. split; [reflexivity | ]. split; simpl; [done | done | ].
  rewrite length_app. simpl. lia.
Qed.

Lemma record_failure_again k row a error at_ms t d :
  db_attempts d !! k = Some row -> att_attempt_id a = k ->
  row_recovery row = Some (failure_mark k error t) ->
  record_reconciliation_failure io_ok a error at_ms d d = (Ok tt, d).
Proof.
  intros Hrow Ha Hm. unfold record_reconciliation_failure, precheck. simpl. rewrite Ha.
  unfold query, mbind, tx_bind, read. simpl. rewrite (recovery_mark_row k row d Hrow), Hm. simpl.
  by rewrite !String.eqb_refl.
Qed.

Lemma clear_failure_run k row mark at_ms d :
  db_attempts d !! k = Some row -> row_recovery row = Some mark -> rec_required mark = true ->
  exists d' mark', clear_reconciliation_failure io_ok k at_ms d d = (Ok tt, d')
    /\ marks k row mark' d d' /\ rec_required mark' = false.
Proof.
  intros Hrow Hm Hreq. unfold clear_reconciliation_failure, precheck. cbn [io_open io_ok].
  unfold query at 1. unfold mbind at 1, tx_bind, read. simpl.
  rewrite (recovery_mark_row k row d Hrow), Hm, Hreq. simpl.
  unfold immediate. rewrite with_tx_begins by done. unfold clear_reconciliation_failure_tx.
  erewrite tx_bind_run by (by apply load_attempt_run).
  erewrite tx_bind_run by (apply update_attempts_hit; [done | unfold recovery_active; by rewrite Hm
    | apply mark_no_reopen]).
  do 2 eexists. split; [reflexivity | ]. split.
  - split; simpl; [done | done | ]. rewrite length_app. simpl. lia.
  - reflexivity.
Qed.

Lemma clear_failure_again k row mark at_ms d :
  db_attempts d !! k = Some row -> row_recovery row = Some mark -> rec_required mark = false ->
  clear_reconciliation_failure io_ok k at_ms d d = (Ok tt, d).
Proof.
  intros Hrow Hm Hreq. unfold clear_reconciliation_failure, precheck, query, mbind, tx_bind, read.
  simpl. by rewrite (recovery_mark_row k row d Hrow), Hm, Hreq.
Qed.

Lemma marks_phase k row mark d d' j :
  db_attempts d !! k = Some row -> marks k row mark d d' -> phase_of j d' = phase_of j d.
Proof.
  intros Hrow [Ha Hj _]. unfold phase_of. rewrite Ha, Hj. destruct (db_jobs d !! j) as [job | ]; [ | done].
  destruct (job_resolution job); [done | ]. destruct (job_current_attempt_id job) as [k' | ]; [ | done].
  simpl. destruct (decide (k' = k)) as [-> | Hne].
  - by rewrite lookup_insert_eq, Hrow.
  - by rewrite lookup_insert_ne.
Qed.

(** a reconciliation failure is recorded once and cleared once.  On a
    reachable database, recording a failure for an unmarked Attempt marks it and
    appends one event; recording the same failure again, at any later time,
    changes nothing; clearing it unmarks the Attempt with one more event, and
    clearing again changes nothing.  No Job changes phase. *)
Theorem reconciliation_failure_recorded_once d k row error t1 t2 t3 t4 :
  registry_reachable d -> db_attempts d !! k = Some row -> row_recovery row = None ->
  let record t d := record_reconciliation_failure io_ok (row_attempt row) error t d d in
  let clear t d := clear_reconciliation_failure io_ok k t d d in
  exists d1 d2,
    record t1 d = (Ok tt, d1) /\ recovery_mark k d1 = Some (failure_mark k error t1)
    /\ record t2 d1 = (Ok tt, d1)
    /\ clear t3 d1 = (Ok tt, d2) /\ rec_required <$> recovery_mark k d2 = Some false
    /\ clear t4 d2 = (Ok tt, d2)
    /\ length (db_events d1) = S (length (db_events d))
    /\ length (db_events d2) = S (S (length (db_events d)))
    /\ forall j, phase_of j d2 = phase_of j d.
Proof.
  intros Hreach Hrow Hnone record clear. pose proof (reachable_wf d Hreach) as Hwf.
  destruct (wf_attempts _ Hwf _ _ Hrow) as [Hid _].
  destruct (record_failure_run k row (row_attempt row) error t1 d) as (d1 & H1 & M1); [done.. | ].
  set (row1 := on_recovery (Some (failure_mark k error t1)) row).
  assert (Hrow1 : db_attempts d1 !! k = Some row1)
    by (by rewrite (marks_attempts _ _ _ _ _ M1), lookup_insert_eq).
  destruct (clear_failure_run k row1 (failure_mark k error t1) t3 d1)
    as (d2 & mark & H2 & M2 & Hreq); [done.. | ].
  assert (Hrow2 : db_attempts d2 !! k = Some (on_recovery (Some mark) row1))
    by (by rewrite (marks_attempts _ _ _ _ _ M2), lookup_insert_eq).
  exists d1, d2. split; [done | ]. split; [by rewrite (recovery_mark_row k row1) | ].
  split; [by apply (record_failure_again k row1 _ error t2 t1) | ]. split; [done | ].
  split; [rewrite (recovery_mark_row k _ d2 Hrow2); simpl; by rewrite Hreq | ].
  split; [by apply (clear_failure_again k (on_recovery (Some mark) row1) mark) | ].
  split; [apply M1 | ]. split; [by rewrite (marks_events _ _ _ _ _ M2), (marks_events _ _ _ _ _ M1) | ].
  intros j. rewrite (marks_phase k row1 mark d1 d2 j Hrow1 M2).
  by apply (marks_phase k row (failure_mark k error t1)).
Qed.
End recovery.

Lemma maintenance_scan_complete_witness :
  exists rows, list_maintenance_attempts_bounded io_ok 8 orphaned_db
               = Ok (map (fun kv => row_attempt (snd kv)) rows)
    /\ exists row, ("attempt-1"%string, row) ∈ rows.
Proof.
  destruct (maintenance_scan_complete 8 orphaned_db orphaned_reachable ltac:(reflexivity))
    as (rows & Hl & _ & _ & _ & _ & Hall).
  exists rows. split; [exact Hl | ].
  destruct (db_attempts orphaned_db !! "attempt-1"%string) as [row | ] eqn:Hrow;
    [ | exfalso; revert Hrow; vm_compute; discriminate].
  exists row. apply Hall; [ | exact Hrow | right].
  - apply (f_equal (fun r => match r with Ok l => Z.of_nat (length l) | Err _ => 0 end)) in Hl.
    rewrite length_map in Hl. rewrite <- Hl. vm_compute. reflexivity.
  - assert (Hj : (fun row => att_job_id (row_attempt row)) <$>
      db_attempts orphaned_db !! "attempt-1"%string = Some "job-1"%string) by (vm_compute; reflexivity).
    rewrite Hrow in Hj. injection Hj as Hj. rewrite Hj. vm_compute. reflexivity.
Defined.

Lemma reservation_convergence_idle_witness :
  registry_reachable finished_db
  /\ snd (converge_terminal_reservation io_ok "attempt-1" 70 running_db finished_db) = finished_db.
Proof.
  split; [exact finished_reachable | ].
  apply (reservation_convergence_idle io_ok "attempt-1" 70 running_db finished_db finished_reachable).
Defined.

Lemma orphan_recovery_settles_witness :
  exists p d', recover_orphaned_terminal io_ok (sample_terminal 4 AttemptState.Failed) orphaned_db
               = (Ok p, d')
    /\ phase_of "job-1" d' = Settled JobResolution.Failed.
Proof.
  destruct (db_attempts orphaned_db !! "attempt-1"%string) as [row | ] eqn:Hrow;
    [ | exfalso; revert Hrow; vm_compute; discriminate].
  assert (Hv : (fun row => (att_job_id (row_attempt row), att_row_version (row_attempt row),
      att_state (row_attempt row))) <$> db_attempts orphaned_db !! "attempt-1"%string
    = Some ("job-1"%string, 4, AttemptState.Orphaned)) by (vm_compute; reflexivity).
  rewrite Hrow in Hv. injection Hv as Hj Hver Hs.
  destruct (orphan_recovery_settles (sample_terminal 4 AttemptState.Failed) orphaned_db "attempt-1"
              row orphaned_reachable eq_refl Hrow Hs) as (p & d' & r & Hc & _ & _ & Hp & Hr & _).
  { split; [reflexivity | vm_compute; reflexivity | reflexivity | by rewrite Hver | reflexivity]. }
  injection Hr as <-. rewrite Hj in Hp. exists p, d'. split; [exact Hc | exact Hp].
Defined.

Lemma reconciliation_failure_recorded_once_witness :
  exists row d1, db_attempts running_db !! "attempt-1"%string = Some row
    /\ record_reconciliation_failure io_ok (row_attempt row) deployment_in_progress 45 running_db
         running_db = (Ok tt, d1)
    /\ record_reconciliation_failure io_ok (row_attempt row) deployment_in_progress 46 d1 d1
       = (Ok tt, d1).
Proof.
  destruct (db_attempts running_db !! "attempt-1"%string) as [row | ] eqn:Hrow;
    [ | exfalso; revert Hrow; vm_compute; discriminate].
  assert (Hv : row_recovery <$> db_attempts running_db !! "attempt-1"%string = Some None)
    by (vm_compute; reflexivity).
  rewrite Hrow in Hv. injection Hv as Hnone.
  destruct (reconciliation_failure_recorded_once running_db "attempt-1" row deployment_in_progress
              45 46 47 48 running_reachable Hrow Hnone) as (d1 & d2 & H1 & _ & H2 & _).
  exists row, d1. split; [reflexivity | split; [exact H1 | exact H2]].
Defined.

(** ** Administrative repair

    A repair batch is all or nothing, on any database, reachable or damaged: it
    commits only a database on which the inspection finds nothing. *)

#[local] Open Scope Z_scope.

(** What the operator plans for one case. *)
Definition operation_attempt (operation : AdminRepairOperation) : string :=
  match operation with
  | Terminal request _ => tc_attempt_id request
  | Reservation attempt_id _ _ => attempt_id
  end.

Definition operation_version (operation : AdminRepairOperation) : Z :=
  match operation with
  | Terminal request _ => tc_expected_row_version request
  | Reservation _ version _ => version
  end.

(** The plan matches the database: versions, current Attempt and reservation
    are those that the Doctor saw. *)
Definition operation_audit (operation : AdminRepairOperation) : AdminRepairAudit :=
  match operation with Terminal _ audit | Reservation _ _ audit => audit end.

Definition plan_current (operation : AdminRepairOperation) (d : Db) : Prop :=
  exists row job res, db_attempts d !! operation_attempt operation = Some row
    /\ db_jobs d !! att_job_id (row_attempt row) = Some job
    /\ att_row_version (row_attempt row) = operation_version operation
    /\ job_row_version job = aud_expected_job_row_version (operation_audit operation)
    /\ job_current_attempt_id job = aud_expected_current_attempt_id (operation_audit operation)
    /\ db_reservations d !! (match operation with
                             | Terminal _ _ => att_attempt_id (row_attempt row)
                             | Reservation attempt_id _ _ => attempt_id end) = Some res
    /\ res_state (row_reservation res)
       = aud_expected_reservation_state (operation_audit operation).

Section repair.
Context `{P : Platform}.

Lemma repair_operation_current operation d u d' :
  repair_operation operation d = Ok (u, d') -> plan_current operation d.
Proof.
  intros H. destruct operation as [request audit | k version audit]; simpl in H.
  - unfold repair_terminal_admin_transaction in H. inv_stmt; bool_props;
      exists row; do 2 eexists; (repeat split); eassumption.
  - unfold repair_terminal_reservation_admin_transaction in H. inv_stmt; bool_props;
      exists row; do 2 eexists; (repeat split); eassumption.
Qed.

(** The operations of a batch ran one after the other, each on a database that
    its plan still described. *)
Inductive applied : list AdminRepairOperation -> Db -> Db -> Prop :=
  | applied_nil d : applied [] d d
  | applied_cons operation rest d d1 d2 :
      plan_current operation d -> repair_operation operation d = Ok (tt, d1) ->
      applied rest d1 d2 -> applied (operation :: rest) d d2.

Lemma repair_operations_applied operations : forall d u d',
  repair_operations operations d = Ok (u, d') -> applied operations d d'.
Proof.
  induction operations as [ | operation rest IH]; intros d u d' H; simpl in H.
  - injection H as _ <-. constructor.
  - apply tx_bind_Ok in H as ([] & d1 & H1 & H2).
    econstructor; [by eapply repair_operation_current | done | by eapply IH].
Qed.

(** C31: repair is all or nothing.  On any database whatsoever, and whatever
    SQLite does, a repair batch either leaves the database exactly as it was,
    or has run every operation, each against rows that its plan still
    described, and the result passes the full inspection.  A reported success
    is always the latter. *)
Theorem repair_batch_all_or_nothing io operations d :
  let '(answer, d') := repair_admin_batch io operations d in
  (d' = d /\ answer <> Ok tt)
  \/ (applied operations d d' /\ inspect_runtime_invariants_connection d' = []
      /\ (io_commit io = CommitDone -> answer = Ok tt)).
Proof.
  unfold repair_admin_batch, immediate, with_tx. destruct (io_open io); [by left | ].
  destruct (io_begin io); [by left | ].
  destruct (repair_admin_batch_tx operations d) as [[f d1] | e] eqn:Hb; [ | by left].
  unfold repair_admin_batch_tx in Hb. inv_stmt. bool_props.
  match goal with H : repair_operations _ _ = _ |- _ => apply repair_operations_applied in H end.
  cbn [finish commit_or_fail]. destruct (io_commit io); cbn.
  - right. done.
  - right. done.
  - left. done.
  - left. done.
Qed.
End repair.

(** ** A damaged database *)

(** The reservation of a finished Attempt was never released. *)
Definition leaked_db : Db :=
  set_db_reservations (db_reservations running_db) finished_db.

Definition leak_audit : AdminRepairAudit := {|
  aud_report_fingerprint := sample_digest; aud_case_fingerprint := other_digest;
  aud_snapshot_path := "/var/backups/runtime.db"; aud_snapshot_digest := sample_digest;
  aud_principal := "operator"; aud_action := "release-terminal-reservation";
  aud_observed_at_ms := 90; aud_expected_job_row_version := 1;
  aud_expected_current_attempt_id := None;
  aud_expected_reservation_state := ReservationState.Active |}.

Definition leak_repair : AdminRepairOperation := Reservation "attempt-1" 4 leak_audit.

(** The inspection finds the leak, and a batch that does not address it is
    refused; the right batch removes it. *)
Lemma repair_batch_example :
  map riv_code (inspect_runtime_invariants_connection leaked_db)
  = ["TERMINAL_ATTEMPT_HOLDS_RESERVATION"%string]
  /\ is_ok (fst (repair_admin_batch io_ok [] leaked_db)) = false
  /\ fst (repair_admin_batch io_ok [leak_repair] leaked_db) = Ok tt
  /\ inspect_runtime_invariants_connection (snd (repair_admin_batch io_ok [leak_repair] leaked_db))
     = [].
Proof. split; [ | split; [ | split]]; vm_compute; reflexivity. Qed.

Lemma repair_batch_all_or_nothing_witness :
  applied [leak_repair] leaked_db (snd (repair_admin_batch io_ok [leak_repair] leaked_db)).
Proof.
  pose proof (repair_batch_all_or_nothing io_ok [leak_repair] leaked_db) as H.
  destruct (repair_admin_batch io_ok [leak_repair] leaked_db) as [answer d'] eqn:Hb.
  assert (Ha : answer = Ok tt).
  { change answer with (fst (answer, d')). rewrite <- Hb. vm_compute. reflexivity. }
  destruct H as [[_ Hne] | [Happlied _]]; [contradiction | exact Happlied].
Defined.

(** ** What clients see

    The projection of a Job is total on reachable databases and a function of
    its phase, its recovery mark and its event log. *)

#[local] Open Scope Z_scope.

(** What a client is told about delivery. *)
Definition delivery_of (reconciling : bool) (p : phase) : RuntimeDeliveryDisposition.t :=
  if reconciling then RuntimeDeliveryDisposition.ReconciliationRequired
  else match p with
       | Absent | Pending | InFlight | Stopping => RuntimeDeliveryDisposition.InProgress
       | Held => RuntimeDeliveryDisposition.ReconciliationRequired
       | Settled JobResolution.Lost => RuntimeDeliveryDisposition.Unknown
       | Settled _ => RuntimeDeliveryDisposition.Committed
       end.

Definition terminal_phase (p : phase) : bool :=
  match p with Held | Settled _ => true | _ => false end.

(** The last event, in log order, that carries an execution reason. *)
Definition last_reason (job_id : string) (events : list JobEvent) : option string :=
  ev_reason_code <$> last (List.filter (reason_event job_id) events).

(** The fields of a projection of known state, by evaluation. *)
Ltac solve_projection :=
  repeat match goal with |- _ /\ _ => split end;
  first
    [ reflexivity
    | split; [ intros H; first [discriminate H | by left | by right | by eexists]
             | intros H; first [reflexivity | by destruct H | by destruct H as (? & ? & ?)] ] ].

Section projection.
Context `{P : Platform}.

(** the projection reflects the phase.  For every Job of a reachable
    database the projection exists; it is terminal exactly when the phase is
    settled or held, and its delivery disposition is the one of the phase,
    overridden by "reconciliation required" while the Attempt is marked or
    recovering: "committed" is only ever said of a settled Job that is not lost. *)
Theorem projection_reflects_phase d k row job :
  registry_reachable d -> db_attempts d !! k = Some row ->
  db_jobs d !! att_job_id (row_attempt row) = Some job ->
  let job_id := att_job_id (row_attempt row) in
  let reconciling := attempt_recovery_condition_active row
                     || (att_state (row_attempt row) == AttemptState.Recovering) in
  exists p, load_projection job_id d = Ok p
    /\ jp_job_id p = job_id /\ jp_attempt_id p = Some k
    /\ jp_execution_terminal p = terminal_phase (phase_of job_id d)
    /\ jp_result_available p = terminal_phase (phase_of job_id d)
    /\ jp_delivery_disposition p = delivery_of reconciling (phase_of job_id d)
    /\ (jp_recovery_required p = true <-> reconciling = true \/ phase_of job_id d = Held)
    /\ (jp_poll_after_ms p = None <->
          exists r, phase_of job_id d = Settled r /\ reconciling = false).
Proof.
  intros Hreach Hrow Hjob job_id reconciling. pose proof (reachable_wf d Hreach) as Hwf.
  eexists. split; [by apply (load_projection_total d k row job) | ].
  unfold job_id, reconciling. rewrite (phase_of_cell d k row Hwf Hrow).
  open_cell Hwf Hrow. simplify_eq. destruct (wf_jobs _ Hwf _ _ Hjob) as [Hj _].
  simpl. split; [done | split; [done | ]]. unfold phase_of_state.
  destruct (attempt_recovery_condition_active row), Hcell as [_ [Ho | Hc]];
    try (pose proof (open_state _ _ _ Ho) as Hs; rewrite (open_resolution _ _ _ Ho));
    try (destruct (closed_resolution _ _ _ Hc) as (r & Hr & Hs); rewrite Hr, Hs);
    destruct (att_state (row_attempt row)); try done; simpl in *; simplify_eq; simpl;
    solve_projection.
Qed.

(** ** The reason of a result *)

Lemma latest_by_sequence (f : JobEvent -> bool) j l : forall m n best,
  Forall (fun e => f e = true -> ev_job_id e = j) l ->
  map ev_event_sequence (events_of j l) = seqZ (m + 1) n ->
  (forall b, best = Some b -> ev_event_sequence b <= m) ->
  foldl (fun best e =>
           if f e then
             match best with
             | Some b => if ev_event_sequence b <? ev_event_sequence e then Some e else best
             | None => Some e
             end
           else best) best l
  = match last (List.filter f l) with Some e => Some e | None => best end.
Proof.
  induction l as [ | e l IH]; intros m n best Hf Hs Hb; [done | ].
  apply Forall_cons in Hf as [He Hf]. simpl.
  unfold events_of in Hs. simpl in Hs. destruct (String.eqb (ev_job_id e) j) eqn:Hj.
  - assert (Hn : 0 < n) by (destruct (decide (0 < n)); [done | rewrite seqZ_nil in Hs by lia; done]).
    rewrite seqZ_cons in Hs by lia. simpl in Hs. injection Hs as Hseq Hs.
    rewrite (IH (m + 1) (Z.pred n)).
    + destruct (f e); [ | done]. rewrite last_cons. destruct (last _); [done | ].
      destruct best as [b | ]; [ | done]. pose proof (Hb b eq_refl).
      by rewrite (proj2 (Z.ltb_lt _ _)) by lia.
    + done.
    + etrans; [exact Hs | f_equal; lia].
    + intros b. destruct (f e); [ | intros ->; specialize (Hb b eq_refl); lia].
      destruct best as [b' | ]; [ | intros [= <-]; lia].
      destruct (_ <? _); [intros [= <-]; lia | intros [= <-]; specialize (Hb b' eq_refl); lia].
  - destruct (f e) eqn:Hfe; [by rewrite He, String.eqb_refl in Hj | ]. by apply (IH m n).
Qed.

(** the reason of a result is its last word.  In a reachable database the
    execution reason that a resolved Job is projected with is the reason code of
    the last event of its history that resolves or corrects it. *)
Theorem execution_reason_is_last d j :
  registry_reachable d ->
  job_execution_reason_code j true (db_events d) = last_reason j (db_events d)
  /\ job_execution_reason_code j false (db_events d) = None.
Proof.
  intros Hr. split; [ | done]. unfold job_execution_reason_code, last_reason. simpl. f_equal.
  rewrite (latest_by_sequence (reason_event j) j (db_events d) 0
             (Z.of_nat (length (events_of j (db_events d)))) None).
  - by destruct (last _).
  - apply Forall_forall. intros e _ He. unfold reason_event in He. apply andb_prop in He as [He _].
    by apply String.eqb_eq.
  - by apply (reachable_log_ok d Hr).
  - done.
Qed.
End projection.

Lemma projection_reflects_phase_witness :
  exists p, load_projection "job-1" orphaned_db = Ok p
    /\ jp_delivery_disposition p = RuntimeDeliveryDisposition.ReconciliationRequired
    /\ jp_execution_terminal p = true.
Proof.
  destruct (db_attempts orphaned_db !! "attempt-1"%string) as [row | ] eqn:Hrow;
    [ | exfalso; revert Hrow; vm_compute; discriminate].
  destruct (db_jobs orphaned_db !! "job-1"%string) as [job | ] eqn:Hj;
    [ | exfalso; revert Hj; vm_compute; discriminate].
  assert (Hv : (fun row => (att_job_id (row_attempt row), attempt_recovery_condition_active row,
      att_state (row_attempt row))) <$> db_attempts orphaned_db !! "attempt-1"%string
    = Some ("job-1"%string, false, AttemptState.Orphaned)) by (vm_compute; reflexivity).
  rewrite Hrow in Hv. injection Hv as Hid Hrec Hs.
  assert (Hp : phase_of "job-1" orphaned_db = Held) by (vm_compute; reflexivity).
  rewrite <- Hid in Hj.
  destruct (projection_reflects_phase orphaned_db "attempt-1" row job orphaned_reachable Hrow Hj)
    as (p & Hl & _ & _ & Ht & _ & Hd & _).
  rewrite Hid, Hp in Ht, Hd. rewrite Hid in Hl. rewrite Hrec, Hs in Hd.
  exists p. split; [exact Hl | split; [exact Hd | exact Ht]].
Defined.

Lemma execution_reason_is_last_witness :
  job_execution_reason_code "job-1" true (db_events recovered_db)
  = last_reason "job-1" (db_events recovered_db)
  /\ last_reason "job-1" (db_events recovered_db) = Some "RUNNER_RESULT"%string.
Proof.
  split; [ | vm_compute; reflexivity].
  apply (execution_reason_is_last recovered_db "job-1" recovered_reachable).
Defined.
