(* ===== verification/SupervisorSpec.v ===== *)
(** * What a recovery classification means

    After a restart the Runtime decides from what systemd and the kernel still
    show whether a recorded process runs, ended, is lost, or may be alive
    unsupervised.  The classifiers never mistake another process for the
    recorded one, and what they call terminal can be committed. *)

From S2P Require Import Prelude Text Errors Types Supervisor Platform TestPlatform Validation.
From S2P Require Import Submit Store Transaction Projection Lifecycle.

#[local] Open Scope Z_scope.

(** Every field of the observation is the recorded one. *)
Definition same_process (expected : SupervisorIdentity) (o : SupervisorObservation) : Prop :=
  so_invocation_id o = Some (si_invocation_id expected)
  /\ so_control_group o = Some (si_control_group expected)
  /\ so_main_process_start_identity o = Some (si_main_process_start_identity expected)
  /\ so_main_pid o = Some (si_main_pid expected).

(** A finished unit is recognised by its invocation, and by its control group
    if it still has one. *)
Definition same_invocation (expected : SupervisorIdentity) (o : SupervisorObservation) : Prop :=
  so_invocation_id o = Some (si_invocation_id expected)
  /\ (so_control_group o = None \/ so_control_group o = Some (si_control_group expected)).

(** The recorded process itself is alive. *)
Definition recorded_alive (expected : SupervisorIdentity) (o : SupervisorObservation) : Prop :=
  so_recorded_pid_alive o = true
  /\ so_recorded_pid_start_identity o = Some (si_main_process_start_identity expected).

Lemma first_field_mismatch_None l :
  first_field_mismatch l = None <-> Forall (fun f => f.1.2 = Some f.2) l.
Proof.
  induction l as [ | [[field actual] e] l IH]; simpl; [by split | ].
  destruct (decide (actual = Some e)) as [He | He].
  - rewrite bool_decide_eq_true_2 by done. simpl. rewrite IH, Forall_cons. simpl. tauto.
  - rewrite bool_decide_eq_false_2 by done. simpl. rewrite Forall_cons. simpl. naive_solver.
Qed.

Lemma running_identity_mismatch_None expected o :
  running_identity_mismatch expected o = None <-> same_process expected o.
Proof.
  unfold running_identity_mismatch, same_process.
  destruct (first_field_mismatch _) as [reason | ] eqn:Hf.
  - split; [done | ]. intros (H1 & H2 & H3 & H4). exfalso.
    rewrite (proj2 (first_field_mismatch_None _)) in Hf; [done | ].
    by repeat constructor.
  - apply first_field_mismatch_None in Hf. rewrite !Forall_cons in Hf. simpl in Hf.
    destruct Hf as (H1 & H2 & H3 & _).
    destruct (decide (so_main_pid o = Some (si_main_pid expected))) as [He | He].
    + by rewrite bool_decide_eq_true_2.
    + rewrite bool_decide_eq_false_2 by done. simpl. naive_solver.
Qed.

Lemma terminal_identity_mismatch_None expected o :
  terminal_identity_mismatch expected o = None <-> same_invocation expected o.
Proof.
  unfold terminal_identity_mismatch, same_invocation.
  destruct (decide (so_invocation_id o = Some (si_invocation_id expected))) as [Hi | Hi].
  - rewrite bool_decide_eq_true_2 by done. simpl.
    destruct (so_control_group o) as [cg | ]; [ | by split; auto].
    destruct (decide (cg = si_control_group expected)) as [-> | Hc].
    + rewrite bool_decide_eq_true_2 by done. simpl. split; auto.
    + rewrite bool_decide_eq_false_2 by done. simpl. naive_solver.
  - rewrite bool_decide_eq_false_2 by done. simpl. naive_solver.
Qed.

(** What the systemd classifier concluded, from what. *)
Definition supervisor_verdict (expected : SupervisorIdentity) (o : SupervisorObservation)
    (intent : TerminationIntent.t) (d : SupervisorRecoveryDisposition.t) : Prop :=
  match d with
  | SupervisorRecoveryDisposition.Running =>
      so_boot_id o = si_boot_id expected /\ so_unit_state o = SupervisorUnitState.Running
      /\ same_process expected o
  | SupervisorRecoveryDisposition.Terminal s =>
      so_boot_id o = si_boot_id expected
      /\ ((so_unit_state o = SupervisorUnitState.Terminal /\ same_invocation expected o
           /\ s = classify_terminal_state intent (so_result o) (so_exec_main_code o)
                    (so_exec_main_status o))
          \/ (so_unit_state o = SupervisorUnitState.NotFound /\ ~ recorded_alive expected o
              /\ ((intent = TerminationIntent.StopRequested /\ s = AttemptState.Cancelled)
                  \/ (intent = TerminationIntent.DeadlineExceeded /\ s = AttemptState.TimedOut))))
  | SupervisorRecoveryDisposition.Lost =>
      so_boot_id o <> si_boot_id expected
      \/ (so_unit_state o = SupervisorUnitState.NotFound /\ ~ recorded_alive expected o
          /\ intent = TerminationIntent.Natural)
  | SupervisorRecoveryDisposition.Orphaned _ =>
      so_boot_id o = si_boot_id expected
      /\ ((so_unit_state o = SupervisorUnitState.Running /\ ~ same_process expected o)
          \/ (so_unit_state o = SupervisorUnitState.Terminal /\ ~ same_invocation expected o)
          \/ (so_unit_state o = SupervisorUnitState.NotFound /\ recorded_alive expected o))
  end.

Lemma recorded_alive_spec expected o :
  reflect (recorded_alive expected o)
    (so_recorded_pid_alive o
     && (so_recorded_pid_start_identity o == Some (si_main_process_start_identity expected))).
Proof.
  unfold recorded_alive. destruct (so_recorded_pid_alive o); simpl.
  - case_bool_decide; constructor; naive_solver.
  - constructor. naive_solver.
Qed.

(** the systemd classifier is sound and total.  For a complete recorded
    identity it always concludes, and each conclusion holds exactly on its
    evidence: "running" only if boot, unit, invocation, control group, start
    identity and PID are the recorded ones; "terminal" never while the recorded
    process is alive or the unit is another invocation; "lost" only after a
    reboot or when unit and process are gone without an intent to stop; every
    mismatch is "orphaned".  An incomplete identity is refused. *)
Theorem supervisor_classification_sound expected o intent :
  match classify_supervisor_recovery expected o intent with
  | Ok d => validate_identity expected = Ok tt /\ supervisor_verdict expected o intent d
  | Err e => validate_identity expected = Err e /\ err_code e = RegistryCorrupt
  end.
Proof.
  unfold classify_supervisor_recovery. destruct (validate_identity expected) as [[] | e] eqn:Hv.
  2:{ simpl. split; [done | ]. unfold validate_identity, fail_if in Hv.
      destruct (_ || _) in Hv; [by injection Hv as <- | done]. }
  simpl. destruct (decide (so_boot_id o = si_boot_id expected)) as [Hb | Hb].
  2:{ rewrite bool_decide_eq_false_2 by done. simpl. auto. }
  rewrite bool_decide_eq_true_2 by done. simpl. destruct (so_unit_state o) eqn:Hu.
  - destruct (running_identity_mismatch expected o) as [reason | ] eqn:Hm; simpl.
    + rewrite <- running_identity_mismatch_None, Hm, Hu. naive_solver.
    + apply running_identity_mismatch_None in Hm. rewrite Hu. naive_solver.
  - destruct (terminal_identity_mismatch expected o) as [reason | ] eqn:Hm; simpl.
    + rewrite <- terminal_identity_mismatch_None, Hm, Hu. naive_solver.
    + apply terminal_identity_mismatch_None in Hm. rewrite Hu. naive_solver.
  - destruct (recorded_alive_spec expected o) as [Ha | Ha]; simpl; [rewrite Hu; naive_solver | ].
    destruct intent; simpl; rewrite Hu; naive_solver.
Qed.

(** the Windows classifier is sound and total.  For a complete launcher
    owner it concludes "running" exactly when a process with that PID is alive
    and was created at the recorded time, "orphaned" when one is alive with
    another or unknown creation time (a recycled PID), and otherwise the
    terminal state of the recorded intent. *)
Theorem windows_classification_sound pid creation image name start o intent :
  let owner := WindowsLauncherV1 pid creation image name start in
  match classify_windows_launcher_recovery owner o intent with
  | Ok SupervisorRecoveryDisposition.Running =>
      wo_process_alive o = true /\ wo_process_creation_time_file_time o = Some creation
  | Ok (SupervisorRecoveryDisposition.Orphaned _) =>
      wo_process_alive o = true /\ wo_process_creation_time_file_time o <> Some creation
  | Ok (SupervisorRecoveryDisposition.Terminal s) =>
      wo_process_alive o = false
      /\ s = classify_terminal_state intent None None None
  | Ok SupervisorRecoveryDisposition.Lost => False
  | Err e => validate_attempt_supervisor_owner owner = Err e
  end.
Proof.
  intros owner. unfold classify_windows_launcher_recovery.
  destruct (validate_attempt_supervisor_owner owner) as [[] | e] eqn:Hv; simpl; [ | done].
  destruct (wo_process_alive o); [ | by destruct intent].
  destruct (decide (wo_process_creation_time_file_time o = Some creation)) as [He | He].
  - by rewrite bool_decide_eq_true_2.
  - by rewrite bool_decide_eq_false_2.
Qed.

(** The terminal states that the classifiers produce. *)
Lemma classify_terminal_state_cases intent result code status :
  let s := classify_terminal_state intent result code status in
  s = AttemptState.Succeeded \/ s = AttemptState.Failed \/ s = AttemptState.TimedOut
  \/ s = AttemptState.Cancelled.
Proof. destruct intent; simpl; auto. destruct (_ || _); auto. Qed.

(** what is classified as terminal can be committed.  A terminal state that
    either classifier reports is one that the Registry resolves conclusively,
    and the Attempt transition relation allows it from every state of a
    dispatched Attempt. *)
Theorem classified_state_committable expected o owner wo intent s from :
  (classify_supervisor_recovery expected o intent
     = Ok (SupervisorRecoveryDisposition.Terminal s)
   \/ classify_windows_launcher_recovery owner wo intent
      = Ok (SupervisorRecoveryDisposition.Terminal s)) ->
  dispatched_nonterminal from = true ->
  AttemptState.can_transition_to from s = true
  /\ exists r, resolution_for_state s = Ok r /\ r <> JobResolution.Orphaned
       /\ r <> JobResolution.Lost.
Proof.
  intros H Hfrom.
  assert (Hs : s = AttemptState.Succeeded \/ s = AttemptState.Failed \/ s = AttemptState.TimedOut
               \/ s = AttemptState.Cancelled).
  { destruct H as [H | H].
    - unfold classify_supervisor_recovery in H. inv_ok.
      destruct (_ != _) in H; [done | ]. destruct (so_unit_state o).
      + by destruct (running_identity_mismatch _ _).
      + destruct (terminal_identity_mismatch _ _); [done | ]. injection H as <-.
        apply classify_terminal_state_cases.
      + destruct (_ && _); [done | ]. destruct intent; simplify_eq; auto.
    - unfold classify_windows_launcher_recovery in H. inv_ok. destruct owner.
      destruct (wo_process_alive wo); [by destruct (_ != _) in H | ].
      injection H as <-. destruct intent; auto. }
  destruct_or! Hs; subst s; (split; [by destruct from | eexists; split; [reflexivity | done]]).
Qed.

Definition sample_supervisor : SupervisorIdentity := {|
  si_boot_id := "boot"; si_unit_name := "ordivon-attempt-1.service";
  si_invocation_id := "inv"; si_control_group := "/ordivon"; si_main_pid := 42;
  si_main_process_start_identity := "start-42" |}.

Definition finished_observation : SupervisorObservation := {|
  so_boot_id := "boot"; so_unit_state := SupervisorUnitState.Terminal;
  so_invocation_id := Some "inv"%string; so_control_group := None; so_main_pid := None;
  so_main_process_start_identity := None; so_recorded_pid_alive := false;
  so_recorded_pid_start_identity := None; so_result := Some "success"%string;
  so_exec_main_code := None; so_exec_main_status := None |}.

Lemma classified_state_committable_witness :
  classify_supervisor_recovery sample_supervisor finished_observation TerminationIntent.Natural
  = Ok (SupervisorRecoveryDisposition.Terminal AttemptState.Succeeded)
  /\ AttemptState.can_transition_to AttemptState.Starting AttemptState.Succeeded = true.
Proof.
  split; [vm_compute; reflexivity | ].
  apply (classified_state_committable sample_supervisor finished_observation
           (WindowsLauncherV1 1 1 "" "" "") {| wo_process_alive := false;
              wo_process_creation_time_file_time := None |} TerminationIntent.Natural
           AttemptState.Succeeded AttemptState.Starting);
    [left; vm_compute; reflexivity | reflexivity].
Defined.
