(* ===== verification/ValidationSpec.v ===== *)
(** * What the validators accept

    The request validators decide exactly the conditions they are meant to
    decide: the published pattern of logical identifiers, and the limits of
    [execve] on the argument and environment block. *)

From Stdlib Require Import ZifyBool.
From S2P Require Import Prelude Text Errors Types Supervisor Platform TestPlatform Validation.

#[local] Open Scope Z_scope.

(** ** Logical identifiers *)

Lemma decode_utf8_nonneg l : forall p acc,
  0 <= acc -> Forall (fun b => 0 <= b) l -> Forall (fun c => 0 <= c) (decode_utf8 p acc l).
Proof.
  induction l as [ | b l IH]; intros p acc Ha Hl; cbn [decode_utf8]; [constructor | ].
  apply Forall_cons in Hl as [Hb Hl].
  assert (0 <= b mod 64 /\ 0 <= b mod 32 /\ 0 <= b mod 16 /\ 0 <= b mod 8) as (? & ? & ? & ?)
    by (repeat split; by apply Z.mod_pos_bound).
  destruct p as [ | [ | p]].
  - destruct (b <? 128); [constructor; [done | apply IH; [done | done]] | ].
    destruct (b <? 224); [by apply IH | ]. destruct (b <? 240); by apply IH.
  - constructor; [lia | apply IH; [done | done]].
  - apply IH; [lia | done].
Qed.

Lemma chars_nonneg s : Forall (fun c => 0 <= c) (chars s).
Proof.
  apply decode_utf8_nonneg; [done | ].
  induction s as [ | c s IH]; constructor; [unfold byte_of; lia | done].
Qed.

Lemma edge_ranges_spec c :
  0 <= c -> in_ranges edge_ranges c = false <-> is_control c = false /\ is_whitespace c = false.
Proof. unfold in_ranges, edge_ranges, is_control, is_whitespace. simpl. lia. Qed.

Lemma inner_ranges_spec c :
  0 <= c -> in_ranges inner_ranges c = false <-> is_control c = false.
Proof. unfold in_ranges, inner_ranges, is_control. simpl. lia. Qed.

Lemma matches_not_in_iff r l : matches (NotIn r) l <-> exists c, l = [c] /\ in_ranges r c = false.
Proof.
  split; [ | intros (c & -> & Hc); by constructor].
  intros H. inversion H; subst. eauto.
Qed.

Lemma matches_star_not_in r l :
  matches (Star (NotIn r)) l <-> Forall (fun c => in_ranges r c = false) l.
Proof.
  split.
  - remember (Star (NotIn r)) as x eqn:Hx. intros H. revert Hx.
    induction H; intros Hx; simplify_eq; [constructor | ].
    match goal with H : matches (NotIn _) _ |- _ => apply matches_not_in_iff in H as (c & -> & ?) end.
    simpl. constructor; auto.
  - induction 1 as [ | c l Hc _ IH]; [constructor | ].
    change (c :: l) with ([c] ++ l). constructor; [by constructor | done].
Qed.

(** The shape that [LOGICAL_ID_PATTERN] describes. *)
Lemma matches_logical_id l :
  matches LOGICAL_ID_PATTERN l <->
  (exists c, l = [c] /\ in_ranges edge_ranges c = false)
  \/ (exists c mid d, l = c :: mid ++ [d] /\ in_ranges edge_ranges c = false
        /\ Forall (fun x => in_ranges inner_ranges x = false) mid
        /\ in_ranges edge_ranges d = false).
Proof.
  unfold LOGICAL_ID_PATTERN. split.
  - intros H. inversion H as [ | ? ? l1 l2 H1 H2 | | | | ]; subst.
    apply matches_not_in_iff in H1 as (c & -> & Hc).
    inversion H2 as [ | | | | | ? ? H3]; subst; [left; eauto | right].
    inversion H3 as [ | ? ? m1 m2 H4 H5 | | | | ]; subst.
    apply matches_star_not_in in H4. apply matches_not_in_iff in H5 as (d & -> & Hd).
    exists c, m1, d. done.
  - intros [(c & -> & Hc) | (c & mid & d & -> & Hc & Hm & Hd)].
    + change [c] with ([c] ++ []). repeat constructor. done.
    + change (c :: mid ++ [d]) with ([c] ++ (mid ++ [d])). constructor; [by constructor | ].
      repeat constructor; [by apply matches_star_not_in | done].
Qed.

(** The hand-written checks and the pattern agree on non-empty texts. *)
Lemma trimmed_control_free l :
  l <> [] -> Forall (fun c => 0 <= c) l ->
  (trim l = l /\ existsb is_control l = false) <-> matches LOGICAL_ID_PATTERN l.
Proof.
  intros Hne Hpos. rewrite matches_logical_id. destruct l as [ | c l]; [done | ].
  assert (Hc : forall m, Forall (fun c => 0 <= c) m ->
            existsb is_control m = false <-> Forall (fun x => in_ranges inner_ranges x = false) m).
  { induction 1 as [ | x m Hx _ IH]; [split; [constructor | done] | ].
    cbn [existsb]. rewrite Forall_cons, <- IH, orb_false_iff. pose proof (inner_ranges_spec x Hx). tauto. }
  apply Forall_cons in Hpos as [Hp Hpos].
  destruct l as [ | d mid _] using rev_ind.
  - rewrite trim_singleton_iff. cbn [existsb]. rewrite orb_false_r. pose proof (edge_ranges_spec c Hp).
    split; [intros; left; exists c; tauto | ]. intros [(x & [= <-] & Hx) | (x & m & y & [= _ Hx] & _)]; [tauto | ].
    by destruct m.
  - rewrite trim_id_iff. apply (proj1 (Forall_app _ _ _)) in Hpos as [Hm Hd].
    apply Forall_cons in Hd as [Hd _].
    cbn [existsb]. rewrite existsb_app. cbn [existsb].
    rewrite orb_false_r, !orb_false_iff, (Hc mid Hm).
    pose proof (edge_ranges_spec c Hp). pose proof (edge_ranges_spec d Hd). split.
    + intros. right. exists c, mid, d. split; [done | tauto].
    + intros [(x & Hx & _) | (x & m & y & Hx & H1 & H2 & H3)].
      * injection Hx as _ Hx. by destruct mid.
      * injection Hx as <- Hx. apply app_inj_tail in Hx as [<- <-]. tauto.
Qed.

(** the identifier check is the published pattern.  [validate_logical_id]
    accepts a text exactly when it has between 1 and 256 Unicode characters and
    matches the pattern that the tool schemas publish, [LOGICAL_ID_PATTERN]: a
    client that checks the schema is never refused, and nothing else passes. *)
Theorem validate_logical_id_is_pattern value field :
  validate_logical_id value field = Ok tt <->
  LOGICAL_ID_MIN_LENGTH <= Z.of_nat (length (chars value)) <= LOGICAL_ID_MAX_LENGTH
  /\ matches LOGICAL_ID_PATTERN (chars value).
Proof.
  unfold validate_logical_id, fail_if. pose proof (chars_nonneg value) as Hpos.
  destruct (chars value) as [ | c l] eqn:Hv.
  { simpl. split; [done | ]. intros [H _]. unfold LOGICAL_ID_MIN_LENGTH in H. simpl in H. lia. }
  rewrite <- (trimmed_control_free (c :: l)) by done.
  destruct (_ || _ || _) eqn:Hb.
  - split; [done | ]. intros (Hlen & Ht & Hctl). rewrite Hctl, Ht, orb_false_r in Hb.
    rewrite bool_decide_eq_true_2 in Hb by done. rewrite orb_false_r in Hb. lia.
  - split; [intros _ | done]. bool_props. repeat split; try done; lia.
Qed.

(** ** The [execve] payload *)

Lemma map_Forall_iff {V} (P Q : string -> V -> Prop) (m : gmap string V) :
  (forall k v, P k v <-> Q k v) -> map_Forall P m <-> map_Forall Q m.
Proof. intros H. unfold map_Forall. by setoid_rewrite H. Qed.

Lemma Forall_btree_iter (P : string * string -> Prop) (m : gmap string string) :
  Forall P (btree_iter m) <-> map_Forall (fun k v => P (k, v)) m.
Proof.
  unfold btree_iter. rewrite merge_sort_Permutation.
  rewrite map_Forall_to_list. apply Forall_proper; [intros [k v]; done | done].
Qed.

Lemma str_len_nonneg s : 0 <= str_len s.
Proof. unfold str_len. lia. Qed.

Definition sum {A} (f : A -> Z) (l : list A) : Z := foldr (fun x n => f x + n) 0 l.

Lemma sum_nonneg {A} (f : A -> Z) l : (forall x, 0 <= f x) -> 0 <= sum f l.
Proof. intros Hf. induction l as [ | x l IH]; simpl; [done | ]. pose proof (Hf x). lia. Qed.

(** The strings as [execve] counts them: each with its NUL, an environment
    entry as [NAME=VALUE]. *)
Definition arg_size (a : string) : Z := str_len a + 1.
Definition entry_size (e : string * string) : Z := str_len e.1 + 1 + str_len e.2 + 1.

Lemma checked_add_Some a b c : checked_add a b = Some c <-> c = a + b /\ c <= usize_max.
Proof.
  unfold checked_add. destruct (Z.leb_spec (a + b) usize_max); split; try done; try lia.
  - by intros [= <-].
  - by intros [-> _].
Qed.

Lemma checked_mul_Some a b c : checked_mul a b = Some c <-> c = a * b /\ c <= usize_max.
Proof.
  unfold checked_mul. destruct (Z.leb_spec (a * b) usize_max); split; try done; try lia.
  - by intros [= <-].
  - by intros [-> _].
Qed.

Lemma checked_add_ok a b : a + b <= usize_max -> checked_add a b = Some (a + b).
Proof. intros H. by apply checked_add_Some. Qed.

Lemma checked_mul_ok a b : a * b <= usize_max -> checked_mul a b = Some (a * b).
Proof. intros H. by apply checked_mul_Some. Qed.

Lemma args_bytes_Some args : forall acc n,
  acc <= usize_max ->
  args_bytes acc args = Some n <-> n = acc + sum arg_size args /\ n <= usize_max.
Proof.
  induction args as [ | a args IH]; intros acc n Hacc; [simpl; split; [intros [= <-]; lia | intros [-> _]; f_equal; lia] | ]; simpl.
  pose proof (str_len_nonneg a).
  pose proof (sum_nonneg arg_size args ltac:(intros x; unfold arg_size; pose proof (str_len_nonneg x); lia)).
  unfold arg_size at 1. split.
  - intros Hrest. repeat (apply bind_Some in Hrest as (? & [-> ?]%checked_add_Some & Hrest)).

    apply IH in Hrest; [ | done]. lia.
  - intros [-> Hle].
    do 2 (apply bind_Some; eexists; split; [apply checked_add_Some; split; [reflexivity | lia] | ]).
    apply IH; lia.
Qed.

Lemma env_bytes_Some env : forall acc n,
  acc <= usize_max ->
  env_bytes acc env = Some n <-> n = acc + sum entry_size env /\ n <= usize_max.
Proof.
  induction env as [ | [k v] env IH]; intros acc n Hacc; [simpl; split; [intros [= <-]; lia | intros [-> _]; f_equal; lia] | ]; simpl.
  pose proof (str_len_nonneg k). pose proof (str_len_nonneg v).
  pose proof (sum_nonneg entry_size env ltac:(intros [x y]; unfold entry_size; simpl;
    pose proof (str_len_nonneg x); pose proof (str_len_nonneg y); lia)).
  unfold entry_size at 1; simpl. split.
  - intros Hrest. repeat (apply bind_Some in Hrest as (? & [-> ?]%checked_add_Some & Hrest)).
    apply IH in Hrest; [ | done]. lia.
  - intros [-> Hle].
    do 4 (apply bind_Some; eexists; split; [apply checked_add_Some; split; [reflexivity | lia] | ]).
    apply IH; lia.
Qed.

Section exec_payload.
Context `{P : Platform}.

(** What [execve] needs for the strings and the two pointer arrays. *)
Definition exec_block_size (args : list string) (env : gmap string string) : Z :=
  sum arg_size args + sum entry_size (btree_iter env)
  + 8 * (Z.of_nat (length args) + Z.of_nat (size env) + 2).

(** The limits: per string (32 pages), and in total ([ARG_MAX]). *)
Definition exec_payload_fits (args : list string) (env : gmap string string) : Prop :=
  Forall (fun a => contains_nul a = false /\ arg_size a <= 32 * sc_page_size) args
  /\ map_Forall (fun k v => valid_env_name k = true /\ contains_nul v = false
                            /\ entry_size (k, v) <= 32 * sc_page_size) env
  /\ exec_block_size args env <= sc_arg_max.

Lemma string_limit : 0 < sc_page_size -> 32 * sc_page_size <= usize_max ->
  linux_exec_string_limit_bytes = Ok (32 * sc_page_size - 1).
Proof.
  intros H1 H2. unfold linux_exec_string_limit_bytes.
  rewrite (proj2 (Z.leb_gt _ _)) by lia.
  assert (Hm : checked_mul sc_page_size 32 = Some (32 * sc_page_size))
    by (apply checked_mul_Some; lia).
  rewrite Hm. simpl. by rewrite (proj2 (Z.ltb_ge _ _)) by lia.
Qed.

Context (Hpage : 0 < sc_page_size) (Hstring : 32 * sc_page_size <= usize_max).

Lemma validate_args_Ok args :
  validate_args args = Ok tt <->
  Forall (fun a => contains_nul a = false /\ arg_size a <= 32 * sc_page_size) args.
Proof.
  unfold validate_args. rewrite string_limit by done. cbn [mbind result_bind].
  rewrite fail_if_Ok, existsb_false_Forall. apply Forall_proper; [ | done].
  intros a. unfold arg_size. rewrite orb_false_iff, Z.ltb_ge. split; intros [? ?]; split; auto; lia.
Qed.

Lemma validate_env_Ok (env : gmap string string) :
  validate_env env = Ok tt <->
  map_Forall (fun k v => valid_env_name k = true /\ contains_nul v = false) env.
Proof.
  unfold validate_env. rewrite for_each_Ok, Forall_btree_iter.
  apply map_Forall_iff. intros k v. by rewrite fail_if_Ok, orb_false_iff, negb_false_iff.
Qed.

Lemma entry_limit (env : gmap string string) :
  existsb (fun '(name, value) =>
    32 * sc_page_size - 1 <? Z.min usize_max (Z.min usize_max (str_len name + 1) + str_len value))
    (btree_iter env) = false <->
  map_Forall (fun k v => entry_size (k, v) <= 32 * sc_page_size) env.
Proof.
  rewrite existsb_false_Forall, Forall_btree_iter. apply map_Forall_iff. intros k v.
  unfold entry_size. simpl. rewrite Z.ltb_ge.
  pose proof (str_len_nonneg k). pose proof (str_len_nonneg v). lia.
Qed.

(** The part after the per-string checks: sums with overflow checks. *)
Lemma block_total args (env : gmap string string) (e1 e2 e3 e4 e5 : UniversalExecError) 
    (f : Z -> Z -> UniversalExecError) :
  0 < sc_arg_max -> sc_arg_max <= usize_max ->
  (arg_total ← ok_or e1 (args_bytes 0 args);
   string_bytes ← ok_or e2 (env_bytes arg_total (btree_iter env));
   pointer_count ← ok_or e3
     (n ← checked_add (Z.of_nat (length args)) (Z.of_nat (size env)); checked_add n 2);
   pointer_bytes ← ok_or e4 (checked_mul pointer_count 8);
   required_bytes ← ok_or e5 (checked_add string_bytes pointer_bytes);
   max_bytes ← linux_exec_payload_limit_bytes;
   fail_if (max_bytes <? required_bytes) (f required_bytes max_bytes)) = Ok tt
  <-> exec_block_size args env <= sc_arg_max.
Proof.
  intros Hm Hu. unfold exec_block_size, linux_exec_payload_limit_bytes.
  rewrite (proj2 (Z.leb_gt _ _)) by lia.
  assert (Ha := sum_nonneg arg_size args ltac:(intros x; unfold arg_size; pose proof (str_len_nonneg x); lia)).
  assert (He := sum_nonneg entry_size (btree_iter env) ltac:(intros [x y]; unfold entry_size; simpl;
    pose proof (str_len_nonneg x); pose proof (str_len_nonneg y); lia)).
  assert (Hz : 0 <= usize_max) by (unfold usize_max; lia).
  split.
  - intros H. inv_ok.
    repeat match goal with
    | H : checked_mul _ _ = Some _ |- _ => apply checked_mul_Some in H as [-> ?]
    | H : checked_add _ _ = Some _ |- _ => apply checked_add_Some in H as [-> ?]
    | H : _ ≫= _ = Some _ |- _ => apply bind_Some in H as (? & ? & ?)
    | H : args_bytes _ _ = Some _ |- _ => apply args_bytes_Some in H as [-> ?]; [ | done]
    | H : env_bytes _ _ = Some _ |- _ => apply env_bytes_Some in H as [-> ?]; [ | done]
    end. bool_props. lia.
  - intros H.
    rewrite (proj2 (args_bytes_Some args 0 (0 + sum arg_size args) Hz)) by lia. cbn [ok_or mbind result_bind].
    rewrite (proj2 (env_bytes_Some (btree_iter env) (0 + sum arg_size args) (0 + sum arg_size args + sum entry_size (btree_iter env)) ltac:(lia)))
      by lia. cbn [ok_or mbind result_bind].
    rewrite checked_add_ok by lia.
    cbn [mbind option_bind]. rewrite checked_add_ok by lia.
    cbn [ok_or mbind result_bind]. rewrite checked_mul_ok by lia.
    cbn [ok_or mbind result_bind]. rewrite checked_add_ok by lia.
    cbn [ok_or mbind result_bind]. apply fail_if_Ok. lia.
Qed.

(** C36: the payload check is exactly the kernel's.  On a host with a positive
    page size and [ARG_MAX] that fit the machine word, [validate_exec_payload]
    accepts arguments and environment exactly when no string holds a NUL,
    names are valid, every string with its NUL fits in 32 pages, and all
    strings with both pointer arrays fit in [ARG_MAX]; no intermediate sum
    overflows into an acceptance or a refusal. *)
Theorem validate_exec_payload_exact args env field :
  0 < sc_arg_max -> sc_arg_max <= usize_max ->
  validate_exec_payload args env field = Ok tt <-> exec_payload_fits args env.
Proof.
  intros Hm Hu. unfold validate_exec_payload, exec_payload_fits.
  rewrite seq_Ok, validate_args_Ok, seq_Ok, validate_env_Ok, string_limit by done.
  cbn [mbind result_bind]. rewrite seq_Ok, fail_if_Ok, entry_limit.
  epose proof (block_total args env _ _ _ _ _ (fun required_bytes max_bytes => universal_invalid
    ("argv and environment require " +:+ pretty required_bytes +:+
     " bytes, exceeding the host Linux execve limit of " +:+ pretty max_bytes +:+ " bytes") field)
    Hm Hu) as Ht.
  cbv beta in Ht. rewrite Ht.
  split.
  - intros (? & He & Hl & ?). split; [done | split; [ | done]]. intros k v Hk.
    destruct (He k v Hk). split; [done | split; [done | exact (Hl k v Hk)]].
  - intros (? & He & ?). split; [done | ].
    split; [ | split; [ | done]]; intros k v Hk; destruct (He k v Hk) as (? & ? & ?); [by split | done].
Qed.
End exec_payload.

Lemma validate_exec_payload_exact_witness :
  let env := {["PATH" := "/usr/bin"]} in
  validate_exec_payload ["-c"; "true"] env "plan" = Ok tt
  /\ exec_payload_fits ["-c"; "true"] env.
Proof.
  intros env. assert (H : validate_exec_payload ["-c"; "true"] env "plan" = Ok tt) by reflexivity.
  split; [exact H | ].
  apply (validate_exec_payload_exact (P := test_platform)) in H; [exact H | by vm_compute ..].
Defined.
