(* ===== verification/CommandLine.v ===== *)
(** * Windows command lines

    The launcher of [platform/windows/Ordivon.WindowsJobLauncher.cs] builds the
    text that [CreateProcessW] receives ([BuildCommandLine],
    [QuoteWindowsArgument]); the Runtime predicts its length without building
    it ([runtime/windows.rs]).  Both are modelled here, the launcher on UTF-16
    code units as C# strings are, and shown to agree. *)

From Stdlib Require Import ZifyBool.
From S2P Require Import Prelude Text Errors Types Supervisor Platform TestPlatform Validation.
From S2P Require Import ValidationSpec.

#[local] Open Scope Z_scope.

(** ** The launcher *)

(** A Unicode scalar value as UTF-16 code units. *)
Definition encode_utf16 (c : Z) : list Z :=
  if c <? 65536 then [c]
  else [55296 + (c - 65536) / 1024; 56320 + (c - 65536) mod 1024].
Definition utf16_units (cs : list Z) : list Z := concat (map encode_utf16 cs).
Definition utf16 (s : string) : list Z := utf16_units (chars s).

(** The loop of [QuoteWindowsArgument] after the opening quote. *)
Fixpoint quote_from (backslashes : nat) (units : list Z) : list Z :=
  match units with
  | [] => replicate (backslashes * 2) 92 ++ [34]
  | c :: rest =>
      if c =? 92 then quote_from (S backslashes) rest
      else if c =? 34 then replicate (backslashes * 2 + 1) 92 ++ [34] ++ quote_from 0 rest
      else replicate backslashes 92 ++ [c] ++ quote_from 0 rest
  end.

Definition needs_quotes (units : list Z) : bool :=
  match units with [] => true | _ => existsb (fun c => is_whitespace c || (c =? 34)) units end.

Definition QuoteWindowsArgument (units : list Z) : list Z :=
  if needs_quotes units then 34 :: quote_from 0 units else units.

Definition BuildCommandLine (executable : list Z) (arguments : list (list Z)) : list Z :=
  QuoteWindowsArgument executable
  ++ concat (map (fun argument => 32 :: QuoteWindowsArgument argument) arguments).

(** ** Lengths *)

Lemma encode_utf16_length c : Z.of_nat (length (encode_utf16 c)) = len_utf16 c.
Proof. unfold encode_utf16, len_utf16. by destruct (c <? 65536). Qed.

(** Surrogates are neither white space, nor quotes, nor backslashes. *)
Lemma encode_utf16_plain c :
  0 <= c -> c <> 92 -> c <> 34 -> Forall (fun u => u <> 92 /\ u <> 34) (encode_utf16 c).
Proof.
  intros Hc H1 H2. unfold encode_utf16. destruct (Z.ltb_spec c 65536); repeat constructor; try done;
    pose proof (Z.div_pos (c - 65536) 1024); pose proof (Z.mod_pos_bound (c - 65536) 1024); lia.
Qed.

Lemma whitespace_bound c : is_whitespace c = true -> c <= 12288.
Proof. unfold is_whitespace. lia. Qed.

Lemma encode_utf16_needs_quotes c :
  0 <= c ->
  existsb (fun u => is_whitespace u || (u =? 34)) (encode_utf16 c) = is_whitespace c || (c =? 34).
Proof.
  intros Hc. unfold encode_utf16. destruct (Z.ltb_spec c 65536); cbn [existsb].
  { by rewrite orb_false_r. }
  assert (Hbig : forall u, 12288 < u -> is_whitespace u || (u =? 34) = false).
  { intros u Hu. pose proof (whitespace_bound u). destruct (is_whitespace u); [lia | simpl; lia]. }
  pose proof (Z.div_pos (c - 65536) 1024). pose proof (Z.mod_pos_bound (c - 65536) 1024).
  rewrite !Hbig by lia. done.
Qed.

Lemma utf16_needs_quotes cs :
  Forall (fun c => 0 <= c) cs ->
  existsb (fun u => is_whitespace u || (u =? 34)) (utf16_units cs)
  = existsb (fun c => is_whitespace c || (c =? 34)) cs.
Proof.
  unfold utf16_units. induction 1 as [ | c cs Hc _ IH]; [done | ].
  cbn [map concat existsb]. by rewrite existsb_app, IH, encode_utf16_needs_quotes.
Qed.

Lemma utf16_units_length cs :
  Z.of_nat (length (utf16_units cs)) = foldr (fun c n => (if c <? 65536 then 1 else 2) + n) 0 cs.
Proof.
  unfold utf16_units. induction cs as [ | c cs IH]; [done | ].
  cbn [map concat foldr]. rewrite length_app, Nat2Z.inj_add, encode_utf16_length, IH. done.
Qed.

(** The units of a plain character are copied after the pending backslashes. *)
Lemma quote_from_plain b us rest :
  us <> [] -> Forall (fun u => u <> 92 /\ u <> 34) us ->
  quote_from b (us ++ rest) = replicate b 92 ++ us ++ quote_from 0 rest.
Proof.
  intros Hne Hus. revert b Hne. induction Hus as [ | u us [H1 H2] _ IH]; intros b Hne; [done | ].
  cbn [app quote_from]. rewrite (proj2 (Z.eqb_neq _ _) H1), (proj2 (Z.eqb_neq _ _) H2).
  f_equal. f_equal. destruct us as [ | v us]; [done | by rewrite IH].
Qed.

Lemma quote_from_length_lower b us : (b < length (quote_from b us))%nat.
Proof.
  revert b. induction us as [ | u us IH]; intros b; cbn [quote_from].
  - rewrite length_app, length_replicate. simpl. lia.
  - destruct (u =? 92); [pose proof (IH (S b)); lia | ].
    destruct (u =? 34); rewrite !length_app, length_replicate; simpl; lia.
Qed.

(** The running length of the Rust loop is the length of what the launcher
    appends; the two quotes are counted from the start. *)
Lemma quoted_length_Some cs : Forall (fun c => 0 <= c) cs -> forall len b n,
  1 <= len ->
  quoted_length len (Z.of_nat b) cs = Some n <->
  n = len - 1 + Z.of_nat (length (quote_from b (utf16_units cs))) /\ n <= usize_max.
Proof.
  unfold utf16_units. induction 1 as [ | c cs Hc _ IH]; intros len b n Hlen.
  - cbn [map concat quote_from quoted_length]. rewrite length_app, length_replicate. simpl length.
    split.
    + intros H. apply bind_Some in H as (? & [-> ?]%checked_mul_Some & [-> ?]%checked_add_Some). lia.
    + intros [-> H]. rewrite checked_mul_ok by lia. cbn [mbind option_bind].
      apply checked_add_Some. lia.
  - cbn [map concat quoted_length]. destruct (Z.eqb_spec c 92) as [-> | H92].
    { change (encode_utf16 92) with [92]. cbn [app quote_from]. rewrite Z.eqb_refl.
      pose proof (quote_from_length_lower (S b) (concat (map encode_utf16 cs))). split.
      - intros H2. apply bind_Some in H2 as (? & [-> ?]%checked_add_Some & H2).
        replace (Z.of_nat b + 1) with (Z.of_nat (S b)) in H2 by lia. by apply IH in H2.
      - intros [-> H2]. rewrite checked_add_ok by lia. cbn [mbind option_bind].
        replace (Z.of_nat b + 1) with (Z.of_nat (S b)) by lia. by apply IH. }
    pose proof (quote_from_length_lower 0 (concat (map encode_utf16 cs))).
    destruct (Z.eqb_spec c 34) as [-> | H34].
    { change (encode_utf16 34) with [34]. cbn [app quote_from]. simpl (34 =? 92). rewrite Z.eqb_refl.
      rewrite !length_app, length_replicate. cbn [length]. split.
      - intros Hr. apply bind_Some in Hr as (? & [-> ?]%checked_mul_Some & Hr).
        repeat (apply bind_Some in Hr as (? & [-> ?]%checked_add_Some & Hr)).
        apply (IH _ 0%nat) in Hr; lia.
      - intros [-> Hr]. rewrite checked_mul_ok by lia. cbn [mbind option_bind].
        rewrite !checked_add_ok by lia. cbn [mbind option_bind].
        rewrite checked_add_ok by lia. cbn [mbind option_bind]. apply (IH _ 0%nat); lia. }
    rewrite quote_from_plain;
      [ | unfold encode_utf16; by destruct (c <? 65536) | by apply encode_utf16_plain].
    rewrite !length_app, length_replicate, !Nat2Z.inj_add, encode_utf16_length.
    assert (1 <= len_utf16 c <= 2) by (unfold len_utf16; destruct (c <? 65536); lia). split.
    + intros Hr. repeat (apply bind_Some in Hr as (? & [-> ?]%checked_add_Some & Hr)).
      apply (IH _ 0%nat) in Hr; lia.
    + intros [-> Hr]. rewrite checked_add_ok by lia. cbn [mbind option_bind].
      rewrite checked_add_ok by lia. cbn [mbind option_bind]. apply (IH _ 0%nat); lia.
Qed.

(** The shape of valid UTF-8, which every Rust [String] has. *)
Fixpoint utf8_shape (pending : nat) (bs : list Z) : bool :=
  match bs with
  | [] => Nat.eqb pending 0
  | b :: bs' =>
      match pending with
      | O => if b <? 128 then utf8_shape 0 bs'
             else if b <? 194 then false
             else if b <? 224 then utf8_shape 1 bs'
             else if b <? 240 then utf8_shape 2 bs'
             else if b <? 245 then utf8_shape 3 bs' else false
      | S p => (128 <=? b) && (b <? 192) && utf8_shape p bs'
      end
  end.
Definition valid_utf8 (s : string) : bool := utf8_shape 0 (bytes s).

Lemma decode_pending p : forall acc bs,
  utf8_shape (S p) bs = true -> decode_utf8 (S p) acc bs <> [].
Proof.
  induction p as [ | p IH]; intros acc [ | b bs] H; try done.
  cbn [utf8_shape] in H. apply andb_prop in H as [_ H]. by apply (IH _ bs).
Qed.

Lemma chars_nil value : valid_utf8 value = true -> chars value = [] -> value = "".
Proof.
  destruct value as [ | c s]; [done | ]. unfold valid_utf8, chars. cbn [bytes decode_utf8 utf8_shape].
  intros Hs H. exfalso. revert Hs H.
  destruct (byte_of c <? 128); [done | ]. destruct (byte_of c <? 194); [done | ].
  destruct (byte_of c <? 224); [apply decode_pending | ].
  destruct (byte_of c <? 240); [apply decode_pending | ].
  destruct (byte_of c <? 245); [apply decode_pending | done].
Qed.

Lemma value_needs_quotes value :
  valid_utf8 value = true ->
  String.eqb value "" || existsb (fun c => is_whitespace c || (c =? 34)) (chars value)
  = needs_quotes (utf16 value).
Proof.
  intros Hv. pose proof (utf16_needs_quotes _ (chars_nonneg value)) as Hq. fold (utf16 value) in Hq.
  destruct (String.eqb_spec value "") as [-> | Hne]; [done | ]. rewrite <- Hq.
  unfold needs_quotes. destruct (utf16 value) as [ | u us] eqn:Hu; [ | done].
  exfalso. apply Hne, chars_nil; [done | ]. unfold utf16, utf16_units in Hu.
  destruct (chars value) as [ | c cs]; [done | ]. cbn [map concat] in Hu.
  apply app_eq_nil in Hu as [Hu _]. unfold encode_utf16 in Hu. by destruct (c <? 65536).
Qed.

(** [checked_windows_quoted_argument_utf16_len] is the length of
    [QuoteWindowsArgument], for texts without NUL. *)
Definition quoted_size (value : string) : Z :=
  Z.of_nat (length (QuoteWindowsArgument (utf16 value))).

Lemma quoted_argument_length value field :
  valid_utf8 value = true ->
  (forall n, checked_windows_quoted_argument_utf16_len value field = Ok n ->
     contains_nul value = false /\ n = quoted_size value)
  /\ (contains_nul value = false -> quoted_size value <= usize_max ->
      checked_windows_quoted_argument_utf16_len value field = Ok (quoted_size value)).
Proof.
  intros Hutf. unfold checked_windows_quoted_argument_utf16_len, quoted_size. cbv zeta.
  pose proof (chars_nonneg value) as Hpos. rewrite (value_needs_quotes _ Hutf).
  unfold QuoteWindowsArgument. destruct (needs_quotes (utf16 value)); cbn [negb].
  - pose proof (fun n => quoted_length_Some _ Hpos 2 0%nat n ltac:(lia)) as Hq.
    fold (utf16 value) in Hq. change (Z.of_nat 0) with 0 in Hq. cbn [length]. split.
    + intros n [Hnul H]%seq_Ok. apply fail_if_Ok in Hnul. apply ok_or_Ok_inv, Hq in H.
      split; [done | lia].
    + intros Hnul H. apply seq_Ok. split; [by apply fail_if_Ok | ].
      rewrite (proj2 (Hq (Z.of_nat (S (length (quote_from 0 (utf16 value))))))) by lia. done.
  - unfold utf16_len. rewrite <- utf16_units_length. fold (utf16 value). split.
    + intros n [Hnul H]%seq_Ok. apply fail_if_Ok in Hnul. by injection H as <-.
    + intros Hnul _. apply seq_Ok. split; [by apply fail_if_Ok | done].
Qed.

Definition arguments_size (args : list string) : Z := sum (fun a => 1 + quoted_size a) args.

Lemma quoted_size_nonneg a : 0 <= quoted_size a.
Proof. unfold quoted_size. lia. Qed.

Lemma BuildCommandLine_length executable args :
  Z.of_nat (length (BuildCommandLine (utf16 executable) (map utf16 args)))
  = quoted_size executable + arguments_size args.
Proof.
  unfold BuildCommandLine, quoted_size, arguments_size. rewrite length_app, Nat2Z.inj_add. f_equal.
  induction args as [ | a args IH]; [done | ].
  cbn [map concat sum foldr]. rewrite length_app, Nat2Z.inj_add, IH. unfold sum, quoted_size.
  cbn [length]. lia.
Qed.

Lemma command_line_length_sound field args : forall acc n,
  Forall (fun a => valid_utf8 a = true) args -> command_line_length acc args field = Some n ->
  Forall (fun a => contains_nul a = false) args /\ n = acc + arguments_size args.
Proof.
  induction args as [ | a args IH]; intros acc n Hutf H; cbn [command_line_length] in H.
  { injection H as <-. split; [done | unfold arguments_size; simpl; lia]. }
  apply Forall_cons in Hutf as [Ha Hutf]. apply bind_Some in H as (? & [-> _]%checked_add_Some & H).
  destruct (checked_windows_quoted_argument_utf16_len a field) as [l | ] eqn:Hl; [ | done].
  apply (proj1 (quoted_argument_length a field Ha)) in Hl as [Hnul ->].
  apply bind_Some in H as (? & [-> _]%checked_add_Some & H). apply IH in H as [Hall ->]; [ | done].
  split; [by constructor | ]. unfold arguments_size, sum. simpl. lia.
Qed.

Lemma command_line_length_complete field args : forall acc,
  Forall (fun a => valid_utf8 a = true) args -> Forall (fun a => contains_nul a = false) args ->
  0 <= acc -> acc + arguments_size args <= usize_max ->
  command_line_length acc args field = Some (acc + arguments_size args).
Proof.
  unfold arguments_size. induction args as [ | a args IH]; intros acc Hutf Hnul Hacc Hfit.
  { cbn [sum foldr command_line_length]. f_equal. lia. }
  apply Forall_cons in Hutf as [Ha Hutf], Hnul as [Hna Hnul].
  cbn [sum foldr command_line_length] in *. pose proof (quoted_size_nonneg a).
  pose proof (sum_nonneg (fun a => 1 + quoted_size a) args
    ltac:(intros x; pose proof (quoted_size_nonneg x); lia)) as Hpos. unfold sum in Hpos.
  rewrite checked_add_ok by lia. cbn [mbind option_bind].
  rewrite (proj2 (quoted_argument_length a field Ha) Hna) by lia.
  rewrite checked_add_ok by lia. cbn [mbind option_bind].
  unfold sum in IH. rewrite IH by (try done; lia). f_equal. lia.
Qed.

(** ** The check and the launcher *)

Lemma utf16_len_nonneg s : 0 <= utf16_len s.
Proof. unfold utf16_len. rewrite <- utf16_units_length. lia. Qed.

Definition entry_fits (name value : string) : Prop :=
  utf16_len name + 1 + utf16_len value + 1 <= WINDOWS_ENVIRONMENT_VARIABLE_LIMIT_UTF16.

Lemma env_entry_Ok name value (e : RuntimeError) (f : Z -> RuntimeError) :
  (entry_utf16 ← ok_or e
     (a ← checked_add (utf16_len name) 1; b ← checked_add a (utf16_len value); checked_add b 1);
   fail_if (WINDOWS_ENVIRONMENT_VARIABLE_LIMIT_UTF16 <? entry_utf16) (f entry_utf16)) = Ok tt
  <-> entry_fits name value.
Proof.
  unfold entry_fits. pose proof (utf16_len_nonneg name). pose proof (utf16_len_nonneg value).
  assert (WINDOWS_ENVIRONMENT_VARIABLE_LIMIT_UTF16 <= usize_max) by (vm_compute; discriminate).
  split.
  - intros Hr. inv_ok. match goal with H : _ = Some _ |- _ => rename H into Hs end.
    repeat (apply bind_Some in Hs as (? & [-> ?]%checked_add_Some & Hs)).
    apply checked_add_Some in Hs as [-> _]. bool_props. lia.
  - intros Hfit. rewrite checked_add_ok by lia. cbn [mbind option_bind].
    rewrite checked_add_ok by lia. cbn [mbind option_bind]. rewrite checked_add_ok by lia.
    cbn [ok_or mbind result_bind]. apply fail_if_Ok. lia.
Qed.

(** C37: the Windows payload check is exactly the launcher's.  For UTF-8 texts
    [validate_windows_exec_payload] accepts exactly when no value holds a NUL,
    the environment names are valid, the command line that the launcher builds
    from the same executable and arguments fits [CreateProcessW] with its NUL,
    and every environment entry fits its limit: the length that is predicted
    without building the line is the length of the line, and no valid payload
    is refused for an overflow of the prediction. *)
Theorem validate_windows_exec_payload_exact executable args (env : gmap string string) field :
  Forall (fun a => valid_utf8 a = true) (executable :: args) ->
  validate_windows_exec_payload executable args env field = Ok tt <->
  Forall (fun a => contains_nul a = false) (executable :: args)
  /\ map_Forall (fun k v => valid_env_name k = true /\ contains_nul v = false) env
  /\ Z.of_nat (length (BuildCommandLine (utf16 executable) (map utf16 args))) + 1
     <= WINDOWS_CREATE_PROCESS_COMMAND_LINE_LIMIT_UTF16
  /\ map_Forall entry_fits env.
Proof.
  intros [Hexe Hargs]%Forall_cons. rewrite BuildCommandLine_length, Forall_cons.
  assert (WINDOWS_CREATE_PROCESS_COMMAND_LINE_LIMIT_UTF16 <= usize_max)
    by (vm_compute; discriminate).
  pose proof (quoted_size_nonneg executable). pose proof (quoted_argument_length executable field Hexe) as [Hq1 Hq2].
  pose proof (sum_nonneg (fun a => 1 + quoted_size a) args
    ltac:(intros x; pose proof (quoted_size_nonneg x); lia)).
  unfold validate_windows_exec_payload. rewrite seq_Ok, map_err_Ok, validate_env_Ok. split.
  - intros [Henv Hr]. apply bind_Ok_inv in Hr as (l & Hl & Hr). apply Hq1 in Hl as [Hnul ->].
    apply bind_Ok_inv in Hr as (n & Hn%ok_or_Ok_inv & Hr).
    apply command_line_length_sound in Hn as [Hall ->]; [ | done].
    apply bind_Ok_inv in Hr as (m & Hm%ok_or_Ok_inv & Hr). apply checked_add_Some in Hm as [-> _].
    apply seq_Ok in Hr as [Hlim Hr]. apply fail_if_Ok in Hlim.
    apply for_each_Ok, Forall_btree_iter in Hr.
    split; [done | split; [done | split; [lia | ]]].
    eapply map_Forall_iff; [ | exact Hr]. intros k v. symmetry. apply env_entry_Ok.
  - intros ([Hnul Hall] & Henv & Hfit & Hent). split; [done | ].
    rewrite Hq2 by (done || (unfold arguments_size in *; lia)). cbn [mbind result_bind].
    rewrite command_line_length_complete by (done || (unfold arguments_size in *; lia)).
    cbn [ok_or mbind result_bind]. rewrite checked_add_ok by lia. cbn [ok_or mbind result_bind].
    apply seq_Ok. split; [apply fail_if_Ok; lia | ].
    apply for_each_Ok, Forall_btree_iter. eapply map_Forall_iff; [ | exact Hent].
    intros k v. apply env_entry_Ok.
Qed.

Lemma validate_windows_exec_payload_exact_witness :
  let args := ["a b"; "c\"] in
  Forall (fun a => valid_utf8 a = true) ("C:\tool.exe" :: args)
  /\ Z.of_nat (length (BuildCommandLine (utf16 "C:\tool.exe") (map utf16 args))) + 1
     <= WINDOWS_CREATE_PROCESS_COMMAND_LINE_LIMIT_UTF16.
Proof.
  intros args.
  assert (Hutf : Forall (fun a => valid_utf8 a = true) ("C:\tool.exe" :: args))
    by (repeat constructor).
  split; [done | ].
  apply (validate_windows_exec_payload_exact _ _ ∅ "plan" Hutf). reflexivity.
Defined.
