(* ===== verification/SubmitSpec.v ===== *)
(** * What a validated submission guarantees

    [validate_submit] is the gate in front of every Job: what it accepts stays
    inside its Workspace, presents inputs that cannot overwrite one another,
    and carries limits and payloads the host can honour. *)

From S2P Require Import Prelude Text Errors Types Supervisor Platform TestPlatform Validation.
From S2P Require Import Submit Scenario.

#[local] Open Scope Z_scope.

(** ** Joined paths *)

Lemma split_on_app_sep sep a b :
  split_on sep (a +:+ String sep b) = split_on sep a ++ split_on sep b.
Proof.
  induction a as [ | c a IH]; simpl.
  - by rewrite Ascii.eqb_refl.
  - rewrite IH. destruct (Ascii.eqb c sep); [done | ].
    destruct (split_on sep a) as [ | x l] eqn:He; [ | done].
    exfalso. revert He. clear. destruct a as [ | d a]; simpl; [done | ].
    destruct (Ascii.eqb d sep); [done | ]. by destruct (split_on sep a).
Qed.

Lemma split_on_not_nil sep a : split_on sep a <> [].
Proof.
  destruct a as [ | c a]; simpl; [done | ].
  destruct (Ascii.eqb c sep); [done | ]. by destruct (split_on sep a).
Qed.

Lemma is_absolute_app a b : a <> "" -> is_absolute (a +:+ b) = is_absolute a.
Proof. destruct a as [ | c a]; [done | ]. intros _. unfold is_absolute, starts_with. simpl. by destruct a, b. Qed.

Lemma components_join_sep a b :
  a <> "" -> components (a +:+ "/" +:+ b) = components a ++ omap component_of (split_on slash b).
Proof.
  intros Ha. unfold components. rewrite is_absolute_app by done.
  change ("/" +:+ b) with (String slash b). rewrite split_on_app_sep, omap_app.
  pose proof (split_on_not_nil slash a).
  destruct (is_absolute a); [done | ]. destruct (split_on slash a) as [ | x l]; [done | ].
  simpl. by destruct (String.eqb x ".").
Qed.

(** The paths that the inputs may use. *)
Definition confined (path : string) : Prop :=
  is_absolute path = false /\ path <> "" /\ forallb is_normal (components path) = true.

Lemma confined_components path :
  confined path -> components path = omap component_of (split_on slash path).
Proof.
  intros (Hrel & _ & Hn). unfold components in *. rewrite Hrel in *.
  destruct (split_on slash path) as [ | x l]; [done | ]. by destruct (String.eqb x ".").
Qed.

Lemma confined_not_nil path : confined path -> components path <> [].
Proof.
  intros (Hrel & Hne & _). unfold components. rewrite Hrel.
  destruct path as [ | c path]; [done | ]. unfold is_absolute, starts_with in Hrel.
  assert (Hc : Ascii.eqb c slash = false).
  { apply Ascii.eqb_neq. intros ->. by destruct path. }
  assert (Hhead : forall x l, (match omap component_of (String c x :: l) with body =>
            if String.eqb (String c x) "." then CurDir :: body else body end) <> []).
  { intros x l. cbn [omap list_omap].
    assert (Hx : component_of (String c x)
            = if String.eqb (String c x) "." then None
              else if String.eqb (String c x) ".." then Some ParentDir
              else Some (Normal (String c x))) by done.
    rewrite Hx. destruct (String.eqb (String c x) "."); [done | ].
    by destruct (String.eqb (String c x) ".."). }
  cbn [split_on]. rewrite Hc. destruct (split_on slash path); apply Hhead.
Qed.

Lemma append_assoc (a b c : string) : a +:+ (b +:+ c) = (a +:+ b) +:+ c.
Proof. induction a as [ | x a IH]; [done | exact (f_equal (String x) IH)]. Qed.

Lemma ends_with_slash a : ends_with "/" a = true -> exists b, a = b +:+ "/".
Proof.
  intros H. apply andb_prop in H as [Hl H]. apply Nat.leb_le in Hl. apply String.eqb_eq in H.
  simpl in Hl. revert H. induction a as [ | c a IH]; [simpl in Hl; lia | ]. intros H.
  destruct a as [ | d a].
  - exists "". simpl in H. by rewrite H.
  - destruct IH as [b Hb]; [simpl; lia | simpl in *; by rewrite Nat.sub_0_r | ].
    exists (String c b). by rewrite Hb.
Qed.

Lemma components_root_join b : components ("/" +:+ b) = RootDir :: omap component_of (split_on slash b).
Proof. unfold components. simpl. by destruct b. Qed.

(** Joining a confined path to a root goes below that root, and nowhere else. *)
Lemma confined_join root path :
  is_absolute root = true -> confined path ->
  components (path_join root path) = components root ++ components path.
Proof.
  intros Hroot Hpath. rewrite (confined_components _ Hpath). destruct Hpath as (Hrel & _ & _).
  unfold path_join. rewrite Hrel.
  destruct (String.eqb_spec root "") as [-> | Hne]; [done | ].
  destruct (ends_with "/" root) eqn:He; [ | by apply components_join_sep].
  apply ends_with_slash in He as [b ->].
  destruct (String.eqb_spec b "") as [-> | Hb].
  { change ("" +:+ "/") with "/". by rewrite components_root_join. }
  assert (Hb2 : (b +:+ "/") +:+ path = b +:+ "/" +:+ path) by (symmetry; apply append_assoc).
  rewrite Hb2, components_join_sep by done.
  replace (b +:+ "/") with (b +:+ "/" +:+ "") by done.
  rewrite components_join_sep by done. simpl. by rewrite app_nil_r.
Qed.

(** ** Sorted Host Dependencies *)

Lemma str_lt_trans a b c : str_lt a b = true -> str_lt b c = true -> str_lt a c = true.
Proof.
  unfold str_lt. intros [Hab Hn1]%andb_prop [Hbc Hn2]%andb_prop.
  rewrite (string_leb_trans _ _ _ Hab Hbc). destruct (String.eqb_spec a c) as [-> | ]; [ | done].
  exfalso. rewrite (String.leb_antisym _ _ Hab Hbc), String.eqb_refl in Hn1. done.
Qed.

Definition dependency_lt (a b : HostDependencyBinding) : Prop :=
  str_lt (hd_path a) (hd_path b) = true.

Definition dependency_ok (b : HostDependencyBinding) : Prop :=
  is_absolute (hd_path b) = true /\ contains_nul (hd_path b) = false
  /\ digest_valid (hd_expected_digest b) = true.

Lemma validate_digest_Ok value field : validate_digest value field = Ok tt <-> digest_valid value = true.
Proof. unfold validate_digest. by rewrite fail_if_Ok, negb_false_iff. Qed.

Lemma validate_host_dependencies_Ok field bindings : forall previous index,
  validate_host_dependencies_from previous index bindings field = Ok tt ->
  Forall dependency_ok bindings
  /\ StronglySorted dependency_lt bindings
  /\ (forall p, previous = Some p -> Forall (fun b => str_lt p (hd_path b) = true) bindings).
Proof.
  induction bindings as [ | b rest IH]; intros previous index H; [repeat constructor | ].
  cbn [validate_host_dependencies_from] in H. inv_ok. bool_props.
  apply IH in H as (Hok & Hsort & Hprev).
  specialize (Hprev _ eq_refl). rewrite validate_digest_Ok in *.
  split; [constructor; [done | done] | split; [by constructor | ]].
  intros p ->. constructor; [by bool_props | ].
  eapply Forall_impl; [exact Hprev | ]. intros x Hx. simpl. eapply str_lt_trans; [ | exact Hx].
  by bool_props.
Qed.

(** ** Effective inputs *)

(** Neither path is a prefix of the other. *)
Definition paths_disjoint (x y : string) : Prop :=
  ~ (components x `prefix_of` components y) /\ ~ (components y `prefix_of` components x).

Lemma path_starts_with_prefix p base :
  path_starts_with p base = true <-> components base `prefix_of` components p.
Proof.
  unfold path_starts_with. destruct (components_strip_prefix _ _) as [r | ] eqn:He.
  - apply components_strip_prefix_Some in He. split; [intros _ | done]. by exists r.
  - split; [done | ]. intros [r Hr]. by rewrite Hr, components_strip_prefix_app in He.
Qed.

Lemma paths_overlap_false x y : paths_overlap x y = false -> paths_disjoint x y.
Proof.
  unfold paths_overlap, paths_disjoint. rewrite <- !path_starts_with_prefix. intros H. bool_props.
  split; congruence.
Qed.

Lemma validate_input_path_Ok path field :
  validate_input_path path field = Ok tt -> confined path.
Proof.
  intros H. apply fail_if_Ok_inv in H. apply orb_false_elim in H as [H1 H2].
  apply orb_false_elim in H1 as [H1 H3]. apply String.eqb_neq in H3. split; [done | split; [done | ]].
  clear H1 H3. induction (components path) as [ | c l IH]; [done | ].
  simpl in *. apply orb_false_elim in H2 as [Hc Hl]. rewrite IH by done.
  by apply negb_false_iff in Hc as ->.
Qed.

Definition input_ok (i : EffectiveInputBinding) : Prop :=
  confined (ei_relative_object i) /\ confined (ei_presentation_relative_path i)
  /\ digest_valid (ei_digest i) = true.

Definition inputs_disjoint (i j : EffectiveInputBinding) : Prop :=
  paths_disjoint (ei_presentation_relative_path i) (ei_presentation_relative_path j).

Lemma validate_effective_inputs_Ok target inputs : forall seen index,
  validate_effective_inputs target seen index inputs = Ok tt ->
  Forall input_ok inputs /\ ForallOrdPairs inputs_disjoint inputs
  /\ Forall (fun i => Forall (paths_disjoint (ei_presentation_relative_path i)) seen) inputs.
Proof.
  induction inputs as [ | i inputs IH]; intros seen index H; [repeat constructor | ].
  cbn [validate_effective_inputs] in H. inv_ok.
  repeat match goal with
  | H : validate_input_path _ _ = Ok _ |- _ => apply validate_input_path_Ok in H
  | H : validate_digest _ _ = Ok _ |- _ => apply validate_digest_Ok in H
  | H : existsb _ _ = false |- _ => apply existsb_false_Forall in H
  end.
  apply IH in H as (Hok & Hpairs & Hseen).
  assert (Hhead : Forall (fun j => inputs_disjoint i j) inputs).
  { eapply Forall_impl; [exact Hseen | ]. intros j [Hj _]%Forall_cons. unfold inputs_disjoint.
    destruct Hj; by split. }
  split; [by constructor | split; [by constructor | ]]. constructor.
  - eapply Forall_impl; [eassumption | ]. intros x Hx. by apply paths_overlap_false.
  - eapply Forall_impl; [exact Hseen | ]. by intros j [_ Hj]%Forall_cons.
Qed.

(** ** What acceptance means *)

Section spec.
Context `{P : Platform}.

Definition safe_path (path : string) : Prop :=
  is_absolute path = true /\ contains_nul path = false.

Definition present (o : option RuntimeReleaseEffectBinding) : bool :=
  match o with Some _ => true | None => false end.

(** The promise of [validate_submit] to the components behind it. *)
Record safe_submission (request : SubmitRequest) : Prop := {
  safe_capacity : sub_global_limit request <> 0;
  safe_paths :
    safe_path (plan_workspace_path (sub_plan request))
    /\ safe_path (plan_executable (sub_plan request)) /\ safe_path (plan_cwd (sub_plan request));
  safe_cwd :
    components (plan_workspace_path (sub_plan request))
      `prefix_of` components (plan_cwd (sub_plan request));
  safe_inputs_named :
    plan_input_set_id (sub_plan request) = None <-> plan_effective_inputs (sub_plan request) = [];
  safe_inputs : Forall input_ok (plan_effective_inputs (sub_plan request));
  safe_inputs_disjoint :
    ForallOrdPairs inputs_disjoint (plan_effective_inputs (sub_plan request));
  safe_dependencies :
    Forall dependency_ok (sub_host_dependencies request)
    /\ StronglySorted dependency_lt (sub_host_dependencies request);
  safe_limits :
    plan_timeout_ms (sub_plan request) <> 0 /\ plan_stdout_limit_bytes (sub_plan request) <> 0
    /\ plan_stderr_limit_bytes (sub_plan request) <> 0;
  safe_payload :
    validate_exec_payload_for_plan (plan_execution_target (sub_plan request))
      (plan_executable (sub_plan request)) (plan_args (sub_plan request))
      (plan_env (sub_plan request)) "plan" = Ok tt;
  safe_steps :
    forall k step, plan_steps (sub_plan request) !! k = Some step ->
    validate_exec_payload_for_plan (plan_execution_target (sub_plan request))
      (step_executable step) (step_args step) (step_env step) (field_at "plan.steps" k) = Ok tt;
  (** A request carries a release identity exactly when it carries the release
      effect, and then both name the same release of the same Workspace. *)
  safe_release :
    match sub_runtime_release_effect request with
    | Some release =>
        sub_request_identity_digest request = Some (rel_request_digest release)
        /\ starts_with RUNTIME_RELEASE_IDENTITY_PREFIX (rel_request_digest release) = true
        /\ rel_workspace_id release = plan_workspace_id (sub_plan request)
        /\ sub_host_dependencies request = []
    | None =>
        forall digest, sub_request_identity_digest request = Some digest ->
        starts_with RUNTIME_RELEASE_IDENTITY_PREFIX digest = false
    end;
}.

Lemma validate_absolute_path_Ok path field :
  validate_absolute_path path field = Ok tt -> safe_path path.
Proof. intros H. apply fail_if_Ok_inv in H. by bool_props. Qed.

Lemma validate_submit_paths_Ok plan :
  validate_submit_paths plan = Ok tt ->
  (safe_path (plan_workspace_path plan) /\ safe_path (plan_executable plan)
   /\ safe_path (plan_cwd plan))
  /\ components (plan_workspace_path plan) `prefix_of` components (plan_cwd plan).
Proof.
  intros H. unfold validate_submit_paths in H. inv_ok.
  repeat match goal with
  | H : validate_absolute_path _ _ = Ok _ |- _ => apply validate_absolute_path_Ok in H
  end. bool_props. by rewrite <- path_starts_with_prefix.
Qed.

Lemma validate_submit_input_set_Ok plan :
  validate_submit_input_set plan = Ok tt ->
  plan_input_set_id plan = None <-> plan_effective_inputs plan = [].
Proof.
  unfold validate_submit_input_set. by destruct (plan_input_set_id plan), (plan_effective_inputs plan).
Qed.

Lemma release_binding_Ok release request :
  validate_runtime_release_effect_binding release request = Ok tt ->
  sub_request_identity_digest request = Some (rel_request_digest release)
  /\ starts_with RUNTIME_RELEASE_IDENTITY_PREFIX (rel_request_digest release) = true
  /\ rel_workspace_id release = plan_workspace_id (sub_plan request).
Proof.
  intros H. unfold validate_runtime_release_effect_binding in H. inv_ok. bool_props.
  split; [done | split; [done | by apply String.eqb_eq]].
Qed.

Lemma validate_submit_side_truth_Ok request :
  validate_submit_side_truth request = Ok tt ->
  (Forall dependency_ok (sub_host_dependencies request)
   /\ StronglySorted dependency_lt (sub_host_dependencies request))
  /\ match sub_runtime_release_effect request with
     | Some release =>
         sub_request_identity_digest request = Some (rel_request_digest release)
         /\ starts_with RUNTIME_RELEASE_IDENTITY_PREFIX (rel_request_digest release) = true
         /\ rel_workspace_id release = plan_workspace_id (sub_plan request)
         /\ sub_host_dependencies request = []
     | None =>
         forall digest, sub_request_identity_digest request = Some digest ->
         starts_with RUNTIME_RELEASE_IDENTITY_PREFIX digest = false
     end.
Proof.
  intros H. unfold validate_submit_side_truth in H.
  apply seq_Ok in H as [Hdeps H]. apply seq_Ok in H as [Hcompat H].
  apply validate_host_dependencies_Ok in Hdeps as (Hok & Hsort & _). split; [done | ].
  destruct (sub_runtime_release_effect request) as [release | ].
  - apply release_binding_Ok in H as (? & ? & ?). repeat split; try done.
    destruct (sub_host_dependencies request); [done | exfalso]. inv_ok. done.
  - apply fail_if_Ok in H. intros digest Hd. by rewrite Hd in H.
Qed.

Lemma validate_submit_inputs request :
  validate_submit request = Ok tt ->
  Forall input_ok (plan_effective_inputs (sub_plan request))
  /\ ForallOrdPairs inputs_disjoint (plan_effective_inputs (sub_plan request)).
Proof.
  intros H. unfold validate_submit in H. do 5 apply seq_Ok in H as [_ H].
  apply seq_Ok in H as [H _]. by apply validate_effective_inputs_Ok in H as (? & ? & _).
Qed.

Lemma submission_safe request :
  validate_submit request = Ok tt -> safe_submission request.
Proof.
  intros H. unfold validate_submit in H.
  apply seq_Ok in H as [Hhead H]. apply seq_Ok in H as [Htruth H]. apply seq_Ok in H as [Hpaths H].
  apply seq_Ok in H as [Hset H]. apply seq_Ok in H as [_ H]. apply seq_Ok in H as [Hinputs Hlimits].
  apply validate_submit_side_truth_Ok in Htruth as [? ?].
  apply validate_submit_paths_Ok in Hpaths as [? ?]. apply validate_submit_input_set_Ok in Hset.
  apply validate_effective_inputs_Ok in Hinputs as (? & ? & _).
  unfold validate_submit_limits in Hlimits. apply seq_Ok in Hlimits as [_ Hlimits].
  apply seq_Ok in Hlimits as [Hpos%fail_if_Ok Hlimits]. apply seq_Ok in Hlimits as [_ Hlimits].
  apply seq_Ok in Hlimits as [? Hsteps]. unfold validate_submit_header in Hhead.
  do 5 apply seq_Ok in Hhead as [_ Hhead]. apply seq_Ok in Hhead as [Hcap%fail_if_Ok _].
  bool_props. split; try done.
  intros k step Hk. by apply (proj1 (for_each_i_Ok _ _ 0) Hsteps k step).
Qed.

(** what a validated submission guarantees.  Whatever [validate_submit]
    accepts satisfies [safe_submission]: its working directory is inside its
    Workspace, its inputs are confined relative paths none of which lies on or
    under another, its Host Dependencies are sorted without duplicates, its
    limits are positive, the payload of the command and of every step fits the
    host, and a release identity is carried exactly with its release effect. *)
Theorem validate_submit_safe request :
  validate_submit request = Ok tt -> safe_submission request.
Proof. apply submission_safe. Qed.

(** an effective input stays below the directory it is presented in.  The
    file of an accepted input, joined to any absolute root, lies strictly below
    that root, and two inputs of one request are presented at different places,
    neither inside the other. *)
Theorem presented_inputs_confined request root :
  validate_submit request = Ok tt -> is_absolute root = true ->
  let place i := path_join root (ei_presentation_relative_path i) in
  Forall (fun i => exists rest, rest <> [] /\ components (place i) = components root ++ rest)
    (plan_effective_inputs (sub_plan request))
  /\ ForallOrdPairs (fun i j => paths_disjoint (place i) (place j))
       (plan_effective_inputs (sub_plan request)).
Proof.
  intros (Hok & Hpairs)%validate_submit_inputs Hroot place.
  assert (Hplace : Forall (fun i => components (place i)
            = components root ++ components (ei_presentation_relative_path i))
            (plan_effective_inputs (sub_plan request))).
  { eapply Forall_impl; [exact Hok | ]. intros i (_ & Hc & _). by apply confined_join. }
  split.
  - eapply Forall_impl; [exact (proj2 (Forall_and _ _) (conj Hok Hplace)) | ]. intros i [(_ & Hc & _) ->].
    eexists. split; [ | done]. by apply confined_not_nil.
  - revert Hplace. induction Hpairs as [ | i inputs Hi _ IH]; intros Hplace; [constructor | ].
    apply Forall_cons in Hplace as [Hhead Hplace]. apply Forall_cons in Hok as [_ Hok].
    constructor; [ | by apply IH].
    eapply Forall_impl; [exact (proj2 (Forall_and _ _) (conj Hi Hplace)) | ]. intros j [[H1 H2] Hj].
    unfold paths_disjoint. rewrite Hhead, Hj. split; intros Hpre; by apply prefix_app_inv in Hpre.
Qed.
End spec.

(** ** A concrete request with inputs *)

Definition sample_input (object presentation : string) : EffectiveInputBinding :=
  {| ei_authority := "workspace"; ei_digest := sample_digest; ei_relative_object := object;
     ei_byte_length := 1; ei_access := InputAccessMode.ReadOnly;
     ei_presentation_relative_path := presentation |}.

Definition inputs_plan : RuntimeExecutionPlan := {|
  plan_schema_version := RUNTIME_SCHEMA_VERSION;
  plan_workspace_id := "ws-1";
  plan_workspace_path := "/srv/ws-1";
  plan_source_revision := "rev-1";
  plan_workspace_source_digest := None;
  plan_workspace_git_common_dir := None;
  plan_executable := "/usr/bin/true";
  plan_executable_digest := sample_digest;
  plan_args := ["-v"];
  plan_cwd := "/srv/ws-1/./src";
  plan_env := {["LANG" := "C"]};
  plan_timeout_ms := 1000;
  plan_stdout_limit_bytes := 4096;
  plan_stderr_limit_bytes := 4096;
  plan_steps := [];
  plan_budget := {| budget_memory_max_bytes := Some 1048576; budget_tasks_max := Some 8;
                    budget_cpu_quota_percent := None |};
  plan_execution_profile := ExecutionProfile.TrustedLocal;
  plan_execution_target := ExecutionTarget.LocalLinux;
  plan_windows_authority := WindowsAuthority.Limited;
  plan_windows_execution_context := None;
  plan_foreign_references := [];
  plan_input_set_id := Some "0123456789abcdef0123456789abcdef0123456789abcdef0123456789abcdef";
  plan_effective_inputs := [sample_input "objects/a" "data/a.txt"; sample_input "objects/b" "data/b"];
  plan_credential_set_id := None;
  plan_principal := "local-operator" |}.

Definition inputs_request : SubmitRequest := {|
  sub_schema_version := RUNTIME_SCHEMA_VERSION;
  sub_client_request_id := "request-9";
  sub_request_identity_digest := None;
  sub_execution_provider :=
    Some {| eps_contract := ExecutionProviderContract.LocalLinuxRunnerV1;
            eps_executable_digest := sample_digest; eps_wsl_distribution := None |};
  sub_runtime_release_effect := None;
  sub_host_dependencies := [{| hd_path := "/lib/a.so"; hd_expected_digest := sample_digest |};
                            {| hd_path := "/lib/b.so"; hd_expected_digest := other_digest |}];
  sub_plan := inputs_plan;
  sub_global_limit := 4 |}.

Lemma validate_submit_safe_witness :
  validate_submit inputs_request = Ok tt /\ safe_submission inputs_request.
Proof.
  assert (H : validate_submit inputs_request = Ok tt) by (vm_compute; reflexivity).
  split; [exact H | by apply (validate_submit_safe inputs_request)].
Defined.

Lemma presented_inputs_confined_witness :
  paths_disjoint "/run/inputs/data/a.txt" "/run/inputs/data/b".
Proof.
  assert (H : validate_submit inputs_request = Ok tt) by (vm_compute; reflexivity).
  pose proof (proj2 (presented_inputs_confined inputs_request "/run/inputs" H eq_refl)) as Hp.
  inversion Hp as [ | ? ? Hhead _]; subst. inversion Hhead; subst. done.
Defined.
