(* ===== verification/StoreSpec.v ===== *)
(** * Rows and owners

    Rows read back as they were written, and the Supervisor Owner of an Attempt
    is bound once. *)

From S2P Require Import Prelude Text Errors Types Supervisor Platform TestPlatform Validation.
From S2P Require Import Submit Store Transaction Projection Lifecycle Admission Preservation.
From S2P Require Import Recovery AdminRepair Registry StoreInvariant Scenario Safety History.
From S2P Require Import Refinement AdmissionSpec LifecycleSpec.

(** ** The row codec

    Rows hold enumerations as text.  Decoding ([RawJob::into_record],
    [RawAttempt::into_record], the end of [load_reservation]) and the bound
    parameters of the INSERT statements are inverse to each other, and any
    other text is refused. *)

#[local] Open Scope Z_scope.

(** One enumeration: its parser accepts exactly what its printer writes. *)
Class DbText {T : Type} (as_db : T -> string) (parse : string -> RuntimeResult T) : Prop :=
  parse_Ok : forall text x, parse text = Ok x <-> text = as_db x.

Ltac db_text :=
  intros text x; split;
  [ intros H; repeat case_match; simplify_eq;
    repeat match goal with H : String.eqb _ _ = true |- _ => apply String.eqb_eq in H; subst end;
    done
  | intros ->; by destruct x ].

#[export] Instance desired_state_text : DbText JobDesiredState.as_db JobDesiredState.parse.
Proof. unfold DbText, JobDesiredState.parse. db_text. Qed.
#[export] Instance resolution_text : DbText JobResolution.as_db JobResolution.parse.
Proof. unfold DbText, JobResolution.parse. db_text. Qed.
#[export] Instance attempt_state_text : DbText AttemptState.as_db AttemptState.parse.
Proof. unfold DbText, AttemptState.parse. db_text. Qed.
#[export] Instance termination_intent_text :
  DbText AttemptTerminationIntent.as_db AttemptTerminationIntent.parse.
Proof. unfold DbText, AttemptTerminationIntent.parse. db_text. Qed.
#[export] Instance reservation_state_text : DbText ReservationState.as_db ReservationState.parse.
Proof. unfold DbText, ReservationState.parse. db_text. Qed.

(** The optional resolution column. *)
Lemma parse_option_Ok {T} {as_db : T -> string} {parse} `{!DbText as_db parse} o x :
  match o with Some text => Some <$> parse text | None => Ok None end = Ok x
  <-> o = as_db <$> x.
Proof.
  destruct o as [text | ].
  - split.
    + intros (y & Hy & ->)%fmap_Ok_inv. apply parse_Ok in Hy as ->. done.
    + intros H. destruct x as [y | ]; [ | done]. injection H as Hy. apply parse_Ok in Hy. by rewrite Hy.
  - destruct x; split; done.
Qed.

(** stored rows are read back exactly.  A raw Job, Attempt or reservation
    row decodes to a record exactly when it is the row that storing this record
    writes: nothing is lost or confused on the way to the database and back,
    and a row with any unknown state, intent or resolution text is refused. *)
Theorem rows_decode_exactly :
  (forall raw job, raw_job_into_record raw = Ok job <-> raw = raw_of_job job)
  /\ (forall raw attempt, raw_attempt_into_record raw = Ok attempt <-> raw = raw_of_attempt attempt)
  /\ (forall raw reservation,
        raw_reservation_into_record raw = Ok reservation <-> raw = raw_of_reservation reservation).
Proof.
  split; [ | split]; intros raw record; split.
  - intros H. unfold raw_job_into_record in H.
    apply bind_Ok_inv in H as (s & Hs%parse_Ok & H).
    apply bind_Ok_inv in H as (r & Hr%parse_option_Ok & [= <-]). destruct raw. by simpl in *; subst.
  - intros ->. unfold raw_job_into_record. cbn [rj_desired_state rj_resolution raw_of_job].
    rewrite (proj2 (parse_Ok _ _) eq_refl). cbn [mbind result_bind].
    rewrite (proj2 (parse_option_Ok _ _) eq_refl). by destruct record.
  - intros H. unfold raw_attempt_into_record in H.
    apply bind_Ok_inv in H as (s & Hs%parse_Ok & H).
    apply bind_Ok_inv in H as (r & Hr%parse_Ok & [= <-]). destruct raw. by simpl in *; subst.
  - intros ->. unfold raw_attempt_into_record. cbn [ra_state ra_termination_intent raw_of_attempt].
    rewrite !(proj2 (parse_Ok _ _) eq_refl). by destruct record.
  - intros H. unfold raw_reservation_into_record in H.
    apply bind_Ok_inv in H as (s & Hs%parse_Ok & [= <-]). destruct raw. by simpl in *; subst.
  - intros ->. unfold raw_reservation_into_record. cbn [rr_state raw_of_reservation].
    rewrite (proj2 (parse_Ok _ _) eq_refl). by destruct record.
Qed.

(** ** Supervisor owners

    The owner of an Attempt is bound once, together with the move of the
    Attempt to running, and is what every later reader gets. *)

#[local] Open Scope Z_scope.

(** A bound owner is never replaced or removed. *)
Definition owner_rel (d d' : Db) : Prop :=
  forall k x, db_supervisor_owners d !! k = Some x -> db_supervisor_owners d' !! k = Some x.

#[export] Instance owner_rel_preorder : PreOrder owner_rel.
Proof. split; [by intros d k x | intros d1 d2 d3 H1 H2 k x Hk; auto]. Qed.

Lemma owner_rel_same d d' : db_supervisor_owners d' = db_supervisor_owners d -> owner_rel d d'.
Proof. intros He k x. by rewrite He. Qed.

Section owners.
Context `{P : Platform}.

Lemma tx_owner_update_attempts ctx k w s : tx_rel owner_rel (update_attempts ctx k w s).
Proof. apply tx_rel_update_attempts; [apply _ | ]. intros. by apply owner_rel_same. Qed.

Lemma tx_owner_update_jobs ctx k w s : tx_rel owner_rel (update_jobs ctx k w s).
Proof. apply tx_rel_update_jobs; [apply _ | ]. intros. by apply owner_rel_same. Qed.

Lemma tx_owner_append j a ty o ps ns rc dt at_ms :
  tx_rel owner_rel (append_event j a ty o ps ns rc dt at_ms).
Proof. intros d u d' H. apply append_event_inv in H as ->. by apply owner_rel_same. Qed.

Lemma tx_owner_release k at_ms reason : tx_rel owner_rel (release_reservation k at_ms reason).
Proof.
  intros d u d' H. apply release_reservation_inv in H as (res & _ & [[_ ->] | [_ ->]]);
    by apply owner_rel_same.
Qed.

Lemma tx_owner_hold k at_ms reason : tx_rel owner_rel (hold_orphaned_reservation k at_ms reason).
Proof.
  intros d u d' H. apply hold_orphaned_reservation_inv in H as (res & _ & _ & ->).
  by apply owner_rel_same.
Qed.

Lemma tx_owner_artifacts a at_ms message artifacts :
  tx_rel owner_rel (insert_artifacts a at_ms message artifacts).
Proof. intros d u d' H. apply insert_artifacts_inv in H as [m ->]. by apply owner_rel_same. Qed.

Lemma tx_owner_check_capacity request : tx_rel owner_rel (check_capacity request).
Proof. intros d u d' H. by apply check_capacity_inv in H as [-> _]. Qed.

Lemma tx_owner_insert violated ctx set :
  (forall d, db_supervisor_owners (set d) = db_supervisor_owners d) ->
  tx_rel owner_rel (insert_unless violated ctx set).
Proof. intros Hs d u d' H. apply insert_unless_inv in H as [_ ->]. by apply owner_rel_same. Qed.

Lemma insert_owner_Ok k j g d u d' :
  insert_supervisor_owner k j g d = Ok (u, d') ->
  db_supervisor_owners d !! k = None
  /\ d' = set_db_supervisor_owners (<[k := (j, g)]> (db_supervisor_owners d)) d.
Proof.
  unfold insert_supervisor_owner. destruct (db_supervisor_owners d !! k); [done | ].
  by intros [= _ <-].
Qed.

Lemma tx_owner_insert_owner k j g : tx_rel owner_rel (insert_supervisor_owner k j g).
Proof.
  intros d u d' [Hnew ->]%insert_owner_Ok k' x Hk. simpl.
  rewrite lookup_insert_ne; [done | ]. intros ->. congruence.
Qed.

Hint Resolve tx_owner_update_attempts tx_owner_update_jobs tx_owner_append tx_owner_release
  tx_owner_hold tx_owner_artifacts tx_owner_check_capacity tx_owner_insert_owner : ordivon.
Hint Extern 0 (tx_rel owner_rel (insert_unless _ _ _)) =>
  apply tx_owner_insert; done : ordivon.
Hint Extern 0 (tx_rel owner_rel (insert_job _)) => apply tx_owner_insert; done : ordivon.
Hint Extern 0 (tx_rel owner_rel (insert_attempt _)) => apply tx_owner_insert; done : ordivon.

Lemma registry_body_owner d d' : registry_body d d' -> owner_rel d d'.
Proof. intros Hb. destruct Hb; try destruct operation; registry_body_auto. Qed.

Lemma run_owner d d' : rtc registry_step d d' -> owner_rel d d'.
Proof.
  induction 1 as [ | d1 d2 d3 Hs _ IH]; [done | ].
  etrans; [apply (step_rel owner_rel registry_body_owner _ _ Hs) | done].
Qed.

(** The row of an Attempt whose owner was bound. *)
Definition owned_row (owner : AttemptSupervisorOwner) (observed_at_ms : Z) (row : AttemptRow)
    : AttemptRow :=
  on_attempt (fun a =>
    bump_attempt
      (set_att_state (owner_bound_state (att_state a))
      (set_att_runner_start_digest (Some (start_evidence_digest owner))
      (set_att_started_at_ms (Some (default observed_at_ms (att_started_at_ms a))) a)))) row.

Definition owner_columns (owner : AttemptSupervisorOwner) : string * string :=
  (owner_to_json owner, sha256_bytes (owner_to_json owner)).

Lemma bind_owner_run k v owner at_ms d row :
  db_attempts d !! k = Some row -> db_supervisor_owners d !! k = None ->
  owner_bindable (att_state (row_attempt row)) = true ->
  att_row_version (row_attempt row) = v ->
  exists d', bind_supervisor_owner_tx k v owner at_ms d
     = Ok (commit_or_fail "cannot commit Attempt Supervisor Owner" (query (load_attempt k)), d')
    /\ db_attempts d' = <[k := owned_row owner at_ms row]> (db_attempts d)
    /\ db_supervisor_owners d' !! k = Some (owner_columns owner).
Proof.
  intros Hk Hnone Hb Hv. eexists. unfold bind_supervisor_owner_tx. cbv zeta. split.
  - erewrite tx_bind_run by (by apply load_attempt_run).
    erewrite tx_bind_run by reflexivity. rewrite Hnone.
    erewrite tx_bind_run by (apply reject_run; by rewrite Hb, Hv, bool_decide_eq_true_2).
    erewrite tx_bind_run by (unfold insert_supervisor_owner; rewrite Hnone; reflexivity).
    erewrite tx_bind_run by (apply update_attempts_hit; [done
      | cbn; by rewrite Hv, bool_decide_eq_true_2
      | simpl; by destruct (att_state (row_attempt row))]).
    erewrite tx_bind_run by reflexivity. reflexivity.
  - split; [done | ]. simpl. by rewrite lookup_insert_eq.
Qed.

(** a Supervisor Owner is bound once and read back for good.  On a healthy
    connection a valid owner presented for a dispatched Attempt without one, at
    its current row version, is always bound: the answer is the Attempt with
    the start evidence of that owner, running unless a stop was asked for; and
    after any further run of the Registry [attempt_supervisor_owner] returns
    exactly that owner. *)
Theorem owner_bound_and_read_back `{!PlatformLaws P} k v owner at_ms d row :
  db_attempts d !! k = Some row -> db_supervisor_owners d !! k = None ->
  owner_bindable (att_state (row_attempt row)) = true -> att_row_version (row_attempt row) = v ->
  validate_attempt_supervisor_owner owner = Ok tt ->
  exists d', bind_supervisor_owner io_ok k v owner at_ms d
             = (Ok (row_attempt (owned_row owner at_ms row)), d')
    /\ db_attempts d' !! k = Some (owned_row owner at_ms row)
    /\ forall d2 io, rtc registry_step d' d2 -> io_open io = None ->
         attempt_supervisor_owner io k d2 = Ok (Some owner).
Proof.
  intros Hk Hnone Hb Hv Hvalid.
  destruct (bind_owner_run k v owner at_ms d row Hk Hnone Hb Hv) as (d' & Hrun & Ha & Ho).
  exists d'. assert (Hk' : db_attempts d' !! k = Some (owned_row owner at_ms row))
    by (by rewrite Ha, lookup_insert_eq).
  split; [ | split; [done | ]].
  - unfold bind_supervisor_owner, checked. rewrite Hvalid. unfold immediate.
    rewrite (with_tx_ok _ _ _ _ _ _ _ Hrun). unfold query. by rewrite (load_attempt_run _ _ _ Hk').
  - intros d2 io Hsteps Hopen. pose proof (run_owner _ _ Hsteps _ _ Ho) as Ho2.
    unfold attempt_supervisor_owner, with_connection, query, attempt_supervisor_owner_tx.
    rewrite Hopen. erewrite tx_bind_run by reflexivity. rewrite Ho2. unfold owner_columns.
    erewrite tx_bind_run by (apply reject_run; by rewrite String.eqb_refl).
    erewrite tx_bind_run by (apply lift_run; by rewrite owner_json_roundtrip).
    erewrite tx_bind_run by (by apply lift_run). reflexivity.
Qed.
End owners.

Definition sample_owner : AttemptSupervisorOwner :=
  WindowsLauncherV1 4242 1337 sample_digest "Ordivon.job-1" other_digest.

Lemma owner_bound_and_read_back_witness :
  exists d', snd (bind_supervisor_owner io_ok "attempt-1" 2 sample_owner 30 dispatched_db) = d'
    /\ attempt_supervisor_owner io_ok "attempt-1" d' = Ok (Some sample_owner).
Proof.
  destruct (db_attempts dispatched_db !! "attempt-1"%string) as [row | ] eqn:Hrow;
    [ | exfalso; revert Hrow; vm_compute; discriminate].
  assert (Hv : (fun row => (owner_bindable (att_state (row_attempt row)),
                            att_row_version (row_attempt row)))
               <$> db_attempts dispatched_db !! "attempt-1"%string = Some (true, 2))
    by (vm_compute; reflexivity).
  rewrite Hrow in Hv. injection Hv as Hb Hv.
  assert (Hnone : db_supervisor_owners dispatched_db !! "attempt-1"%string = None)
    by (vm_compute; reflexivity).
  assert (Hvalid : validate_attempt_supervisor_owner sample_owner = Ok tt)
    by (vm_compute; reflexivity).
  destruct (owner_bound_and_read_back "attempt-1" 2 sample_owner 30 dispatched_db row
              Hrow Hnone Hb Hv Hvalid) as (d' & Hbind & _ & Hread).
  exists d'. split; [by rewrite Hbind | by apply (Hread d' io_ok)].
Defined.
