(* ===== verification/Query.v ===== *)
(** * Queries

    [runtime/registry/query.rs]: the reads of the Registry.  The side truth of
    a Job is returned only after it is checked against the commitments in the
    Job's own row; Jobs are listed newest first, one page at a time. *)

From S2P Require Import Prelude Text Errors Types Supervisor Platform Validation Submit Store.
From S2P Require Import Transaction Projection Admission Recovery.

#[local] Open Scope Z_scope.

(** ** Path text *)

Definition trivial_segment (segment : string) : bool :=
  String.eqb segment "" || String.eqb segment ".".

Fixpoint skip_trivial (segments : list string) : list string :=
  match segments with
  | s :: rest => if trivial_segment s then skip_trivial rest else segments
  | [] => []
  end.

Definition trim_trailing (segments : list string) : list string :=
  rev (skip_trivial (rev segments)).

(** What is left of the segments of a path after [n] components. *)
Fixpoint drop_components (n : nat) (segments : list string) : list string :=
  match n, segments with
  | O, _ => segments
  | S _, [] => []
  | S n', s :: rest => if trivial_segment s then drop_components n rest
                       else drop_components n' rest
  end.

(** [Path::strip_prefix(..).to_str()]: the text of the path after the prefix,
    separators and inner [.] segments as written, trimmed at both ends. *)
Definition path_strip_prefix (path base : string) : option string :=
  let segments := split_on slash path in
  let tail l := join "/" (trim_trailing (skip_trivial l)) in
  _ ← components_strip_prefix (components base) (components path);
  Some match components base, segments with
       | [], first :: rest =>
           if is_absolute path || String.eqb first "."
           then match trim_trailing rest with
                | [] => if is_absolute path then "/" else "."
                | body => first +:+ "/" +:+ join "/" body
                end
           else join "/" (trim_trailing segments)
       | [], [] => ""
       | RootDir :: body, _ | CurDir :: body, _ =>
           tail (drop_components (length body) (tl segments))
       | body, _ => tail (drop_components (length body) segments)
       end.

(** ** Commitments

    The digests of a Job's side truth are fields of its Workspace snapshot. *)

Record SideTruth : Type := {
  st_label : string;
  st_missing : string;
  st_key : string;
  st_field : string;
}.

Definition provider_truth : SideTruth := {|
  st_label := "execution provider"; st_missing := "Job execution provider";
  st_key := "executionProviderDigest"; st_field := "executionProvider" |}.
Definition host_truth : SideTruth := {|
  st_label := "Host Dependency"; st_missing := "Host Dependency";
  st_key := "hostDependenciesDigest"; st_field := "hostDependencies" |}.
Definition release_truth : SideTruth := {|
  st_label := "Runtime Release"; st_missing := "Runtime Release";
  st_key := "runtimeReleaseEffectDigest"; st_field := "runtimeReleaseEffect" |}.

Definition registry_corrupt (message field : string) : RuntimeError :=
  error_new RegistryCorrupt message (Some field) false.

(** [Value::get] *)
Fixpoint assoc (key : string) (fields : list (string * Json)) : option Json :=
  match fields with
  | [] => None
  | (k, v) :: rest => if String.eqb key k then Some v else assoc key rest
  end.

Definition json_get (key : string) (value : Json) : option Json :=
  match value with JObj fields => assoc key fields | _ => None end.

(** The [match workspace_snapshot.get(..)] *)
Definition committed_digest (side : SideTruth) (workspace_snapshot : Json)
    : RuntimeResult (option string) :=
  let field := "workspaceSnapshot." +:+ st_key side in
  match json_get (st_key side) workspace_snapshot with
  | None => Ok None
  | Some (JStr value) =>
      match validate_digest value (st_key side) with
      | Ok _ => Ok (Some value)
      | Err _ => Err (registry_corrupt
                        ("stored " +:+ st_label side +:+ " commitment digest is invalid") field)
      end
  | Some _ =>
      Err (registry_corrupt ("stored " +:+ st_label side +:+ " commitment digest is not text")
             field)
  end.

(** The [match (committed_digest, row)]: the row and its digest agree with the
    commitment, or both are absent. *)
Definition match_commitment {A} (side : SideTruth) (digest_of : A -> string)
    (committed : option string) (row : option A) : RuntimeResult (option A) :=
  match committed, row with
  | None, None => Ok None
  | None, Some _ =>
      Err (registry_corrupt (st_label side +:+ " row exists without a committed Job marker")
             (st_field side))
  | Some _, None =>
      Err (registry_corrupt ("committed " +:+ st_missing side +:+ " row is missing")
             (st_field side))
  | Some digest, Some row =>
      if String.eqb digest (digest_of row) then Ok (Some row)
      else Err (registry_corrupt
                  (st_label side +:+ " row digest does not match the Job commitment")
                  (st_field side))
  end.

Section query.
Context `{P : Platform}.

Definition parse_workspace_snapshot (job : RuntimeJobRecord) : RuntimeResult Json :=
  map_err (fun text => registry_corrupt ("stored Workspace snapshot is invalid: " +:+ text)
                         "workspaceSnapshot")
    (json_of_string (job_workspace_snapshot_json job)).

Definition parse_execution_plan (job : RuntimeJobRecord) : RuntimeResult RuntimeExecutionPlan :=
  map_err (fun text => registry_corrupt ("stored execution plan is invalid: " +:+ text)
                         "executionPlan")
    (plan_of_json (job_execution_plan_json job)).

(** [expected_operation_digest] of a Job with an execution provider. *)
Definition expected_operation_digest (job : RuntimeJobRecord) (committed : string)
    (host release : option string) : RuntimeResult string :=
  let parts := [job_request_digest job; job_execution_plan_digest job; committed] in
  match host, release with
  | Some host_digest, None =>
      Ok (sha256_bytes (nul_joined ("runtime-operation-v6" :: parts ++ [host_digest])))
  | None, Some release_digest =>
      Ok (sha256_bytes (nul_joined ("runtime-operation-v5" :: parts ++ [release_digest])))
  | None, None => Ok (sha256_bytes (nul_joined ("runtime-operation-v4" :: parts)))
  | Some _, Some _ =>
      Err (registry_corrupt
             "Job cannot bind both Host Dependencies and Runtime Release side truth"
             "hostDependencies")
  end.

(** The snapshot text of a provider row, decoded and checked. *)
Definition decode_provider (row : string * string) : RuntimeResult ExecutionProviderSnapshot :=
  let '(snapshot_json, snapshot_digest) := row in
  fail_if (negb (String.eqb (sha256_bytes snapshot_json) snapshot_digest))
    (registry_corrupt "stored execution provider snapshot digest does not match its bytes"
       "executionProvider") ;;
  snapshot ← map_err (fun text => registry_corrupt
                ("stored execution provider snapshot is invalid: " +:+ text) "executionProvider")
               (provider_of_json snapshot_json);
  map_err (fun e => registry_corrupt
             ("stored execution provider snapshot violates its contract: " +:+ error_to_string e)
             "executionProvider")
    (validate_execution_provider_snapshot snapshot "executionProvider") ;;
  Ok snapshot.

Definition execution_provider_tx (job_id : string) : tx (option ExecutionProviderSnapshot) :=
  job ← load_job job_id;
  workspace_snapshot ← lift (parse_workspace_snapshot job);
  committed ← lift (committed_digest provider_truth workspace_snapshot);
  host_committed ← lift (committed_digest host_truth workspace_snapshot);
  host_row ← read (fun d => snd <$> db_host_dependencies d !! job_id);
  host_digest ← lift (match_commitment host_truth (fun digest => digest) host_committed host_row);
  release_committed ← lift (committed_digest release_truth workspace_snapshot);
  release_row ← read (fun d => rer_binding_digest <$> db_release_effects d !! job_id);
  release_digest ← lift (match_commitment release_truth (fun digest => digest)
                           release_committed release_row);
  row ← read (fun d => db_execution_providers d !! job_id);
  row ← lift (match_commitment provider_truth snd committed row);
  match row with
  | None => mret None
  | Some row =>
      expected ← lift (expected_operation_digest job row.2 host_digest release_digest);
      reject_if (negb (String.eqb (job_operation_digest job) expected))
        (registry_corrupt "execution provider commitment does not match the Job operation identity"
           "executionProvider") ;;
      lift (Some <$> decode_provider row)
  end.

Definition execution_provider (io : TxIo) (job_id : string) (d : Db)
    : RuntimeResult (option ExecutionProviderSnapshot) :=
  with_connection io (execution_provider_tx job_id) d.

(** The bindings text of a Host Dependency row, decoded and checked. *)
Definition decode_host_dependencies (row : string * string)
    : RuntimeResult (list HostDependencyBinding) :=
  let '(json, digest) := row in
  fail_if (negb (String.eqb (sha256_bytes json) digest))
    (registry_corrupt "stored Host Dependency digest does not match its bytes"
       "hostDependencies") ;;
  bindings ← map_err (fun text => registry_corrupt
                ("stored Host Dependency bindings are invalid: " +:+ text) "hostDependencies")
               (host_dependencies_of_json json);
  map_err (fun e => registry_corrupt
             ("stored Host Dependency bindings violate their contract: " +:+ error_to_string e)
             "hostDependencies")
    (validate_host_dependency_bindings bindings "hostDependencies") ;;
  Ok bindings.

Definition host_dependencies_tx (job_id : string) : tx (list HostDependencyBinding) :=
  job ← load_job job_id;
  workspace_snapshot ← lift (parse_workspace_snapshot job);
  committed ← lift (committed_digest host_truth workspace_snapshot);
  row ← read (fun d => db_host_dependencies d !! job_id);
  row ← lift (match_commitment host_truth snd committed row);
  match row with
  | None => mret []
  | Some row => lift (decode_host_dependencies row)
  end.

Definition host_dependencies (io : TxIo) (job_id : string) (d : Db)
    : RuntimeResult (list HostDependencyBinding) :=
  with_connection io (host_dependencies_tx job_id) d.

(** The columns of a Runtime Release row, checked against their digest. *)
Definition decode_release (row : ReleaseEffectRow) : RuntimeResult RuntimeReleaseEffectBinding :=
  fail_if (negb (String.eqb (rer_contract row) "runtime_release_v1"))
    (registry_corrupt "stored Runtime Release contract is unsupported"
       "runtimeReleaseEffect.contract") ;;
  let binding :=
    {| rel_contract := RuntimeReleaseContract.RuntimeReleaseV1;
       rel_effect_id := rer_effect_id row;
       rel_request_digest := rer_request_digest row;
       rel_workspace_id := rer_workspace_id row;
       rel_commit := rer_commit_revision row;
       rel_candidate_manifest_digest := rer_candidate_manifest_digest row;
       rel_expected_tool_count := rer_expected_tool_count row;
       rel_receipt_path := rer_receipt_path row |} in
  fail_if (negb (String.eqb (sha256_bytes (release_to_json binding)) (rer_binding_digest row)))
    (registry_corrupt "stored Runtime Release effect digest does not match side truth"
       "runtimeReleaseEffect") ;;
  Ok binding.

Definition runtime_release_effect_tx (job_id : string)
    : tx (option RuntimeReleaseEffectBinding) :=
  job ← load_job job_id;
  workspace_snapshot ← lift (parse_workspace_snapshot job);
  committed ← lift (committed_digest release_truth workspace_snapshot);
  row ← read (fun d => db_release_effects d !! job_id);
  row ← lift (match_commitment release_truth rer_binding_digest committed row);
  match row with
  | None => mret None
  | Some row => lift (Some <$> decode_release row)
  end.

Definition runtime_release_effect_for_job (io : TxIo) (job_id : string) (d : Db)
    : RuntimeResult (option RuntimeReleaseEffectBinding) :=
  with_connection io (runtime_release_effect_tx job_id) d.

(** [SELECT j.job_id FROM jobs j JOIN job_runtime_release_effects r ...] *)
Definition release_job_id (principal client_request_id : string) (d : Db) : option string :=
  head (omap (fun kv =>
          if String.eqb (job_principal kv.2) principal
             && String.eqb (job_client_request_id kv.2) client_request_id
             && present (db_release_effects d !! kv.1)
          then Some kv.1 else None) (map_to_list (db_jobs d))).

(** The lookup and the side truth are read on two connections: [d0], [d]. *)
Definition find_runtime_release_effect (io0 io : TxIo) (principal client_request_id : string)
    (d0 d : Db) : RuntimeResult (option (RuntimeJobRecord * RuntimeReleaseEffectBinding)) :=
  validate_identifier principal "principal" ;;
  validate_client_request_id client_request_id "clientRequestId" ;;
  found ← with_connection io0
            (job_id ← read (release_job_id principal client_request_id);
             match job_id with
             | Some job_id => job ← load_job job_id; mret (Some (job_id, job))
             | None => mret None
             end) d0;
  match found with
  | None => Ok None
  | Some (job_id, job) =>
      release ← runtime_release_effect_for_job io job_id d;
      release ← ok_or (registry_corrupt "Runtime Release Job lost its side truth"
                         "runtimeReleaseEffect") release;
      Ok (Some (job, release))
  end.

(** ** Rows *)

Definition get_job (io : TxIo) (job_id : string) (d : Db) : RuntimeResult RuntimeJobRecord :=
  with_connection io (load_job job_id) d.

Definition get_attempt (io : TxIo) (attempt_id : string) (d : Db) : RuntimeResult AttemptRecord :=
  with_connection io (load_attempt attempt_id) d.

Definition get_reservation (io : TxIo) (attempt_id : string) (d : Db)
    : RuntimeResult ReservationRecord :=
  with_connection io (load_reservation attempt_id) d.

Definition get_latest_attempt (io : TxIo) (job_id : string) (d : Db)
    : RuntimeResult (option AttemptRecord) :=
  with_connection io
    (attempt_id ← read (fun d => latest_attempt_id job_id (db_attempts d));
     match attempt_id with
     | Some attempt_id => attempt ← load_attempt attempt_id; mret (Some attempt)
     | None => mret None
     end) d.

Definition get_artifact (io : TxIo) (job_id artifact_id : string) (d : Db)
    : RuntimeResult RuntimeArtifactRecord :=
  with_connection io
    (row ← read (fun d => db_artifacts d !! artifact_id);
     lift (ok_or (error_new ArtifactIdentityConflict "Artifact not found for Job"
                    (Some "artifactId") false)
             (artifact ← row;
              if String.eqb (art_job_id artifact) job_id then Some artifact else None))) d.

Definition job_snapshot (io : TxIo) (job_id : string) (d : Db) : RuntimeResult JobSnapshot :=
  with_connection io (load_job_snapshot_in job_id) d.

Definition execution_plan (io : TxIo) (job_id : string) (d : Db)
    : RuntimeResult RuntimeExecutionPlan :=
  job ← get_job io job_id d;
  parse_execution_plan job.

(** [ORDER BY created_at_ms,artifact_id] *)
Definition artifact_le (x y : RuntimeArtifactRecord) : bool :=
  (art_created_at_ms x <? art_created_at_ms y)
  || ((art_created_at_ms x =? art_created_at_ms y)
      && String.leb (art_artifact_id x) (art_artifact_id y)).

Definition list_artifacts (io : TxIo) (job_id : string) (d : Db)
    : RuntimeResult (list RuntimeArtifactRecord) :=
  with_connection io
    (read (fun d => order_by artifact_le
       (List.filter (fun a => String.eqb (art_job_id a) job_id)
          (map snd (map_to_list (db_artifacts d)))))) d.

(** [list_nonterminal_attempts] *)
Definition list_nonterminal_attempts (io : TxIo) (d : Db) : RuntimeResult (list AttemptRecord) :=
  with_connection io
    (read (fun d => map (fun kv => row_attempt kv.2)
       (order_by age_le
          (List.filter (fun kv => negb (AttemptState.is_terminal (att_state (row_attempt kv.2))))
             (map_to_list (db_attempts d)))))) d.

(** [active_reservation_count] *)
Definition active_reservation_count (io : TxIo) (d : Db) : RuntimeResult Z :=
  with_connection io (read global_active) d.

(** ** Listings *)

(** [ORDER BY created_at_ms DESC,job_id DESC] *)
Definition newest_le (x y : RuntimeJobRecord) : bool :=
  (job_created_at_ms y <? job_created_at_ms x)
  || ((job_created_at_ms y =? job_created_at_ms x)
      && String.leb (job_job_id y) (job_job_id x)).

Definition jobs_newest_first (where_ : RuntimeJobRecord -> bool) (d : Db)
    : list RuntimeJobRecord :=
  order_by newest_le (List.filter where_ (map snd (map_to_list (db_jobs d)))).

(** A Job in progress, or one whose Attempt still holds capacity. *)
Definition job_active (d : Db) (job : RuntimeJobRecord) : bool :=
  negb (present (job_resolution job))
  || existsb (fun kv =>
        String.eqb (att_job_id (row_attempt kv.2)) (job_job_id job)
        && match db_reservations d !! kv.1 with
           | Some res => live_reservation (row_reservation res)
           | None => false
           end) (map_to_list (db_attempts d)).

Definition active_job_ids_for_workspace (io : TxIo) (workspace_id : string) (d : Db)
    : RuntimeResult (list string) :=
  with_connection io
    (read (fun d => map job_job_id
       (jobs_newest_first (fun job => String.eqb (job_workspace_id job) workspace_id
                                      && job_active d job) d))) d.

(** [ORDER BY a.created_at_ms DESC,a.attempt_id DESC] *)
Definition newest_attempt_le (x y : string * AttemptRow) : bool := age_le y x.

(** The JOINs and WHERE of [list_workspace_reconciliation_attempts]. *)
Definition workspace_attempt (workspace_id : string) (d : Db) (kv : string * AttemptRow) : bool :=
  match db_jobs d !! att_job_id (row_attempt kv.2), db_reservations d !! kv.1 with
  | Some job, Some res =>
      String.eqb (job_workspace_id job) workspace_id
      && ((job_current_attempt_id job == Some kv.1) || live_reservation (row_reservation res))
  | _, _ => false
  end.

Definition list_workspace_reconciliation_attempts (io : TxIo) (workspace_id : string) (limit : Z)
    (d : Db) : RuntimeResult (list AttemptRecord) :=
  fail_if (limit =? 0) (invalid "limit must be positive" "limit") ;;
  with_connection io
    (read (fun d => map (fun kv => row_attempt kv.2)
       (take (Z.to_nat limit) (order_by newest_attempt_le
          (List.filter (workspace_attempt workspace_id d) (map_to_list (db_attempts d))))))) d.

(** [created_at_ms<?3 OR (created_at_ms=?3 AND job_id<?4)] *)
Definition after_cursor (cursor : RuntimeJobListCursor) (job : RuntimeJobRecord) : bool :=
  (job_created_at_ms job <? jlc_created_at_ms cursor)
  || ((job_created_at_ms job =? jlc_created_at_ms cursor)
      && String.ltb (job_job_id job) (jlc_job_id cursor)).

Definition option_holds {A} (f : A -> bool) (o : option A) : bool :=
  match o with Some x => f x | None => true end.

(** The filters of a listing, without its cursor. *)
Definition listed (request : RuntimeJobListRequest) (job : RuntimeJobRecord) : bool :=
  option_holds (String.eqb (job_client_request_id job)) (jlr_client_request_id request)
  && option_holds (String.eqb (job_workspace_id job)) (jlr_workspace_id request).

(** The WHERE of the eight statements. *)
Definition list_where (request : RuntimeJobListRequest) (job : RuntimeJobRecord) : bool :=
  listed request job
  && option_holds (fun cursor => after_cursor cursor job) (jlr_cursor request).

Definition cursor_of (job : RuntimeJobRecord) : RuntimeJobListCursor :=
  {| jlc_created_at_ms := job_created_at_ms job; jlc_job_id := job_job_id job |}.

(** The page: the rows up to the limit, and the cursor of the last one when a
    further row was fetched. *)
Definition page_of (limit : Z) (rows : list RuntimeJobRecord)
    : list RuntimeJobRecord * option RuntimeJobListCursor :=
  let has_more := limit <? Z.of_nat (length rows) in
  let jobs := take (Z.to_nat limit) rows in
  (jobs, if has_more then cursor_of <$> last jobs else None).

Definition fetch_page (request : RuntimeJobListRequest) (d : Db)
    : list RuntimeJobRecord * option RuntimeJobListCursor :=
  page_of (jlr_limit request)
    (take (Z.to_nat (jlr_limit request + 1)) (jobs_newest_first (list_where request) d)).

Definition executable_name_of (executable : string) : string :=
  default executable (file_name executable).

Definition cwd_relative_of (plan : RuntimeExecutionPlan) : string :=
  match path_strip_prefix (plan_cwd plan) (plan_workspace_path plan) with
  | Some "" | None => "."
  | Some path => path
  end.

(** [u64::saturating_sub] *)
Definition saturating_sub (x y : Z) : Z := Z.max 0 (x - y).

Definition job_artifact_count (job_id : string) (d : Db) : Z :=
  Z.of_nat (length (List.filter (fun kv => String.eqb (art_job_id kv.2) job_id)
                      (map_to_list (db_artifacts d)))).

Definition summary_of (observed_at_ms : Z) (job : RuntimeJobRecord)
    (attempt : option AttemptRecord) (projection : JobProjection) (plan : RuntimeExecutionPlan)
    (artifact_count : Z) : RuntimeJobSummary :=
  let started_at_ms := attempt ≫= att_started_at_ms in
  let finished_at_ms := attempt ≫= att_finished_at_ms in
  {| js_job_id := job_job_id job;
     js_operation_digest := job_operation_digest job;
     js_status := jp_status projection;
     js_desired_state := jp_desired_state projection;
     js_attempt_id := jp_attempt_id projection;
     js_attempt_state := jp_attempt_state projection;
     js_termination_intent := jp_termination_intent projection;
     js_exit_code := jp_exit_code projection;
     js_execution_terminal := jp_execution_terminal projection;
     js_execution_disposition := jp_execution_disposition projection;
     js_execution_reason_code := jp_execution_reason_code projection;
     js_delivery_disposition := jp_delivery_disposition projection;
     js_recovery_required := jp_recovery_required projection;
     js_semantic_completion_evaluated := jp_semantic_completion_evaluated projection;
     js_client_request_id := job_client_request_id job;
     js_workspace_id := job_workspace_id job;
     js_source_revision := plan_source_revision plan;
     js_executable_name := executable_name_of (plan_executable plan);
     js_cwd_relative := cwd_relative_of plan;
     js_created_at_ms := job_created_at_ms job;
     js_started_at_ms := started_at_ms;
     js_finished_at_ms := finished_at_ms;
     js_duration_ms := saturating_sub (default observed_at_ms finished_at_ms)
                         (default (job_created_at_ms job) started_at_ms);
     js_result_available := jp_result_available projection;
     js_artifacts_available := jp_artifacts_available projection;
     js_artifact_count := artifact_count;
     js_poll_after_ms := jp_poll_after_ms projection |}.

(** The body of the loop over the page. *)
Definition summarize (observed_at_ms : Z) (job : RuntimeJobRecord) : tx RuntimeJobSummary :=
  row ← snapshot_attempt job;
  artifact_count ← read (job_artifact_count (job_job_id job));
  execution_reason_code ← read (fun d =>
    job_execution_reason_code (job_job_id job) (present (job_resolution job)) (db_events d));
  let projection :=
    project_job job (row_attempt <$> row)
      (match row with Some row => attempt_recovery_condition_active row | None => false end)
      (0 <? artifact_count) execution_reason_code in
  plan ← lift (parse_execution_plan job);
  mret (summary_of observed_at_ms job (row_attempt <$> row) projection plan artifact_count).

Definition list_jobs_tx (now : RuntimeResult Z) (request : RuntimeJobListRequest)
    : tx (flow RuntimeJobListResult) :=
  page ← read (fetch_page request);
  observed_at_ms ← lift now;
  summaries ← mapM (summarize observed_at_ms) (fst page);
  mret (commit_or_fail "cannot close Job list read snapshot"
          (fun _ => Ok {| jl_jobs := summaries; jl_next_cursor := snd page |})).

Definition validate_list_request (request : RuntimeJobListRequest) : RuntimeResult unit :=
  fail_if ((jlr_limit request =? 0) || (MAX_RUNTIME_LIST_LIMIT <? jlr_limit request))
    (invalid ("limit must be in 1..=" +:+ pretty MAX_RUNTIME_LIST_LIMIT) "limit") ;;
  match jlr_client_request_id request with
  | Some client_request_id => validate_client_request_id client_request_id "clientRequestId"
  | None => Ok tt
  end ;;
  match jlr_workspace_id request with
  | Some workspace_id => validate_identifier workspace_id "workspaceId"
  | None => Ok tt
  end.

Definition list_jobs (io : TxIo) (now : RuntimeResult Z) (request : RuntimeJobListRequest) (d : Db)
    : RuntimeResult RuntimeJobListResult :=
  validate_list_request request ;;
  fst (with_tx io (fun e => from_sql e "cannot begin Job list read snapshot")
         (list_jobs_tx now request) d).
End query.
