(* ===== verification/SideTruth.v ===== *)
(** * Side truth

    Every stored Job comes from one validated request: its columns, its
    execution plan and the rows of its side truth are that request's, and the
    reads of [Query] return exactly what was submitted. *)

From S2P Require Import Prelude Text Errors Types Supervisor Platform TestPlatform Validation.
From S2P Require Import Submit Store Transaction Projection Lifecycle Admission Preservation.
From S2P Require Import Recovery AdminRepair Registry StoreInvariant Scenario Safety History.
From S2P Require Import Refinement AdmissionSpec LifecycleSpec Query.

#[local] Open Scope Z_scope.
#[local] Arguments sha256_bytes {P} text : simpl never.

(** ** What a body keeps *)

(** The side tables are the same, and every Job keeps its identity. *)
Record kept (d d' : Db) : Prop := {
  kept_providers : db_execution_providers d' = db_execution_providers d;
  kept_hosts : db_host_dependencies d' = db_host_dependencies d;
  kept_releases : db_release_effects d' = db_release_effects d;
  kept_jobs : forall k, option_Forall2 same_job_identity (db_jobs d !! k) (db_jobs d' !! k);
}.

#[export] Instance kept_preorder : PreOrder kept.
Proof.
  split; [intros d; split; try done; intros k; reflexivity | ].
  intros d1 d2 d3 [] []. split; try congruence. intros k. etrans; eauto.
Qed.

Lemma kept_same d d' :
  db_execution_providers d' = db_execution_providers d ->
  db_host_dependencies d' = db_host_dependencies d ->
  db_release_effects d' = db_release_effects d -> db_jobs d' = db_jobs d -> kept d d'.
Proof. intros ? ? ? Hj. split; try done. intros k. by rewrite Hj. Qed.

Section bodies.
Context `{P : Platform}.

Lemma tx_kept_update_attempts ctx k w s : tx_rel kept (update_attempts ctx k w s).
Proof. apply tx_rel_update_attempts; [apply _ | ]. intros. by apply kept_same. Qed.

Lemma tx_kept_update_jobs ctx k w s :
  (forall job, same_job_identity job (s job)) -> tx_rel kept (update_jobs ctx k w s).
Proof.
  intros Hs. apply tx_rel_update_jobs; [apply _ | ]. intros d job Hk _ _. split; try done.
  intros k'. simpl. destruct (decide (k' = k)) as [-> | Hne].
  - rewrite Hk, lookup_insert_eq. by constructor.
  - by rewrite lookup_insert_ne.
Qed.

Lemma tx_kept_append j a ty o ps ns rc dt at_ms :
  tx_rel kept (append_event j a ty o ps ns rc dt at_ms).
Proof. intros d u d' H. apply append_event_inv in H as ->. by apply kept_same. Qed.

Lemma tx_kept_release k at_ms reason : tx_rel kept (release_reservation k at_ms reason).
Proof.
  intros d u d' H. apply release_reservation_inv in H as (res & _ & [[_ ->] | [_ ->]]);
    by apply kept_same.
Qed.

Lemma tx_kept_hold k at_ms reason : tx_rel kept (hold_orphaned_reservation k at_ms reason).
Proof.
  intros d u d' H. apply hold_orphaned_reservation_inv in H as (res & _ & _ & ->).
  by apply kept_same.
Qed.

Lemma tx_kept_artifacts a at_ms message artifacts :
  tx_rel kept (insert_artifacts a at_ms message artifacts).
Proof. intros d u d' H. apply insert_artifacts_inv in H as [m ->]. by apply kept_same. Qed.

Lemma tx_kept_insert_owner k j g : tx_rel kept (insert_supervisor_owner k j g).
Proof.
  intros d u d' H. unfold insert_supervisor_owner in H.
  destruct (db_supervisor_owners d !! k); [done | ]. injection H as _ <-. by apply kept_same.
Qed.

Hint Resolve tx_kept_update_attempts tx_kept_append tx_kept_release tx_kept_hold
  tx_kept_artifacts tx_kept_insert_owner : ordivon.
Hint Extern 1 (tx_rel kept (update_jobs _ _ _ _)) =>
  apply tx_kept_update_jobs; intros j; by (repeat split) : ordivon.

(** ** What an admission adds *)

Definition release_columns (request : SubmitRequest) : option ReleaseEffectRow :=
  (fun release => release_effect_row release (sha256_bytes (release_to_json release)))
    <$> sub_runtime_release_effect request.

Definition set_row {A} (k : string) (row : option A) (m : gmap string A) : gmap string A :=
  match row with Some row => <[k := row]> m | None => m end.

Record admits (request : SubmitRequest) (ids : PreallocatedAdmissionIds) (digest : string)
    (at_ms : Z) (d d' : Db) : Prop := {
  adds_fresh : db_jobs d !! pre_job_id ids = None;
  adds_job : db_jobs d' = <[pre_job_id ids := new_job request ids digest at_ms]> (db_jobs d);
  adds_provider : db_execution_providers d'
    = set_row (pre_job_id ids) (execution_provider_columns request) (db_execution_providers d);
  adds_host : db_host_dependencies d'
    = set_row (pre_job_id ids) (host_dependencies_columns request) (db_host_dependencies d);
  adds_release : db_release_effects d'
    = set_row (pre_job_id ids) (release_columns request) (db_release_effects d);
}.

Lemma insert_side_truth request k d u1 d1 u2 d2 u3 d3 :
  insert_execution_provider k (execution_provider_columns request) d = Ok (u1, d1) ->
  insert_host_dependencies k (host_dependencies_columns request) d1 = Ok (u2, d2) ->
  insert_release_effect k (sub_runtime_release_effect request)
    (runtime_release_digest request) d2 = Ok (u3, d3) ->
  db_jobs d3 = db_jobs d
  /\ db_execution_providers d3
     = set_row k (execution_provider_columns request) (db_execution_providers d)
  /\ db_host_dependencies d3
     = set_row k (host_dependencies_columns request) (db_host_dependencies d)
  /\ db_release_effects d3 = set_row k (release_columns request) (db_release_effects d).
Proof.
  unfold insert_execution_provider, insert_host_dependencies, insert_release_effect,
    runtime_release_digest, release_columns. intros H1 H2 H3.
  destruct (execution_provider_columns request), (host_dependencies_columns request),
    (sub_runtime_release_effect request); simpl in *; by inv_stmt.
Qed.

Lemma submit_body_admits config fence request ids digest at_ms d f d' :
  submit_tx config fence request ids digest at_ms d = Ok (f, d') ->
  match idempotency_row request d with
  | Some _ => d' = d
  | None => admits request ids digest at_ms d d'
  end.
Proof.
  intros H. unfold submit_tx, replay_submit, append_admission_events in H. inv_tx.
  destruct (idempotency_row request d) as [key | ]; [by inv_stmt | ]. inv_tx.
  match goal with Hc : check_capacity _ _ = _ |- _ =>
    apply check_capacity_inv in Hc as (-> & _) end.
  unfold insert_admission, insert_job, insert_attempt, insert_idempotency_key,
    insert_reservation in *. inv_tx.
  match goal with H1 : insert_execution_provider _ _ _ = _, H2 : insert_host_dependencies _ _ _ = _,
    H3 : insert_release_effect _ _ _ _ = _ |- _ =>
    destruct (insert_side_truth _ _ _ _ _ _ _ _ _ H1 H2 H3) as (E1 & E2 & E3 & E4) end.
  inv_stmt. bool_props. db_simpl. simpl in *.
  repeat match goal with H : present _ = false |- _ => apply present_false in H end.
  by split.
Qed.

(** Every body keeps the Jobs there are, or is an admission. *)
Lemma registry_body_jobs d d' : registry_body d d' ->
  kept d d' \/ exists request ids digest at_ms, validate_submit request = Ok tt
    /\ submit_operation_digest request = Ok digest /\ admits request ids digest at_ms d d'.
Proof.
  intros Hb. destruct Hb; [ | left..].
  { match goal with H : submit_tx _ _ _ _ _ _ _ = _ |- _ => apply submit_body_admits in H end.
    destruct (idempotency_row request d); [left; by subst | right].
    by exists request, ids, operation_digest, created_at_ms. }
  all: try destruct operation; registry_body_auto.
Qed.
End bodies.

(** ** Where a Job comes from *)

Section origin.
Context `{P : Platform}.

(** Job [k] of [d] was admitted for [request]. *)
Record admitted_as (request : SubmitRequest) (k : string) (d : Db) : Prop := {
  origin_valid : validate_submit request = Ok tt;
  origin_job : exists job ids digest at_ms, db_jobs d !! k = Some job
    /\ submit_operation_digest request = Ok digest
    /\ same_job_identity (new_job request ids digest at_ms) job;
  origin_provider : db_execution_providers d !! k = execution_provider_columns request;
  origin_host : db_host_dependencies d !! k = host_dependencies_columns request;
  origin_release : db_release_effects d !! k = release_columns request;
}.

Definition no_side_rows (k : string) (d : Db) : Prop :=
  db_execution_providers d !! k = None /\ db_host_dependencies d !! k = None
  /\ db_release_effects d !! k = None.

(** Every Job has an origin, and there is no side truth without a Job. *)
Definition origins (d : Db) : Prop :=
  forall k, match db_jobs d !! k with
            | Some _ => exists request, admitted_as request k d
            | None => no_side_rows k d
            end.

Lemma admitted_as_kept request k d d' : kept d d' -> admitted_as request k d -> admitted_as request k d'.
Proof.
  intros [Hp Hh Hr Hj] [Hv (job & ids & digest & at_ms & Hk & Hd & Hid) Ho1 Ho2 Ho3].
  split; rewrite ?Hp, ?Hh, ?Hr; try done.
  specialize (Hj k). rewrite Hk in Hj. inversion Hj as [x job' Hs He Hk' | ]; subst.
  exists job', ids, digest, at_ms. split; [done | split; [done | ]]. by etrans.
Qed.

Lemma lookup_set_row_ne {A} k k' (row : option A) m : k <> k' -> set_row k row m !! k' = m !! k'.
Proof. intros. destruct row; simpl; [by rewrite lookup_insert_ne | done]. Qed.

Lemma lookup_set_row {A} k (row : option A) m : m !! k = None -> set_row k row m !! k = row.
Proof. intros. destruct row; simpl; [by rewrite lookup_insert_eq | done]. Qed.

Lemma admitted_as_admits request k d r ids digest at_ms d' :
  admits r ids digest at_ms d d' -> admitted_as request k d -> admitted_as request k d'.
Proof.
  intros [Hf Hj Hp Hh Hr] [Hv (job & ids1 & digest1 & at1 & Hk & Hd & Hid) Ho1 Ho2 Ho3].
  assert (pre_job_id ids <> k) by congruence.
  split; rewrite ?Hp, ?Hh, ?Hr, ?lookup_set_row_ne by done; try done.
  exists job, ids1, digest1, at1. by rewrite Hj, lookup_insert_ne.
Qed.

Lemma admits_admitted_as request ids digest at_ms d d' :
  validate_submit request = Ok tt -> submit_operation_digest request = Ok digest ->
  no_side_rows (pre_job_id ids) d -> admits request ids digest at_ms d d' ->
  admitted_as request (pre_job_id ids) d'.
Proof.
  intros Hv Hd (N1 & N2 & N3) [Hf Hj Hp Hh Hr].
  split; rewrite ?Hp, ?Hh, ?Hr, ?lookup_set_row by done; try done.
  exists (new_job request ids digest at_ms), ids, digest, at_ms.
  rewrite Hj, lookup_insert_eq. split; [done | split; [done | reflexivity]].
Qed.

Lemma registry_body_origin d d' request k :
  registry_body d d' -> admitted_as request k d -> admitted_as request k d'.
Proof.
  intros [Hk | (r & ids & digest & at_ms & _ & _ & Ha)]%registry_body_jobs Ho.
  - by eapply admitted_as_kept.
  - by eapply admitted_as_admits.
Qed.

Lemma run_origin d d' request k :
  rtc registry_step d d' -> admitted_as request k d -> admitted_as request k d'.
Proof.
  induction 1 as [ | d1 d2 d3 Hs _ IH]; [done | ]. intros Ho. apply IH.
  revert Hs. apply (step_invariant (admitted_as request k)); [ | done].
  intros. by eapply registry_body_origin.
Qed.

Lemma registry_body_origins d d' : origins d -> registry_body d d' -> origins d'.
Proof.
  intros Hall Hb k. specialize (Hall k) as Hk. destruct (db_jobs d !! k) as [job | ] eqn:Hjob.
  - destruct Hk as [request Ho]. pose proof (registry_body_origin _ _ _ _ Hb Ho) as Ho'.
    destruct (origin_job _ _ _ Ho') as (job' & _ & _ & _ & -> & _). eauto.
  - apply registry_body_jobs in Hb as [[Hp Hh Hr Hj] | (r & ids & digest & at_ms & Hv & Hd & Ha)].
    + specialize (Hj k). rewrite Hjob in Hj. inversion Hj as [ | He]. unfold no_side_rows.
      by rewrite Hp, Hh, Hr.
    + destruct (decide (pre_job_id ids = k)) as [<- | Hne].
      * rewrite (adds_job _ _ _ _ _ _ Ha), lookup_insert_eq. exists r.
        by eapply admits_admitted_as.
      * destruct Ha as [Hf Hj Hp Hh Hr]. rewrite Hj, lookup_insert_ne, Hjob by done.
        unfold no_side_rows. by rewrite Hp, Hh, Hr, !lookup_set_row_ne.
Qed.

Lemma reachable_origins d : registry_reachable d -> origins d.
Proof.
  apply reachable_invariant; [ | apply registry_body_origins]. intros k. simpl.
  rewrite lookup_empty. unfold no_side_rows. simpl. by rewrite !lookup_empty.
Qed.

(** A Job just admitted. *)
Lemma submit_admitted io config fence now request ids d admission d' :
  registry_reachable d ->
  submit_preallocated io config fence now request ids d = (Ok (Created admission), d') ->
  admitted_as request (pre_job_id ids) d'.
Proof.
  intros Hr H. destruct (submit_Created_inv _ _ _ _ _ _ _ _ _ Hr H)
    as (at_ms & digest & f & _ & Hv & Hd & _ & Hnone & Hb).
  apply submit_body_admits in Hb. rewrite Hnone in Hb. eapply admits_admitted_as; [done | done | | done].
  pose proof (reachable_origins d Hr (pre_job_id ids)) as Hk.
  by rewrite (adds_fresh _ _ _ _ _ _ Hb) in Hk.
Qed.
End origin.

(** ** Reading it back *)

Section readback.
Context `{P : Platform} `{L : !PlatformLaws P}.

Lemma bind_Err {A B} e (f : A -> RuntimeResult B) : (Err e : RuntimeResult A) ≫= f = Err e.
Proof. done. Qed.

(** The commitments of a request. *)
Definition commitment (side : SideTruth) (request : SubmitRequest) : option string :=
  if String.eqb (st_field side) "executionProvider" then snd <$> execution_provider_columns request
  else if String.eqb (st_field side) "hostDependencies" then snd <$> host_dependencies_columns request
  else runtime_release_digest request.

Lemma commitment_provider request :
  commitment provider_truth request = snd <$> execution_provider_columns request.
Proof. done. Qed.

Lemma commitment_host request :
  commitment host_truth request = snd <$> host_dependencies_columns request.
Proof. done. Qed.

Lemma commitment_release request :
  commitment release_truth request = runtime_release_digest request.
Proof. done. Qed.

Lemma snapshot_canonical request : json_canonical (workspace_snapshot request) = true.
Proof.
  unfold workspace_snapshot, obj.
  destruct (plan_workspace_source_digest _), (snd <$> execution_provider_columns request),
    (snd <$> host_dependencies_columns request), (runtime_release_digest request); reflexivity.
Qed.

Lemma sha256_bytes_valid text : digest_valid (sha256_bytes text) = true.
Proof.
  unfold digest_valid, sha256_bytes.
  assert (strip_prefix "sha256:" ("sha256:" +:+ sha256_hex text) = Some (sha256_hex text)) as ->
    by (unfold strip_prefix, starts_with; simpl; by destruct (sha256_hex text)).
  unfold str_len. rewrite sha256_hex_length. simpl. apply forallb_forall. intros b Hb.
  pose proof (sha256_hex_digits text) as Hd. rewrite Forall_forall in Hd.
  by apply Hd, list_elem_of_In.
Qed.

Lemma commitment_digest side request digest :
  commitment side request = Some digest -> exists text, digest = sha256_bytes text.
Proof.
  unfold commitment, execution_provider_columns, host_dependencies_columns, runtime_release_digest.
  destruct (String.eqb _ _); [destruct (sub_execution_provider _); intros [= <-]; eauto | ].
  destruct (String.eqb _ _); [destruct (sub_host_dependencies _); intros [= <-]; eauto | ].
  destruct (sub_runtime_release_effect _); intros [= <-]; eauto.
Qed.

Lemma snapshot_field side request :
  side = provider_truth \/ side = host_truth \/ side = release_truth ->
  json_get (st_key side) (workspace_snapshot request) = JStr <$> commitment side request.
Proof.
  unfold workspace_snapshot, obj, commitment.
  destruct (plan_workspace_source_digest _), (snd <$> execution_provider_columns request),
    (snd <$> host_dependencies_columns request), (runtime_release_digest request);
    intros [-> | [-> | ->]]; reflexivity.
Qed.

Lemma committed_digest_ok side request :
  side = provider_truth \/ side = host_truth \/ side = release_truth ->
  committed_digest side (workspace_snapshot request) = Ok (commitment side request).
Proof.
  intros Hs. unfold committed_digest. rewrite (snapshot_field side request Hs).
  destruct (commitment side request) as [digest | ] eqn:Hc; [simpl | done].
  apply commitment_digest in Hc as [text ->]. unfold validate_digest.
  by rewrite sha256_bytes_valid.
Qed.

Lemma match_commitment_ok {A} side (digest_of : A -> string) committed row :
  digest_of <$> row = committed -> match_commitment side digest_of committed row = Ok row.
Proof. intros <-. destruct row; simpl; [by rewrite String.eqb_refl | done]. Qed.

(** A Job row with the identity of an admission of [request]. *)
Definition job_of (request : SubmitRequest) (job : RuntimeJobRecord) : Prop :=
  exists ids digest at_ms, submit_operation_digest request = Ok digest
    /\ same_job_identity (new_job request ids digest at_ms) job.

Lemma job_of_snapshot request job :
  job_of request job -> parse_workspace_snapshot job = Ok (workspace_snapshot request).
Proof.
  intros (ids & digest & at_ms & _ & (_ & _ & _ & _ & _ & _ & Hs & _)). simpl in Hs.
  unfold parse_workspace_snapshot. by rewrite Hs, json_roundtrip by apply snapshot_canonical.
Qed.

Lemma job_of_plan request job :
  job_of request job -> parse_execution_plan job = Ok (sub_plan request).
Proof.
  intros (ids & digest & at_ms & _ & (_ & _ & _ & _ & _ & _ & _ & Hp & _)). simpl in Hp.
  unfold parse_execution_plan. by rewrite Hp, plan_json_roundtrip.
Qed.

Lemma valid_provider request provider :
  validate_submit request = Ok tt -> sub_execution_provider request = Some provider ->
  validate_execution_provider_snapshot provider "executionProvider" = Ok tt.
Proof.
  intros Hv Hp. unfold validate_submit in Hv. inv_ok.
  match goal with H : validate_submit_header request = Ok _ |- _ =>
    unfold validate_submit_header in H; rewrite Hp in H; inv_ok end.
  match goal with H : validate_execution_provider_snapshot _ _ = Ok ?u |- _ => by destruct u end.
Qed.

Lemma valid_host_dependencies request :
  validate_submit request = Ok tt ->
  validate_host_dependency_bindings (sub_host_dependencies request) "hostDependencies" = Ok tt.
Proof.
  intros Hv. unfold validate_submit in Hv. inv_ok.
  match goal with H : validate_submit_side_truth request = Ok _ |- _ =>
    unfold validate_submit_side_truth in H; inv_ok end.
  match goal with H : validate_host_dependency_bindings _ _ = Ok ?u |- _ => by destruct u end.
Qed.

Lemma decode_provider_ok request provider :
  validate_submit request = Ok tt -> sub_execution_provider request = Some provider ->
  decode_provider (digested (provider_to_json provider)) = Ok provider.
Proof.
  intros Hv Hp. unfold decode_provider, digested. rewrite String.eqb_refl. simpl.
  rewrite provider_json_roundtrip. simpl. by rewrite (valid_provider _ _ Hv Hp).
Qed.

Lemma decode_host_dependencies_ok request :
  validate_submit request = Ok tt ->
  decode_host_dependencies (digested (host_dependencies_to_json (sub_host_dependencies request)))
  = Ok (sub_host_dependencies request).
Proof.
  intros Hv. unfold decode_host_dependencies, digested. rewrite String.eqb_refl. simpl.
  rewrite host_dependencies_json_roundtrip. simpl. by rewrite (valid_host_dependencies _ Hv).
Qed.

Lemma decode_release_ok release :
  decode_release (release_effect_row release (sha256_bytes (release_to_json release))) = Ok release.
Proof. unfold decode_release. destruct release as [[]]. simpl. by rewrite String.eqb_refl. Qed.

(** The operation digest that [execution_provider] recomputes. *)
Lemma expected_digest_ok request job committed :
  job_of request job -> commitment provider_truth request = Some committed ->
  expected_operation_digest job committed (commitment host_truth request)
    (commitment release_truth request) = Ok (job_operation_digest job).
Proof.
  intros (ids & digest & at_ms & Hd & Hid) Hc.
  destruct Hid as (_ & _ & _ & Hr & Ho & _ & _ & _ & Hp & _). simpl in *.
  unfold expected_operation_digest. rewrite Hr, Ho, Hp. revert Hd.
  unfold submit_operation_digest, operation_digest_of. unfold commitment in *. simpl in *.
  rewrite Hc. destruct (snd <$> host_dependencies_columns request), (runtime_release_digest request);
    by intros [= ->].
Qed.

Lemma sides_committed request :
  committed_digest provider_truth (workspace_snapshot request) = Ok (commitment provider_truth request)
  /\ committed_digest host_truth (workspace_snapshot request) = Ok (commitment host_truth request)
  /\ committed_digest release_truth (workspace_snapshot request)
     = Ok (commitment release_truth request).
Proof. split; [ | split]; apply committed_digest_ok; auto. Qed.

Lemma release_columns_digest request :
  rer_binding_digest <$> release_columns request = runtime_release_digest request.
Proof. unfold release_columns, runtime_release_digest. by destruct (sub_runtime_release_effect request). Qed.

Lemma execution_provider_read request k d :
  admitted_as request k d ->
  query (execution_provider_tx k) d = Ok (sub_execution_provider request).
Proof.
  intros [Hv (job & ids & digest & at_ms & Hk & Hd & Hid) Hp Hh Hr].
  assert (Hjob : job_of request job) by (by exists ids, digest, at_ms).
  destruct (sides_committed request) as (C1 & C2 & C3).
  unfold query, execution_provider_tx. erewrite tx_bind_run by (by apply load_job_run).
  erewrite tx_bind_run by (apply lift_run; by apply job_of_snapshot).
  do 2 erewrite tx_bind_run by (by apply lift_run).
  erewrite tx_bind_run by reflexivity. rewrite Hh.
  erewrite tx_bind_run by (apply lift_run, match_commitment_ok; by rewrite option_fmap_id).
  erewrite tx_bind_run by (by apply lift_run).
  erewrite tx_bind_run by reflexivity. rewrite Hr, release_columns_digest.
  erewrite tx_bind_run by (apply lift_run, match_commitment_ok; by rewrite option_fmap_id).
  erewrite tx_bind_run by reflexivity. rewrite Hp.
  erewrite tx_bind_run by (by apply lift_run, match_commitment_ok).
  unfold execution_provider_columns. destruct (sub_execution_provider request) as [p | ] eqn:Hsp;
    [simpl | done].
  erewrite tx_bind_run by (apply lift_run, expected_digest_ok; [done | ];
    unfold commitment; simpl; unfold execution_provider_columns; by rewrite Hsp).
  erewrite tx_bind_run by (apply reject_run; by rewrite String.eqb_refl).
  pose proof (decode_provider_ok _ _ Hv Hsp) as Hdec. unfold lift. by setoid_rewrite Hdec.
Qed.

Lemma host_dependencies_read request k d :
  admitted_as request k d ->
  query (host_dependencies_tx k) d = Ok (sub_host_dependencies request).
Proof.
  intros [Hv (job & ids & digest & at_ms & Hk & Hd & Hid) Hp Hh Hr].
  assert (Hjob : job_of request job) by (by exists ids, digest, at_ms).
  destruct (sides_committed request) as (C1 & C2 & C3).
  unfold query, host_dependencies_tx. erewrite tx_bind_run by (by apply load_job_run).
  erewrite tx_bind_run by (apply lift_run; by apply job_of_snapshot).
  erewrite tx_bind_run by (by apply lift_run).
  erewrite tx_bind_run by reflexivity. rewrite Hh.
  erewrite tx_bind_run by (by apply lift_run, match_commitment_ok).
  pose proof (decode_host_dependencies_ok request Hv) as Hdec.
  unfold host_dependencies_columns. destruct (sub_host_dependencies request); [done | ].
  unfold lift. by rewrite Hdec.
Qed.

Lemma runtime_release_read request k d :
  admitted_as request k d ->
  query (runtime_release_effect_tx k) d = Ok (sub_runtime_release_effect request).
Proof.
  intros [Hv (job & ids & digest & at_ms & Hk & Hd & Hid) Hp Hh Hr].
  assert (Hjob : job_of request job) by (by exists ids, digest, at_ms).
  destruct (sides_committed request) as (C1 & C2 & C3).
  unfold query, runtime_release_effect_tx. erewrite tx_bind_run by (by apply load_job_run).
  erewrite tx_bind_run by (apply lift_run; by apply job_of_snapshot).
  erewrite tx_bind_run by (by apply lift_run).
  erewrite tx_bind_run by reflexivity. rewrite Hr.
  erewrite tx_bind_run by (apply lift_run, match_commitment_ok, release_columns_digest).
  unfold release_columns. destruct (sub_runtime_release_effect request); [ | done].
  unfold lift. simpl. by rewrite decode_release_ok.
Qed.

Lemma execution_plan_read request k d io :
  io_open io = None -> admitted_as request k d -> execution_plan io k d = Ok (sub_plan request).
Proof.
  intros Hio [Hv (job & ids & digest & at_ms & Hk & Hd & Hid) Hp Hh Hr].
  unfold execution_plan, get_job, with_connection, query. rewrite Hio, (load_job_run _ _ _ Hk).
  simpl. apply job_of_plan. by exists ids, digest, at_ms.
Qed.
End readback.

(** ** Properties *)

Section properties.
Context `{P : Platform} `{L : !PlatformLaws P}.

(** Every side truth read of Job [k] answers what [request] submitted. *)
Definition reads_back (request : SubmitRequest) (k : string) (io : TxIo) (d : Db) : Prop :=
  execution_provider io k d = Ok (sub_execution_provider request)
  /\ host_dependencies io k d = Ok (sub_host_dependencies request)
  /\ runtime_release_effect_for_job io k d = Ok (sub_runtime_release_effect request)
  /\ execution_plan io k d = Ok (sub_plan request).

Lemma admitted_reads_back request k io d :
  io_open io = None -> admitted_as request k d -> reads_back request k io d.
Proof.
  intros Hio Ho. unfold reads_back, execution_provider, host_dependencies,
    runtime_release_effect_for_job, with_connection. rewrite Hio.
  split; [by apply execution_provider_read | ]. split; [by apply host_dependencies_read | ].
  split; [by apply runtime_release_read | by apply execution_plan_read].
Qed.

(** C38: the side truth of a Job is what was submitted, for good.  After [submit]
    reported [Created] and any further run of the Registry, the execution
    provider, the Host Dependencies, the Runtime Release effect and the
    execution plan read for the Job are exactly those of the request, each
    checked against the commitments of the Job's row; and in every reachable
    database these four reads succeed for every stored Job, with the values of
    one request that passed validation. *)
Theorem side_truth_read_back :
  (forall io config fence now request ids d admission d1 d2 io2,
     registry_reachable d ->
     submit_preallocated io config fence now request ids d = (Ok (Created admission), d1) ->
     rtc registry_step d1 d2 -> io_open io2 = None -> reads_back request (pre_job_id ids) io2 d2)
  /\ (forall d k job io, registry_reachable d -> db_jobs d !! k = Some job -> io_open io = None ->
        exists request, validate_submit request = Ok tt /\ reads_back request k io d).
Proof.
  split.
  - intros io config fence now request ids d admission d1 d2 io2 Hr Hs Hrun Hio.
    apply admitted_reads_back; [done | ]. eapply run_origin; [done | ]. by eapply submit_admitted.
  - intros d k job io Hr Hk Hio. pose proof (reachable_origins d Hr k) as Ho. rewrite Hk in Ho.
    destruct Ho as [request Ho]. exists request. split; [apply Ho | by apply admitted_reads_back].
Qed.

(** Two different texts with one SHA-256 digest. *)
Definition collision (a b : string) : Prop := a <> b /\ sha256_hex a = sha256_hex b.

Lemma sha256_bytes_inj_or_collision a b :
  sha256_bytes a = sha256_bytes b -> a = b \/ collision a b.
Proof.
  unfold sha256_bytes. intros H. destruct (decide (a = b)); [by left | right].
  split; [done | ]. by injection H.
Qed.

Lemma match_commitment_inv {A} side (f : A -> string) committed row r :
  match_commitment side f committed row = Ok r -> r = row /\ f <$> row = committed.
Proof.
  unfold match_commitment. destruct committed, row; try done; [ | by intros [= <-]].
  destruct (String.eqb _ _) eqn:He; [ | done]. apply String.eqb_eq in He. intros [= <-].
  split; [done | by rewrite He].
Qed.

(** What a row that decodes was. *)
Lemma decode_provider_inv text digest provider :
  decode_provider (text, digest) = Ok provider ->
  sha256_bytes text = digest /\ provider_of_json text = Ok provider.
Proof.
  unfold decode_provider. intros H. inv_ok. bool_props.
  match goal with H : String.eqb _ _ = true |- _ => apply String.eqb_eq in H end. by subst.
Qed.

Lemma decode_host_dependencies_inv text digest bindings :
  decode_host_dependencies (text, digest) = Ok bindings ->
  sha256_bytes text = digest /\ host_dependencies_of_json text = Ok bindings.
Proof.
  unfold decode_host_dependencies. intros H. inv_ok. bool_props.
  match goal with H : String.eqb _ _ = true |- _ => apply String.eqb_eq in H end. by subst.
Qed.

Lemma decode_release_inv row release :
  decode_release row = Ok release ->
  sha256_bytes (release_to_json release) = rer_binding_digest row.
Proof.
  unfold decode_release. cbv zeta. intros H. inv_ok. bool_props. subst release.
  match goal with H : String.eqb (sha256_bytes _) _ = true |- _ => by apply String.eqb_eq in H end.
Qed.

(** A read of side truth up to the commitment of its row. *)
Lemma query_Ok {A} (m : tx A) d a : query m d = Ok a -> exists d', m d = Ok (a, d').
Proof. unfold query. intros H. inv_ok. destruct v as [? d']. simpl in H. subst. eauto. Qed.

Ltac fmap_simpl := cbn [fmap option_fmap option_map fst snd digested] in *.

Ltac open_side_truth Hq Hk Hjob :=
  apply query_Ok in Hq as [? Hq];
  erewrite tx_bind_run in Hq by (by apply load_job_run);
  erewrite tx_bind_run in Hq by (apply lift_run; by apply job_of_snapshot);
  erewrite tx_bind_run in Hq by (by apply lift_run);
  inv_tx;
  repeat match goal with H : match_commitment _ _ _ _ = Ok _ |- _ =>
    apply match_commitment_inv in H as [? ?] end; subst;
  rewrite ?commitment_provider, ?commitment_host, ?commitment_release in *.

(** The tables of [d] may hold anything: only the Job's own row is assumed. *)
Lemma execution_provider_evident request k d job r :
  db_jobs d !! k = Some job -> job_of request job ->
  query (execution_provider_tx k) d = Ok r -> r = sub_execution_provider request
  \/ exists provider text, sub_execution_provider request = Some provider
       /\ collision text (provider_to_json provider).
Proof.
  intros Hk Hjob Hq. destruct (sides_committed request) as (C & _ & _).
  unfold execution_provider_tx in Hq. open_side_truth Hq Hk Hjob.
  unfold execution_provider_columns in *.
  destruct (db_execution_providers d !! k) as [[text digest] | ];
    destruct (sub_execution_provider request) as [provider | ]; fmap_simpl; try done;
    [ | by inv_tx; left].
  inv_tx. inv_ok. subst.
  match goal with H : decode_provider _ = _ |- _ => apply decode_provider_inv in H as [Hs Hp] end.
  simplify_eq. destruct (sha256_bytes_inj_or_collision text (provider_to_json provider)) as [-> | Hcol];
    [unfold sha256_bytes; congruence | | right; eauto].
  left. rewrite provider_json_roundtrip in Hp. congruence.
Qed.

Lemma host_dependencies_evident request k d job r :
  db_jobs d !! k = Some job -> job_of request job ->
  query (host_dependencies_tx k) d = Ok r -> r = sub_host_dependencies request
  \/ exists text, collision text (host_dependencies_to_json (sub_host_dependencies request)).
Proof.
  intros Hk Hjob Hq. destruct (sides_committed request) as (_ & C & _).
  unfold host_dependencies_tx in Hq. open_side_truth Hq Hk Hjob.
  unfold host_dependencies_columns in *.
  destruct (db_host_dependencies d !! k) as [[text digest] | ];
    destruct (sub_host_dependencies request) as [ | b bs] eqn:Hb; fmap_simpl; try done;
    [ | by inv_tx; left].
  inv_tx.
  match goal with H : decode_host_dependencies _ = _ |- _ =>
    apply decode_host_dependencies_inv in H as [Hs Hp] end.
  simplify_eq.
  destruct (sha256_bytes_inj_or_collision text (host_dependencies_to_json (b :: bs))) as [-> | Hcol];
    [unfold sha256_bytes; congruence | | right; eauto].
  left. rewrite host_dependencies_json_roundtrip in Hp. congruence.
Qed.

Lemma runtime_release_evident request k d job r :
  db_jobs d !! k = Some job -> job_of request job ->
  query (runtime_release_effect_tx k) d = Ok r ->
  (release_to_json <$> r) = (release_to_json <$> sub_runtime_release_effect request)
  \/ exists release text, sub_runtime_release_effect request = Some release
       /\ collision text (release_to_json release).
Proof.
  intros Hk Hjob Hq. destruct (sides_committed request) as (_ & _ & C).
  unfold runtime_release_effect_tx in Hq. open_side_truth Hq Hk Hjob.
  unfold runtime_release_digest in *.
  destruct (db_release_effects d !! k) as [row | ];
    destruct (sub_runtime_release_effect request) as [release | ]; fmap_simpl; try done;
    [ | by inv_tx; left].
  inv_tx. inv_ok. subst.
  match goal with H : decode_release _ = _ |- _ => apply decode_release_inv in H as Hs end.
  simplify_eq. simpl.
  destruct (sha256_bytes_inj_or_collision (release_to_json v) (release_to_json release))
    as [-> | Hcol]; [congruence | by left | right; eauto].
Qed.

(** side truth is tamper evident.  Whatever the side tables hold, a read for
    a Job whose own row is that of an admission of [request] either fails, or
    returns what [request] submitted (for the Runtime Release effect: a binding
    with the same serialisation), or exhibits a SHA-256 collision with it. *)
Theorem side_truth_tamper_evident request k d job :
  db_jobs d !! k = Some job -> job_of request job ->
  (forall r, query (execution_provider_tx k) d = Ok r -> r = sub_execution_provider request
     \/ exists provider text, sub_execution_provider request = Some provider
          /\ collision text (provider_to_json provider))
  /\ (forall r, query (host_dependencies_tx k) d = Ok r -> r = sub_host_dependencies request
        \/ exists text, collision text (host_dependencies_to_json (sub_host_dependencies request)))
  /\ (forall r, query (runtime_release_effect_tx k) d = Ok r ->
        (release_to_json <$> r) = (release_to_json <$> sub_runtime_release_effect request)
        \/ exists release text, sub_runtime_release_effect request = Some release
             /\ collision text (release_to_json release)).
Proof.
  intros Hk Hjob. split; [ | split]; intros r.
  - by apply execution_provider_evident with job.
  - by apply host_dependencies_evident with job.
  - by apply runtime_release_evident with job.
Qed.

(** ** Finding a Runtime Release *)

Lemma find_key_unique d k job kv :
  store_wf d -> db_jobs d !! k = Some job -> kv ∈ map_to_list (db_jobs d) ->
  job_principal kv.2 = job_principal job ->
  job_client_request_id kv.2 = job_client_request_id job -> kv.1 = k.
Proof.
  intros Hwf Hk Hin Hp Hc. destruct kv as [k2 job2]. apply elem_of_map_to_list in Hin. simpl in *.
  destruct (wf_jobs _ Hwf _ _ Hk) as (_ & _ & key & Hkey & <-).
  destruct (wf_jobs _ Hwf _ _ Hin) as (_ & _ & key2 & Hkey2 & <-). congruence.
Qed.

Lemma release_job_id_spec d k job :
  store_wf d -> db_jobs d !! k = Some job ->
  release_job_id (job_principal job) (job_client_request_id job) d
  = (if present (db_release_effects d !! k) then Some k else None).
Proof.
  intros Hwf Hk. unfold release_job_id.
  destruct (head (omap _ _)) as [k2 | ] eqn:Hh.
  - apply head_Some_elem_of, list_elem_of_omap in Hh as (kv & Hin & Hif).
    destruct (_ && _ && _) eqn:Hc; [ | done]. bool_props. simplify_eq.
    repeat match goal with H : String.eqb _ _ = true |- _ => apply String.eqb_eq in H end.
    rewrite (find_key_unique _ _ _ _ Hwf Hk Hin) in * by done.
    by match goal with H : present _ = true |- _ => rewrite H end.
  - destruct (present _) eqn:Hpres; [exfalso | done].
    match type of Hh with head ?l = None => assert (Hin : k ∈ l) end.
    { apply list_elem_of_omap. exists (k, job). split; [by apply elem_of_map_to_list | ].
      simpl. by rewrite !String.eqb_refl, Hpres. }
    apply head_None in Hh. rewrite Hh in Hin. by apply not_elem_of_nil in Hin.
Qed.
Lemma valid_submit_identity request :
  validate_submit request = Ok tt ->
  validate_identifier (plan_principal (sub_plan request)) "principal" = Ok tt
  /\ validate_client_request_id (sub_client_request_id request) "clientRequestId" = Ok tt.
Proof.
  intros Hv. unfold validate_submit in Hv. inv_ok.
  match goal with H : validate_submit_header request = Ok _ |- _ =>
    unfold validate_submit_header, validate_identifier in H; inv_ok end.
  split; [by unfold validate_identifier; apply fail_if_Ok | ].
  match goal with H : validate_client_request_id _ _ = Ok ?u |- _ => by destruct u end.
Qed.

(** a Runtime Release is found again by its request key.  After [submit]
    reported [Created], [find_runtime_release_effect] with the principal and
    client request of that admission, its two connections opened after any
    further runs of the Registry, returns the Job with the effect that was
    submitted, or nothing when the request carried none. *)
Theorem release_effect_found io config fence now request ids d admission d1 d2 d3 io2 io3 :
  registry_reachable d ->
  submit_preallocated io config fence now request ids d = (Ok (Created admission), d1) ->
  rtc registry_step d1 d2 -> rtc registry_step d2 d3 -> io_open io2 = None -> io_open io3 = None ->
  exists job, same_job_identity (created_job admission) job
    /\ db_jobs d2 !! pre_job_id ids = Some job
    /\ find_runtime_release_effect io2 io3 (plan_principal (sub_plan request))
         (sub_client_request_id request) d2 d3
       = Ok ((fun release => (job, release)) <$> sub_runtime_release_effect request).
Proof.
  intros Hr Hs H12 H23 Hio2 Hio3. pose proof (submit_admitted _ _ _ _ _ _ _ _ _ Hr Hs) as Ho1.
  assert (Hr1 : registry_reachable d1).
  { replace d1 with (snd (submit_preallocated io config fence now request ids d)) by (by rewrite Hs).
    eapply rtc_r; [exact Hr | apply StepSubmit]. }
  assert (Hwf2 : store_wf d2) by (apply reachable_wf; unfold registry_reachable in *; by etrans).
  pose proof (run_origin _ _ _ _ H12 Ho1) as Ho2. pose proof (run_origin _ _ _ _ H23 Ho2) as Ho3.
  destruct (submit_Created_inv _ _ _ _ _ _ _ _ _ Hr Hs)
    as (at_ms & digest & f & _ & Hv & Hd & -> & Hnone & Hb).
  apply submit_body_admits in Hb. rewrite Hnone in Hb.
  destruct (run_identity _ _ H12) as [Hjobs _].
  destruct (Hjobs (pre_job_id ids) (new_job request ids digest at_ms)) as (job & Hk & Hid);
    [by rewrite (adds_job _ _ _ _ _ _ Hb), lookup_insert_eq | ].
  exists job. split; [done | split; [done | ]].
  destruct (valid_submit_identity request Hv) as [V1 V2].
  pose proof (release_job_id_spec d2 _ job Hwf2 Hk) as Hfind.
  destruct Hid as (_ & Hp & Hc & _). simpl in Hp, Hc. rewrite Hp, Hc in Hfind.
  rewrite (origin_release _ _ _ Ho2) in Hfind.
  unfold find_runtime_release_effect. rewrite V1, V2. cbn [mbind result_bind].
  unfold with_connection at 1. rewrite Hio2. unfold query.
  erewrite tx_bind_run by reflexivity. rewrite Hfind. unfold release_columns.
  pose proof (admitted_reads_back _ _ _ _ Hio3 Ho3) as (_ & _ & Hread & _).
  destruct (sub_runtime_release_effect request) as [release | ]; [ | done].
  cbn [fmap option_fmap option_map present]. erewrite tx_bind_run by (by apply load_job_run).
  simpl. by rewrite Hread.
Qed.
End properties.

(** ** A Job with side truth *)

Definition with_side_truth (identity : option string) (release : option RuntimeReleaseEffectBinding)
    (hosts : list HostDependencyBinding) : SubmitRequest := {|
  sub_schema_version := RUNTIME_SCHEMA_VERSION;
  sub_client_request_id := "request-1";
  sub_request_identity_digest := identity;
  sub_execution_provider :=
    Some {| eps_contract := ExecutionProviderContract.LocalLinuxRunnerV1;
            eps_executable_digest := sample_digest; eps_wsl_distribution := None |};
  sub_runtime_release_effect := release;
  sub_host_dependencies := hosts;
  sub_plan := sample_plan;
  sub_global_limit := 4 |}.

Definition bound_request : SubmitRequest :=
  with_side_truth None None [{| hd_path := "/lib/a.so"; hd_expected_digest := sample_digest |}].

Definition sample_release : RuntimeReleaseEffectBinding := {|
  rel_contract := RuntimeReleaseContract.RuntimeReleaseV1;
  rel_effect_id := "0123456789abcdef0123456789abcdef0123456789abcdef0123456789abcdef";
  rel_request_digest := RUNTIME_RELEASE_IDENTITY_PREFIX +:+ sample_digest;
  rel_workspace_id := "ws-1";
  rel_commit := "0123456789abcdef0123456789abcdef01234567";
  rel_candidate_manifest_digest := other_digest;
  rel_expected_tool_count := 12;
  rel_receipt_path := "/srv/receipt.json" |}.

Definition release_request : SubmitRequest :=
  with_side_truth (Some (RUNTIME_RELEASE_IDENTITY_PREFIX +:+ sample_digest)) (Some sample_release) [].

Definition admitted_with (request : SubmitRequest) : Db :=
  snd (submit_preallocated io_ok sample_config FenceAcquired (Ok 10) request sample_ids empty_db).

Lemma admitted_with_run request :
  (match fst (submit_preallocated io_ok sample_config FenceAcquired (Ok 10) request sample_ids empty_db)
   with Ok (Created _) => true | _ => false end) = true ->
  exists admission, submit_preallocated io_ok sample_config FenceAcquired (Ok 10) request sample_ids
                      empty_db = (Ok (Created admission), admitted_with request).
Proof.
  unfold admitted_with. destruct (submit_preallocated _ _ _ _ _ _ _) as [r d']. simpl.
  destruct r as [[admission | job] | e]; [eauto | done..].
Qed.

Lemma side_truth_read_back_witness :
  reads_back bound_request "job-1" io_ok (admitted_with bound_request)
  /\ exists request, validate_submit request = Ok tt
       /\ reads_back request "job-1" io_ok submitted_db.
Proof.
  destruct (admitted_with_run bound_request) as [admission Hs]; [vm_compute; reflexivity | ].
  destruct side_truth_read_back as [Hsub Hall]. split.
  - apply (Hsub io_ok sample_config FenceAcquired (Ok 10) bound_request sample_ids empty_db
             admission (admitted_with bound_request) (admitted_with bound_request) io_ok
             (rtc_refl _ _) Hs (rtc_refl _ _) eq_refl).
  - destruct (db_jobs submitted_db !! "job-1"%string) as [job | ] eqn:Hk;
      [ | exfalso; revert Hk; vm_compute; discriminate].
    exact (Hall submitted_db _ job io_ok submitted_reachable Hk eq_refl).
Defined.

Lemma db_jobs_set_providers v d : db_jobs (set_db_execution_providers v d) = db_jobs d.
Proof. done. Qed.

Definition evident_provider (request : SubmitRequest)
    (read : RuntimeResult (option ExecutionProviderSnapshot)) : Prop :=
  match read with
  | Ok r => r = sub_execution_provider request
            \/ exists provider text, sub_execution_provider request = Some provider
                 /\ collision text (provider_to_json provider)
  | Err _ => True
  end.

Lemma side_truth_tamper_evident_witness :
  evident_provider bound_request
    (query (execution_provider_tx "job-1")
       (set_db_execution_providers {["job-1"%string := ("{}"%string, other_digest)]}
          (admitted_with bound_request)))
  /\ is_ok (query (execution_provider_tx "job-1") (admitted_with bound_request)) = true
  /\ evident_provider bound_request
       (query (execution_provider_tx "job-1") (admitted_with bound_request)).
Proof.
  destruct (admitted_with_run bound_request) as [admission Hs]; [vm_compute; reflexivity | ].
  pose proof (submit_admitted _ _ _ _ _ _ _ _ _ ltac:(constructor) Hs) as Ho.
  destruct (origin_job _ _ _ Ho) as (job & ids & digest & at_ms & Hk & Hd & Hid).
  assert (Hid1 : pre_job_id sample_ids = "job-1"%string) by reflexivity. rewrite Hid1 in Hk.
  assert (Hof : job_of bound_request job) by (exists ids, digest, at_ms; split; [exact Hd | exact Hid]).
  unfold evident_provider. split; [ | split; [vm_compute; reflexivity | ]].
  - destruct (query _ _) as [r | ] eqn:Hq; [ | exact I].
    refine (proj1 (side_truth_tamper_evident bound_request "job-1" _ job _ Hof) r Hq).
    rewrite db_jobs_set_providers. exact Hk.
  - destruct (query _ _) as [r | ] eqn:Hq; [ | exact I].
    exact (proj1 (side_truth_tamper_evident bound_request "job-1" _ job Hk Hof) r Hq).
Defined.

Lemma release_effect_found_witness :
  exists job, find_runtime_release_effect io_ok io_ok (plan_principal (sub_plan release_request))
                (sub_client_request_id release_request)
                (admitted_with release_request) (admitted_with release_request)
              = Ok ((fun release => (job, release)) <$> sub_runtime_release_effect release_request).
Proof.
  destruct (admitted_with_run release_request) as [admission Hs]; [vm_compute; reflexivity | ].
  destruct (release_effect_found io_ok sample_config FenceAcquired (Ok 10) release_request sample_ids
              empty_db admission _ (admitted_with release_request) (admitted_with release_request)
              io_ok io_ok (rtc_refl _ _) Hs (rtc_refl _ _) (rtc_refl _ _) eq_refl eq_refl)
    as (job & _ & _ & Hf).
  exists job. exact Hf.
Defined.
