(* ===== verification/Listing.v ===== *)
(** * Listing Jobs

    [list_jobs]: what a page shows, and what a client that follows
    [nextCursor] has seen when the cursor runs out. *)

From S2P Require Import Prelude Text Errors Types Supervisor Platform TestPlatform Validation.
From S2P Require Import Submit Store Transaction Projection Lifecycle Admission Preservation.
From S2P Require Import Recovery AdminRepair Registry StoreInvariant Scenario Safety History.
From S2P Require Import Refinement AdmissionSpec LifecycleSpec RecoverySpec Query SideTruth.

#[local] Open Scope Z_scope.

(** ** The order of a listing *)

Lemma ltb_not_leb a b : String.ltb a b = negb (String.leb b a).
Proof.
  unfold String.ltb, String.leb. rewrite (String.compare_antisym b a).
  by destruct (String.compare a b).
Qed.

Lemma newest_le_total x y : newest_le x y = true \/ newest_le y x = true.
Proof. apply lex_total, String.leb_total. Qed.

Lemma newest_le_trans x y z :
  newest_le x y = true -> newest_le y z = true -> newest_le x z = true.
Proof.
  intros H1 H2. revert H2 H1. apply lex_trans. intros H1 H2. by eapply string_leb_trans.
Qed.

Lemma newest_le_antisym x y :
  newest_le x y = true -> newest_le y x = true -> job_job_id x = job_job_id y.
Proof.
  unfold newest_le. rewrite !orb_true_iff, !andb_true_iff, !Z.ltb_lt, !Z.eqb_eq.
  intros [H1 | [H1 L1]] [H2 | [H2 L2]]; try lia. by apply String.leb_antisym.
Qed.

(** A cursor admits exactly what is strictly after its Job. *)
Lemma after_cursor_of x y : after_cursor (cursor_of x) y = negb (newest_le y x).
Proof.
  unfold after_cursor, newest_le. simpl. rewrite ltb_not_leb.
  destruct (Z.ltb_spec (job_created_at_ms y) (job_created_at_ms x)),
    (Z.ltb_spec (job_created_at_ms x) (job_created_at_ms y)),
    (Z.eqb_spec (job_created_at_ms y) (job_created_at_ms x)),
    (Z.eqb_spec (job_created_at_ms x) (job_created_at_ms y)); simpl; auto; lia.
Qed.

(** A Job before an admitted one is not needed to compare: cursors compose. *)
Lemma after_cursor_trans c x y :
  after_cursor c x = true -> after_cursor (cursor_of x) y = true -> after_cursor c y = true.
Proof.
  unfold after_cursor. simpl. rewrite !orb_true_iff, !andb_true_iff, !Z.ltb_lt, !Z.eqb_eq.
  rewrite !ltb_not_leb, !negb_true_iff.
  intros [H1 | [H1 L1]] [H2 | [H2 L2]]; [left; lia.. | right]. split; [lia | ].
  destruct (String.leb (jlc_job_id c) (job_job_id y)) eqn:Hc; [ | done].
  destruct (String.leb_total (job_job_id x) (job_job_id y)) as [Hl | Hl]; [congruence | ].
  by rewrite (string_leb_trans _ _ _ Hc Hl) in L1.
Qed.

(** ** Sorted sublists *)

Lemma StronglySorted_List_filter {A} (R : A -> A -> Prop) f l :
  StronglySorted R l -> StronglySorted R (List.filter f l).
Proof.
  induction 1 as [ | x l Hs IH Hx]; simpl; [constructor | ].
  destruct (f x); [ | done]. constructor; [done | ].
  rewrite Forall_forall in *. intros y Hy. apply Hx.
  apply list_elem_of_In, filter_In in Hy as [Hy _]. by apply list_elem_of_In.
Qed.

Lemma Permutation_List_filter {A} (f : A -> bool) l l' :
  l ≡ₚ l' -> List.filter f l ≡ₚ List.filter f l'.
Proof.
  induction 1; simpl; repeat case_match; auto; [by constructor | by etrans].
Qed.

Lemma List_filter_andb {A} (f g : A -> bool) l :
  List.filter (fun x => f x && g x) l = List.filter g (List.filter f l).
Proof.
  induction l as [ | x l IH]; [done | ]. simpl. destruct (f x); simpl; [ | done].
  by destruct (g x); rewrite IH.
Qed.

Lemma List_filter_ext_in {A} (f g : A -> bool) l :
  (forall x, x ∈ l -> f x = g x) -> List.filter f l = List.filter g l.
Proof. intros H. apply filter_ext_in. intros x Hx. by apply H, list_elem_of_In. Qed.

Lemma List_filter_all {A} (f : A -> bool) l :
  (forall x, x ∈ l -> f x = true) -> List.filter f l = l.
Proof.
  intros H. induction l as [ | x l IH]; [done | ]. simpl.
  rewrite H by apply list_elem_of_here. f_equal. apply IH. intros y Hy. apply H.
  by apply list_elem_of_further.
Qed.

Lemma List_filter_none {A} (f : A -> bool) l :
  (forall x, x ∈ l -> f x = false) -> List.filter f l = [].
Proof.
  intros H. induction l as [ | x l IH]; [done | ]. simpl.
  rewrite H by apply list_elem_of_here. apply IH. intros y Hy. apply H.
  by apply list_elem_of_further.
Qed.

(** ** The rows of a request *)

Definition rows_of (request : RuntimeJobListRequest) (d : Db) : list RuntimeJobRecord :=
  jobs_newest_first (list_where request) d.

Definition with_cursor (cursor : RuntimeJobListCursor) (request : RuntimeJobListRequest)
    : RuntimeJobListRequest :=
  {| jlr_limit := jlr_limit request; jlr_cursor := Some cursor;
     jlr_client_request_id := jlr_client_request_id request;
     jlr_workspace_id := jlr_workspace_id request |}.

Lemma elem_of_rows where_ d job :
  job ∈ jobs_newest_first where_ d <-> (exists k, db_jobs d !! k = Some job) /\ where_ job = true.
Proof.
  unfold jobs_newest_first. rewrite order_by_Permutation, list_elem_of_In, filter_In.
  rewrite <- list_elem_of_In, list_elem_of_fmap. split.
  - intros [([k j] & -> & Hin) Hw]. apply elem_of_map_to_list in Hin. eauto.
  - intros [[k Hk] Hw]. split; [ | done]. exists (k, job). split; [done | ].
    by apply elem_of_map_to_list.
Qed.

Lemma rows_sorted where_ d :
  StronglySorted (fun x y => newest_le x y = true) (jobs_newest_first where_ d).
Proof. apply order_by_sorted; [apply newest_le_total | apply newest_le_trans]. Qed.

Section wf.
Context (d : Db) (Hwf : store_wf d).

Lemma rows_same_id where1 where2 x y :
  x ∈ jobs_newest_first where1 d -> y ∈ jobs_newest_first where2 d ->
  job_job_id x = job_job_id y -> x = y.
Proof.
  intros [[k1 H1] _]%elem_of_rows [[k2 H2] _]%elem_of_rows He.
  destruct (wf_jobs _ Hwf _ _ H1) as [<- _]. destruct (wf_jobs _ Hwf _ _ H2) as [<- _]. congruence.
Qed.

Lemma rows_NoDup_ids where_ : NoDup (map job_job_id (jobs_newest_first where_ d)).
Proof.
  apply NoDup_fmap_2_strong.
  - intros x y Hx Hy. by apply (rows_same_id where_ where_).
  - unfold jobs_newest_first. rewrite order_by_Permutation. apply NoDup_ListNoDup, List.NoDup_filter.
    apply NoDup_ListNoDup, NoDup_fmap_2_strong; [ | apply NoDup_map_to_list].
    intros [k1 j1] [k2 j2] H1%elem_of_map_to_list H2%elem_of_map_to_list. simpl. intros <-.
    destruct (wf_jobs _ Hwf _ _ H1) as [<- _]. destruct (wf_jobs _ Hwf _ _ H2) as [<- _]. done.
Qed.

(** A further condition selects from the rows, in order. *)
Lemma rows_filter where_ f :
  jobs_newest_first (fun job => where_ job && f job) d
  = List.filter f (jobs_newest_first where_ d).
Proof.
  apply (StronglySorted_unique_strong (fun x y => newest_le x y = true)).
  - intros x y Hx Hy H1 H2. eapply rows_same_id; [exact Hx | | by apply newest_le_antisym].
    apply list_elem_of_In, filter_In in Hy as [Hy _]. by apply list_elem_of_In.
  - apply rows_sorted.
  - apply StronglySorted_List_filter, rows_sorted.
  - unfold jobs_newest_first. rewrite order_by_Permutation, List_filter_andb.
    apply Permutation_List_filter. by rewrite order_by_Permutation.
Qed.

(** The rows after a row are those its cursor admits. *)
Lemma rows_after where_ x l1 l2 :
  jobs_newest_first where_ d = l1 ++ x :: l2 ->
  List.filter (after_cursor (cursor_of x)) (jobs_newest_first where_ d) = l2.
Proof.
  intros He. pose proof (rows_sorted where_ d) as Hs. pose proof (rows_NoDup_ids where_) as Hnd.
  rewrite He in *. rewrite List.filter_app. rewrite List_filter_none.
  - simpl. rewrite after_cursor_of.
    assert (newest_le x x = true) as -> by (by destruct (newest_le_total x x)).
    simpl. apply List_filter_all. intros y Hy. rewrite after_cursor_of. apply negb_true_iff.
    destruct (newest_le y x) eqn:Hyx; [exfalso | done].
    apply StronglySorted_app_1_r, StronglySorted_cons in Hs as [Hx _].
    rewrite Forall_forall in Hx. specialize (Hx _ Hy).
    rewrite map_app in Hnd. apply NoDup_app in Hnd as (_ & _ & Hnd). simpl in Hnd.
    apply NoDup_cons in Hnd as [Hni _]. apply Hni.
    rewrite (newest_le_antisym _ _ Hx Hyx). by apply list_elem_of_fmap_2.
  - intros y Hy. rewrite after_cursor_of. apply negb_false_iff.
    exact (StronglySorted_app_1_elem_of _ _ _ y x Hs Hy ltac:(apply list_elem_of_here)).
Qed.

Lemma rows_of_with_cursor request x l1 l2 :
  rows_of request d = l1 ++ x :: l2 -> rows_of (with_cursor (cursor_of x) request) d = l2.
Proof.
  intros He. rewrite <- (rows_after (list_where request) x l1 l2 He).
  unfold rows_of. rewrite <- rows_filter. unfold jobs_newest_first. f_equal.
  apply List_filter_ext_in. intros y _. unfold list_where.
  change (listed (with_cursor (cursor_of x) request) y) with (listed request y).
  destruct (listed request y); simpl; [ | done].
  destruct (jlr_cursor request) as [c | ] eqn:Hc; simpl; [ | done].
  assert (Hx : after_cursor c x = true).
  { assert (Hin : x ∈ rows_of request d)
      by (rewrite He; apply elem_of_app; right; apply list_elem_of_here).
    apply elem_of_rows in Hin as [_ Hw]. unfold list_where in Hw. rewrite Hc in Hw.
    by apply andb_prop in Hw as [_ Hw]. }
  destruct (after_cursor (cursor_of x) y) eqn:Hy; [ | by rewrite andb_false_r].
  by rewrite (after_cursor_trans _ _ _ Hx Hy).
Qed.

(** One page: the first rows, and a cursor to the rest when there is a rest. *)
Lemma fetch_page_spec request :
  0 < jlr_limit request ->
  exists page next, fetch_page request d = (page, next)
  /\ match next with
     | None => page = rows_of request d
     | Some cursor => page <> []
         /\ rows_of request d = page ++ rows_of (with_cursor cursor request) d
         /\ exists job, job ∈ page /\ cursor = cursor_of job
     end.
Proof.
  intros Hl. unfold fetch_page, page_of. fold (rows_of request d).
  set (n := Z.to_nat (jlr_limit request)).
  replace (Z.to_nat (jlr_limit request + 1)) with (S n) by lia.
  rewrite take_take, length_take. replace (n `min` S n)%nat with n by lia.
  destruct (Z.ltb_spec (jlr_limit request) (Z.of_nat (S n `min` length (rows_of request d)))).
  - assert (Hlen : (n < length (rows_of request d))%nat) by lia.
    destruct (last (take n (rows_of request d))) as [x | ] eqn:Hlast.
    2: { apply last_None, (f_equal length) in Hlast. rewrite length_take in Hlast. simpl in Hlast. lia. }
    apply last_Some in Hlast as [l1 Hl1]. eexists _, (Some (cursor_of x)). split; [done | ].
    rewrite Hl1. split; [by destruct l1 | ]. split.
    + rewrite (rows_of_with_cursor request x l1 (drop n (rows_of request d))).
      * by rewrite <- Hl1, take_drop.
      * rewrite <- (take_drop n (rows_of request d)) at 1. by rewrite Hl1, <- app_assoc.
    + exists x. split; [ | done]. apply elem_of_app. right. apply list_elem_of_here.
  - eexists _, None. split; [done | ]. apply take_ge. lia.
Qed.
End wf.

(** ** Summaries *)

Section summaries.
Context `{P : Platform} `{L : !PlatformLaws P}.

Lemma any_count {V} (f : V -> bool) (m : gmap string V) :
  any f m = (0 <? Z.of_nat (length (List.filter (fun kv => f kv.2) (map_to_list m)))).
Proof.
  unfold any. induction (map_to_list m) as [ | x l IH]; [done | ]. simpl.
  destruct (f x.2); simpl; [ | done]. symmetry. apply Z.ltb_lt. lia.
Qed.

(** What a summary shows of a Job: its snapshot, its plan, its Artifacts. *)
Definition summarizes (observed_at_ms : Z) (d : Db) (job : RuntimeJobRecord)
    (summary : RuntimeJobSummary) : Prop :=
  exists snap plan, load_job_snapshot (job_job_id job) d = Ok snap /\ snap_job snap = job
    /\ parse_execution_plan job = Ok plan
    /\ summary = summary_of observed_at_ms job (snap_attempt snap) (snap_projection snap) plan
                   (job_artifact_count (job_job_id job) d).

Lemma summarize_total observed_at_ms d k job :
  store_wf d -> origins d -> db_jobs d !! k = Some job ->
  exists summary, summarize observed_at_ms job d = Ok (summary, d)
    /\ summarizes observed_at_ms d job summary.
Proof.
  intros Hwf Hor Hk. destruct (wf_jobs _ Hwf _ _ Hk) as (Hid & (a & row & Hrow & Hj) & _).
  specialize (Hor k). rewrite Hk in Hor. destruct Hor as [request Ho].
  destruct (origin_job _ _ _ Ho) as (job' & ids & digest & at_ms & Hk' & Hd & Hsame). simplify_eq.
  assert (Hplan : parse_execution_plan job = Ok (sub_plan request))
    by (apply job_of_plan; by exists ids, digest, at_ms).
  rewrite <- Hj in Hk. pose proof (snapshot_attempt_run _ _ _ _ Hwf Hrow Hk) as Hsnap.
  pose proof (load_job_snapshot_total _ _ _ _ Hwf Hrow Hk) as Hload. rewrite Hj in Hload.
  eexists. split.
  - unfold summarize. rewrite (tx_bind_run (snapshot_attempt job) _ d _ d Hsnap).
    erewrite tx_bind_run by reflexivity. erewrite tx_bind_run by reflexivity. cbv zeta.
    erewrite tx_bind_run by (by apply lift_run). reflexivity.
  - exists (snapshot_of job row d), (sub_plan request). split; [done | split; [done | ]].
    split; [done | ]. unfold snapshot_of, summary_of. simpl. rewrite any_count. reflexivity.
Qed.

Lemma summarize_page observed_at_ms d page :
  store_wf d -> origins d -> (forall job, job ∈ page -> exists k, db_jobs d !! k = Some job) ->
  exists summaries, mapM (summarize observed_at_ms) page d = Ok (summaries, d)
    /\ Forall2 (summarizes observed_at_ms d) page summaries.
Proof.
  intros Hwf Hor. induction page as [ | job page IH]; intros Hin.
  - exists []. split; [done | constructor].
  - destruct (Hin job) as [k Hk]; [apply list_elem_of_here | ].
    destruct (summarize_total observed_at_ms d k job Hwf Hor Hk) as (s & Hs & Hsum).
    destruct IH as (ss & Hss & Hall); [intros j Hj; apply Hin; by apply list_elem_of_further | ].
    exists (s :: ss). split; [ | by constructor]. cbn [mapM].
    rewrite (tx_bind_run _ _ _ _ _ Hs), (tx_bind_run _ _ _ _ _ Hss). done.
Qed.

Lemma summarizes_ids now d page summaries :
  Forall2 (summarizes now d) page summaries -> map js_job_id summaries = map job_job_id page.
Proof.
  induction 1 as [ | job s page ss (snap & plan & _ & _ & _ & ->) _ IH]; [done | ].
  simpl. by rewrite IH.
Qed.

(** A request of the API: [limit] is a [u32]. *)
Definition list_request_ok (request : RuntimeJobListRequest) : Prop :=
  0 <= jlr_limit request /\ validate_list_request request = Ok tt.

Lemma list_request_ok_limit request : list_request_ok request -> 0 < jlr_limit request.
Proof.
  intros [Hl Hv]. unfold validate_list_request in Hv. inv_ok. bool_props. lia.
Qed.

Lemma list_request_ok_cursor c request :
  list_request_ok request -> list_request_ok (with_cursor c request).
Proof. done. Qed.

(** The page of a request and its summaries. *)
Lemma list_jobs_page now request d :
  store_wf d -> origins d -> list_request_ok request ->
  exists page next summaries,
    list_jobs io_ok (Ok now) request d = Ok {| jl_jobs := summaries; jl_next_cursor := next |}
    /\ Forall2 (summarizes now d) page summaries
    /\ fetch_page request d = (page, next)
    /\ match next with
       | None => page = rows_of request d
       | Some cursor => page <> []
           /\ rows_of request d = page ++ rows_of (with_cursor cursor request) d
           /\ exists job, job ∈ page /\ cursor = cursor_of job
       end.
Proof.
  intros Hwf Hor Hok. pose proof (list_request_ok_limit _ Hok) as Hl. destruct Hok as [_ Hv].
  destruct (fetch_page_spec d Hwf request Hl) as (page & next & Hpage & Hspec).
  assert (Hin : forall job, job ∈ page -> exists k, db_jobs d !! k = Some job).
  { intros job Hj. enough (Hr : job ∈ rows_of request d)
      by (by apply elem_of_rows in Hr as [? _]).
    destruct next; [destruct Hspec as (_ & -> & _); apply elem_of_app; by left | by subst]. }
  destruct (summarize_page now d page Hwf Hor Hin) as (ss & Hss & Hall).
  assert (Hrun : list_jobs_tx (Ok now) request d
    = Ok (commit_or_fail "cannot close Job list read snapshot"
            (fun _ => Ok {| jl_jobs := ss; jl_next_cursor := next |}), d)).
  { unfold list_jobs_tx. erewrite tx_bind_run by reflexivity.
    erewrite tx_bind_run by reflexivity. rewrite Hpage. simpl.
    erewrite tx_bind_run by exact Hss. reflexivity. }
  exists page, next, ss. split; [ | by split]. unfold list_jobs. rewrite Hv. simpl.
  by rewrite (with_tx_ok _ _ _ _ _ _ _ Hrun).
Qed.
End summaries.

(** ** Following the cursor *)

Section walk.
Context `{P : Platform} `{L : !PlatformLaws P}.

(** A client that asks for page after page until no cursor comes back; the
    [i]-th page is read from the [i]-th database. *)
Fixpoint walk (now : Z) (request : RuntimeJobListRequest) (dbs : list Db)
    : option (RuntimeResult (list RuntimeJobSummary)) :=
  match dbs with
  | [] => None
  | d :: rest =>
      match list_jobs io_ok (Ok now) request d with
      | Err e => Some (Err e)
      | Ok result =>
          match jl_next_cursor result with
          | None => Some (Ok (jl_jobs result))
          | Some cursor =>
              match walk now (with_cursor cursor request) rest with
              | Some (Ok summaries) => Some (Ok (jl_jobs result ++ summaries))
              | other => other
              end
          end
      end
  end.

Lemma walk_terminates now n : forall request d,
  store_wf d -> origins d -> list_request_ok request -> (length (rows_of request d) < n)%nat ->
  exists summaries, walk now request (replicate n d) = Some (Ok summaries)
    /\ Forall2 (summarizes now d) (rows_of request d) summaries.
Proof.
  induction n as [ | n IH]; intros request d Hwf Hor Hok Hlen; [lia | ]. cbn [replicate walk].
  destruct (list_jobs_page now request d Hwf Hor Hok) as (page & next & ss & -> & Hall & _ & Hspec).
  cbn [jl_next_cursor jl_jobs]. destruct next as [c | ]; [ | subst; eauto].
  destruct Hspec as (Hne & Hrows & _).
  destruct (IH (with_cursor c request) d Hwf Hor) as (rest & -> & Hrest).
  - by apply list_request_ok_cursor.
  - rewrite Hrows, length_app in Hlen. destruct page; simpl in *; [done | lia].
  - exists (ss ++ rest). split; [done | ]. rewrite Hrows. by apply Forall2_app.
Qed.

(** C39: paging terminates and is exact.  On a reachable database a client that
    follows [nextCursor] from any valid request gets a last page after at most
    one request per matching Job plus one; together the pages show every
    matching Job after the starting cursor exactly once, newest first, each
    with the projection that [load_job_snapshot] reports, and nothing else. *)
Theorem listing_terminates now request d n :
  registry_reachable d -> list_request_ok request -> (length (rows_of request d) < n)%nat ->
  exists summaries, walk now request (replicate n d) = Some (Ok summaries)
    /\ Forall2 (summarizes now d) (rows_of request d) summaries
    /\ NoDup (map js_job_id summaries)
    /\ StronglySorted (fun x y => newest_le x y = true) (rows_of request d)
    /\ (forall k, k ∈ map js_job_id summaries <->
          exists job, db_jobs d !! k = Some job /\ list_where request job = true).
Proof.
  intros Hr Hok Hlen. pose proof (reachable_wf d Hr) as Hwf.
  destruct (walk_terminates now n request d Hwf (reachable_origins d Hr) Hok Hlen)
    as (ss & Hwalk & Hall).
  exists ss. split; [done | split; [done | ]]. rewrite (summarizes_ids _ _ _ _ Hall).
  split; [by apply rows_NoDup_ids | split; [apply rows_sorted | ]].
  intros k. rewrite list_elem_of_fmap. split.
  - intros (job & -> & Hin). apply elem_of_rows in Hin as [[k' Hk] Hw].
    destruct (wf_jobs _ Hwf _ _ Hk) as [-> _]. eauto.
  - intros (job & Hk & Hw). destruct (wf_jobs _ Hwf _ _ Hk) as [Hid _].
    exists job. split; [done | ]. apply elem_of_rows. eauto.
Qed.
(** Databases in the order in which a client finds them. *)
Fixpoint later (d : Db) (dbs : list Db) : Prop :=
  match dbs with
  | [] => True
  | d' :: rest => rtc registry_step d d' /\ later d' rest
  end.

Lemma list_where_same request job job' :
  same_job_identity job job' -> list_where request job' = list_where request job.
Proof.
  intros (Hid & _ & Hc & _ & _ & Hw & _ & _ & _ & Hat).
  unfold list_where, listed, after_cursor. by rewrite Hid, Hc, Hw, Hat.
Qed.

Lemma later_job d dbs d' k job :
  later d dbs -> d' ∈ dbs -> db_jobs d !! k = Some job ->
  exists job', db_jobs d' !! k = Some job' /\ same_job_identity job job'.
Proof.
  revert d job. induction dbs as [ | d1 dbs IH]; intros d job Hl Hin Hk; [by apply not_elem_of_nil in Hin | ].
  destruct Hl as [Hrun Hl]. destruct (run_identity _ _ Hrun) as [Hj _].
  destruct (Hj _ _ Hk) as (job1 & Hk1 & Hs). apply elem_of_cons in Hin as [-> | Hin]; [eauto | ].
  destruct (IH _ _ Hl Hin Hk1) as (job2 & Hk2 & Hs2). exists job2. split; [done | by etrans].
Qed.

(** What a page's cursor admits, the request admitted. *)
Lemma list_where_next request x y :
  list_where request x = true -> list_where (with_cursor (cursor_of x) request) y = true ->
  list_where request y = true.
Proof.
  unfold list_where. intros [_ Hx]%andb_prop [Hl Hy]%andb_prop.
  change (listed request y = true) in Hl. rewrite Hl. simpl in Hy.
  destruct (jlr_cursor request) as [c | ]; [ | done]. by apply (after_cursor_trans c x y).
Qed.

(** A page and what its cursor leaves are disjoint. *)
Lemma page_rest_disjoint request d page c k job :
  store_wf d -> rows_of request d = page ++ rows_of (with_cursor c request) d ->
  db_jobs d !! k = Some job -> k ∈ map job_job_id page ->
  list_where (with_cursor c request) job = true -> False.
Proof.
  intros Hwf Hrows Hk Hin Hw. pose proof (rows_NoDup_ids d Hwf (list_where request)) as Hnd.
  unfold rows_of at 1 in Hrows. rewrite Hrows, map_app in Hnd.
  apply NoDup_app in Hnd as (_ & Hnd & _). apply (Hnd k Hin).
  destruct (wf_jobs _ Hwf _ _ Hk) as [<- _]. apply list_elem_of_fmap_2, elem_of_rows. eauto.
Qed.

(** The Jobs of a page are rows of the request. *)
Lemma page_rows request d (page : list RuntimeJobRecord) (next : option RuntimeJobListCursor) :
  store_wf d ->
  match next with
  | None => page = rows_of request d
  | Some cursor => page <> [] /\ rows_of request d = page ++ rows_of (with_cursor cursor request) d
      /\ exists job, job ∈ page /\ cursor = cursor_of job
  end ->
  (forall job, job ∈ page -> list_where request job = true)
  /\ (forall k, k ∈ map job_job_id page ->
        exists job, db_jobs d !! k = Some job /\ list_where request job = true)
  /\ NoDup (map job_job_id page).
Proof.
  intros Hwf Hspec.
  assert (Hrow : exists rest, rows_of request d = page ++ rest)
    by (destruct next; [destruct Hspec as (_ & -> & _); eauto | exists []; by rewrite app_nil_r]).
  destruct Hrow as [rest Hrow].
  assert (Hin : forall job, job ∈ page ->
            (exists k, db_jobs d !! k = Some job) /\ list_where request job = true).
  { intros job Hj. apply elem_of_rows. change (job ∈ rows_of request d). rewrite Hrow.
    apply elem_of_app. by left. }
  split; [intros job Hj; by apply Hin | split].
  - intros k (job & -> & Hj)%list_elem_of_fmap. destruct (Hin job Hj) as [[k Hk] Hw].
    destruct (wf_jobs _ Hwf _ _ Hk) as [-> _]. eauto.
  - pose proof (rows_NoDup_ids d Hwf (list_where request)) as Hnd.
    change (NoDup (map job_job_id (rows_of request d))) in Hnd. rewrite Hrow, map_app in Hnd.
    by apply NoDup_app in Hnd as [? _].
Qed.

(** A Job listed now is listed later. *)
Lemma listed_later request d d' k job :
  store_wf d' -> rtc registry_step d d' -> db_jobs d !! k = Some job ->
  list_where request job = true ->
  exists job', db_jobs d' !! k = Some job' /\ job' ∈ rows_of request d' /\ job_job_id job' = k.
Proof.
  intros Hwf Hrun Hk Hw. destruct (run_identity _ _ Hrun) as [Hj _].
  destruct (Hj _ _ Hk) as (job' & Hk' & Hs). exists job'. split; [done | ].
  split; [apply elem_of_rows; rewrite (list_where_same _ _ _ Hs); eauto | ].
  apply (wf_jobs _ Hwf _ _ Hk').
Qed.

Lemma walk_complete now dbs : forall request d ss,
  registry_reachable d -> later d dbs -> list_request_ok request ->
  walk now request dbs = Some (Ok ss) ->
  NoDup (map js_job_id ss)
  /\ (forall k job, db_jobs d !! k = Some job -> list_where request job = true ->
        k ∈ map js_job_id ss)
  /\ (forall k, k ∈ map js_job_id ss -> exists d' job, d' ∈ dbs /\ db_jobs d' !! k = Some job
        /\ list_where request job = true).
Proof.
  induction dbs as [ | d1 dbs IH]; intros request d0 ss Hr Hl Hok Hwalk; [done | ].
  destruct Hl as [Hrun Hl]. cbn [walk] in Hwalk.
  assert (Hr1 : registry_reachable d1) by (unfold registry_reachable in *; by etrans).
  pose proof (reachable_wf d1 Hr1) as Hwf.
  destruct (list_jobs_page now request d1 Hwf (reachable_origins d1 Hr1) Hok)
    as (page & next & ps & Hlist & Hall & _ & Hspec).
  rewrite Hlist in Hwalk. cbn [jl_next_cursor jl_jobs] in Hwalk.
  pose proof (summarizes_ids _ _ _ _ Hall) as Hids.
  destruct (page_rows request d1 page next Hwf Hspec) as (Hrow & Hpage & Hnd1).
  destruct next as [c | ].
  - destruct Hspec as (_ & Hrows & y & Hy & ->).
    destruct (walk now _ dbs) as [[rest | e] | ] eqn:Hrest; simplify_eq.
    destruct (IH (with_cursor (cursor_of y) request) d1 rest Hr1 Hl Hok Hrest) as (Hnd & Hcomp & Hsound).
    rewrite map_app, Hids. split; [ | split].
    + apply NoDup_app. split; [done | split; [ | done]]. intros k Hin Hin2.
      destruct (Hpage k Hin) as (job & Hk & _).
      destruct (Hsound k Hin2) as (d2 & job2 & Hd2 & Hk2 & Hw2).
      destruct (later_job _ _ _ _ _ Hl Hd2 Hk) as (job2' & Hk2' & Hs). simplify_eq.
      rewrite (list_where_same _ _ _ Hs) in Hw2. by eapply page_rest_disjoint.
    + intros k job Hk Hw. destruct (listed_later _ _ _ _ _ Hwf Hrun Hk Hw) as (job1 & Hk1 & Hin & <-).
      rewrite Hrows in Hin. apply elem_of_app. apply elem_of_app in Hin as [Hin | Hin].
      * left. by apply list_elem_of_fmap_2.
      * right. apply (Hcomp _ job1 Hk1). by apply elem_of_rows in Hin as [_ ?].
    + intros k [Hin | Hin]%elem_of_app.
      * destruct (Hpage k Hin) as (job & ? & ?). exists d1, job. split; [apply list_elem_of_here | done].
      * destruct (Hsound k Hin) as (d2 & job2 & Hd2 & Hk2 & Hw2). exists d2, job2.
        split; [by apply list_elem_of_further | ]. split; [done | ].
        by eapply list_where_next; [apply Hrow | ].
  - subst. simplify_eq. rewrite Hids. split; [done | split].
    + intros k job Hk Hw. destruct (listed_later _ _ _ _ _ Hwf Hrun Hk Hw) as (job1 & _ & Hin & <-).
      by apply list_elem_of_fmap_2.
    + intros k Hin. destruct (Hpage k Hin) as (job & ? & ?). exists d1, job.
      split; [apply list_elem_of_here | done].
Qed.

(** C40: paging loses nothing while the Registry runs on.  A client follows
    [nextCursor] to its end, each page read from a later database of one run:
    no Job is shown twice, every Job that was there when the client began and
    matches the request is shown, and every Job shown is a Job of one of those
    databases that matches. *)
Theorem listing_complete_under_change now request d dbs ss :
  registry_reachable d -> later d dbs -> list_request_ok request ->
  walk now request dbs = Some (Ok ss) ->
  NoDup (map js_job_id ss)
  /\ (forall k job, db_jobs d !! k = Some job -> list_where request job = true ->
        k ∈ map js_job_id ss)
  /\ (forall k, k ∈ map js_job_id ss -> exists d' job, d' ∈ dbs /\ db_jobs d' !! k = Some job
        /\ list_where request job = true).
Proof. apply walk_complete. Qed.
End walk.

(** ** Two Jobs, one to a page *)

Definition neighbour_request : SubmitRequest := {|
  sub_schema_version := RUNTIME_SCHEMA_VERSION;
  sub_client_request_id := "request-3";
  sub_request_identity_digest := None;
  sub_execution_provider := None;
  sub_runtime_release_effect := None;
  sub_host_dependencies := [];
  sub_plan := plan_in "ws-2" "/srv/ws-2";
  sub_global_limit := 4 |}.

Definition two_jobs_db : Db :=
  snd (submit_preallocated io_ok sample_config FenceAcquired (Ok 11) neighbour_request second_ids
         submitted_db).

Lemma two_jobs_reachable : registry_reachable two_jobs_db.
Proof. eapply step_reachable; [apply submitted_reachable | apply StepSubmit]. Qed.

Definition one_per_page : RuntimeJobListRequest := {|
  jlr_limit := 1; jlr_cursor := None; jlr_client_request_id := None; jlr_workspace_id := None |}.

Lemma one_per_page_ok : list_request_ok one_per_page.
Proof. split; [done | reflexivity]. Qed.

Lemma listing_terminates_witness :
  map job_job_id (rows_of one_per_page two_jobs_db) = ["job-2"; "job-1"]
  /\ exists summaries, walk 99 one_per_page (replicate 3 two_jobs_db) = Some (Ok summaries)
       /\ map js_job_id summaries = map job_job_id (rows_of one_per_page two_jobs_db).
Proof.
  split; [vm_compute; reflexivity | ].
  assert (Hlen : (length (rows_of one_per_page two_jobs_db) < 3)%nat)
    by (apply Nat.ltb_lt; vm_compute; reflexivity).
  destruct (listing_terminates 99 one_per_page two_jobs_db 3 two_jobs_reachable one_per_page_ok Hlen)
    as (ss & Hwalk & Hall & _).
  exists ss. split; [exact Hwalk | exact (summarizes_ids _ _ _ _ Hall)].
Defined.

Lemma listing_complete_under_change_witness :
  exists summaries, walk 99 one_per_page [submitted_db; two_jobs_db] = Some (Ok summaries)
    /\ "job-1"%string ∈ map js_job_id summaries.
Proof.
  destruct (walk 99 one_per_page [submitted_db; two_jobs_db]) as [[ss | e] | ] eqn:Hw;
    [ | exfalso; revert Hw; vm_compute; discriminate..].
  exists ss. split; [reflexivity | ].
  destruct (db_jobs submitted_db !! "job-1"%string) as [job | ] eqn:Hk;
    [ | exfalso; revert Hk; vm_compute; discriminate].
  assert (Hl : later submitted_db [submitted_db; two_jobs_db]).
  { split; [apply rtc_refl | ]. split; [apply rtc_once, StepSubmit | exact I]. }
  destruct (listing_complete_under_change 99 one_per_page submitted_db
              [submitted_db; two_jobs_db] ss submitted_reachable Hl one_per_page_ok Hw) as (_ & Hc & _).
  exact (Hc _ _ Hk eq_refl).
Defined.
