(* ===== verification/Effects.v ===== *)
(** * Programs that act on the outside

    [runtime/engine.rs] reads and writes files, asks systemd and the Windows
    launcher, reads clocks, and calls the Registry, while other threads and
    processes do the same.  A function of the engine is a [prog]: a tree of
    [call]s.  [runs] is its semantics.  The answer of a call on the Registry is
    the operation's own; every other answer is arbitrary; before each call
    other callers may have moved the database by any Registry operations; and
    the program may be stopped between two calls.  [wp] proves a program
    against a condition on every call it makes. *)

From S2P Require Import Prelude Text Errors Types Supervisor Platform Validation Submit Store.
From S2P Require Import Transaction Projection Lifecycle Admission Recovery AdminRepair Registry.
From S2P Require Import Query.

#[local] Open Scope Z_scope.

(** ** Calls *)

(** [std::io::Error] *)
Record IoFailure : Type := {
  io_text : string;
  io_interrupted : bool;
  io_not_found : bool;
  io_already_exists : bool;
  io_storage_full : bool;
}.

(** What [symlink_metadata] tells of a path. *)
Inductive FileKind : Type :=
  | RegularFile (len : Z)
  | Directory
  | Symlink
  | OtherKind.

(** What [metadata] and [symlink_metadata] tell of a path on Unix. *)
Record FileMetadata : Type := {
  md_kind : FileKind;
  md_dev : Z;
  md_ino : Z;
  md_mode : Z;
  md_uid : Z;
  md_size : Z;
  md_mtime : Z;
  md_mtime_nsec : Z;
  md_ctime : Z;
  md_ctime_nsec : Z;
}.

(** How a bounded child process ended. *)
Inductive CommandOutcome : Type :=
  | CommandExited (success : bool) (stdout stderr : string)
  | CommandNotSpawned (text : string)
  | CommandNotObserved (text : string)
  | CommandNotCollected (text : string)
  | CommandTimedOut.

(** [WindowsDeadlineOwnerTerminationDisposition] *)
Module WindowsDeadlineOwnerTerminationDisposition.
Inductive t : Type := Terminated | AlreadyAbsent | IdentityMismatch.
End WindowsDeadlineOwnerTerminationDisposition.

(** What a walk through a directory tree meets. *)
Inductive Walk : Type :=
  | Unreadable (error : IoFailure)
  | Listed (entries : Entries)
with Entries : Type :=
  | NoMore
  | BadEntry (error : IoFailure) (rest : Entries)
  | BadMetadata (name : string) (error : IoFailure) (rest : Entries)
  | Entry (name : string) (kind : FileKind) (below : Walk) (rest : Entries).

(** [Command::output()] of [systemd-run] *)
Record CommandOutput : Type := {
  out_success : bool;
  out_stdout : string;
  out_stderr : string;
}.

(** How [universal/runner.rs] starts a target: the program and its [argv], whether
    the environment is cleared and the variables that are set, the directory
    presented as a descriptor, the identity (user, group) that is dropped to, and
    the directory it runs in.  Every target leads its own process group, with no
    input and its output piped. *)
Record TargetCommand : Type := {
  tgt_program : string;
  tgt_arg0 : string;
  tgt_args : list string;
  tgt_clear_environment : bool;
  tgt_environment : gmap string string;
  tgt_build_target : option string;
  tgt_identity : option (Z * Z);
  tgt_cwd : string;
}.

(** [ExitStatus]: the code, or [None] if a signal ended the process. *)
Definition ExitStatus : Type := option Z.

(** [WindowsNativeLaunchObservation] *)
Record WindowsNativeLaunchObservation : Type := {
  wnl_launcher_process_id : Z;
  wnl_launcher_process_creation_time_file_time : Z;
}.

(** [WindowsNativeRunSpec], but for the configuration *)
Record WindowsNativeRunSpec : Type := {
  wns_bundle_path : string;
  wns_job_id : string;
  wns_attempt_id : string;
  wns_launch_token_digest : string;
  wns_request_digest : string;
  wns_authority : WindowsAuthority.t;
  wns_expected_privileged_broker_digest : option string;
  wns_expected_user_sid : option string;
  wns_expected_session_id : option Z;
  wns_executable : string;
  wns_args : list string;
  wns_cwd : string;
  wns_environment : gmap string string;
  wns_input_source_root : option string;
  wns_input_set_id : option string;
  wns_input_presentation_root : option string;
  wns_input_bindings_digest : option string;
  wns_budget : ExecutionBudget;
  wns_timeout_ms : Z;
  wns_stdout_limit_bytes : Z;
  wns_stderr_limit_bytes : Z;
}.

(** Of [WindowsRuntimeContextSnapshot] of [runtime/windows.rs], what the engine reads. *)
Record WindowsRuntimeContextSnapshot : Type := {
  wcs_environment : gmap string string;
  wcs_token_user_sid : string;
  wcs_session_id : option Z;
}.

(** The methods of [Registry] that the engine calls. *)
Inductive registry_op : Type -> Type :=
  | GetJob (job_id : string) : registry_op RuntimeJobRecord
  | GetAttempt (attempt_id : string) : registry_op AttemptRecord
  | GetReservation (attempt_id : string) : registry_op ReservationRecord
  | GetLatestAttempt (job_id : string) : registry_op (option AttemptRecord)
  | GetArtifact (job_id artifact_id : string) : registry_op RuntimeArtifactRecord
  | GetJobSnapshot (job_id : string) : registry_op JobSnapshot
  | ListArtifacts (job_id : string) : registry_op (list RuntimeArtifactRecord)
  | GetExecutionPlan (job_id : string) : registry_op RuntimeExecutionPlan
  | GetHostDependencies (job_id : string) : registry_op (list HostDependencyBinding)
  | GetExecutionProvider (job_id : string) : registry_op (option ExecutionProviderSnapshot)
  | GetRuntimeReleaseEffect (job_id : string) : registry_op (option RuntimeReleaseEffectBinding)
  | GetSupervisorOwner (attempt_id : string) : registry_op (option AttemptSupervisorOwner)
  | ListMaintenance (limit : Z) : registry_op (list AttemptRecord)
  | ListHeldOrphaned : registry_op (list AttemptRecord)
  | ListNonterminal : registry_op (list AttemptRecord)
  | ListWorkspaceAttempts (workspace_id : string) (limit : Z) : registry_op (list AttemptRecord)
  | MarkBundleReady (attempt_id : string) (expected_row_version : Z) (bundle_digest : string)
      (observed_at_ms : Z) : registry_op AttemptRecord
  | MarkDispatchIssued (attempt_id : string) (expected_row_version observed_at_ms : Z)
      : registry_op AttemptRecord
  | BindRunning (attempt_id : string) (expected_row_version : Z) (identity : RunnerIdentity)
      : registry_op AttemptRecord
  | BindSupervisorOwner (attempt_id : string) (expected_row_version : Z)
      (owner : AttemptSupervisorOwner) (observed_at_ms : Z) : registry_op AttemptRecord
  | CommitTerminal (request : TerminalCommit) : registry_op JobProjection
  | RecoverOrphanedTerminal (request : TerminalCommit) : registry_op JobProjection
  | ConvergeTerminalReservation (attempt_id : string) (observed_at_ms : Z) : registry_op bool
  | RecordReconciliationFailure (attempt : AttemptRecord) (error : RuntimeError)
      (observed_at_ms : Z) : registry_op unit
  | ClearReconciliationFailure (attempt_id : string) (observed_at_ms : Z) : registry_op unit
  | RequestDeadlineTermination (attempt_id : string) (observed_at_ms : Z)
      : registry_op AttemptRecord
  | RequestCancel (job_id : string) (observed_at_ms : Z) : registry_op JobProjection
  | RepairAdminBatch (operations : list AdminRepairOperation) : registry_op unit
  (** the read transaction of a read-only connection: what it sees *)
  | ReadSnapshot (context : string) : registry_op Db
  (** [submit_preallocated]: the clock and the admission fence it looks at are
      asked before *)
  | Submit (config : RegistryConfig) (fence : FenceIo) (now : RuntimeResult Z)
      (request : SubmitRequest) (ids : PreallocatedAdmissionIds) : registry_op AdmissionOutcome
  | FindIdempotentJob (principal client_request_id request_identity_digest : string)
      (compatible : option string) : registry_op (option RuntimeJobRecord)
  | FindRuntimeReleaseEffect (principal client_request_id : string)
      : registry_op (option (RuntimeJobRecord * RuntimeReleaseEffectBinding)).

(** Statements on a read-only connection to a database file. *)
Inductive sql_read : Type -> Type :=
  | SqlOpen : sql_read unit
  | SqlBusyTimeout (milliseconds : Z) : sql_read unit
  | SqlPragma (name : string) (value : bool) : sql_read unit
  | SqlIntegrityCheck : sql_read string
  | SqlForeignKeyCheck : sql_read (option string)
  | SqlMigrationVersion : sql_read Z
  (** before migration 5: the Attempts with a true [recovery_required] condition *)
  | SqlRecoveryConditions : sql_read (list string).

Inductive call : Type -> Type :=
  | Registry {R} (op : registry_op R) : call (RuntimeResult R)
  (** [now_ms] *)
  | NowMs : call (RuntimeResult Z)
  (** [Path::is_file], [Path::is_dir], [Path::exists] *)
  | IsFile (path : string) : call bool
  | IsDir (path : string) : call bool
  | PathExists (path : string) : call bool
  (** [fs::read], [fs::read_to_string] *)
  | ReadFile (path : string) : call (result IoFailure string)
  | ReadText (path : string) : call (result IoFailure string)
  (** [File::open], [seek], and one [read] of at most [limit] bytes from the offset *)
  | OpenFile (path : string) : call (result IoFailure unit)
  | SeekFile (path : string) (offset : Z) : call (result IoFailure unit)
  | ReadUpTo (path : string) (offset limit : Z) : call (result IoFailure string)
  (** [fs::metadata(..).len()], [fs::metadata(..).modified()] in milliseconds *)
  | FileLen (path : string) : call (result IoFailure Z)
  | FileModifiedMs (path : string) : call (result IoFailure Z)
  | SymlinkMetadata (path : string) : call (result IoFailure FileKind)
  (** [symlink_metadata] with [is_executable_file], and the walk of a directory *)
  | ExecutableMetadata (path : string) : call (result IoFailure (FileKind * bool))
  | ReadDir (path : string) : call (result IoFailure (list (result IoFailure string)))
  | WalkTree (path : string) : call Walk
  (** [fs::canonicalize], [canonical_directory] of [universal/fsutil.rs] *)
  | Canonicalize (path : string) : call (result IoFailure string)
  | CanonicalDirectory (path field : string) : call (result UniversalExecError string)
  (** [open_regular_file_nofollow] *)
  | OpenNoFollow (path : string) : call (result IoFailure unit)
  | CreateDirAll (path : string) : call (result IoFailure unit)
  (** [fs::create_dir], [remove_dir_all], [set_permissions] *)
  | CreateDir (path : string) : call (result IoFailure unit)
  | RemoveDirAll (path : string) : call (result IoFailure unit)
  | SetMode (path : string) (mode : Z) : call (result IoFailure unit)
  (** [OpenOptions::create_new], [write_all], [sync_all] *)
  | CreateNew (path : string) : call (result IoFailure unit)
  | WriteAll (path content : string) : call (result IoFailure unit)
  | SyncFile (path : string) : call (result IoFailure unit)
  (** [sync_directory], [rename_path_durable] of [universal/fsutil.rs] *)
  | SyncDirectory (path : string) : call (result UniversalExecError unit)
  | RenameDurable (source destination : string) (replace_existing : bool) (operation : string)
      : call (result UniversalExecError unit)
  (** [Uuid::now_v7()] *)
  | FreshUuid : call string
  (** [write_bytes_atomic], [sha256_file] of [universal/fsutil.rs] *)
  | WriteAtomic (path content : string) : call (result UniversalExecError unit)
  | Sha256File (path : string) : call (result UniversalExecError string)
  (** [bounded_observation_output] of [systemctl] with the arguments *)
  | Systemctl (arguments : list string) : call CommandOutcome
  (** how many more times a polling loop runs before its deadline has passed *)
  | PollBudget : call nat
  (** the same, from now on for the milliseconds; [None] if the clock cannot
      represent the deadline *)
  | StartupDeadline (grace_ms : Z) : call (option nat)
  (** the [control_terminal_lock] *)
  | LockControlTerminal : call (RuntimeResult unit)
  (** the Windows launcher and its broker *)
  | ObserveWindowsLauncherOwner (authority : WindowsAuthority.t) (broker_digest : option string)
      (process_id : Z) : call (RuntimeResult WindowsLauncherOwnerObservation)
  | TerminateWindowsLauncherOwner (authority : WindowsAuthority.t) (broker_digest : option string)
      (process_id creation_time : Z)
      : call (RuntimeResult WindowsDeadlineOwnerTerminationDisposition.t)
  (** processes are started: [systemd-run] for the unit with the arguments, and
      [spawn_windows_native]; the environment that is handed on, [std::env::vars_os()] *)
  | EnvironmentVariables : call (list (string * string))
  | SystemdRun (unit_name : string) (arguments : list string) : call (result IoFailure CommandOutput)
  | SpawnWindowsNative (spec : WindowsNativeRunSpec)
      : call (RuntimeResult WindowsNativeLaunchObservation)
  (** [systemctl --no-block stop] *)
  | StopUnit (unit_name : string) : call (result IoFailure CommandOutput)
  (** the [lifecycle_lock] *)
  | LockLifecycle : call (RuntimeResult unit)
  (** what opening and share-locking the admission fence does *)
  | AdmissionFence : call FenceIo
  (** [metadata] (which follows a symbolic link) and [symlink_metadata] *)
  | Metadata (path : string) (follow : bool) : call (result IoFailure FileMetadata)
  | ReadLink (path : string) : call (result IoFailure string)
  | CreateSymlink (target link : string) : call (result IoFailure unit)
  | EffectiveUid : call Z
  (** [DirBuilder::mode(..).create] *)
  | CreateDirMode (path : string) (mode : Z) : call (result IoFailure unit)
  (** [git] with the arguments *)
  | Git (arguments : list string) : call (result IoFailure CommandOutput)
  (** [snapshot_windows_runtime_context] of [runtime/windows.rs] *)
  | SnapshotWindowsContext (authority : WindowsAuthority.t)
      : call (RuntimeResult WindowsRuntimeContextSnapshot)
  (** [open_regular_file_beneath] the directory that an authority holds open *)
  | OpenBeneath (authority path : string) : call (result IoFailure unit)
  (** [OpenOptions::create_new] with a mode; [io::copy] of the file that was opened
      to the one that was created *)
  | CreateNewMode (path : string) (mode : Z) : call (result IoFailure unit)
  | CopyOpened (target : string) : call (result IoFailure unit)
  (** [OpenOptions::read(true).write(true)], [File::try_lock], [remove_file] *)
  | OpenReadWrite (path : string) : call (result IoFailure unit)
  | TryLockFile (path : string) : call (result (option IoFailure) unit)
  | RemoveFile (path : string) : call (result IoFailure unit)
  (** [SystemTime::now()], in nanoseconds since the Unix epoch *)
  | SystemTimeNanos : call Z
  (** [now_unix_ms] of [universal/fsutil.rs]; [Instant::now()], in nanoseconds; how
      often a loop that pauses comes by before an instant has passed *)
  | UnixMs : call (result UniversalExecError Z)
  | InstantNow : call Z
  | PollsBefore (deadline : Z) : call nat
  (** [std::env::var], [std::process::id] *)
  | EnvironmentVariable (name : string) : call (option string)
  | ProcessId : call Z
  (** [inotify_init1], [inotify_add_watch], and the reads of the descriptor one
      after another, until one gives nothing or fails; [None] if there is nothing
      to read *)
  | InotifyInit : call (result IoFailure Z)
  | InotifyAddWatch (fd : Z) (path : string) (mask : Z) : call (result IoFailure Z)
  | InotifyReads (fd : Z) : call (list (result (option IoFailure) string))
  (** [File::create], [OpenOptions::append] *)
  | CreateFile (path : string) : call (result IoFailure unit)
  | OpenAppend (path : string) : call (result IoFailure unit)
  (** a target: [Command::spawn], [try_wait], [wait], the reads of its standard
      output or error one after another, and [kill] of its process group ([None] if
      there is no such group) *)
  | SpawnTarget (command : TargetCommand) : call (result IoFailure Z)
  | TryWaitTarget (pid : Z) : call (result IoFailure (option ExitStatus))
  | WaitTarget (pid : Z) : call (result IoFailure ExitStatus)
  | PipeReads (pid : Z) (stdout : bool) : call (list (result IoFailure string))
  | KillProcessGroup (pgid : Z) : call (result (option IoFailure) unit)
  (** a read-only connection to a database file; the rows of a backup, which
      nobody changes, or the error of the statement that reads them;
      [Registry::initialize] *)
  | Sql {R} (path : string) (statement : sql_read R) : call (result SqlError R)
  | BackupRows (path : string) : call (RuntimeResult Db)
  | InitializeRegistry (db_path store_root : string) (busy_timeout_ms : Z)
      : call (RuntimeResult unit).

(** A call that was made and its answer. *)
Inductive event : Type :=
  | Event {R} (c : call R) (answer : R).

Definition history : Type := list event.

(** ** Programs *)

Inductive prog (A : Type) : Type :=
  | Ret (a : A)
  | Vis {R} (c : call R) (k : R -> prog A).
Arguments Ret {A} a.
Arguments Vis {A R} c k.

Fixpoint prog_bind {A B} (f : A -> prog B) (p : prog A) : prog B :=
  match p with
  | Ret a => f a
  | Vis c k => Vis c (fun r => prog_bind f (k r))
  end.

#[export] Instance prog_mret : MRet prog := fun A a => Ret a.
#[export] Instance prog_mbind : MBind prog := fun A B f p => prog_bind f p.

Definition perform {R} (c : call R) : prog R := Vis c Ret.

(** A program that may fail: its [?] is the monadic bind. *)
Definition eff (A : Type) : Type := prog (RuntimeResult A).

#[export] Instance eff_mret : MRet eff := fun A a => Ret (Ok a).
#[export] Instance eff_mbind : MBind eff := fun A B f p =>
  prog_bind (fun r => match r with Ok a => f a | Err e => Ret (Err e) end) p.
#[export] Instance eff_fmap : FMap eff := fun A B f p =>
  prog_bind (fun r => Ret (f <$> r)) p.

(** A call whose answer is no [Result], one whose answer is a [RuntimeResult],
    and one whose error is mapped. *)
Definition ask {R} (c : call R) : eff R := Vis c (fun r => Ret (Ok r)).
Definition try {R} (c : call (RuntimeResult R)) : eff R := Vis c Ret.
Definition try_map {E R} (f : E -> RuntimeError) (c : call (result E R)) : eff R :=
  Vis c (fun r => Ret (map_err f r)).
Definition registry {R} (op : registry_op R) : eff R := try (Registry op).
Definition throw {A} (e : RuntimeError) : eff A := Ret (Err e).
Definition of_result {A} (r : RuntimeResult A) : eff A := Ret r.
(** [match p { Ok(a) => .., Err(e) => .. }] *)
Definition catch {A B} (p : eff A) (f : RuntimeResult A -> eff B) : eff B := prog_bind f p.
(** A program that cannot fail, among those that may. *)
Definition infallible {A} (p : prog A) : eff A := prog_bind (fun a => Ret (Ok a)) p.
(** [condition.then(p)] where the program runs only if the condition holds *)
Definition and_then (b : bool) (p : eff bool) : eff bool := if b then p else mret false.

(** [for x in l { f(x)?; }] that threads an accumulator. *)
Fixpoint fold_eff {A B} (f : B -> A -> eff B) (acc : B) (l : list A) : eff B :=
  match l with
  | [] => mret acc
  | x :: rest => acc ← f acc x; fold_eff f acc rest
  end.

(** A program of [universal/], with its own error. *)
Definition ueff (A : Type) : Type := prog (result UniversalExecError A).

#[export] Instance ueff_mret : MRet ueff := fun A a => Ret (Ok a).
#[export] Instance ueff_mbind : MBind ueff := fun A B f p =>
  prog_bind (fun r => match r with Ok a => f a | Err e => Ret (Err e) end) p.

Definition uask {R} (c : call R) : ueff R := Vis c (fun r => Ret (Ok r)).
Definition utry {R} (c : call (result UniversalExecError R)) : ueff R := Vis c Ret.
Definition utry_map {E R} (f : E -> UniversalExecError) (c : call (result E R)) : ueff R :=
  Vis c (fun r => Ret (map_err f r)).
Definition uthrow {A} (e : UniversalExecError) : ueff A := Ret (Err e).
Definition uresult {A} (r : result UniversalExecError A) : ueff A := Ret r.
(** [p.map_err(f)?] *)
Definition with_error {A} (f : UniversalExecError -> RuntimeError) (p : ueff A) : eff A :=
  prog_bind (fun r => Ret (map_err f r)) p.

(** The call just made is in the history. *)
Lemma last_event (e : event) (h : history) : e ∈ (h ++ [e] : history).
Proof. apply elem_of_app. right. by apply list_elem_of_singleton. Qed.

(** ** Semantics *)

Section semantics.
Context `{P : Platform}.

(** The answer of a Registry method: [d0] is the database of a read that the
    method makes before it begins its transaction on [d]. *)
Definition apply_op {R} (op : registry_op R) (io : TxIo) (d0 d : Db) : RuntimeResult R * Db :=
  match op in registry_op R return RuntimeResult R * Db with
  | GetJob job_id => (get_job io job_id d, d)
  | GetAttempt attempt_id => (get_attempt io attempt_id d, d)
  | GetReservation attempt_id => (get_reservation io attempt_id d, d)
  | GetLatestAttempt job_id => (get_latest_attempt io job_id d, d)
  | GetArtifact job_id artifact_id => (get_artifact io job_id artifact_id d, d)
  | GetJobSnapshot job_id => (job_snapshot io job_id d, d)
  | ListArtifacts job_id => (list_artifacts io job_id d, d)
  | GetExecutionPlan job_id => (execution_plan io job_id d, d)
  | GetHostDependencies job_id => (host_dependencies io job_id d, d)
  | GetExecutionProvider job_id => (execution_provider io job_id d, d)
  | GetRuntimeReleaseEffect job_id => (runtime_release_effect_for_job io job_id d, d)
  | GetSupervisorOwner attempt_id => (attempt_supervisor_owner io attempt_id d, d)
  | ListMaintenance limit => (list_maintenance_attempts_bounded io limit d, d)
  | ListHeldOrphaned => (list_held_orphaned_attempts io d, d)
  | ListNonterminal => (list_nonterminal_attempts io d, d)
  | ListWorkspaceAttempts workspace_id limit =>
      (list_workspace_reconciliation_attempts io workspace_id limit d, d)
  | MarkBundleReady attempt_id version digest at_ms =>
      mark_bundle_ready io attempt_id version digest at_ms d
  | MarkDispatchIssued attempt_id version at_ms => mark_dispatch_issued io attempt_id version at_ms d
  | BindRunning attempt_id version identity => bind_running io attempt_id version identity d
  | BindSupervisorOwner attempt_id version owner at_ms =>
      bind_supervisor_owner io attempt_id version owner at_ms d
  | CommitTerminal request => commit_terminal io request d
  | RecoverOrphanedTerminal request => recover_orphaned_terminal io request d
  | ConvergeTerminalReservation attempt_id at_ms =>
      converge_terminal_reservation io attempt_id at_ms d0 d
  | RecordReconciliationFailure attempt error at_ms =>
      record_reconciliation_failure io attempt error at_ms d0 d
  | ClearReconciliationFailure attempt_id at_ms =>
      clear_reconciliation_failure io attempt_id at_ms d0 d
  | RequestDeadlineTermination attempt_id at_ms =>
      request_deadline_termination io attempt_id at_ms d
  | RequestCancel job_id at_ms => request_cancel io job_id at_ms d
  | RepairAdminBatch operations => repair_admin_batch io operations d
  | ReadSnapshot context =>
      (match io_begin io with Some e => Err (from_sql e context) | None => Ok d end, d)
  | Submit config fence now request ids => submit_preallocated io config fence now request ids d
  | FindIdempotentJob principal client_request_id digest compatible =>
      (find_idempotent_job io principal client_request_id digest compatible d, d)
  | FindRuntimeReleaseEffect principal client_request_id =>
      (find_runtime_release_effect io io principal client_request_id d0 d, d)
  end.

(** Call [c] on database [d] may answer [r] and leave [d']. *)
Definition answers {R} (c : call R) (d : Db) : R -> Db -> Prop :=
  match c in call R return R -> Db -> Prop with
  | Registry op => fun r d' => exists io d0 d1, rtc registry_step d d0 /\ rtc registry_step d0 d1
                                 /\ apply_op op io d0 d1 = (r, d')
  | _ => fun _ d' => rtc registry_step d d'
  end.

(** [runs p d h o d']: program [p] started on [d] makes the calls [h] and is
    stopped ([o = None]) or returns, on database [d']. *)
Fixpoint runs {A} (p : prog A) (d : Db) (h : history) (o : option A) (d' : Db) : Prop :=
  (h = [] /\ o = None /\ rtc registry_step d d')
  \/ match p with
     | Ret a => h = [] /\ o = Some a /\ rtc registry_step d d'
     | Vis c k => exists r d1 h', h = Event c r :: h' /\ answers c d r d1 /\ runs (k r) d1 h' o d'
     end.

(** A run in which nobody else acts, SQLite does not fail, and the outside
    answers by [outside]: it can be computed. *)
Definition reply (outside : forall R, call R -> R) {R} (c : call R) (d : Db) : R * Db :=
  match c in call R return R * Db with
  | Registry op => apply_op op io_ok d d
  | other => (outside _ other, d)
  end.

Fixpoint play (outside : forall R, call R -> R) {A} (p : prog A) (d : Db) : A * history * Db :=
  match p with
  | Ret a => (a, [], d)
  | Vis c k =>
      let '(r, d1) := reply outside c d in
      let '(a, h, d') := play outside (k r) d1 in
      (a, Event c r :: h, d')
  end.

(** ** Runs move the database by Registry operations *)

Lemma apply_op_step {R} (op : registry_op R) io d0 d :
  rtc registry_step d (snd (apply_op op io d0 d)).
Proof. destruct op; simpl; try reflexivity; apply rtc_once; constructor. Qed.

Lemma answers_steps {R} (c : call R) d r d' : answers c d r d' -> rtc registry_step d d'.
Proof.
  destruct c; simpl; try done. intros (io & d0 & d1 & H0 & H1 & Happ).
  pose proof (apply_op_step op io d0 d1) as Hop. rewrite Happ in Hop. by repeat (etrans; [eassumption | ]).
Qed.

Lemma runs_steps {A} (p : prog A) : forall d h o d', runs p d h o d' -> rtc registry_step d d'.
Proof.
  induction p as [a | R c k IH]; intros d h o d' [(_ & _ & H) | H]; [done | by destruct H as (_ & _ & ?) | done | ].
  destruct H as (r & d1 & h' & _ & Ha & Hk). etrans; [by eapply answers_steps | by eapply IH].
Qed.

Lemma runs_reachable {A} (p : prog A) d h o d' :
  registry_reachable d -> runs p d h o d' -> registry_reachable d'.
Proof. unfold registry_reachable. intros Hr H. etrans; [exact Hr | by eapply runs_steps]. Qed.

Lemma reply_answers outside {R} (c : call R) d r d' : reply outside c d = (r, d') -> answers c d r d'.
Proof.
  destruct c; simpl; intros H; try (injection H as <- <-; reflexivity).
  exists io_ok, d, d. by repeat split.
Qed.

Lemma play_runs outside {A} (p : prog A) : forall d a h d',
  play outside p d = (a, h, d') -> runs p d h (Some a) d'.
Proof.
  induction p as [x | R c k IH]; intros d a h d' H; simpl in H.
  - injection H as <- <- <-. right. by repeat split.
  - destruct (reply outside c d) as [r d1] eqn:Hr. destruct (play outside (k r) d1) as [[a1 h1] d2] eqn:Hp.
    injection H as <- <- <-. right. exists r, d1, h1. repeat split; [by eapply reply_answers | by eapply IH].
Qed.

(** ** Weakest preconditions

    [wp ok p h Q]: whatever is answered, every call [p] makes satisfies [ok],
    given the calls made before it, and what it returns satisfies [Q]. *)
Section wp.
Context (ok : forall R, call R -> history -> Prop).

Fixpoint wp {A} (p : prog A) (h : history) (Q : A -> history -> Prop) : Prop :=
  match p with
  | Ret a => Q a h
  | Vis c k => ok _ c h /\ forall r, wp (k r) (h ++ [Event c r]) Q
  end.

Lemma wp_mono {A} (p : prog A) (Q1 Q2 : A -> history -> Prop) : forall h,
  (forall a h', h `prefix_of` h' -> Q1 a h' -> Q2 a h') -> wp p h Q1 -> wp p h Q2.
Proof.
  induction p as [a | R c k IH]; intros h HQ; simpl; [by apply HQ | ].
  intros [Hok Hk]. split; [done | ]. intros r. apply IH; [ | by apply Hk].
  intros a h' Hpre. apply HQ. etrans; [ | exact Hpre]. by eexists.
Qed.

Lemma wp_bind {A B} (p : prog A) (f : A -> prog B) Q : forall h,
  wp p h (fun a h' => wp (f a) h' Q) -> wp (prog_bind f p) h Q.
Proof.
  induction p as [a | R c k IH]; intros h; simpl; [done | ].
  intros [Hok Hk]. split; [done | ]. intros r. by apply IH.
Qed.

Lemma wp_eff_bind {A B} (p : eff A) (f : A -> eff B) Q h :
  wp p h (fun r h' => match r with Ok a => wp (f a) h' Q | Err e => Q (Err e) h' end) ->
  wp (p ≫= f) h Q.
Proof.
  intros H. apply wp_bind. eapply wp_mono; [ | exact H].
  intros [a | e] h' _ Hf; [exact Hf | exact Hf].
Qed.

(** A condition on the whole history that its beginnings inherit may be assumed
    on the way. *)
Lemma wp_assume (C : history -> Prop) {A} (p : prog A) Q : forall h,
  (forall R (c : call R) h, ok R c h) ->
  (forall h1 h2, h1 `prefix_of` h2 -> C h2 -> C h1) ->
  (C h -> wp p h (fun a h' => C h' -> Q a h')) -> wp p h (fun a h' => C h' -> Q a h').
Proof.
  induction p as [a | R c k IH]; intros h Hok HC H; simpl; [intros Hh; by apply H | ].
  split; [apply Hok | ]. intros r. apply IH; [done | done | ].
  intros Hh. apply H. eapply HC; [ | exact Hh]. by eexists.
Qed.

(** The calls of a run satisfy the condition, and so does its result. *)
Lemma wp_runs {A} (p : prog A) Q : forall h d h' o d',
  wp p h Q -> runs p d h' o d' ->
  (forall h1 R (c : call R) r h2, h' = h1 ++ Event c r :: h2 -> ok R c (h ++ h1))
  /\ (forall a, o = Some a -> Q a (h ++ h')).
Proof.
  induction p as [a | R c k IH]; intros h d h' o d' Hwp [(-> & -> & _) | Hrun]; simpl in Hwp.
  - split; [ | done]. intros h1 ? ? ? ? Heq. by destruct h1.
  - destruct Hrun as (-> & -> & _). rewrite app_nil_r. split; [ | by intros ? [= <-]].
    intros h1 ? ? ? ? Heq. by destruct h1.
  - split; [ | done]. intros h1 ? ? ? ? Heq. by destruct h1.
  - destruct Hrun as (r & d1 & h'' & -> & _ & Hk). destruct Hwp as [Hok Hwp].
    destruct (IH r (h ++ [Event c r]) d1 h'' o d' (Hwp r) Hk) as [Hcalls Hret].
    rewrite <- app_assoc in Hret. split; [ | exact Hret].
    intros h1 R' c' r' h2 Heq. destruct h1 as [ | e h1].
    + rewrite app_nil_r. apply (f_equal (fun l => default (Event c r) (head l))) in Heq. simpl in Heq.
      exact (match Heq in _ = e return match e with Event c' _ => ok _ c' h end with eq_refl => Hok end).
    + pose proof (f_equal (fun l => default e (head l)) Heq) as He. pose proof (f_equal tail Heq) as Ht.
      simpl in He, Ht. subst e h''.
      specialize (Hcalls h1 R' c' r' h2 eq_refl). by rewrite <- app_assoc in Hcalls.
Qed.
End wp.

(** The proof of a program moves to another history and another condition. *)
Lemma wp_shift (ok1 ok2 : forall R, call R -> history -> Prop) {A} (p : prog A)
    (Q1 Q2 : A -> history -> Prop) : forall h h1 h2,
  wp ok1 p (h1 ++ h) Q1 ->
  (forall R (c : call R) h', ok1 R c (h1 ++ h') -> ok2 R c (h2 ++ h')) ->
  (forall a h', Q1 a (h1 ++ h') -> Q2 a (h2 ++ h')) ->
  wp ok2 p (h2 ++ h) Q2.
Proof.
  induction p as [a | R c k IH]; intros h h1 h2 Hwp Hok HQ; simpl in *; [by apply HQ | ].
  destruct Hwp as [Hc Hk]. split; [by apply Hok | ]. intros r.
  rewrite <- app_assoc. apply (IH r (h ++ [Event c r]) h1); [by rewrite app_assoc | done | done].
Qed.

Lemma wp_ok_mono (ok1 ok2 : forall R, call R -> history -> Prop) {A} (p : prog A)
    (Q : A -> history -> Prop) h :
  (forall R (c : call R) h', ok1 R c h' -> ok2 R c h') -> wp ok1 p h Q -> wp ok2 p h Q.
Proof.
  intros Hok Hwp. apply (wp_shift ok1 ok2 p Q Q h [] []); [exact Hwp | | done].
  intros R c h'. apply Hok.
Qed.

(** Nothing is asked of calls and result. *)
Lemma wp_true {A} (p : prog A) : forall h, wp (fun _ _ _ => True) p h (fun _ _ => True).
Proof. induction p as [a | R c k IH]; intros h; [done | ]. split; [done | ]. intros r. apply IH. Qed.
End semantics.

(** The operations that admit a Job or advance the execution of an Attempt, and
    the repair batch. *)
Definition advances {R} (op : registry_op R) : bool :=
  match op with
  | RepairAdminBatch _ | Submit _ _ _ _ _ | MarkBundleReady _ _ _ _ | MarkDispatchIssued _ _ _ | BindRunning _ _ _
  | BindSupervisorOwner _ _ _ _ | CommitTerminal _ | RecoverOrphanedTerminal _ => true
  | _ => false
  end.

(** [follows p h a]: answered as in [h], the program [p] returns [a]. *)
Fixpoint follows {A} (p : prog A) (h : history) (a : A) : Prop :=
  match p with
  | Ret b => h = [] /\ a = b
  | Vis c k => exists r h', h = Event c r :: h' /\ follows (k r) h' a
  end.

Lemma wp_follows ok {A} (p : prog A) (Q : A -> history -> Prop) : forall h,
  wp ok p h Q -> wp ok p h (fun a h' => Q a h' /\ exists seg, h' = h ++ seg /\ follows p seg a).
Proof.
  induction p as [a | R c k IH]; intros h; cbn [wp].
  - intros HQ. split; [done | ]. exists []. by rewrite app_nil_r.
  - intros [Hc Hk]. split; [done | ]. intros r. eapply wp_mono; [ | by apply IH].
    intros a h' _ [HQ (seg & -> & Hf)]. split; [done | ].
    exists (Event c r :: seg). rewrite <- app_assoc. split; [done | ]. simpl. eauto.
Qed.

(** The calls that start or stop no process and advance no Attempt. *)
Definition silent (R : Type) (c : call R) (_ : history) : Prop :=
  match c with
  | Registry op => if advances op then False else True
  | SystemdRun _ _ | SpawnWindowsNative _ | StopUnit _ | SpawnTarget _ => False
  | _ => True
  end.

(** [spec p Q]: [p] makes silent calls only, and what it returns is related to
    the calls it made. *)
Definition spec {A} (p : prog A) (Q : A -> history -> Prop) : Prop := wp silent p [] Q.

Lemma spec_wp (ok : forall R, call R -> history -> Prop) {A} (p : prog A) Q K h :
  spec p Q -> (forall R (c : call R) h, silent R c h -> ok R c h) ->
  (forall a h', Q a h' -> K a (h ++ h')) -> wp ok p h K.
Proof.
  intros Hspec Hok HK. rewrite <- (app_nil_r h). apply (wp_shift silent ok p Q K [] [] h); [done | | done].
  intros R c h' Hs. apply Hok. exact Hs.
Qed.

Lemma infallible_wp ok {A} (p : prog A) h Q :
  wp ok p h (fun a => Q (Ok a)) -> wp ok (infallible p) h Q.
Proof. intros H. by apply wp_bind. Qed.

Lemma spec_mono {A} (p : prog A) (Q1 Q2 : A -> history -> Prop) :
  spec p Q1 -> (forall a h, Q1 a h -> Q2 a h) -> spec p Q2.
Proof. intros H HQ. unfold spec. eapply wp_mono; [ | exact H]. intros a h' _. apply HQ. Qed.

(** A run of [p] that returned. *)
Lemma spec_follows {A} (p : prog A) Q h a : spec p Q -> follows p h a -> Q a h.
Proof.
  intros Hs Hf. unfold spec in Hs.
  assert (H : forall (q : prog A) h0 h, wp silent q h0 Q -> follows q h a -> Q a (h0 ++ h)).
  { clear. induction q as [b | R c k IH]; intros h0 h Hwp Hf; simpl in *.
    - destruct Hf as [-> ->]. by rewrite app_nil_r.
    - destruct Hf as (r & h' & -> & Hf). destruct Hwp as [_ Hwp].
      specialize (IH r (h0 ++ [Event c r]) h' (Hwp r) Hf). by rewrite <- app_assoc in IH. }
  exact (H p [] h Hs Hf).
Qed.

(** One step of a [wp] goal: the head of the program is exposed and its call
    answered; a case is split where the program branches. *)
Ltac wp_norm :=
  unfold mbind, eff_mbind, prog_mbind, infallible, mret, eff_mret, prog_mret, fmap, eff_fmap, and_then, catch,
    registry, ask, try, try_map, throw, of_result, perform;
  cbn [prog_bind wp map_err].

Ltac wp_step :=
  match goal with
  | |- _ /\ _ => split
  | |- forall _, _ => intro
  | |- context [wp _ (match ?x with Ok _ => _ | Err _ => _ end)] => destruct x eqn:?
  | |- context [wp _ (prog_bind _ (if ?b then _ else _))] => destruct b eqn:?
  | |- context [wp _ (prog_bind _ (match ?x with Ok _ => _ | Err _ => _ end))] => destruct x eqn:?
  | |- context [wp _ (prog_bind _ (Ret ?x))] => progress cbn [prog_bind wp]
  | |- context [wp _ (if ?b then _ else _)] => destruct b eqn:?
  end; cbn [prog_bind wp map_err].

(** The answers behind the [?] of a call. *)
Ltac wp_answers :=
  repeat match goal with
  | H : map_err _ ?r = Ok _ |- _ => is_var r; destruct r; cbn [map_err] in H; [ | discriminate H]
  | H : map_err _ ?r = Err _ |- _ => is_var r; destruct r; cbn [map_err] in H; [discriminate H | ]
  end; simplify_eq.

(** Membership in a history that was built call by call. *)
Lemma event_before (e : event) (h1 h2 : history) : e ∈ h1 -> e ∈ (h1 ++ h2 : history).
Proof. intros H. apply elem_of_app. by left. Qed.
Lemma event_after (e : event) (h1 h2 : history) : e ∈ h2 -> e ∈ (h1 ++ h2 : history).
Proof. intros H. apply elem_of_app. by right. Qed.

Lemma event_here (e : event) : e ∈ ([e] : history).
Proof. apply (last_event e []). Qed.

Create HintDb histories.
#[export] Hint Resolve event_here last_event event_before event_after : histories.
Ltac in_history := solve [eauto 15 with histories nocore].

(** [wp] goals of a spec and of its use. *)
Ltac spec_start := unfold spec; wp_norm.
Ltac use_spec H :=
  first [apply wp_eff_bind | apply wp_bind | idtac]; try apply infallible_wp;
  eapply spec_wp; [apply H | by intros | ].

(** ** Programs that only observe *)

Definition quiet {A} (p : prog A) : Prop := spec p (fun _ _ => True).

Lemma quiet_ret {A} (a : A) : quiet (Ret a).
Proof. done. Qed.
Lemma quiet_vis {A R} (c : call R) (k : R -> prog A) :
  silent R c [] -> (forall r, quiet (k r)) -> quiet (Vis c k).
Proof.
  intros Hc Hk. split; [exact Hc | ]. intros r. eapply spec_wp; [apply (Hk r) | by intros | done].
Qed.
Lemma quiet_prog_bind {A B} (p : prog A) (f : A -> prog B) :
  quiet p -> (forall a, quiet (f a)) -> quiet (prog_bind f p).
Proof.
  intros Hp Hf. apply wp_bind. eapply spec_wp; [exact Hp | by intros | ].
  intros a h _. eapply spec_wp; [apply (Hf a) | by intros | done].
Qed.
Lemma quiet_bind {A B} (p : eff A) (f : A -> eff B) :
  quiet p -> (forall a, quiet (f a)) -> quiet (p ≫= f).
Proof. intros Hp Hf. apply quiet_prog_bind; [exact Hp | ]. intros [a | e]; [apply Hf | done]. Qed.
Lemma quiet_pbind {A B} (p : prog A) (f : A -> prog B) :
  quiet p -> (forall a, quiet (f a)) -> quiet (p ≫= f).
Proof. intros Hp Hf. by apply quiet_prog_bind. Qed.
Lemma quiet_ubind {A B} (p : ueff A) (f : A -> ueff B) :
  quiet p -> (forall a, quiet (f a)) -> quiet (p ≫= f).
Proof. intros Hp Hf. apply quiet_prog_bind; [exact Hp | ]. intros [a | e]; [apply Hf | done]. Qed.
Lemma quiet_with_error {A} f (p : ueff A) : quiet p -> quiet (with_error f p).
Proof. intros Hp. by apply quiet_prog_bind. Qed.
Lemma quiet_call {R} (c : call R) : silent R c [] -> quiet (Vis c Ret).
Proof. intros Hc. by apply quiet_vis. Qed.
Lemma quiet_ask {R} (c : call R) : silent R c [] -> quiet (ask c).
Proof. intros Hc. by apply quiet_vis. Qed.
Lemma quiet_try {R} (c : call (RuntimeResult R)) : silent _ c [] -> quiet (try c).
Proof. intros Hc. by apply quiet_vis. Qed.
Lemma quiet_registry {R} (op : registry_op R) : silent _ (Registry op) [] -> quiet (registry op).
Proof. apply quiet_try. Qed.
Lemma quiet_try_map {E R} f (c : call (result E R)) : silent _ c [] -> quiet (try_map f c).
Proof. intros Hc. by apply quiet_vis. Qed.
Lemma quiet_catch {A B} (p : eff A) (f : RuntimeResult A -> eff B) :
  quiet p -> (forall r, quiet (f r)) -> quiet (catch p f).
Proof. apply quiet_prog_bind. Qed.
Lemma quiet_infallible {A} (p : prog A) : quiet p -> quiet (infallible p).
Proof. intros Hp. by apply quiet_prog_bind. Qed.
Lemma quiet_fold {A B} (f : B -> A -> eff B) l : (forall b x, quiet (f b x)) -> forall b, quiet (fold_eff f b l).
Proof.
  intros Hf. induction l as [ | x l IH]; intros b; [done | ]. apply (quiet_bind (f b x)); auto.
Qed.

Lemma quiet_wp (ok : forall R, call R -> history -> Prop) {A} (p : prog A) K h :
  quiet p -> (forall R (c : call R) h, silent R c h -> ok R c h) ->
  (forall a h', K a (h ++ h')) -> wp ok p h K.
Proof. intros Hp Hok HK. eapply spec_wp; [exact Hp | done | intros a h' _; apply HK]. Qed.

Create HintDb quiet.
#[export] Hint Resolve quiet_ret : quiet.
Ltac quiet_auto :=
  repeat first
    [ progress intros
    | exact I
    | progress cbn [fst snd]
    | solve [auto with quiet nocore]
    | apply quiet_bind
    | apply quiet_pbind
    | apply quiet_ubind
    | apply quiet_with_error
    | apply quiet_infallible
    | apply quiet_fold
    | apply quiet_ask; exact I
    | apply quiet_try_map; exact I
    | apply quiet_registry; exact I
    | apply quiet_try; exact I
    | apply quiet_catch
    | (apply quiet_call; exact I)
    | (unfold uask, utry, utry_map; apply quiet_vis; [exact I | ])
    | match goal with
      | |- quiet (mret _) => apply quiet_ret
      | |- quiet (throw _) => apply quiet_ret
      | |- quiet (uthrow _) => apply quiet_ret
      | |- quiet (uresult _) => apply quiet_ret
      | |- quiet (of_result _) => apply quiet_ret
      | |- quiet (match ?x with _ => _ end) => destruct x
      end ].

(** Skips a program that commits nothing and whose result does not matter. *)
Ltac use_quiet := apply wp_eff_bind; apply quiet_wp; [solve [quiet_auto] | by intros | ].
