(* ===== verification/Utf8.v ===== *)
(** * UTF-8 in bytes of unknown origin

    [std::str::from_utf8] and [String::from_utf8_lossy], which the Runtime
    applies to the retained output of a process and to the output of tools.
    Both cut the bytes into whole sequences, broken ones and a cut one at the
    end, by the table of the Unicode standard. *)

From S2P Require Import Prelude Text.

#[local] Open Scope Z_scope.
#[local] Arguments String.append !_ _ /.
#[local] Arguments str_drop !_ !_ /.

(** The first [n] bytes. *)
Fixpoint str_take (n : nat) (s : string) : string :=
  match n, s with
  | S n', String c s' => String c (str_take n' s')
  | _, _ => EmptyString
  end.

(** What the bytes begin with: a whole sequence, a broken one of that length,
    or the beginning of one that the end cuts off. *)
Inductive Sequence : Type :=
  | Whole (n : nat)
  | Broken (n : nat)
  | Cut.

Definition continuation (b : Z) : bool := (128 <=? b) && (b <=? 191).

(** [utf8_char_width] *)
Definition utf8_char_width (b : Z) : nat :=
  if b <? 128 then 1%nat
  else if (194 <=? b) && (b <=? 223) then 2%nat
  else if (224 <=? b) && (b <=? 239) then 3%nat
  else if (240 <=? b) && (b <=? 244) then 4%nat
  else 0%nat.

(** The second bytes that may follow the first one of three or four. *)
Definition second_of_three (b0 b1 : Z) : bool :=
  if b0 =? 224 then (160 <=? b1) && (b1 <=? 191)
  else if b0 =? 237 then (128 <=? b1) && (b1 <=? 159)
  else continuation b1.

Definition second_of_four (b0 b1 : Z) : bool :=
  if b0 =? 240 then (144 <=? b1) && (b1 <=? 191)
  else if b0 =? 244 then (128 <=? b1) && (b1 <=? 143)
  else continuation b1.

(** The bytes after the first, each with its test: [n] of them are consumed. *)
Fixpoint sequence_rest (n : nat) (tests : list (Z -> bool)) (bs : list Z) : Sequence :=
  match tests, bs with
  | [], _ => Whole n
  | _ :: _, [] => Cut
  | test :: tests', b :: bs' => if test b then sequence_rest (S n) tests' bs' else Broken n
  end.

Definition sequence_tests (b0 : Z) : list (Z -> bool) :=
  match utf8_char_width b0 with
  | 2%nat => [continuation]
  | 3%nat => [second_of_three b0; continuation]
  | 4%nat => [second_of_four b0; continuation; continuation]
  | _ => []
  end.

Definition utf8_sequence (bs : list Z) : Sequence :=
  match bs with
  | [] => Cut
  | b0 :: rest =>
      if (utf8_char_width b0 =? 0)%nat then Broken 1
      else sequence_rest 1 (sequence_tests b0) rest
  end.

(** [std::str::Utf8Error] *)
Record Utf8Error : Type := {
  valid_up_to : nat;
  error_len : option nat;
}.

Fixpoint first_error (fuel pos : nat) (s : string) : option Utf8Error :=
  match fuel, s with
  | O, _ | _, EmptyString => None
  | S fuel', _ =>
      match utf8_sequence (bytes s) with
      | Whole n => first_error fuel' (pos + n) (str_drop n s)
      | Broken n => Some {| valid_up_to := pos; error_len := Some n |}
      | Cut => Some {| valid_up_to := pos; error_len := None |}
      end
  end.

(** [std::str::from_utf8(bytes).err()]; no step consumes less than a byte. *)
Definition from_utf8_error (s : string) : option Utf8Error := first_error (String.length s) 0 s.

(** U+FFFD *)
Definition replacement_character : string :=
  String (Ascii.ascii_of_N 239) (String (Ascii.ascii_of_N 191)
    (String (Ascii.ascii_of_N 189) EmptyString)).

Fixpoint lossy (fuel : nat) (s : string) : string :=
  match fuel, s with
  | O, _ | _, EmptyString => EmptyString
  | S fuel', _ =>
      match utf8_sequence (bytes s) with
      | Whole n => str_take n s +:+ lossy fuel' (str_drop n s)
      | Broken n => replacement_character +:+ lossy fuel' (str_drop n s)
      | Cut => replacement_character
      end
  end.

(** [String::from_utf8_lossy] *)
Definition from_utf8_lossy (s : string) : string := lossy (String.length s) s.

(** The bytes are UTF-8. *)
Definition utf8 (s : string) : Prop := from_utf8_error s = None.

(** ** Bytes *)

Lemma string_app_nil_r s : (s +:+ "")%string = s.
Proof. induction s as [ | c s IH]; simpl; [done | by rewrite IH]. Qed.

Lemma string_app_assoc (a b c : string) : ((a +:+ b) +:+ c)%string = (a +:+ (b +:+ c))%string.
Proof. induction a as [ | x a IH]; simpl; [done | by rewrite IH]. Qed.

Lemma string_length_app a b : String.length (a +:+ b) = (String.length a + String.length b)%nat.
Proof. induction a as [ | x a IH]; simpl; [done | by rewrite IH]. Qed.

Lemma bytes_length s : length (bytes s) = String.length s.
Proof. induction s as [ | c s IH]; simpl; [done | by rewrite IH]. Qed.

Lemma bytes_drop n : forall s, bytes (str_drop n s) = drop n (bytes s).
Proof. induction n as [ | n IH]; intros [ | c s]; simpl; [done.. | apply IH]. Qed.

Lemma bytes_take n : forall s, bytes (str_take n s) = take n (bytes s).
Proof. induction n as [ | n IH]; intros [ | c s]; simpl; [done.. | by rewrite IH]. Qed.

Lemma str_take_drop n : forall s, (str_take n s +:+ str_drop n s)%string = s.
Proof. induction n as [ | n IH]; intros [ | c s]; simpl; [done.. | by rewrite IH]. Qed.

Lemma str_drop_drop n : forall m s, str_drop m (str_drop n s) = str_drop (n + m) s.
Proof. induction n as [ | n IH]; intros m [ | c s]; simpl; [done | done | by destruct m | apply IH]. Qed.

Lemma str_drop_length n : forall s, String.length (str_drop n s) = (String.length s - n)%nat.
Proof. induction n as [ | n IH]; intros [ | c s]; simpl; [done.. | apply IH]. Qed.

Lemma str_take_length n : forall s, String.length (str_take n s) = Nat.min n (String.length s).
Proof. induction n as [ | n IH]; intros [ | c s]; simpl; [done.. | by rewrite IH]. Qed.

Lemma str_drop_all n s : (String.length s <= n)%nat -> str_drop n s = EmptyString.
Proof.
  revert s. induction n as [ | n IH]; intros [ | c s] H; simpl in *; [done | lia | done | apply IH; lia].
Qed.

Lemma str_take_all n s : (String.length s <= n)%nat -> str_take n s = s.
Proof.
  revert s. induction n as [ | n IH]; intros [ | c s] H; simpl in *; [done | lia | done | ].
  f_equal. apply IH. lia.
Qed.

Lemma str_take_app n s t : (n <= String.length s)%nat -> str_take n (s +:+ t) = str_take n s.
Proof.
  revert s. induction n as [ | n IH]; intros [ | c s] H; simpl in *; [done.. | lia | ].
  f_equal. apply IH. lia.
Qed.

Lemma str_drop_app n s t : (n <= String.length s)%nat -> str_drop n (s +:+ t) = (str_drop n s +:+ t)%string.
Proof.
  revert s. induction n as [ | n IH]; intros [ | c s] H; simpl in *; [done.. | lia | ]. apply IH. lia.
Qed.

Lemma str_take_take n m s : str_take n (str_take m s) = str_take (Nat.min n m) s.
Proof.
  revert m s. induction n as [ | n IH]; intros [ | m] [ | c s]; simpl; [done.. | ]. by rewrite IH.
Qed.

Lemma str_take_plus n m s : str_take (n + m) s = (str_take n s +:+ str_take m (str_drop n s))%string.
Proof.
  revert s. induction n as [ | n IH]; intros [ | c s]; simpl; [done | done | by destruct m | ]. by rewrite IH.
Qed.

(** ** Sequences *)

Lemma sequence_rest_whole tests : forall n bs k,
  sequence_rest n tests bs = Whole k ->
  k = (n + length tests)%nat /\ (length tests <= length bs)%nat
  /\ (forall t, sequence_rest n tests (take (length tests) bs ++ t) = Whole k)
  /\ (forall j, (j < length tests)%nat -> sequence_rest n tests (take j bs) = Cut).
Proof.
  induction tests as [ | test tests IH]; intros n bs k H; simpl in H.
  - injection H as <-. repeat split; simpl; [lia | lia | intros; lia].
  - destruct bs as [ | b bs]; [done | ]. destruct (test b) eqn:Hb; [ | done].
    destruct (IH _ _ _ H) as (-> & Hlen & Hwhole & Hcut).
    repeat split; simpl; [lia | lia | intros t; rewrite Hb; apply Hwhole | ].
    intros [ | j] Hj; simpl; [done | ]. rewrite Hb. apply Hcut. simpl in Hj. lia.
Qed.

Lemma sequence_tests_short b : (length (sequence_tests b) <= 3)%nat.
Proof.
  unfold sequence_tests. destruct (utf8_char_width b) as [ | [ | [ | [ | [ | ?]]]]]; simpl; lia.
Qed.

(** A whole sequence has one to four bytes, does not depend on what follows,
    and is cut when a byte is missing. *)
Lemma whole_sequence bs n :
  utf8_sequence bs = Whole n ->
  (1 <= n <= 4)%nat /\ (n <= length bs)%nat
  /\ (forall t, utf8_sequence (take n bs ++ t) = Whole n)
  /\ (forall k, (0 < k < n)%nat -> utf8_sequence (take k bs) = Cut).
Proof.
  destruct bs as [ | b bs]; [done | ]. unfold utf8_sequence.
  destruct (utf8_char_width b =? 0)%nat eqn:Hw; [done | ]. intros H.
  pose proof (sequence_tests_short b) as Hshort.
  destruct (sequence_rest_whole _ _ _ _ H) as (-> & Hlen & Hwhole & Hcut). simpl.
  repeat split; [lia | lia | lia | | ].
  - intros t. rewrite Hw. apply Hwhole.
  - intros [ | k] Hk; [lia | ]. simpl. rewrite Hw. apply Hcut. lia.
Qed.

Lemma sequence_rest_broken tests : forall n bs k,
  sequence_rest n tests bs = Broken k -> (n <= k)%nat.
Proof.
  induction tests as [ | test tests IH]; intros n bs k H; simpl in H; [done | ].
  destruct bs as [ | b bs]; [done | ]. destruct (test b); [apply IH in H; lia | by injection H as <-].
Qed.

Lemma broken_sequence bs n : utf8_sequence bs = Broken n -> (1 <= n)%nat.
Proof.
  destruct bs as [ | b bs]; [done | ]. unfold utf8_sequence.
  destruct (utf8_char_width b =? 0)%nat; [by intros [= <-] | apply sequence_rest_broken].
Qed.

(** ** The first error *)

Lemma first_error_fuel fuel : forall pos s, (String.length s <= fuel)%nat ->
  first_error fuel pos s =
  (fun e => {| valid_up_to := pos + valid_up_to e; error_len := error_len e |}) <$> from_utf8_error s.
Proof.
  unfold from_utf8_error.
  induction fuel as [fuel IH] using lt_wf_ind. intros pos s Hs.
  destruct s as [ | c s]; [by destruct fuel | ]. destruct fuel as [ | fuel]; [simpl in Hs; lia | ].
  simpl in Hs. cbn [first_error String.length].
  destruct (utf8_sequence (bytes (String c s))) as [n | n | ] eqn:Hseq; simpl; try by rewrite Nat.add_0_r.
  apply whole_sequence in Hseq as (Hn & _). pose proof (str_drop_length n (String c s)) as Hd.
  cbn [String.length] in Hd. rewrite (IH fuel) by lia.
  rewrite (IH (String.length s)) by lia. destruct (first_error _ 0 _) as [e | ]; simpl; [ | done].
  by rewrite Nat.add_assoc.
Qed.

(** The first error of the bytes after a whole sequence, one further. *)
Lemma from_utf8_error_whole s n : utf8_sequence (bytes s) = Whole n ->
  from_utf8_error s =
  (fun e => {| valid_up_to := n + valid_up_to e; error_len := error_len e |})
    <$> from_utf8_error (str_drop n s).
Proof.
  intros Hseq. destruct s as [ | c s]; [done | ]. unfold from_utf8_error at 1.
  cbn [first_error String.length]. rewrite Hseq. apply first_error_fuel.
  apply whole_sequence in Hseq as (Hn & _). rewrite str_drop_length. simpl. lia.
Qed.

Lemma utf8_nil : utf8 "".
Proof. done. Qed.

(** Bytes that are UTF-8 begin with a whole sequence, unless they are empty. *)
Lemma utf8_cases s : utf8 s -> s = ""%string \/
  exists n, utf8_sequence (bytes s) = Whole n /\ utf8 (str_drop n s).
Proof.
  intros H. destruct s as [ | c s]; [by left | right]. unfold utf8 in *.
  destruct (utf8_sequence (bytes (String c s))) as [n | n | ] eqn:Hseq.
  - exists n. split; [done | ]. rewrite (from_utf8_error_whole _ _ Hseq) in H.
    by destruct (from_utf8_error (str_drop n (String c s))).
  - unfold from_utf8_error in H. cbn [first_error String.length] in H. by rewrite Hseq in H.
  - unfold from_utf8_error in H. cbn [first_error String.length] in H. by rewrite Hseq in H.
Qed.

Lemma utf8_whole s n : utf8_sequence (bytes s) = Whole n -> utf8 (str_drop n s) -> utf8 s.
Proof. unfold utf8. intros Hseq H. by rewrite (from_utf8_error_whole _ _ Hseq), H. Qed.

(** A beginning of UTF-8 bytes has at most a cut at its end, and what precedes
    the cut and what follows it are UTF-8; four bytes hold a whole sequence. *)
Lemma utf8_window s k : utf8 s -> exists v, (v <= k)%nat /\ (v <= String.length s)%nat /\
  match from_utf8_error (str_take k s) with
  | None => v = Nat.min k (String.length s)
  | Some e => e = {| valid_up_to := v; error_len := None |}
  end
  /\ utf8 (str_take v s) /\ utf8 (str_drop v s)
  /\ ((4 <= k)%nat \/ (String.length s <= k)%nat -> s <> ""%string -> (0 < v)%nat).
Proof.
  remember (String.length s) as len eqn:Hlen. revert s k Hlen.
  induction len as [len IH] using lt_wf_ind. intros s k Hlen Hs.
  destruct (utf8_cases s Hs) as [-> | (n & Hseq & Hdrop)].
  { exists 0%nat. simpl in Hlen. subst len. repeat split; [lia | lia | by destruct k | done]. }
  pose proof (whole_sequence _ _ Hseq) as (Hn & Hnlen & Hwhole & Hcut). rewrite bytes_length in Hnlen.
  destruct (decide (n <= k)%nat) as [Hk | Hk].
  - destruct (IH (len - n)%nat ltac:(lia) (str_drop n s) (k - n)%nat) as (v & Hv & Hvl & Herr & Ht & Hd & _);
      [by rewrite str_drop_length, Hlen | done | ].
    assert (Hsplit : forall j, (n <= j)%nat ->
              utf8_sequence (bytes (str_take j s)) = Whole n /\ str_drop n (str_take j s)
              = str_take (j - n) (str_drop n s)).
    { intros j Hj. split.
      - rewrite bytes_take, <- (take_drop n (take j (bytes s))), take_take, Nat.min_l by lia. apply Hwhole.
      - replace j with (n + (j - n))%nat at 1 by lia. rewrite str_take_plus, str_drop_app.
        + rewrite str_drop_all; [done | ]. rewrite str_take_length. lia.
        + rewrite str_take_length. lia. }
    destruct (Hsplit k Hk) as [Hsk Hdk]. rewrite (from_utf8_error_whole _ _ Hsk), Hdk.
    exists (n + v)%nat. repeat split; [lia | lia | | | by rewrite <- str_drop_drop | lia].
    + destruct (from_utf8_error _) as [e | ]; simpl; [by rewrite Herr | lia].
    + destruct (Hsplit (n + v)%nat) as [Hsv Hdv]; [lia | ]. apply (utf8_whole _ n Hsv).
      rewrite Hdv. by replace (n + v - n)%nat with v by lia.
  - exists 0%nat. destruct s as [ | c s]; [simpl in *; lia | ]. destruct k as [ | k].
    + repeat split; [lia | lia | done | simpl in *; lia].
    + assert (Hc : utf8_sequence (bytes (str_take (S k) (String c s))) = Cut)
        by (rewrite bytes_take; apply Hcut; lia).
      repeat split; [lia | lia | | done | simpl in *; lia].
      unfold from_utf8_error. cbn [str_take] in Hc |- *. cbn [first_error String.length]. by rewrite Hc.
Qed.

(** [from_utf8_lossy] changes nothing in UTF-8 bytes. *)
Lemma from_utf8_lossy_id s : utf8 s -> from_utf8_lossy s = s.
Proof.
  unfold from_utf8_lossy. enough (H : forall fuel s, (String.length s <= fuel)%nat -> utf8 s -> lossy fuel s = s)
    by (by apply H).
  clear s. induction fuel as [ | fuel IH]; intros s Hlen Hs; destruct s as [ | c s]; [done | simpl in Hlen; lia | done | ].
  destruct (utf8_cases _ Hs) as [? | (n & Hseq & Hdrop)]; [done | ]. cbn [lossy]. rewrite Hseq.
  rewrite IH; [apply str_take_drop | | done]. apply whole_sequence in Hseq as (? & _).
  rewrite str_drop_length. simpl in *. lia.
Qed.

(** UTF-8 bytes do not begin with a continuation byte. *)
Lemma utf8_head s b : utf8 s -> head (bytes s) = Some b -> continuation b = false.
Proof.
  intros Hs Hb. destruct (utf8_cases s Hs) as [-> | (n & Hseq & _)]; [done | ].
  destruct (bytes s) as [ | b' bs]; [done | ]. injection Hb as ->. unfold utf8_sequence in Hseq.
  destruct (utf8_char_width b =? 0)%nat eqn:Hw; [done | ]. unfold utf8_char_width in Hw.
  unfold continuation. destruct (128 <=? b) eqn:H1; [ | done]. simpl.
  apply Z.leb_gt. apply Z.leb_le in H1. destruct (b <? 128) eqn:H2; [lia | ].
  destruct (decide (b < 194)) as [Hlt | ]; [ | lia].
  rewrite (proj2 (Z.leb_gt 194 b)), (proj2 (Z.leb_gt 224 b)), (proj2 (Z.leb_gt 240 b)) in Hw by lia. done.
Qed.
