(* ===== verification/Engine.v ===== *)
(** * What the parts of the engine share

    [runtime/engine.rs]: the files of an Attempt bundle, the records written
    and read there, the mapping of errors, and the configuration.  The codec of
    the records is [serde_json] on derived types: [EngineCodec]. *)

From S2P Require Import Prelude Text Errors Types Supervisor Platform Validation Submit Store.
From S2P Require Import Transaction Projection Admission Query Effects.

#[local] Open Scope Z_scope.

(** ** Files of a bundle *)

Definition RUNNER_START_FILE : string := "runner-start.json".
Definition WINDOWS_LAUNCHER_START_FILE : string := "windows-launcher-start.json".
Definition WINDOWS_START_FILE : string := "windows-start.json".
Definition RESULT_FILE : string := "result.json".
Definition STDOUT_FILE : string := "stdout.log".
Definition STDERR_FILE : string := "stderr.log".
Definition PROGRESS_FILE : string := "progress.json".
Definition CONTROL_RESULT_FILE : string := "control-result.json".
Definition ORPHAN_REMEDIATION_FILE : string := "orphan-remediation.json".
Definition TERMINAL_EVIDENCE_FILE_PREFIX : string := "terminal-evidence-".
Definition HOST_DEPENDENCY_CONTINUITY_SCOPE : string := "runtime_host_namespace_path_witness".
Definition RUNNER_REQUEST_FILE : string := "request.json".
Definition PLAN_FILE : string := "plan.json".
Definition BUNDLE_MANIFEST_FILE : string := "bundle-manifest.json".
Definition TRUSTED_BUILD_TARGET_PRESENTATION : string := "/proc/self/fd/198".
Definition CONTAINED_INPUT_ROOT : string := "/run/ordivon/inputs".
Definition WINDOWS_NATIVE_OUTER_DEADLINE_GRACE_MS : Z := 5000.

(** [Path::new(&attempt.bundle_path).join(file)] *)
Definition bundle_file (attempt : AttemptRecord) (file : string) : string :=
  path_join (att_bundle_path attempt) file.

(** [Path::parent] *)
Definition path_parent (p : string) : option string :=
  match rev (components p) with
  | [] | RootDir :: _ => None
  | _ :: before =>
      Some match rev before with
           | RootDir :: l => "/" +:+ relative_text l
           | l => relative_text l
           end
  end.

(** ** Records of the Runner *)

Module RunnerTerminalStatus.
Inductive t : Type := Completed | Failed | Cancelled.
#[global] Instance eq_dec : EqDecision t.
Proof. solve_decision. Defined.
End RunnerTerminalStatus.

Record CapturedOutput : Type := {
  co_artifact_id : string;
  co_file_name : string;
  co_digest : string;
  co_retained_bytes : Z;
  co_dropped_bytes : Z;
  co_truncated : bool;
}.

Record RunnerStepResult : Type := {
  rsr_id : string;
  rsr_index : Z;
  rsr_status : string;
  rsr_exit_code : option Z;
  rsr_timed_out : bool;
  rsr_continued : bool;
  rsr_started_unix_ms : Z;
  rsr_finished_unix_ms : Z;
}.

Record RunnerResult : Type := {
  rr_schema_version : Z;
  rr_task_id : string;
  rr_job_id : option string;
  rr_attempt_id : option string;
  rr_launch_token_digest : option string;
  rr_payload_uid : option Z;
  rr_payload_gid : option Z;
  rr_status : RunnerTerminalStatus.t;
  rr_exit_code : option Z;
  rr_timed_out : bool;
  rr_infrastructure_error_code : option string;
  rr_infrastructure_error : option string;
  rr_started_unix_ms : Z;
  rr_finished_unix_ms : Z;
  rr_steps : list RunnerStepResult;
  rr_failed_step_id : option string;
  rr_failed_step_index : option Z;
  rr_stdout : CapturedOutput;
  rr_stderr : CapturedOutput;
}.

Record RunnerProgress : Type := {
  rp_schema_version : Z;
  rp_task_id : string;
  rp_revision : Z;
  rp_status : string;
  rp_completed_steps : Z;
  rp_total_steps : Z;
  rp_current_step_id : option string;
  rp_current_step_index : option Z;
  rp_current_step_started_unix_ms : option Z;
  rp_failed_step_id : option string;
  rp_failed_step_index : option Z;
  rp_updated_unix_ms : Z;
}.

(** ** Records of the engine *)

Record ControlTerminalEvidence : Type := {
  cte_schema_version : Z;
  cte_job_id : string;
  cte_attempt_id : string;
  cte_status : string;
  cte_reason_code : string;
  cte_detail : option string;
  cte_observed_at_ms : Z;
}.

Record TerminalSupervisorEvidence : Type := {
  tse_boot_id : option string;
  tse_unit_name : string;
  tse_invocation_id : option string;
  tse_control_group : option string;
  tse_main_pid : option Z;
  tse_process_start_identity : option string;
  tse_runner_start_digest : option string;
}.

Record ObservedSupervisorEvidence : Type := {
  ose_boot_id : string;
  ose_unit_state : string;
  ose_invocation_id : option string;
  ose_control_group : option string;
  ose_main_pid : option Z;
  ose_main_process_start_identity : option string;
  ose_recorded_pid_alive : bool;
  ose_recorded_pid_start_identity : option string;
  ose_result : option string;
  ose_exec_main_code : option Z;
  ose_exec_main_status : option Z;
}.

(** [impl From<&SupervisorObservation> for ObservedSupervisorEvidence] *)
Definition observed_evidence_from (observation : SupervisorObservation)
    : ObservedSupervisorEvidence :=
  {| ose_boot_id := so_boot_id observation;
     ose_unit_state := match so_unit_state observation with
                       | SupervisorUnitState.Running => "running"
                       | SupervisorUnitState.Terminal => "terminal"
                       | SupervisorUnitState.NotFound => "not_found"
                       end;
     ose_invocation_id := so_invocation_id observation;
     ose_control_group := so_control_group observation;
     ose_main_pid := so_main_pid observation;
     ose_main_process_start_identity := so_main_process_start_identity observation;
     ose_recorded_pid_alive := so_recorded_pid_alive observation;
     ose_recorded_pid_start_identity := so_recorded_pid_start_identity observation;
     ose_result := so_result observation;
     ose_exec_main_code := so_exec_main_code observation;
     ose_exec_main_status := so_exec_main_status observation |}.

Record TerminalProcessEvidence : Type := {
  tpe_schema_version : Z;
  tpe_job_id : string;
  tpe_attempt_id : string;
  tpe_operation_digest : string;
  tpe_execution_plan_digest : string;
  tpe_workspace_id : string;
  tpe_source_revision : string;
  tpe_execution_profile : ExecutionProfile.t;
  tpe_execution_target : ExecutionTarget.t;
  tpe_execution_provider : option ExecutionProviderSnapshot;
  tpe_windows_authority : WindowsAuthority.t;
  tpe_windows_execution_context : option WindowsExecutionContext;
  tpe_foreign_references : list ForeignReference;
  tpe_host_dependencies : list HostDependencyBinding;
  tpe_host_dependency_continuity : option string;
  tpe_host_dependency_continuity_scope : option string;
  tpe_input_set_id : option string;
  tpe_effective_inputs : list EffectiveInputBinding;
  tpe_executable : string;
  tpe_executable_digest : string;
  tpe_args : list string;
  tpe_cwd : string;
  tpe_supervisor : TerminalSupervisorEvidence;
  tpe_observed_supervisor : option ObservedSupervisorEvidence;
  tpe_start_disposition : string;
  tpe_cancellation_disposition : string;
  tpe_execution_disposition : string;
  tpe_delivery_disposition : string;
  tpe_process_tree_disposition : string;
  tpe_process_tree_detail : option string;
  tpe_reason_code : string;
  tpe_terminal_artifact_ids : list string;
  tpe_supersedes_artifact_id : option string;
  tpe_observed_at_ms : Z;
}.

(** ** Records of a start *)

Record RunnerStartEvidence : Type := {
  rse_schema_version : Z;
  rse_job_id : string;
  rse_attempt_id : string;
  rse_launch_token_digest : string;
  rse_unit_name : string;
  rse_invocation_id : string;
  rse_control_group : string;
  rse_namespace_pid : Z;
  rse_namespace_process_start_identity : string;
  rse_payload_uid : option Z;
  rse_payload_gid : option Z;
  rse_observed_workspace_source_digest : option string;
  rse_runner_executable_digest : option string;
  rse_observed_unix_ms : Z;
}.

Record WindowsStartEvidence : Type := {
  wse_schema_version : Z;
  wse_job_id : string;
  wse_attempt_id : string;
  wse_launch_token_digest : string;
  wse_request_digest : string;
  wse_job_name : string;
  wse_launcher_process_id : Z;
  wse_launcher_process_creation_time_file_time : option Z;
  wse_launcher_image_digest : option string;
  wse_process_id : Z;
  wse_process_creation_time_file_time : Z;
  wse_image_path : string;
  wse_image_digest : string;
  wse_token_selection : string;
  wse_execution_identity : string;
  wse_session_id : option Z;
  wse_token_user_sid : string;
  wse_token_type : Z;
  wse_token_elevation_type : Z;
  wse_token_is_elevated : bool;
  wse_token_integrity_level_rid : Z;
  wse_token_is_restricted : bool;
  wse_administrators_group_attributes : Z;
  wse_power_request_type : string;
  wse_power_request_acquired : bool;
  wse_input_set_id : option string;
  wse_input_presentation_root : option string;
  wse_input_bindings_digest : option string;
  wse_observed_unix_ms : Z;
}.

Record WindowsLauncherStartEvidence : Type := {
  wls_schema_version : Z;
  wls_job_id : string;
  wls_attempt_id : string;
  wls_launch_token_digest : string;
  wls_request_digest : string;
  wls_job_name : string;
  wls_launcher_process_id : Z;
  wls_launcher_process_creation_time_file_time : Z;
  wls_launcher_image_digest : string;
  wls_observed_unix_ms : Z;
}.

(** ** Records of a bundle *)

Record RunnerPayloadConfig : Type := {
  rpc_uid : Z;
  rpc_gid : Z;
  rpc_workspace_view : string;
  rpc_cwd_view : string;
  rpc_runtime_view : string;
  rpc_cache_view : string;
}.

Record RunnerInputCommitment : Type := {
  ric_presentation_path : string;
  ric_digest : string;
  ric_byte_length : Z;
}.

Record RunnerHostDependencyCommitment : Type := {
  rhd_path : string;
  rhd_digest : string;
}.

Record RunnerExecutionStep : Type := {
  res_id : string;
  res_executable : string;
  res_executable_digest : string;
  res_args : list string;
  res_cwd : string;
  res_env : gmap string string;
  res_timeout_ms : Z;
  res_continue_on_error : bool;
}.

Record RunnerRequest : Type := {
  rq_schema_version : Z;
  rq_job_id : option string;
  rq_attempt_id : option string;
  rq_launch_token : option string;
  rq_unit_name : option string;
  rq_payload : option RunnerPayloadConfig;
  rq_inherit_host_environment : bool;
  rq_task_id : string;
  rq_workspace_id : string;
  rq_workspace_path : string;
  rq_workspace_source_digest : option string;
  rq_build_target_backing : option string;
  rq_input_presentation_root : option string;
  rq_input_commitments : list RunnerInputCommitment;
  rq_host_dependencies : list RunnerHostDependencyCommitment;
  rq_executable : string;
  rq_executable_digest : string;
  rq_args : list string;
  rq_cwd : string;
  rq_env : gmap string string;
  rq_steps : list RunnerExecutionStep;
  rq_timeout_ms : Z;
  rq_stdout_limit_bytes : Z;
  rq_stderr_limit_bytes : Z;
}.

Record BundleManifest : Type := {
  bm_schema_version : Z;
  bm_job_id : string;
  bm_attempt_id : string;
  bm_request_digest : string;
  bm_plan_digest : string;
  bm_launch_token_digest : string;
  bm_created_at_ms : Z;
}.

Record CredentialSnapshotEntry : Type := {
  cse_name : string;
  cse_digest : string;
  cse_byte_length : Z;
}.

(** [serde_json::from_slice], [to_vec] and [to_vec_pretty] on the records. *)
Class EngineCodec : Type := {
  runner_result_of_json : string -> result string RunnerResult;
  runner_progress_of_json : string -> result string RunnerProgress;
  control_evidence_to_json : ControlTerminalEvidence -> string;
  control_evidence_of_json : string -> result string ControlTerminalEvidence;
  terminal_evidence_to_json : TerminalProcessEvidence -> string;
  runner_start_of_json : string -> result string RunnerStartEvidence;
  windows_start_of_json : string -> result string WindowsStartEvidence;
  windows_launcher_start_of_json : string -> result string WindowsLauncherStartEvidence;
  windows_launcher_start_to_json : WindowsLauncherStartEvidence -> string;
  runner_request_to_json : RunnerRequest -> string;
  bundle_manifest_to_json : BundleManifest -> string;
  credential_snapshot_to_json : list CredentialSnapshotEntry -> string;
  (** of a [serde_json::Value] *)
  json_to_string_pretty : Json -> string;
}.

(** ** Configuration

    Of [Runtime], what the modelled parts read: the configuration of the
    executor and of the Registry, the Windows provider, the grace given to a
    start, the defaults of an execution, the input authorities, the credential
    authorities with the principals each admits, and whether this is a Linux node.
    [rt_windows_absolute] is [Path::is_absolute] of a build for Windows. *)
Record WindowsPrivilegedBrokerConfig : Type := {
  wbc_executable_path : string;
  wbc_pipe_name : string;
}.

Record WindowsExecutionConfig : Type := {
  wx_launcher_path : string;
  wx_privileged_broker : option WindowsPrivilegedBrokerConfig;
}.

Record UniversalExecutorConfig : Type := {
  uec_store_root : string;
  uec_workspace_root : option string;
  uec_runner_path : option string;
  uec_allowed_executable_roots : list string;
  uec_max_runtime_ms : Z;
  uec_max_output_bytes : Z;
}.

Record Runtime : Type := {
  rt_executor : UniversalExecutorConfig;
  rt_registry : RegistryConfig;
  rt_windows_config : option WindowsExecutionConfig;
  rt_startup_grace_ms : Z;
  rt_default_runtime_ms : Z;
  rt_execution_path : string;
  rt_execution_home : string;
  rt_input_authorities : list string;
  rt_credential_authorities : gmap string (list string);
  rt_linux_node : bool;
  rt_windows_absolute : option (string -> bool);
}.

Definition rt_runner_path (rt : Runtime) : option string := uec_runner_path (rt_executor rt).
Definition rt_store_root (rt : Runtime) : string := uec_store_root (rt_executor rt).

(** [self.windows.is_some()] *)
Definition rt_windows (rt : Runtime) : bool := present (rt_windows_config rt).

(** ** Errors *)

(** [io_error] of [engine.rs] and [evidence.rs], and of [platform/linux.rs] *)
Definition io_error (context : string) (error : IoFailure) : RuntimeError :=
  error_new IoError (context +:+ ": " +:+ io_text error) None false.

Definition linux_io_error (context : string) (error : IoFailure) : RuntimeError :=
  error_new IoError (context +:+ ": " +:+ io_text error) None (io_interrupted error).

(** [map_universal_error] of [engine.rs] *)
Definition universal_code (code : UniversalExecErrorCode.t) : RuntimeErrorCode :=
  match code with
  | UniversalExecErrorCode.InvalidRequest => InvalidRequest
  | UniversalExecErrorCode.WorkspaceExists => WorkspaceExists
  | UniversalExecErrorCode.WorkspaceNotFound => WorkspaceNotFound
  | UniversalExecErrorCode.WorkspacePathNotFound => WorkspacePathNotFound
  | UniversalExecErrorCode.WorkspaceDirty => WorkspaceDirty
  | UniversalExecErrorCode.WorkspacePathDenied => WorkspacePathDenied
  | UniversalExecErrorCode.RevisionNotFound => RevisionNotFound
  | UniversalExecErrorCode.RevisionMismatch => RevisionMismatch
  | UniversalExecErrorCode.WorkspaceStateMismatch | UniversalExecErrorCode.InputStateMismatch
  | UniversalExecErrorCode.HostDependencyRuntimeDrift
  | UniversalExecErrorCode.ExecutableRuntimeDrift => WorkspaceStateMismatch
  | UniversalExecErrorCode.WorkspaceMutationIncomplete => ReconciliationRequired
  | UniversalExecErrorCode.ArtifactNotFound => ArtifactNotFound
  | UniversalExecErrorCode.ArtifactNotUtf8 => ArtifactNotUtf8
  | UniversalExecErrorCode.OutputLimitExceeded => OutputLimitExceeded
  | UniversalExecErrorCode.ToolUnavailable => ToolUnavailable
  | UniversalExecErrorCode.ToolFailed => ToolFailed
  | UniversalExecErrorCode.IoError => IoError
  | UniversalExecErrorCode.WorkspaceCapacityExceeded => WorkspaceCapacityExceeded
  | UniversalExecErrorCode.MetadataCorrupt => MetadataCorrupt
  end.

Definition map_universal_error (error : UniversalExecError) : RuntimeError :=
  error_new (universal_code (ue_code error)) (ue_message error) (ue_field error)
    (ue_retryable error).

(** [map_universal_error] of [evidence.rs] *)
Definition evidence_universal_error (error : UniversalExecError) : RuntimeError :=
  error_new InvalidRequest (ue_message error) (ue_field error) (ue_retryable error).

(** [UniversalExecError]'s [Display]: the variant name and the message. *)
Definition universal_debug_name (code : UniversalExecErrorCode.t) : string :=
  match code with
  | UniversalExecErrorCode.InvalidRequest => "InvalidRequest"
  | UniversalExecErrorCode.WorkspaceExists => "WorkspaceExists"
  | UniversalExecErrorCode.WorkspaceNotFound => "WorkspaceNotFound"
  | UniversalExecErrorCode.WorkspacePathNotFound => "WorkspacePathNotFound"
  | UniversalExecErrorCode.WorkspaceDirty => "WorkspaceDirty"
  | UniversalExecErrorCode.WorkspacePathDenied => "WorkspacePathDenied"
  | UniversalExecErrorCode.RevisionNotFound => "RevisionNotFound"
  | UniversalExecErrorCode.RevisionMismatch => "RevisionMismatch"
  | UniversalExecErrorCode.WorkspaceStateMismatch => "WorkspaceStateMismatch"
  | UniversalExecErrorCode.InputStateMismatch => "InputStateMismatch"
  | UniversalExecErrorCode.HostDependencyRuntimeDrift => "HostDependencyRuntimeDrift"
  | UniversalExecErrorCode.ExecutableRuntimeDrift => "ExecutableRuntimeDrift"
  | UniversalExecErrorCode.WorkspaceMutationIncomplete => "WorkspaceMutationIncomplete"
  | UniversalExecErrorCode.ArtifactNotFound => "ArtifactNotFound"
  | UniversalExecErrorCode.ArtifactNotUtf8 => "ArtifactNotUtf8"
  | UniversalExecErrorCode.OutputLimitExceeded => "OutputLimitExceeded"
  | UniversalExecErrorCode.ToolUnavailable => "ToolUnavailable"
  | UniversalExecErrorCode.ToolFailed => "ToolFailed"
  | UniversalExecErrorCode.IoError => "IoError"
  | UniversalExecErrorCode.WorkspaceCapacityExceeded => "WorkspaceCapacityExceeded"
  | UniversalExecErrorCode.MetadataCorrupt => "MetadataCorrupt"
  end.

Definition universal_error_to_string (error : UniversalExecError) : string :=
  universal_debug_name (ue_code error) +:+ ": " +:+ ue_message error.

(** [transient_main_pid_observation_loss] *)
Definition transient_main_pid_observation_loss (error : RuntimeError) : bool :=
  (err_code error == LaunchIdentityMismatch)
  && (err_field error == Some "mainPid"%string)
  && (String.eqb (err_message error) "systemd MainPID has no observable host process identity"
      || String.eqb (err_message error)
           "Windows launcher systemd MainPID has no observable host process identity"
      || String.eqb (err_message error) "systemd omitted MainPID").

(** ** Arithmetic on [u64] *)

Definition u64_max : Z := 2 ^ 64 - 1.

(** [u64::saturating_add] *)
Definition saturating_add (x y : Z) : Z := Z.min u64_max (x + y).

(** [u64::try_from(..).unwrap_or(u64::MAX)] of a [u128] or a length *)
Definition clamp_u64 (x : Z) : Z := Z.min u64_max x.

(** [native_windows_outer_deadline_due] *)
Definition native_windows_outer_deadline_due
    (execution_started_at_ms timeout_ms observed_at_ms : Z) : bool :=
  saturating_add (saturating_add execution_started_at_ms timeout_ms)
    WINDOWS_NATIVE_OUTER_DEADLINE_GRACE_MS <=? observed_at_ms.

(** [windows_native_launcher_lineage_is_definite_failure] *)
Definition windows_native_launcher_lineage_is_definite_failure
    (execution_target : ExecutionTarget.t) (termination_intent : AttemptTerminationIntent.t)
    (unit_state : SupervisorUnitState.t) (recorded_pid_alive : bool) : bool :=
  (execution_target == ExecutionTarget.WindowsNative)
  && (termination_intent == AttemptTerminationIntent.Natural)
  && (unit_state == SupervisorUnitState.NotFound)
  && negb recorded_pid_alive.
