(* ===== verification/Linux.v ===== *)
(** * The Linux supervisor

    [runtime/platform/linux.rs]: what systemd, [/proc] and the cgroup file
    system say of the process tree of an Attempt, parsed as the code parses
    it. *)

From S2P Require Import Prelude Text Errors Types Supervisor Platform Validation Submit Store.
From S2P Require Import Transaction Projection Admission Recovery Query Effects Utf8 Engine.

#[local] Open Scope Z_scope.

(** ** Text of the tools *)

(** The characters of a text, each as its bytes. *)
Fixpoint characters_from (fuel : nat) (s : string) : list string :=
  match fuel, s with
  | O, _ | _, EmptyString => []
  | S fuel', _ =>
      let n := match utf8_sequence (bytes s) with
               | Whole n | Broken n => n
               | Cut => String.length s
               end in
      str_take n s :: characters_from fuel' (str_drop n s)
  end.

Definition characters (s : string) : list string := characters_from (String.length s) s.

Definition whitespace (character : string) : bool :=
  match chars character with [c] => is_whitespace c | _ => false end.

(** [str::split_whitespace] *)
Fixpoint words (current : string) (cs : list string) : list string :=
  match cs with
  | [] => if String.eqb current "" then [] else [current]
  | c :: rest =>
      if whitespace c
      then (if String.eqb current "" then [] else [current]) ++ words "" rest
      else words (current +:+ c) rest
  end.

Definition split_whitespace (s : string) : list string := words "" (characters s).

(** [str::trim] *)
Fixpoint drop_whitespace (cs : list string) : list string :=
  match cs with
  | c :: rest => if whitespace c then drop_whitespace rest else cs
  | [] => []
  end.

Definition str_trim (s : string) : string :=
  join "" (rev (drop_whitespace (rev (drop_whitespace (characters s))))).

(** [str::lines]: a final line break ends the last line, [\r\n] is one. *)
Definition newline : Ascii.ascii := Ascii.ascii_of_N 10.
Definition carriage_return : string := String (Ascii.ascii_of_N 13) EmptyString.

Definition strip_carriage_return (line : string) : string :=
  if ends_with carriage_return line
  then str_take (String.length line - 1) line else line.

Fixpoint drop_last_empty (l : list string) : list string :=
  match l with
  | [] => []
  | [x] => if String.eqb x "" then [] else [x]
  | x :: rest => x :: drop_last_empty rest
  end.

Definition lines (s : string) : list string :=
  match drop_last_empty (split_on newline s) with
  | l => match rev l with
         | [] => []
         | last_line :: before =>
             map strip_carriage_return (rev before)
             ++ [if ends_with (String newline EmptyString) s
                 then strip_carriage_return last_line else last_line]
         end
  end.

(** [str::split_once] on one ASCII character *)
Fixpoint split_once (sep : Ascii.ascii) (s : string) : option (string * string) :=
  match s with
  | EmptyString => None
  | String c rest =>
      if Ascii.eqb c sep then Some (EmptyString, rest)
      else '(a, b) ← split_once sep rest; Some (String c a, b)
  end.

(** [str::parse] of an unsigned and of a signed integer *)
Fixpoint parse_digits (acc : Z) (bs : list Z) : option Z :=
  match bs with
  | [] => Some acc
  | b :: rest => if is_ascii_digit b then parse_digits (acc * 10 + (b - 48)) rest else None
  end.

Definition parse_magnitude (bs : list Z) : option Z :=
  match bs with [] => None | _ => parse_digits 0 bs end.

Definition parse_u32 (s : string) : option Z :=
  let digits := match bytes s with 43 :: rest => rest | bs => bs end in
  n ← parse_magnitude digits;
  if n <? 2 ^ 32 then Some n else None.

Definition parse_i32 (s : string) : option Z :=
  match bytes s with
  | 45 :: rest => n ← parse_magnitude rest; if n <=? 2 ^ 31 then Some (- n) else None
  | bs =>
      n ← parse_magnitude (match bs with 43 :: rest => rest | _ => bs end);
      if n <? 2 ^ 31 then Some n else None
  end.

(** ** systemd *)

Definition systemctl_properties : string :=
  "--property=LoadState,ActiveState,SubState,Job,InvocationID,ControlGroup,MainPID,Result,ExecMainCode,ExecMainStatus".

Definition SYSTEMCTL_OBSERVATION_TIMEOUT_MS : Z := 1000.

(** [tool_error], and the errors of [bounded_observation_output] *)
Definition tool_error (context text : string) : RuntimeError :=
  error_new ToolFailed (context +:+ ": " +:+ text) None true.

Definition command_output (context : string) (outcome : CommandOutcome)
    : RuntimeResult (bool * string * string) :=
  match outcome with
  | CommandExited success stdout stderr => Ok (success, stdout, stderr)
  | CommandNotSpawned text => Err (tool_error ("cannot execute " +:+ context) text)
  | CommandNotObserved text => Err (tool_error ("cannot observe " +:+ context) text)
  | CommandNotCollected text => Err (tool_error ("cannot collect " +:+ context) text)
  | CommandTimedOut =>
      Err (error_new ToolFailed
             (context +:+ " timed out after " +:+ pretty SYSTEMCTL_OBSERVATION_TIMEOUT_MS +:+ " ms")
             None true)
  end.

Definition properties_of (stdout : string) : gmap string string :=
  foldl (fun properties line =>
           match split_once (Ascii.ascii_of_N 61) line with
           | Some (key, value) => <[key := value]> properties
           | None => properties
           end) ∅ (lines (from_utf8_lossy stdout)).

(** [properties.entry(key).or_insert(value)] *)
Definition or_insert (key value : string) (properties : gmap string string) : gmap string string :=
  match properties !! key with Some _ => properties | None => <[key := value]> properties end.

Definition show_properties (outcome : CommandOutcome) : RuntimeResult (gmap string string) :=
  '(success, stdout, stderr) ← command_output "systemctl show" outcome;
  fail_if (negb success && String.eqb stdout "")
    (error_new ToolFailed ("systemctl show failed: " +:+ str_trim (from_utf8_lossy stderr))
       None true) ;;
  Ok (or_insert "ActiveState" "inactive" (or_insert "LoadState" "not-found" (properties_of stdout))).

Definition show_unit (unit_name : string) : call CommandOutcome :=
  Systemctl ["show"; unit_name; systemctl_properties].

Definition systemctl_show (unit_name : string) : eff (gmap string string) :=
  outcome ← ask (show_unit unit_name);
  of_result (show_properties outcome).

Definition unit_is_active (properties : gmap string string) : bool :=
  match properties !! "ActiveState" with
  | Some state => String.eqb state "active" || String.eqb state "activating"
                  || String.eqb state "reloading"
  | None => false
  end.

Definition unit_has_pending_job (properties : gmap string string) : bool :=
  match properties !! "Job" with Some job => negb (String.eqb job "") | None => false end.

Definition nonempty_property (properties : gmap string string) (key : string) : option string :=
  value ← properties !! key;
  if String.eqb value "" then None else Some value.

Definition require_property (properties : gmap string string) (key expected : string)
    : RuntimeResult unit :=
  fail_if (properties !! key != Some expected)
    (error_new LaunchIdentityMismatch
       ("systemd " +:+ key +:+ " does not match runner-start evidence") (Some key) false).

Definition missing_systemd_property (key : string) : RuntimeError :=
  error_new LaunchIdentityMismatch ("systemd omitted " +:+ key) (Some key) false.

(** [release_terminal_unit]: whatever happens, it returns nothing. *)
Fixpoint release_loop (unit_name : string) (polls : nat) : prog unit :=
  outcome ← perform (show_unit unit_name);
  match show_properties outcome with
  | Err _ => mret tt
  | Ok properties =>
      if properties !! "LoadState" == Some "not-found"%string then mret tt
      else if negb (unit_is_active properties) then
        _ ← perform (Systemctl ["reset-failed"; unit_name]); mret tt
      else match polls with
           | O => mret tt
           | S polls' => release_loop unit_name polls'
           end
  end.

Definition release_terminal_unit (unit_name : string) : prog unit :=
  polls ← perform PollBudget;
  release_loop unit_name polls.

(** ** Processes *)

(** The 20th word after the command name of [/proc/<pid>/stat]. *)
Definition stat_start_time (stat : string) : option string :=
  match rev (split_on (Ascii.ascii_of_N 41) stat) with
  | after :: _ :: _ => split_whitespace after !! 19%nat
  | _ => None
  end.

Definition process_identity (pid : Z) : prog (option string) :=
  if pid =? 0 then mret None
  else
    stat ← perform (ReadText ("/proc/" +:+ pretty pid +:+ "/stat"));
    mret (match stat with Ok stat => stat_start_time stat | Err _ => None end).

(** The [zip(..).is_some_and(|(observed, expected)| observed == expected)] *)
Definition same_some (x y : option string) : bool :=
  match x, y with Some a, Some b => String.eqb a b | _, _ => false end.

(** [attempt.main_pid.is_some_and(..)]: the recorded process is the one that
    now has its identifier. *)
Definition recorded_pid_alive (attempt : AttemptRecord) : prog bool :=
  match att_main_pid attempt with
  | None => mret false
  | Some pid =>
      observed ← process_identity pid;
      mret (same_some observed (att_process_start_identity attempt))
  end.

(** ** Control groups *)

Definition populated_of (value : string) (rest : list string) : RuntimeResult bool :=
  match rest with
  | [] => if String.eqb value "0" then Ok false
          else if String.eqb value "1" then Ok true
          else Err (error_new RegistryCorrupt "cgroup.events has an invalid populated value"
                      (Some "controlGroup") false)
  | _ => Err (error_new RegistryCorrupt "cgroup.events has an invalid populated value"
                (Some "controlGroup") false)
  end.

Fixpoint parse_populated_lines (l : list string) : RuntimeResult bool :=
  match l with
  | [] => Err (error_new RegistryCorrupt "cgroup.events omitted populated state"
                 (Some "controlGroup") false)
  | line :: rest =>
      match split_whitespace line with
      | "populated"%string :: fields =>
          match fields with
          | value :: more => populated_of value more
          | [] => Err (error_new RegistryCorrupt "cgroup.events has an invalid populated value"
                         (Some "controlGroup") false)
          end
      | _ => parse_populated_lines rest
      end
  end.

Definition parse_cgroup_populated (content : string) : RuntimeResult bool :=
  parse_populated_lines (lines content).

(** [trim_start_matches('/')] *)
Fixpoint trim_slashes (s : string) : string :=
  match s with
  | String c rest => if Ascii.eqb c slash then trim_slashes rest else s
  | EmptyString => EmptyString
  end.

Definition control_group_valid (control_group : string) : bool :=
  is_absolute control_group
  && negb (existsb (fun part => String.eqb part ".." || contains_nul part)
             (split_on slash control_group)).

Definition cgroup_has_processes (control_group : string) : eff bool :=
  of_result (fail_if (negb (control_group_valid control_group))
    (error_new RegistryCorrupt "recorded cgroup path is invalid" (Some "controlGroup") false)) ;;
  let root := path_join "/sys/fs/cgroup" (trim_slashes control_group) in
  let events_path := path_join root "cgroup.events" in
  events ← ask (IsFile events_path);
  if events : bool then
    content ← try_map (linux_io_error "read cgroup population state") (ReadText events_path);
    of_result (parse_cgroup_populated content)
  else
    let processes_path := path_join root "cgroup.procs" in
    processes ← ask (IsFile processes_path);
    if negb processes then mret false
    else
      content ← try_map (linux_io_error "read cgroup process membership")
                  (ReadText processes_path);
      mret (existsb (fun line => present (parse_u32 (str_trim line))) (lines content)).

(** ** The owner of an Attempt *)

Definition corrupt_identity (what field : string) : RuntimeError :=
  error_new RegistryCorrupt ("bound Attempt has no " +:+ what) (Some field) false.

Definition supervisor_identity (attempt : AttemptRecord) : RuntimeResult SupervisorIdentity :=
  boot_id ← ok_or (corrupt_identity "bootId" "bootId") (att_boot_id attempt);
  invocation_id ← ok_or (corrupt_identity "invocationId" "invocationId")
                    (att_invocation_id attempt);
  control_group ← ok_or (corrupt_identity "controlGroup" "controlGroup")
                    (att_control_group attempt);
  main_pid ← ok_or (corrupt_identity "mainPid" "mainPid") (att_main_pid attempt);
  start ← ok_or (corrupt_identity "process start identity" "processStartIdentity")
            (att_process_start_identity attempt);
  Ok {| si_boot_id := boot_id;
        si_unit_name := att_unit_name attempt;
        si_invocation_id := invocation_id;
        si_control_group := control_group;
        si_main_pid := main_pid;
        si_main_process_start_identity := start |}.

Definition read_trimmed (path : string) : eff string :=
  content ← try_map (linux_io_error ("read " +:+ path)) (ReadText path);
  mret (str_trim content).

Definition unit_state_of (properties : gmap string string) : SupervisorUnitState.t :=
  if unit_is_active properties then SupervisorUnitState.Running
  else if properties !! "LoadState" == Some "not-found"%string then SupervisorUnitState.NotFound
  else SupervisorUnitState.Terminal.

(** [option.and_then(process_identity)] *)
Definition identity_of (pid : option Z) : prog (option string) :=
  match pid with Some pid => process_identity pid | None => mret None end.

Definition observe_linux_process_owner (attempt : AttemptRecord)
    : eff (SupervisorIdentity * SupervisorObservation) :=
  expected ← of_result (supervisor_identity attempt);
  properties ← systemctl_show (att_unit_name attempt);
  current_boot_id ← read_trimmed "/proc/sys/kernel/random/boot_id";
  let main_pid := properties !! "MainPID" ≫= parse_u32 in
  alive ← infallible (recorded_pid_alive attempt);
  main_start ← infallible (identity_of main_pid);
  recorded_start ← infallible (identity_of (att_main_pid attempt));
  mret (expected,
    {| so_boot_id := current_boot_id;
       so_unit_state := unit_state_of properties;
       so_invocation_id := nonempty_property properties "InvocationID";
       so_control_group := nonempty_property properties "ControlGroup";
       so_main_pid := pid ← main_pid; if 0 <? pid then Some pid else None;
       so_main_process_start_identity := main_start;
       so_recorded_pid_alive := alive;
       so_recorded_pid_start_identity := recorded_start;
       so_result := nonempty_property properties "Result";
       so_exec_main_code := properties !! "ExecMainCode" ≫= parse_i32;
       so_exec_main_status := properties !! "ExecMainStatus" ≫= parse_i32 |}).
