(* ===== verification/Launch.v ===== *)
(** * The command that starts a Runner

    [runtime/platform/linux.rs]: [validate_runner] and [systemd_run].  The
    command line is a value: [build_systemd_run_command] computes it from the
    specification and the environment of the Runtime. *)

From S2P Require Import Prelude Text Errors Types Supervisor Platform Validation Submit Store.
From S2P Require Import Transaction Projection Admission Recovery Query Effects Utf8 Engine Linux.

#[local] Open Scope Z_scope.

Definition validate_runner (path : string) : eff string :=
  metadata ← try_map (linux_io_error "inspect Runner") (ExecutableMetadata path);
  of_result (fail_if (negb match metadata with (RegularFile _, true) => true | _ => false end)
    (invalid "Runner must be a non-symlink executable file" "runnerPath")) ;;
  try_map (linux_io_error "canonicalize Runner") (Canonicalize path).

(** [SystemdRunSpec] *)
Record SystemdRunSpec : Type := {
  srs_unit_name : string;
  srs_runner : string;
  srs_bundle_path : string;
  srs_workspace_path : string;
  srs_workspace_git_common_dir : option string;
  srs_input_set_path : option string;
  srs_credential_source_root : option string;
  srs_credential_names : list string;
  srs_runtime_ceiling_ms : Z;
  srs_budget : ExecutionBudget;
  srs_execution_profile : ExecutionProfile.t;
  srs_environment : gmap string string;
}.

Definition systemd_path_value (path : string) : RuntimeResult string :=
  fail_if (negb (is_absolute path))
    (invalid "contained write paths must be absolute" "executionProfile") ;;
  let value := from_utf8_lossy path in
  fail_if (String.eqb value "" || contains_nul value || existsb is_whitespace (chars value))
    (invalid "contained write paths must be non-empty and whitespace-free" "executionProfile") ;;
  Ok value.

(** ** The environment of the Runtime *)

Definition valid_environment_name (name : string) : bool :=
  match bytes name with
  | [] => false
  | first :: rest =>
      ((first =? 95) || is_ascii_alphabetic first)
      && forallb (fun byte => (byte =? 95) || is_ascii_alphanumeric byte) rest
  end.

Definition supervisor_environment_names : list string :=
  ["INVOCATION_ID"; "JOURNAL_STREAM"; "LISTEN_FDS"; "LISTEN_FDNAMES"; "LISTEN_PID";
   "NOTIFY_SOCKET"; "WATCHDOG_PID"; "WATCHDOG_USEC"]%string.

(** A variable of the Runtime that its Runners inherit. *)
Definition inherited (name : string) : bool :=
  valid_environment_name name && negb (starts_with "ORDIVON_" name)
  && negb (existsb (String.eqb name) supervisor_environment_names).

(** [append_trusted_environment]: a name that is no UTF-8 is skipped. *)
Definition append_trusted_environment (variables : list (string * string)) : list string :=
  omap (fun '(name, value) =>
    if negb (present (from_utf8_error name)) && inherited name
    then Some ("--setenv=" +:+ name +:+ "=" +:+ from_utf8_lossy value) else None) variables.

(** ** Arguments *)

Definition bind_read_only (source target : string) : string :=
  "--property=BindReadOnlyPaths=" +:+ source +:+ ":" +:+ target.

(** [if let Some(path) = .. { command.arg(..systemd_path_value(path)?..) }] *)
Definition bind_optional (path target : option string) : RuntimeResult (list string) :=
  match path with
  | None => Ok []
  | Some path =>
      value ← systemd_path_value path;
      Ok [bind_read_only value (default value target)]
  end.

Definition contained_properties : list string :=
  ["--property=ProtectSystem=strict"; "--property=ProtectHome=tmpfs"; "--property=PrivateTmp=yes";
   "--property=PrivateDevices=yes"; "--property=PrivateNetwork=yes";
   "--property=NoNewPrivileges=yes"; "--property=CapabilityBoundingSet=";
   "--property=AmbientCapabilities="; "--property=RestrictSUIDSGID=yes";
   "--property=RestrictNamespaces=yes"; "--property=LockPersonality=yes";
   "--property=ProtectHostname=yes"; "--property=ProtectClock=yes";
   "--property=ProtectKernelTunables=yes"; "--property=ProtectKernelModules=yes";
   "--property=ProtectKernelLogs=yes"; "--property=ProtectControlGroups=yes";
   "--property=ProtectProc=invisible"; "--property=ProcSubset=pid";
   "--property=KeyringMode=private"; "--property=RestrictAddressFamilies=AF_UNIX";
   "--property=TemporaryFileSystem=/run:ro"; "--property=TemporaryFileSystem=/var:ro";
   "--property=SystemCallFilter=~@mount @raw-io @reboot @swap @module @obsolete";
   "--property=UMask=0077"]%string.

Definition contained_environment_names : list string :=
  ["PATH"; "HOME"; "LANG"; "LC_ALL"; "TMPDIR"; "XDG_CACHE_HOME"]%string.

Definition writable_environment_names : list string :=
  ["HOME"; "TMPDIR"; "XDG_CACHE_HOME"; "CARGO_TARGET_DIR"; "UV_CACHE_DIR"; "PIP_CACHE_DIR";
   "npm_config_cache"; "PNPM_HOME"; "COREPACK_HOME"; "BUN_INSTALL_CACHE_DIR"; "GOMODCACHE";
   "GOCACHE"]%string.

(** [BTreeSet<PathBuf>]: paths with equal components are one path, and the order
    is that of the components. *)
Definition component_compare (x y : Component) : comparison :=
  match x, y with
  | Normal s1, Normal s2 => String.compare s1 s2
  | RootDir, RootDir | CurDir, CurDir | ParentDir, ParentDir => Eq
  | RootDir, _ => Lt
  | _, RootDir => Gt
  | CurDir, _ => Lt
  | _, CurDir => Gt
  | ParentDir, _ => Lt
  | _, ParentDir => Gt
  end.

Fixpoint components_compare (l1 l2 : list Component) : comparison :=
  match l1, l2 with
  | [], [] => Eq
  | [], _ => Lt
  | _, [] => Gt
  | x :: l1', y :: l2' =>
      match component_compare x y with Eq => components_compare l1' l2' | c => c end
  end.

(** [BTreeSet::insert] *)
Fixpoint path_insert (path : string) (paths : list string) : list string :=
  match paths with
  | [] => [path]
  | x :: rest =>
      match components_compare (components path) (components x) with
      | Lt => path :: paths
      | Eq => paths
      | Gt => x :: path_insert path rest
      end
  end.

Definition writable_paths (workspace_path bundle_path : string) (environment : gmap string string)
    : list string :=
  foldl (fun paths path => path_insert path paths) []
    (workspace_path :: bundle_path :: omap (fun name => environment !! name) writable_environment_names).

(** [for path in paths { command.arg(..systemd_path_value(path)?..) }] *)
Definition bind_writable (paths : list string) : RuntimeResult (list string) :=
  mapM (fun path => value ← systemd_path_value path;
                    Ok ("--property=BindPaths=" +:+ value +:+ ":" +:+ value)) paths.

Definition append_contained_properties (spec : SystemdRunSpec) : RuntimeResult (list string) :=
  runner_value ← systemd_path_value (srs_runner spec);
  common ← bind_optional (srs_workspace_git_common_dir spec) None;
  inputs ← bind_optional (srs_input_set_path spec) (Some CONTAINED_INPUT_ROOT);
  writable ← bind_writable (writable_paths (srs_workspace_path spec) (srs_bundle_path spec)
                              (srs_environment spec));
  Ok (contained_properties ++ [bind_read_only runner_value runner_value] ++ common ++ inputs
      ++ omap (fun name => (fun value => "--setenv=" +:+ name +:+ "=" +:+ value)
                 <$> srs_environment spec !! name) contained_environment_names
      ++ ["--setenv=GIT_OPTIONAL_LOCKS=0"%string] ++ writable).

(** The arguments of the [TrustedLocal] profile. *)
Definition trusted_properties (spec : SystemdRunSpec) (variables : list (string * string))
    : RuntimeResult (list string) :=
  inputs ← bind_optional (srs_input_set_path spec) (Some CONTAINED_INPUT_ROOT);
  credentials ←
    match srs_credential_names spec with
    | [] => Ok []
    | names =>
        root ← ok_or (invalid "credential bindings require a Job-owned credential source root"
                        "execution.credentials") (srs_credential_source_root spec);
        mapM (fun name =>
          source ← systemd_path_value (path_join root name);
          Ok ("--property=LoadCredentialEncrypted=" +:+ name +:+ ":" +:+ source)) names
    end;
  Ok (append_trusted_environment variables ++ inputs ++ credentials).

Definition budget_properties (budget : ExecutionBudget) : list string :=
  option_list ((fun value => "--property=MemoryMax=" +:+ pretty value)
                 <$> budget_memory_max_bytes budget)
  ++ option_list ((fun value => "--property=TasksMax=" +:+ pretty value) <$> budget_tasks_max budget)
  ++ option_list ((fun value => "--property=CPUQuota=" +:+ pretty value +:+ "%")
                    <$> budget_cpu_quota_percent budget).

(** The arguments of [systemd-run]. *)
Definition build_systemd_run_command (spec : SystemdRunSpec) (variables : list (string * string))
    : RuntimeResult (list string) :=
  profile ←
    match srs_execution_profile spec with
    | ExecutionProfile.TrustedLocal => trusted_properties spec variables
    | ExecutionProfile.ContainedLocal =>
        fail_if ((srs_credential_names spec != []) || present (srs_credential_source_root spec))
          (invalid "credential delivery is not admitted for contained_local"
             "execution.executionProfile") ;;
        append_contained_properties spec
    end;
  Ok (["--unit=" +:+ srs_unit_name spec; "--no-block"; "--property=Type=exec";
       "--property=CollectMode=inactive"; "--property=KillMode=control-group";
       "--property=TimeoutStopSec=2s"; "--property=SendSIGKILL=yes";
       "--property=StandardOutput=journal"; "--property=StandardError=journal";
       "--property=RuntimeMaxSec=" +:+ pretty (srs_runtime_ceiling_ms spec) +:+ "ms"]%string
      ++ budget_properties (srs_budget spec) ++ profile
      ++ [srs_runner spec; "--task-dir"%string; srs_bundle_path spec]).

Definition systemd_run (spec : SystemdRunSpec) : eff CommandOutput :=
  variables ← (if srs_execution_profile spec == ExecutionProfile.TrustedLocal
               then ask EnvironmentVariables else mret []);
  arguments ← of_result (build_systemd_run_command spec variables);
  try_map (fun error => tool_error "cannot execute systemd-run" (io_text error))
    (SystemdRun (srs_unit_name spec) arguments).
