(* ===== verification/Inputs.v ===== *)
(** * Inputs and credentials of a Job

    [engine/control_query.rs] (from [canonical_input_binding_requests] on) and
    the ownership functions of [engine/execution.rs]: the files that an
    execution reads are a directory of the store that belongs to the Job, and
    are verified against the committed plan each time they are handed on. *)

From S2P Require Import Prelude Text Errors Types Supervisor Platform Validation Submit Store.
From S2P Require Import Transaction Projection Admission Recovery Registry Query Effects Utf8 Engine.

#[local] Open Scope Z_scope.

(** ** Binding requests *)

Record InputBindingRequest : Type := {
  ibr_authority : string;
  ibr_relative_object : string;
  ibr_expected_digest : string;
  ibr_presentation_relative_path : string;
}.

Record CredentialBindingRequest : Type := {
  cbr_authority : string;
  cbr_credential : string;
}.

Definition name_byte (b : Z) : bool :=
  is_ascii_alphanumeric b || (b =? 46) || (b =? 95) || (b =? 45).

Definition name_valid (value : string) : bool :=
  negb (String.eqb value "") && (str_len value <=? 128) && forallb name_byte (bytes value).

Definition validate_input_authority_name (value field : string) : RuntimeResult unit :=
  fail_if (negb (name_valid value))
    (invalid "input authority name must use 1-128 ASCII alphanumeric/._- characters" field).

Definition validate_credential_name (value field : string) : RuntimeResult unit :=
  fail_if (negb (name_valid value) || String.eqb value "." || String.eqb value "..")
    (invalid "credential name must use 1-128 ASCII alphanumeric/._- characters and must not be . or .."
       field).

Definition validate_normal_relative_path (value field : string) : RuntimeResult string :=
  fail_if (String.eqb value "" || contains_nul value || is_absolute value)
    (invalid "path must be non-empty, relative, and NUL-free" field) ;;
  fail_if (existsb (fun c => negb (is_normal c)) (components value))
    (invalid "path must contain only normal relative components" field) ;;
  let normalized := relative_text (components value) in
  fail_if (String.eqb normalized "") (invalid "path must not be empty" field) ;;
  Ok normalized.

Definition validate_sha256_digest (value field : string) : RuntimeResult unit :=
  match strip_prefix "sha256:" value with
  | None => Err (invalid "digest must use sha256:<hex>" field)
  | Some hex =>
      fail_if (negb ((str_len hex =? 64) && forallb is_ascii_hexdigit (bytes hex)))
        (invalid "digest must be 32-byte SHA-256 hex" field)
  end.

(** The order of tuples of strings. *)
Fixpoint strings_le (l1 l2 : list string) : bool :=
  match l1, l2 with
  | x :: l1', y :: l2' =>
      match String.compare x y with Lt => true | Gt => false | Eq => strings_le l1' l2' end
  | [], _ => true
  | _ :: _, [] => false
  end.

Definition input_key (input : InputBindingRequest) : list string :=
  [ibr_presentation_relative_path input; ibr_authority input; ibr_relative_object input;
   ibr_expected_digest input].

(** The loop of [canonical_input_binding_requests]; [seen] is [presentation_paths]. *)
Fixpoint canonical_inputs (seen : list string) (index : nat) (inputs : list InputBindingRequest)
    : RuntimeResult (list InputBindingRequest) :=
  match inputs with
  | [] => Ok []
  | input :: rest =>
      let at_input suffix := field_at "inputs" index +:+ suffix in
      validate_input_authority_name (ibr_authority input) (at_input ".authority") ;;
      object ← validate_normal_relative_path (ibr_relative_object input)
                 (at_input ".relativeObject");
      presentation ← validate_normal_relative_path (ibr_presentation_relative_path input)
                       (at_input ".presentationRelativePath");
      validate_sha256_digest (ibr_expected_digest input) (at_input ".expectedDigest") ;;
      fail_if (existsb (paths_overlap presentation) seen)
        (invalid "input presentation paths must not overlap as file/ancestor paths"
           (at_input ".presentationRelativePath")) ;;
      canonical ← canonical_inputs (presentation :: seen) (S index) rest;
      Ok ({| ibr_authority := ibr_authority input;
             ibr_relative_object := object;
             ibr_expected_digest := to_ascii_lowercase (ibr_expected_digest input);
             ibr_presentation_relative_path := presentation |} :: canonical)
  end.

Definition canonical_input_binding_requests (inputs : list InputBindingRequest)
    : RuntimeResult (list InputBindingRequest) :=
  fail_if (match inputs with [] => true | _ => false end)
    (invalid "at least one immutable input is required" "inputs") ;;
  canonical ← canonical_inputs [] 0 inputs;
  Ok (order_by (fun x y => strings_le (input_key x) (input_key y)) canonical).

Definition effective_input_requests_from_plan (plan : RuntimeExecutionPlan)
    : RuntimeResult (list InputBindingRequest) :=
  canonical_input_binding_requests
    (map (fun input => {| ibr_authority := ei_authority input;
                          ibr_relative_object := ei_relative_object input;
                          ibr_expected_digest := ei_digest input;
                          ibr_presentation_relative_path := ei_presentation_relative_path input |})
       (plan_effective_inputs plan)).

(** The loop of [canonical_credential_binding_requests]; [seen] is [names]. *)
Fixpoint canonical_credentials (seen : list string) (index : nat)
    (credentials : list CredentialBindingRequest) : RuntimeResult unit :=
  match credentials with
  | [] => Ok tt
  | credential :: rest =>
      let at_credential suffix := field_at "credentials" index +:+ suffix in
      validate_input_authority_name (cbr_authority credential) (at_credential ".authority") ;;
      validate_credential_name (cbr_credential credential) (at_credential ".credential") ;;
      fail_if (existsb (String.eqb (cbr_credential credential)) seen)
        (invalid "credential names must be unique within one execution"
           (at_credential ".credential")) ;;
      canonical_credentials (cbr_credential credential :: seen) (S index) rest
  end.

Definition canonical_credential_binding_requests (credentials : list CredentialBindingRequest)
    : RuntimeResult (list CredentialBindingRequest) :=
  fail_if (match credentials with [] => true | _ => false end)
    (invalid "at least one credential is required" "credentials") ;;
  canonical_credentials [] 0 credentials ;;
  Ok (order_by (fun x y => strings_le [cbr_authority x; cbr_credential x]
                             [cbr_authority y; cbr_credential y]) credentials).

(** ** The files of an input set *)

Definition state_mismatch (message field : string) : RuntimeError :=
  error_new WorkspaceStateMismatch message (Some field) false.

(** The path of an entry relative to the root of its set. *)
Definition below_prefix (prefix name : string) : string :=
  if String.eqb prefix "" then name else prefix +:+ "/" +:+ name.

Fixpoint collect_materialized_files (prefix : string) (walk : Walk) (files : gset string)
    : RuntimeResult (gset string) :=
  match walk with
  | Unreadable error => Err (io_error "scan materialized input set" error)
  | Listed entries => collect_entries prefix entries files
  end
with collect_entries (prefix : string) (entries : Entries) (files : gset string)
    : RuntimeResult (gset string) :=
  match entries with
  | NoMore => Ok files
  | BadEntry error _ => Err (io_error "read materialized input entry" error)
  | BadMetadata _ error _ => Err (io_error "inspect materialized input entry" error)
  | Entry name kind below rest =>
      let path := below_prefix prefix name in
      match kind with
      | Symlink => Err (state_mismatch "materialized input set contains a symlink" "effectiveInputs")
      | Directory =>
          files ← collect_materialized_files path below files;
          collect_entries prefix rest files
      | RegularFile _ => collect_entries prefix rest ({[path]} ∪ files)
      | OtherKind =>
          Err (state_mismatch "materialized input set contains a non-file entry" "effectiveInputs")
      end
  end.

(** The loop that checks the digest of each input. *)
Fixpoint verify_inputs (root : string) (index : nat) (inputs : list InputBindingRequest)
    : eff (list EffectiveInputBinding) :=
  match inputs with
  | [] => mret []
  | input :: rest =>
      let path := path_join root (ibr_presentation_relative_path input) in
      length ← try_map (io_error "inspect materialized input") (FileLen path);
      digest ← try_map map_universal_error (Sha256File path);
      of_result (fail_if (negb (String.eqb digest (ibr_expected_digest input)))
        (state_mismatch "materialized input digest does not match the committed binding"
           (field_at "effectiveInputs" index +:+ ".digest"))) ;;
      effective ← verify_inputs root (S index) rest;
      mret ({| ei_authority := ibr_authority input;
               ei_relative_object := ibr_relative_object input;
               ei_digest := digest;
               ei_byte_length := length;
               ei_presentation_relative_path := ibr_presentation_relative_path input;
               ei_access := InputAccessMode.ReadOnly |} :: effective)
  end.

Definition is_directory (kind : FileKind) : bool :=
  match kind with Directory => true | _ => false end.

Definition is_regular (kind : FileKind) : bool :=
  match kind with RegularFile _ => true | _ => false end.

Definition verify_effective_input_set (root : string) (inputs : list InputBindingRequest)
    : eff (list EffectiveInputBinding) :=
  kind ← try_map (io_error "inspect materialized input set") (SymlinkMetadata root);
  of_result (fail_if (negb (is_directory kind))
    (state_mismatch "materialized input set root is not a non-symlink directory"
       "effectiveInputs")) ;;
  walk ← ask (WalkTree root);
  observed ← of_result (collect_materialized_files "" walk ∅);
  of_result (fail_if (observed != list_to_set (map ibr_presentation_relative_path inputs))
    (state_mismatch "materialized input set file inventory differs from the committed binding set"
       "effectiveInputs")) ;;
  verify_inputs root 0 inputs.

(** ** Credential snapshots *)

Section credentials.
Context `{P : Platform, C : EngineCodec}.

Definition credential_entry (root : string) (entry : result IoFailure string)
    : eff CredentialSnapshotEntry :=
  name ← of_result (map_err (io_error "read encrypted credential snapshot entry") entry);
  let path := path_join root name in
  kind ← try_map (io_error "inspect encrypted credential snapshot entry") (SymlinkMetadata path);
  length ← of_result match kind with
                     | RegularFile length => Ok length
                     | _ => Err (state_mismatch
                              "encrypted credential snapshot contains a non-regular entry"
                              "credentialSetId")
                     end;
  of_result (fail_if (present (from_utf8_error name))
    (state_mismatch "encrypted credential snapshot contains a non-UTF-8 credential name"
       "credentialSetId")) ;;
  of_result (validate_credential_name name "credentialSetId") ;;
  digest ← try_map map_universal_error (Sha256File path);
  mret {| cse_name := name; cse_digest := digest; cse_byte_length := length |}.

Definition inspect_credential_snapshot (root : string) : eff (string * list string) :=
  kind ← try_map (io_error "inspect encrypted credential snapshot set") (SymlinkMetadata root);
  of_result (fail_if (negb (is_directory kind))
    (state_mismatch "encrypted credential snapshot root is not a non-symlink directory"
       "credentialSetId")) ;;
  listing ← try_map (io_error "enumerate encrypted credential snapshot") (ReadDir root);
  entries ← fold_eff (fun entries entry => found ← credential_entry root entry;
                                           mret (entries ++ [found])) [] listing;
  let entries := order_by (fun x y => String.leb (cse_name x) (cse_name y)) entries in
  mret (sha256_bytes (credential_snapshot_to_json entries), map cse_name entries).

Definition verify_credential_snapshot (root expected_set_id : string) : eff (list string) :=
  '(observed_set_id, names) ← inspect_credential_snapshot root;
  of_result (fail_if (negb (String.eqb observed_set_id expected_set_id))
    (state_mismatch "encrypted credential snapshot does not match the committed credential set"
       "credentialSetId")) ;;
  mret names.

(** ** Ownership *)

Context (rt : Runtime).

Definition input_materializations_root : string := path_join (rt_store_root rt) "input-materializations".
Definition job_inputs_root : string := path_join (rt_store_root rt) "job-inputs".
Definition job_input_path (job_id : string) : string := path_join job_inputs_root job_id.
Definition credential_materializations_root : string :=
  path_join (rt_store_root rt) "credential-materializations".
Definition job_credentials_root : string := path_join (rt_store_root rt) "job-credentials".
Definition job_credential_path (job_id : string) : string := path_join job_credentials_root job_id.

(** [discard_prepared_input_set], [discard_prepared_credential_set] *)
Definition discard_prepared (context prepared_root : string) : eff unit :=
  exists_ ← ask (PathExists prepared_root);
  if negb exists_ then mret tt
  else
    try_map (io_error context) (RemoveDirAll prepared_root) ;;
    match path_parent prepared_root with
    | Some parent => try_map map_universal_error (SyncDirectory parent)
    | None => mret tt
    end.

Definition discard_prepared_input_set : string -> eff unit :=
  discard_prepared "remove unowned prepared input set".
Definition discard_prepared_credential_set : string -> eff unit :=
  discard_prepared "remove unowned prepared credential set".

(** A prepared directory becomes the one the Job owns, unless another caller
    was faster. *)
Definition adopt (prepared_root owned_root operation : string) : eff unit :=
  renamed ← ask (RenameDurable prepared_root owned_root false operation);
  match renamed with
  | Ok _ => mret tt
  | Err error =>
      owned ← ask (PathExists owned_root);
      if owned : bool then mret tt else throw (map_universal_error error)
  end.

Definition missing_snapshots (message field : string) : RuntimeError :=
  error_new ReconciliationRequired message (Some field) true.

Definition ensure_job_credential_ownership (job_id : string) : eff unit :=
  plan ← registry (GetExecutionPlan job_id);
  match plan_credential_set_id plan with
  | None => mret tt
  | Some credential_set_id =>
      let owned_root := job_credential_path job_id in
      let prepared_root := path_join credential_materializations_root job_id in
      try_map (io_error "create Job credential ownership root") (CreateDirAll job_credentials_root) ;;
      owned ← ask (PathExists owned_root);
      if owned : bool then
        verify_credential_snapshot owned_root credential_set_id ;;
        prepared ← ask (PathExists prepared_root);
        if prepared : bool then discard_prepared_credential_set prepared_root else mret tt
      else
        prepared ← ask (PathExists prepared_root);
        of_result (fail_if (negb prepared)
          (missing_snapshots
             "committed Job credentials are missing both prepared and Job-owned snapshots"
             "executionPlan.credentialSetId")) ;;
        verify_credential_snapshot prepared_root credential_set_id ;;
        adopt prepared_root owned_root "adopt prepared credentials for Job" ;;
        verify_credential_snapshot owned_root credential_set_id ;;
        mret tt
  end.

Definition ensure_job_input_ownership (job_id : string) : eff unit :=
  plan ← registry (GetExecutionPlan job_id);
  match plan_effective_inputs plan, plan_input_set_id plan with
  | [], None => mret tt
  | [], Some _ =>
      throw (registry_corrupt "inputSetId exists without effective immutable inputs" "executionPlan")
  | _ :: _, None =>
      throw (registry_corrupt "effective immutable inputs have no committed inputSetId"
               "executionPlan")
  | _ :: _, Some _ =>
      requests ← of_result (effective_input_requests_from_plan plan);
      let owned_root := job_input_path job_id in
      let prepared_root := path_join input_materializations_root job_id in
      try_map (io_error "create Job input ownership root") (CreateDirAll job_inputs_root) ;;
      owned ← ask (PathExists owned_root);
      if owned : bool then
        verify_effective_input_set owned_root requests ;;
        prepared ← ask (PathExists prepared_root);
        if prepared : bool then discard_prepared_input_set prepared_root else mret tt
      else
        prepared ← ask (PathExists prepared_root);
        of_result (fail_if (negb prepared)
          (missing_snapshots
             "committed Job immutable inputs are missing both prepared and Job-owned bytes"
             "executionPlan.inputSetId")) ;;
        verify_effective_input_set prepared_root requests ;;
        adopt prepared_root owned_root "adopt prepared immutable inputs for Job" ;;
        verify_effective_input_set owned_root requests ;;
        mret tt
  end.
End credentials.
