(* ===== verification/Binding.v ===== *)
(** * Binding an Attempt to the process that runs it

    [engine/execution.rs]: the evidence of a start is read from the bundle,
    compared with what was committed and, on Linux, with what systemd and
    [/proc] say of the unit, and only then recorded in the Registry.  With the
    checks of the Windows provider configuration of [windows.rs] and
    [windows_broker.rs]. *)

From S2P Require Import Prelude Text Errors Types Supervisor Platform Validation Submit Store.
From S2P Require Import Transaction Projection Admission Recovery Registry Query Effects Utf8 Engine.
From S2P Require Import Linux Inputs.

#[local] Open Scope Z_scope.

Definition launch_mismatch (message field : string) : RuntimeError :=
  error_new LaunchIdentityMismatch message (Some field) false.

(** [RuntimeError::new(IoError, format!("{context}: {error}"), Some(field), false)] *)
Definition field_io_error (context field : string) (error : IoFailure) : RuntimeError :=
  error_new IoError (context +:+ ": " +:+ io_text error) (Some field) false.

Definition WINDOWS_LIMITED_INTEGRITY_RID : Z := 8192.
Definition WINDOWS_ELEVATED_INTEGRITY_RID : Z := 12288.
Definition u32_max : Z := 2 ^ 32 - 1.

(** ** Pure parts *)

(** [Iterator::find] on the entries of a [BTreeMap] *)
Definition required_environment_value_case_insensitive (environment : gmap string string)
    (name field : string) : RuntimeResult string :=
  ok_or (error_new RegistryCorrupt ("committed Windows environment omitted " +:+ name)
           (Some field) false)
    (snd <$> List.find (fun '(actual, value) =>
       eq_ignore_ascii_case actual name && negb (String.eqb value "")) (btree_iter environment)).

(** The ancestors [components[..end].join("/")] of a presentation path. *)
Definition path_ancestors (path : string) : list string :=
  let parts := split_on slash path in
  map (fun n => join "/" (take n parts)) (seq 1 (length parts - 1)).

(** [BTreeSet<String>] of the strings *)
Definition string_set (l : list string) : list string :=
  order_by String.leb (elements (list_to_set l : gset string)).

Section binding.
Context `{P : Platform, C : EngineCodec}.
Context (rt : Runtime).

Definition windows_input_bindings_digest (inputs : list EffectiveInputBinding) : string :=
  let ordered := order_by (fun x y => String.leb (ei_presentation_relative_path x)
                                        (ei_presentation_relative_path y)) inputs in
  let directories := string_set (mjoin (map (fun input =>
                       path_ancestors (ei_presentation_relative_path input)) ordered)) in
  sha256_bytes
    ("windows-immutable-input-tree-v2" +:+ nul
     +:+ join "" (map (fun directory => "D" +:+ nul +:+ directory +:+ nul) directories)
     +:+ join "" (map (fun input =>
           "F" +:+ nul +:+ ei_presentation_relative_path input +:+ nul
           +:+ ei_digest input +:+ nul +:+ pretty (ei_byte_length input) +:+ nul) ordered)).

Definition native_windows_owner_matches_launcher_identity (owner : AttemptSupervisorOwner)
    (launcher_process_id : Z) (creation_time : option Z) (image_digest : option string)
    (job_name : string) : bool :=
  let '(WindowsLauncherV1 expected_id expected_time expected_digest expected_name _) := owner in
  (launcher_process_id =? expected_id) && (creation_time == Some expected_time)
  && (image_digest == Some expected_digest) && String.eqb job_name expected_name.

(** [payload_evidence_matches] *)
Definition payload_evidence_matches (uid gid : option Z) : bool :=
  negb (present uid) && negb (present gid).

Definition windows_visible_path (path field : string) : RuntimeResult string :=
  match rt_windows_absolute rt with
  | Some absolute =>
      fail_if (negb (absolute path)) (invalid "Windows-visible path source must be absolute" field) ;;
      fail_if (present (from_utf8_error path)) (invalid "Windows-visible path must be UTF-8" field) ;;
      Ok path
  | None =>
      Err (error_new ToolUnavailable
             "Windows path projection is available only on a native Windows Runtime"
             (Some field) false)
  end.

(** [Path::is_absolute] of this build *)
Definition host_is_absolute (path : string) : bool :=
  match rt_windows_absolute rt with Some absolute => absolute path | None => is_absolute path end.

(** ** The Windows provider *)

Definition broker_name_valid (name : string) : bool := name_valid name.

Definition validate_shape (broker : WindowsPrivilegedBrokerConfig) : RuntimeResult unit :=
  fail_if (negb (host_is_absolute (wbc_executable_path broker)))
    (invalid "Windows privileged broker path must be absolute" "windows.privilegedBrokerPath") ;;
  fail_if (negb (broker_name_valid (wbc_pipe_name broker)))
    (invalid "Windows privileged broker pipe name must contain only ASCII alphanumeric, '.', '_' or '-' and be at most 128 bytes"
       "windows.privilegedBrokerPipe").

Definition executable_digest (broker : WindowsPrivilegedBrokerConfig) : eff string :=
  of_result (validate_shape broker) ;;
  kind ← try_map (field_io_error "inspect Windows privileged broker" "windows.privilegedBrokerPath")
           (SymlinkMetadata (wbc_executable_path broker));
  of_result (fail_if (negb (is_regular kind))
    (invalid "Windows privileged broker must be a non-symlink executable file"
       "windows.privilegedBrokerPath")) ;;
  try_map (fun error => error_new IoError ("digest Windows privileged broker: "
                          +:+ universal_error_to_string error)
                          (Some "windows.privilegedBrokerPath"%string) false)
    (Sha256File (wbc_executable_path broker)).

Definition verify_digest (broker : WindowsPrivilegedBrokerConfig) (expected : string) : eff unit :=
  observed ← executable_digest broker;
  of_result (fail_if (negb (String.eqb observed expected))
    (launch_mismatch ("Windows privileged broker digest changed after admission: expected "
                      +:+ expected +:+ ", observed " +:+ observed)
       "windowsExecutionContext.privilegedBrokerDigest")).

(** [WindowsExecutionConfig::validate] *)
Definition validate_windows_config (config : WindowsExecutionConfig) : eff unit :=
  of_result (fail_if (negb (host_is_absolute (wx_launcher_path config)))
    (invalid "Windows launcher path must be absolute" "windows.launcherPath")) ;;
  metadata ← try_map (field_io_error "inspect Windows launcher" "windows.launcherPath")
               (ExecutableMetadata (wx_launcher_path config));
  of_result (fail_if (negb match metadata with (RegularFile _, true) => true | _ => false end)
    (invalid "Windows launcher must be a non-symlink executable file" "windows.launcherPath")) ;;
  of_result (fail_if (negb (present (rt_windows_absolute rt)))
    (error_new ToolUnavailable
       "Windows execution provider is available only on a native Windows Runtime"
       (Some "windows"%string) false)) ;;
  match wx_privileged_broker config with
  | None => mret tt
  | Some broker =>
      of_result (validate_shape broker) ;;
      of_result (fail_if (String.eqb (wbc_executable_path broker) (wx_launcher_path config))
        (invalid "Windows privileged broker must be distinct from the Job launcher"
           "windows.privilegedBrokerPath")) ;;
      executable_digest broker ;; mret tt
  end.

(** ** Evidence of a start *)

Definition runner_request_path (attempt : AttemptRecord) : string :=
  bundle_file attempt RUNNER_REQUEST_FILE.

Definition job_name_of (attempt : AttemptRecord) : string := "Ordivon." +:+ att_attempt_id attempt.

(** A file of the bundle and the record in it. *)
Definition read_evidence {A} (attempt : AttemptRecord) (file what field : string)
    (decode : string -> result string A) : eff (string * A) :=
  content ← try_map (io_error ("read " +:+ what)) (ReadFile (bundle_file attempt file));
  evidence ← of_result (map_err (fun error =>
               launch_mismatch ("invalid " +:+ what +:+ ": " +:+ error) field) (decode content));
  mret (content, evidence).

(** The digest of what was read is the digest of the file. *)
Definition unchanged_digest (attempt : AttemptRecord) (file content what field : string)
    : eff string :=
  let digest := sha256_bytes content in
  observed ← try_map map_universal_error (Sha256File (bundle_file attempt file));
  of_result (fail_if (negb (String.eqb digest observed))
    (launch_mismatch (what +:+ " digest changed while reading") field)) ;;
  mret digest.

Definition require_windows_plan (plan : RuntimeExecutionPlan) (message field : string)
    : RuntimeResult unit :=
  fail_if (plan_execution_target plan != ExecutionTarget.WindowsNative)
    (registry_corrupt message field).

(** [self.windows.as_ref().ok_or_else(..)] *)
Definition committed_windows : RuntimeResult WindowsExecutionConfig :=
  ok_or (error_new RegistryCorrupt
           "committed windows_native Job has no configured Windows provider"
           (Some "executionTarget"%string) true) (rt_windows_config rt).

Definition committed_provider (job_id : string) : eff ExecutionProviderSnapshot :=
  provider ← registry (GetExecutionProvider job_id);
  of_result (ok_or (registry_corrupt "native Windows Attempt has no committed execution provider"
                      "executionProvider") provider).

Definition windows_provider_contract (provider : ExecutionProviderSnapshot) : bool :=
  (eps_contract provider == ExecutionProviderContract.WindowsNativeLauncherV1)
  && negb (present (eps_wsl_distribution provider)).

Definition launcher_start_matches (attempt : AttemptRecord) (request_digest : string)
    (provider : ExecutionProviderSnapshot) (evidence : WindowsLauncherStartEvidence) : bool :=
  (wls_schema_version evidence =? RUNTIME_SCHEMA_VERSION)
  && String.eqb (wls_job_id evidence) (att_job_id attempt)
  && String.eqb (wls_attempt_id evidence) (att_attempt_id attempt)
  && String.eqb (wls_launch_token_digest evidence) (att_launch_token_digest attempt)
  && String.eqb (wls_request_digest evidence) request_digest
  && String.eqb (wls_job_name evidence) (job_name_of attempt)
  && negb (wls_launcher_process_id evidence =? 0)
  && negb (wls_launcher_process_creation_time_file_time evidence =? 0)
  && negb (wls_observed_unix_ms evidence =? 0)
  && windows_provider_contract provider
  && String.eqb (wls_launcher_image_digest evidence) (eps_executable_digest provider).

Definition validate_windows_launcher_start_evidence (attempt : AttemptRecord)
    : eff (WindowsLauncherStartEvidence * string) :=
  '(content, evidence) ← read_evidence attempt WINDOWS_LAUNCHER_START_FILE
     "Windows launcher start evidence" "windowsLauncherStart" windows_launcher_start_of_json;
  plan ← registry (GetExecutionPlan (att_job_id attempt));
  of_result (require_windows_plan plan
    "Windows launcher start evidence belongs to a non-Windows execution plan"
    "windowsLauncherStart") ;;
  of_result committed_windows ;;
  provider ← committed_provider (att_job_id attempt);
  request_digest ← try_map map_universal_error (Sha256File (runner_request_path attempt));
  of_result (fail_if (negb (launcher_start_matches attempt request_digest provider evidence))
    (launch_mismatch "Windows launcher start identity does not match committed native Attempt"
       "windowsLauncherStart")) ;;
  digest ← unchanged_digest attempt WINDOWS_LAUNCHER_START_FILE content
             "Windows launcher start evidence" "windowsLauncherStart";
  mret (evidence, digest).

(** *** Windows start evidence *)

Definition expected_token_class (authority : WindowsAuthority.t) : WindowsTokenClass.t :=
  match authority with
  | WindowsAuthority.Limited => WindowsTokenClass.Limited
  | WindowsAuthority.Elevated => WindowsTokenClass.Elevated
  | WindowsAuthority.ActiveUser => WindowsTokenClass.ActiveUser
  end.

Definition expected_environment_source (authority : WindowsAuthority.t) (broker_backed : bool)
    : string :=
  match authority, broker_backed with
  | WindowsAuthority.ActiveUser, _ => "windows_active_user_profile_allowlist_v1"
  | _, true => "windows_privileged_broker_profile_allowlist_v1"
  | _, false => "windows_user_machine_profile_allowlist_v1"
  end.

Definition context_consistent (plan : RuntimeExecutionPlan) (context : WindowsExecutionContext)
    (windows : WindowsExecutionConfig) : bool :=
  let authority := plan_windows_authority plan in
  let broker_backed := present (wec_privileged_broker_digest context) in
  (wec_token_class context == expected_token_class authority)
  && String.eqb (wec_environment_source context) (expected_environment_source authority broker_backed)
  && negb ((authority == WindowsAuthority.Limited) && broker_backed)
  && negb ((authority == WindowsAuthority.ActiveUser)
           && (negb broker_backed || negb (present (wec_session_id context))))
  && negb ((authority != WindowsAuthority.ActiveUser) && present (wec_session_id context))
  && negb (broker_backed && negb (present (wx_privileged_broker windows))).

(** The administrators group is absent, disabled or deny-only. *)
Definition administrators_powerless (attributes : Z) : bool :=
  (attributes =? u32_max) || (Z.land attributes 4 =? 0) || negb (Z.land attributes 16 =? 0).

Definition service_identity (identity : string) : bool :=
  String.eqb identity "" || String.eqb identity "service".

Definition token_authority_matches (authority : WindowsAuthority.t) (evidence : WindowsStartEvidence)
    : bool :=
  let attributes := wse_administrators_group_attributes evidence in
  let selection := wse_token_selection evidence in
  match authority with
  | WindowsAuthority.Limited =>
      negb (wse_token_is_elevated evidence)
      && (wse_token_integrity_level_rid evidence <=? WINDOWS_LIMITED_INTEGRITY_RID)
      && administrators_powerless attributes
      && (String.eqb selection "lua_medium_filtered" || String.eqb selection "current_limited")
      && (negb (String.eqb selection "lua_medium_filtered") || (attributes =? u32_max)
          || negb (Z.land attributes 16 =? 0))
      && service_identity (wse_execution_identity evidence)
  | WindowsAuthority.Elevated =>
      wse_token_is_elevated evidence
      && (WINDOWS_ELEVATED_INTEGRITY_RID <=? wse_token_integrity_level_rid evidence)
      && negb (attributes =? u32_max) && negb (Z.land attributes 4 =? 0)
      && (Z.land attributes 16 =? 0) && String.eqb selection "current_elevated"
      && service_identity (wse_execution_identity evidence)
  | WindowsAuthority.ActiveUser =>
      negb (wse_token_is_elevated evidence)
      && (wse_token_integrity_level_rid evidence <=? WINDOWS_LIMITED_INTEGRITY_RID)
      && administrators_powerless attributes
      && String.eqb selection "active_user"
      && String.eqb (wse_execution_identity evidence) "active_user"
      && present (wse_session_id evidence)
  end.

(** The executable, its digest and the field of the first process. *)
Definition first_executable (plan : RuntimeExecutionPlan) : string * string * string :=
  match plan_steps plan with
  | first :: _ => (step_executable first, step_executable_digest first,
                   "execution.steps[0].executable")
  | [] => (plan_executable plan, plan_executable_digest plan, "execution.executable")
  end%string.

(** [strip_prefix("\\\\?\\").unwrap_or(path)] *)
Definition strip_verbatim (path : string) : string := default path (strip_prefix "\\?\" path).

(** The input set, presentation root and digest that the evidence must name. *)
Definition expected_input_evidence (plan : RuntimeExecutionPlan)
    : RuntimeResult (option string * option string * option string) :=
  match plan_effective_inputs plan with
  | [] => Ok (None, None, None)
  | inputs =>
      input_set_id ← ok_or
        (registry_corrupt "Windows immutable inputs have no committed inputSetId"
           "executionPlan.inputSetId") (plan_input_set_id plan);
      presentation_root ← required_environment_value_case_insensitive (plan_env plan)
                            "ORDIVON_INPUT_ROOT" "executionPlan.env";
      Ok (Some input_set_id, Some presentation_root, Some (windows_input_bindings_digest inputs))
  end.

Definition start_matches (attempt : AttemptRecord) (plan : RuntimeExecutionPlan)
    (context : WindowsExecutionContext) (request_digest image_digest image : string)
    (inputs : option string * option string * option string) (evidence : WindowsStartEvidence)
    : bool :=
  (wse_schema_version evidence =? RUNTIME_SCHEMA_VERSION)
  && String.eqb (wse_job_id evidence) (att_job_id attempt)
  && String.eqb (wse_attempt_id evidence) (att_attempt_id attempt)
  && String.eqb (wse_launch_token_digest evidence) (att_launch_token_digest attempt)
  && String.eqb (wse_request_digest evidence) request_digest
  && String.eqb (wse_job_name evidence) (job_name_of attempt)
  && negb (wse_launcher_process_id evidence =? 0)
  && negb (wse_process_id evidence =? 0)
  && negb (wse_process_creation_time_file_time evidence =? 0)
  && String.eqb (wse_image_digest evidence) image_digest
  && String.eqb (wse_token_user_sid evidence) (wec_token_user_sid context)
  && negb ((plan_windows_authority plan == WindowsAuthority.ActiveUser)
           && (wse_session_id evidence != wec_session_id context))
  && (wse_token_type evidence =? 1)
  && token_authority_matches (plan_windows_authority plan) evidence
  && String.eqb (wse_power_request_type evidence) "system_required"
  && wse_power_request_acquired evidence
  && (wse_input_set_id evidence == inputs.1.1)
  && (wse_input_presentation_root evidence == inputs.1.2)
  && (wse_input_bindings_digest evidence == inputs.2)
  && eq_ignore_ascii_case (strip_verbatim (wse_image_path evidence)) (strip_verbatim image).

(** A committed broker is still the one that was committed. *)
Definition verify_committed_broker (context : WindowsExecutionContext)
    (windows : WindowsExecutionConfig) : eff unit :=
  match wec_privileged_broker_digest context with
  | None => mret tt
  | Some expected =>
      broker ← of_result (ok_or
        (registry_corrupt "broker-bound Windows execution context has no configured privileged broker"
           "windowsExecutionContext.privilegedBrokerDigest") (wx_privileged_broker windows));
      verify_digest broker expected
  end.

Definition launcher_owner_matches (provider : ExecutionProviderSnapshot)
    (evidence : WindowsStartEvidence) : bool :=
  windows_provider_contract provider
  && match wse_launcher_process_creation_time_file_time evidence with
     | Some identity => negb (identity =? 0) | None => false end
  && (wse_launcher_image_digest evidence == Some (eps_executable_digest provider)).

Definition validate_windows_start_evidence (attempt : AttemptRecord)
    : eff (WindowsStartEvidence * string) :=
  '(content, evidence) ← read_evidence attempt WINDOWS_START_FILE
     "Windows start evidence" "windowsStart" windows_start_of_json;
  plan ← registry (GetExecutionPlan (att_job_id attempt));
  of_result (require_windows_plan plan
    "Windows start evidence belongs to a non-Windows execution plan" "windowsStart") ;;
  windows ← of_result committed_windows;
  context ← of_result (ok_or
    (registry_corrupt "committed windows_native Job has no frozen Windows execution context"
       "windowsExecutionContext") (plan_windows_execution_context plan));
  of_result (fail_if (negb (context_consistent plan context windows))
    (registry_corrupt
       "committed Windows requested/effective authority or privileged provider binding is inconsistent"
       "windowsExecutionContext")) ;;
  verify_committed_broker context windows ;;
  request_digest ← try_map map_universal_error (Sha256File (runner_request_path attempt));
  let '(executable, image_digest, field) := first_executable plan in
  image ← of_result (windows_visible_path executable field);
  inputs ← of_result (expected_input_evidence plan);
  of_result (fail_if (negb (start_matches attempt plan context request_digest image_digest image
                              inputs evidence))
    (launch_mismatch "Windows start identity does not match committed Attempt" "windowsStart")) ;;
  digest ← unchanged_digest attempt WINDOWS_START_FILE content "Windows start evidence" "windowsStart";
  provider ← committed_provider (att_job_id attempt);
  of_result (fail_if (negb (launcher_owner_matches provider evidence))
    (launch_mismatch
       "native Windows launcher owner identity does not match the committed provider"
       "windowsStart")) ;;
  mret (evidence, digest).

Definition bind_windows_start (attempt : AttemptRecord) : eff AttemptRecord :=
  '(evidence, digest) ← validate_windows_start_evidence attempt;
  creation_time ← of_result (ok_or
    (launch_mismatch "native Windows start evidence omitted launcher process creation identity"
       "windowsStart.launcherProcessCreationTimeFileTime")
    (identity ← wse_launcher_process_creation_time_file_time evidence;
     if identity =? 0 then None else Some identity));
  image_digest ← of_result (ok_or
    (launch_mismatch "native Windows start evidence omitted launcher image digest"
       "windowsStart.launcherImageDigest") (wse_launcher_image_digest evidence));
  existing ← registry (GetSupervisorOwner (att_attempt_id attempt));
  match existing with
  | Some existing =>
      of_result (fail_if (negb (native_windows_owner_matches_launcher_identity existing
                   (wse_launcher_process_id evidence)
                   (wse_launcher_process_creation_time_file_time evidence)
                   (wse_launcher_image_digest evidence) (wse_job_name evidence)))
        (launch_mismatch
           "native Windows target-start evidence disagrees with the parent-observed launcher owner"
           "windowsStart")) ;;
      registry (GetAttempt (att_attempt_id attempt))
  | None =>
      registry (BindSupervisorOwner (att_attempt_id attempt) (att_row_version attempt)
        (WindowsLauncherV1 (wse_launcher_process_id evidence) creation_time image_digest
           (wse_job_name evidence) digest) (wse_observed_unix_ms evidence))
  end.

(** *** Runner start evidence *)

Definition runner_start_matches (attempt : AttemptRecord) (evidence : RunnerStartEvidence) : bool :=
  String.eqb (rse_job_id evidence) (att_job_id attempt)
  && String.eqb (rse_attempt_id evidence) (att_attempt_id attempt)
  && String.eqb (rse_unit_name evidence) (att_unit_name attempt)
  && String.eqb (rse_launch_token_digest evidence) (att_launch_token_digest attempt)
  && payload_evidence_matches (rse_payload_uid evidence) (rse_payload_gid evidence).

(** The committed provider of the Linux Runner, if the Job has one. *)
Definition linux_provider (job_id : string) : eff (option ExecutionProviderSnapshot) :=
  provider ← registry (GetExecutionProvider job_id);
  mret (provider ← provider;
        if eps_contract provider == ExecutionProviderContract.LocalLinuxRunnerV1
        then Some provider else None).

(** The Runner says to be the committed image. *)
Definition check_reported_image (evidence : RunnerStartEvidence)
    (provider : option ExecutionProviderSnapshot) : RuntimeResult unit :=
  match provider with
  | None => Ok tt
  | Some provider =>
      observed ← ok_or
        (launch_mismatch "provider-bound Runner-start evidence omitted the actual Runner image digest"
           "runnerStart.runnerExecutableDigest") (rse_runner_executable_digest evidence);
      fail_if (negb (String.eqb observed (eps_executable_digest provider)))
        (launch_mismatch ("actual Runner image differs from the committed execution provider: expected "
                          +:+ eps_executable_digest provider +:+ ", observed " +:+ observed)
           "runnerStart.runnerExecutableDigest")
  end.

(** [format!("{:?}", option)] of a digest *)
Definition debug_option (value : option string) : string :=
  match value with
  | Some value => "Some(" +:+ String (Ascii.ascii_of_N 34) EmptyString +:+ value
                  +:+ String (Ascii.ascii_of_N 34) EmptyString +:+ ")"
  | None => "None"
  end.

(** The main process executes the committed image, or has ended meanwhile. *)
Definition check_executing_image (evidence : RunnerStartEvidence) (main_pid : Z)
    (process_start_identity : string) (provider : option ExecutionProviderSnapshot) : eff unit :=
  match provider with
  | None => mret tt
  | Some provider =>
      image ← ask (Sha256File ("/proc/" +:+ pretty main_pid +:+ "/exe"));
      match image with
      | Ok observed =>
          of_result (fail_if ((rse_runner_executable_digest evidence != Some observed)
                              || negb (String.eqb observed (eps_executable_digest provider)))
            (launch_mismatch
               ("systemd MainPID image differs from committed/self-reported Runner provider: committed "
                +:+ eps_executable_digest provider +:+ ", runner-start "
                +:+ debug_option (rse_runner_executable_digest evidence) +:+ ", OS observed "
                +:+ observed) "runnerStart.runnerExecutableDigest"))
      | Err error =>
          now ← infallible (process_identity main_pid);
          of_result (fail_if (now == Some process_start_identity)
            (launch_mismatch ("cannot independently inspect the live systemd MainPID Runner image: "
                              +:+ universal_error_to_string error) "mainPid"))
      end
  end.

(** The process that systemd names as the main one of the unit. *)
Definition observed_main_process (properties : gmap string string) (evidence : RunnerStartEvidence)
    : eff (Z * string) :=
  of_result (require_property properties "InvocationID" (rse_invocation_id evidence)) ;;
  of_result (require_property properties "ControlGroup" (rse_control_group evidence)) ;;
  main_pid ← of_result (ok_or (missing_systemd_property "MainPID")
               (properties !! "MainPID" ≫= parse_u32));
  of_result (fail_if ((rse_namespace_pid evidence =? 0)
                      || String.eqb (rse_namespace_process_start_identity evidence) "")
    (launch_mismatch "runner-start omitted PID namespace identity" "namespacePid")) ;;
  observed ← infallible (process_identity main_pid);
  identity ← of_result (ok_or
    (launch_mismatch "systemd MainPID has no observable host process identity" "mainPid") observed);
  mret (main_pid, identity).

Definition bind_runner_start (attempt : AttemptRecord) : eff AttemptRecord :=
  '(content, evidence) ← read_evidence attempt RUNNER_START_FILE
     "runner-start evidence" "runnerStart" runner_start_of_json;
  of_result (fail_if (negb (runner_start_matches attempt evidence))
    (launch_mismatch "runner-start identity does not match committed Attempt" "runnerStart")) ;;
  provider ← linux_provider (att_job_id attempt);
  of_result (check_reported_image evidence provider) ;;
  properties ← systemctl_show (att_unit_name attempt);
  '(main_pid, process_start_identity) ← observed_main_process properties evidence;
  provider ← linux_provider (att_job_id attempt);
  check_executing_image evidence main_pid process_start_identity provider ;;
  digest ← unchanged_digest attempt RUNNER_START_FILE content "runner-start evidence" "runnerStart";
  boot_id ← read_trimmed "/proc/sys/kernel/random/boot_id";
  registry (BindRunning (att_attempt_id attempt) (att_row_version attempt)
    {| rid_boot_id := boot_id;
       rid_unit_name := rse_unit_name evidence;
       rid_invocation_id := rse_invocation_id evidence;
       rid_control_group := rse_control_group evidence;
       rid_main_pid := main_pid;
       rid_process_start_identity := process_start_identity;
       rid_runner_start_digest := digest;
       rid_observed_at_ms := clamp_u64 (rse_observed_unix_ms evidence) |}).

Definition bind_attempt_start (attempt : AttemptRecord) (target : ExecutionTarget.t)
    : eff AttemptRecord :=
  match target with
  | ExecutionTarget.LocalLinux => bind_runner_start attempt
  | ExecutionTarget.WindowsNative => bind_windows_start attempt
  end.
End binding.
