(* ===== verification/Output.v ===== *)
(** * Windows on retained output

    [read_utf8_range], [read_output_text] and [read_tail_text] of
    [runtime/engine.rs], and [read_artifact] of [engine/control_query.rs]:
    output and artifacts are read in windows of whole characters. *)

From S2P Require Import Prelude Text Errors Types Supervisor Platform Validation Submit Store.
From S2P Require Import Transaction Projection Admission Recovery Registry Query Effects Utf8 Engine.

#[local] Open Scope Z_scope.

(** ** The code *)

Record OutputView : Type := {
  ov_content : string;
  ov_offset : option Z;
  ov_next_offset : option Z;
  ov_available_bytes : option Z;
  ov_eof : option bool;
}.

(** [OutputView::empty] *)
Definition output_view_empty (offset : option Z) (terminal : bool) : OutputView :=
  {| ov_content := "";
     ov_offset := offset;
     ov_next_offset := offset;
     ov_available_bytes := (fun _ => 0) <$> offset;
     ov_eof := (fun value => terminal && (value =? 0)) <$> offset |}.

Record TextRange : Type := {
  tr_content : string;
  tr_next_offset : Z;
}.

Record RangeFields : Type := {
  rf_offset : string;
  rf_max_bytes : string;
}.

(** What [read_utf8_range] makes of the bytes it read. *)
Definition text_range (offset available : Z) (terminal : bool) (fields : RangeFields)
    (read : string) : RuntimeResult TextRange :=
  fail_if ((0 <? offset) && match bytes read with b :: _ => continuation b | [] => false end)
    (invalid (rf_offset fields +:+ " must point to a UTF-8 character boundary")
       (rf_offset fields)) ;;
  let safe_len := match from_utf8_error read with
                  | None => String.length read
                  | Some error => match error_len error with
                                  | None => valid_up_to error
                                  | Some _ => String.length read
                                  end
                  end in
  if (safe_len =? 0)%nat && negb (String.eqb read "") then
    if negb terminal && (available <=? saturating_add offset (str_len read))
    then Ok {| tr_content := ""; tr_next_offset := offset |}
    else Err (invalid (rf_max_bytes fields
                +:+ " is too small for the next UTF-8 character; use at least 4 bytes")
                (rf_max_bytes fields))
  else Ok {| tr_content := from_utf8_lossy (str_take safe_len read);
             tr_next_offset := saturating_add offset (Z.of_nat safe_len) |}.

Definition read_utf8_range (path : string) (offset max_bytes available : Z) (terminal : bool)
    (fields : RangeFields) (context : string) : eff TextRange :=
  of_result (fail_if (available <? offset)
    (invalid (rf_offset fields +:+ " exceeds retained byte length " +:+ pretty available)
       (rf_offset fields))) ;;
  if (max_bytes =? 0) || (offset =? available)
  then mret {| tr_content := ""; tr_next_offset := offset |}
  else
    let read_limit := Z.min max_bytes (saturating_sub available offset) in
    try_map (io_error ("open " +:+ context +:+ " range")) (OpenFile path) ;;
    try_map (io_error ("seek " +:+ context +:+ " range")) (SeekFile path offset) ;;
    read ← try_map (io_error ("read " +:+ context +:+ " range"))
             (ReadUpTo path offset read_limit);
    of_result (text_range offset available terminal fields read).

Definition read_tail_text (path : string) (max_bytes : Z) : eff string :=
  if max_bytes =? 0 then mret ""
  else
    exists_ ← ask (PathExists path);
    if negb exists_ then mret ""
    else
      try_map (io_error "open output tail") (OpenFile path) ;;
      length ← try_map (io_error "inspect output tail") (FileLen path);
      let offset := saturating_sub length max_bytes in
      try_map (io_error "seek output tail") (SeekFile path offset) ;;
      read ← try_map (io_error "read output tail") (ReadUpTo path offset max_bytes);
      mret (from_utf8_lossy read).

Definition read_output_text (path : string) (offset : option Z) (max_bytes : Z) (terminal : bool)
    (offset_field max_bytes_field : string) : eff OutputView :=
  match offset with
  | None =>
      content ← read_tail_text path max_bytes;
      mret {| ov_content := content; ov_offset := None; ov_next_offset := None;
              ov_available_bytes := None; ov_eof := None |}
  | Some offset =>
      exists_ ← ask (PathExists path);
      available ← (if exists_ : bool then try_map (io_error "inspect output range") (FileLen path)
                   else mret 0);
      of_result (fail_if (available <? offset)
        (invalid (offset_field +:+ " exceeds retained output length " +:+ pretty available)
           offset_field)) ;;
      readable ← (if max_bytes =? 0 then mret false else ask (PathExists path));
      if negb readable then
        mret {| ov_content := ""; ov_offset := Some offset; ov_next_offset := Some offset;
                ov_available_bytes := Some available;
                ov_eof := Some (terminal && (available <=? offset)) |}
      else
        range ← read_utf8_range path offset max_bytes available terminal
                  {| rf_offset := offset_field; rf_max_bytes := max_bytes_field |} "output";
        mret {| ov_content := tr_content range; ov_offset := Some offset;
                ov_next_offset := Some (tr_next_offset range);
                ov_available_bytes := Some available;
                ov_eof := Some (terminal && (available <=? tr_next_offset range)) |}
  end.

(** ** Artifacts *)

Definition MAX_ARTIFACT_READ_BYTES : Z := 1024 * 1024.

Record ArtifactReadRequest : Type := {
  arr_schema_version : Z;
  arr_job_id : string;
  arr_artifact_id : string;
  arr_offset : Z;
  arr_max_bytes : Z;
}.

Record ArtifactReadResult : Type := {
  ars_job_id : string;
  ars_artifact_id : string;
  ars_content : string;
  ars_offset : Z;
  ars_next_offset : Z;
  ars_eof : bool;
  ars_digest : string;
}.

Definition artifact_conflict (message : string) : RuntimeError :=
  error_new ArtifactIdentityConflict message (Some "artifactId") false.

Definition read_artifact (request : ArtifactReadRequest) : eff ArtifactReadResult :=
  of_result (
    fail_if (negb (arr_schema_version request =? RUNTIME_SCHEMA_VERSION))
      (invalid "unsupported runtime schema version" "schemaVersion") ;;
    fail_if ((arr_max_bytes request =? 0) || (MAX_ARTIFACT_READ_BYTES <? arr_max_bytes request))
      (invalid ("maxBytes must be in 1..=" +:+ pretty MAX_ARTIFACT_READ_BYTES) "maxBytes")) ;;
  artifact ← registry (GetArtifact (arr_job_id request) (arr_artifact_id request));
  attempt ← registry (GetAttempt (art_attempt_id artifact));
  bundle ← try_map map_universal_error (CanonicalDirectory (att_bundle_path attempt) "bundlePath");
  let path := path_join bundle (art_relative_path artifact) in
  metadata ← try_map (io_error "inspect Artifact") (SymlinkMetadata path);
  length ← of_result match metadata with
           | RegularFile length => Ok length
           | _ => Err (artifact_conflict "Artifact path is not a regular non-symlink file")
           end;
  canonical ← try_map (io_error "canonicalize Artifact") (Canonicalize path);
  of_result (fail_if (negb (path_starts_with canonical bundle))
    (artifact_conflict "Artifact escaped Attempt bundle")) ;;
  digest ← try_map map_universal_error (Sha256File canonical);
  of_result (fail_if (negb (String.eqb digest (art_digest artifact))
                      || negb (length =? art_byte_length artifact))
    (artifact_conflict "Artifact digest or byte length changed")) ;;
  range ← read_utf8_range canonical (arr_offset request) (arr_max_bytes request)
            (art_byte_length artifact) true
            {| rf_offset := "offset"; rf_max_bytes := "maxBytes" |} "Artifact";
  mret {| ars_job_id := arr_job_id request;
          ars_artifact_id := arr_artifact_id request;
          ars_content := tr_content range;
          ars_offset := arr_offset request;
          ars_next_offset := tr_next_offset range;
          ars_eof := art_byte_length artifact <=? tr_next_offset range;
          ars_digest := art_digest artifact |}.
