(* ===== verification/Evidence.v ===== *)
(** * Evidence on disk

    [evidence.rs]: the result file of the Runner; of [engine/control_query.rs]:
    the receipt of a release, and the evidence file of a terminal commit. *)

From S2P Require Import Prelude Text Errors Types Supervisor Platform Validation Submit Store.
From S2P Require Import Transaction Projection Lifecycle Admission Recovery Registry Query.
From S2P Require Import Effects Utf8 Engine Linux.

(** ** The result of the Runner

    [runtime/evidence.rs]: the result file of an Attempt, and the terminal
    commit it stands for. *)

#[local] Open Scope Z_scope.

Section evidence.
Context `{P : Platform, C : EngineCodec}.

Definition output_conflict (message : string) : RuntimeError :=
  error_new ArtifactIdentityConflict message (Some "artifact") false.

Definition validate_captured_output (attempt : AttemptRecord) (output : CapturedOutput)
    (stdout : bool) : eff ArtifactRegistration :=
  let expected_file := if stdout then STDOUT_FILE else STDERR_FILE in
  let expected_kind := (if stdout then "stdout" else "stderr")%string in
  let expected_id := att_attempt_id attempt +:+ "." +:+ expected_kind in
  of_result (fail_if (negb (String.eqb (co_file_name output) expected_file)
                      || negb (String.eqb (co_artifact_id output) expected_id))
    (output_conflict "Runner output identity does not match Attempt")) ;;
  let path := bundle_file attempt expected_file in
  length ← try_map (io_error "inspect output") (FileLen path);
  digest ← try_map evidence_universal_error (Sha256File path);
  of_result (fail_if (negb (String.eqb digest (co_digest output))
                      || negb (length =? co_retained_bytes output))
    (output_conflict "Runner output digest or byte length changed")) ;;
  mret {| areg_artifact_id := expected_id;
          areg_kind := expected_kind;
          areg_relative_path := expected_file;
          areg_digest := digest;
          areg_media_type := "text/plain; charset=utf-8";
          areg_byte_length := length;
          areg_truncated := co_truncated output |}.

(** The [match result.status]. *)
Definition runner_disposition (current : AttemptRecord) (result : RunnerResult)
    : AttemptState.t * string :=
  match rr_status result with
  | RunnerTerminalStatus.Completed =>
      if (att_state current == AttemptState.Stopping)
         || (att_termination_intent current == AttemptTerminationIntent.StopRequested)
      then (AttemptState.Succeeded, "PROCESS_COMPLETED_BEFORE_STOP_EFFECTIVE"%string)
      else (AttemptState.Succeeded, "PROCESS_EXIT_ZERO"%string)
  | RunnerTerminalStatus.Failed =>
      if rr_timed_out result then (AttemptState.TimedOut, "DEADLINE_EXCEEDED"%string)
      else
        (AttemptState.Failed,
         let code_is text := rr_infrastructure_error_code result == Some text in
         if code_is "WORKSPACE_STATE_MISMATCH" then "WORKSPACE_SOURCE_PRECONDITION_DRIFT"
         else if code_is "INPUT_STATE_MISMATCH" then "INPUT_PRECONDITION_DRIFT"
         else if code_is "HOST_DEPENDENCY_RUNTIME_DRIFT" then "HOST_DEPENDENCY_RUNTIME_DRIFT"
         else if code_is "EXECUTABLE_RUNTIME_DRIFT" then "EXECUTABLE_RUNTIME_DRIFT"
         else match rr_infrastructure_error_code result with
              | Some _ => "RUNNER_INFRASTRUCTURE_FAILURE"
              | None => "PROCESS_EXIT_NONZERO"
              end)%string
  | RunnerTerminalStatus.Cancelled => (AttemptState.Cancelled, "STOP_REQUESTED"%string)
  end.

(** The result names the Attempt in every field. *)
Definition result_identity_matches (current : AttemptRecord) (result : RunnerResult) : bool :=
  String.eqb (rr_task_id result) (att_attempt_id current)
  && (rr_job_id result == Some (att_job_id current))
  && (rr_attempt_id result == Some (att_attempt_id current))
  && (rr_launch_token_digest result == Some (att_launch_token_digest current))
  && (rr_payload_uid result == None)
  && (rr_payload_gid result == None).

Definition runner_terminal_commit (current : AttemptRecord) (text : string)
    (result : RunnerResult) (stdout stderr : ArtifactRegistration) : TerminalCommit :=
  {| tc_attempt_id := att_attempt_id current;
     tc_expected_row_version := att_row_version current;
     tc_state := fst (runner_disposition current result);
     tc_result_digest := sha256_bytes text;
     tc_exit_code := rr_exit_code result;
     tc_infrastructure_error_digest := sha256_bytes <$> rr_infrastructure_error result;
     tc_finished_at_ms := clamp_u64 (rr_finished_unix_ms result);
     tc_artifacts :=
       [stdout; stderr;
        {| areg_artifact_id := att_attempt_id current +:+ ".result";
           areg_kind := "execution_result";
           areg_relative_path := RESULT_FILE;
           areg_digest := sha256_bytes text;
           areg_media_type := "application/json";
           areg_byte_length := clamp_u64 (str_len text);
           areg_truncated := false |}];
     tc_reason_code := snd (runner_disposition current result) |}.

Definition prepare_runner_terminal_from_bundle (current : AttemptRecord) : eff TerminalCommit :=
  text ← try_map (io_error "read Runner result") (ReadFile (bundle_file current RESULT_FILE));
  result ← of_result (map_err (fun error => error_new RegistryCorrupt
                         ("invalid Runner result: " +:+ error) (Some "result") false)
                        (runner_result_of_json text));
  of_result (fail_if (negb (result_identity_matches current result))
    (error_new ResultIdentityConflict "Runner result identity does not match committed Attempt"
       (Some "result") false)) ;;
  stdout ← validate_captured_output current (rr_stdout result) true;
  stderr ← validate_captured_output current (rr_stderr result) false;
  mret (runner_terminal_commit current text result stdout stderr).
End evidence.

(** ** The receipt of a Runtime Release

    [inspect_runtime_release_receipt] of [engine/control_query.rs]: what the
    files of a release receipt say about the release that a Job stands for. *)

#[local] Open Scope Z_scope.

(** [Admitted] is a word of the proof language, hence [Admitted_]. *)
Module RuntimeReleaseDisposition.
Inductive t : Type :=
  | Admitted_
  | InProgress
  | Deployed
  | NotCommitted
  | RolledBack
  | ReconciliationRequired.
#[global] Instance eq_dec : EqDecision t.
Proof. solve_decision. Defined.
End RuntimeReleaseDisposition.

Record RuntimeReleaseReceiptProjection : Type := {
  rrp_disposition : RuntimeReleaseDisposition.t;
  rrp_terminal : bool;
  rrp_available : bool;
  rrp_digest : option string;
  rrp_deployed_tool_count : option Z;
  rrp_tool_catalog_digest : option string;
  rrp_rollback_status : option string;
  rrp_issue : option string;
}.

Definition MAX_RUNTIME_RELEASE_RECEIPT_BYTES : Z := 1024 * 1024.

(** [Value::as_str], [as_u64], [is_object], [pointer] of two keys *)
Definition as_str (value : Json) : option string :=
  match value with JStr s => Some s | _ => None end.
Definition as_u64 (value : Json) : option Z :=
  match value with JNum n => if (0 <=? n) && (n <=? u64_max) then Some n else None | _ => None end.
Definition is_object (value : Json) : bool := match value with JObj _ => true | _ => false end.
Definition str_at (key : string) (value : Json) : option string := json_get key value ≫= as_str.
Definition probe (key : string) (value : Json) : option Json := json_get "probe" value ≫= json_get key.

Definition probe_tool_count (result : Json) : option Z :=
  n ← probe "toolCount" result ≫= as_u64;
  if n <? 2 ^ 32 then Some n else None.
Definition probe_tool_catalog_digest (result : Json) : option string :=
  probe "toolCatalogDigest" result ≫= as_str.

Section receipt.
Context `{P : Platform}.

Definition release_receipt_json (path : string) : prog (result string (option (Json * string))) :=
  metadata ← perform (SymlinkMetadata path);
  match metadata with
  | Err error => mret (if io_not_found error then Ok None
                       else Err "RELEASE_RECEIPT_METADATA_UNAVAILABLE"%string)
  | Ok (RegularFile length) =>
      if MAX_RUNTIME_RELEASE_RECEIPT_BYTES <? length
      then mret (Err "RELEASE_RECEIPT_FILE_TOO_LARGE"%string)
      else
        opened ← perform (OpenNoFollow path);
        match opened with
        | Err _ => mret (Err "RELEASE_RECEIPT_OPEN_FAILED"%string)
        | Ok _ =>
            read ← perform (ReadUpTo path 0 (MAX_RUNTIME_RELEASE_RECEIPT_BYTES + 1));
            match read with
            | Err _ => mret (Err "RELEASE_RECEIPT_READ_FAILED"%string)
            | Ok text =>
                mret (if MAX_RUNTIME_RELEASE_RECEIPT_BYTES <? str_len text
                      then Err "RELEASE_RECEIPT_FILE_TOO_LARGE"%string
                      else match json_of_string text with
                           | Err _ => Err "RELEASE_RECEIPT_JSON_INVALID"%string
                           | Ok value =>
                               if is_object value then Ok (Some (value, sha256_bytes text))
                               else Err "RELEASE_RECEIPT_JSON_INVALID"%string
                           end)
            end
        end
  | Ok _ => mret (Err "RELEASE_RECEIPT_FILE_UNSAFE"%string)
  end.

Definition release_effect_json_matches (value : Json) (binding : RuntimeReleaseEffectBinding)
    : bool :=
  is_object value
  && (str_at "contract" value == Some "runtime_release_v1"%string)
  && (str_at "effectId" value == Some (rel_effect_id binding))
  && (str_at "requestDigest" value == Some (rel_request_digest binding))
  && (str_at "commit" value == Some (rel_commit binding))
  && (str_at "candidateManifestDigest" value == Some (rel_candidate_manifest_digest binding))
  && ((json_get "expectedToolCount" value ≫= as_u64) == Some (rel_expected_tool_count binding)).

Definition no_receipt (disposition : RuntimeReleaseDisposition.t) (issue : option string)
    : RuntimeReleaseReceiptProjection :=
  {| rrp_disposition := disposition; rrp_terminal := false; rrp_available := false;
     rrp_digest := None; rrp_deployed_tool_count := None; rrp_tool_catalog_digest := None;
     rrp_rollback_status := None; rrp_issue := issue |}.

Definition unresolved_release_projection (snapshot : JobSnapshot)
    : RuntimeReleaseReceiptProjection :=
  no_receipt
    (if match snap_attempt snapshot with
        | Some attempt => att_state attempt == AttemptState.Accepted
        | None => false
        end
     then RuntimeReleaseDisposition.Admitted_ else RuntimeReleaseDisposition.InProgress) None.

Definition release_reconciliation_projection (issue : string) : RuntimeReleaseReceiptProjection :=
  no_receipt RuntimeReleaseDisposition.ReconciliationRequired (Some issue).

(** A receipt file that is not there: the release is in progress, or lost. *)
Definition missing_receipt (snapshot : JobSnapshot) (issue : string)
    : RuntimeReleaseReceiptProjection :=
  if present (job_resolution (snap_job snapshot)) then release_reconciliation_projection issue
  else unresolved_release_projection snapshot.

(** The [match status]. *)
Definition release_disposition (result : Json)
    : RuntimeReleaseDisposition.t * bool * option string :=
  let status_is text := str_at "status" result == Some text in
  if status_is "deployed" then (RuntimeReleaseDisposition.Deployed, true, None)
  else if status_is "not_committed" then (RuntimeReleaseDisposition.NotCommitted, true, None)
  else if status_is "rolled_back" then (RuntimeReleaseDisposition.RolledBack, true, None)
  else (RuntimeReleaseDisposition.ReconciliationRequired, false,
        Some (if status_is "rollback_failed" then "RELEASE_ROLLBACK_FAILED"
              else if status_is "reconciliation_required"
              then default "RELEASE_RECONCILIATION_REQUIRED" (str_at "reconciliationIssue" result)
              else if status_is "recovery_failed" then "RELEASE_RECOVERY_FAILED"
              else "RELEASE_RESULT_STATUS_UNKNOWN"))%string.

(** What a result that matches the release says, with the status of the
    rollback, if one was recorded. *)
Definition receipt_projection (binding : RuntimeReleaseEffectBinding) (result : Json)
    (result_digest : string) (rollback : option string) : RuntimeReleaseReceiptProjection :=
  let projection disposition terminal issue :=
    {| rrp_disposition := disposition; rrp_terminal := terminal; rrp_available := true;
       rrp_digest := Some result_digest;
       rrp_deployed_tool_count := probe_tool_count result;
       rrp_tool_catalog_digest := probe_tool_catalog_digest result;
       rrp_rollback_status := rollback; rrp_issue := issue |} in
  if rollback == Some "restored_previous"%string
  then projection RuntimeReleaseDisposition.RolledBack true None
  else if (str_at "status" result == Some "deployed"%string)
          && (probe_tool_count result != Some (rel_expected_tool_count binding))
  then release_reconciliation_projection "RELEASE_RESULT_TOOL_COUNT_MISMATCH"
  else let '(disposition, terminal, issue) := release_disposition result in
       projection disposition terminal issue.

Definition inspect_runtime_release_receipt (binding : RuntimeReleaseEffectBinding)
    (snapshot : JobSnapshot) : prog RuntimeReleaseReceiptProjection :=
  let receipt := rel_receipt_path binding in
  directory ← perform (SymlinkMetadata receipt);
  match directory with
  | Err error =>
      mret (if io_not_found error
            then missing_receipt snapshot "RELEASE_RECEIPT_MISSING_AFTER_JOB_TERMINAL"
            else release_reconciliation_projection "RELEASE_RECEIPT_DIRECTORY_UNAVAILABLE")
  | Ok Directory =>
      effect_request ← release_receipt_json (path_join receipt "effect-request.json");
      match effect_request with
      | Err issue => mret (release_reconciliation_projection issue)
      | Ok None =>
          mret (missing_receipt snapshot "RELEASE_EFFECT_REQUEST_MISSING_AFTER_JOB_TERMINAL")
      | Ok (Some (effect_request, _)) =>
          if negb (release_effect_json_matches effect_request binding)
          then mret (release_reconciliation_projection "RELEASE_EFFECT_REQUEST_MISMATCH")
          else
            result ← release_receipt_json (path_join receipt "result.json");
            match result with
            | Err issue => mret (release_reconciliation_projection issue)
            | Ok None =>
                mret (missing_receipt snapshot "RELEASE_RESULT_MISSING_AFTER_JOB_TERMINAL")
            | Ok (Some (result, result_digest)) =>
                if (str_at "commit" result != Some (rel_commit binding))
                   || negb match json_get "releaseEffect" result with
                           | Some value => release_effect_json_matches value binding
                           | None => false
                           end
                then mret (release_reconciliation_projection "RELEASE_RESULT_MISMATCH")
                else
                  rollback ← release_receipt_json (path_join receipt "rollback-result.json");
                  match rollback with
                  | Err issue => mret (release_reconciliation_projection issue)
                  | Ok rollback =>
                      mret (receipt_projection binding result result_digest
                              ('(value, _) ← rollback; str_at "status" value))
                  end
            end
      end
  | Ok _ => mret (release_reconciliation_projection "RELEASE_RECEIPT_DIRECTORY_UNSAFE")
  end.
End receipt.

(** ** Evidence of a terminal commit

    [append_terminal_evidence_for_commit_with_observation] of
    [engine/control_query.rs]: before an Attempt is committed as terminal, what
    is known of it is written to a file named by its digest, which joins the
    artifacts of the commit; and the observation of the process tree. *)

#[local] Open Scope Z_scope.

Section evidence.
Context `{P : Platform, C : EngineCodec}.

(** The [unit_is_active(..) && attempt.invocation_id.zip(..)] *)
Definition matching_unit_active (attempt : AttemptRecord) (properties : gmap string string) : bool :=
  unit_is_active properties
  && same_some (att_invocation_id attempt) (properties !! "InvocationID").

Definition terminal_process_tree_alive (attempt : AttemptRecord) : eff bool :=
  alive ← infallible (recorded_pid_alive attempt);
  if alive : bool then mret true
  else
    match att_control_group attempt with
    | Some control_group => cgroup_has_processes control_group
    | None =>
        properties ← systemctl_show (att_unit_name attempt);
        mret (matching_unit_active attempt properties)
    end.

Definition attempt_process_tree_alive (attempt : AttemptRecord) : eff bool :=
  properties ← systemctl_show (att_unit_name attempt);
  alive ← infallible (recorded_pid_alive attempt);
  cgroup_alive ← match att_control_group attempt with
                 | Some control_group => cgroup_has_processes control_group
                 | None => mret false
                 end;
  mret (matching_unit_active attempt properties || alive || cgroup_alive).

(** The loop of [observe_terminal_process_tree]. *)
Fixpoint observe_process_tree (attempt : AttemptRecord) (polls : nat)
    : prog (string * option string) :=
  alive ← (terminal_process_tree_alive attempt : prog (RuntimeResult bool));
  match alive with
  | Ok false => mret ("terminal_clean"%string, None)
  | Ok true =>
      match polls with
      | S polls' => observe_process_tree attempt polls'
      | O =>
          mret ("unexpected_residual"%string,
                Some "the identity-bound PID or recursive cgroup remained populated after the terminal result"%string)
      end
  | Err error =>
      mret ("unknown"%string,
            Some ("post-terminal process-tree observation failed: " +:+ err_message error))
  end.

Definition observe_terminal_process_tree (attempt : AttemptRecord)
    : prog (string * option string) :=
  if negb (present (att_control_group attempt)) && negb (present (att_main_pid attempt))
     && negb (present (att_invocation_id attempt))
  then mret ("unknown"%string,
             Some "the Attempt never bound a supervisor process identity"%string)
  else
    polls ← perform PollBudget;
    observe_process_tree attempt polls.

Definition cancellation_disposition (attempt : AttemptRecord) (job : RuntimeJobRecord) : string :=
  match att_termination_intent attempt with
  | AttemptTerminationIntent.Natural =>
      if job_desired_state job == JobDesiredState.Cancelled then "requested" else "not_requested"
  | AttemptTerminationIntent.StopRequested => "requested"
  | AttemptTerminationIntent.DeadlineExceeded => "deadline_exceeded"
  end.

Definition terminal_delivery_disposition (state : AttemptState.t) : string :=
  match state with
  | AttemptState.Orphaned => "reconciliation_required"
  | AttemptState.Lost => "unknown"
  | _ => "committed"
  end.

Definition host_dependency_continuity (host_dependencies : list HostDependencyBinding)
    (reason_code : string) : option string :=
  match host_dependencies with
  | [] => None
  | _ =>
      if String.eqb reason_code "HOST_DEPENDENCY_RUNTIME_DRIFT"
      then Some "runtime_path_drift_detected"
      else if existsb (String.eqb reason_code)
                ["PROCESS_EXIT_ZERO"; "PROCESS_EXIT_NONZERO";
                 "PROCESS_COMPLETED_BEFORE_STOP_EFFECTIVE"; "DEADLINE_EXCEEDED"]
      then Some "no_runtime_path_drift_observed"
      else None
  end%string.

(** The artifact that [rfind] returns: the last one of its kind. *)
Definition last_terminal_evidence (artifacts : list RuntimeArtifactRecord) : option string :=
  art_artifact_id <$>
    last (List.filter (fun artifact => String.eqb (art_kind artifact) "terminal_evidence") artifacts).

Definition terminal_process_evidence (attempt : AttemptRecord) (job : RuntimeJobRecord)
    (plan : RuntimeExecutionPlan) (provider : option ExecutionProviderSnapshot)
    (host_dependencies : list HostDependencyBinding) (terminal : TerminalCommit)
    (observed : option SupervisorObservation) (process_tree : string * option string)
    (supersedes : option string) : TerminalProcessEvidence :=
  let continuity := host_dependency_continuity host_dependencies (tc_reason_code terminal) in
  {| tpe_schema_version := RUNTIME_SCHEMA_VERSION;
     tpe_job_id := att_job_id attempt;
     tpe_attempt_id := att_attempt_id attempt;
     tpe_operation_digest := job_operation_digest job;
     tpe_execution_plan_digest := job_execution_plan_digest job;
     tpe_workspace_id := plan_workspace_id plan;
     tpe_source_revision := plan_source_revision plan;
     tpe_execution_profile := plan_execution_profile plan;
     tpe_execution_target := plan_execution_target plan;
     tpe_execution_provider := provider;
     tpe_windows_authority := plan_windows_authority plan;
     tpe_windows_execution_context := plan_windows_execution_context plan;
     tpe_foreign_references := plan_foreign_references plan;
     tpe_host_dependencies := host_dependencies;
     tpe_host_dependency_continuity := continuity;
     tpe_host_dependency_continuity_scope :=
       (fun _ => HOST_DEPENDENCY_CONTINUITY_SCOPE) <$> continuity;
     tpe_input_set_id := plan_input_set_id plan;
     tpe_effective_inputs := plan_effective_inputs plan;
     tpe_executable := plan_executable plan;
     tpe_executable_digest := plan_executable_digest plan;
     tpe_args := plan_args plan;
     tpe_cwd := plan_cwd plan;
     tpe_supervisor :=
       {| tse_boot_id := att_boot_id attempt;
          tse_unit_name := att_unit_name attempt;
          tse_invocation_id := att_invocation_id attempt;
          tse_control_group := att_control_group attempt;
          tse_main_pid := att_main_pid attempt;
          tse_process_start_identity := att_process_start_identity attempt;
          tse_runner_start_digest := att_runner_start_digest attempt |};
     tpe_observed_supervisor := observed_evidence_from <$> observed;
     tpe_start_disposition :=
       if present (att_runner_start_digest attempt) then "identity_bound" else "not_bound";
     tpe_cancellation_disposition := cancellation_disposition attempt job;
     tpe_execution_disposition := AttemptState.as_db (tc_state terminal);
     tpe_delivery_disposition := terminal_delivery_disposition (tc_state terminal);
     tpe_process_tree_disposition := fst process_tree;
     tpe_process_tree_detail := snd process_tree;
     tpe_reason_code := tc_reason_code terminal;
     tpe_terminal_artifact_ids := map areg_artifact_id (tc_artifacts terminal);
     tpe_supersedes_artifact_id := supersedes;
     tpe_observed_at_ms := tc_finished_at_ms terminal |}.

Definition push_artifact (artifact : ArtifactRegistration) (terminal : TerminalCommit)
    : TerminalCommit :=
  {| tc_attempt_id := tc_attempt_id terminal;
     tc_expected_row_version := tc_expected_row_version terminal;
     tc_state := tc_state terminal;
     tc_result_digest := tc_result_digest terminal;
     tc_exit_code := tc_exit_code terminal;
     tc_infrastructure_error_digest := tc_infrastructure_error_digest terminal;
     tc_finished_at_ms := tc_finished_at_ms terminal;
     tc_artifacts := tc_artifacts terminal ++ [artifact];
     tc_reason_code := tc_reason_code terminal |}.

Definition digest_prefix_error : RuntimeError :=
  error_new RegistryCorrupt "terminal evidence digest has an invalid prefix"
    (Some "terminalEvidence") false.

Definition append_terminal_evidence_with_observation (attempt : AttemptRecord)
    (observed_supervisor : option SupervisorObservation) (terminal : TerminalCommit)
    : eff TerminalCommit :=
  job ← registry (GetJob (att_job_id attempt));
  plan ← of_result (parse_execution_plan job);
  artifacts ← registry (ListArtifacts (att_job_id attempt));
  process_tree ← infallible (observe_terminal_process_tree attempt);
  host_dependencies ← registry (GetHostDependencies (att_job_id attempt));
  provider ← registry (GetExecutionProvider (att_job_id attempt));
  let bytes := terminal_evidence_to_json
    (terminal_process_evidence attempt job plan provider host_dependencies terminal
       observed_supervisor process_tree (last_terminal_evidence artifacts)) in
  let digest := sha256_bytes bytes in
  digest_hex ← of_result (ok_or digest_prefix_error (strip_prefix "sha256:" digest));
  let file_name := TERMINAL_EVIDENCE_FILE_PREFIX +:+ digest_hex +:+ ".json" in
  let path := bundle_file attempt file_name in
  exists_ ← ask (IsFile path);
  (if exists_ : bool then
     observed ← try_map map_universal_error (Sha256File path);
     of_result (fail_if (negb (String.eqb observed digest))
       (error_new ArtifactIdentityConflict
          "content-addressed terminal evidence has conflicting bytes" (Some "terminalEvidence") false))
   else try_map map_universal_error (WriteAtomic path bytes)) ;;
  mret (push_artifact
    {| areg_artifact_id := att_attempt_id attempt +:+ ".terminal-evidence." +:+ digest_hex;
       areg_kind := "terminal_evidence";
       areg_relative_path := file_name;
       areg_digest := digest;
       areg_media_type := "application/json";
       areg_byte_length := clamp_u64 (str_len bytes);
       areg_truncated := false |} terminal).

Definition append_terminal_evidence (attempt : AttemptRecord) (terminal : TerminalCommit)
    : eff TerminalCommit :=
  append_terminal_evidence_with_observation attempt None terminal.
End evidence.
