(* ===== verification/Observation.v ===== *)
(** * The observation of a Job

    [observation_from_parts] of [engine/reconciliation.rs] and the loaders of
    [engine/control_query.rs]: what a client is shown of a Job, from the
    Registry and the files of the bundle. *)

From S2P Require Import Prelude Text Errors Types Supervisor Platform Validation Submit Store.
From S2P Require Import Transaction Projection Admission Recovery Registry Query Effects Utf8 Engine.
From S2P Require Import Output.

#[local] Open Scope Z_scope.

Module JobObserveWaitUntil.
Inductive t : Type := Terminal | ChangeOrTerminal.
#[global] Instance eq_dec : EqDecision t.
Proof. solve_decision. Defined.
End JobObserveWaitUntil.

Record JobObserveRequest : Type := {
  jor_schema_version : Z;
  jor_job_id : string;
  jor_wait_ms : Z;
  jor_wait_until : JobObserveWaitUntil.t;
  jor_stdout_tail_bytes : Z;
  jor_stderr_tail_bytes : Z;
  jor_stdout_offset : option Z;
  jor_stderr_offset : option Z;
}.

Record EffectiveExecutionLimits : Type := {
  eel_timeout_ms : Z;
  eel_stdout_limit_bytes : Z;
  eel_stderr_limit_bytes : Z;
  eel_step_timeouts : list (string * Z);
}.

Record ObservationOutputRequest : Type := {
  oor_stdout_tail_bytes : Z;
  oor_stderr_tail_bytes : Z;
  oor_stdout_offset : option Z;
  oor_stderr_offset : option Z;
}.

Record JobObservation : Type := {
  jo_job_id : string;
  jo_operation_digest : string;
  jo_status : string;
  jo_desired_state : JobDesiredState.t;
  jo_attempt_id : option string;
  jo_attempt_state : option AttemptState.t;
  jo_termination_intent : option AttemptTerminationIntent.t;
  jo_exit_code : option Z;
  jo_execution_terminal : bool;
  jo_execution_disposition : option JobResolution.t;
  jo_execution_reason_code : option string;
  jo_delivery_disposition : RuntimeDeliveryDisposition.t;
  jo_effective_limits : EffectiveExecutionLimits;
  jo_recovery_required : bool;
  jo_semantic_completion_evaluated : bool;
  jo_result_available : bool;
  jo_stdout : OutputView;
  jo_stderr : OutputView;
  jo_stdout_truncated : bool;
  jo_stderr_truncated : bool;
  jo_artifacts_available : bool;
  jo_artifacts : list ArtifactDescriptor;
  jo_poll_after_ms : option Z;
  jo_elapsed_ms : option Z;
  jo_last_output_at_ms : option Z;
  jo_progress_revision : option Z;
  jo_completed_steps : option Z;
  jo_total_steps : option Z;
  jo_current_step_id : option string;
  jo_current_step_index : option Z;
  jo_current_step_elapsed_ms : option Z;
  jo_failed_step_id : option string;
  jo_failed_step_index : option Z;
  jo_error_summary : option string;
}.

Definition MAX_TASK_WAIT_MS : Z := 30000.
Definition MAX_TASK_TAIL_BYTES : Z := 64 * 1024.

Definition validate_observe_request (request : JobObserveRequest) : RuntimeResult unit :=
  fail_if (negb (jor_schema_version request =? RUNTIME_SCHEMA_VERSION))
    (invalid "unsupported runtime schema version" "schemaVersion") ;;
  fail_if ((MAX_TASK_WAIT_MS <? jor_wait_ms request)
           || (MAX_TASK_TAIL_BYTES <? jor_stdout_tail_bytes request)
           || (MAX_TASK_TAIL_BYTES <? jor_stderr_tail_bytes request))
    (invalid "observe bounds exceed runtime limits" "waitMs").

Section observation.
Context `{P : Platform, C : EngineCodec}.

(** [load.transpose()?.flatten()] over the Attempt, if there is one *)
Definition for_attempt {A} (attempt : option AttemptRecord) (load : AttemptRecord -> eff (option A))
    : eff (option A) :=
  match attempt with Some attempt => load attempt | None => mret None end.

(** A JSON file of the bundle, if it exists. *)
Definition load_if_present {A} (file what field : string) (decode : string -> result string A)
    (attempt : AttemptRecord) : eff (option A) :=
  let path := bundle_file attempt file in
  exists_ ← ask (PathExists path);
  if negb exists_ then mret None
  else
    text ← try_map (io_error ("read " +:+ what)) (ReadFile path);
    of_result (Some <$> map_err (fun error => error_new RegistryCorrupt
                ("invalid " +:+ what +:+ ": " +:+ error) (Some field) false) (decode text)).

Definition load_runner_progress_if_present : AttemptRecord -> eff (option RunnerProgress) :=
  load_if_present PROGRESS_FILE "Runner progress" "progress" runner_progress_of_json.

Definition load_runner_result_if_present : AttemptRecord -> eff (option RunnerResult) :=
  load_if_present RESULT_FILE "Runner result" "result" runner_result_of_json.

Definition load_control_error_summary_if_present (attempt : AttemptRecord)
    : eff (option string) :=
  evidence ← load_if_present CONTROL_RESULT_FILE "control result" "controlResult"
               control_evidence_of_json attempt;
  match evidence with
  | None => mret None
  | Some evidence =>
      of_result (fail_if (negb (String.eqb (cte_job_id evidence) (att_job_id attempt))
                          || negb (String.eqb (cte_attempt_id evidence) (att_attempt_id attempt)))
        (error_new ResultIdentityConflict "control result identity does not match Attempt"
           (Some "controlResult") false)) ;;
      mret (cte_detail evidence)
  end.

Definition latest_of (latest : option Z) (millis : Z) : option Z :=
  Some match latest with Some value => Z.max value millis | None => millis end.

Definition latest_output_modified_ms (attempt : AttemptRecord) : eff (option Z) :=
  fold_eff (fun latest file =>
    let path := bundle_file attempt file in
    metadata ← ask (FileLen path);
    match metadata with
    | Err error =>
        if io_not_found error then mret latest
        else throw (io_error ("inspect " +:+ path) error)
    | Ok length =>
        if length =? 0 then mret latest
        else
          millis ← try_map (io_error ("read " +:+ path +:+ " mtime")) (FileModifiedMs path);
          mret (latest_of latest (clamp_u64 millis))
    end) None [STDOUT_FILE; STDERR_FILE].

Definition effective_limits_from_plan_json (execution_plan_json : string)
    : RuntimeResult EffectiveExecutionLimits :=
  plan ← map_err (fun error => registry_corrupt ("stored execution plan is invalid: " +:+ error)
                                 "executionPlan") (plan_of_json execution_plan_json);
  Ok {| eel_timeout_ms := plan_timeout_ms plan;
        eel_stdout_limit_bytes := plan_stdout_limit_bytes plan;
        eel_stderr_limit_bytes := plan_stderr_limit_bytes plan;
        eel_step_timeouts := map (fun step => (step_id step, step_timeout_ms step))
                               (plan_steps plan) |}.

Definition artifact_descriptor (result : option RunnerResult) (artifact : RuntimeArtifactRecord)
    : ArtifactDescriptor :=
  {| adesc_artifact_id := art_artifact_id artifact;
     adesc_kind := art_kind artifact;
     adesc_digest := art_digest artifact;
     adesc_retained_bytes := art_byte_length artifact;
     adesc_dropped_bytes :=
       if String.eqb (art_kind artifact) "stdout"
       then (fun result => co_dropped_bytes (rr_stdout result)) <$> result
       else if String.eqb (art_kind artifact) "stderr"
       then (fun result => co_dropped_bytes (rr_stderr result)) <$> result
       else None;
     adesc_truncated := art_truncated artifact |}.

(** The [current_step_elapsed_ms] of the progress. *)
Definition step_elapsed (now : Z) (progress : RunnerProgress) : option Z :=
  started ← rp_current_step_started_unix_ms progress;
  if started <=? u64_max then Some (saturating_sub now started) else None.

Definition job_observation (now : Z) (projection : JobProjection) (attempt : option AttemptRecord)
    (effective_limits : EffectiveExecutionLimits) (progress : option RunnerProgress)
    (result : option RunnerResult) (stdout stderr : OutputView)
    (artifacts : list ArtifactDescriptor) (error_summary : option string)
    (last_output_at_ms : option Z) : JobObservation :=
  {| jo_job_id := jp_job_id projection;
     jo_operation_digest := jp_operation_digest projection;
     jo_status := jp_status projection;
     jo_desired_state := jp_desired_state projection;
     jo_attempt_id := att_attempt_id <$> attempt;
     jo_attempt_state := jp_attempt_state projection;
     jo_termination_intent := jp_termination_intent projection;
     jo_exit_code := jp_exit_code projection;
     jo_execution_terminal := jp_execution_terminal projection;
     jo_execution_disposition := jp_execution_disposition projection;
     jo_execution_reason_code := jp_execution_reason_code projection;
     jo_delivery_disposition := jp_delivery_disposition projection;
     jo_effective_limits := effective_limits;
     jo_recovery_required := jp_recovery_required projection;
     jo_semantic_completion_evaluated := jp_semantic_completion_evaluated projection;
     jo_result_available := jp_result_available projection;
     jo_stdout := stdout;
     jo_stderr := stderr;
     jo_stdout_truncated :=
       match attempt, result with
       | Some _, Some result => co_truncated (rr_stdout result) | _, _ => false end;
     jo_stderr_truncated :=
       match attempt, result with
       | Some _, Some result => co_truncated (rr_stderr result) | _, _ => false end;
     jo_artifacts_available := jp_artifacts_available projection;
     jo_artifacts := artifacts;
     jo_poll_after_ms := jp_poll_after_ms projection;
     jo_elapsed_ms :=
       (fun attempt => saturating_sub (default now (att_finished_at_ms attempt))
                         (default (att_created_at_ms attempt) (att_started_at_ms attempt)))
         <$> attempt;
     jo_last_output_at_ms := last_output_at_ms;
     jo_progress_revision := rp_revision <$> progress;
     jo_completed_steps := rp_completed_steps <$> progress;
     jo_total_steps := rp_total_steps <$> progress;
     jo_current_step_id := progress ≫= rp_current_step_id;
     jo_current_step_index := progress ≫= rp_current_step_index;
     jo_current_step_elapsed_ms := progress ≫= step_elapsed now;
     jo_failed_step_id :=
       match result ≫= rr_failed_step_id with
       | Some id => Some id | None => progress ≫= rp_failed_step_id end;
     jo_failed_step_index :=
       match result ≫= rr_failed_step_index with
       | Some index => Some index | None => progress ≫= rp_failed_step_index end;
     jo_error_summary := error_summary |}.

Definition observation_from_parts (projection : JobProjection) (attempt : option AttemptRecord)
    (effective_limits : EffectiveExecutionLimits) (output_request : ObservationOutputRequest)
    : eff JobObservation :=
  let terminal := jp_result_available projection in
  now ← try NowMs;
  progress ← for_attempt attempt load_runner_progress_if_present;
  result ← (if String.eqb (jp_status projection) "orphaned" then mret None
            else for_attempt attempt load_runner_result_if_present);
  control_error_summary ← (if present result then mret None
                           else for_attempt attempt load_control_error_summary_if_present);
  match attempt with
  | Some a =>
      stdout ← read_output_text (bundle_file a STDOUT_FILE) (oor_stdout_offset output_request)
                 (oor_stdout_tail_bytes output_request) terminal "stdoutOffset" "stdoutTailBytes";
      stderr ← read_output_text (bundle_file a STDERR_FILE) (oor_stderr_offset output_request)
                 (oor_stderr_tail_bytes output_request) terminal "stderrOffset" "stderrTailBytes";
      artifacts ← registry (ListArtifacts (jp_job_id projection));
      let error_summary :=
        match result ≫= rr_infrastructure_error with
        | Some error => Some error
        | None => control_error_summary
        end in
      last_output_at_ms ← latest_output_modified_ms a;
      mret (job_observation now projection attempt effective_limits progress result stdout stderr
              (map (artifact_descriptor result) artifacts) error_summary last_output_at_ms)
  | None =>
      mret (job_observation now projection attempt effective_limits progress result
              (output_view_empty (oor_stdout_offset output_request) terminal)
              (output_view_empty (oor_stderr_offset output_request) terminal) [] None None)
  end.

Definition observation_from_registry (job_id : string) (stdout_tail_bytes stderr_tail_bytes : Z)
    : eff JobObservation :=
  snapshot ← registry (GetJobSnapshot job_id);
  effective_limits ← of_result
    (effective_limits_from_plan_json (job_execution_plan_json (snap_job snapshot)));
  observation_from_parts (snap_projection snapshot) (snap_attempt snapshot) effective_limits
    {| oor_stdout_tail_bytes := stdout_tail_bytes; oor_stderr_tail_bytes := stderr_tail_bytes;
       oor_stdout_offset := None; oor_stderr_offset := None |}.

Definition observation_from_snapshot (snapshot : JobSnapshot) (request : JobObserveRequest)
    : eff JobObservation :=
  effective_limits ← of_result
    (effective_limits_from_plan_json (job_execution_plan_json (snap_job snapshot)));
  observation_from_parts (snap_projection snapshot) (snap_attempt snapshot) effective_limits
    {| oor_stdout_tail_bytes := jor_stdout_tail_bytes request;
       oor_stderr_tail_bytes := jor_stderr_tail_bytes request;
       oor_stdout_offset := jor_stdout_offset request;
       oor_stderr_offset := jor_stderr_offset request |}.

(** [JobActivitySignature] *)
Record JobActivitySignature : Type := {
  jas_status : string;
  jas_stdout_bytes : Z;
  jas_stderr_bytes : Z;
  jas_progress_revision : Z;
}.

#[export] Instance activity_signature_eq_dec : EqDecision JobActivitySignature.
Proof. solve_decision. Defined.

Definition file_length_if_present (path : string) : eff Z :=
  metadata ← ask (FileLen path);
  match metadata with
  | Ok length => mret length
  | Err error => if io_not_found error then mret 0
                 else throw (io_error ("inspect " +:+ path) error)
  end.

Definition job_activity_signature (attempt : option AttemptRecord) (projection : JobProjection)
    : eff JobActivitySignature :=
  match attempt with
  | None =>
      mret {| jas_status := jp_status projection; jas_stdout_bytes := 0; jas_stderr_bytes := 0;
              jas_progress_revision := 0 |}
  | Some attempt =>
      stdout_bytes ← file_length_if_present (bundle_file attempt STDOUT_FILE);
      stderr_bytes ← file_length_if_present (bundle_file attempt STDERR_FILE);
      progress ← load_runner_progress_if_present attempt;
      mret {| jas_status := jp_status projection; jas_stdout_bytes := stdout_bytes;
              jas_stderr_bytes := stderr_bytes;
              jas_progress_revision := default 0 (rp_revision <$> progress) |}
  end.
End observation.
