(* ===== verification/Reconciliation.v ===== *)
(** * Reconciliation

    [engine/reconciliation.rs], [reconcile_runner_result] and
    [commit_runner_result] of [engine/execution.rs], and
    [release_attempt_supervisor] of [engine/control_query.rs]: how the engine
    brings the Registry to what happened to the processes of one Attempt. *)

From S2P Require Import Prelude Text Errors Types Supervisor Platform Validation Submit Store.
From S2P Require Import Transaction Projection Lifecycle Admission Recovery Registry Query.
From S2P Require Import Effects Utf8 Engine Linux Inputs Binding Output Evidence Observation.

#[local] Open Scope Z_scope.

Section reconciliation.
Context `{P : Platform, C : EngineCodec}.
Context (rt : Runtime).

Definition corrupt (message field : string) (retryable : bool) : RuntimeError :=
  error_new RegistryCorrupt message (Some field) retryable.

(** [self.windows.as_ref().ok_or_else(..)] *)
Definition require_windows (message field : string) (retryable : bool) : eff unit :=
  of_result (fail_if (negb (rt_windows rt)) (corrupt message field retryable)).

Definition expected_broker_digest (plan : RuntimeExecutionPlan) : option string :=
  plan_windows_execution_context plan ≫= wec_privileged_broker_digest.

(** [release_attempt_supervisor] *)
Definition release_attempt_supervisor (attempt : AttemptRecord) : eff unit :=
  plan ← registry (GetExecutionPlan (att_job_id attempt));
  if (plan_execution_target plan == ExecutionTarget.WindowsNative) && rt_windows rt then mret tt
  else
    owner ← registry (GetSupervisorOwner (att_attempt_id attempt));
    if present owner then mret tt
    else infallible (release_terminal_unit (att_unit_name attempt)).

(** [prepare_runner_terminal] *)
Definition prepare_runner_terminal (current : AttemptRecord) : eff TerminalCommit :=
  terminal ← prepare_runner_terminal_from_bundle current;
  plan ← registry (GetExecutionPlan (att_job_id current));
  if plan_execution_target plan == ExecutionTarget.WindowsNative then
    '(_, digest) ← validate_windows_start_evidence rt current;
    length ← try_map (io_error "inspect Windows start evidence")
               (FileLen (bundle_file current WINDOWS_START_FILE));
    mret (push_artifact
      {| areg_artifact_id := att_attempt_id current +:+ ".windows-start";
         areg_kind := "windows_start";
         areg_relative_path := WINDOWS_START_FILE;
         areg_digest := digest;
         areg_media_type := "application/json";
         areg_byte_length := length;
         areg_truncated := false |} terminal)
  else mret terminal.

(** ** Orphans *)

(** No identity of the Runner was ever persisted. *)
Definition never_bound (attempt : AttemptRecord) : bool :=
  negb (present (att_boot_id attempt)) && negb (present (att_invocation_id attempt))
  && negb (present (att_control_group attempt)) && negb (present (att_main_pid attempt))
  && negb (present (att_process_start_identity attempt))
  && negb (present (att_runner_start_digest attempt)).

Definition orphan_process_tree_alive (attempt : AttemptRecord) : eff bool :=
  owner ← registry (GetSupervisorOwner (att_attempt_id attempt));
  match owner with
  | Some (WindowsLauncherV1 process_id creation_time _ _ _) =>
      require_windows "Attempt Supervisor Owner exists without a configured Windows provider"
        "attemptSupervisorOwner" false ;;
      plan ← registry (GetExecutionPlan (att_job_id attempt));
      observed ← try (ObserveWindowsLauncherOwner (plan_windows_authority plan)
                        (expected_broker_digest plan) process_id);
      mret (wo_process_alive observed
            && (wo_process_creation_time_file_time observed == Some creation_time))
  | None =>
      alive ← attempt_process_tree_alive attempt;
      if alive : bool then mret true
      else if never_bound attempt then
        properties ← systemctl_show (att_unit_name attempt);
        mret (unit_is_active properties || unit_has_pending_job properties)
      else mret false
  end.

Definition set_reason (reason_code : string) (terminal : TerminalCommit) : TerminalCommit :=
  {| tc_attempt_id := tc_attempt_id terminal;
     tc_expected_row_version := tc_expected_row_version terminal;
     tc_state := tc_state terminal;
     tc_result_digest := tc_result_digest terminal;
     tc_exit_code := tc_exit_code terminal;
     tc_infrastructure_error_digest := tc_infrastructure_error_digest terminal;
     tc_finished_at_ms := tc_finished_at_ms terminal;
     tc_artifacts := tc_artifacts terminal;
     tc_reason_code := reason_code |}.

Definition recover_orphaned_runner_result (attempt : AttemptRecord) : eff bool :=
  current ← registry (GetAttempt (att_attempt_id attempt));
  if att_state current != AttemptState.Orphaned then mret false
  else
    exists_ ← ask (IsFile (bundle_file current RESULT_FILE));
    if negb exists_ then mret false
    else
      alive ← orphan_process_tree_alive current;
      if alive : bool then mret false
      else
        terminal ← prepare_runner_terminal current;
        terminal ← append_terminal_evidence current
                     (set_reason "LATE_IDENTITY_BOUND_RUNNER_RESULT" terminal);
        registry (RecoverOrphanedTerminal terminal) ;;
        release_attempt_supervisor current ;;
        mret true.

(** The retained output of the bundle as artifacts, unless registered before. *)
Definition output_artifacts (attempt : AttemptRecord) (context : string)
    (existing : list ArtifactDescriptor) : eff (list ArtifactRegistration) :=
  fold_eff (fun artifacts '(file_name, kind) =>
    let artifact_id := att_attempt_id attempt +:+ "." +:+ kind in
    let path := bundle_file attempt file_name in
    is_file ← ask (IsFile path);
    if is_file && negb (existsb (fun a => String.eqb (adesc_artifact_id a) artifact_id) existing)
    then
      digest ← try_map map_universal_error (Sha256File path);
      length ← try_map (io_error context) (FileLen path);
      mret (artifacts ++
        [{| areg_artifact_id := artifact_id; areg_kind := kind; areg_relative_path := file_name;
            areg_digest := digest; areg_media_type := "text/plain; charset=utf-8";
            areg_byte_length := length; areg_truncated := false |}])
    else mret artifacts) [] [(STDOUT_FILE, "stdout"%string); (STDERR_FILE, "stderr"%string)].

Definition control_evidence (attempt : AttemptRecord) (state : AttemptState.t)
    (reason_code : string) (detail : option string) (observed_at_ms : Z)
    : ControlTerminalEvidence :=
  {| cte_schema_version := RUNTIME_SCHEMA_VERSION;
     cte_job_id := att_job_id attempt;
     cte_attempt_id := att_attempt_id attempt;
     cte_status := AttemptState.as_db state;
     cte_reason_code := reason_code;
     cte_detail := detail;
     cte_observed_at_ms := observed_at_ms |}.

Definition control_artifact (attempt : AttemptRecord) (suffix file digest : string) (length : Z)
    : ArtifactRegistration :=
  {| areg_artifact_id := att_attempt_id attempt +:+ suffix;
     areg_kind := "control_result";
     areg_relative_path := file;
     areg_digest := digest;
     areg_media_type := "application/json";
     areg_byte_length := length;
     areg_truncated := false |}.

(** One logical time after the orphan's end, the same for every writer. *)
Definition orphan_observed_at_ms (attempt : AttemptRecord) : Z :=
  saturating_add (default (att_created_at_ms attempt) (att_finished_at_ms attempt)) 1.

Definition resolve_absent_orphan (attempt : AttemptRecord) (state : AttemptState.t)
    (reason_code : string) : eff unit :=
  let observed_at_ms := orphan_observed_at_ms attempt in
  let path := bundle_file attempt ORPHAN_REMEDIATION_FILE in
  try_map map_universal_error (WriteAtomic path (control_evidence_to_json
    (control_evidence attempt state reason_code
       (Some "the persisted unit, process identity, and cgroup no longer own a live process tree"%string)
       observed_at_ms))) ;;
  result_digest ← try_map map_universal_error (Sha256File path);
  snapshot ← registry (GetJobSnapshot (att_job_id attempt));
  length ← try_map (io_error "inspect orphan remediation evidence") (FileLen path);
  outputs ← output_artifacts attempt "inspect orphan output"
              (jp_artifacts (snap_projection snapshot));
  terminal ← append_terminal_evidence attempt
    {| tc_attempt_id := att_attempt_id attempt;
       tc_expected_row_version := att_row_version attempt;
       tc_state := state;
       tc_result_digest := result_digest;
       tc_exit_code := None;
       tc_infrastructure_error_digest := Some (sha256_bytes reason_code);
       tc_finished_at_ms := observed_at_ms;
       tc_artifacts :=
         control_artifact attempt ".orphan-remediation" ORPHAN_REMEDIATION_FILE result_digest length
         :: outputs;
       tc_reason_code := reason_code |};
  registry (RecoverOrphanedTerminal terminal) ;;
  mret tt.

(** The [match current.termination_intent]. *)
Definition absent_orphan_outcome (current : AttemptRecord) (job : RuntimeJobRecord)
    : AttemptState.t * string :=
  match att_termination_intent current with
  | AttemptTerminationIntent.StopRequested =>
      (AttemptState.Cancelled, "ORPHAN_CANCELLED_PROCESS_TREE_GONE")
  | AttemptTerminationIntent.DeadlineExceeded =>
      (AttemptState.TimedOut, "ORPHAN_DEADLINE_PROCESS_TREE_GONE")
  | AttemptTerminationIntent.Natural =>
      if job_desired_state job == JobDesiredState.Cancelled
      then (AttemptState.Cancelled, "ORPHAN_CANCELLED_PROCESS_TREE_GONE")
      else (AttemptState.Lost, "ORPHANED_PROCESS_TREE_GONE")
  end%string.

(** The branch of a receipt that says the release is deployed. *)
Definition recover_deployed_release (current : AttemptRecord) (digest : option string) : eff bool :=
  result_digest ← of_result (ok_or
    (corrupt "terminal deployed Runtime Release receipt has no digest"
       "runtimeReleaseEffect.receipt" false) digest);
  terminal ← append_terminal_evidence current
    {| tc_attempt_id := att_attempt_id current;
       tc_expected_row_version := att_row_version current;
       tc_state := AttemptState.Succeeded;
       tc_result_digest := result_digest;
       tc_exit_code := Some 0;
       tc_infrastructure_error_digest := None;
       tc_finished_at_ms := orphan_observed_at_ms current;
       tc_artifacts := [];
       tc_reason_code := "RUNTIME_RELEASE_RECEIPT_DEPLOYED" |};
  registry (RecoverOrphanedTerminal terminal) ;;
  mret true.

(** The rest of [reconcile_orphaned_attempt], when no receipt settles it. *)
Definition reconcile_orphaned_processes (current : AttemptRecord) : eff bool :=
  before ← ask (IsFile (bundle_file current RESULT_FILE));
  if before : bool then recover_orphaned_runner_result current
  else
    alive ← orphan_process_tree_alive current;
    if alive : bool then mret false
    else
      after ← ask (IsFile (bundle_file current RESULT_FILE));
      if after : bool then recover_orphaned_runner_result current
      else
        job ← registry (GetJob (att_job_id current));
        let '(state, reason) := absent_orphan_outcome current job in
        resolve_absent_orphan current state reason ;;
        mret true.

Definition reconcile_orphaned_attempt (attempt : AttemptRecord) : eff bool :=
  current ← registry (GetAttempt (att_attempt_id attempt));
  if att_state current != AttemptState.Orphaned then mret false
  else
    binding ← registry (GetRuntimeReleaseEffect (att_job_id current));
    match binding with
    | None => reconcile_orphaned_processes current
    | Some binding =>
        snapshot ← registry (GetJobSnapshot (att_job_id current));
        receipt ← infallible (inspect_runtime_release_receipt binding snapshot);
        if (rrp_disposition receipt == RuntimeReleaseDisposition.Deployed) && rrp_terminal receipt
        then recover_deployed_release current (rrp_digest receipt)
        else reconcile_orphaned_processes current
    end.

(** ** Terminal commits by the engine *)

Definition commit_observed_control_terminal (attempt : AttemptRecord) (state : AttemptState.t)
    (reason_code : string) (detail : option string)
    (observed_supervisor : option SupervisorObservation) : eff JobObservation :=
  try LockControlTerminal ;;
  current ← registry (GetAttempt (att_attempt_id attempt));
  if AttemptState.is_terminal (att_state current)
  then observation_from_registry (att_job_id current) 0 0
  else
    observed_at_ms ← try NowMs;
    let path := bundle_file current CONTROL_RESULT_FILE in
    try_map (io_error "create control evidence directory") (CreateDirAll (att_bundle_path current)) ;;
    try_map map_universal_error (WriteAtomic path (control_evidence_to_json
      (control_evidence current state reason_code detail observed_at_ms))) ;;
    result_digest ← try_map map_universal_error (Sha256File path);
    length ← try_map (io_error "inspect control evidence") (FileLen path);
    outputs ← (if state == AttemptState.Orphaned then mret []
               else output_artifacts current "inspect control output" []);
    terminal ← append_terminal_evidence_with_observation current observed_supervisor
      {| tc_attempt_id := att_attempt_id current;
         tc_expected_row_version := att_row_version current;
         tc_state := state;
         tc_result_digest := result_digest;
         tc_exit_code := None;
         tc_infrastructure_error_digest := sha256_bytes <$> detail;
         tc_finished_at_ms := observed_at_ms;
         tc_artifacts :=
           control_artifact current ".control-result" CONTROL_RESULT_FILE result_digest length
           :: outputs;
         tc_reason_code := reason_code |};
    registry (CommitTerminal terminal) ;;
    (if state == AttemptState.Orphaned then mret tt else release_attempt_supervisor current) ;;
    observation_from_registry (att_job_id current) 4096 4096.

Definition commit_control_terminal (attempt : AttemptRecord) (state : AttemptState.t)
    (reason_code : string) (detail : option string) : eff JobObservation :=
  commit_observed_control_terminal attempt state reason_code detail None.

(** The loop of [commit_runner_result]: one retry. *)
Fixpoint commit_runner_result_from (retries : nat) (attempt_id : string) (current : AttemptRecord)
    : eff JobObservation :=
  recovered ← (if att_state current == AttemptState.Orphaned
               then recover_orphaned_runner_result current else mret false);
  if recovered : bool then observation_from_registry (att_job_id current) 0 0
  else if AttemptState.is_terminal (att_state current) then
    (if att_state current != AttemptState.Orphaned
     then release_attempt_supervisor current else mret tt) ;;
    observation_from_registry (att_job_id current) 0 0
  else
    terminal ← prepare_runner_terminal current;
    terminal ← append_terminal_evidence current terminal;
    catch (registry (CommitTerminal terminal)) (fun committed =>
      match committed with
      | Ok _ =>
          release_attempt_supervisor current ;;
          observation_from_registry (att_job_id current) 4096 4096
      | Err error =>
          match retries with
          | S retries' =>
              if err_code error == AttemptStateConflict then
                current ← registry (GetAttempt attempt_id);
                commit_runner_result_from retries' attempt_id current
              else throw error
          | O => throw error
          end
      end).

Definition commit_runner_result (attempt : AttemptRecord) : eff JobObservation :=
  current ← registry (GetAttempt (att_attempt_id attempt));
  commit_runner_result_from 1 (att_attempt_id attempt) current.

(** The codes of [reconcile_runner_result] that quarantine a result. *)
Definition quarantines (code : RuntimeErrorCode) : bool :=
  match code with
  | RegistryCorrupt | ResultIdentityConflict | ArtifactIdentityConflict
  | LaunchIdentityMismatch => true
  | _ => false
  end.

Definition reconcile_runner_result (attempt : AttemptRecord) : eff unit :=
  catch (commit_runner_result attempt) (fun committed =>
    match committed with
    | Ok _ => mret tt
    | Err error =>
        if quarantines (err_code error) then
          commit_control_terminal attempt AttemptState.Orphaned "RUNNER_RESULT_QUARANTINED"
            (Some (error_to_string error)) ;;
          mret tt
        else throw error
    end).

(** ** Attempts that run *)

Definition native_windows_pre_target_evidence_gap : RuntimeError :=
  error_new LaunchIdentityMismatch
    "native launcher owner is gone while target-start/result evidence is absent; target execution is unknown because windows-start evidence is target-mutable. Retain the Attempt and capacity and do not redrive automatically"
    (Some "windowsStart") true.

Definition intent_of (attempt : AttemptRecord) : TerminationIntent.t :=
  match att_termination_intent attempt with
  | AttemptTerminationIntent.Natural => TerminationIntent.Natural
  | AttemptTerminationIntent.StopRequested => TerminationIntent.StopRequested
  | AttemptTerminationIntent.DeadlineExceeded => TerminationIntent.DeadlineExceeded
  end.

(** The [match attempt.termination_intent] at the head of
    [enforce_native_windows_outer_deadline]: the Attempt whose deadline is to
    be enforced, if any. *)
Definition outer_deadline_attempt (attempt : AttemptRecord)
    (deadline_started_at_ms timeout_ms observed_at_ms : Z) : eff (option AttemptRecord) :=
  match att_termination_intent attempt with
  | AttemptTerminationIntent.Natural =>
      if native_windows_outer_deadline_due deadline_started_at_ms timeout_ms observed_at_ms
      then current ← registry (RequestDeadlineTermination (att_attempt_id attempt) observed_at_ms);
           mret (Some current)
      else mret None
  | AttemptTerminationIntent.DeadlineExceeded =>
      current ← registry (GetAttempt (att_attempt_id attempt));
      mret (Some current)
  | AttemptTerminationIntent.StopRequested => mret None
  end.

Definition deadline_detail (disposition : string) : string :=
  "outer deadline intent was durably committed before exact launcher-owner termination; disposition="
  +:+ disposition +:+
  "; no runner result was available. TimedOut is derived from the persisted outer deadline and proven loss of the exact owner, not from owner death alone".

(** After the launcher was told to end: [Some current] if no result has
    appeared and none was bound. *)
Definition after_deadline_termination (attempt_id : string) (pre_target_start : bool)
    : eff (option AttemptRecord) :=
  current ← registry (GetAttempt attempt_id);
  result ← ask (IsFile (bundle_file current RESULT_FILE));
  if result : bool then reconcile_runner_result current ;; mret None
  else
    started ← (if pre_target_start then ask (IsFile (bundle_file current WINDOWS_START_FILE))
               else mret false);
    if negb started then mret (Some current)
    else
      current ← bind_attempt_start rt current ExecutionTarget.WindowsNative;
      result ← ask (IsFile (bundle_file current RESULT_FILE));
      if result : bool then reconcile_runner_result current ;; mret None
      else mret (Some current).

Definition enforce_native_windows_outer_deadline (attempt : AttemptRecord)
    (plan : RuntimeExecutionPlan) (deadline_started_at_ms launcher_process_id creation_time : Z)
    (pre_target_start : bool) : eff bool :=
  observed_at_ms ← try NowMs;
  current ← outer_deadline_attempt attempt deadline_started_at_ms (plan_timeout_ms plan)
              observed_at_ms;
  match current with
  | None => mret false
  | Some current =>
      if AttemptState.is_terminal (att_state current) then mret true
      else if att_termination_intent current != AttemptTerminationIntent.DeadlineExceeded
      then mret false
      else
        result ← ask (IsFile (bundle_file current RESULT_FILE));
        if result : bool then reconcile_runner_result current ;; mret true
        else
          require_windows "native Windows deadline enforcement has no configured provider"
            "executionTarget" true ;;
          disposition ← try (TerminateWindowsLauncherOwner (plan_windows_authority plan)
                               (expected_broker_digest plan) launcher_process_id creation_time);
          current ← after_deadline_termination (att_attempt_id current) pre_target_start;
          match current, disposition with
          | None, _ => mret true
          | Some _, WindowsDeadlineOwnerTerminationDisposition.IdentityMismatch => mret false
          | Some current, _ =>
              commit_control_terminal current AttemptState.TimedOut
                "NATIVE_WINDOWS_OUTER_DEADLINE_CONTROL_TERMINAL"
                (Some (deadline_detail
                   match disposition with
                   | WindowsDeadlineOwnerTerminationDisposition.Terminated => "terminated"
                   | _ => "already_absent"
                   end)) ;;
              mret true
          end
  end.

Definition reconcile_native_starting_without_target_evidence (attempt : AttemptRecord) : eff unit :=
  plan ← registry (GetExecutionPlan (att_job_id attempt));
  launched ← ask (IsFile (bundle_file attempt WINDOWS_LAUNCHER_START_FILE));
  if launched : bool then
    '(evidence, _) ← validate_windows_launcher_start_evidence rt attempt;
    require_windows "native Windows Starting Attempt has no configured provider"
      "executionTarget" true ;;
    observation ← try (ObserveWindowsLauncherOwner (plan_windows_authority plan)
                         (expected_broker_digest plan) (wls_launcher_process_id evidence));
    result ← ask (IsFile (bundle_file attempt RESULT_FILE));
    if result : bool then reconcile_runner_result attempt
    else
      started ← ask (IsFile (bundle_file attempt WINDOWS_START_FILE));
      if started : bool then
        running ← bind_attempt_start rt attempt ExecutionTarget.WindowsNative;
        result ← ask (IsFile (bundle_file running RESULT_FILE));
        if result : bool then reconcile_runner_result running else mret tt
      else if wo_process_alive observation
              && (wo_process_creation_time_file_time observation
                  == Some (wls_launcher_process_creation_time_file_time evidence)) then
        enforce_native_windows_outer_deadline attempt plan (wls_observed_unix_ms evidence)
          (wls_launcher_process_id evidence)
          (wls_launcher_process_creation_time_file_time evidence) true ;;
        mret tt
      else throw native_windows_pre_target_evidence_gap
  else
    now ← try NowMs;
    if saturating_sub now (att_created_at_ms attempt) <? rt_startup_grace_ms rt then mret tt
    else throw (error_new LaunchIdentityMismatch
      "native dispatch intent has no launcher-start, target-start, or result evidence; retain the Starting Attempt and capacity until new evidence appears or an operator reconciles it"
      (Some "windowsLauncherStart") true).

Definition reconcile_starting_without_token (attempt : AttemptRecord) : eff unit :=
  plan ← registry (GetExecutionPlan (att_job_id attempt));
  if (plan_execution_target plan == ExecutionTarget.WindowsNative) && rt_windows rt
  then reconcile_native_starting_without_target_evidence attempt
  else
    properties ← systemctl_show (att_unit_name attempt);
    now ← try NowMs;
    let active := unit_is_active properties in
    let young := saturating_sub now (att_created_at_ms attempt) <? rt_startup_grace_ms rt in
    if unit_has_pending_job properties || (active && young) then mret tt
    else if active then
      commit_control_terminal attempt AttemptState.Orphaned
        "LIVE_UNIT_WITHOUT_LAUNCH_TOKEN_EVIDENCE"
        (Some "systemd unit is live but runner-start identity is unavailable"%string) ;;
      mret tt
    else if young then mret tt
    else
      commit_control_terminal attempt AttemptState.Lost "DISPATCH_OUTCOME_UNKNOWN"
        (Some "dispatch intent exists without matching unit, runner-start, or result evidence"%string) ;;
      mret tt.

Definition classifier_error (error : RuntimeError) : RuntimeError :=
  corrupt ("supervisor recovery classification failed: " +:+ error_to_string error)
    "attemptId" false.

Definition launcher_gone_detail : string :=
  "native Windows launcher owner identity is gone; JOB_OBJECT_LIMIT_KILL_ON_JOB_CLOSE makes the Attempt process tree definitively non-running and no result evidence exists".

Definition lineage_gone_detail : string :=
  "windows_native launcher unit and persisted launcher process identity are absent; the launcher is the sole owner of the JOB_OBJECT_LIMIT_KILL_ON_JOB_CLOSE handle, so the native process tree cannot still be running and no result evidence exists".

(** The [match classify_windows_launcher_recovery(..)?]. *)
Definition commit_windows_disposition (attempt : AttemptRecord)
    (disposition : SupervisorRecoveryDisposition.t) : eff unit :=
  let intent := intent_of attempt in
  match disposition with
  | SupervisorRecoveryDisposition.Running => mret tt
  | SupervisorRecoveryDisposition.Terminal state =>
      commit_control_terminal attempt state
        match intent with
        | TerminationIntent.StopRequested => "STOP_REQUESTED_PROCESS_TREE_GONE"
        | TerminationIntent.DeadlineExceeded => "DEADLINE_EXCEEDED"
        | TerminationIntent.Natural => "WINDOWS_LAUNCHER_LINEAGE_GONE"
        end
        (if intent == TerminationIntent.Natural then Some launcher_gone_detail else None) ;;
      mret tt
  | SupervisorRecoveryDisposition.Orphaned reason =>
      commit_control_terminal attempt AttemptState.Orphaned "SUPERVISOR_IDENTITY_ORPHANED"
        (Some reason) ;;
      mret tt
  | SupervisorRecoveryDisposition.Lost =>
      throw (corrupt "native Windows launcher classifier returned unsupported lost disposition"
               "attemptSupervisorOwner" false)
  end.

Definition reconcile_provider_owned_attempt (attempt : AttemptRecord) (plan : RuntimeExecutionPlan)
    (owner : AttemptSupervisorOwner) : eff unit :=
  of_result (fail_if (plan_execution_target plan != ExecutionTarget.WindowsNative)
    (corrupt "Attempt Supervisor Owner is bound to a non-Windows execution target"
       "attemptSupervisorOwner" false)) ;;
  result ← ask (PathExists (bundle_file attempt RESULT_FILE));
  if result : bool then reconcile_runner_result attempt
  else
    require_windows "provider-owned Windows Attempt has no configured Windows provider"
      "executionTarget" true ;;
    let '(WindowsLauncherV1 process_id creation_time _ _ _) := owner in
    deadline_started_at_ms ← of_result (ok_or
      (corrupt "native Attempt Supervisor Owner has no durable execution start time"
         "attemptSupervisorOwner" false) (att_started_at_ms attempt));
    enforced ← enforce_native_windows_outer_deadline attempt plan deadline_started_at_ms
                 process_id creation_time false;
    if enforced : bool then mret tt
    else
      observation ← try (ObserveWindowsLauncherOwner (plan_windows_authority plan)
                           (expected_broker_digest plan) process_id);
      result ← ask (PathExists (bundle_file attempt RESULT_FILE));
      if result : bool then reconcile_runner_result attempt
      else
        disposition ← of_result
          (classify_windows_launcher_recovery owner observation (intent_of attempt));
        commit_windows_disposition attempt disposition.

(** The [match disposition] of [reconcile_bound_attempt]. *)
Definition commit_supervisor_disposition (attempt : AttemptRecord)
    (observation : SupervisorObservation) (disposition : SupervisorRecoveryDisposition.t)
    : eff unit :=
  match disposition with
  | SupervisorRecoveryDisposition.Running => mret tt
  | SupervisorRecoveryDisposition.Terminal state =>
      commit_observed_control_terminal attempt state
        match so_unit_state observation, intent_of attempt with
        | SupervisorUnitState.NotFound, TerminationIntent.StopRequested =>
            "STOP_REQUESTED_PROCESS_TREE_GONE"
        | SupervisorUnitState.NotFound, TerminationIntent.DeadlineExceeded => "DEADLINE_EXCEEDED"
        | _, _ => "SUPERVISOR_TERMINAL_FALLBACK"
        end None (Some observation) ;;
      mret tt
  | SupervisorRecoveryDisposition.Lost =>
      commit_observed_control_terminal attempt AttemptState.Lost "SUPERVISOR_EVIDENCE_LOST" None
        (Some observation) ;;
      mret tt
  | SupervisorRecoveryDisposition.Orphaned reason =>
      commit_observed_control_terminal attempt AttemptState.Orphaned
        "SUPERVISOR_IDENTITY_ORPHANED" (Some reason) (Some observation) ;;
      current ← registry (GetAttempt (att_attempt_id attempt));
      result ← ask (PathExists (bundle_file current RESULT_FILE));
      if result : bool then recover_orphaned_runner_result current ;; mret tt else mret tt
  end.

Definition reconcile_bound_attempt (attempt : AttemptRecord) : eff unit :=
  plan ← registry (GetExecutionPlan (att_job_id attempt));
  owner ← registry (GetSupervisorOwner (att_attempt_id attempt));
  match owner with
  | Some owner => reconcile_provider_owned_attempt attempt plan owner
  | None =>
      observed ← observe_linux_process_owner attempt;
      let '(expected, observation) := observed in
      result ← ask (PathExists (bundle_file attempt RESULT_FILE));
      if result : bool then reconcile_runner_result attempt
      else if windows_native_launcher_lineage_is_definite_failure (plan_execution_target plan)
                (att_termination_intent attempt) (so_unit_state observation)
                (so_recorded_pid_alive observation) then
        commit_observed_control_terminal attempt AttemptState.Failed
          "WINDOWS_LAUNCHER_LINEAGE_GONE" (Some lineage_gone_detail) (Some observation) ;;
        mret tt
      else
        disposition ← of_result (map_err classifier_error
          (classify_supervisor_recovery expected observation (intent_of attempt)));
        commit_supervisor_disposition attempt observation disposition
  end.

(** The start evidence could not be bound because the main process cannot be
    observed at the moment. *)
Definition after_observation_loss (attempt : AttemptRecord) (error : RuntimeError) : eff unit :=
  result ← ask (PathExists (bundle_file attempt RESULT_FILE));
  if result : bool then reconcile_runner_result attempt
  else
    current ← registry (GetAttempt (att_attempt_id attempt));
    if (att_row_version current != att_row_version attempt)
       || (att_state current != att_state attempt) then
      result ← ask (PathExists (bundle_file current RESULT_FILE));
      if result : bool then reconcile_runner_result current else mret tt
    else
      now ← try NowMs;
      if saturating_sub now (att_created_at_ms current) <? rt_startup_grace_ms rt then mret tt
      else throw error.

(** Start evidence exists: it is bound. *)
Definition reconcile_start_evidence (attempt : AttemptRecord) (target : ExecutionTarget.t)
    (native_unbound_stopping : bool) : eff unit :=
  catch (bind_attempt_start rt attempt target) (fun bound =>
    match bound with
    | Ok bound =>
        result ← ask (PathExists (bundle_file bound RESULT_FILE));
        if result : bool then reconcile_runner_result bound
        else if native_unbound_stopping then reconcile_bound_attempt bound
        else mret tt
    | Err error =>
        if transient_main_pid_observation_loss error then after_observation_loss attempt error
        else throw error
    end).

Definition start_file (target : ExecutionTarget.t) : string :=
  match target with
  | ExecutionTarget.LocalLinux => RUNNER_START_FILE
  | ExecutionTarget.WindowsNative => WINDOWS_START_FILE
  end.

Definition reconcile_attempt (attempt_id : string) : eff unit :=
  attempt ← registry (GetAttempt attempt_id);
  if AttemptState.is_terminal (att_state attempt) then mret tt
  else
    result ← ask (PathExists (bundle_file attempt RESULT_FILE));
    if result : bool then reconcile_runner_result attempt
    else
      plan ← registry (GetExecutionPlan (att_job_id attempt));
      native_unbound_stopping ←
        (if (att_state attempt == AttemptState.Stopping)
            && (plan_execution_target plan == ExecutionTarget.WindowsNative) && rt_windows rt
         then owner ← registry (GetSupervisorOwner (att_attempt_id attempt));
              mret (negb (present owner))
         else mret false);
      let unbound := (att_state attempt == AttemptState.Starting) || native_unbound_stopping in
      started ← (if unbound
                 then ask (PathExists (bundle_file attempt (start_file (plan_execution_target plan))))
                 else mret false);
      if started : bool
      then reconcile_start_evidence attempt (plan_execution_target plan) native_unbound_stopping
      else if unbound then reconcile_starting_without_token attempt
      else reconcile_bound_attempt attempt.
End reconciliation.
