(* ===== verification/Workspace.v ===== *)
(** * Workspaces

    Of [universal/]: the records of Workspaces, their paths, and the digest of
    their sources. *)

From S2P Require Import Prelude Text Errors Types Supervisor Platform Validation Submit Store.
From S2P Require Import Transaction Projection Lifecycle Admission Recovery Registry Query.
From S2P Require Import Effects Utf8 Engine Linux Evidence.

(** ** Workspaces on disk

    [universal/config.rs], [universal/fsutil.rs], [universal/workspace/records.rs],
    [paths_git.rs] and [source_state.rs]: where the files of a Workspace are, its
    record, which of its paths a request may name, and the digest of its source. *)

#[local] Open Scope Z_scope.

Definition UNIVERSAL_EXEC_SCHEMA_VERSION : Z := 1.

Record WorkspaceRecord : Type := {
  wr_schema_version : Z;
  wr_workspace_id : string;
  wr_source_repo : string;
  wr_source_revision : string;
  wr_workspace_path : string;
  wr_created_unix_ms : Z;
}.

(** Of [ClosedWorkspaceRecord], the fields that the code reads. *)
Record ClosedWorkspaceRecord : Type := {
  cwr_schema_version : Z;
  cwr_state : string;
  cwr_legacy_workspace_id : string;
  cwr_source_state_digest : option string;
}.

Record WorkspaceSourceEntry : Type := {
  wse_path : string;
  wse_kind : string;
  wse_mode : Z;
  wse_byte_length : Z;
  wse_digest : string;
}.

Record WorkspaceSourceState : Type := {
  wss_schema_version : Z;
  wss_head_revision : string;
  wss_index_digest : string;
  wss_tracked : list WorkspaceSourceEntry;
  wss_untracked : list WorkspaceSourceEntry;
}.

(** [serde_json] on these types. *)
Class WorkspaceCodec : Type := {
  workspace_record_of_json : string -> result string WorkspaceRecord;
  closed_record_of_value : Json -> result string ClosedWorkspaceRecord;
  source_state_to_json : WorkspaceSourceState -> string;
}.

(** ** Errors and identifiers *)

Definition universal_new (code : UniversalExecErrorCode.t) (message : string) (field : option string)
    (retryable : bool) : UniversalExecError :=
  {| ue_code := code; ue_message := message; ue_field := field; ue_retryable := retryable |}.

(** [io_error] of [universal/fsutil.rs] *)
Definition universal_io_error (path operation : string) (error : IoFailure) : UniversalExecError :=
  universal_new (if io_storage_full error then UniversalExecErrorCode.WorkspaceCapacityExceeded
                 else UniversalExecErrorCode.IoError)
    ("cannot " +:+ operation +:+ " " +:+ path +:+ ": " +:+ io_text error) None false.

Definition WORKSPACE_ID_MAX_LENGTH : Z := 96.

(** [validate_id] *)
Definition workspace_id_valid (value : string) : bool :=
  match chars value with
  | first :: rest =>
      is_ascii_alphanumeric first && (str_len value <=? WORKSPACE_ID_MAX_LENGTH)
      && forallb (fun c => is_ascii_alphanumeric c || (c =? 46) || (c =? 95) || (c =? 45)) rest
  | [] => false
  end.

Definition validate_id (value field : string) : result UniversalExecError unit :=
  fail_if (negb (workspace_id_valid value))
    (universal_invalid (field +:+ " must match [A-Za-z0-9][A-Za-z0-9._-]{0,95}") field).

(** [validate_relative_path] *)
Definition validate_relative_path (value field : string) : result UniversalExecError string :=
  fail_if (String.eqb value "" || is_absolute value || contains_nul value)
    (universal_invalid (field +:+ " must be a non-empty relative path") field) ;;
  fail_if (existsb (fun c => (c == ParentDir) || (c == RootDir)) (components value))
    (universal_new UniversalExecErrorCode.WorkspacePathDenied
       (field +:+ " cannot escape the workspace") (Some field) false) ;;
  Ok value.

(** ** Places *)

Section config.
Context (config : UniversalExecutorConfig).

Definition workspaces_root : string :=
  default (path_join (uec_store_root config) "workspaces") (uec_workspace_root config).
Definition workspace_records_root : string := path_join (uec_store_root config) "workspace-records".
Definition cache_root : string := path_join (uec_store_root config) "cache".
Definition workspace_caches_root : string := path_join cache_root "workspaces".
Definition build_caches_root : string := path_join cache_root "build".
Definition workspace_tmp_root : string := path_join cache_root "tmp".
Definition shared_caches_root : string := path_join cache_root "shared".
Definition workspace_cache_path (workspace_id : string) : string :=
  path_join workspace_caches_root workspace_id.
Definition workspace_build_cache_path (workspace_id : string) : string :=
  path_join build_caches_root workspace_id.
Definition workspace_tmp_path (workspace_id : string) : string :=
  path_join workspace_tmp_root workspace_id.
Definition workspace_path (workspace_id : string) : string := path_join workspaces_root workspace_id.
Definition workspace_record_path (workspace_id : string) : string :=
  path_join workspace_records_root (workspace_id +:+ ".json").

Definition canonical_store_root : ueff string :=
  utry_map (universal_io_error (uec_store_root config) "canonicalize Runtime store root")
    (Canonicalize (uec_store_root config)).
End config.

(** [canonical_directory] *)
Definition canonical_directory (path field : string) : ueff string :=
  canonical ← utry_map (fun error =>
      universal_new UniversalExecErrorCode.IoError
        ("cannot canonicalize " +:+ path +:+ ": " +:+ io_text error) (Some field) false)
    (Canonicalize path);
  is_dir ← uask (IsDir canonical);
  uresult (fail_if (negb is_dir) (universal_invalid (field +:+ " must be a directory") field)) ;;
  mret canonical.

(** [==] of two [Path]s *)
Definition path_eq (p q : string) : bool := components p == components q.

Section workspace.
Context `{P : Platform, WC : WorkspaceCodec}.
Context (config : UniversalExecutorConfig).

(** ** Records *)

Definition metadata_corrupt (message field : string) : UniversalExecError :=
  universal_new UniversalExecErrorCode.MetadataCorrupt message (Some field) false.

(** [if let (Ok(a), Ok(b)) = (canonical_directory(..), canonical_directory(..))] *)
Definition both_canonical (p q field : string) : prog (option (string * string)) :=
  a ← (canonical_directory p field : prog _);
  b ← (canonical_directory q field : prog _);
  mret (match a, b with Ok a, Ok b => Some (a, b) | _, _ => None end).

Definition workspace_record_path_matches_identity (workspace_id recorded : string) : prog bool :=
  let expected := workspace_path config workspace_id in
  if path_eq recorded expected then mret true
  else
    both ← both_canonical expected recorded "workspacePath";
    match both with
    | Some (expected, recorded) => mret (path_eq expected recorded)
    | None =>
        expected_exists ← perform (PathExists expected);
        recorded_exists ← (if expected_exists : bool then mret true else perform (PathExists recorded));
        if expected_exists || recorded_exists then mret false
        else if file_name recorded != file_name expected then mret false
        else
          match path_parent expected, path_parent recorded with
          | Some expected_parent, Some recorded_parent =>
              both ← both_canonical expected_parent recorded_parent "workspaceRoot";
              mret (match both with Some (e, r) => path_eq e r | None => false end)
          | _, _ => mret false
          end
    end.

Definition read_workspace_record_bytes (path : string) : ueff string :=
  utry_map (fun error => universal_new UniversalExecErrorCode.WorkspaceNotFound
              ("cannot read workspace record: " +:+ io_text error) (Some "workspaceId"%string) false)
    (ReadFile path).

Definition decode_closed_workspace_record (bytes : string)
    : result UniversalExecError (option ClosedWorkspaceRecord) :=
  value ← map_err (fun error => metadata_corrupt ("invalid workspace record: " +:+ error) "workspaceId")
            (json_of_string bytes);
  if (json_get "state" value ≫= as_str) != Some "closed"%string then Ok None
  else Some <$> map_err (fun error =>
                  metadata_corrupt ("invalid closed workspace record: " +:+ error) "workspaceId")
                (closed_record_of_value value).

Definition validate_open_identity (record : WorkspaceRecord) (workspace_id : string)
    : result UniversalExecError unit :=
  fail_if ((wr_schema_version record != UNIVERSAL_EXEC_SCHEMA_VERSION)
           || (negb (String.eqb (wr_workspace_id record) "")
               && negb (String.eqb (wr_workspace_id record) workspace_id)))
    (metadata_corrupt "workspace record identity mismatch" "workspaceId").

Definition validate_closed_identity (record : ClosedWorkspaceRecord) (workspace_id : string)
    : result UniversalExecError unit :=
  fail_if ((cwr_schema_version record != UNIVERSAL_EXEC_SCHEMA_VERSION)
           || negb (String.eqb (cwr_state record) "closed")
           || (negb (String.eqb (cwr_legacy_workspace_id record) "")
               && negb (String.eqb (cwr_legacy_workspace_id record) workspace_id)))
    (metadata_corrupt "closed workspace record identity mismatch" "workspaceId").

Definition set_wr_workspace_id (v : string) (r : WorkspaceRecord) : WorkspaceRecord :=
  {| wr_schema_version := wr_schema_version r; wr_workspace_id := v;
     wr_source_repo := wr_source_repo r; wr_source_revision := wr_source_revision r;
     wr_workspace_path := wr_workspace_path r; wr_created_unix_ms := wr_created_unix_ms r |}.
Definition set_wr_workspace_path (v : string) (r : WorkspaceRecord) : WorkspaceRecord :=
  {| wr_schema_version := wr_schema_version r; wr_workspace_id := wr_workspace_id r;
     wr_source_repo := wr_source_repo r; wr_source_revision := wr_source_revision r;
     wr_workspace_path := v; wr_created_unix_ms := wr_created_unix_ms r |}.

Definition decode_open_workspace_record (bytes workspace_id : string)
    : result UniversalExecError WorkspaceRecord :=
  record ← map_err (fun error => metadata_corrupt ("invalid workspace record: " +:+ error) "workspaceId")
             (workspace_record_of_json bytes);
  validate_open_identity record workspace_id ;;
  Ok (set_wr_workspace_id workspace_id record).

Definition bind_workspace_record_path (workspace_id : string) (record : WorkspaceRecord)
    : ueff WorkspaceRecord :=
  let legacy_path := wr_workspace_path record in
  matches ← (if String.eqb legacy_path "" then mret true
             else prog_bind (fun b => Ret (Ok b))
                    (workspace_record_path_matches_identity workspace_id legacy_path) : ueff bool);
  uresult (fail_if (negb matches)
    (metadata_corrupt "workspace record path does not match its identity" "workspacePath")) ;;
  let expected := workspace_path config workspace_id in
  exists_ ← uask (PathExists expected);
  derived ← (if exists_ : bool then canonical_directory expected "workspacePath" else mret expected);
  mret (set_wr_workspace_path derived record).

Definition load_workspace_record_metadata (workspace_id : string) : ueff WorkspaceRecord :=
  uresult (validate_id workspace_id "workspaceId") ;;
  bytes ← read_workspace_record_bytes (workspace_record_path config workspace_id);
  closed ← uresult (decode_closed_workspace_record bytes);
  match closed with
  | Some closed =>
      uresult (validate_closed_identity closed workspace_id) ;;
      uthrow (universal_new UniversalExecErrorCode.WorkspaceNotFound "workspace is closed"
                (Some "workspaceId"%string) false)
  | None =>
      record ← uresult (decode_open_workspace_record bytes workspace_id);
      bind_workspace_record_path workspace_id record
  end.

Definition load_workspace_record (workspace_id : string) : ueff WorkspaceRecord :=
  record ← load_workspace_record_metadata workspace_id;
  expected ← canonical_directory (workspace_path config workspace_id) "workspacePath";
  mret (set_wr_workspace_path expected record).

(** ** Paths *)

Definition path_denied (message : string) : UniversalExecError :=
  universal_new UniversalExecErrorCode.WorkspacePathDenied message (Some "relativePath"%string) false.

Definition is_symlink (kind : FileKind) : bool := match kind with Symlink => true | _ => false end.

Definition resolve_existing_workspace_path (record : WorkspaceRecord) (relative : string)
    (allow_directory : bool) : ueff string :=
  relative ← uresult (validate_relative_path relative "relativePath");
  root ← canonical_directory (wr_workspace_path record) "workspacePath";
  let candidate := path_join root relative in
  kind ← utry_map (fun error =>
      if io_not_found error
      then universal_new UniversalExecErrorCode.WorkspacePathNotFound
             ("workspace path does not exist: " +:+ relative) (Some "relativePath"%string) false
      else universal_io_error candidate "inspect" error) (SymlinkMetadata candidate);
  uresult (fail_if (is_symlink kind) (path_denied "workspace path cannot be a symlink")) ;;
  canonical ← utry_map (universal_io_error candidate "canonicalize") (Canonicalize candidate);
  is_dir ← (if negb (path_starts_with canonical root) || allow_directory then mret false
            else uask (IsDir canonical));
  uresult (fail_if (negb (path_starts_with canonical root) || (negb allow_directory && is_dir))
    (path_denied "workspace path escaped its root")) ;;
  mret canonical.

Definition set_ue_field (field : string) (error : UniversalExecError) : UniversalExecError :=
  universal_new (ue_code error) (ue_message error)
    (if ue_field error == Some "relativePath"%string then Some field else ue_field error)
    (ue_retryable error).

Definition resolve_workspace_cwd (record : WorkspaceRecord) (relative field : string) : ueff string :=
  path ← (prog_bind (fun r => Ret (map_err (set_ue_field field) r))
            (resolve_existing_workspace_path record relative true) : ueff string);
  is_dir ← uask (IsDir path);
  uresult (fail_if (negb is_dir) (universal_invalid "cwdRelative must resolve to a directory" field)) ;;
  mret path.
End workspace.

(** ** The digest of the source of a Workspace

    [universal/workspace/source_state.rs] and the calls of git in
    [universal/workspace/paths_git.rs]: the head revision, the index, every
    tracked and every untracked file, each looked at before and after its digest
    is taken. *)

#[local] Open Scope Z_scope.

(** ** Git *)

(** [str::contains] *)
Fixpoint contains_text (needle s : string) : bool :=
  starts_with needle s
  || match s with String _ rest => contains_text needle rest | EmptyString => false end.

Definition tool_unavailable (operation : string) (error : IoFailure) : UniversalExecError :=
  universal_new UniversalExecErrorCode.ToolUnavailable
    ("cannot execute " +:+ operation +:+ ": " +:+ io_text error) None false.

Definition tool_failed (operation stderr : string) : UniversalExecError :=
  let message := str_trim (from_utf8_lossy stderr) in
  universal_new (if contains_text "No space left on device" message
                    || contains_text "Disk quota exceeded" message
                 then UniversalExecErrorCode.WorkspaceCapacityExceeded
                 else UniversalExecErrorCode.ToolFailed)
    (operation +:+ " failed: " +:+ message) None false.

(** [Display] of [Utf8Error] *)
Definition utf8_error_text (error : Utf8Error) : string :=
  match error_len error with
  | Some n => "invalid utf-8 sequence of " +:+ pretty n +:+ " bytes from index "
              +:+ pretty (valid_up_to error)
  | None => "incomplete utf-8 byte sequence from index " +:+ pretty (valid_up_to error)
  end.

(** [String::from_utf8], with the error of the caller *)
Definition utf8_or (error : string -> UniversalExecError) (bytes : string)
    : result UniversalExecError string :=
  match from_utf8_error bytes with
  | None => Ok bytes
  | Some e => Err (error (utf8_error_text e))
  end.

Definition git_output_bytes (repo : string) (arguments : list string) : ueff string :=
  output ← utry_map (tool_unavailable "git") (Git (["--no-optional-locks"; "-C"; repo]%string ++ arguments));
  if out_success output then mret (out_stdout output)
  else uthrow (tool_failed "git" (out_stderr output)).

Definition git_output (repo : string) (arguments : list string) : ueff string :=
  stdout ← git_output_bytes repo arguments;
  uresult (utf8_or (fun error => universal_new UniversalExecErrorCode.ToolFailed
                      ("git output is not UTF-8: " +:+ error) None false) stdout).

Definition is_git_worktree (path : string) : ueff bool :=
  output ← utry_map (tool_unavailable "git rev-parse worktree")
             (Git ["-C"; path; "rev-parse"; "--is-inside-work-tree"]%string);
  mret (out_success output && String.eqb (out_stdout output) ("true" +:+ String newline EmptyString)).

Definition revision_length_valid (revision : string) : bool :=
  (str_len revision =? 40) || (str_len revision =? 64).

Definition workspace_head_revision_at (workspace : string) : ueff string :=
  workspace ← canonical_directory workspace "workspacePath";
  stdout ← git_output workspace ["rev-parse"; "HEAD"]%string;
  let revision := str_trim stdout in
  uresult (fail_if (negb (revision_length_valid revision))
    (universal_new UniversalExecErrorCode.RevisionNotFound
       "workspace HEAD did not resolve to a commit" (Some "workspaceId"%string) false)) ;;
  mret revision.

Definition workspace_git_common_dir_at (workspace : string) : ueff string :=
  workspace ← canonical_directory workspace "workspacePath";
  common_dir ← git_output workspace ["rev-parse"; "--path-format=absolute"; "--git-common-dir"]%string;
  canonical_directory (str_trim common_dir) "workspaceGitCommonDir".

(** ** Listings *)

Definition nul_char : Ascii.ascii := Ascii.ascii_of_N 0.
Definition tab : Ascii.ascii := Ascii.ascii_of_N 9.

(** [bytes.split(|byte| *byte == 0).filter(|raw| !raw.is_empty())] *)
Definition nul_records (bytes : string) : list string :=
  List.filter (fun raw => negb (String.eqb raw "")) (split_on nul_char bytes).

Definition tracked_corrupt (message : string) : UniversalExecError :=
  universal_new UniversalExecErrorCode.MetadataCorrupt message None false.

(** One record of [git ls-files --stage -z]: its path and its mode. *)
Definition tracked_record (raw : string) : result UniversalExecError (string * string) :=
  record ← utf8_or (fun error => universal_new UniversalExecErrorCode.ArtifactNotUtf8
                      ("tracked Git index record is not UTF-8: " +:+ error) None false) raw;
  '(metadata, relative) ← ok_or (tracked_corrupt "tracked Git index record has no path separator")
                            (split_once tab record);
  index_mode ← ok_or (tracked_corrupt "tracked Git index record has no mode")
                 (head (split_whitespace metadata));
  validate_relative_path relative "trackedPath" ;;
  Ok (relative, index_mode).

Definition parse_tracked_index_paths (staged_index : string)
    : result UniversalExecError (gmap string string) :=
  foldl (fun paths raw =>
           paths ← paths; '(relative, index_mode) ← tracked_record raw;
           Ok (<[relative := index_mode]> paths)) (Ok ∅) (nul_records staged_index).

Definition parse_nul_paths (bytes label : string) : result UniversalExecError (list string) :=
  foldr (fun raw rest =>
           path ← utf8_or (fun error => universal_new UniversalExecErrorCode.ArtifactNotUtf8
                             (label +:+ " is not UTF-8: " +:+ error) None false) raw;
           rest ← rest; Ok (path :: rest)) (Ok []) (nul_records bytes).

(** ** Entries *)

Definition same_source_metadata (left right : FileMetadata) : bool :=
  (md_dev left =? md_dev right) && (md_ino left =? md_ino right) && (md_mode left =? md_mode right)
  && (md_size left =? md_size right) && (md_mtime left =? md_mtime right)
  && (md_mtime_nsec left =? md_mtime_nsec right) && (md_ctime left =? md_ctime right)
  && (md_ctime_nsec left =? md_ctime_nsec right).

(** [source_entry_mode]: [mode & 0o7777] *)
Definition source_entry_mode (metadata : FileMetadata) : Z := Z.land (md_mode metadata) 4095.

Definition GITLINK_MODE : string := "160000".

(** [for x in l { v.push(f(x)?); }] *)
Fixpoint collect_entries {A B} (f : A -> ueff B) (l : list A) : ueff (list B) :=
  match l with
  | [] => mret []
  | x :: rest => y ← f x; ys ← collect_entries f rest; mret (y :: ys)
  end.

Section source_state.
Context `{P : Platform, WC : WorkspaceCodec}.

Definition missing_entry (relative : string) (index_mode : option string) : WorkspaceSourceEntry :=
  {| wse_path := relative;
     wse_kind := if index_mode == Some GITLINK_MODE then "gitlink-uninitialized" else "missing";
     wse_mode := 0;
     wse_byte_length := 0;
     wse_digest := sha256_bytes "missing" |}%string.

(** Kind, length and digest; [nested] is [workspace_source_state_digest_at] of a
    submodule. *)
Definition source_content (nested : string -> ueff string) (path relative : string)
    (index_mode : option string) (before : FileMetadata) : ueff (string * Z * string) :=
  match md_kind before with
  | Symlink =>
      target ← utry_map (universal_io_error path "read source symlink") (ReadLink path);
      mret ("symlink"%string, str_len target, sha256_bytes target)
  | RegularFile _ =>
      digest ← utry (Sha256File path);
      mret ("file"%string, md_size before, digest)
  | kind =>
      if match kind with Directory => index_mode == Some GITLINK_MODE | _ => false end then
        worktree ← is_git_worktree path;
        if worktree : bool then
          digest ← nested path; mret ("git-worktree"%string, 0, digest)
        else mret ("gitlink-uninitialized"%string, 0, sha256_bytes "gitlink-uninitialized")
      else
        uthrow (universal_new UniversalExecErrorCode.WorkspacePathDenied
                  ("source path is not a regular file, symlink, or Git worktree: " +:+ relative)
                  (Some "workspaceId"%string) false)
  end.

Definition workspace_source_entry (nested : string -> ueff string) (workspace relative : string)
    (index_mode : option string) : ueff WorkspaceSourceEntry :=
  relative ← uresult (validate_relative_path relative "sourcePath");
  let path := path_join workspace relative in
  before ← uask (Metadata path false);
  match before with
  | Err error =>
      if io_not_found error then mret (missing_entry relative index_mode)
      else uthrow (universal_io_error path "inspect source state" error)
  | Ok before =>
      '(kind, byte_length, digest) ← source_content nested path relative index_mode before;
      after ← utry_map (universal_io_error path "reinspect source state") (Metadata path false);
      uresult (fail_if (negb (same_source_metadata before after))
        (universal_new UniversalExecErrorCode.WorkspaceMutationIncomplete
           ("source path changed while its commitment was computed: " +:+ relative)
           (Some "workspaceId"%string) true)) ;;
      mret {| wse_path := relative; wse_kind := kind; wse_mode := source_entry_mode before;
              wse_byte_length := byte_length; wse_digest := digest |}
  end.

(** What a path that is too long answers. *)
Definition name_too_long : IoFailure := {|
  io_text := "File name too long (os error 36)"; io_interrupted := false; io_not_found := false;
  io_already_exists := false; io_storage_full := false |}.

(** [workspace_source_state_digest_at]: every nested Workspace has a longer path
    than the one around it, and Linux refuses paths of more than [PATH_MAX] bytes,
    so [PATH_MAX] levels are enough. *)
Definition PATH_MAX : nat := 4096.

Definition index_digest_of (staged_index index_flags : string) : string :=
  sha256_bytes ("workspace-index-v1" +:+ nul +:+ sha256_bytes staged_index +:+ nul
                +:+ sha256_bytes index_flags).

Fixpoint workspace_source_state_digest_below (levels : nat) (workspace : string) : ueff string :=
  match levels with
  | O => uthrow (universal_io_error workspace "inspect source state" name_too_long)
  | S levels' =>
      let nested := workspace_source_state_digest_below levels' in
      workspace ← canonical_directory workspace "workspacePath";
      head_revision ← workspace_head_revision_at workspace;
      staged_index ← git_output_bytes workspace ["ls-files"; "--stage"; "-z"]%string;
      index_flags ← git_output_bytes workspace ["ls-files"; "-v"; "-z"]%string;
      tracked_paths ← uresult (parse_tracked_index_paths staged_index);
      tracked ← collect_entries (fun '(relative, index_mode) =>
                  workspace_source_entry nested workspace relative (Some index_mode))
                  (btree_iter tracked_paths);
      untracked_raw ← git_output_bytes workspace
                        ["ls-files"; "--others"; "--exclude-standard"; "-z"]%string;
      untracked_paths ← uresult (parse_nul_paths untracked_raw "untracked Git path");
      untracked ← collect_entries (fun relative => workspace_source_entry nested workspace relative None)
                    (order_by String.leb untracked_paths);
      mret (sha256_bytes (source_state_to_json
        {| wss_schema_version := 2;
           wss_head_revision := head_revision;
           wss_index_digest := index_digest_of staged_index index_flags;
           wss_tracked := tracked;
           wss_untracked := untracked |}))
  end.

Definition workspace_source_state_digest_at (workspace : string) : ueff string :=
  workspace_source_state_digest_below PATH_MAX workspace.

Definition workspace_source_state_digest (config : UniversalExecutorConfig) (workspace_id : string)
    : ueff string :=
  record ← load_workspace_record config workspace_id;
  workspace_source_state_digest_at (wr_workspace_path record).
End source_state.
