(* ===== verification/Bundle.v ===== *)
(** * The bundle of an Attempt

    [materialize_bundle] of [engine/execution.rs] and [verify_published_bundle]
    of [engine/control_query.rs]: the request to the Runner, the plan and a
    manifest of their digests are written to a staging directory, published by
    one rename, read back, and only then committed. *)

From S2P Require Import Prelude Text Errors Types Supervisor Platform Validation Submit Store.
From S2P Require Import Transaction Projection Admission Recovery Registry Query Effects Utf8.
From S2P Require Import Engine Inputs Binding Evidence Workspace.

#[local] Open Scope Z_scope.

(** ** Files *)

Definition write_bytes_synced (path content : string) : eff unit :=
  try_map (io_error "create bundle file") (CreateNew path) ;;
  try_map (io_error "write bundle file") (WriteAll path content) ;;
  try_map (io_error "sync bundle file") (SyncFile path).

Definition verify_published_file (final_path : string) (file : string * string) : eff unit :=
  let '(name, expected) := file in
  let path := path_join final_path name in
  kind ← try_map (io_error "inspect published Attempt bundle file") (SymlinkMetadata path);
  of_result (fail_if (negb (is_regular kind))
    (registry_corrupt "published Attempt bundle contains a non-regular file" "bundlePath")) ;;
  observed ← try_map (io_error "read published Attempt bundle file") (ReadFile path);
  of_result (fail_if (negb (String.eqb observed expected))
    (registry_corrupt "published Attempt bundle bytes do not match deterministic Attempt identity"
       "bundlePath")).

Definition verify_published_bundle (final_path request plan manifest : string) : eff unit :=
  kind ← try_map (io_error "inspect published Attempt bundle") (SymlinkMetadata final_path);
  of_result (fail_if (negb (is_directory kind))
    (registry_corrupt "published Attempt bundle is not a non-symlink directory" "bundlePath")) ;;
  fold_eff (fun _ file => verify_published_file final_path file) tt
    [(RUNNER_REQUEST_FILE, request); (PLAN_FILE, plan); (BUNDLE_MANIFEST_FILE, manifest)].

Section bundle.
Context `{P : Platform, C : EngineCodec}.
Context (rt : Runtime).

(** ** Contents *)

(** [format!("runtime-launch-v1\0{}\0{}", attempt_id, operation_digest)] *)
Definition launch_token_of (attempt_id operation_digest : string) : string :=
  sha256_bytes ("runtime-launch-v1" +:+ nul +:+ attempt_id +:+ nul +:+ operation_digest).

(** The Cargo target is the stable path of trusted executions. *)
Definition presents_build_target (env : gmap string string) : bool :=
  env !! "CARGO_TARGET_DIR" == Some TRUSTED_BUILD_TARGET_PRESENTATION.

Definition build_target_backing (plan : RuntimeExecutionPlan) : option string :=
  if (plan_execution_target plan == ExecutionTarget.LocalLinux)
     && (plan_execution_profile plan == ExecutionProfile.TrustedLocal)
     && (presents_build_target (plan_env plan)
         || existsb (fun step => presents_build_target (step_env step)) (plan_steps plan))
  then Some (path_join (workspace_build_cache_path (rt_executor rt) (plan_workspace_id plan)) "cargo")
  else None.

Definition on_linux {A} (plan : RuntimeExecutionPlan) (a : A) (otherwise : A) : A :=
  if plan_execution_target plan == ExecutionTarget.LocalLinux then a else otherwise.

Definition runner_step (step : RuntimeExecutionStep) : RunnerExecutionStep :=
  {| res_id := step_id step;
     res_executable := step_executable step;
     res_executable_digest := step_executable_digest step;
     res_args := step_args step;
     res_cwd := step_cwd step;
     res_env := step_env step;
     res_timeout_ms := step_timeout_ms step;
     res_continue_on_error := step_continue_on_error step |}.

(** [payload_config] is [None], [inherit_host_environment] is [false]. *)
Definition runner_request (job : RuntimeJobRecord) (attempt : AttemptRecord)
    (plan : RuntimeExecutionPlan) (launch_token : string)
    (dependencies : list HostDependencyBinding) : RunnerRequest :=
  {| rq_schema_version := UNIVERSAL_EXEC_SCHEMA_VERSION;
     rq_job_id := Some (job_job_id job);
     rq_attempt_id := Some (att_attempt_id attempt);
     rq_launch_token := Some launch_token;
     rq_unit_name := Some (att_unit_name attempt);
     rq_payload := None;
     rq_inherit_host_environment := false;
     rq_task_id := att_attempt_id attempt;
     rq_workspace_id := plan_workspace_id plan;
     rq_workspace_path := plan_workspace_path plan;
     rq_workspace_source_digest := plan_workspace_source_digest plan;
     rq_build_target_backing := build_target_backing plan;
     rq_input_presentation_root :=
       match plan_effective_inputs plan with
       | [] => None
       | _ => on_linux plan (Some CONTAINED_INPUT_ROOT) None
       end;
     rq_input_commitments :=
       on_linux plan
         (map (fun input =>
            {| ric_presentation_path :=
                 path_join CONTAINED_INPUT_ROOT (ei_presentation_relative_path input);
               ric_digest := ei_digest input;
               ric_byte_length := ei_byte_length input |}) (plan_effective_inputs plan)) [];
     rq_host_dependencies :=
       map (fun dependency => {| rhd_path := hd_path dependency;
                                 rhd_digest := hd_expected_digest dependency |}) dependencies;
     rq_executable := plan_executable plan;
     rq_executable_digest := plan_executable_digest plan;
     rq_args := plan_args plan;
     rq_cwd := plan_cwd plan;
     rq_env := plan_env plan;
     rq_steps := map runner_step (plan_steps plan);
     rq_timeout_ms := plan_timeout_ms plan;
     rq_stdout_limit_bytes := plan_stdout_limit_bytes plan;
     rq_stderr_limit_bytes := plan_stderr_limit_bytes plan |}.

Definition bundle_manifest (job : RuntimeJobRecord) (attempt : AttemptRecord)
    (request_bytes plan_bytes launch_token : string) : BundleManifest :=
  {| bm_schema_version := RUNTIME_SCHEMA_VERSION;
     bm_job_id := job_job_id job;
     bm_attempt_id := att_attempt_id attempt;
     bm_request_digest := sha256_bytes request_bytes;
     bm_plan_digest := sha256_bytes plan_bytes;
     bm_launch_token_digest := sha256_bytes launch_token;
     bm_created_at_ms := att_created_at_ms attempt |}.

(** ** Publication *)

(** The closure of [materialize_bundle] after the staging directory is made. *)
Definition fill_and_publish (staging final_path request plan manifest : string) : eff unit :=
  try_map (io_error "protect staging bundle") (SetMode staging 448) ;;
  write_bytes_synced (path_join staging RUNNER_REQUEST_FILE) request ;;
  write_bytes_synced (path_join staging PLAN_FILE) plan ;;
  write_bytes_synced (path_join staging BUNDLE_MANIFEST_FILE) manifest ;;
  try_map map_universal_error (SyncDirectory staging) ;;
  renamed ← ask (RenameDurable staging final_path false "commit Attempt bundle");
  match renamed with
  | Ok _ => mret tt
  | Err error =>
      published ← ask (IsDir final_path);
      if published : bool
      then try_map (io_error "remove losing bundle staging directory") (RemoveDirAll staging)
      else throw (map_universal_error error)
  end ;;
  verify_published_bundle final_path request plan manifest.

Definition publish_bundle (attempt : AttemptRecord) (parent final_path request plan manifest : string)
    : eff unit :=
  uuid ← ask FreshUuid;
  let staging := path_join parent ("." +:+ att_attempt_id attempt +:+ ".staging-" +:+ uuid) in
  try_map (io_error "create staging bundle") (CreateDir staging) ;;
  catch (fill_and_publish staging final_path request plan manifest) (fun published =>
    match published with
    | Ok _ => mret tt
    | Err error => ask (RemoveDirAll staging) ;; throw error
    end).

(** [mark_bundle_ready], unless another caller has recorded the same digest. *)
Definition commit_bundle (attempt : AttemptRecord) (bundle_digest : string) : eff AttemptRecord :=
  now ← try NowMs;
  catch (registry (MarkBundleReady (att_attempt_id attempt) (att_row_version attempt)
                     bundle_digest now)) (fun marked =>
    match marked with
    | Ok current => mret current
    | Err error =>
        if err_code error == AttemptStateConflict then
          current ← registry (GetAttempt (att_attempt_id attempt));
          if att_bundle_digest current == Some bundle_digest then mret current else throw error
        else throw error
    end).

(** The rest of [materialize_bundle], once the contents are known. *)
Definition store_bundle (attempt : AttemptRecord) (request plan manifest : string)
    : eff AttemptRecord :=
  let final_path := att_bundle_path attempt in
  parent ← of_result (ok_or (error_new IoError "Attempt bundle has no parent directory"
                               (Some "bundlePath"%string) false) (path_parent final_path));
  try_map (io_error "create attempts root") (CreateDirAll parent) ;;
  published ← ask (PathExists final_path);
  (if published : bool then verify_published_bundle final_path request plan manifest
   else publish_bundle attempt parent final_path request plan manifest) ;;
  commit_bundle attempt (sha256_bytes manifest).

Definition materialize_bundle (attempt : AttemptRecord) : eff AttemptRecord :=
  of_result (fail_if (att_state attempt != AttemptState.Accepted)
    (error_new AttemptStateConflict "only accepted Attempts may materialize a bundle"
       (Some "attemptId"%string) false)) ;;
  snapshot ← registry (GetJobSnapshot (att_job_id attempt));
  let job := snap_job snapshot in
  stored_attempt ← of_result (ok_or
    (registry_corrupt "Job has no Attempt while materializing bundle" "attemptId")
    (snap_attempt snapshot));
  of_result (fail_if (negb (String.eqb (att_attempt_id stored_attempt) (att_attempt_id attempt))
                      || (att_row_version stored_attempt != att_row_version attempt))
    (error_new AttemptStateConflict "Attempt changed before bundle materialization"
       (Some "attemptId"%string) false)) ;;
  plan ← of_result (map_err (fun error =>
           registry_corrupt ("stored execution plan is invalid: " +:+ error) "executionPlan")
           (plan_of_json (job_execution_plan_json job)));
  let launch_token := launch_token_of (att_attempt_id attempt) (job_operation_digest job) in
  of_result (fail_if (negb (String.eqb (sha256_bytes launch_token) (att_launch_token_digest attempt)))
    (registry_corrupt "stored launch-token digest is inconsistent" "launchTokenDigest")) ;;
  dependencies ← registry (GetHostDependencies (att_job_id attempt));
  let request_bytes := runner_request_to_json
                         (runner_request job attempt plan launch_token dependencies) in
  let plan_bytes := plan_to_json plan in
  let manifest := bundle_manifest job attempt request_bytes plan_bytes launch_token in
  of_result (fail_if (negb (String.eqb (bm_launch_token_digest manifest)
                                       (att_launch_token_digest attempt))
                      || negb (String.eqb (bm_plan_digest manifest) (job_execution_plan_digest job)))
    (registry_corrupt "reconstructed bundle identity does not match Registry" "attemptId")) ;;
  store_bundle attempt request_bytes plan_bytes (bundle_manifest_to_json manifest).
End bundle.
