(* ===== verification/Dispatching.v ===== *)
(** * Dispatch

    [engine/execution.rs]: what was committed at admission is verified again,
    the bundle is published, the dispatch is recorded, and only then a process
    is started, once. *)

From S2P Require Import Prelude Text Errors Types Supervisor Platform Validation Submit Store.
From S2P Require Import Transaction Projection Lifecycle Admission Recovery Registry Query.
From S2P Require Import Effects Utf8 Engine Linux Launch Inputs Binding Output Evidence.
From S2P Require Import Observation Reconciliation Bundle.

#[local] Open Scope Z_scope.

(** [{:?}] of a provider: digests and distributions hold nothing to escape. *)
Definition debug_provider (provider : ExecutionProviderSnapshot) : string :=
  let quote := String (Ascii.ascii_of_N 34) EmptyString in
  "ExecutionProviderSnapshot { contract: "
  +:+ match eps_contract provider with
      | ExecutionProviderContract.LocalLinuxRunnerV1 => "LocalLinuxRunnerV1"
      | ExecutionProviderContract.WindowsNativeLauncherV1 => "WindowsNativeLauncherV1"
      end
  +:+ ", executable_digest: " +:+ quote +:+ eps_executable_digest provider +:+ quote
  +:+ ", wsl_distribution: " +:+ debug_option (eps_wsl_distribution provider) +:+ " }".

#[export] Instance provider_eq_dec : EqDecision ExecutionProviderSnapshot.
Proof. solve_decision. Defined.

Section dispatching.
Context `{P : Platform, C : EngineCodec}.
Context (rt : Runtime).

(** ** What was committed still holds *)

Definition current_execution_provider_snapshot (target : ExecutionTarget.t)
    : eff ExecutionProviderSnapshot :=
  match target with
  | ExecutionTarget.LocalLinux =>
      of_result (fail_if (negb (rt_linux_node rt))
        (error_new ToolUnavailable
           "local_linux execution is available only on a Linux Runtime node"
           (Some "execution.executionTarget"%string) false)) ;;
      runner_path ← of_result (ok_or
        (error_new ToolUnavailable "local_linux runner is not configured on this Runtime node"
           (Some "runnerPath"%string) false) (rt_runner_path rt));
      runner ← validate_runner runner_path;
      digest ← try_map map_universal_error (Sha256File runner);
      mret {| eps_contract := ExecutionProviderContract.LocalLinuxRunnerV1;
              eps_executable_digest := digest;
              eps_wsl_distribution := None |}
  | ExecutionTarget.WindowsNative =>
      windows ← of_result (ok_or
        (invalid "windows_native target is not configured on this Runtime"
           "execution.executionTarget") (rt_windows_config rt));
      validate_windows_config rt windows ;;
      launcher ← try_map (io_error "canonicalize Windows execution provider launcher")
                   (Canonicalize (wx_launcher_path windows));
      digest ← try_map map_universal_error (Sha256File launcher);
      mret {| eps_contract := ExecutionProviderContract.WindowsNativeLauncherV1;
              eps_executable_digest := digest;
              eps_wsl_distribution := None |}
  end.

Definition verify_committed_execution_provider (job_id : string) : eff unit :=
  plan ← registry (GetExecutionPlan job_id);
  expected ← registry (GetExecutionProvider job_id);
  match expected with
  | None => mret tt
  | Some expected =>
      observed ← current_execution_provider_snapshot (plan_execution_target plan);
      of_result (fail_if (observed != expected)
        (error_new ProviderStateMismatch
           ("execution provider changed after operation admission: expected "
            +:+ debug_provider expected +:+ ", observed " +:+ debug_provider observed)
           (Some "executionProvider"%string) false))
  end.

Definition verify_host_dependency (binding : HostDependencyBinding) : eff unit :=
  let path := hd_path binding in
  kind ← try_map (fun error => state_mismatch
           ("committed Host Dependency " +:+ path +:+ " is unavailable before dispatch: "
            +:+ io_text error) "hostDependencies") (SymlinkMetadata path);
  of_result (fail_if (negb (is_regular kind))
    (state_mismatch ("committed Host Dependency " +:+ path
                     +:+ " is not a regular non-symlink file") "hostDependencies")) ;;
  observed ← try_map map_universal_error (Sha256File path);
  of_result (fail_if (negb (String.eqb observed (hd_expected_digest binding)))
    (state_mismatch ("committed Host Dependency " +:+ path
                     +:+ " changed after admission: expected " +:+ hd_expected_digest binding
                     +:+ ", observed " +:+ observed) "hostDependencies")).

Definition verify_committed_host_dependencies (job_id : string) : eff unit :=
  bindings ← registry (GetHostDependencies job_id);
  fold_eff (fun _ binding => verify_host_dependency binding) tt bindings.

(** ** The start *)

Definition runner_not_configured : RuntimeError :=
  error_new ToolUnavailable "local_linux runner is not configured on this Runtime node"
    (Some "runnerPath"%string) false.

(** The input set of the Job, verified once more. *)
Definition dispatch_inputs (job_id : string) (plan : RuntimeExecutionPlan) : eff (option string) :=
  match plan_input_set_id plan with
  | None => mret None
  | Some _ =>
      ensure_job_input_ownership rt job_id ;;
      let path := job_input_path rt job_id in
      requests ← of_result (effective_input_requests_from_plan plan);
      verify_effective_input_set path requests ;;
      mret (Some path)
  end.

Definition dispatch_credentials (job_id : string) (plan : RuntimeExecutionPlan)
    : eff (option string * list string) :=
  match plan_credential_set_id plan with
  | None => mret (None, [])
  | Some credential_set_id =>
      ensure_job_credential_ownership rt job_id ;;
      let path := job_credential_path rt job_id in
      names ← verify_credential_snapshot path credential_set_id;
      mret (Some path, names)
  end.

(** The [LocalLinux] arm up to the command. *)
Definition linux_run_spec (starting : AttemptRecord) (plan : RuntimeExecutionPlan)
    (bundle_path : string) : eff SystemdRunSpec :=
  runner_path ← of_result (ok_or runner_not_configured (rt_runner_path rt));
  runner ← validate_runner runner_path;
  input_set_path ← dispatch_inputs (att_job_id starting) plan;
  '(credential_source_root, credential_names) ← dispatch_credentials (att_job_id starting) plan;
  mret {| srs_unit_name := att_unit_name starting;
          srs_runner := runner;
          srs_bundle_path := bundle_path;
          srs_workspace_path := plan_workspace_path plan;
          srs_workspace_git_common_dir := plan_workspace_git_common_dir plan;
          srs_input_set_path := input_set_path;
          srs_credential_source_root := credential_source_root;
          srs_credential_names := credential_names;
          srs_runtime_ceiling_ms := saturating_add (plan_timeout_ms plan) 5000;
          srs_budget := plan_budget plan;
          srs_execution_profile := plan_execution_profile plan;
          srs_environment := plan_env plan |}.

(** The committed identity of an [active_user] execution. *)
Definition active_user_context (plan : RuntimeExecutionPlan) : option WindowsExecutionContext :=
  if plan_windows_authority plan == WindowsAuthority.ActiveUser
  then plan_windows_execution_context plan else None.

(** The [WindowsNative] arm up to the call of [spawn_windows_native]. *)
Definition windows_run_spec (starting : AttemptRecord) (plan : RuntimeExecutionPlan)
    (bundle_path : string) : eff WindowsNativeRunSpec :=
  of_result (committed_windows rt) ;;
  input_source_root ← dispatch_inputs (att_job_id starting) plan;
  input_presentation_root ← of_result
    match plan_effective_inputs plan with
    | [] => Ok None
    | _ => Some <$> required_environment_value_case_insensitive (plan_env plan)
                      "ORDIVON_INPUT_ROOT" "executionPlan.env"
    end;
  request_digest ← try_map map_universal_error (Sha256File (path_join bundle_path RUNNER_REQUEST_FILE));
  mret {| wns_bundle_path := bundle_path;
          wns_job_id := att_job_id starting;
          wns_attempt_id := att_attempt_id starting;
          wns_launch_token_digest := att_launch_token_digest starting;
          wns_request_digest := request_digest;
          wns_authority := plan_windows_authority plan;
          wns_expected_privileged_broker_digest :=
            plan_windows_execution_context plan ≫= wec_privileged_broker_digest;
          wns_expected_user_sid := wec_token_user_sid <$> active_user_context plan;
          wns_expected_session_id := active_user_context plan ≫= wec_session_id;
          wns_executable := plan_executable plan;
          wns_args := plan_args plan;
          wns_cwd := plan_cwd plan;
          wns_environment := plan_env plan;
          wns_input_source_root := input_source_root;
          wns_input_set_id := plan_input_set_id plan;
          wns_input_presentation_root := input_presentation_root;
          wns_input_bindings_digest :=
            match plan_effective_inputs plan with
            | [] => None
            | inputs => Some (windows_input_bindings_digest inputs)
            end;
          wns_budget := plan_budget plan;
          wns_timeout_ms := plan_timeout_ms plan;
          wns_stdout_limit_bytes := plan_stdout_limit_bytes plan;
          wns_stderr_limit_bytes := plan_stderr_limit_bytes plan |}.

(** The parent records which launcher it has spawned. *)
Definition bind_native_windows_dispatch_owner (attempt : AttemptRecord)
    (dispatch : WindowsNativeLaunchObservation) : eff AttemptRecord :=
  provider ← committed_provider (att_job_id attempt);
  of_result (fail_if (negb (windows_provider_contract provider))
    (registry_corrupt
       "native Windows dispatch owner does not match the committed execution provider"
       "executionProvider")) ;;
  observed_unix_ms ← try NowMs;
  request_digest ← try_map map_universal_error (Sha256File (runner_request_path attempt));
  write_bytes_synced (bundle_file attempt WINDOWS_LAUNCHER_START_FILE)
    (windows_launcher_start_to_json
      {| wls_schema_version := RUNTIME_SCHEMA_VERSION;
         wls_job_id := att_job_id attempt;
         wls_attempt_id := att_attempt_id attempt;
         wls_launch_token_digest := att_launch_token_digest attempt;
         wls_request_digest := request_digest;
         wls_job_name := job_name_of attempt;
         wls_launcher_process_id := wnl_launcher_process_id dispatch;
         wls_launcher_process_creation_time_file_time :=
           wnl_launcher_process_creation_time_file_time dispatch;
         wls_launcher_image_digest := eps_executable_digest provider;
         wls_observed_unix_ms := observed_unix_ms |}) ;;
  '(validated, start_digest) ← validate_windows_launcher_start_evidence rt attempt;
  registry (BindSupervisorOwner (att_attempt_id attempt) (att_row_version attempt)
    (WindowsLauncherV1 (wls_launcher_process_id validated)
       (wls_launcher_process_creation_time_file_time validated)
       (wls_launcher_image_digest validated) (wls_job_name validated) start_digest)
    (wls_observed_unix_ms validated)).

(** A result that has appeared is reconciled instead of reporting the error. *)
Definition result_or_error (attempt : AttemptRecord) (error : RuntimeError) : eff unit :=
  result ← ask (PathExists (bundle_file attempt RESULT_FILE));
  if result : bool then reconcile_runner_result rt attempt else throw error.

(** The loop of [await_launch_evidence]; [polls] is how often it may still wait. *)
Fixpoint await_loop (attempt : AttemptRecord) (target : ExecutionTarget.t) (polls : nat)
    : eff unit :=
  result ← ask (PathExists (bundle_file attempt RESULT_FILE));
  if result : bool then reconcile_runner_result rt attempt
  else
    started ← ask (PathExists (bundle_file attempt (start_file target)));
    if negb started then
      match polls with
      | S polls' => await_loop attempt target polls'
      | O => reconcile_attempt rt (att_attempt_id attempt)
      end
    else
      catch (bind_attempt_start rt attempt target) (fun bound =>
        match bound with
        | Ok _ => mret tt
        | Err error =>
            if transient_main_pid_observation_loss error then
              result ← ask (PathExists (bundle_file attempt RESULT_FILE));
              if result : bool then reconcile_runner_result rt attempt
              else
                current ← registry (GetAttempt (att_attempt_id attempt));
                if (att_row_version current != att_row_version attempt)
                   || (att_state current != att_state attempt) then
                  result ← ask (PathExists (bundle_file current RESULT_FILE));
                  if result : bool then reconcile_runner_result rt current else mret tt
                else
                  match polls with
                  | S polls' => await_loop attempt target polls'
                  | O => throw error
                  end
            else if err_code error == LaunchIdentityMismatch then result_or_error attempt error
            else throw error
        end).

Definition await_launch_evidence (attempt : AttemptRecord) : eff unit :=
  deadline ← ask (StartupDeadline (rt_startup_grace_ms rt));
  polls ← of_result (ok_or
    (invalid "startupGraceMs exceeds platform monotonic clock range" "startupGraceMs") deadline);
  plan ← registry (GetExecutionPlan (att_job_id attempt));
  await_loop attempt (plan_execution_target plan) polls.

Definition start_failed (starting : AttemptRecord) (detail : string) : eff unit :=
  commit_control_terminal rt starting AttemptState.Failed "RUNNER_START_FAILED" (Some detail) ;;
  mret tt.

(** The [match plan.execution_target] of [dispatch_attempt]. *)
Definition start_linux (starting : AttemptRecord) (plan : RuntimeExecutionPlan)
    (bundle_path : string) : eff unit :=
  spec ← linux_run_spec starting plan bundle_path;
  output ← systemd_run spec;
  if negb (out_success output)
  then start_failed starting ("local_linux launch failed: "
                              +:+ str_trim (from_utf8_lossy (out_stderr output)))
  else await_launch_evidence starting.

Definition start_windows (starting : AttemptRecord) (plan : RuntimeExecutionPlan)
    (bundle_path : string) : eff unit :=
  spec ← windows_run_spec starting plan bundle_path;
  catch (try (SpawnWindowsNative spec)) (fun spawned =>
    match spawned with
    | Err error =>
        start_failed starting ("native Windows launcher spawn failed: " +:+ err_message error)
    | Ok dispatch =>
        bound ← bind_native_windows_dispatch_owner starting dispatch;
        await_launch_evidence bound
    end).

Definition dispatch_attempt (attempt : AttemptRecord) : eff unit :=
  now ← try NowMs;
  starting ← registry (MarkDispatchIssued (att_attempt_id attempt) (att_row_version attempt) now);
  plan ← registry (GetExecutionPlan (att_job_id starting));
  bundle_path ← try_map map_universal_error
    (CanonicalDirectory (att_bundle_path starting) "bundlePath");
  match plan_execution_target plan with
  | ExecutionTarget.LocalLinux => start_linux starting plan bundle_path
  | ExecutionTarget.WindowsNative => start_windows starting plan bundle_path
  end.

(** ** [ensure_attempt_dispatched] *)

(** A precondition that drifted fails the Attempt; any other error is returned. *)
Definition or_drift (check : eff unit) (drifted : RuntimeErrorCode -> bool) (reason_code : string)
    (attempt : AttemptRecord) (go_on : eff unit) : eff unit :=
  catch check (fun checked =>
    match checked with
    | Ok _ => go_on
    | Err error =>
        if drifted (err_code error) then
          commit_control_terminal rt attempt AttemptState.Failed reason_code
            (Some (error_to_string error)) ;;
          mret tt
        else throw error
    end).

Definition provider_drifted (code : RuntimeErrorCode) : bool := code == ProviderStateMismatch.
Definition dependency_drifted (code : RuntimeErrorCode) : bool :=
  (code == WorkspaceStateMismatch) || (code == InvalidRequest).
Definition input_drifted (code : RuntimeErrorCode) : bool :=
  (code == ReconciliationRequired) || (code == WorkspaceStateMismatch).

(** [materialize_bundle] with its one retry. *)
Definition materialize_or_follow (attempt : AttemptRecord) : eff AttemptRecord :=
  catch (materialize_bundle rt attempt) (fun materialized =>
    match materialized with
    | Ok current => mret current
    | Err error =>
        if err_code error == AttemptStateConflict then
          current ← registry (GetAttempt (att_attempt_id attempt));
          if negb (present (att_bundle_digest current)) && (att_state current == AttemptState.Accepted)
          then materialize_bundle rt current else mret current
        else throw error
    end).

(** The states of an Attempt that was dispatched and has not ended. *)
Definition in_flight (state : AttemptState.t) : bool :=
  match state with
  | AttemptState.Starting | AttemptState.Running | AttemptState.Stopping
  | AttemptState.Recovering => true
  | _ => false
  end.

(** The [match attempt.state] at the end. *)
Definition dispatch_or_reconcile (attempt : AttemptRecord) : eff unit :=
  if att_state attempt == AttemptState.Accepted then
    catch (dispatch_attempt attempt) (fun dispatched =>
      match dispatched with
      | Ok _ => mret tt
      | Err error =>
          if err_code error == AttemptStateConflict then
            current ← registry (GetAttempt (att_attempt_id attempt));
            if in_flight (att_state current) then reconcile_attempt rt (att_attempt_id current)
            else if AttemptState.is_terminal (att_state current) then mret tt
            else throw error
          else throw error
      end)
  else if in_flight (att_state attempt) then reconcile_attempt rt (att_attempt_id attempt)
  else mret tt.

Definition ensure_attempt_dispatched (attempt : AttemptRecord) : eff unit :=
  or_drift (verify_committed_execution_provider (att_job_id attempt)) provider_drifted
    "EXECUTION_PROVIDER_PRECONDITION_DRIFT" attempt
  (or_drift (verify_committed_host_dependencies (att_job_id attempt)) dependency_drifted
     "HOST_DEPENDENCY_PRECONDITION_DRIFT" attempt
  (or_drift (ensure_job_input_ownership rt (att_job_id attempt)) input_drifted
     "INPUT_PRECONDITION_DRIFT" attempt
  (attempt ← (if present (att_bundle_digest attempt) then mret attempt
              else materialize_or_follow attempt);
   dispatch_or_reconcile attempt))).

Definition ensure_newly_admitted_job_dispatched (job_id : string) : eff unit :=
  latest ← registry (GetLatestAttempt job_id);
  attempt ← of_result (ok_or (registry_corrupt "newly admitted Job has no Attempt" "jobId") latest);
  if att_state attempt == AttemptState.Accepted then
    catch (ensure_attempt_dispatched attempt) (fun dispatched =>
      of_result (map_err (with_operation_id job_id) dispatched))
  else mret tt.
End dispatching.
