(* ===== verification/Materials.v ===== *)
(** * Inputs and credentials of a Job

    [materialize_input_bindings] and [materialize_credential_bindings] of
    [engine/execution.rs], and [reconcile_prepared_input_sets] and
    [reconcile_prepared_credential_sets] of [engine/reconciliation.rs]: bytes are
    copied to a staging directory under a lease, published by one rename, adopted
    by the Job that commits to them, and collected when nobody does. *)

From S2P Require Import Prelude Text Errors Types Supervisor Platform Validation Submit Store.
From S2P Require Import Transaction Projection Lifecycle Admission Recovery Registry Query Effects.
From S2P Require Import Utf8 Engine Linux Inputs Binding.

#[local] Open Scope Z_scope.

Definition STALE_PREPARED_INPUT_AGE_MS : Z := 60000.

Record PreparedInputSet : Type := {
  pis_input_set_id : string;
  pis_prepared_root : string;
  pis_effective_inputs : list EffectiveInputBinding;
}.

Record PreparedCredentialSet : Type := {
  pcs_credential_set_id : string;
  pcs_prepared_root : string;
}.

(** [std::io::Error::from(ErrorKind::WouldBlock)] *)
Definition would_block : IoFailure := {|
  io_text := "operation would block"; io_interrupted := false; io_not_found := false;
  io_already_exists := false; io_storage_full := false |}.

(** [let _ = ..] of a call *)
Definition ignore {R} (c : call R) : eff unit := ask c ;; mret tt.

(** [sync_directory(path)?] of [engine.rs] *)
Definition sync_directory (path : string) : eff unit :=
  try_map map_universal_error (SyncDirectory path).

(** [copy_input_and_digest] *)
Definition copy_input_and_digest (target : string) : eff string :=
  try_map (io_error "create materialized input") (CreateNewMode target 384) ;;
  try_map (io_error "copy input object") (CopyOpened target) ;;
  try_map (io_error "sync materialized input") (SyncFile target) ;;
  try_map map_universal_error (Sha256File target).

(** The words in which the two kinds of set differ. *)
Record SetWords : Type := {
  sw_root : string;
  sw_lease : string;
  sw_lock : string;
  sw_staging : string;
  sw_protect : string;
  sw_publish : string;
  sw_taken : string;
}.

Definition input_words : SetWords := {|
  sw_root := "create input materialization root";
  sw_lease := "create input staging lease";
  sw_lock := "lock input staging lease";
  sw_staging := "create input staging directory";
  sw_protect := "protect input staging directory";
  sw_publish := "publish prepared immutable input set";
  sw_taken := "preallocated immutable input identity already has physical state" |}.

Definition credential_words : SetWords := {|
  sw_root := "create credential materialization root";
  sw_lease := "create credential staging lease";
  sw_lock := "lock credential staging lease";
  sw_staging := "create credential staging directory";
  sw_protect := "protect credential staging directory";
  sw_publish := "publish prepared encrypted credential snapshot set";
  sw_taken := "preallocated encrypted credential snapshot identity already has physical state" |}.

(** The frame of both materializations: [fill] copies into the staging directory,
    [finish] reads the published one back. *)
Definition materialize {A} (words : SetWords) (root owned_root job_id : string)
    (fill : string -> eff unit) (finish : string -> eff A) : eff A :=
  try_map (io_error (sw_root words)) (CreateDirAll root) ;;
  let prepared_root := path_join root job_id in
  prepared ← ask (PathExists prepared_root);
  owned ← (if prepared : bool then mret true else ask (PathExists owned_root));
  if owned : bool then throw (error_new RegistryCorrupt (sw_taken words) (Some "jobId"%string) false)
  else
    let lease_path := path_join root ("." +:+ job_id +:+ ".lease") in
    try_map (io_error (sw_lease words)) (CreateNewMode lease_path 384) ;;
    locked ← ask (TryLockFile lease_path);
    match locked with
    | Err failure =>
        ignore (RemoveFile lease_path) ;;
        throw (io_error (sw_lock words) (default would_block failure))
    | Ok _ =>
        uuid ← ask FreshUuid;
        let staging := path_join root ("." +:+ job_id +:+ ".staging-" +:+ uuid) in
        catch (try_map (io_error (sw_staging words)) (CreateDir staging) ;;
               try_map (io_error (sw_protect words)) (SetMode staging 448) ;;
               fill staging ;;
               sync_directory staging ;;
               try_map map_universal_error (RenameDurable staging prepared_root false (sw_publish words)) ;;
               finish prepared_root)
          (fun outcome =>
             (if is_ok outcome then mret tt
              else ignore (RemoveDirAll staging) ;; ignore (RemoveDirAll prepared_root)) ;;
             ignore (RemoveFile lease_path) ;;
             ignore (SyncDirectory root) ;;
             of_result outcome)
    end.

Section materials.
Context `{P : Platform, C : EngineCodec}.
Context (rt : Runtime).

(** ** Inputs *)

(** One input of the loop. *)
Definition materialize_input (staging : string) (index : nat) (input : InputBindingRequest) : eff unit :=
  let field suffix := field_at "inputs" index +:+ suffix in
  of_result (fail_if (negb (existsb (String.eqb (ibr_authority input)) (rt_input_authorities rt)))
    (invalid ("unknown input authority " +:+ ibr_authority input) (field ".authority"))) ;;
  object ← of_result (validate_normal_relative_path (ibr_relative_object input) (field ".relativeObject"));
  try_map (fun error => invalid ("cannot resolve input object inside authority: " +:+ io_text error)
                          (field ".relativeObject"))
    (OpenBeneath (ibr_authority input) object) ;;
  let target := path_join staging (ibr_presentation_relative_path input) in
  match path_parent target with
  | Some parent => try_map (io_error "create input presentation tree") (CreateDirAll parent)
  | None => mret tt
  end ;;
  observed_digest ← copy_input_and_digest target;
  of_result (fail_if (negb (String.eqb observed_digest (ibr_expected_digest input)))
    (invalid "materialized input digest does not match the caller commitment"
       (field ".expectedDigest"))) ;;
  try_map (io_error "protect materialized input") (SetMode target 292).

(** [for (index, x) in l.iter().enumerate()] *)
Fixpoint for_indexed {A} (f : nat -> A -> eff unit) (index : nat) (l : list A) : eff unit :=
  match l with
  | [] => mret tt
  | x :: rest => f index x ;; for_indexed f (S index) rest
  end.

Definition input_set_id_of (request : JobRunRequest) (request_identity_digest : string) : string :=
  sha256_hex (run_principal request +:+ nul +:+ run_client_request_id request +:+ nul
              +:+ request_identity_digest).

Definition materialize_input_bindings (request : JobRunRequest)
    (request_identity_digest job_id : string) (inputs : list InputBindingRequest)
    : eff PreparedInputSet :=
  materialize input_words (input_materializations_root rt) (job_input_path rt job_id) job_id
    (fun staging => for_indexed (materialize_input staging) 0 inputs)
    (fun prepared_root =>
       effective_inputs ← verify_effective_input_set prepared_root inputs;
       mret {| pis_input_set_id := input_set_id_of request request_identity_digest;
               pis_prepared_root := prepared_root;
               pis_effective_inputs := effective_inputs |}).

(** ** Credentials *)

Definition materialize_credential (principal staging : string) (index : nat)
    (credential : CredentialBindingRequest) : eff unit :=
  let field suffix := field_at "credentials" index +:+ suffix in
  allowed_principals ← of_result (ok_or
    (invalid "credential authority is unavailable" (field ".authority"))
    (rt_credential_authorities rt !! cbr_authority credential));
  of_result (fail_if (negb (existsb (String.eqb principal) allowed_principals))
    (error_new InvalidRequest "authenticated principal is not authorized for credential authority"
       (Some (field ".authority")) false)) ;;
  of_result (validate_credential_name (cbr_credential credential) (field ".credential")) ;;
  try_map (fun _ => invalid "credential is unavailable from the selected authority" (field ".credential"))
    (OpenBeneath (cbr_authority credential) (cbr_credential credential)) ;;
  let target := path_join staging (cbr_credential credential) in
  copy_input_and_digest target ;;
  try_map (io_error "protect encrypted credential snapshot") (SetMode target 256).

Definition materialize_credential_bindings (request : JobRunRequest) (job_id : string)
    (credentials : list CredentialBindingRequest) : eff PreparedCredentialSet :=
  materialize credential_words (credential_materializations_root rt) (job_credential_path rt job_id) job_id
    (fun staging => for_indexed (materialize_credential (run_principal request) staging) 0 credentials)
    (fun prepared_root =>
       '(credential_set_id, _) ← inspect_credential_snapshot prepared_root;
       mret {| pcs_credential_set_id := credential_set_id; pcs_prepared_root := prepared_root |}).

(** ** Collection *)

(** [now.duration_since(modified).is_some_and(|age| age.as_millis() >= stale_age_ms)] *)
Definition old_enough (now stale_age_ms : Z) (metadata : FileMetadata) : bool :=
  let modified := md_mtime metadata * 1000000000 + md_mtime_nsec metadata in
  (modified <=? now) && (stale_age_ms <=? (now - modified) / 1000000).

Definition is_dir (metadata : FileMetadata) : bool := is_directory (md_kind metadata).

(** [name.to_str().filter(|id| id.starts_with("job-"))] *)
Definition job_name (name : string) : option string :=
  if negb (present (from_utf8_error name)) && starts_with "job-" name then Some name else None.

(** The Job of [.<job>.lease] *)
Definition lease_job (name : string) : option string :=
  if present (from_utf8_error name) then None
  else
    rest ← strip_prefix "." name;
    if ends_with ".lease" rest
    then job_name (str_take (String.length rest - 6) rest) else None.

(** [for entry in fs::read_dir(root)? { let entry = entry?; .. }] *)
Definition for_entries (enumerate read root : string) (f : string -> eff unit) : eff unit :=
  listing ← try_map (io_error enumerate) (ReadDir root);
  fold_eff (fun _ entry => name ← of_result (map_err (io_error read) entry); f name) tt listing.

(** The directories of Jobs below a root, with their metadata. *)
Definition for_job_directories (enumerate read inspect root : string)
    (f : string -> FileMetadata -> eff unit) : eff unit :=
  for_entries enumerate read root (fun name =>
    metadata ← try_map (io_error inspect) (Metadata (path_join root name) false);
    if negb (is_dir metadata) then mret tt
    else match job_name name with Some job_id => f job_id metadata | None => mret tt end).

Definition is_job_not_found (error : RuntimeError) : bool := err_code error == JobNotFound.

Definition stored_plan (job : RuntimeJobRecord) : RuntimeResult RuntimeExecutionPlan :=
  map_err (fun error => error_new RegistryCorrupt ("stored execution plan is invalid: " +:+ error)
             (Some "executionPlan"%string) false) (plan_of_json (job_execution_plan_json job)).

(** One staging directory that nobody fills any more. *)
Definition remove_abandoned (kind root prefix name : string) : eff unit :=
  if negb (present (from_utf8_error name)) && starts_with prefix name then
    metadata ← ask (Metadata (path_join root name) false);
    if match metadata with Ok metadata => is_dir metadata | Err _ => false end
    then try_map (io_error ("remove abandoned " +:+ kind +:+ " staging directory"))
           (RemoveDirAll (path_join root name))
    else mret tt
  else mret tt.

(** The second loop: leases that nobody holds, with what they guarded. *)
Definition collect_leases (kind root : string) (now stale_age_ms : Z) : eff unit :=
  for_entries ("enumerate " +:+ kind +:+ " staging leases")
    ("read " +:+ kind +:+ " staging lease entry") root (fun name =>
    match lease_job name with
    | None => mret tt
    | Some job_id =>
        let path := path_join root name in
        metadata ← try_map (io_error ("inspect " +:+ kind +:+ " staging lease")) (Metadata path false);
        if negb (is_regular (md_kind metadata)) || negb (old_enough now stale_age_ms metadata)
        then mret tt
        else
          opened ← ask (OpenReadWrite path);
          locked ← (if is_ok opened then locked ← ask (TryLockFile path); mret (is_ok locked)
                    else mret false);
          if negb locked then mret tt
          else
            for_entries ("enumerate abandoned " +:+ kind +:+ " staging directories")
              ("read abandoned " +:+ kind +:+ " staging entry") root
              (remove_abandoned kind root ("." +:+ job_id +:+ ".staging-")) ;;
            try_map (io_error ("remove abandoned " +:+ kind +:+ " staging lease")) (RemoveFile path) ;;
            sync_directory root
    end).

(** A prepared input set: adopted by the Job that commits to it, or collected. *)
Definition reconcile_prepared_input (root : string) (now stale_age_ms : Z) (job_id : string)
    (metadata : FileMetadata) : eff unit :=
  catch (registry (GetJob job_id)) (fun job =>
    match job with
    | Ok job =>
        plan ← of_result (stored_plan job);
        match plan_effective_inputs plan, plan_input_set_id plan with
        | _ :: _, Some _ => catch (ensure_job_input_ownership rt job_id) (fun _ => mret tt)
        | _, _ => mret tt
        end
    | Err error =>
        if negb (is_job_not_found error) then throw error
        else if old_enough now stale_age_ms metadata
        then discard_prepared_input_set (path_join root job_id) else mret tt
    end).

Definition reconcile_prepared_input_sets (stale_age_ms : Z) : eff unit :=
  let root := input_materializations_root rt in
  try_map (io_error "create input materialization root") (CreateDirAll root) ;;
  now ← ask SystemTimeNanos;
  for_job_directories "enumerate prepared input sets" "read prepared input set entry"
    "inspect prepared input set" root (reconcile_prepared_input root now stale_age_ms) ;;
  collect_leases "input" root now stale_age_ms.

Definition reconcile_prepared_credential (root : string) (now stale_age_ms : Z) (job_id : string)
    (metadata : FileMetadata) : eff unit :=
  catch (registry (GetJob job_id)) (fun job =>
    match job with
    | Ok job =>
        if present (job_resolution job) then discard_prepared_credential_set (path_join root job_id)
        else
          plan ← of_result (stored_plan job);
          if present (plan_credential_set_id plan)
          then catch (ensure_job_credential_ownership rt job_id) (fun _ => mret tt) else mret tt
    | Err error =>
        if negb (is_job_not_found error) then throw error
        else if old_enough now stale_age_ms metadata
        then discard_prepared_credential_set (path_join root job_id) else mret tt
    end).

(** What a Job owned and needs no more. *)
Definition retire_credentials (root : string) (now stale_age_ms : Z) (job_id : string)
    (metadata : FileMetadata) : eff unit :=
  let remove context :=
    try_map (io_error context) (RemoveDirAll (path_join root job_id)) ;; sync_directory root in
  catch (registry (GetJob job_id)) (fun job =>
    match job with
    | Ok job =>
        if present (job_resolution job) then remove "retire resolved Job encrypted credentials"%string
        else mret tt
    | Err error =>
        if negb (is_job_not_found error) then throw error
        else if old_enough now stale_age_ms metadata
        then remove "remove unowned Job encrypted credentials"%string else mret tt
    end).

Definition reconcile_prepared_credential_sets (stale_age_ms : Z) : eff unit :=
  let root := credential_materializations_root rt in
  try_map (io_error "create credential materialization root") (CreateDirAll root) ;;
  now ← ask SystemTimeNanos;
  for_job_directories "enumerate prepared credential sets" "read prepared credential set entry"
    "inspect prepared credential set" root (reconcile_prepared_credential root now stale_age_ms) ;;
  let owned_root := job_credentials_root rt in
  try_map (io_error "create Job credential ownership root") (CreateDirAll owned_root) ;;
  for_job_directories "enumerate Job-owned encrypted credentials"
    "read Job-owned encrypted credential entry" "inspect Job-owned encrypted credential set" owned_root
    (retire_credentials owned_root now stale_age_ms) ;;
  collect_leases "credential" root now stale_age_ms.
End materials.
