(* ===== verification/Passes.v ===== *)
(** * Passes and cancelling

    [engine/reconciliation.rs]: what a reconciliation pass does with each
    candidate; [engine/control_query.rs]: [job.cancel]. *)

From S2P Require Import Prelude Text Errors Types Supervisor Platform Validation Submit Store.
From S2P Require Import Transaction Projection Lifecycle Admission Recovery Registry Query.
From S2P Require Import Effects Utf8 Engine Linux Launch Inputs Binding Output Evidence.
From S2P Require Import Observation Reconciliation Bundle Dispatching Materials.

(** ** Reconciliation passes

    [engine/reconciliation.rs]: the passes over many Attempts with their
    report, the reconciliation of one Job, and [observe_job]. *)

#[local] Open Scope Z_scope.

Record ReconciliationFailure : Type := {
  rf_attempt_id : string;
  rf_job_id : string;
  rf_code : RuntimeErrorCode;
  rf_message : string;
}.

Record ReconciliationReport : Type := {
  rep_inspected : Z;
  rep_reconciled : Z;
  rep_recovered_orphans : Z;
  rep_quarantined : Z;
  rep_unchanged : Z;
  rep_failed : Z;
  rep_failures : list ReconciliationFailure;
}.

(** [ReconciliationReport::default()] *)
Definition empty_report : ReconciliationReport := {|
  rep_inspected := 0; rep_reconciled := 0; rep_recovered_orphans := 0; rep_quarantined := 0;
  rep_unchanged := 0; rep_failed := 0; rep_failures := [] |}.

(** [report.inspected += 1] and the other counters *)
Definition count_inspected (report : ReconciliationReport) : ReconciliationReport :=
  {| rep_inspected := rep_inspected report + 1;
     rep_reconciled := rep_reconciled report;
     rep_recovered_orphans := rep_recovered_orphans report;
     rep_quarantined := rep_quarantined report;
     rep_unchanged := rep_unchanged report;
     rep_failed := rep_failed report;
     rep_failures := rep_failures report |}.
Definition count_reconciled (report : ReconciliationReport) : ReconciliationReport :=
  {| rep_inspected := rep_inspected report;
     rep_reconciled := rep_reconciled report + 1;
     rep_recovered_orphans := rep_recovered_orphans report;
     rep_quarantined := rep_quarantined report;
     rep_unchanged := rep_unchanged report;
     rep_failed := rep_failed report;
     rep_failures := rep_failures report |}.
Definition count_recovered_orphans (report : ReconciliationReport) : ReconciliationReport :=
  {| rep_inspected := rep_inspected report;
     rep_reconciled := rep_reconciled report;
     rep_recovered_orphans := rep_recovered_orphans report + 1;
     rep_quarantined := rep_quarantined report;
     rep_unchanged := rep_unchanged report;
     rep_failed := rep_failed report;
     rep_failures := rep_failures report |}.
Definition count_quarantined (report : ReconciliationReport) : ReconciliationReport :=
  {| rep_inspected := rep_inspected report;
     rep_reconciled := rep_reconciled report;
     rep_recovered_orphans := rep_recovered_orphans report;
     rep_quarantined := rep_quarantined report + 1;
     rep_unchanged := rep_unchanged report;
     rep_failed := rep_failed report;
     rep_failures := rep_failures report |}.
Definition count_unchanged (report : ReconciliationReport) : ReconciliationReport :=
  {| rep_inspected := rep_inspected report;
     rep_reconciled := rep_reconciled report;
     rep_recovered_orphans := rep_recovered_orphans report;
     rep_quarantined := rep_quarantined report;
     rep_unchanged := rep_unchanged report + 1;
     rep_failed := rep_failed report;
     rep_failures := rep_failures report |}.
Definition count_failed (failure : ReconciliationFailure) (report : ReconciliationReport) : ReconciliationReport :=
  {| rep_inspected := rep_inspected report;
     rep_reconciled := rep_reconciled report;
     rep_recovered_orphans := rep_recovered_orphans report;
     rep_quarantined := rep_quarantined report;
     rep_unchanged := rep_unchanged report;
     rep_failed := rep_failed report + 1;
     rep_failures := rep_failures report ++ [failure] |}.

Definition INTERACTIVE_RECONCILIATION_LIMIT : Z := 32.

Section passes.
Context `{P : Platform, C : EngineCodec}.
Context (rt : Runtime).

(** ** Batches *)

Definition record_isolated_reconciliation_failure (attempt : AttemptRecord) (error : RuntimeError)
    (report : ReconciliationReport) : eff ReconciliationReport :=
  if is_reconciliation_fatal error then throw error
  else
    now ← try NowMs;
    registry (RecordReconciliationFailure attempt error now) ;;
    mret (count_failed {| rf_attempt_id := att_attempt_id attempt;
                          rf_job_id := att_job_id attempt;
                          rf_code := err_code error;
                          rf_message := err_message error |} report).

Definition count_outcome (before current : AttemptState.t) (changed : bool)
    (report : ReconciliationReport) : ReconciliationReport :=
  if (before == AttemptState.Orphaned) && (changed || (current != AttemptState.Orphaned))
  then count_recovered_orphans report
  else if (current == AttemptState.Orphaned) && (before != AttemptState.Orphaned)
  then count_quarantined report
  else if changed || (current != before) then count_reconciled report
  else count_unchanged report.

(** The [match result] of [reconcile_candidate_into]. *)
Definition finish_candidate (attempt : AttemptRecord) (report : ReconciliationReport)
    (result : RuntimeResult bool) : eff ReconciliationReport :=
  let before := att_state attempt in
  match result with
  | Ok changed =>
      current ← registry (GetAttempt (att_attempt_id attempt));
      let orphan_converged :=
        (before == AttemptState.Orphaned)
        && (changed || (att_state current != AttemptState.Orphaned)) in
      (if (before != AttemptState.Orphaned) || orphan_converged then
         now ← try NowMs;
         registry (ClearReconciliationFailure (att_attempt_id attempt) now)
       else mret tt) ;;
      mret (count_outcome before (att_state current) changed report)
  | Err error => record_isolated_reconciliation_failure attempt error report
  end.

Definition reconcile_candidate_into (report : ReconciliationReport) (attempt : AttemptRecord)
    : eff ReconciliationReport :=
  let finish := finish_candidate attempt (count_inspected report) in
  if att_state attempt == AttemptState.Orphaned then catch (reconcile_orphaned_attempt rt attempt) finish
  else if AttemptState.is_terminal (att_state attempt) then
    now ← try NowMs;
    catch (registry (ConvergeTerminalReservation (att_attempt_id attempt) now)) finish
  else if att_state attempt == AttemptState.Accepted then
    catch (ensure_attempt_dispatched rt attempt ;; mret false) finish
  else catch (reconcile_attempt rt (att_attempt_id attempt) ;; mret false) finish.

Definition reconcile_candidates_into (attempts : list AttemptRecord)
    (report : ReconciliationReport) : eff ReconciliationReport :=
  fold_eff reconcile_candidate_into report attempts.

Definition reconcile_recoverable_orphans_into (report : ReconciliationReport)
    : eff ReconciliationReport :=
  reconcile_prepared_input_sets rt STALE_PREPARED_INPUT_AGE_MS ;;
  reconcile_prepared_credential_sets rt STALE_PREPARED_INPUT_AGE_MS ;;
  attempts ← registry ListHeldOrphaned;
  reconcile_candidates_into attempts report.

Definition reconcile_recoverable_orphans : eff ReconciliationReport :=
  reconcile_recoverable_orphans_into empty_report.

Definition reconcile_all : eff ReconciliationReport :=
  report ← reconcile_recoverable_orphans_into empty_report;
  attempts ← registry ListNonterminal;
  reconcile_candidates_into attempts report.

Definition reconcile_workspace (workspace_id : string) : eff ReconciliationReport :=
  attempts ← registry (ListWorkspaceAttempts workspace_id INTERACTIVE_RECONCILIATION_LIMIT);
  reconcile_candidates_into attempts empty_report.

Definition reconcile_maintenance_batch (limit : Z) : eff ReconciliationReport :=
  reconcile_prepared_credential_sets rt STALE_PREPARED_INPUT_AGE_MS ;;
  attempts ← registry (ListMaintenance limit);
  reconcile_candidates_into attempts empty_report.

(** ** One Job *)

Definition reconcile_job (job_id : string) : eff unit :=
  snapshot ← registry (GetJobSnapshot job_id);
  match job_resolution (snap_job snapshot) with
  | Some resolution =>
      match snap_attempt snapshot with
      | Some attempt =>
          if resolution == JobResolution.Orphaned
          then reconcile_orphaned_attempt rt attempt ;; mret tt else mret tt
      | None => mret tt
      end
  | None =>
      attempt ← of_result (ok_or (corrupt "unresolved Job has no Attempt" "jobId" false)
                             (snap_attempt snapshot));
      if att_state attempt == AttemptState.Accepted then ensure_attempt_dispatched rt attempt
      else reconcile_attempt rt (att_attempt_id attempt)
  end.

(** The loop of [observe_job]. *)
Fixpoint observe_loop (request : JobObserveRequest) (initial : option JobActivitySignature)
    (polls : nat) : eff JobObservation :=
  reconcile_job (jor_job_id request) ;;
  snapshot ← registry (GetJobSnapshot (jor_job_id request));
  signature ← job_activity_signature (snap_attempt snapshot) (snap_projection snapshot);
  let changed := match initial with Some initial => initial != signature | None => false end in
  if jp_result_available (snap_projection snapshot) || (jor_wait_ms request =? 0)
     || (polls =? 0)%nat
     || ((jor_wait_until request == JobObserveWaitUntil.ChangeOrTerminal) && changed)
  then observation_from_snapshot snapshot request
  else
    match polls with
    | S polls' =>
        observe_loop request (match initial with Some _ => initial | None => Some signature end)
          polls'
    | O => observation_from_snapshot snapshot request
    end.

Definition observe_job (request : JobObserveRequest) : eff JobObservation :=
  of_result (validate_observe_request request) ;;
  polls ← ask PollBudget;
  observe_loop request None polls.
End passes.

(** ** Cancelling a Job

    [cancel_job] of [engine/control_query.rs] and what it calls: the intent is
    recorded, the Runner is told by a file in the bundle, the unit is stopped,
    and what is seen within three seconds decides the outcome. *)

#[local] Open Scope Z_scope.

Definition CANCEL_FILE : string := "cancel-requested.json".

Record JobCancelRequest : Type := {
  jcr_schema_version : Z;
  jcr_job_id : string;
}.

(** [cancel_after_launch_identity_mismatch_is_safe] *)
Definition cancel_after_launch_identity_mismatch_is_safe
    (unit_active recorded_pid_alive cgroup_alive : bool) : bool :=
  negb unit_active && negb recorded_pid_alive && negb cgroup_alive.

Definition is_launch_identity_mismatch (error : RuntimeError) : bool :=
  err_code error == LaunchIdentityMismatch.

Section cancelling.
Context `{P : Platform, C : EngineCodec}.
Context (rt : Runtime).

(** [launch_identity_mismatch_cancel_target_absent] *)
Definition launch_identity_mismatch_cancel_target_absent (attempt : AttemptRecord) : eff bool :=
  properties ← systemctl_show (att_unit_name attempt);
  recorded_pid_alive ← infallible (recorded_pid_alive attempt);
  cgroup_alive ← (match att_control_group attempt with
                  | Some control_group => cgroup_has_processes control_group
                  | None => mret false
                  end);
  mret (cancel_after_launch_identity_mismatch_is_safe (unit_is_active properties)
          recorded_pid_alive cgroup_alive).

(** [stop_unit_no_block] of [platform/linux.rs] *)
Definition stop_unit_no_block (unit_name : string) : eff CommandOutput :=
  try_map (fun error => tool_error "cannot execute systemctl stop" (io_text error))
    (StopUnit unit_name).

(** The file that tells the Runner. *)
Definition cancel_notice (job_id attempt_id : string) (requested_at_ms : Z) : string :=
  json_to_string_pretty (obj
    [("schemaVersion", JNum RUNTIME_SCHEMA_VERSION); ("jobId", JStr job_id);
     ("attemptId", JStr attempt_id); ("requestedAtMs", JNum requested_at_ms)]%string).

Definition NATIVE_CANCEL_DETAIL : string :=
  "native Windows launcher owner identity is gone after committed cancel intent; JOB_OBJECT_LIMIT_KILL_ON_JOB_CLOSE makes the Attempt process tree definitively non-running".

(** How an iteration of the loop of [cancel_native_windows_attempt] ends. *)
Inductive NativePoll : Type :=
  | PollReturn (observation : JobObservation)
  | PollContinue
  | PollBreak
  | PollWait.

(** No owner is bound: start evidence is looked for. *)
Definition poll_unbound_native (plan : RuntimeExecutionPlan) (current : AttemptRecord)
    : eff NativePoll :=
  let target_start := bundle_file current WINDOWS_START_FILE in
  target_started ← ask (IsFile target_start);
  if target_started : bool then
    bind_attempt_start rt current ExecutionTarget.WindowsNative ;;
    mret PollContinue
  else
    launcher_started ← ask (IsFile (bundle_file current WINDOWS_LAUNCHER_START_FILE));
    if negb launcher_started then mret PollWait
    else
      '(evidence, _) ← validate_windows_launcher_start_evidence rt current;
      require_windows rt "native Windows cancel has no configured provider" "executionTarget" true ;;
      observed ← try (ObserveWindowsLauncherOwner (plan_windows_authority plan)
                        (expected_broker_digest plan) (wls_launcher_process_id evidence));
      target_started ← ask (IsFile target_start);
      if target_started : bool then mret PollContinue
      else if negb (wo_process_alive observed
                    && (wo_process_creation_time_file_time observed
                        == Some (wls_launcher_process_creation_time_file_time evidence)))
      then
        target_started ← ask (IsFile target_start);
        mret (if target_started : bool then PollContinue else PollBreak)
      else mret PollWait.

Definition poll_native (plan : RuntimeExecutionPlan) (attempt : AttemptRecord) : eff NativePoll :=
  current ← registry (GetAttempt (att_attempt_id attempt));
  result ← ask (PathExists (bundle_file current RESULT_FILE));
  if result : bool then
    observation ← commit_runner_result rt current; mret (PollReturn observation)
  else
    owner ← registry (GetSupervisorOwner (att_attempt_id current));
    if present owner then
      alive ← orphan_process_tree_alive rt current;
      if alive : bool then mret PollWait
      else
        result ← ask (PathExists (bundle_file current RESULT_FILE));
        observation ← (if result : bool then commit_runner_result rt current
                       else commit_control_terminal rt current AttemptState.Cancelled
                              "STOP_REQUESTED_PROCESS_TREE_GONE" (Some NATIVE_CANCEL_DETAIL));
        mret (PollReturn observation)
    else poll_unbound_native plan current.

(** The loop: [polls] bounds its iterations after the first, [continue]
    included, and the clock is looked at where the code looks at it. *)
Fixpoint native_cancel_loop (plan : RuntimeExecutionPlan) (attempt : AttemptRecord) (polls : nat)
    : eff (option JobObservation) :=
  poll ← poll_native plan attempt;
  match poll, polls with
  | PollReturn observation, _ => mret (Some observation)
  | PollBreak, _ | PollContinue, O => mret None
  | PollContinue, S polls' => native_cancel_loop plan attempt polls'
  | PollWait, polls =>
      remaining ← ask PollBudget;
      match polls with
      | S polls' =>
          if (remaining =? 0)%nat then mret None else native_cancel_loop plan attempt polls'
      | O => mret None
      end
  end.

Definition cancel_native_windows_attempt (job_id : string) (attempt : AttemptRecord)
    : eff JobObservation :=
  plan ← registry (GetExecutionPlan job_id);
  polls ← ask PollBudget;
  observation ← native_cancel_loop plan attempt polls;
  match observation with
  | Some observation => mret observation
  | None =>
      catch (reconcile_attempt rt (att_attempt_id attempt)) (fun reconciled =>
        match reconciled with
        | Ok _ => observation_from_registry job_id 4096 4096
        | Err error =>
            if is_launch_identity_mismatch error then observation_from_registry job_id 4096 4096
            else throw error
        end)
  end.

(** An iteration of the loop of [cancel_job] on Linux: [output] is that of
    [systemctl stop]. *)
Definition poll_linux (attempt : AttemptRecord) (output : CommandOutput)
    : eff (option JobObservation) :=
  result ← ask (PathExists (bundle_file attempt RESULT_FILE));
  if result : bool then
    observation ← commit_runner_result rt attempt; mret (Some observation)
  else
    properties ← systemctl_show (att_unit_name attempt);
    recorded_alive ← infallible (recorded_pid_alive attempt);
    if negb (unit_is_active properties) && negb recorded_alive then
      observation ← commit_control_terminal rt attempt AttemptState.Cancelled
        "STOP_REQUESTED_PROCESS_TREE_GONE"
        (if out_success output then None
         else Some (str_trim (from_utf8_lossy (out_stderr output))));
      mret (Some observation)
    else mret None.

Fixpoint linux_cancel_loop (attempt : AttemptRecord) (output : CommandOutput) (polls : nat)
    : eff (option JobObservation) :=
  observation ← poll_linux attempt output;
  match observation, polls with
  | Some observation, _ => mret (Some observation)
  | None, O => mret None
  | None, S polls' => linux_cancel_loop attempt output polls'
  end.

Definition stop_linux_attempt (job_id : string) (attempt : AttemptRecord) : eff JobObservation :=
  output ← stop_unit_no_block (att_unit_name attempt);
  polls ← ask PollBudget;
  observation ← linux_cancel_loop attempt output polls;
  match observation with
  | Some observation => mret observation
  | None =>
      reconcile_attempt rt (att_attempt_id attempt) ;;
      observation_from_registry job_id 4096 4096
  end.

(** The Job is orphaned: its process tree is looked for. *)
Definition cancel_orphaned (job_id : string) (attempt : AttemptRecord) : eff JobObservation :=
  result ← ask (IsFile (bundle_file attempt RESULT_FILE));
  recovered ← (if result : bool then recover_orphaned_runner_result rt attempt else mret false);
  if recovered : bool then observation_from_registry job_id 4096 4096
  else
    now ← try NowMs;
    registry (RequestCancel job_id now) ;;
    current ← registry (GetAttempt (att_attempt_id attempt));
    alive ← orphan_process_tree_alive rt current;
    (if alive : bool then mret tt
     else
       result ← ask (IsFile (bundle_file current RESULT_FILE));
       if result : bool then recover_orphaned_runner_result rt current ;; mret tt
       else resolve_absent_orphan current AttemptState.Cancelled
              "ORPHAN_CANCELLED_PROCESS_TREE_GONE") ;;
    observation_from_registry job_id 4096 4096.

(** The [match self.reconcile_job(..)]: which errors do not stop a cancel. *)
Definition reconcile_before_cancel (job_id : string) (snapshot : JobSnapshot)
    (native_direct : bool) : eff unit :=
  catch (reconcile_job rt job_id) (fun reconciled =>
    match reconciled with
    | Ok _ => mret tt
    | Err error =>
        if is_launch_identity_mismatch error then
          if native_direct : bool then mret tt
          else
            attempt ← of_result (ok_or
              (corrupt "unresolved Job has no Attempt while cancelling after launch identity mismatch"
                 "jobId" false) (snap_attempt snapshot));
            absent ← launch_identity_mismatch_cancel_target_absent attempt;
            if absent : bool then mret tt else throw error
        else throw error
    end).

Definition cancel_unresolved (job_id : string) (snapshot : JobSnapshot) : eff JobObservation :=
  plan ← registry (GetExecutionPlan job_id);
  let native_direct := (plan_execution_target plan == ExecutionTarget.WindowsNative)
                       && rt_windows rt in
  reconcile_before_cancel job_id snapshot native_direct ;;
  now ← try NowMs;
  projection ← registry (RequestCancel job_id now);
  if jp_result_available projection then observation_from_registry job_id 4096 4096
  else
    attempt ← registry (GetLatestAttempt job_id);
    attempt ← of_result (ok_or (corrupt "cancelled Job has no Attempt" "jobId" false) attempt);
    now ← try NowMs;
    try_map map_universal_error
      (WriteAtomic (bundle_file attempt CANCEL_FILE)
         (cancel_notice job_id (att_attempt_id attempt) now)) ;;
    if native_direct : bool then cancel_native_windows_attempt job_id attempt
    else stop_linux_attempt job_id attempt.

Definition cancel_job (request : JobCancelRequest) : eff JobObservation :=
  of_result (fail_if (jcr_schema_version request != RUNTIME_SCHEMA_VERSION)
    (invalid "unsupported runtime schema version" "schemaVersion")) ;;
  snapshot ← registry (GetJobSnapshot (jcr_job_id request));
  match job_resolution (snap_job snapshot), snap_attempt snapshot with
  | Some JobResolution.Orphaned, Some attempt => cancel_orphaned (jcr_job_id request) attempt
  | _, _ => cancel_unresolved (jcr_job_id request) snapshot
  end.
End cancelling.
