(* ===== verification/Requests.v ===== *)
(** * Requests of clients and their identity

    Structure, policy and defaults of a request, and the identity under which a
    repeated one is recognised. *)

From S2P Require Import Prelude Text Errors Types Supervisor Platform Validation Submit Store.
From S2P Require Import Transaction Projection Lifecycle Admission Recovery Registry Query.
From S2P Require Import Effects Utf8 Engine Inputs Output Evidence Observation.

(** ** Requests of clients

    What [engine/control_query.rs], [engine/admission.rs] and [runtime/types.rs]
    do with a request before anything is looked at: its structure, the policy
    of the operator, the defaults of a proposal, and the identity under which a
    repeated request is recognised. *)

#[local] Open Scope Z_scope.

(** [CONTAINED_RUNTIME_ENVIRONMENT] *)
Definition CONTAINED_RUNTIME_ENVIRONMENT : list string :=
  ["HOME"; "TMPDIR"; "XDG_CACHE_HOME"; "CARGO_TARGET_DIR"; "UV_CACHE_DIR"; "PIP_CACHE_DIR";
   "npm_config_cache"; "PNPM_HOME"; "COREPACK_HOME"; "BUN_INSTALL_CACHE_DIR"; "GOMODCACHE";
   "GOCACHE"; "GIT_OPTIONAL_LOCKS"; "ORDIVON_PAYLOAD_UID"; "ORDIVON_PAYLOAD_GID"]%string.

(** ** Structure *)

(** [validate_text_id] of [engine.rs] *)
Definition validate_text_id (value field : string) : RuntimeResult unit :=
  fail_if
    ((match trim (chars value) with [] => true | _ => false end)
     || (256 <? str_len value)
     || contains_nul value
     || existsb is_control (chars value))
    (invalid (field +:+ " must be non-empty, bounded, and control-free") field).

Definition validate_execution_budget (budget : ExecutionBudget) (field_prefix : string)
    : RuntimeResult unit :=
  fail_if (budget_memory_max_bytes budget == Some 0)
    (invalid "memoryMaxBytes must be positive" (field_prefix +:+ ".memoryMaxBytes")) ;;
  fail_if (budget_tasks_max budget == Some 0)
    (invalid "tasksMax must be positive" (field_prefix +:+ ".tasksMax")) ;;
  fail_if (budget_cpu_quota_percent budget == Some 0)
    (invalid "cpuQuotaPercent must be positive" (field_prefix +:+ ".cpuQuotaPercent")).

Definition validate_contained_environment (environment : gmap string string) (field : string)
    : RuntimeResult unit :=
  match List.find (fun name => present (environment !! name)) CONTAINED_RUNTIME_ENVIRONMENT with
  | Some name =>
      Err (invalid (name +:+ " is owned by the contained-local Runtime profile")
             (field +:+ "." +:+ name))
  | None => Ok tt
  end.

(** Some part between the slashes is [..]. *)
Definition has_parent_part (path : string) : bool :=
  existsb (String.eqb "..") (split_on slash path).

(** The loop over [foreign_references]; [seen] is [foreign_reference_keys]. *)
Fixpoint validate_foreign_references (seen : list (string * string * string)) (index : nat)
    (references : list ForeignReference) : RuntimeResult unit :=
  match references with
  | [] => Ok tt
  | reference :: rest =>
      let field := field_at "execution.foreignReferences" index in
      validate_logical_id (fr_namespace reference) (field +:+ ".namespace") ;;
      validate_logical_id (fr_reference_type reference) (field +:+ ".type") ;;
      validate_logical_id (fr_id reference) (field +:+ ".id") ;;
      match fr_generation reference with
      | Some generation => validate_logical_id generation (field +:+ ".generation")
      | None => Ok tt
      end ;;
      match fr_digest reference with
      | Some digest => validate_logical_id digest (field +:+ ".digest")
      | None => Ok tt
      end ;;
      let key := (fr_namespace reference, fr_reference_type reference, fr_id reference) in
      fail_if (existsb (fun other => key == other) seen)
        (invalid "foreignReferences must be unique by namespace, type, and id" field) ;;
      validate_foreign_references (key :: seen) (S index) rest
  end.

Section requests.
Context `{P : Platform}.

Definition validate_exec_payload_for_target (target : ExecutionTarget.t) (executable : string)
    (args : list string) (env : gmap string string) (field : string) : RuntimeResult unit :=
  match target with
  | ExecutionTarget.LocalLinux => map_err map_universal_error (validate_exec_payload args env field)
  | ExecutionTarget.WindowsNative => validate_windows_exec_payload executable args env field
  end.

(** One step of the loop over [steps]. *)
Definition validate_step (target : ExecutionTarget.t) (profile : ExecutionProfile.t)
    (field : string) (step : UniversalExecutionStep) : RuntimeResult unit :=
  fail_if (String.eqb (ues_executable step) "" || negb (is_absolute (ues_executable step))
           || String.eqb (ues_cwd_relative step) "" || is_absolute (ues_cwd_relative step)
           || has_parent_part (ues_cwd_relative step))
    (invalid "step executable must be absolute and cwdRelative must be relative" field) ;;
  fail_if (ues_timeout_ms step =? 0)
    (invalid "step timeoutMs must be positive" (field +:+ ".timeoutMs")) ;;
  validate_exec_payload_for_target target (ues_executable step) (ues_args step) (ues_env step) field ;;
  (if profile == ExecutionProfile.ContainedLocal
   then validate_contained_environment (ues_env step) (field +:+ ".env") else Ok tt).

(** The loop over [steps]; [seen] is [step_ids]. *)
Fixpoint validate_steps (target : ExecutionTarget.t) (profile : ExecutionProfile.t)
    (seen : list string) (index : nat) (steps : list UniversalExecutionStep) : RuntimeResult unit :=
  match steps with
  | [] => Ok tt
  | step :: rest =>
      let field := field_at "execution.steps" index in
      validate_logical_id (ues_id step) (field +:+ ".id") ;;
      fail_if (existsb (String.eqb (ues_id step)) seen)
        (invalid "step ids must be unique" (field +:+ ".id")) ;;
      validate_step target profile field step ;;
      validate_steps target profile (ues_id step :: seen) (S index) rest
  end.

(** The target, profile and authority of an execution. *)
Definition validate_target (execution : UniversalExecutionRequest) : RuntimeResult unit :=
  fail_if ((uer_execution_target execution == ExecutionTarget.LocalLinux)
           && (uer_windows_authority execution != WindowsAuthority.Limited))
    (invalid "windowsAuthority=elevated requires executionTarget=windows_native"
       "execution.windowsAuthority") ;;
  if uer_execution_target execution == ExecutionTarget.WindowsNative then
    fail_if (uer_execution_profile execution != ExecutionProfile.TrustedLocal)
      (invalid "windows_native currently supports trusted_local only"
         "execution.executionProfile") ;;
    fail_if (match uer_steps execution with [] => false | _ => true end)
      (invalid "windows_native currently supports one command only" "execution.steps")
  else Ok tt.

(** The part before the budget. *)
Definition validate_run_header (request : JobRunRequest) : RuntimeResult unit :=
  let execution := run_execution request in
  fail_if (run_schema_version request != RUNTIME_SCHEMA_VERSION)
    (invalid "unsupported runtime schema version" "schemaVersion") ;;
  validate_client_request_id (run_client_request_id request) "clientRequestId" ;;
  validate_text_id (run_principal request) "principal" ;;
  validate_text_id (uer_workspace_id execution) "execution.workspaceId" ;;
  fail_if (run_global_limit request =? 0)
    (invalid "concurrency limits must be positive" "globalLimit") ;;
  fail_if ((MAX_TASK_WAIT_MS <? run_wait_ms request)
           || (MAX_TASK_TAIL_BYTES <? run_stdout_tail_bytes request)
           || (MAX_TASK_TAIL_BYTES <? run_stderr_tail_bytes request))
    (invalid "wait or tail bounds exceed the runtime compact limit" "waitMs") ;;
  fail_if (String.eqb (uer_executable execution) "" || negb (is_absolute (uer_executable execution))
           || String.eqb (uer_cwd_relative execution) "" || is_absolute (uer_cwd_relative execution))
    (invalid "executable must be absolute and cwdRelative must be relative" "execution") ;;
  fail_if (has_parent_part (uer_cwd_relative execution))
    (invalid "cwdRelative cannot contain parent traversal" "execution.cwdRelative") ;;
  fail_if ((uer_timeout_ms execution =? 0) || (uer_stdout_limit_bytes execution =? 0)
           || (uer_stderr_limit_bytes execution =? 0))
    (invalid "runtime and output limits must be positive" "execution").

Definition validate_run_request_structure (request : JobRunRequest) : RuntimeResult unit :=
  let execution := run_execution request in
  validate_run_header request ;;
  validate_execution_budget (uer_budget execution) "execution.budget" ;;
  validate_target execution ;;
  validate_exec_payload_for_target (uer_execution_target execution) (uer_executable execution)
    (uer_args execution) (uer_env execution) "execution" ;;
  validate_foreign_references [] 0 (uer_foreign_references execution) ;;
  (if uer_execution_profile execution == ExecutionProfile.ContainedLocal
   then validate_contained_environment (uer_env execution) "execution.env" else Ok tt) ;;
  validate_steps (uer_execution_target execution) (uer_execution_profile execution) [] 0
    (uer_steps execution).

(** ** Policy and defaults *)

Definition validate_new_admission_policy (request : JobRunRequest)
    (max_runtime_ms max_output_bytes : Z) : RuntimeResult unit :=
  fail_if (max_runtime_ms <? uer_timeout_ms (run_execution request))
    (invalid ("timeoutMs exceeds configured maximum " +:+ pretty max_runtime_ms)
       "execution.timeoutMs") ;;
  fail_if (max_output_bytes <? uer_stdout_limit_bytes (run_execution request))
    (invalid ("stdoutLimitBytes exceeds configured maximum " +:+ pretty max_output_bytes)
       "execution.stdoutLimitBytes") ;;
  fail_if (max_output_bytes <? uer_stderr_limit_bytes (run_execution request))
    (invalid ("stderrLimitBytes exceeds configured maximum " +:+ pretty max_output_bytes)
       "execution.stderrLimitBytes").

(** A step of a proposal with the limit it has, or the given one. *)
Definition resolve_step (timeout_ms : Z) (step : ExecutionStepProposal) : UniversalExecutionStep :=
  {| ues_id := esp_id step;
     ues_executable := esp_executable step;
     ues_args := esp_args step;
     ues_cwd_relative := esp_cwd_relative step;
     ues_env := esp_env step;
     ues_timeout_ms := default timeout_ms (esp_timeout_ms step);
     ues_continue_on_error := esp_continue_on_error step |}.

(** A proposal as a request, with these defaults for its limits, the limit of a
    step and these Host Dependencies. *)
Definition request_of_proposal (default_timeout default_output default_step_timeout : Z)
    (host_dependencies : list HostDependencyBinding) (proposal : JobRunProposal) : JobRunRequest :=
  let execution := prop_execution proposal in
  {| run_schema_version := prop_schema_version proposal;
     run_client_request_id := prop_client_request_id proposal;
     run_principal := prop_principal proposal;
     run_global_limit := prop_global_limit proposal;
     run_execution :=
       {| uer_workspace_id := ep_workspace_id execution;
          uer_executable := ep_executable execution;
          uer_args := ep_args execution;
          uer_cwd_relative := ep_cwd_relative execution;
          uer_env := ep_env execution;
          uer_timeout_ms := default default_timeout (ep_timeout_ms execution);
          uer_stdout_limit_bytes := default default_output (ep_stdout_limit_bytes execution);
          uer_stderr_limit_bytes := default default_output (ep_stderr_limit_bytes execution);
          uer_steps := map (resolve_step default_step_timeout) (ep_steps execution);
          uer_budget := ep_budget execution;
          uer_execution_profile := ep_execution_profile execution;
          uer_execution_target := ep_execution_target execution;
          uer_windows_authority := ep_windows_authority execution;
          uer_foreign_references := ep_foreign_references execution;
          uer_host_dependencies := host_dependencies |};
     run_wait_ms := prop_wait_ms proposal;
     run_stdout_tail_bytes := prop_stdout_tail_bytes proposal;
     run_stderr_tail_bytes := prop_stderr_tail_bytes proposal |}.

Definition validate_run_proposal_structure (proposal : JobRunProposal) : RuntimeResult unit :=
  validate_run_request_structure (request_of_proposal 1 1 1 [] proposal).

Definition resolve_proposal (rt : Runtime) (proposal : JobRunProposal) : JobRunRequest :=
  let timeout_ms := default (rt_default_runtime_ms rt) (ep_timeout_ms (prop_execution proposal)) in
  request_of_proposal (rt_default_runtime_ms rt) (uec_max_output_bytes (rt_executor rt)) timeout_ms
    (ep_host_dependencies (prop_execution proposal)) proposal.
End requests.

(** ** Environments *)

(** [merge_environment]: what is explicit wins. *)
Definition merge_environment (base explicit : gmap string string) : gmap string string :=
  explicit ∪ base.

(** [environment.keys().find(|existing| existing.eq_ignore_ascii_case(name))] *)
Definition same_name_key (name : string) (environment : gmap string string) : option string :=
  fst <$> List.find (fun '(existing, _) => eq_ignore_ascii_case existing name) (btree_iter environment).

Definition set_environment_value_case_insensitive (name value : string)
    (environment : gmap string string) : gmap string string :=
  <[name := value]> (match same_name_key name environment with
                     | Some existing => delete existing environment
                     | None => environment
                     end).

(** The first loop of [merge_windows_environment]. *)
Fixpoint check_overlay_names (seen names : list string) : RuntimeResult unit :=
  match names with
  | [] => Ok tt
  | name :: rest =>
      fail_if (String.eqb name "" || existsb (Z.eqb 61) (bytes name) || contains_nul name)
        (invalid "invalid Windows environment variable name" "execution.env") ;;
      fail_if (existsb (fun existing => eq_ignore_ascii_case existing name) seen)
        (invalid "Windows environment variable names must be unique case-insensitively"
           "execution.env") ;;
      check_overlay_names (seen ++ [name]) rest
  end.

Definition merge_windows_environment (baseline overlay : gmap string string)
    : RuntimeResult (gmap string string) :=
  check_overlay_names [] (map fst (btree_iter overlay)) ;;
  Ok (foldl (fun result '(name, value) => set_environment_value_case_insensitive name value result)
        baseline (btree_iter overlay)).

(** ** The identity of a request

    [runtime/types.rs]: the digest under which a proposal, an input-bound or a
    credential-bound proposal, or a release request is known.  It is taken of
    what the client asked for, before any default of the operator, so that a
    repeated request is the same one after a change of policy. *)

#[local] Open Scope Z_scope.

Record ProposalRequestIdentity : Type := {
  pri_schema_version : Z;
  pri_principal : string;
  pri_workspace_id : string;
  pri_executable : string;
  pri_args : list string;
  pri_cwd_relative : string;
  pri_env : gmap string string;
  pri_timeout_ms : option Z;
  pri_stdout_limit_bytes : option Z;
  pri_stderr_limit_bytes : option Z;
  pri_steps : list ExecutionStepProposal;
  pri_budget : ExecutionBudget;
  pri_execution_profile : ExecutionProfile.t;
  pri_execution_target : ExecutionTarget.t;
  pri_windows_authority : option WindowsAuthority.t;
  pri_foreign_references : list ForeignReference;
  pri_host_dependencies : list HostDependencyBinding;
}.

Record RuntimeReleaseRequest : Type := {
  rrq_schema_version : Z;
  rrq_client_request_id : string;
  rrq_principal : string;
  rrq_workspace_id : string;
  rrq_commit : string;
  rrq_candidate_manifest_digest : string;
  rrq_expected_tool_count : Z;
}.

Record RuntimeReleaseRequestIdentity : Type := {
  rri_schema_version : Z;
  rri_principal : string;
  rri_workspace_id : string;
  rri_commit : string;
  rri_candidate_manifest_digest : string;
  rri_expected_tool_count : Z;
}.

(** [serde_json::to_vec] on the identities. *)
Class IdentityCodec : Type := {
  proposal_identity_to_json : ProposalRequestIdentity -> string;
  input_bound_identity_to_json : ProposalRequestIdentity -> list InputBindingRequest -> string;
  credential_bound_identity_to_json :
    ProposalRequestIdentity -> list CredentialBindingRequest -> string;
  release_identity_to_json : RuntimeReleaseRequestIdentity -> string;
}.

(** [host_dependency_identities] *)
Definition dependency_le (x y : HostDependencyBinding) : bool :=
  strings_le [hd_path x; hd_expected_digest x] [hd_path y; hd_expected_digest y].

Definition host_dependency_identities (dependencies : list HostDependencyBinding)
    : list HostDependencyBinding := order_by dependency_le dependencies.

(** [input_binding_identities] *)
Definition input_le (x y : InputBindingRequest) : bool := strings_le (input_key x) (input_key y).

Definition input_binding_identities (inputs : list InputBindingRequest) : list InputBindingRequest :=
  order_by input_le
    (map (fun input => {| ibr_authority := ibr_authority input;
                          ibr_relative_object := ibr_relative_object input;
                          ibr_expected_digest := to_ascii_lowercase (ibr_expected_digest input);
                          ibr_presentation_relative_path := ibr_presentation_relative_path input |})
       inputs).

(** [credential_binding_identities] *)
Definition credential_le (x y : CredentialBindingRequest) : bool :=
  strings_le [cbr_authority x; cbr_credential x] [cbr_authority y; cbr_credential y].

Definition credential_binding_identities (credentials : list CredentialBindingRequest)
    : list CredentialBindingRequest := order_by credential_le credentials.

(** A step of the identity: its paths are normalised. *)
Definition identity_step (step : ExecutionStepProposal) : ExecutionStepProposal :=
  {| esp_id := esp_id step;
     esp_executable := normalize_path_text (esp_executable step);
     esp_args := esp_args step;
     esp_cwd_relative := normalize_relative_path_text (esp_cwd_relative step);
     esp_env := esp_env step;
     esp_timeout_ms := esp_timeout_ms step;
     esp_continue_on_error := esp_continue_on_error step |}.

Definition proposal_request_identity (proposal : JobRunProposal) : ProposalRequestIdentity :=
  let execution := prop_execution proposal in
  {| pri_schema_version := prop_schema_version proposal;
     pri_principal := prop_principal proposal;
     pri_workspace_id := ep_workspace_id execution;
     pri_executable := normalize_path_text (ep_executable execution);
     pri_args := ep_args execution;
     pri_cwd_relative := normalize_relative_path_text (ep_cwd_relative execution);
     pri_env := ep_env execution;
     pri_timeout_ms := ep_timeout_ms execution;
     pri_stdout_limit_bytes := ep_stdout_limit_bytes execution;
     pri_stderr_limit_bytes := ep_stderr_limit_bytes execution;
     pri_steps := map identity_step (ep_steps execution);
     pri_budget := ep_budget execution;
     pri_execution_profile := ep_execution_profile execution;
     pri_execution_target := ep_execution_target execution;
     pri_windows_authority := identity_windows_authority (ep_execution_target execution)
                                (ep_windows_authority execution);
     pri_foreign_references := ep_foreign_references execution;
     pri_host_dependencies := host_dependency_identities (ep_host_dependencies execution) |}.

Section identities.
Context `{P : Platform, IC : IdentityCodec}.

Definition proposal_request_identity_digest (proposal : JobRunProposal) : string :=
  PROPOSAL_IDENTITY_PREFIX
  +:+ sha256_bytes (proposal_identity_to_json (proposal_request_identity proposal)).

Definition input_bound_proposal_request_identity_digest (proposal : JobRunProposal)
    (inputs : list InputBindingRequest) : string :=
  INPUT_BOUND_PROPOSAL_IDENTITY_PREFIX
  +:+ sha256_bytes (input_bound_identity_to_json (proposal_request_identity proposal)
                      (input_binding_identities inputs)).

Definition credential_bound_proposal_request_identity_digest (proposal : JobRunProposal)
    (credentials : list CredentialBindingRequest) : string :=
  CREDENTIAL_BOUND_PROPOSAL_IDENTITY_PREFIX
  +:+ sha256_bytes (credential_bound_identity_to_json (proposal_request_identity proposal)
                      (credential_binding_identities credentials)).

(** The step of a legacy identity, if it has a limit. *)
Definition legacy_step (step : ExecutionStepProposal) : option UniversalExecutionStep :=
  timeout_ms ← esp_timeout_ms step;
  Some {| ues_id := esp_id step;
          ues_executable := normalize_path_text (esp_executable step);
          ues_args := esp_args step;
          ues_cwd_relative := normalize_relative_path_text (esp_cwd_relative step);
          ues_env := esp_env step;
          ues_timeout_ms := timeout_ms;
          ues_continue_on_error := esp_continue_on_error step |}.

(** [legacy_request_identity_digest_from_proposal]: only a proposal that states
    every limit has one. *)
Definition legacy_request_identity_digest_from_proposal (proposal : JobRunProposal)
    : option string :=
  let execution := prop_execution proposal in
  timeout_ms ← ep_timeout_ms execution;
  stdout_limit_bytes ← ep_stdout_limit_bytes execution;
  stderr_limit_bytes ← ep_stderr_limit_bytes execution;
  steps ← mapM legacy_step (ep_steps execution);
  Some (operation_request_identity_digest_from_parts
    {| ori_schema_version := prop_schema_version proposal;
       ori_principal := prop_principal proposal;
       ori_workspace_id := ep_workspace_id execution;
       ori_executable := normalize_path_text (ep_executable execution);
       ori_args := ep_args execution;
       ori_cwd_relative := normalize_relative_path_text (ep_cwd_relative execution);
       ori_env := ep_env execution;
       ori_timeout_ms := timeout_ms;
       ori_stdout_limit_bytes := stdout_limit_bytes;
       ori_stderr_limit_bytes := stderr_limit_bytes;
       ori_steps := steps;
       ori_budget := ep_budget execution;
       ori_execution_profile := ep_execution_profile execution;
       ori_execution_target := ep_execution_target execution;
       ori_windows_authority := identity_windows_authority (ep_execution_target execution)
                                  (ep_windows_authority execution);
       ori_foreign_references := ep_foreign_references execution;
       ori_host_dependencies := host_dependency_identities (ep_host_dependencies execution) |}).

(** ** Releases *)

Definition runtime_release_request_identity_digest (request : RuntimeReleaseRequest) : string :=
  RUNTIME_RELEASE_IDENTITY_PREFIX
  +:+ sha256_bytes (release_identity_to_json
        {| rri_schema_version := rrq_schema_version request;
           rri_principal := rrq_principal request;
           rri_workspace_id := rrq_workspace_id request;
           rri_commit := rrq_commit request;
           rri_candidate_manifest_digest := rrq_candidate_manifest_digest request;
           rri_expected_tool_count := rrq_expected_tool_count request |}).

(** [runtime_release_effect_id]: [sha256_bytes] without its prefix. *)
Definition runtime_release_effect_id (request : RuntimeReleaseRequest) : string :=
  sha256_hex ("runtime-release-effect-v1" +:+ nul +:+ rrq_principal request +:+ nul
              +:+ rrq_client_request_id request).

Definition lowercase_hex_of_length (length : Z) (text : string) : bool :=
  (str_len text =? length) && forallb lowercase_hex (bytes text).

Definition validate_runtime_release_request (request : RuntimeReleaseRequest) : RuntimeResult unit :=
  fail_if (rrq_schema_version request != RUNTIME_SCHEMA_VERSION)
    (invalid "unsupported runtime schema version" "schemaVersion") ;;
  validate_client_request_id (rrq_client_request_id request) "clientRequestId" ;;
  fail_if (rrq_expected_tool_count request =? 0)
    (invalid "Runtime Release expectedToolCount must be positive" "expectedToolCount") ;;
  fail_if (negb (lowercase_hex_of_length 40 (rrq_commit request)))
    (invalid "Runtime Release commit must be exactly 40 lowercase hexadecimal characters" "commit") ;;
  manifest ← ok_or (invalid "candidate manifest digest must use sha256" "candidateManifestDigest")
    (strip_prefix "sha256:" (rrq_candidate_manifest_digest request));
  fail_if (negb (lowercase_hex_of_length 64 manifest))
    (invalid "candidate manifest digest must contain 64 lowercase hexadecimal characters"
       "candidateManifestDigest").

Definition validate_release_binding_matches_request (binding : RuntimeReleaseEffectBinding)
    (request : RuntimeReleaseRequest) : RuntimeResult unit :=
  fail_if (negb (String.eqb (rel_effect_id binding) (runtime_release_effect_id request)
                 && String.eqb (rel_request_digest binding)
                      (runtime_release_request_identity_digest request)
                 && String.eqb (rel_workspace_id binding) (rrq_workspace_id request)
                 && String.eqb (rel_commit binding) (rrq_commit request)
                 && String.eqb (rel_candidate_manifest_digest binding)
                      (rrq_candidate_manifest_digest request)
                 && (rel_expected_tool_count binding =? rrq_expected_tool_count request)))
    (error_new RegistryCorrupt
       "stored Runtime Release side truth does not match the request identity"
       (Some "runtimeReleaseEffect"%string) false).
End identities.
