(* ===== verification/Planning.v ===== *)
(** * The plan of a Job

    [engine/execution.rs] and [validate_executable] of [runtime/platform/linux.rs]:
    how a request becomes a plan.  Executables must lie below the configured
    roots, working directories below the Workspace, and Host Dependencies must
    have the digests that were asked for; what is found is written into the plan. *)

From S2P Require Import Prelude Text Errors Types Supervisor Platform Validation Submit Store.
From S2P Require Import Transaction Projection Lifecycle Admission Recovery Registry Query.
From S2P Require Import Effects Utf8 Engine Linux Launch Inputs Binding Evidence Workspace Bundle.
From S2P Require Import Dispatching Requests.

#[local] Open Scope Z_scope.

(** [p.map_err(map_universal_error)?] *)
Definition universal {A} (p : ueff A) : eff A := with_error map_universal_error p.

(** ** Executables *)

(** [is_executable_file] *)
Definition is_executable_file (metadata : FileMetadata) : bool :=
  is_regular (md_kind metadata) && negb (Z.land (md_mode metadata) 73 =? 0).

Definition collect {A B} (f : A -> eff B) (l : list A) : eff (list B) :=
  fold_eff (fun acc x => y ← f x; mret (acc ++ [y])) [] l.

Definition validate_executable (config : UniversalExecutorConfig) (value field : string) : eff string :=
  of_result (fail_if (negb (is_absolute value))
    (invalid "executable must be an absolute path" field)) ;;
  canonical ← try_map (field_io_error "canonicalize executable" field) (Canonicalize value);
  metadata ← try_map (field_io_error "inspect executable" field) (Metadata canonical true);
  of_result (fail_if (negb (is_executable_file metadata))
    (invalid "executable must resolve to an executable file" field)) ;;
  canonical_roots ← collect (fun root =>
      try_map (linux_io_error "canonicalize executable root") (Canonicalize root))
    (uec_allowed_executable_roots config);
  invocation_parent ← of_result (ok_or
    (invalid "executable must have an absolute parent" field) (path_parent value));
  canonical_invocation_parent ← try_map
    (field_io_error "canonicalize executable invocation parent" field)
    (Canonicalize invocation_parent);
  of_result (fail_if (negb (existsb (path_starts_with canonical_invocation_parent) canonical_roots
                            && existsb (path_starts_with canonical) canonical_roots))
    (error_new InvalidRequest
       "executable invocation and target must both remain inside configured roots"
       (Some field) false)) ;;
  mret value.

(** ** Host Dependencies *)

(** What a binding asks for, before the file is looked at. *)
Definition check_host_dependency (previous : option string) (index : nat)
    (binding : HostDependencyBinding) : RuntimeResult unit :=
  let field := field_at "execution.hostDependencies" index in
  fail_if (negb (is_absolute (hd_path binding)) || contains_nul (hd_path binding))
    (invalid "Host Dependency path must be absolute and NUL-free" (field +:+ ".path")) ;;
  fail_if (previous == Some (hd_path binding))
    (invalid "Host Dependency paths must be unique" "execution.hostDependencies") ;;
  expected ← ok_or (invalid "Host Dependency expectedDigest must use sha256"
                      (field +:+ ".expectedDigest"))
    (strip_prefix "sha256:" (hd_expected_digest binding));
  fail_if (negb ((str_len expected =? 64) && forallb lowercase_hex (bytes expected)))
    (invalid "Host Dependency expectedDigest must contain 64 lowercase hexadecimal characters"
       (field +:+ ".expectedDigest")).

Definition observe_host_dependency (index : nat) (binding : HostDependencyBinding) : eff unit :=
  let path := hd_path binding in
  kind ← try_map (fun error =>
      error_new InvalidRequest ("Host Dependency " +:+ path +:+ " is unavailable: " +:+ io_text error)
        (Some "execution.hostDependencies"%string) false) (SymlinkMetadata path);
  of_result (fail_if (negb (is_regular kind))
    (invalid "Host Dependency must be a regular non-symlink file"
       (field_at "execution.hostDependencies" index +:+ ".path"))) ;;
  observed ← try_map map_universal_error (Sha256File path);
  of_result (fail_if (negb (String.eqb observed (hd_expected_digest binding)))
    (error_new InvalidRequest
       ("Host Dependency " +:+ path +:+ " does not match expected digest: expected "
        +:+ hd_expected_digest binding +:+ ", observed " +:+ observed)
       (Some "execution.hostDependencies"%string) false)).

(** The loop of [validate_host_dependencies]. *)
Fixpoint observe_host_dependencies (previous : option string) (index : nat)
    (bindings : list HostDependencyBinding) : eff unit :=
  match bindings with
  | [] => mret tt
  | binding :: rest =>
      of_result (check_host_dependency previous index binding) ;;
      observe_host_dependency index binding ;;
      observe_host_dependencies (Some (hd_path binding)) (S index) rest
  end.

Definition validate_host_dependencies (request : JobRunRequest) : eff (list HostDependencyBinding) :=
  let execution := run_execution request in
  match uer_host_dependencies execution with
  | [] => mret []
  | dependencies =>
      of_result (fail_if ((uer_execution_target execution != ExecutionTarget.LocalLinux)
                          || (uer_execution_profile execution != ExecutionProfile.TrustedLocal))
        (invalid "Host Dependencies require trusted_local local_linux execution"
           "execution.hostDependencies")) ;;
      let bindings := order_by (fun x y => String.leb (hd_path x) (hd_path y)) dependencies in
      observe_host_dependencies None 0 bindings ;;
      mret bindings
  end.

(** ** Environment *)

(** [{:04o}] *)
Definition octal_digit (n : Z) : string := pretty (n mod 8).
Definition octal4 (n : Z) : string :=
  octal_digit (n / 512) +:+ octal_digit (n / 64) +:+ octal_digit (n / 8) +:+ octal_digit n.

(** The paths of the environment, by name; [CARGO_TARGET_DIR] is [cargo_target]. *)
Definition cache_variables (package_cache : string) : list (string * string) :=
  [("UV_CACHE_DIR", path_join package_cache "uv");
   ("PIP_CACHE_DIR", path_join package_cache "pip");
   ("npm_config_cache", path_join package_cache "npm");
   ("PNPM_HOME", path_join package_cache "pnpm");
   ("COREPACK_HOME", path_join package_cache "corepack");
   ("BUN_INSTALL_CACHE_DIR", path_join package_cache "bun/install-cache");
   ("GOMODCACHE", path_join package_cache "go/mod");
   ("GOCACHE", path_join package_cache "go/build")]%string.

Section planning.
Context `{P : Platform, C : EngineCodec, WC : WorkspaceCodec}.
Context (rt : Runtime).

(** [environment.insert(..)] for each name, in the order of the code. *)
Definition environment_of (home tmp workspace_cache cargo_target package_cache : string)
    : gmap string string :=
  foldl (fun environment '(name, value) => <[name := value]> environment) ∅
    ([("PATH", rt_execution_path rt); ("HOME", home); ("LANG", "C.UTF-8"); ("LC_ALL", "C.UTF-8");
      ("TMPDIR", tmp); ("XDG_CACHE_HOME", workspace_cache); ("CARGO_TARGET_DIR", cargo_target)]%string
     ++ cache_variables package_cache).

Definition package_cache_of (profile : ExecutionProfile.t) (workspace_id : string) : string :=
  match profile with
  | ExecutionProfile.TrustedLocal => shared_caches_root (rt_executor rt)
  | ExecutionProfile.ContainedLocal =>
      path_join (workspace_cache_path (rt_executor rt) workspace_id) "tooling"
  end.

Definition cargo_target_backing (workspace_id : string) : string :=
  path_join (workspace_build_cache_path (rt_executor rt) workspace_id) "cargo".

Definition cargo_target_of (profile : ExecutionProfile.t) (workspace_id : string) : string :=
  match profile with
  | ExecutionProfile.TrustedLocal => TRUSTED_BUILD_TARGET_PRESENTATION
  | ExecutionProfile.ContainedLocal => cargo_target_backing workspace_id
  end.

Definition contained_home (workspace_id : string) : string :=
  path_join (workspace_cache_path (rt_executor rt) workspace_id) "home".

(** *** The short name of the temporary directory of a trusted execution *)

Definition workspace_tmp_presentation_path (workspace_id : string) : ueff string :=
  canonical_store ← canonical_store_root (rt_executor rt);
  mret (path_join "/tmp/ordivon-t"
          (str_take 20 (sha256_hex (canonical_store +:+ nul +:+ workspace_id)))).

Definition canonical_workspace_tmp_path (workspace_id : string) : ueff string :=
  canonical_store ← canonical_store_root (rt_executor rt);
  mret (path_join (path_join (path_join canonical_store "cache") "tmp") workspace_id).

Definition tmp_mismatch (message : string) (retryable : bool) : RuntimeError :=
  error_new WorkspaceStateMismatch message (Some "workspaceId"%string) retryable.

(** The first loop: the directory exists and is private. *)
Fixpoint ensure_presentation_root (parent : string) (tries : nat) : eff unit :=
  match tries with
  | O => mret tt
  | S tries' =>
      metadata ← ask (Metadata parent false);
      match metadata with
      | Ok metadata =>
          let mode := Z.land (md_mode metadata) 511 in
          effective_uid ← ask EffectiveUid;
          of_result (fail_if (negb (is_directory (md_kind metadata))
                              || negb (md_uid metadata =? effective_uid) || negb (mode =? 448))
            (tmp_mismatch ("trusted temporary presentation root " +:+ parent
               +:+ " must be a non-symlink directory owned by uid " +:+ pretty effective_uid
               +:+ " with mode 0700; observed uid " +:+ pretty (md_uid metadata) +:+ " mode "
               +:+ octal4 mode) false))
      | Err error =>
          if io_not_found error then
            created ← ask (CreateDirMode parent 448);
            match created with
            | Ok _ => ensure_presentation_root parent tries'
            | Err error =>
                if io_already_exists error then ensure_presentation_root parent tries'
                else throw (io_error ("create temporary presentation root " +:+ parent) error)
            end
          else throw (io_error ("inspect temporary presentation root " +:+ parent) error)
      end
  end.

(** The second loop: the presentation is a link to the backing. *)
Fixpoint ensure_presentation_link (presentation canonical_backing : string) (tries : nat)
    : eff string :=
  match tries with
  | O => throw (tmp_mismatch "trusted temporary presentation changed concurrently during creation" true)
  | S tries' =>
      kind ← ask (SymlinkMetadata presentation);
      match kind with
      | Ok kind =>
          of_result (fail_if (negb (is_symlink kind))
            (tmp_mismatch ("trusted temporary presentation " +:+ presentation
                           +:+ " is not a symlink") false)) ;;
          target ← try_map (io_error ("read temporary presentation " +:+ presentation))
                     (ReadLink presentation);
          of_result (fail_if (negb (path_eq target canonical_backing))
            (tmp_mismatch ("trusted temporary presentation " +:+ presentation +:+ " points at "
                           +:+ target +:+ ", expected " +:+ canonical_backing) false)) ;;
          mret presentation
      | Err error =>
          if io_not_found error then
            created ← ask (CreateSymlink canonical_backing presentation);
            match created with
            | Ok _ => mret presentation
            | Err error =>
                if io_already_exists error
                then ensure_presentation_link presentation canonical_backing tries'
                else throw (io_error ("create temporary presentation " +:+ presentation) error)
            end
          else throw (io_error ("inspect temporary presentation " +:+ presentation) error)
      end
  end.

Definition ensure_trusted_workspace_tmp_presentation (workspace_id : string) : eff string :=
  presentation ← universal (workspace_tmp_presentation_path workspace_id);
  canonical_backing ← universal (canonical_workspace_tmp_path workspace_id);
  parent ← of_result (ok_or
    (error_new IoError "trusted temporary presentation has no parent directory"
       (Some "workspaceId"%string) false) (path_parent presentation));
  ensure_presentation_root parent 2 ;;
  ensure_presentation_link presentation canonical_backing 2.

(** *** [execution_environment] *)

Definition create_dirs (context : string) (paths : list string) : eff unit :=
  fold_eff (fun _ path => try_map (io_error (context +:+ " " +:+ path)) (CreateDirAll path)) tt paths.

(** The names whose directories are created; the stable name of a trusted build
    target is no directory. *)
Definition environment_directories (environment : gmap string string) : list string :=
  omap (fun name =>
          if String.eqb name "CARGO_TARGET_DIR" && presents_build_target environment then None
          else environment !! name) writable_environment_names.

Definition execution_environment (record : WorkspaceRecord) (profile : ExecutionProfile.t)
    : eff (gmap string string) :=
  let id := wr_workspace_id record in
  let workspace_cache := workspace_cache_path (rt_executor rt) id in
  create_dirs "create execution cache"
    [workspace_cache; workspace_build_cache_path (rt_executor rt) id; cargo_target_backing id;
     workspace_tmp_path (rt_executor rt) id; package_cache_of profile id] ;;
  home ← (match profile with
          | ExecutionProfile.TrustedLocal => mret (rt_execution_home rt)
          | ExecutionProfile.ContainedLocal =>
              try_map (io_error ("create contained execution home " +:+ contained_home id))
                (CreateDirAll (contained_home id)) ;;
              mret (contained_home id)
          end);
  tmp ← (match profile with
         | ExecutionProfile.TrustedLocal => ensure_trusted_workspace_tmp_presentation id
         | ExecutionProfile.ContainedLocal => mret (workspace_tmp_path (rt_executor rt) id)
         end);
  let environment := environment_of home tmp workspace_cache (cargo_target_of profile id)
                       (package_cache_of profile id) in
  create_dirs "create execution environment path" (environment_directories environment) ;;
  mret environment.

(** ** The plan *)

Definition token_class_of (authority : WindowsAuthority.t) : WindowsTokenClass.t :=
  match authority with
  | WindowsAuthority.Limited => WindowsTokenClass.Limited
  | WindowsAuthority.Elevated => WindowsTokenClass.Elevated
  | WindowsAuthority.ActiveUser => WindowsTokenClass.ActiveUser
  end.

Definition windows_base (authority : WindowsAuthority.t)
    : eff (gmap string string * option WindowsExecutionContext) :=
  windows ← of_result (ok_or
    (invalid "windows_native target is not configured on this Runtime" "execution.executionTarget")
    (rt_windows_config rt));
  snapshot ← try (SnapshotWindowsContext authority);
  privileged_broker_digest ←
    (if authority == WindowsAuthority.Limited then mret None
     else match wx_privileged_broker windows with
          | Some broker => digest ← executable_digest rt broker; mret (Some digest)
          | None => mret None
          end);
  mret (wcs_environment snapshot,
        Some {| wec_token_class := token_class_of authority;
                wec_token_user_sid := wcs_token_user_sid snapshot;
                wec_session_id := wcs_session_id snapshot;
                wec_environment_source :=
                  expected_environment_source authority (present privileged_broker_digest);
                wec_privileged_broker_digest := privileged_broker_digest |}).

Definition base_environment (record : WorkspaceRecord) (execution : UniversalExecutionRequest)
    : eff (gmap string string * option WindowsExecutionContext) :=
  match uer_execution_target execution with
  | ExecutionTarget.LocalLinux =>
      environment ← execution_environment record (uer_execution_profile execution);
      mret (environment, None)
  | ExecutionTarget.WindowsNative => windows_base (uer_windows_authority execution)
  end.

Definition merged_environment (target : ExecutionTarget.t) (base explicit : gmap string string)
    : RuntimeResult (gmap string string) :=
  match target with
  | ExecutionTarget.LocalLinux => Ok (merge_environment base explicit)
  | ExecutionTarget.WindowsNative => merge_windows_environment base explicit
  end.

Definition resolve_plan_step (record : WorkspaceRecord) (target : ExecutionTarget.t)
    (base : gmap string string) (index : nat) (step : UniversalExecutionStep)
    : eff RuntimeExecutionStep :=
  let field := field_at "execution.steps" index in
  cwd ← universal (resolve_workspace_cwd record (ues_cwd_relative step) (field +:+ ".cwdRelative"));
  executable ← validate_executable (rt_executor rt) (ues_executable step) (field +:+ ".executable");
  digest ← try_map map_universal_error (Sha256File executable);
  env ← of_result (merged_environment target base (ues_env step));
  mret {| step_id := ues_id step;
          step_executable := executable;
          step_executable_digest := digest;
          step_args := ues_args step;
          step_cwd := cwd;
          step_env := env;
          step_timeout_ms := ues_timeout_ms step;
          step_continue_on_error := ues_continue_on_error step |}.

Fixpoint resolve_plan_steps (record : WorkspaceRecord) (target : ExecutionTarget.t)
    (base : gmap string string) (index : nat) (steps : list UniversalExecutionStep)
    : eff (list RuntimeExecutionStep) :=
  match steps with
  | [] => mret []
  | step :: rest =>
      resolved ← resolve_plan_step record target base index step;
      others ← resolve_plan_steps record target base (S index) rest;
      mret (resolved :: others)
  end.

Definition resolve_plan (request : JobRunRequest) : eff RuntimeExecutionPlan :=
  let execution := run_execution request in
  record ← universal (load_workspace_record (rt_executor rt) (uer_workspace_id execution));
  workspace_path ← universal (canonical_directory (wr_workspace_path record) "workspacePath");
  cwd ← universal (resolve_workspace_cwd record (uer_cwd_relative execution) "execution.cwdRelative");
  executable ← validate_executable (rt_executor rt) (uer_executable execution) "execution.executable";
  '(base, windows_execution_context) ← base_environment record execution;
  steps ← resolve_plan_steps record (uer_execution_target execution) base 0 (uer_steps execution);
  source_digest ← universal (workspace_source_state_digest (rt_executor rt) (uer_workspace_id execution));
  common_dir ← universal (workspace_git_common_dir_at workspace_path);
  executable_digest ← try_map map_universal_error (Sha256File executable);
  env ← of_result (merged_environment (uer_execution_target execution) base (uer_env execution));
  mret {| plan_schema_version := RUNTIME_SCHEMA_VERSION;
          plan_workspace_id := uer_workspace_id execution;
          plan_workspace_path := workspace_path;
          plan_source_revision := wr_source_revision record;
          plan_workspace_source_digest := Some source_digest;
          plan_workspace_git_common_dir := Some common_dir;
          plan_executable := executable;
          plan_executable_digest := executable_digest;
          plan_args := uer_args execution;
          plan_cwd := cwd;
          plan_env := env;
          plan_timeout_ms := uer_timeout_ms execution;
          plan_stdout_limit_bytes := uer_stdout_limit_bytes execution;
          plan_stderr_limit_bytes := uer_stderr_limit_bytes execution;
          plan_steps := steps;
          plan_budget := uer_budget execution;
          plan_execution_profile := uer_execution_profile execution;
          plan_execution_target := uer_execution_target execution;
          plan_windows_authority := uer_windows_authority execution;
          plan_windows_execution_context := windows_execution_context;
          plan_foreign_references := uer_foreign_references execution;
          plan_input_set_id := None;
          plan_effective_inputs := [];
          plan_credential_set_id := None;
          plan_principal := run_principal request |}.
End planning.
