(* ===== verification/Admitting.v ===== *)
(** * Admitting Jobs

    [engine/admission.rs] and [engine/release.rs]: a proposal is looked up under
    its identity; only a new one is resolved against the operator's policy,
    planned, and submitted, all under the lifecycle lock. *)

From S2P Require Import Prelude Text Errors Types Supervisor Platform Validation Submit Store.
From S2P Require Import Transaction Projection Lifecycle Admission Recovery Registry Query.
From S2P Require Import Effects Utf8 Engine Linux Launch Inputs Binding Output Evidence.
From S2P Require Import Observation Reconciliation Workspace Bundle Dispatching Materials Passes.
From S2P Require Import Requests Planning.

#[local] Open Scope Z_scope.

Definition WINDOWS_INPUT_PRESENTATION_COMPONENTS : list string := ["OrdivonImmutableInputs"%string].

Definition backslash : string := String (Ascii.ascii_of_nat 92) EmptyString.

(** [trim_end_matches(['\\', '/'])] *)
Fixpoint trim_end_separators (s : string) : string :=
  match s with
  | EmptyString => EmptyString
  | String c rest =>
      match trim_end_separators rest with
      | EmptyString =>
          if (Z.of_nat (Ascii.nat_of_ascii c) =? 92) || (Z.of_nat (Ascii.nat_of_ascii c) =? 47) then EmptyString
          else String c EmptyString
      | trimmed => String c trimmed
      end
  end.

(** [windows_input_presentation_root] of [engine.rs] *)
Definition windows_input_presentation_root (plan : RuntimeExecutionPlan) (input_set_id : string)
    : RuntimeResult string :=
  program_data ← required_environment_value_case_insensitive (plan_env plan) "ProgramData"
                   "executionPlan.env";
  Ok (foldl (fun root component => root +:+ backslash +:+ component)
        (trim_end_separators program_data) WINDOWS_INPUT_PRESENTATION_COMPONENTS
      +:+ backslash +:+ input_set_id).

Record RuntimeReleaseProjection : Type := {
  rrj_contract : RuntimeReleaseContract.t;
  rrj_effect_id : string;
  rrj_client_request_id : string;
  rrj_job_id : string;
  rrj_workspace_id : string;
  rrj_commit : string;
  rrj_candidate_manifest_digest : string;
  rrj_expected_tool_count : Z;
  rrj_effect_disposition : RuntimeReleaseDisposition.t;
  rrj_effect_terminal : bool;
  rrj_receipt_available : bool;
  rrj_receipt_digest : option string;
  rrj_deployed_tool_count : option Z;
  rrj_tool_catalog_digest : option string;
  rrj_rollback_status : option string;
  rrj_reconciliation_issue : option string;
  rrj_attempt_state : option AttemptState.t;
  rrj_execution_terminal : bool;
  rrj_execution_disposition : option JobResolution.t;
  rrj_delivery_disposition : RuntimeDeliveryDisposition.t;
  rrj_recovery_required : bool;
  rrj_semantic_completion_evaluated : bool;
}.

Record RuntimeReleaseAdmission : Type := {
  rra_replayed : bool;
  rra_release : RuntimeReleaseProjection;
}.

Record RuntimeReleaseGetRequest : Type := {
  rrg_schema_version : Z;
  rrg_principal : string;
  rrg_client_request_id : string;
}.

(** ** Changes to a plan *)

Definition set_plan_env (env : gmap string string) (steps : list RuntimeExecutionStep)
    (input_set : option (string * list EffectiveInputBinding)) (credential_set : option string)
    (plan : RuntimeExecutionPlan) : RuntimeExecutionPlan :=
  {| plan_schema_version := plan_schema_version plan;
     plan_workspace_id := plan_workspace_id plan;
     plan_workspace_path := plan_workspace_path plan;
     plan_source_revision := plan_source_revision plan;
     plan_workspace_source_digest := plan_workspace_source_digest plan;
     plan_workspace_git_common_dir := plan_workspace_git_common_dir plan;
     plan_executable := plan_executable plan;
     plan_executable_digest := plan_executable_digest plan;
     plan_args := plan_args plan;
     plan_cwd := plan_cwd plan;
     plan_env := env;
     plan_timeout_ms := plan_timeout_ms plan;
     plan_stdout_limit_bytes := plan_stdout_limit_bytes plan;
     plan_stderr_limit_bytes := plan_stderr_limit_bytes plan;
     plan_steps := steps;
     plan_budget := plan_budget plan;
     plan_execution_profile := plan_execution_profile plan;
     plan_execution_target := plan_execution_target plan;
     plan_windows_authority := plan_windows_authority plan;
     plan_windows_execution_context := plan_windows_execution_context plan;
     plan_foreign_references := plan_foreign_references plan;
     plan_input_set_id := match input_set with Some (id, _) => Some id | None => plan_input_set_id plan end;
     plan_effective_inputs :=
       match input_set with Some (_, inputs) => inputs | None => plan_effective_inputs plan end;
     plan_credential_set_id :=
       match credential_set with Some id => Some id | None => plan_credential_set_id plan end;
     plan_principal := plan_principal plan |}.

(** [set_environment_value_case_insensitive(&mut step.env, ..)] *)
Definition set_step_value (name value : string) (step : RuntimeExecutionStep) : RuntimeExecutionStep :=
  {| step_id := step_id step;
     step_executable := step_executable step;
     step_executable_digest := step_executable_digest step;
     step_args := step_args step;
     step_cwd := step_cwd step;
     step_env := set_environment_value_case_insensitive name value (step_env step);
     step_timeout_ms := step_timeout_ms step;
     step_continue_on_error := step_continue_on_error step |}.

(** The plan with its inputs: where they are presented is told to every step. *)
Definition present_inputs (prepared : PreparedInputSet) (input_root : string)
    (plan : RuntimeExecutionPlan) : RuntimeExecutionPlan :=
  set_plan_env (set_environment_value_case_insensitive "ORDIVON_INPUT_ROOT" input_root (plan_env plan))
    (map (set_step_value "ORDIVON_INPUT_ROOT" input_root) (plan_steps plan))
    (Some (pis_input_set_id prepared, pis_effective_inputs prepared)) None plan.

Definition present_credentials (credential_set_id : string) (plan : RuntimeExecutionPlan)
    : RuntimeExecutionPlan :=
  set_plan_env (plan_env plan) (plan_steps plan) None (Some credential_set_id) plan.

(** [CREDENTIALS_DIRECTORY] among the names of an environment *)
Definition names_credentials_directory (env : gmap string string) : bool :=
  existsb (fun '(name, _) => eq_ignore_ascii_case name "CREDENTIALS_DIRECTORY") (btree_iter env).

Definition credentials_directory_owned (field : string) : RuntimeError :=
  invalid "CREDENTIALS_DIRECTORY is owned by the credential delivery provider" field.

(** The loop over the steps in [run_job_proposal_with_credentials]. *)
Fixpoint check_step_credentials (index : nat) (steps : list ExecutionStepProposal)
    : RuntimeResult unit :=
  match steps with
  | [] => Ok tt
  | step :: rest =>
      fail_if (names_credentials_directory (esp_env step))
        (credentials_directory_owned (field_at "execution.steps" index +:+ ".env.CREDENTIALS_DIRECTORY")) ;;
      check_step_credentials (S index) rest
  end.

(** What [run_job_proposal_with_credentials] asks of a proposal. *)
Definition validate_credential_proposal (execution : ExecutionProposal) : RuntimeResult unit :=
  fail_if (ep_execution_target execution != ExecutionTarget.LocalLinux)
    (invalid "credential-bound execution currently supports local_linux only"
       "execution.executionTarget") ;;
  fail_if (ep_execution_profile execution != ExecutionProfile.TrustedLocal)
    (invalid "credential-bound execution requires trusted_local" "execution.executionProfile") ;;
  fail_if (names_credentials_directory (ep_env execution))
    (credentials_directory_owned "execution.env.CREDENTIALS_DIRECTORY") ;;
  check_step_credentials 0 (ep_steps execution).

(** The [match] at the head of [admit_new_job_with_inputs]. *)
Definition validate_input_target `{P : Platform} (execution : UniversalExecutionRequest)
    (inputs : list InputBindingRequest) : RuntimeResult unit :=
  match uer_execution_target execution with
  | ExecutionTarget.LocalLinux => Ok tt
  | ExecutionTarget.WindowsNative =>
      fail_if (uer_execution_profile execution != ExecutionProfile.TrustedLocal)
        (invalid "windows_native immutable input bindings require trusted_local execution"
           "execution.executionProfile") ;;
      fail_if (uer_windows_authority execution != WindowsAuthority.Limited)
        (invalid "windows_native immutable input bindings support limited authority only"
           "execution.windowsAuthority") ;;
      validate_windows_input_relative_paths (map ibr_presentation_relative_path inputs)
  end.

Section admitting.
Context `{P : Platform, C : EngineCodec, WC : WorkspaceCodec, IC : IdentityCodec}.
Context (rt : Runtime).

(** [preallocate_admission_ids] *)
Definition fresh_admission_ids : eff PreallocatedAdmissionIds :=
  job ← ask FreshUuid;
  attempt ← ask FreshUuid;
  reservation ← ask FreshUuid;
  mret (preallocate_admission_ids job attempt reservation).

(** [self.registry.submit_preallocated(..)] *)
Definition submit_with (request : SubmitRequest) (ids : PreallocatedAdmissionIds)
    : eff AdmissionOutcome :=
  now ← ask NowMs;
  fence ← ask AdmissionFence;
  registry (Submit (rt_registry rt) fence now request ids).

Definition admitted_job_id (outcome : AdmissionOutcome) : string :=
  match outcome with
  | Created created => job_job_id (created_job created)
  | Existing job => job_job_id job
  end.

Definition submit_request (client_request_id identity_digest : string) (global_limit : Z)
    (provider : ExecutionProviderSnapshot) (release : option RuntimeReleaseEffectBinding)
    (host_dependencies : list HostDependencyBinding) (plan : RuntimeExecutionPlan) : SubmitRequest :=
  {| sub_schema_version := RUNTIME_SCHEMA_VERSION;
     sub_client_request_id := client_request_id;
     sub_request_identity_digest := Some identity_digest;
     sub_execution_provider := Some provider;
     sub_runtime_release_effect := release;
     sub_host_dependencies := host_dependencies;
     sub_plan := plan;
     sub_global_limit := global_limit |}.

(** What every admission does before it plans. *)
Definition reconcile_before_admission (workspace_id : string) : eff unit :=
  reconcile_recoverable_orphans rt ;;
  reconcile_workspace rt workspace_id ;;
  mret tt.

Definition admission_policy (request : JobRunRequest) : RuntimeResult unit :=
  validate_new_admission_policy request (uec_max_runtime_ms (rt_executor rt))
    (uec_max_output_bytes (rt_executor rt)).

(** [self.registry.submit(..)] *)
Definition submit (request : SubmitRequest) : eff AdmissionOutcome :=
  ids ← fresh_admission_ids;
  submit_with request ids.

Definition admit_new_job (request : JobRunRequest) (request_identity_digest : string)
    : eff string :=
  let execution := run_execution request in
  reconcile_before_admission (uer_workspace_id execution) ;;
  host_dependencies ← validate_host_dependencies request;
  plan ← resolve_plan rt request;
  provider ← current_execution_provider_snapshot rt (uer_execution_target execution);
  outcome ← submit (submit_request (run_client_request_id request) request_identity_digest
                      (run_global_limit request) provider None host_dependencies plan);
  mret (admitted_job_id outcome).

(** The [match self.registry.submit_preallocated(..)] of the two admissions that
    prepared a directory first. *)
Definition submit_prepared (request : SubmitRequest) (ids : PreallocatedAdmissionIds)
    (adopt : string -> eff unit) (discard : eff unit) : eff string :=
  catch (submit_with request ids) (fun outcome =>
    match outcome with
    | Ok (Created created) =>
        let job_id := job_job_id (created_job created) in
        catch (adopt job_id) (fun adopted =>
          of_result (map_err (with_operation_id job_id) adopted)) ;;
        mret job_id
    | Ok (Existing job) => discard ;; mret (job_job_id job)
    | Err error => discard ;; throw error
    end).

Definition input_presentation_root (plan : RuntimeExecutionPlan) (input_set_id : string)
    : RuntimeResult string :=
  match plan_execution_target plan with
  | ExecutionTarget.LocalLinux => Ok CONTAINED_INPUT_ROOT
  | ExecutionTarget.WindowsNative => windows_input_presentation_root plan input_set_id
  end.

Definition admit_new_job_with_inputs (request : JobRunRequest) (request_identity_digest : string)
    (inputs : list InputBindingRequest) : eff string :=
  let execution := run_execution request in
  of_result (validate_input_target execution inputs) ;;
  of_result (admission_policy request) ;;
  reconcile_before_admission (uer_workspace_id execution) ;;
  plan ← resolve_plan rt request;
  ids ← fresh_admission_ids;
  prepared ← materialize_input_bindings rt request request_identity_digest (pre_job_id ids) inputs;
  input_root ← of_result (input_presentation_root plan (pis_input_set_id prepared));
  provider ← current_execution_provider_snapshot rt (uer_execution_target execution);
  submit_prepared
    (submit_request (run_client_request_id request) request_identity_digest
       (run_global_limit request) provider None [] (present_inputs prepared input_root plan))
    ids (ensure_job_input_ownership rt) (discard_prepared_input_set (pis_prepared_root prepared)).

Definition admit_new_job_with_credentials (request : JobRunRequest)
    (request_identity_digest : string) (credentials : list CredentialBindingRequest) : eff string :=
  let execution := run_execution request in
  of_result (fail_if ((uer_execution_target execution != ExecutionTarget.LocalLinux)
                      || (uer_execution_profile execution != ExecutionProfile.TrustedLocal))
    (invalid "credential-bound execution requires trusted_local local_linux"
       "execution.executionProfile")) ;;
  of_result (admission_policy request) ;;
  reconcile_before_admission (uer_workspace_id execution) ;;
  plan ← resolve_plan rt request;
  ids ← fresh_admission_ids;
  prepared ← materialize_credential_bindings rt request (pre_job_id ids) credentials;
  provider ← current_execution_provider_snapshot rt (uer_execution_target execution);
  submit_prepared
    (submit_request (run_client_request_id request) request_identity_digest
       (run_global_limit request) provider None []
       (present_credentials (pcs_credential_set_id prepared) plan))
    ids (ensure_job_credential_ownership rt)
    (discard_prepared_credential_set (pcs_prepared_root prepared)).

Definition observe_admitted_job (job_id : string) (proposal : JobRunProposal) : eff JobObservation :=
  catch (observe_job rt
           {| jor_schema_version := RUNTIME_SCHEMA_VERSION;
              jor_job_id := job_id;
              jor_wait_ms := prop_wait_ms proposal;
              jor_wait_until := JobObserveWaitUntil.Terminal;
              jor_stdout_tail_bytes := prop_stdout_tail_bytes proposal;
              jor_stderr_tail_bytes := prop_stderr_tail_bytes proposal;
              jor_stdout_offset := None;
              jor_stderr_offset := None |})
    (fun observed => of_result (map_err (with_operation_id job_id) observed)).

(** Under the lifecycle lock: the Job of the request, and whether it was admitted by [admission]
    just now. *)
Definition find_or_admit (proposal : JobRunProposal) (digest : string) (compatible : option string)
    (admission : JobRunRequest -> eff string) : eff (string * bool) :=
  try LockLifecycle ;;
  existing ← registry (FindIdempotentJob (prop_principal proposal)
                         (prop_client_request_id proposal) digest compatible);
  match existing with
  | Some job => mret (job_job_id job, false)
  | None =>
      let request := resolve_proposal rt proposal in
      of_result (validate_run_request_structure request) ;;
      job_id ← admission request;
      mret (job_id, true)
  end.

Definition run_job_proposal (proposal : JobRunProposal) : eff JobObservation :=
  of_result (validate_run_proposal_structure proposal) ;;
  let digest := proposal_request_identity_digest proposal in
  '(job_id, created) ← find_or_admit proposal digest
    (legacy_request_identity_digest_from_proposal proposal)
    (fun request => of_result (admission_policy request) ;; admit_new_job request digest);
  (if created : bool then ensure_newly_admitted_job_dispatched rt job_id else mret tt) ;;
  observe_admitted_job job_id proposal.

Definition run_job_proposal_with_inputs (proposal : JobRunProposal)
    (inputs : list InputBindingRequest) : eff JobObservation :=
  of_result (validate_run_proposal_structure proposal) ;;
  inputs ← of_result (canonical_input_binding_requests inputs);
  let digest := input_bound_proposal_request_identity_digest proposal inputs in
  '(job_id, _) ← find_or_admit proposal digest None
    (fun request => admit_new_job_with_inputs request digest inputs);
  observe_admitted_job job_id proposal.

Definition run_job_proposal_with_credentials (proposal : JobRunProposal)
    (credentials : list CredentialBindingRequest) : eff JobObservation :=
  of_result (validate_run_proposal_structure proposal) ;;
  of_result (validate_credential_proposal (prop_execution proposal)) ;;
  credentials ← of_result (canonical_credential_binding_requests credentials);
  let digest := credential_bound_proposal_request_identity_digest proposal credentials in
  '(job_id, _) ← find_or_admit proposal digest None
    (fun request => admit_new_job_with_credentials request digest credentials);
  observe_admitted_job job_id proposal.

(** ** Releases *)

Definition runtime_release_projection (job_id : string) (binding : RuntimeReleaseEffectBinding)
    : eff RuntimeReleaseProjection :=
  snapshot ← registry (GetJobSnapshot job_id);
  receipt ← infallible (inspect_runtime_release_receipt binding snapshot);
  let projection := snap_projection snapshot in
  mret {| rrj_contract := rel_contract binding;
          rrj_effect_id := rel_effect_id binding;
          rrj_client_request_id := job_client_request_id (snap_job snapshot);
          rrj_job_id := job_job_id (snap_job snapshot);
          rrj_workspace_id := rel_workspace_id binding;
          rrj_commit := rel_commit binding;
          rrj_candidate_manifest_digest := rel_candidate_manifest_digest binding;
          rrj_expected_tool_count := rel_expected_tool_count binding;
          rrj_effect_disposition := rrp_disposition receipt;
          rrj_effect_terminal := rrp_terminal receipt;
          rrj_receipt_available := rrp_available receipt;
          rrj_receipt_digest := rrp_digest receipt;
          rrj_deployed_tool_count := rrp_deployed_tool_count receipt;
          rrj_tool_catalog_digest := rrp_tool_catalog_digest receipt;
          rrj_rollback_status := rrp_rollback_status receipt;
          rrj_reconciliation_issue := rrp_issue receipt;
          rrj_attempt_state := att_state <$> snap_attempt snapshot;
          rrj_execution_terminal := jp_execution_terminal projection;
          rrj_execution_disposition := jp_execution_disposition projection;
          rrj_delivery_disposition := jp_delivery_disposition projection;
          rrj_recovery_required := jp_recovery_required projection;
          rrj_semantic_completion_evaluated := false |}.

(** The committed side truth of a release that was found. *)
Definition replayed_release (missing : string) (job : RuntimeJobRecord)
    (request : RuntimeReleaseRequest) : eff RuntimeReleaseAdmission :=
  binding ← registry (GetRuntimeReleaseEffect (job_job_id job));
  binding ← of_result (ok_or (registry_corrupt missing "runtimeReleaseEffect") binding);
  of_result (validate_release_binding_matches_request binding request) ;;
  release ← runtime_release_projection (job_job_id job) binding;
  mret {| rra_replayed := true; rra_release := release |}.

Definition find_release (request : RuntimeReleaseRequest) : eff (option RuntimeJobRecord) :=
  registry (FindIdempotentJob (rrq_principal request) (rrq_client_request_id request)
              (runtime_release_request_identity_digest request) None).

Definition find_runtime_release_for_apply (request : RuntimeReleaseRequest)
    : eff (option RuntimeReleaseAdmission) :=
  of_result (validate_runtime_release_request request) ;;
  job ← find_release request;
  match job with
  | None => mret None
  | Some job =>
      admission ← replayed_release
        "Runtime Release request identity is missing its release side truth" job request;
      mret (Some admission)
  end.

Definition release_binding (request : RuntimeReleaseRequest) (receipt_path : string)
    : RuntimeReleaseEffectBinding :=
  {| rel_contract := RuntimeReleaseContract.RuntimeReleaseV1;
     rel_effect_id := runtime_release_effect_id request;
     rel_request_digest := runtime_release_request_identity_digest request;
     rel_workspace_id := rrq_workspace_id request;
     rel_commit := rrq_commit request;
     rel_candidate_manifest_digest := rrq_candidate_manifest_digest request;
     rel_expected_tool_count := rrq_expected_tool_count request;
     rel_receipt_path := receipt_path |}.

(** What is checked before the lock is taken. *)
Definition validate_release_proposal (request : RuntimeReleaseRequest) (proposal : JobRunProposal)
    (receipt_path : string) : RuntimeResult unit :=
  validate_runtime_release_request request ;;
  validate_run_proposal_structure proposal ;;
  fail_if (negb (String.eqb (prop_client_request_id proposal) (rrq_client_request_id request)
                 && String.eqb (prop_principal proposal) (rrq_principal request)
                 && String.eqb (ep_workspace_id (prop_execution proposal)) (rrq_workspace_id request)))
    (invalid "Runtime Release proposal identity does not match the structured release request"
       "clientRequestId") ;;
  fail_if (negb (is_absolute receipt_path))
    (invalid "Runtime Release receipt path must be absolute" "receiptPath").

(** The Job of a new release is submitted, and not dispatched. *)
Definition admit_release (request : RuntimeReleaseRequest) (proposal : JobRunProposal)
    (binding : RuntimeReleaseEffectBinding) : eff RuntimeReleaseAdmission :=
  let resolved := resolve_proposal rt proposal in
  of_result (validate_run_request_structure resolved) ;;
  of_result (admission_policy resolved) ;;
  reconcile_before_admission (rrq_workspace_id request) ;;
  plan ← resolve_plan rt resolved;
  provider ← current_execution_provider_snapshot rt (uer_execution_target (run_execution resolved));
  outcome ← submit (submit_request (rrq_client_request_id request)
                      (runtime_release_request_identity_digest request)
                      (run_global_limit resolved) provider (Some binding) [] plan);
  release ← runtime_release_projection (admitted_job_id outcome) binding;
  mret {| rra_replayed := false; rra_release := release |}.

Definition admit_runtime_release_effect (request : RuntimeReleaseRequest)
    (proposal : JobRunProposal) (receipt_path : string) : eff RuntimeReleaseAdmission :=
  of_result (validate_release_proposal request proposal receipt_path) ;;
  try LockLifecycle ;;
  job ← find_release request;
  match job with
  | Some job => replayed_release "Runtime Release replay lost its release side truth" job request
  | None => admit_release request proposal (release_binding request receipt_path)
  end.

Definition get_runtime_release_effect (request : RuntimeReleaseGetRequest)
    : eff RuntimeReleaseProjection :=
  of_result (fail_if (rrg_schema_version request != RUNTIME_SCHEMA_VERSION)
    (invalid "unsupported runtime schema version" "schemaVersion")) ;;
  found ← registry (FindRuntimeReleaseEffect (rrg_principal request) (rrg_client_request_id request));
  '(job, binding) ← of_result (ok_or
    (error_new JobNotFound "Runtime Release effect not found" (Some "clientRequestId"%string) false)
    found);
  runtime_release_projection (job_job_id job) binding.
End admitting.
