(* ===== verification/Silence.v ===== *)
(** * Programs that only observe

    The parts of the engine that start no process and advance no Attempt:
    [quiet], by the shape of the program.  A hint database collects them. *)

From S2P Require Import Prelude Text Errors Types Supervisor Platform Validation Submit Store.
From S2P Require Import Transaction Projection Lifecycle Admission Recovery Registry Query.
From S2P Require Import Effects Utf8 Engine Linux Launch Inputs Binding Output Evidence.
From S2P Require Import Observation Reconciliation Workspace Bundle Dispatching Materials.
From S2P Require Import Requests Planning.

#[local] Open Scope Z_scope.

Section silence.
Context `{P : Platform, C : EngineCodec}.

Lemma quiet_show unit_name : quiet (systemctl_show unit_name).
Proof. unfold systemctl_show. quiet_auto. Qed.
Lemma quiet_pid attempt : quiet (recorded_pid_alive attempt).
Proof. unfold recorded_pid_alive, process_identity, perform. quiet_auto. Qed.
Lemma quiet_identity pid : quiet (identity_of pid).
Proof. unfold identity_of, process_identity, perform. quiet_auto. Qed.
Lemma quiet_cgroup control_group : quiet (cgroup_has_processes control_group).
Proof. unfold cgroup_has_processes. cbv zeta. quiet_auto. Qed.
#[local] Hint Resolve quiet_show quiet_pid quiet_identity quiet_cgroup : quiet.

Lemma quiet_terminal_tree attempt : quiet (terminal_process_tree_alive attempt).
Proof. unfold terminal_process_tree_alive. quiet_auto. Qed.
#[local] Hint Resolve quiet_terminal_tree : quiet.
Lemma quiet_observe_tree attempt : quiet (observe_terminal_process_tree attempt).
Proof.
  assert (H : forall polls, quiet (observe_process_tree attempt polls)).
  { induction polls; cbn [observe_process_tree]; quiet_auto. }
  unfold observe_terminal_process_tree, perform. quiet_auto.
Qed.
#[local] Hint Resolve quiet_observe_tree : quiet.
Lemma quiet_release unit_name : quiet (release_terminal_unit unit_name).
Proof.
  assert (H : forall polls, quiet (release_loop unit_name polls)).
  { induction polls; cbn [release_loop]; unfold perform; quiet_auto. }
  unfold release_terminal_unit, perform. quiet_auto.
Qed.
#[local] Hint Resolve quiet_release : quiet.

Lemma quiet_load {A} file what field (decode : string -> result string A) attempt :
  quiet (load_if_present file what field decode attempt).
Proof. unfold load_if_present. cbv zeta. quiet_auto. Qed.
#[local] Hint Resolve quiet_load : quiet.
Lemma quiet_control_summary attempt : quiet (load_control_error_summary_if_present attempt).
Proof. unfold load_control_error_summary_if_present. quiet_auto. Qed.
Lemma quiet_range path offset max_bytes available terminal fields context :
  quiet (read_utf8_range path offset max_bytes available terminal fields context).
Proof. unfold read_utf8_range. cbv zeta. quiet_auto. Qed.
#[local] Hint Resolve quiet_control_summary quiet_range : quiet.
Lemma quiet_output path offset max_bytes terminal f1 f2 :
  quiet (read_output_text path offset max_bytes terminal f1 f2).
Proof. unfold read_output_text, read_tail_text. cbv zeta. quiet_auto. Qed.
Lemma quiet_modified attempt : quiet (latest_output_modified_ms attempt).
Proof. unfold latest_output_modified_ms. cbv zeta. quiet_auto. Qed.
#[local] Hint Resolve quiet_output quiet_modified : quiet.
Lemma quiet_for {A} attempt (load : AttemptRecord -> eff (option A)) :
  (forall a, quiet (load a)) -> quiet (for_attempt attempt load).
Proof. intros H. unfold for_attempt. destruct attempt; [apply H | done]. Qed.
Lemma quiet_parts projection attempt limits request :
  quiet (observation_from_parts projection attempt limits request).
Proof.
  unfold observation_from_parts, registry, try. cbv zeta.
  repeat first [apply quiet_for; intros; unfold load_runner_progress_if_present, load_runner_result_if_present
               | progress quiet_auto].
Qed.
#[local] Hint Resolve quiet_parts : quiet.
Lemma quiet_observation job_id stdout stderr : quiet (observation_from_registry job_id stdout stderr).
Proof. unfold observation_from_registry, registry, try. quiet_auto. Qed.
Lemma quiet_release_supervisor rt attempt : quiet (release_attempt_supervisor rt attempt).
Proof. unfold release_attempt_supervisor, registry, try. quiet_auto. Qed.
Lemma quiet_output_artifacts attempt context existing : quiet (output_artifacts attempt context existing).
Proof. unfold output_artifacts. quiet_auto. Qed.
#[local] Hint Resolve quiet_observation quiet_release_supervisor quiet_output_artifacts : quiet.

(** ** Inputs and credentials *)

Lemma quiet_verify_inputs root inputs : forall index, quiet (verify_inputs root index inputs).
Proof. induction inputs; intros index; cbn [verify_inputs]; quiet_auto. Qed.
#[local] Hint Resolve quiet_verify_inputs : quiet.
Lemma quiet_input_set root inputs : quiet (verify_effective_input_set root inputs).
Proof. unfold verify_effective_input_set. quiet_auto. Qed.
Lemma quiet_credential_entry root entry : quiet (credential_entry root entry).
Proof. unfold credential_entry. cbv zeta. quiet_auto. Qed.
#[local] Hint Resolve quiet_input_set quiet_credential_entry : quiet.
Lemma quiet_credentials root set_id : quiet (verify_credential_snapshot root set_id).
Proof. unfold verify_credential_snapshot, inspect_credential_snapshot. quiet_auto. Qed.
Lemma quiet_discard context root : quiet (discard_prepared context root).
Proof. unfold discard_prepared. quiet_auto. Qed.
Lemma quiet_adopt prepared owned operation : quiet (adopt prepared owned operation).
Proof. unfold adopt. quiet_auto. Qed.
#[local] Hint Resolve quiet_credentials quiet_discard quiet_adopt : quiet.
Lemma quiet_input_ownership rt job_id : quiet (ensure_job_input_ownership rt job_id).
Proof. unfold ensure_job_input_ownership, discard_prepared_input_set. cbv zeta. quiet_auto. Qed.
Lemma quiet_credential_ownership rt job_id : quiet (ensure_job_credential_ownership rt job_id).
Proof. unfold ensure_job_credential_ownership, discard_prepared_credential_set. cbv zeta. quiet_auto. Qed.

(** ** The Windows provider and its evidence *)

Lemma quiet_broker_digest rt broker : quiet (executable_digest rt broker).
Proof. unfold executable_digest. quiet_auto. Qed.
#[local] Hint Resolve quiet_broker_digest : quiet.
Lemma quiet_windows_config rt config : quiet (validate_windows_config rt config).
Proof. unfold validate_windows_config. quiet_auto. Qed.
Lemma quiet_committed_broker rt context windows : quiet (verify_committed_broker rt context windows).
Proof. unfold verify_committed_broker, verify_digest. quiet_auto. Qed.
Lemma quiet_read_evidence {A} attempt file what field (decode : string -> result string A) :
  quiet (read_evidence attempt file what field decode).
Proof. unfold read_evidence. quiet_auto. Qed.
Lemma quiet_unchanged attempt file content what field :
  quiet (unchanged_digest attempt file content what field).
Proof. unfold unchanged_digest. cbv zeta. quiet_auto. Qed.
Lemma quiet_provider job_id : quiet (committed_provider job_id).
Proof. unfold committed_provider. quiet_auto. Qed.
#[local] Hint Resolve quiet_windows_config quiet_committed_broker quiet_read_evidence quiet_unchanged
  quiet_provider : quiet.
Lemma quiet_launcher_start rt attempt : quiet (validate_windows_launcher_start_evidence rt attempt).
Proof. unfold validate_windows_launcher_start_evidence. quiet_auto. Qed.
Lemma quiet_windows_start rt attempt : quiet (validate_windows_start_evidence rt attempt).
Proof. unfold validate_windows_start_evidence. quiet_auto. Qed.

(** ** The Runner and its evidence *)

Lemma quiet_validate_runner path : quiet (validate_runner path).
Proof. unfold validate_runner. quiet_auto. Qed.
Lemma quiet_linux_provider job_id : quiet (linux_provider job_id).
Proof. unfold linux_provider. quiet_auto. Qed.
Lemma quiet_process_identity pid : quiet (process_identity pid).
Proof. unfold process_identity, perform. quiet_auto. Qed.
#[local] Hint Resolve quiet_process_identity : quiet.
Lemma quiet_executing_image evidence pid identity provider :
  quiet (check_executing_image evidence pid identity provider).
Proof. unfold check_executing_image. quiet_auto. Qed.
Lemma quiet_main_process properties evidence : quiet (observed_main_process properties evidence).
Proof. unfold observed_main_process. quiet_auto. Qed.
Lemma quiet_read_trimmed path : quiet (read_trimmed path).
Proof. unfold read_trimmed. quiet_auto. Qed.

(** ** The committed facts, and the bundle *)

#[local] Hint Resolve quiet_input_ownership quiet_credential_ownership quiet_validate_runner : quiet.
Lemma quiet_snapshot rt target : quiet (current_execution_provider_snapshot rt target).
Proof. unfold current_execution_provider_snapshot. quiet_auto. Qed.
#[local] Hint Resolve quiet_snapshot : quiet.
Lemma quiet_verify_provider rt job_id : quiet (verify_committed_execution_provider rt job_id).
Proof. unfold verify_committed_execution_provider. quiet_auto. Qed.
Lemma quiet_verify_dependencies job_id : quiet (verify_committed_host_dependencies job_id).
Proof. unfold verify_committed_host_dependencies, verify_host_dependency. cbv zeta. quiet_auto. Qed.
Lemma quiet_dispatch_inputs rt job_id plan : quiet (dispatch_inputs rt job_id plan).
Proof. unfold dispatch_inputs. cbv zeta. quiet_auto. Qed.
Lemma quiet_dispatch_credentials rt job_id plan : quiet (dispatch_credentials rt job_id plan).
Proof. unfold dispatch_credentials. cbv zeta. quiet_auto. Qed.
#[local] Hint Resolve quiet_dispatch_inputs quiet_dispatch_credentials : quiet.
Lemma quiet_linux_spec rt starting plan path : quiet (linux_run_spec rt starting plan path).
Proof. unfold linux_run_spec. quiet_auto. Qed.
Lemma quiet_windows_spec rt starting plan path : quiet (windows_run_spec rt starting plan path).
Proof. unfold windows_run_spec. quiet_auto. Qed.
Lemma quiet_write_synced path content : quiet (write_bytes_synced path content).
Proof. unfold write_bytes_synced. quiet_auto. Qed.
Lemma quiet_published_file path file : quiet (verify_published_file path file).
Proof. unfold verify_published_file. destruct file. cbv zeta. quiet_auto. Qed.
#[local] Hint Resolve quiet_write_synced quiet_published_file : quiet.
Lemma quiet_published path request plan manifest : quiet (verify_published_bundle path request plan manifest).
Proof. unfold verify_published_bundle. quiet_auto. Qed.
#[local] Hint Resolve quiet_published : quiet.
Lemma quiet_publish attempt parent path request plan manifest :
  quiet (publish_bundle attempt parent path request plan manifest).
Proof. unfold publish_bundle, fill_and_publish. cbv zeta. quiet_auto. Qed.

(** ** Materials of Jobs *)

Lemma quiet_ignore {R} (c : call R) : silent R c [] -> quiet (ignore c).
Proof. intros Hc. by apply quiet_vis. Qed.
Lemma quiet_indexed {A} (f : nat -> A -> eff unit) l :
  (forall i x, quiet (f i x)) -> forall i, quiet (for_indexed f i l).
Proof. intros Hf. induction l; intros i; cbn [for_indexed]; quiet_auto. Qed.
Lemma quiet_copy target : quiet (copy_input_and_digest target).
Proof. unfold copy_input_and_digest. quiet_auto. Qed.
#[local] Hint Extern 1 (quiet (ignore _)) => apply quiet_ignore; exact I : quiet.
#[local] Hint Resolve quiet_copy : quiet.
Lemma quiet_materialize {A} words root owned_root job_id fill (finish : string -> eff A) :
  (forall staging, quiet (fill staging)) -> (forall prepared, quiet (finish prepared)) ->
  quiet (materialize words root owned_root job_id fill finish).
Proof.
  intros Hfill Hfinish. unfold materialize, sync_directory. cbv zeta.
  repeat first [apply Hfill | apply Hfinish | progress quiet_auto].
Qed.
Lemma quiet_materialize_inputs rt request digest job_id inputs :
  quiet (materialize_input_bindings rt request digest job_id inputs).
Proof.
  apply quiet_materialize; [intros; apply quiet_indexed; intros; unfold materialize_input; cbv zeta | intros].
  all: quiet_auto.
Qed.
Lemma quiet_materialize_credentials rt request job_id credentials :
  quiet (materialize_credential_bindings rt request job_id credentials).
Proof.
  apply quiet_materialize; [intros; apply quiet_indexed; intros; unfold materialize_credential; cbv zeta | intros].
  all: unfold inspect_credential_snapshot; quiet_auto.
Qed.

Lemma quiet_entries enumerate read root f :
  (forall name, quiet (f name)) -> quiet (for_entries enumerate read root f).
Proof. intros Hf. unfold for_entries. quiet_auto. Qed.
Lemma quiet_directories enumerate read inspect root f :
  (forall name metadata, quiet (f name metadata)) ->
  quiet (for_job_directories enumerate read inspect root f).
Proof. intros Hf. apply quiet_entries. intros. quiet_auto. Qed.
Lemma quiet_abandoned kind root prefix name : quiet (remove_abandoned kind root prefix name).
Proof. unfold remove_abandoned. quiet_auto. Qed.
#[local] Hint Resolve quiet_abandoned : quiet.
Lemma quiet_leases kind root now age : quiet (collect_leases kind root now age).
Proof.
  apply quiet_entries. intros name. cbv zeta. unfold sync_directory.
  repeat first [apply quiet_entries; intros | progress quiet_auto].
Qed.
#[local] Hint Resolve quiet_leases quiet_input_ownership quiet_credential_ownership : quiet.
Lemma quiet_input_sets rt age : quiet (reconcile_prepared_input_sets rt age).
Proof.
  unfold reconcile_prepared_input_sets. cbv zeta.
  repeat first [apply quiet_directories; intros; unfold reconcile_prepared_input, discard_prepared_input_set
               | progress quiet_auto].
Qed.
Lemma quiet_credential_sets rt age : quiet (reconcile_prepared_credential_sets rt age).
Proof.
  unfold reconcile_prepared_credential_sets. cbv zeta.
  repeat first [apply quiet_directories; intros;
                  unfold reconcile_prepared_credential, retire_credentials, sync_directory,
                    discard_prepared_credential_set; cbv zeta
               | progress quiet_auto].
Qed.

(** ** Workspaces and plans *)

Context {WC : WorkspaceCodec}.

Lemma quiet_canonical path field : quiet (canonical_directory path field).
Proof. unfold canonical_directory. quiet_auto. Qed.
#[local] Hint Resolve quiet_canonical : quiet.
Lemma quiet_both_canonical p q field : quiet (both_canonical p q field).
Proof. unfold both_canonical. quiet_auto. Qed.
#[local] Hint Resolve quiet_both_canonical : quiet.
Lemma quiet_path_matches config workspace_id recorded :
  quiet (workspace_record_path_matches_identity config workspace_id recorded).
Proof. unfold workspace_record_path_matches_identity, perform. cbv zeta. quiet_auto. Qed.
#[local] Hint Resolve quiet_path_matches : quiet.
Lemma quiet_record_metadata config workspace_id : quiet (load_workspace_record_metadata config workspace_id).
Proof.
  unfold load_workspace_record_metadata, read_workspace_record_bytes, bind_workspace_record_path.
  cbv zeta. repeat first [progress quiet_auto | apply quiet_prog_bind].
Qed.
#[local] Hint Resolve quiet_record_metadata : quiet.
Lemma quiet_record config workspace_id : quiet (load_workspace_record config workspace_id).
Proof. unfold load_workspace_record. quiet_auto. Qed.
Lemma quiet_git repo arguments : quiet (git_output_bytes repo arguments).
Proof. unfold git_output_bytes. quiet_auto. Qed.
#[local] Hint Resolve quiet_record quiet_git : quiet.
Lemma quiet_git_text repo arguments : quiet (git_output repo arguments).
Proof. unfold git_output. quiet_auto. Qed.
#[local] Hint Resolve quiet_git_text : quiet.
Lemma quiet_head workspace : quiet (workspace_head_revision_at workspace).
Proof. unfold workspace_head_revision_at. quiet_auto. Qed.
Lemma quiet_common_dir workspace : quiet (workspace_git_common_dir_at workspace).
Proof. unfold workspace_git_common_dir_at. quiet_auto. Qed.
Lemma quiet_collect_entries {A B} (f : A -> ueff B) l :
  (forall x, quiet (f x)) -> quiet (collect_entries f l).
Proof. intros Hf. induction l; cbn [collect_entries]; quiet_auto. Qed.
Lemma quiet_source_entry nested workspace relative index_mode :
  (forall path, quiet (nested path)) -> quiet (workspace_source_entry nested workspace relative index_mode).
Proof.
  intros Hn. unfold workspace_source_entry, source_content, is_git_worktree. cbv zeta. quiet_auto.
Qed.
#[local] Hint Resolve quiet_head : quiet.
Lemma quiet_source_below levels : forall workspace, quiet (workspace_source_state_digest_below levels workspace).
Proof.
  induction levels as [ | levels IH]; intros workspace; cbn [workspace_source_state_digest_below]; cbv zeta.
  - apply quiet_ret.
  - assert (Hentry : forall w r m,
      quiet (workspace_source_entry (workspace_source_state_digest_below levels) w r m))
      by (intros; apply quiet_source_entry, IH).
    repeat first [apply quiet_collect_entries; intros | progress quiet_auto].
Qed.
Lemma quiet_source_digest config workspace_id : quiet (workspace_source_state_digest config workspace_id).
Proof.
  apply quiet_ubind; [apply quiet_record | ]. intros record. exact (quiet_source_below PATH_MAX _).
Qed.
Lemma quiet_tmp_presentation rt workspace_id : quiet (ensure_trusted_workspace_tmp_presentation rt workspace_id).
Proof.
  assert (Hroot : forall tries parent, quiet (ensure_presentation_root parent tries)).
  { induction tries; intros parent; cbn [ensure_presentation_root]; cbv zeta; quiet_auto. }
  assert (Hlink : forall tries presentation backing, quiet (ensure_presentation_link presentation backing tries)).
  { induction tries; intros presentation backing; cbn [ensure_presentation_link]; quiet_auto. }
  unfold ensure_trusted_workspace_tmp_presentation, universal, workspace_tmp_presentation_path,
    canonical_workspace_tmp_path, canonical_store_root.
  repeat first [apply Hroot | apply Hlink | progress quiet_auto].
Qed.
#[local] Hint Resolve quiet_tmp_presentation : quiet.
Lemma quiet_create_dirs context paths : quiet (create_dirs context paths).
Proof. unfold create_dirs. quiet_auto. Qed.
#[local] Hint Resolve quiet_create_dirs : quiet.
Lemma quiet_environment rt record profile : quiet (execution_environment rt record profile).
Proof. unfold execution_environment. cbv zeta. quiet_auto. Qed.
#[local] Hint Resolve quiet_environment : quiet.
Lemma quiet_base_environment rt record execution : quiet (base_environment rt record execution).
Proof. unfold base_environment, windows_base. quiet_auto. Qed.
End silence.

#[export] Hint Resolve quiet_canonical quiet_record_metadata quiet_record quiet_git quiet_head
  quiet_common_dir quiet_source_digest quiet_base_environment : quiet.
#[export] Hint Extern 1 (quiet (ignore _)) => apply quiet_ignore; exact I : quiet.

#[export] Hint Resolve quiet_show quiet_pid quiet_identity quiet_cgroup quiet_terminal_tree
  quiet_observe_tree quiet_release quiet_load quiet_control_summary quiet_range quiet_output
  quiet_modified quiet_parts quiet_observation quiet_release_supervisor quiet_output_artifacts
  quiet_input_set quiet_credentials quiet_discard quiet_adopt quiet_input_ownership
  quiet_credential_ownership quiet_windows_config quiet_committed_broker quiet_read_evidence
  quiet_unchanged quiet_provider quiet_launcher_start quiet_windows_start quiet_validate_runner
  quiet_linux_provider quiet_process_identity quiet_executing_image quiet_main_process
  quiet_read_trimmed quiet_snapshot quiet_verify_provider quiet_verify_dependencies
  quiet_dispatch_inputs quiet_dispatch_credentials quiet_linux_spec quiet_windows_spec
  quiet_write_synced quiet_published_file quiet_published quiet_publish
  quiet_materialize_inputs quiet_materialize_credentials quiet_input_sets quiet_credential_sets : quiet.
