(* ===== verification/Observed.v ===== *)
(** * What an observation establishes

    The answers behind the findings of [Linux], [RunnerEvidence],
    [ReleaseReceipt] and [TerminalEvidence]: when a program says that a process
    tree is gone, or that a result is the Attempt's, these answers were given. *)

From S2P Require Import Prelude Text Errors Types Supervisor Platform Validation Submit Store.
From S2P Require Import Transaction Projection Lifecycle Admission Recovery Registry Query.
From S2P Require Import Effects Utf8 Engine Linux Inputs Binding Output Evidence Observation.
From S2P Require Import Reconciliation Silence.

#[local] Open Scope Z_scope.

Section facts.
Context `{P : Platform, C : EngineCodec}.

(** systemd answered, and the answer satisfies [f]. *)
Definition shown (unit_name : string) (f : gmap string string -> Prop) (h : history) : Prop :=
  exists outcome properties, Event (show_unit unit_name) outcome ∈ h
    /\ show_properties outcome = Ok properties /\ f properties.

(** No process, or another one, has the identifier of the recorded process. *)
Definition pid_gone (attempt : AttemptRecord) (h : history) : Prop :=
  match att_main_pid attempt with
  | None => True
  | Some pid => pid = 0 \/ exists answer,
      Event (ReadText ("/proc/" +:+ pretty pid +:+ "/stat")) answer ∈ h
      /\ same_some (match answer with Ok stat => stat_start_time stat | Err _ => None end)
           (att_process_start_identity attempt) = false
  end.

(** The control group was seen without processes. *)
Definition cgroup_empty (control_group : string) (h : history) : Prop :=
  let root := path_join "/sys/fs/cgroup" (trim_slashes control_group) in
  (exists content, Event (ReadText (path_join root "cgroup.events")) (Ok content) ∈ h
     /\ parse_cgroup_populated content = Ok false)
  \/ (Event (IsFile (path_join root "cgroup.events")) false ∈ h
      /\ (Event (IsFile (path_join root "cgroup.procs")) false ∈ h
          \/ exists content, Event (ReadText (path_join root "cgroup.procs")) (Ok content) ∈ h
               /\ existsb (fun line => present (parse_u32 (str_trim line))) (lines content) = false)).

(** Unit, recorded process and control group: none of the three is alive. *)
Definition tree_gone (attempt : AttemptRecord) (h : history) : Prop :=
  shown (att_unit_name attempt) (fun properties => matching_unit_active attempt properties = false) h
  /\ pid_gone attempt h
  /\ match att_control_group attempt with
     | Some control_group => cgroup_empty control_group h
     | None => True
     end.

Lemma shown_app unit_name f h1 h2 : shown unit_name f h1 \/ shown unit_name f h2 ->
  shown unit_name f (h1 ++ h2).
Proof. unfold shown. intros [(o & p & H & ?) | (o & p & H & ?)]; exists o, p; split; try done; in_history. Qed.

Lemma pid_gone_app attempt h1 h2 : pid_gone attempt h1 \/ pid_gone attempt h2 ->
  pid_gone attempt (h1 ++ h2).
Proof.
  unfold pid_gone. destruct (att_main_pid attempt); [ | done].
  intros [[? | (a & H & ?)] | [? | (a & H & ?)]]; [by left | right | by left | right];
    exists a; split; try done; in_history.
Qed.

Lemma systemctl_show_spec unit_name :
  spec (systemctl_show unit_name) (fun r h => forall properties, r = Ok properties ->
    forall f : gmap string string -> Prop, f properties -> shown unit_name f h).
Proof.
  unfold spec, systemctl_show. wp_norm. split; [done | ]. intros outcome properties H f Hf.
  exists outcome, properties. split; [apply (last_event _ []) | done].
Qed.

Lemma recorded_pid_alive_spec attempt :
  spec (recorded_pid_alive attempt) (fun alive h => alive = false -> pid_gone attempt h).
Proof.
  unfold spec, recorded_pid_alive, pid_gone, process_identity. wp_norm.
  destruct (att_main_pid attempt) as [pid | ]; [ | done].
  destruct (pid =? 0) eqn:Hpid; cbn [prog_bind wp].
  - intros _. left. by apply Z.eqb_eq.
  - split; [done | ]. intros answer Hs. right. exists answer. split; [apply (last_event _ []) | exact Hs].
Qed.

Lemma cgroup_has_processes_spec control_group :
  spec (cgroup_has_processes control_group) (fun r h => r = Ok false -> cgroup_empty control_group h).
Proof.
  spec_start. unfold cgroup_has_processes. wp_norm. repeat wp_step; try done; wp_answers.
  - left. exists a0. split; [in_history | done].
  - right. split; [in_history | left].
    match goal with H : negb ?b = true |- _ => destruct b; [done | ] end. in_history.
  - right. split; [in_history | right]. exists a0. split; [in_history | done].
Qed.

Lemma cgroup_empty_app control_group h1 h2 :
  cgroup_empty control_group h1 \/ cgroup_empty control_group h2 ->
  cgroup_empty control_group (h1 ++ h2).
Proof.
  intros H. unfold cgroup_empty in *. cbv zeta in *.
  destruct H as [[(c & H & Hp) | (H1 & [H2 | (c & H2 & Hp)])] | [(c & H & Hp) | (H1 & [H2 | (c & H2 & Hp)])]].
  all: first [left; exists c; split; [in_history | exact Hp]
             | right; split; [in_history | left; in_history]
             | right; split; [in_history | right; exists c; split; [in_history | exact Hp]]].
Qed.

Lemma tree_gone_app attempt h1 h2 : tree_gone attempt h1 \/ tree_gone attempt h2 ->
  tree_gone attempt (h1 ++ h2).
Proof.
  unfold tree_gone. destruct (att_control_group attempt);
    intros [(? & ? & ?) | (? & ? & ?)]; auto using shown_app, pid_gone_app, cgroup_empty_app.
Qed.

Lemma attempt_process_tree_alive_spec attempt :
  spec (attempt_process_tree_alive attempt) (fun r h => r = Ok false -> tree_gone attempt h).
Proof.
  unfold spec, attempt_process_tree_alive, tree_gone.
  use_spec systemctl_show_spec. intros [properties | e] h1 Hshow; [ | done].
  specialize (Hshow properties eq_refl).
  use_spec recorded_pid_alive_spec. intros alive h2 Hpid. simpl in Hpid.
  destruct (att_control_group attempt) as [control_group | ].
  - use_spec cgroup_has_processes_spec. intros [cgroup_alive | e] h3 Hempty; [ | done].
    wp_norm. intros [= [[Hunit ->]%orb_false_iff ->]%orb_false_iff].
    eauto 20 using shown_app, pid_gone_app, cgroup_empty_app.
  - wp_norm. rewrite orb_false_r. intros [= [Hunit ->]%orb_false_iff].
    eauto 20 using shown_app, pid_gone_app.
Qed.

(** ** Orphans *)

(** Every call of the Registry that answered [Ok a]. *)
Definition answered {R} (op : registry_op R) (a : R) (h : history) : Prop :=
  Event (Registry op) (Ok a) ∈ h.

(** No process of the Attempt was seen: the Windows launcher that owns it is
    gone, or on Linux the whole tree is, and where no identity was ever bound
    systemd neither runs nor is about to run the unit. *)
Definition observed_dead (attempt : AttemptRecord) (h : history) : Prop :=
  (answered (GetSupervisorOwner (att_attempt_id attempt)) None h /\ tree_gone attempt h
   /\ (never_bound attempt = true ->
       shown (att_unit_name attempt) (fun properties =>
         unit_is_active properties = false /\ unit_has_pending_job properties = false) h))
  \/ (exists process_id creation_time image job_name start authority broker_digest observed,
       answered (GetSupervisorOwner (att_attempt_id attempt))
         (Some (WindowsLauncherV1 process_id creation_time image job_name start)) h
       /\ Event (ObserveWindowsLauncherOwner authority broker_digest process_id) (Ok observed) ∈ h
       /\ (wo_process_alive observed = true ->
            wo_process_creation_time_file_time observed <> Some creation_time)).

Lemma registry_spec {R} (op : registry_op R) :
  (if advances op then False else True) ->
  spec (registry op) (fun r h => forall a, r = Ok a -> answered op a h).
Proof.
  intros Hop. spec_start. split; [exact Hop | ]. intros r a ->. apply (last_event _ []).
Qed.

Lemma answered_app {R} (op : registry_op R) a h1 h2 :
  answered op a h1 \/ answered op a h2 -> answered op a (h1 ++ h2).
Proof. unfold answered. intros [? | ?]; in_history. Qed.

Lemma orphan_process_tree_alive_spec rt attempt :
  spec (orphan_process_tree_alive rt attempt) (fun r h => r = Ok false -> observed_dead attempt h).
Proof.
  unfold spec, orphan_process_tree_alive, observed_dead.
  use_spec (registry_spec (GetSupervisorOwner (att_attempt_id attempt)) I).
  intros [owner | e] h1 Howner; [ | done]. specialize (Howner owner eq_refl).
  destruct owner as [[process_id creation_time image job_name start] | ].
  - unfold require_windows. wp_norm. repeat wp_step; try done; wp_answers.
    right. eexists process_id, creation_time, image, job_name, start, _, _, _.
    split; [eauto 20 using answered_app | ]. split; [in_history | ]. intros Halive Hc.
    match goal with H : _ && _ = false |- _ => rewrite Halive in H; simpl in H; by apply bool_decide_eq_false in H end.
  - use_spec attempt_process_tree_alive_spec. intros [alive | e] h2 Hgone; [ | done].
    destruct alive; [done | ]. specialize (Hgone eq_refl).
    destruct (never_bound attempt).
    + use_spec systemctl_show_spec. intros [properties | e] h3 Hshow; [ | done].
      specialize (Hshow properties eq_refl). wp_norm.
      intros [= [Ha Hj]%orb_false_iff]. left.
      eauto 20 using answered_app, tree_gone_app, shown_app.
    + wp_norm. intros _. left. split; [eauto 20 using answered_app | ].
      split; [eauto 20 using tree_gone_app | done].
Qed.

(** ** Results *)

(** The terminal is the one of a result file that names the Attempt in every
    field, and whose outputs are the files that are there. *)
Definition accepted_result (current : AttemptRecord) (terminal : TerminalCommit) (h : history)
    : Prop :=
  exists text result,
    Event (ReadFile (bundle_file current RESULT_FILE)) (Ok text) ∈ h
    /\ runner_result_of_json text = Ok result
    /\ result_identity_matches current result = true
    /\ Event (Sha256File (bundle_file current STDOUT_FILE)) (Ok (co_digest (rr_stdout result))) ∈ h
    /\ Event (Sha256File (bundle_file current STDERR_FILE)) (Ok (co_digest (rr_stderr result))) ∈ h
    /\ tc_attempt_id terminal = att_attempt_id current
    /\ tc_expected_row_version terminal = att_row_version current
    /\ (tc_state terminal, tc_reason_code terminal) = runner_disposition current result
    /\ tc_result_digest terminal = sha256_bytes text.

Lemma validate_captured_output_spec attempt output stdout :
  spec (validate_captured_output attempt output stdout) (fun r h => forall artifact, r = Ok artifact ->
    Event (Sha256File (bundle_file attempt (if stdout then STDOUT_FILE else STDERR_FILE)))
      (Ok (co_digest output)) ∈ h).
Proof.
  spec_start. unfold validate_captured_output. wp_norm. repeat wp_step; try done; wp_answers.
  match goal with H : fail_if (negb (String.eqb ?d _) || _) _ = Ok _ |- _ =>
    unfold fail_if in H; destruct (String.eqb d (co_digest output)) eqn:Hd; [ | done];
    apply String.eqb_eq in Hd as -> end.
  in_history.
Qed.

Lemma prepare_from_bundle_spec current :
  spec (prepare_runner_terminal_from_bundle current) (fun r h => forall terminal, r = Ok terminal ->
    accepted_result current terminal h).
Proof.
  unfold spec, prepare_runner_terminal_from_bundle, try_map, mbind, eff_mbind. cbn [prog_bind wp].
  split; [done | ]. intros [text | e]; cbn [map_err prog_bind wp]; [ | done].
  unfold of_result. cbn [prog_bind].
  destruct (runner_result_of_json text) as [result | e] eqn:Hparse; cbn [map_err prog_bind wp]; [ | done].
  unfold fail_if. destruct (result_identity_matches current result) eqn:Hid; cbn [negb wp]; [ | done].
  use_spec validate_captured_output_spec. intros [stdout | e] h1 H1; [ | done]. specialize (H1 stdout eq_refl).
  use_spec validate_captured_output_spec. intros [stderr | e] h2 H2; [ | done]. specialize (H2 stderr eq_refl).
  wp_norm. intros terminal [= <-]. exists text, result.
  repeat (split; [first [in_history | done] | ]). split; [ | done].
  simpl. by destruct (runner_disposition current result).
Qed.

(** ** Terminal evidence joins the artifacts, and changes nothing else *)

Definition extends (terminal terminal' : TerminalCommit) : Prop :=
  exists artifact, terminal' = push_artifact artifact terminal.

Lemma append_terminal_evidence_spec attempt observed terminal :
  spec (append_terminal_evidence_with_observation attempt observed terminal)
    (fun r _ => forall terminal', r = Ok terminal' -> extends terminal terminal').
Proof.
  unfold append_terminal_evidence_with_observation, registry, try, spec. cbv zeta.
  repeat (use_quiet; intros [? | ?] ?; [ | done]).
  wp_norm. intros terminal' [= <-]. by eexists.
Qed.

(** ** Releases *)

(** The receipt of the release has a result that names it and says deployed,
    with the number of tools it was to have. *)
Definition deployed_receipt (binding : RuntimeReleaseEffectBinding) (digest : string) (h : history)
    : Prop :=
  exists text result effect,
    Event (ReadUpTo (path_join (rel_receipt_path binding) "result.json") 0
             (MAX_RUNTIME_RELEASE_RECEIPT_BYTES + 1)) (Ok text) ∈ h
    /\ json_of_string text = Ok result
    /\ str_at "status" result = Some "deployed"%string
    /\ str_at "commit" result = Some (rel_commit binding)
    /\ json_get "releaseEffect" result = Some effect
    /\ release_effect_json_matches effect binding = true
    /\ probe_tool_count result = Some (rel_expected_tool_count binding)
    /\ digest = sha256_bytes text.

Lemma release_receipt_json_spec path :
  spec (release_receipt_json path) (fun r h => forall value digest, r = Ok (Some (value, digest)) ->
    exists text, Event (ReadUpTo path 0 (MAX_RUNTIME_RELEASE_RECEIPT_BYTES + 1)) (Ok text) ∈ h
      /\ json_of_string text = Ok value /\ digest = sha256_bytes text).
Proof.
  unfold spec, release_receipt_json, perform, mbind, prog_mbind, mret, prog_mret. cbn [prog_bind wp].
  split; [done | ]. intros [[length | | | ] | e]; cbn [wp]; try done;
    [ | destruct (io_not_found e); done].
  destruct (_ <? length); cbn [wp]; [done | ]. split; [done | ]. intros [ | e]; cbn [wp]; [ | done].
  split; [done | ]. intros [text | e]; cbn [wp]; [ | done].
  destruct (_ <? str_len text); [done | ]. destruct (json_of_string text) as [v | ] eqn:Hjson; [ | done].
  destruct (is_object v); [ | done]. intros value digest [= <- <-]. exists text. split; [in_history | done].
Qed.

Lemma missing_receipt_not_deployed snapshot issue :
  rrp_disposition (missing_receipt snapshot issue) <> RuntimeReleaseDisposition.Deployed.
Proof. unfold missing_receipt. destruct (present _); [done | ]. simpl. by destruct (snap_attempt _) as [a | ]; [destruct (_ == _) | ]. Qed.

Lemma inspect_release_spec binding snapshot :
  spec (inspect_runtime_release_receipt binding snapshot) (fun receipt h =>
    rrp_disposition receipt = RuntimeReleaseDisposition.Deployed ->
    exists digest, rrp_digest receipt = Some digest /\ deployed_receipt binding digest h).
Proof.
  unfold spec, inspect_runtime_release_receipt, perform. cbv zeta.
  unfold mbind, prog_mbind, mret, prog_mret. cbn [prog_bind wp]. split; [done | ].
  intros [[length | | | ] | e]; cbn [wp]; try done;
    [ | destruct (io_not_found e); [intros H; by apply missing_receipt_not_deployed in H | done]].
  apply wp_bind. eapply spec_wp; [apply release_receipt_json_spec | by intros | ].
  intros [[[request digest0] | ] | issue] h1 _; cbn [wp];
    [ | intros H; by apply missing_receipt_not_deployed in H | done].
  destruct (negb _); cbn [wp]; [done | ].
  apply wp_bind. eapply spec_wp; [apply release_receipt_json_spec | by intros | ].
  intros [[[result digest] | ] | issue] h2 Hresult; cbn [wp];
    [ | intros H; by apply missing_receipt_not_deployed in H | done].
  destruct (Hresult _ _ eq_refl) as (text & Hin & Hjson & ->).
  destruct (_ || _) eqn:Hmatch; cbn [wp]; [done | ]. apply orb_false_iff in Hmatch as [Hcommit Heffect].
  apply wp_bind. apply quiet_wp; [eapply spec_mono; [apply release_receipt_json_spec | done] | by intros | ].
  intros [rollback | issue] h3; cbn [wp]; [ | done].
  unfold receipt_projection. cbv zeta. destruct (_ == Some "restored_previous"%string); [done | ].
  destruct ((str_at "status" result == Some "deployed"%string) && _) eqn:Hcount; [done | ].
  unfold release_disposition. cbv zeta.
  destruct (str_at "status" result == Some "deployed"%string) eqn:Hstatus.
  - intros _. exists (sha256_bytes text). split; [done | ]. simpl in Hcount.
    apply bool_decide_eq_true in Hstatus. apply negb_false_iff, bool_decide_eq_true in Hcount, Hcommit.
    destruct (json_get "releaseEffect" result) as [effect | ] eqn:He; [ | done].
    exists text, result, effect. apply negb_false_iff in Heffect.
    repeat (split; [first [in_history | done] | ]). done.
  - by repeat case_match; simplify_eq/=.
Qed.

(** ** What was observed stays observed *)

Lemma observed_dead_app attempt h1 h2 :
  observed_dead attempt h1 \/ observed_dead attempt h2 -> observed_dead attempt (h1 ++ h2).
Proof.
  unfold observed_dead.
  intros [[(Ho & Ht & Hn) | (p & c & i & j & s & a & b & o & Ho & He & Hx)]
         | [(Ho & Ht & Hn) | (p & c & i & j & s & a & b & o & Ho & He & Hx)]].
  all: first
    [ left; split; [apply answered_app; auto | split; [apply tree_gone_app; auto | ]];
      intros Hb; apply shown_app; auto
    | right; exists p, c, i, j, s, a, b, o; split; [apply answered_app; auto | split; [in_history | exact Hx]]].
Qed.

Lemma accepted_result_app current terminal h1 h2 :
  accepted_result current terminal h1 \/ accepted_result current terminal h2 ->
  accepted_result current terminal (h1 ++ h2).
Proof.
  intros [(text & result & H1 & H2 & H3 & H4 & H5 & H6) | (text & result & H1 & H2 & H3 & H4 & H5 & H6)];
    exists text, result; (split; [in_history | split; [done | split; [done | ]]]);
    (split; [in_history | split; [in_history | exact H6]]).
Qed.

Lemma deployed_receipt_app binding digest h1 h2 :
  deployed_receipt binding digest h1 \/ deployed_receipt binding digest h2 ->
  deployed_receipt binding digest (h1 ++ h2).
Proof.
  intros [(text & result & effect & H & Hx) | (text & result & effect & H & Hx)];
    exists text, result, effect; (split; [in_history | exact Hx]).
Qed.
End facts.
