(* ===== verification/TestWorld.v ===== *)
(** * A world to test programs in

    Answers for every call on the outside: nothing exists, nothing runs, the
    clock stands still.  Witnesses override what they need. *)

From S2P Require Import Prelude Text Errors Types Supervisor Platform TestPlatform Validation.
From S2P Require Import Submit Store Transaction Projection Admission Recovery Registry Query.
From S2P Require Import Effects Utf8 Engine Linux.

#[local] Open Scope Z_scope.

Definition not_found : IoFailure := {|
  io_text := "No such file or directory (os error 2)"; io_interrupted := false; io_not_found := true;
  io_already_exists := false; io_storage_full := false |}.

Definition absent_tool : RuntimeError := error_new ToolUnavailable "not available" None false.

Definition still_time : Z := 1000000.

Definition empty_world {R} (c : call R) : R :=
  match c in call R return R with
  | Registry _ => Err absent_tool
  | NowMs => Ok still_time
  | IsFile _ | IsDir _ | PathExists _ => false
  | ReadFile _ | ReadText _ | ReadUpTo _ _ _ => Err not_found
  | OpenFile _ | SeekFile _ _ | OpenNoFollow _ => Err not_found
  | FileLen _ | FileModifiedMs _ => Err not_found
  | SymlinkMetadata _ => Err not_found
  | ExecutableMetadata _ => Err not_found
  | ReadDir _ => Ok []
  | WalkTree _ => Unreadable not_found
  | Canonicalize path => Ok path
  | CanonicalDirectory path _ => Ok path
  | CreateDirAll _ | CreateDir _ | RemoveDirAll _ | SetMode _ _ => Ok tt
  | CreateNew _ | WriteAll _ _ | SyncFile _ => Ok tt
  | SyncDirectory _ | RenameDurable _ _ _ _ => Ok tt
  | FreshUuid => "00000000-0000-7000-8000-000000000000"%string
  | WriteAtomic _ _ => Ok tt
  | Sha256File _ => Err (universal_invalid "no such file" "path")
  | Systemctl _ => CommandExited true "" ""
  | PollBudget => 0%nat
  | StartupDeadline _ => Some 0%nat
  | LockControlTerminal => Ok tt
  | ObserveWindowsLauncherOwner _ _ _ => Err absent_tool
  | TerminateWindowsLauncherOwner _ _ _ _ => Err absent_tool
  | EnvironmentVariables => []
  | SystemdRun _ _ => Err not_found
  | SpawnWindowsNative _ => Err absent_tool
  | StopUnit _ => Err not_found
  | LockLifecycle => Ok tt
  | AdmissionFence => FenceAcquired
  | Metadata _ _ => Err not_found
  | ReadLink _ => Err not_found
  | CreateSymlink _ _ | CreateDirMode _ _ => Ok tt
  | EffectiveUid => 0
  | Git _ => Err not_found
  | SnapshotWindowsContext _ => Err absent_tool
  | OpenBeneath _ _ => Err not_found
  | CreateNewMode _ _ | CopyOpened _ | OpenReadWrite _ | RemoveFile _ => Ok tt
  | TryLockFile _ => Ok tt
  | SystemTimeNanos => still_time * 1000000
  | UnixMs => Ok still_time
  | InstantNow => still_time * 1000000
  | PollsBefore _ => 0%nat
  | EnvironmentVariable _ => None
  | ProcessId => 1
  | InotifyInit => Ok 3
  | InotifyAddWatch _ _ _ => Ok 1
  | InotifyReads _ => []
  | CreateFile _ | OpenAppend _ => Ok tt
  | SpawnTarget _ => Err not_found
  | TryWaitTarget _ => Ok None
  | WaitTarget _ => Ok None
  | PipeReads _ _ => []
  | KillProcessGroup _ => Ok tt
  | Sql _ _ => Err (OtherSqlError "no such file")
  | BackupRows _ => Ok empty_db
  | InitializeRegistry _ _ _ => Ok tt
  end.

(** A Linux node without grace, Runner or Windows provider. *)
Definition bare_runtime : Runtime := {|
  rt_executor := {| uec_store_root := "/store"; uec_workspace_root := None; uec_runner_path := None;
                    uec_allowed_executable_roots := ["/usr"%string]; uec_max_runtime_ms := 60000;
                    uec_max_output_bytes := 4096 |};
  rt_registry := {| store_root := "/store" |};
  rt_windows_config := None;
  rt_startup_grace_ms := 0;
  rt_default_runtime_ms := 1000;
  rt_execution_path := "/usr/bin";
  rt_execution_home := "/root";
  rt_input_authorities := [];
  rt_credential_authorities := ∅;
  rt_linux_node := true;
  rt_windows_absolute := None |}.

(** One file that can be read. *)
Definition file_world (content : string) (R : Type) (c : call R) : R :=
  match c in call R return R with
  | PathExists _ => true
  | FileLen _ => Ok (str_len content)
  | OpenFile _ | SeekFile _ _ => Ok tt
  | ReadUpTo _ offset limit => Ok (str_take (Z.to_nat limit) (str_drop (Z.to_nat offset) content))
  | other => empty_world other
  end.

(** ** Records as JSON *)

#[export] Instance coded_status : Coded RunnerTerminalStatus.t :=
  coded_via (fun x => match x with RunnerTerminalStatus.Completed => 0 | RunnerTerminalStatus.Failed => 1
                      | RunnerTerminalStatus.Cancelled => 2 end)
    (fun n => Some (if n =? 0 then RunnerTerminalStatus.Completed
                    else if n =? 1 then RunnerTerminalStatus.Failed else RunnerTerminalStatus.Cancelled))
    ltac:(by intros []).
#[export] Instance coded_output : Coded CapturedOutput :=
  coded_via (fun x => (co_artifact_id x, co_file_name x, co_digest x, co_retained_bytes x,
                       co_dropped_bytes x, co_truncated x))
    (fun '(f0, f1, f2, f3, f4, f5) => Some
      {| co_artifact_id := f0; co_file_name := f1; co_digest := f2; co_retained_bytes := f3;
         co_dropped_bytes := f4; co_truncated := f5 |})
    ltac:(by intros []).
#[export] Instance coded_step : Coded RunnerStepResult :=
  coded_via (fun x => (rsr_id x, rsr_index x, rsr_status x, rsr_exit_code x, rsr_timed_out x,
                       rsr_continued x, rsr_started_unix_ms x, rsr_finished_unix_ms x))
    (fun '(f0, f1, f2, f3, f4, f5, f6, f7) => Some
      {| rsr_id := f0; rsr_index := f1; rsr_status := f2; rsr_exit_code := f3; rsr_timed_out := f4;
         rsr_continued := f5; rsr_started_unix_ms := f6; rsr_finished_unix_ms := f7 |})
    ltac:(by intros []).
#[export] Instance coded_result : Coded RunnerResult :=
  coded_via (fun x => (rr_schema_version x, rr_task_id x, rr_job_id x, rr_attempt_id x,
                       rr_launch_token_digest x, rr_payload_uid x, rr_payload_gid x, rr_status x,
                       rr_exit_code x, rr_timed_out x, rr_infrastructure_error_code x,
                       rr_infrastructure_error x, rr_started_unix_ms x, rr_finished_unix_ms x,
                       rr_steps x, rr_failed_step_id x, rr_failed_step_index x, rr_stdout x, rr_stderr x))
    (fun '(f0, f1, f2, f3, f4, f5, f6, f7, f8, f9, f10, f11, f12, f13, f14, f15, f16, f17, f18) => Some
      {| rr_schema_version := f0; rr_task_id := f1; rr_job_id := f2; rr_attempt_id := f3;
         rr_launch_token_digest := f4; rr_payload_uid := f5; rr_payload_gid := f6; rr_status := f7;
         rr_exit_code := f8; rr_timed_out := f9; rr_infrastructure_error_code := f10;
         rr_infrastructure_error := f11; rr_started_unix_ms := f12; rr_finished_unix_ms := f13;
         rr_steps := f14; rr_failed_step_id := f15; rr_failed_step_index := f16; rr_stdout := f17;
         rr_stderr := f18 |})
    ltac:(by intros []).

#[export] Instance coded_runner_start : Coded RunnerStartEvidence :=
  coded_via (fun x => (rse_schema_version x, rse_job_id x, rse_attempt_id x, rse_launch_token_digest x,
                       rse_unit_name x, rse_invocation_id x, rse_control_group x, rse_namespace_pid x,
                       rse_namespace_process_start_identity x, rse_payload_uid x, rse_payload_gid x,
                       rse_observed_workspace_source_digest x, rse_runner_executable_digest x,
                       rse_observed_unix_ms x))
    (fun '(f0, f1, f2, f3, f4, f5, f6, f7, f8, f9, f10, f11, f12, f13) => Some
      {| rse_schema_version := f0; rse_job_id := f1; rse_attempt_id := f2;
         rse_launch_token_digest := f3; rse_unit_name := f4; rse_invocation_id := f5;
         rse_control_group := f6; rse_namespace_pid := f7;
         rse_namespace_process_start_identity := f8; rse_payload_uid := f9; rse_payload_gid := f10;
         rse_observed_workspace_source_digest := f11; rse_runner_executable_digest := f12;
         rse_observed_unix_ms := f13 |})
    ltac:(by intros []).

(** What the engine writes is not read back in a test world, and progress is not decoded there. *)
#[export] Instance test_codec : EngineCodec := {
  runner_result_of_json := of_text;
  runner_progress_of_json _ := Err "no progress"%string;
  control_evidence_to_json e := join "|" [cte_attempt_id e; cte_status e; cte_reason_code e];
  control_evidence_of_json _ := Err "no evidence"%string;
  terminal_evidence_to_json e := join "|" [tpe_attempt_id e; tpe_execution_disposition e; tpe_reason_code e];
  runner_start_of_json := of_text;
  windows_start_of_json _ := Err "no evidence"%string;
  windows_launcher_start_of_json _ := Err "no evidence"%string;
  windows_launcher_start_to_json e := wls_attempt_id e;
  runner_request_to_json r := join "|" [rq_task_id r; rq_executable_digest r];
  bundle_manifest_to_json m := join "|" [bm_attempt_id m; bm_request_digest m; bm_plan_digest m];
  credential_snapshot_to_json l := join "|" (map cse_digest l);
  json_to_string_pretty := json_to_string;
}.

(** Nothing of any process is left; what the engine writes can be written. *)
Definition dead_world (R : Type) (c : call R) : R :=
  match c in call R return R with
  | FileLen _ => Ok 10
  | Sha256File path => Ok (sha256_bytes path)
  | other => empty_world other
  end.

(** The systemd unit is gone and so is the process of the Attempt that ran in
    the boot that still runs. *)
Definition gone_world (R : Type) (c : call R) : R :=
  match c in call R return R with
  | ReadText path => if String.eqb path "/proc/sys/kernel/random/boot_id" then Ok "boot"%string
                     else Err not_found
  | other => dead_world _ other
  end.

(** The terminal commit of a call, and whether it is of an orphan. *)
Definition commit_of (e : event) : option (bool * TerminalCommit) :=
  match e with
  | Event (Registry op) _ =>
      match op with
      | CommitTerminal terminal => Some (false, terminal)
      | RecoverOrphanedTerminal terminal => Some (true, terminal)
      | _ => None
      end
  | _ => None
  end.

(** The first terminal commit of a history, and what came before and after. *)
Fixpoint first_commit (h : history) : option (history * event * bool * TerminalCommit * history) :=
  match h with
  | [] => None
  | e :: rest =>
      match commit_of e with
      | Some (orphan, terminal) => Some ([], e, orphan, terminal, rest)
      | None =>
          '(h1, e', orphan, terminal, h2) ← first_commit rest; Some (e :: h1, e', orphan, terminal, h2)
      end
  end.

Lemma first_commit_split h : forall h1 e orphan terminal h2,
  first_commit h = Some (h1, e, orphan, terminal, h2) ->
  h = h1 ++ e :: h2 /\ commit_of e = Some (orphan, terminal).
Proof.
  induction h as [ | e rest IH]; intros h1 e' orphan terminal h2 H; [done | ].
  simpl in H. destruct (commit_of e) as [[b t] | ] eqn:He; [by injection H as <- <- <- <- <- | ].
  destruct (first_commit rest) as [[[[[g1 x] b] t] g2] | ]; [ | done].
  injection H as <- <- <- <- <-. destruct (IH _ _ _ _ _ eq_refl) as [-> ?]. done.
Qed.

Lemma commit_of_inv e orphan terminal : commit_of e = Some (orphan, terminal) ->
  exists r, e = Event (Registry (if orphan then RecoverOrphanedTerminal terminal else CommitTerminal terminal)) r.
Proof.
  destruct e as [R c r]. destruct c; try done.
  match goal with op : registry_op _ |- _ => destruct op; try done end; intros [= <- <-]; by exists r.
Qed.
