(* ===== verification/Worlds.v ===== *)
(** * Worlds for the engine

    Concrete answers of the outside under which an Attempt is dispatched, a
    proposal admitted, and a Job cancelled. *)

From S2P Require Import Prelude Text Errors Types Supervisor Platform TestPlatform Validation.
From S2P Require Import Submit Store Transaction Projection Lifecycle Admission Recovery Registry.
From S2P Require Import Scenario Query Effects Utf8 Engine Linux Launch Inputs Binding Output.
From S2P Require Import Evidence Observation Reconciliation Workspace Bundle Dispatching Passes.
From S2P Require Import Requests Planning Admitting TestWorld.

(** ** A world in which a Runner starts

    The files of a bundle that can be read back, systemd that starts the unit
    and shows it running, and a Runner that has written its start evidence.  The
    witnesses about dispatch run [ensure_attempt_dispatched] in it. *)

#[local] Open Scope Z_scope.

Definition launch_runtime : Runtime := {|
  rt_executor := {| uec_store_root := "/var/lib/ordivon"; uec_workspace_root := None;
                    uec_runner_path := Some "/usr/lib/ordivon-runner"%string;
                    uec_allowed_executable_roots := ["/usr"%string]; uec_max_runtime_ms := 60000;
                    uec_max_output_bytes := 4096 |};
  rt_registry := sample_config;
  rt_windows_config := None;
  rt_startup_grace_ms := 0;
  rt_default_runtime_ms := 1000;
  rt_execution_path := "/usr/bin";
  rt_execution_home := "/root";
  rt_input_authorities := [];
  rt_credential_authorities := ∅;
  rt_linux_node := true;
  rt_windows_absolute := None |}.

(** The Attempt as admitted. *)
Definition accepted_attempt : option AttemptRecord := row_attempt <$> db_attempts submitted_db !! "attempt-1"%string.

Definition attempt_of (d : Db) : AttemptRecord :=
  match db_attempts d !! "attempt-1"%string with
  | Some row => row_attempt row
  | None => new_attempt sample_config sample_ids sample_digest 0
  end.

(** What a Runner of the Attempt in [d] says of itself, if its image has the digest. *)
Definition start_evidence_of (d : Db) (image : option string) : string := to_text {|
  rse_schema_version := RUNTIME_SCHEMA_VERSION;
  rse_job_id := att_job_id (attempt_of d);
  rse_attempt_id := "attempt-1";
  rse_launch_token_digest := att_launch_token_digest (attempt_of d);
  rse_unit_name := "ordivon-attempt-1.service";
  rse_invocation_id := "invocation";
  rse_control_group := "/ordivon";
  rse_namespace_pid := 1;
  rse_namespace_process_start_identity := "7";
  rse_payload_uid := None;
  rse_payload_gid := None;
  rse_observed_workspace_source_digest := None;
  rse_runner_executable_digest := image;
  rse_observed_unix_ms := 30 |}.

(** The bytes of the bundle of what was submitted. *)
Definition request_bytes_of (d : Db) (submission : SubmitRequest) : string :=
  match db_jobs d !! att_job_id (attempt_of d) with
  | Some job =>
      runner_request_to_json
        (runner_request launch_runtime job (attempt_of d) (sub_plan submission)
           (launch_token_of "attempt-1" (job_operation_digest job)) (sub_host_dependencies submission))
  | None => ""
  end.

Definition manifest_of (d : Db) (submission : SubmitRequest) : string :=
  match db_jobs d !! att_job_id (attempt_of d) with
  | Some job =>
      bundle_manifest_to_json
        (bundle_manifest job (attempt_of d) (request_bytes_of d submission) (plan_to_json (sub_plan submission))
           (launch_token_of "attempt-1" (job_operation_digest job)))
  | None => ""
  end.

Definition content_of (d : Db) (submission : SubmitRequest) (image : option string) (path : string)
    : option string :=
  snd <$> List.find (fun '(file, _) => String.eqb path (bundle_file (attempt_of d) file))
    [(RUNNER_REQUEST_FILE, request_bytes_of d submission); (PLAN_FILE, plan_to_json (sub_plan submission));
     (BUNDLE_MANIFEST_FILE, manifest_of d submission); (RUNNER_START_FILE, start_evidence_of d image)].

Definition newline : string := String (Ascii.ascii_of_N 10) EmptyString.

Definition world_of (content : string -> option string) (R : Type) (c : call R) : R :=
  match c in call R return R with
  | PathExists path => present (content path)
  | ReadFile path => from_option Ok (Err not_found) (content path)
  | SymlinkMetadata path =>
      match content path with
      | Some content => Ok (RegularFile (str_len content))
      | None => Ok Directory
      end
  | Sha256File path => Ok (sha256_bytes (default path (content path)))
  | ExecutableMetadata _ => Ok (RegularFile 10, true)
  | ReadText path =>
      if String.eqb path "/proc/sys/kernel/random/boot_id" then Ok "boot"%string
      else Ok "42 (runner) S 1 1 1 0 -1 0 0 0 0 0 0 0 0 0 20 0 1 0 777 0 0"%string
  | Systemctl _ =>
      CommandExited true ("ActiveState=active" +:+ newline +:+ "LoadState=loaded" +:+ newline
        +:+ "InvocationID=invocation" +:+ newline +:+ "ControlGroup=/ordivon" +:+ newline
        +:+ "MainPID=42") ""
  | SystemdRun _ _ => Ok {| out_success := true; out_stdout := ""; out_stderr := "" |}
  | other => empty_world other
  end.

Definition launch_world : forall R, call R -> R := world_of (content_of submitted_db sample_request None).

(** ** A launch with commitments

    The Job is committed to the image of the Runner, to a Host Dependency and to an
    input, and all of them are as they were committed. *)

Definition runner_file : string := "/usr/lib/ordivon-runner".
Definition dependency_file : string := "/usr/lib/libc.so".
Definition input_file : string := "/var/lib/ordivon/job-inputs/job-1/data/in".

Definition committed_plan : RuntimeExecutionPlan := {|
  plan_schema_version := plan_schema_version sample_plan;
  plan_workspace_id := plan_workspace_id sample_plan;
  plan_workspace_path := plan_workspace_path sample_plan;
  plan_source_revision := plan_source_revision sample_plan;
  plan_workspace_source_digest := plan_workspace_source_digest sample_plan;
  plan_workspace_git_common_dir := plan_workspace_git_common_dir sample_plan;
  plan_executable := plan_executable sample_plan;
  plan_executable_digest := plan_executable_digest sample_plan;
  plan_args := plan_args sample_plan;
  plan_cwd := plan_cwd sample_plan;
  plan_env := plan_env sample_plan;
  plan_timeout_ms := plan_timeout_ms sample_plan;
  plan_stdout_limit_bytes := plan_stdout_limit_bytes sample_plan;
  plan_stderr_limit_bytes := plan_stderr_limit_bytes sample_plan;
  plan_steps := plan_steps sample_plan;
  plan_budget := plan_budget sample_plan;
  plan_execution_profile := plan_execution_profile sample_plan;
  plan_execution_target := plan_execution_target sample_plan;
  plan_windows_authority := plan_windows_authority sample_plan;
  plan_windows_execution_context := plan_windows_execution_context sample_plan;
  plan_foreign_references := plan_foreign_references sample_plan;
  plan_input_set_id := Some "0123456789abcdef0123456789abcdef0123456789abcdef0123456789abcdef"%string;
  plan_effective_inputs :=
    [{| ei_authority := "store"; ei_relative_object := "data/in"; ei_digest := sha256_bytes input_file;
        ei_byte_length := 10; ei_presentation_relative_path := "data/in";
        ei_access := InputAccessMode.ReadOnly |}];
  plan_credential_set_id := plan_credential_set_id sample_plan;
  plan_principal := plan_principal sample_plan |}.

Definition committed_request : SubmitRequest := {|
  sub_schema_version := RUNTIME_SCHEMA_VERSION;
  sub_client_request_id := "request-1";
  sub_request_identity_digest := None;
  sub_execution_provider := Some {|
    eps_contract := ExecutionProviderContract.LocalLinuxRunnerV1;
    eps_executable_digest := sha256_bytes runner_file;
    eps_wsl_distribution := None |};
  sub_runtime_release_effect := None;
  sub_host_dependencies :=
    [{| hd_path := dependency_file; hd_expected_digest := sha256_bytes dependency_file |}];
  sub_plan := committed_plan;
  sub_global_limit := 4 |}.

Definition committed_db : Db :=
  snd (submit_preallocated io_ok sample_config FenceAcquired (Ok 10) committed_request sample_ids empty_db).

(** The process runs the image of the Runner; the input is the only file of its
    directory. *)
Definition committed_world (R : Type) (c : call R) : R :=
  let content := content_of committed_db committed_request (Some (sha256_bytes runner_file)) in
  match c in call R return R with
  | Sha256File path =>
      if String.eqb path "/proc/42/exe" then Ok (sha256_bytes runner_file)
      else world_of content _ (Sha256File path)
  | SymlinkMetadata path =>
      if String.eqb path dependency_file then Ok (RegularFile 10)
      else world_of content _ (SymlinkMetadata path)
  | PathExists path =>
      String.eqb path "/var/lib/ordivon/job-inputs/job-1" || world_of content _ (PathExists path)
  | FileLen _ => Ok 10
  | WalkTree _ =>
      Listed (Entry "data" Directory (Listed (Entry "in" (RegularFile 10) (Listed NoMore) NoMore)) NoMore)
  | other => world_of content _ other
  end.

Definition committed_launch : eff unit := ensure_attempt_dispatched launch_runtime (attempt_of committed_db).

Definition committed_run : RuntimeResult unit * history * Db := play committed_world committed_launch committed_db.

(** ** Looking into a history *)

Fixpoint split_at_event (f : event -> bool) (h : history) : option (history * event * history) :=
  match h with
  | [] => None
  | e :: rest =>
      if f e then Some ([], e, rest)
      else '(h1, e', h2) ← split_at_event f rest; Some (e :: h1, e', h2)
  end.

Lemma split_at_event_split f h : forall h1 e h2,
  split_at_event f h = Some (h1, e, h2) -> h = h1 ++ e :: h2 /\ f e = true.
Proof.
  induction h as [ | x rest IH]; intros h1 e h2 H; [done | ].
  simpl in H. destruct (f x) eqn:Hx; [by injection H as <- <- <- | ].
  destruct (split_at_event f rest) as [[[g1 y] g2] | ]; [ | done].
  injection H as <- <- <-. destruct (IH _ _ _ eq_refl) as [-> ?]. done.
Qed.

(** The calls that the theorems are about. *)
Inductive Milestone : Type :=
  | BundleRecorded (attempt_id : string)
  | Dispatched (attempt_id : string)
  | ProcessStarted (unit_name : string)
  | RunnerBound (attempt_id : string).

#[export] Instance milestone_eq_dec : EqDecision Milestone.
Proof. solve_decision. Defined.

Definition milestone (e : event) : option Milestone :=
  match e with
  | Event (Registry op) _ =>
      match op with
      | MarkBundleReady attempt_id _ _ _ => Some (BundleRecorded attempt_id)
      | MarkDispatchIssued attempt_id _ _ => Some (Dispatched attempt_id)
      | BindRunning attempt_id _ _ => Some (RunnerBound attempt_id)
      | _ => None
      end
  | Event (SystemdRun unit_name _) _ => Some (ProcessStarted unit_name)
  | _ => None
  end.

Lemma milestone_inv e m : milestone e = Some m ->
  match m with
  | BundleRecorded id => exists v digest t r, e = Event (Registry (MarkBundleReady id v digest t)) r
  | Dispatched id => exists v t r, e = Event (Registry (MarkDispatchIssued id v t)) r
  | ProcessStarted unit_name => exists arguments r, e = Event (SystemdRun unit_name arguments) r
  | RunnerBound id => exists v identity r, e = Event (Registry (BindRunning id v identity)) r
  end.
Proof.
  destruct e as [R c r]. destruct c; try done.
  - match goal with op : registry_op _ |- _ => destruct op; try done end; intros [= <-]; eauto.
  - intros [= <-]. eauto.
Qed.

Definition reaches (m : Milestone) (h : history) : bool :=
  present (split_at_event (fun e => milestone e == Some m) h).

Lemma reaches_split m h : reaches m h = true ->
  exists h1 e h2, h = h1 ++ e :: h2 /\ milestone e = Some m.
Proof.
  unfold reaches. destruct (split_at_event _ h) as [[[h1 e] h2] | ] eqn:Hs; [ | done]. intros _.
  apply split_at_event_split in Hs as [-> He]. apply bool_decide_eq_true in He. eauto.
Qed.

(** ** The run *)

Definition launch : eff unit := ensure_attempt_dispatched launch_runtime (attempt_of submitted_db).

Definition launch_run : RuntimeResult unit * history * Db := play launch_world launch submitted_db.

(** The bundle is recorded, the dispatch committed, the unit started and the
    Runner bound, in this order and once. *)
Lemma launch_summary :
  omap milestone (snd (fst launch_run))
  = [BundleRecorded "attempt-1"; Dispatched "attempt-1";
     ProcessStarted "ordivon-attempt-1.service"; RunnerBound "attempt-1"]
  /\ fst (fst launch_run) = Ok tt
  /\ attempt_state_of "attempt-1" (snd launch_run) = Some AttemptState.Running.
Proof. vm_compute. done. Qed.

(** The same of the launch with commitments. *)
Lemma committed_summary :
  omap milestone (snd (fst committed_run))
  = [BundleRecorded "attempt-1"; Dispatched "attempt-1";
     ProcessStarted "ordivon-attempt-1.service"; RunnerBound "attempt-1"]
  /\ fst (fst committed_run) = Ok tt
  /\ attempt_state_of "attempt-1" (snd committed_run) = Some AttemptState.Running.
Proof. vm_compute. done. Qed.

Lemma play_reaches outside {A} (p : prog A) d m : reaches m (snd (fst (play outside p d))) = true ->
  exists h o d' h1 e h2, runs p d h o d' /\ h = h1 ++ e :: h2 /\ milestone e = Some m.
Proof.
  intros Hm. destruct (reaches_split _ _ Hm) as (h1 & e & h2 & Heq & He).
  destruct (play outside p d) as [[r h] d'] eqn:Hrun. apply play_runs in Hrun. simpl in Heq.
  exists h, (Some r), d', h1, e, h2. done.
Qed.

Lemma launch_reaches m : reaches m (snd (fst launch_run)) = true ->
  exists h o d' h1 e h2, runs launch submitted_db h o d' /\ h = h1 ++ e :: h2 /\ milestone e = Some m.
Proof. apply play_reaches. Qed.

Lemma committed_reaches m : reaches m (snd (fst committed_run)) = true ->
  exists h o d' h1 e h2, runs committed_launch committed_db h o d' /\ h = h1 ++ e :: h2 /\ milestone e = Some m.
Proof. apply play_reaches. Qed.

(** ** A world in which a Job is admitted

    A Workspace with its record, a Git repository without files, and executables
    below [/usr].  The witnesses about admission run [run_job_proposal] in it. *)

#[local] Open Scope Z_scope.

(** ** Records as JSON *)

#[export] Instance coded_workspace_record : Coded WorkspaceRecord :=
  coded_via (fun x => (wr_schema_version x, wr_workspace_id x, wr_source_repo x, wr_source_revision x,
                       wr_workspace_path x, wr_created_unix_ms x))
    (fun '(f0, f1, f2, f3, f4, f5) => Some
      {| wr_schema_version := f0; wr_workspace_id := f1; wr_source_repo := f2;
         wr_source_revision := f3; wr_workspace_path := f4; wr_created_unix_ms := f5 |})
    ltac:(by intros []).

(** No Workspace of the test worlds is closed. *)
#[export] Instance test_workspace_codec : WorkspaceCodec := {
  workspace_record_of_json := of_text;
  closed_record_of_value _ := Err "no closed record"%string;
  source_state_to_json s := join "|" (wss_head_revision s :: wss_index_digest s
                              :: map wse_digest (wss_tracked s ++ wss_untracked s));
}.

Definition identity_text (identity : ProposalRequestIdentity) : string :=
  join "|" (pri_principal identity :: pri_workspace_id identity :: pri_executable identity
            :: pri_args identity).

#[export] Instance test_identity_codec : IdentityCodec := {
  proposal_identity_to_json := identity_text;
  input_bound_identity_to_json identity inputs :=
    join "|" (identity_text identity :: map Inputs.ibr_expected_digest inputs);
  credential_bound_identity_to_json identity credentials :=
    join "|" (identity_text identity :: map Inputs.cbr_credential credentials);
  release_identity_to_json r := join "|" [rri_principal r; rri_workspace_id r; rri_commit r];
}.

(** ** The world *)

Definition sample_record : WorkspaceRecord := {|
  wr_schema_version := 1;
  wr_workspace_id := "ws-1";
  wr_source_repo := "/srv/source";
  wr_source_revision := "rev-1";
  wr_workspace_path := "";
  wr_created_unix_ms := 10 |}.

Definition plain_file : FileMetadata := {|
  md_kind := RegularFile 10; md_dev := 1; md_ino := 2; md_mode := 493; md_uid := 0; md_size := 10;
  md_mtime := 0; md_mtime_nsec := 0; md_ctime := 0; md_ctime_nsec := 0 |}.

(** [git rev-parse HEAD] answers a revision, the other commands nothing. *)
Definition git_answer (arguments : list string) : string :=
  if existsb (String.eqb "HEAD") arguments then "0123456789abcdef0123456789abcdef01234567"
  else if existsb (String.eqb "--git-common-dir") arguments then "/srv/source/.git" else "".

Definition admit_world (R : Type) (c : call R) : R :=
  match c in call R return R with
  | IsDir _ | PathExists _ => true
  | ReadFile path => if ends_with "ws-1.json" path then Ok (to_text sample_record) else Err not_found
  | SymlinkMetadata _ => Ok Directory
  | Metadata _ _ => Ok plain_file
  | Git arguments => Ok {| out_success := true; out_stdout := git_answer arguments; out_stderr := "" |}
  | other => launch_world _ other
  end.

Definition sample_proposal : JobRunProposal := {|
  prop_schema_version := RUNTIME_SCHEMA_VERSION;
  prop_client_request_id := "request-9";
  prop_principal := "local-operator";
  prop_global_limit := 4;
  prop_execution := {|
    ep_workspace_id := "ws-1";
    ep_executable := "/usr/bin/true";
    ep_args := ["-v"%string];
    ep_cwd_relative := "src";
    ep_env := ∅;
    ep_timeout_ms := Some 1000;
    ep_stdout_limit_bytes := None;
    ep_stderr_limit_bytes := None;
    ep_steps := [];
    ep_budget := plan_budget sample_plan;
    ep_execution_profile := ExecutionProfile.ContainedLocal;
    ep_execution_target := ExecutionTarget.LocalLinux;
    ep_windows_authority := WindowsAuthority.Limited;
    ep_foreign_references := [];
    ep_host_dependencies := [] |};
  prop_wait_ms := 0;
  prop_stdout_tail_bytes := 1024;
  prop_stderr_tail_bytes := 1024 |}.

Definition admission : eff JobObservation := run_job_proposal launch_runtime sample_proposal.

Definition admission_run : RuntimeResult JobObservation * history * Db :=
  play admit_world admission empty_db.

(** The call by which something is submitted. *)
Definition submission_of (e : event)
    : option (RegistryConfig * FenceIo * RuntimeResult Z * SubmitRequest * PreallocatedAdmissionIds) :=
  match e with
  | Event (Registry op) _ =>
      match op with
      | Submit config fence now request ids => Some (config, fence, now, request, ids)
      | _ => None
      end
  | _ => None
  end.

Lemma submission_inv e config fence now request ids :
  submission_of e = Some (config, fence, now, request, ids) ->
  exists r, e = Event (Registry (Submit config fence now request ids)) r.
Proof.
  destruct e as [R c r]. destruct c; try done.
  match goal with op : registry_op _ |- _ => destruct op; try done end.
  intros [= <- <- <- <- <-]. eauto.
Qed.

(** Exactly one request is submitted, for the Workspace of the proposal; the Job
    is there afterwards. *)
Lemma admission_summary :
  map (fun '(_, _, _, request, _) => (plan_cwd (sub_plan request), sub_client_request_id request))
    (omap submission_of (snd (fst admission_run)))
  = [("/var/lib/ordivon/workspaces/ws-1/src", "request-9")]%string
  /\ present (db_jobs (snd admission_run) !! "job-00000000-0000-7000-8000-000000000000"%string) = true.
Proof. vm_compute. done. Qed.

Lemma admission_submits : exists h o d' h1 config fence now request ids r h2,
  runs admission empty_db h o d'
  /\ h = h1 ++ Event (Registry (Submit config fence now request ids)) r :: h2
  /\ plan_cwd (sub_plan request) = "/var/lib/ordivon/workspaces/ws-1/src"%string.
Proof.
  assert (Hs : match split_at_event (fun e => present (submission_of e)) (snd (fst admission_run)) with
               | Some (_, e, _) => (fun '(_, _, _, request, _) => plan_cwd (sub_plan request)) <$> submission_of e
               | None => None
               end = Some "/var/lib/ordivon/workspaces/ws-1/src"%string) by (vm_compute; reflexivity).
  destruct (split_at_event _ _) as [[[h1 e] h2] | ] eqn:Hsplit; [ | discriminate Hs].
  apply split_at_event_split in Hsplit as [Heq _].
  destruct (submission_of e) as [[[[[config fence] now] request] ids] | ] eqn:He; [ | discriminate Hs].
  injection Hs as Hcwd. apply submission_inv in He as [r ->].
  destruct admission_run as [[o h] d'] eqn:Hrun. apply play_runs in Hrun. simpl in Heq.
  exists h, (Some o), d', h1, config, fence, now, request, ids, r, h2. done.
Qed.

(** ** A world in which a Job is cancelled

    The unit of Attempt 1 runs until it is told to stop; then its main process
    ends before the other processes of its control group. *)

#[local] Open Scope Z_scope.

(** A run whose outside remembers what it was asked. *)
Fixpoint play_from (outside : history -> forall R, call R -> R) (h0 : history) {A} (p : prog A) (d : Db)
    : A * history * Db :=
  match p with
  | Ret a => (a, [], d)
  | Vis c k =>
      let '(r, d1) := reply (outside h0) c d in
      let '(a, h, d') := play_from outside (h0 ++ [Event c r]) (k r) d1 in
      (a, Event c r :: h, d')
  end.

Lemma play_from_runs outside {A} (p : prog A) : forall h0 d a h d',
  play_from outside h0 p d = (a, h, d') -> runs p d h (Some a) d'.
Proof.
  induction p as [x | R c k IH]; intros h0 d a h d' H; cbn [play_from] in H.
  - injection H as <- <- <-. right. by repeat split.
  - destruct (reply (outside h0) c d) as [r d1] eqn:Hr.
    destruct (play_from outside (h0 ++ [Event c r]) (k r) d1) as [[a1 h1] d2] eqn:Hp.
    injection H as <- <- <-. right. exists r, d1, h1.
    repeat split; [by eapply reply_answers | by eapply IH].
Qed.

(** [alone p d h a d']: [p] is run to its end on [d], and nobody else writes: what
    becomes of the database is the doing of the calls [h]. *)
Fixpoint alone {A} (p : prog A) (d : Db) (h : history) (a : A) (d' : Db) : Prop :=
  match p with
  | Ret b => h = [] /\ a = b /\ d' = d
  | Vis c k => exists r d1 h', h = Event c r :: h'
      /\ match c in call R return R -> Prop with
         | Registry op => fun r => exists io, apply_op op io d d = (r, d1)
         | _ => fun _ => d1 = d
         end r
      /\ alone (k r) d1 h' a d'
  end.

Lemma play_from_alone outside {A} (p : prog A) : forall h0 d a h d',
  play_from outside h0 p d = (a, h, d') -> alone p d h a d'.
Proof.
  induction p as [x | R c k IH]; intros h0 d a h d' H; cbn [play_from] in H.
  - injection H as <- <- <-. done.
  - destruct (reply (outside h0) c d) as [r d1] eqn:Hr.
    destruct (play_from outside (h0 ++ [Event c r]) (k r) d1) as [[a1 h1] d2] eqn:Hp.
    injection H as <- <- <-. exists r, d1, h1. split; [done | ]. split; [ | by eapply IH].
    destruct c; simpl in Hr; try (injection Hr as <- <-; done). by exists io_ok.
Qed.

Lemma alone_runs {A} (p : prog A) : forall d h a d', alone p d h a d' -> runs p d h (Some a) d'.
Proof.
  induction p as [x | R c k IH]; intros d h a d' H; right; cbn [alone] in H.
  - destruct H as (-> & -> & ->). by repeat split.
  - destruct H as (r & d1 & h' & -> & Hr & H). exists r, d1, h'. split; [done | ].
    split; [ | by apply IH]. destruct c; cbn in Hr; try (subst d1; simpl; reflexivity). destruct Hr as [io Hio].
    exists io, d, d. by repeat split.
Qed.

Definition is_stop (e : event) : bool :=
  match e with Event (StopUnit _) _ => true | _ => false end.

(** The unit of Attempt 1 in a state; its main process exists or not. *)
Definition unit_world (active_state : string) (main_process : bool) (R : Type) (c : call R) : R :=
  match c in call R return R with
  | PathExists _ | IsFile _ => false
  | ReadText path =>
      if String.eqb path "/proc/sys/kernel/random/boot_id" then Ok "boot"%string
      else if String.eqb path "/sys/fs/cgroup/ordivon/cgroup.events" then Ok "populated 1"%string
      else if main_process
           then Ok "42 (runner) S 1 1 1 0 -1 0 0 0 0 0 0 0 0 0 20 0 1 0 start-42 0 0"%string
           else Err not_found
  | Systemctl _ =>
      CommandExited true ("ActiveState=" +:+ active_state +:+ newline
        +:+ "LoadState=loaded" +:+ newline
        +:+ "InvocationID=invocation" +:+ newline
        +:+ "ControlGroup=/ordivon" +:+ newline +:+ "MainPID="
        +:+ (if main_process then "42" else "0")) ""
  | StopUnit _ => Ok {| out_success := true; out_stdout := ""; out_stderr := "" |}
  | Sha256File _ => Ok sample_digest
  | FileLen _ | FileModifiedMs _ => Ok 10
  | other => empty_world other
  end.

(** It runs until it is told to stop; then its main process ends first. *)
Definition stopping_world (h : history) : forall R, call R -> R :=
  if existsb is_stop h
  then fun R c => match c in call R return R with
                  | IsFile path => String.eqb path "/sys/fs/cgroup/ordivon/cgroup.events"
                  | other => unit_world "deactivating" false _ other
                  end
  else unit_world "active" true.

Definition cancel_request : JobCancelRequest := {|
  jcr_schema_version := RUNTIME_SCHEMA_VERSION; jcr_job_id := "job-1" |}.

Definition cancel_run : RuntimeResult JobObservation * history * Db :=
  play_from stopping_world [] (cancel_job bare_runtime cancel_request) running_db.

(** The cancel reaches [systemctl stop]. *)
Lemma cancel_stops : exists h o d' h1 unit_name r h2,
  runs (cancel_job bare_runtime cancel_request) running_db h o d'
  /\ h = h1 ++ Event (StopUnit unit_name) r :: h2 /\ unit_name = "ordivon-attempt-1.service"%string.
Proof.
  assert (Hs : match split_at_event is_stop (snd (fst cancel_run)) with
               | Some (_, Event c _, _) =>
                   match c with StopUnit unit_name => unit_name | _ => ""%string end
               | None => ""%string
               end = "ordivon-attempt-1.service"%string) by (vm_compute; reflexivity).
  destruct (split_at_event _ _) as [[[h1 [R c r]] h2] | ] eqn:Hsplit; [ | discriminate Hs].
  apply split_at_event_split in Hsplit as [Heq He].
  destruct c; try discriminate He. destruct cancel_run as [[o h] d'] eqn:Hrun.
  apply play_from_runs in Hrun. simpl in Heq. eexists h, (Some o), d', h1, _, r, h2. done.
Qed.
