(* ===== verification/ReconciliationSpec.v ===== *)
(** * Reconciliation rests on evidence

    Whatever the files, systemd, the clock and other processes answer, and
    wherever the process is killed: a terminal outcome is committed only on the
    answers that justify it. *)

From S2P Require Import Prelude Text Errors Types Supervisor Platform TestPlatform Validation.
From S2P Require Import Submit Store Transaction Projection Lifecycle Admission Recovery Registry.
From S2P Require Import Scenario Query Effects Utf8 Engine Linux Binding Output Evidence.
From S2P Require Import Observation Reconciliation Silence Observed TestWorld.

#[local] Open Scope Z_scope.

Section orphans.
Context `{P : Platform, C : EngineCodec}.
Context (rt : Runtime).

(** Why an orphan may be settled. *)
Inductive orphan_evidence (h : history) (terminal : TerminalCommit) : Prop :=
  | ReleaseDeployed attempt_id current binding digest :
      answered (GetAttempt attempt_id) current h ->
      att_state current = AttemptState.Orphaned ->
      answered (GetRuntimeReleaseEffect (att_job_id current)) (Some binding) h ->
      deployed_receipt binding digest h ->
      tc_state terminal = AttemptState.Succeeded ->
      tc_result_digest terminal = digest ->
      orphan_evidence h terminal
  | ResultArrived attempt_id current accepted :
      answered (GetAttempt attempt_id) current h ->
      att_state current = AttemptState.Orphaned ->
      observed_dead current h ->
      accepted_result current accepted h ->
      tc_attempt_id terminal = tc_attempt_id accepted ->
      tc_expected_row_version terminal = tc_expected_row_version accepted ->
      tc_state terminal = tc_state accepted ->
      tc_result_digest terminal = tc_result_digest accepted ->
      orphan_evidence h terminal
  | NothingLeft attempt_id current job before between after :
      answered (GetAttempt attempt_id) current before ->
      att_state current = AttemptState.Orphaned ->
      h = before ++ between ++ after ->
      Event (IsFile (bundle_file current RESULT_FILE)) false ∈ before ->
      observed_dead current between ->
      Event (IsFile (bundle_file current RESULT_FILE)) false ∈ after ->
      answered (GetJob (att_job_id current)) job after ->
      tc_attempt_id terminal = att_attempt_id current ->
      tc_expected_row_version terminal = att_row_version current ->
      (tc_state terminal, tc_reason_code terminal) = absent_orphan_outcome current job ->
      orphan_evidence h terminal
  | CancelRecorded attempt_id job_id at_ms projection current before after :
      answered (RequestCancel job_id at_ms) projection before ->
      answered (GetAttempt attempt_id) current before ->
      h = before ++ after ->
      observed_dead current before ->
      Event (IsFile (bundle_file current RESULT_FILE)) false ∈ after ->
      tc_attempt_id terminal = att_attempt_id current ->
      tc_expected_row_version terminal = att_row_version current ->
      tc_state terminal = AttemptState.Cancelled ->
      orphan_evidence h terminal.

(** The condition on the calls: no orphan is settled without evidence, and
    nothing else advances. *)
Definition orphan_ok (R : Type) (c : call R) (h : history) : Prop :=
  match c with
  | Registry op =>
      match op with
      | RecoverOrphanedTerminal terminal => orphan_evidence h terminal
      | op => silent _ (Registry op) h
      end
  | c => silent _ c h
  end.

Lemma silent_orphan_ok R (c : call R) h : silent R c h -> orphan_ok R c h.
Proof.
  destruct c; try done. match goal with op : registry_op _ |- _ => by destruct op end.
Qed.

Ltac orphan_spec H :=
  apply wp_eff_bind; try apply infallible_wp; eapply spec_wp; [apply H | apply silent_orphan_ok | ].
Ltac orphan_quiet := apply wp_eff_bind; apply quiet_wp; [solve [quiet_auto] | apply silent_orphan_ok | ].

Lemma accepted_result_push current artifact terminal h :
  accepted_result current terminal h -> accepted_result current (push_artifact artifact terminal) h.
Proof. intros (text & result & H). by exists text, result. Qed.

Lemma prepare_runner_terminal_spec current :
  spec (prepare_runner_terminal rt current) (fun r h => forall terminal, r = Ok terminal ->
    accepted_result current terminal h).
Proof.
  unfold spec, prepare_runner_terminal, registry, try.
  use_spec prepare_from_bundle_spec. intros [terminal | e] h1 Hacc; [ | done].
  specialize (Hacc terminal eq_refl). use_quiet. intros [plan | e] h2; [ | done].
  destruct (_ == _).
  - use_quiet. intros [[evidence digest] | e] h3; [ | done].
    use_quiet. intros [length | e] h4; [ | done]. wp_norm. intros t [= <-]. apply accepted_result_push.
    do 3 (apply accepted_result_app; left). by apply accepted_result_app; right.
  - wp_norm. intros t [= <-]. apply accepted_result_app. left. by apply accepted_result_app; right.
Qed.

Lemma recover_result_wp attempt h :
  wp orphan_ok (recover_orphaned_runner_result rt attempt) h (fun _ _ => True).
Proof.
  unfold recover_orphaned_runner_result.
  orphan_spec (registry_spec (GetAttempt (att_attempt_id attempt)) I). intros [current | e] h1 Hcurrent; [ | done].
  specialize (Hcurrent _ eq_refl).
  destruct (att_state current != AttemptState.Orphaned) eqn:Hs; [done | ].
  apply negb_false_iff, bool_decide_eq_true in Hs.
  orphan_quiet. intros [is_file | e] h2; [ | done]. destruct (negb is_file); [done | ].
  orphan_spec orphan_process_tree_alive_spec. intros [alive | e] h3 Hdead; [ | done].
  destruct alive; [done | ]. specialize (Hdead eq_refl).
  orphan_spec prepare_runner_terminal_spec. intros [accepted | e] h4 Hacc; [ | done].
  specialize (Hacc accepted eq_refl).
  orphan_spec append_terminal_evidence_spec. intros [terminal | e] h5 Hext; [ | done].
  destruct (Hext terminal eq_refl) as [artifact ->]. apply wp_eff_bind. wp_norm. split.
  - eapply (ResultArrived _ _ _ current accepted); try done.
    + do 4 (apply answered_app; left). by apply answered_app; right.
    + do 2 (apply observed_dead_app; left). by apply observed_dead_app; right.
    + apply accepted_result_app. left. by apply accepted_result_app; right.
  - intros [ | e]; [ | done]. apply wp_eff_bind. apply quiet_wp; [auto with quiet | apply silent_orphan_ok | ].
    by intros [ | ].
Qed.

(** Whatever justifies an outcome when the program starts justifies its commit. *)
Lemma resolve_absent_commit attempt state reason h :
  (forall terminal h',
     tc_attempt_id terminal = att_attempt_id attempt ->
     tc_expected_row_version terminal = att_row_version attempt ->
     tc_state terminal = state -> tc_reason_code terminal = reason ->
     orphan_evidence (h ++ h') terminal) ->
  wp orphan_ok (resolve_absent_orphan attempt state reason) h (fun _ _ => True).
Proof.
  intros Hok. unfold resolve_absent_orphan. cbv zeta. unfold registry, try.
  do 5 (orphan_quiet; intros [? | ?] ?; [ | done]).
  orphan_spec append_terminal_evidence_spec. intros [terminal | e] h5 Hext; [ | done].
  destruct (Hext terminal eq_refl) as [artifact ->]. wp_norm. split; [ | by intros [? | ?]].
  rewrite <- !app_assoc. by apply Hok.
Qed.

Lemma resolve_absent_wp attempt_id current job before between after :
  answered (GetAttempt attempt_id) current before ->
  att_state current = AttemptState.Orphaned ->
  Event (IsFile (bundle_file current RESULT_FILE)) false ∈ before ->
  observed_dead current between ->
  Event (IsFile (bundle_file current RESULT_FILE)) false ∈ after ->
  answered (GetJob (att_job_id current)) job after ->
  wp orphan_ok (resolve_absent_orphan current (fst (absent_orphan_outcome current job))
                  (snd (absent_orphan_outcome current job)))
    (before ++ between ++ after) (fun _ _ => True).
Proof.
  intros Hc Hs Hb Hd Ha Hj. apply resolve_absent_commit. intros terminal h' Hid Hv Hst Hr.
  eapply (NothingLeft _ _ attempt_id current job before between (after ++ h')); try done.
  - by rewrite <- !app_assoc.
  - in_history.
  - by apply answered_app; left.
  - rewrite Hst, Hr. by destruct (absent_orphan_outcome current job).
Qed.

Lemma orphaned_processes_wp attempt_id current h :
  answered (GetAttempt attempt_id) current h ->
  att_state current = AttemptState.Orphaned ->
  wp orphan_ok (reconcile_orphaned_processes rt current) h (fun _ _ => True).
Proof.
  intros Hc Hs. unfold reconcile_orphaned_processes.
  apply wp_eff_bind. unfold ask at 1. cbn [wp]. split; [done | ]. intros [ | ]; [apply recover_result_wp | ].
  orphan_spec orphan_process_tree_alive_spec. intros [alive | e] h2 Hdead; [ | done].
  destruct alive; [done | ]. specialize (Hdead eq_refl).
  apply wp_eff_bind. unfold ask at 1. cbn [wp]. split; [done | ]. intros [ | ]; [apply recover_result_wp | ].
  orphan_spec (registry_spec (GetJob (att_job_id current)) I). intros [job | e] h3 Hjob; [ | done].
  specialize (Hjob job eq_refl).
  pose proof (resolve_absent_wp attempt_id current job (h ++ [Event (IsFile (bundle_file current RESULT_FILE)) false]) h2
                ([Event (IsFile (bundle_file current RESULT_FILE)) false] ++ h3)
                (answered_app _ _ _ _ (or_introl Hc)) Hs (last_event _ _) Hdead
                (event_before _ _ _ (last_event _ [])) (event_after _ _ _ Hjob)) as Hwp.
  destruct (absent_orphan_outcome current job) as [state reason]. cbn [fst snd] in Hwp.
  apply wp_eff_bind. rewrite <- !app_assoc in *. eapply wp_mono; [ | exact Hwp]. by intros [? | ?].
Qed.

Lemma deployed_release_wp attempt_id current binding digest h :
  att_state current = AttemptState.Orphaned ->
  answered (GetAttempt attempt_id) current h ->
  answered (GetRuntimeReleaseEffect (att_job_id current)) (Some binding) h ->
  deployed_receipt binding digest h ->
  wp orphan_ok (recover_deployed_release current (Some digest)) h (fun _ _ => True).
Proof.
  intros Hs Ha Hb Hd. unfold recover_deployed_release. apply wp_eff_bind. cbn [ok_or of_result wp].
  orphan_spec append_terminal_evidence_spec. intros [terminal | e] h5 Hext; [ | done].
  destruct (Hext terminal eq_refl) as [artifact ->]. wp_norm. split; [ | by intros [? | ?]].
  eapply (ReleaseDeployed _ _ attempt_id current binding digest); try done;
    [by apply answered_app; left | by apply answered_app; left | by apply deployed_receipt_app; left].
Qed.
Lemma orphaned_attempt_wp attempt h :
  wp orphan_ok (reconcile_orphaned_attempt rt attempt) h (fun _ _ => True).
Proof.
  unfold reconcile_orphaned_attempt.
  orphan_spec (registry_spec (GetAttempt (att_attempt_id attempt)) I). intros [current | e] h1 Hcurrent; [ | done].
  specialize (Hcurrent _ eq_refl).
  destruct (att_state current != AttemptState.Orphaned) eqn:Hs; [done | ].
  apply negb_false_iff, bool_decide_eq_true in Hs.
  orphan_spec (registry_spec (GetRuntimeReleaseEffect (att_job_id current)) I).
  intros [[binding | ] | e] h2 Hbinding; [ | eapply orphaned_processes_wp; [ | done]; eauto using answered_app | done].
  specialize (Hbinding _ eq_refl). orphan_quiet. intros [snapshot | e] h3; [ | done].
  orphan_spec inspect_release_spec. intros receipt h4 Hreceipt. cbv beta iota.
  destruct (_ && _) eqn:Hd; [ | eapply orphaned_processes_wp; [eauto 10 using answered_app | done]].
  apply andb_true_iff in Hd as [Hd _]. apply bool_decide_eq_true in Hd.
  destruct (Hreceipt Hd) as (digest & -> & Hdeployed).
  apply (deployed_release_wp (att_attempt_id attempt) current binding); [done | | | ].
  - do 3 (apply answered_app; left). by apply answered_app; right.
  - do 2 (apply answered_app; left). by apply answered_app; right.
  - by apply deployed_receipt_app; right.
Qed.

End orphans.

(** ** Witness *)

(** Attempt 1 was orphaned; no process of it is left, and no result. *)
Definition orphan_run : RuntimeResult bool * history * Db :=
  match get_attempt io_ok "attempt-1" orphaned_db with
  | Ok attempt =>
      play dead_world (reconcile_orphaned_attempt bare_runtime attempt)
        orphaned_db
  | Err e => (Err e, [], orphaned_db)
  end.

(** The Attempt and the state that the first terminal commit of a run names. *)
Definition committed {A} (run : A * history * Db) : option (bool * string * AttemptState.t) :=
  '(_, _, orphan, terminal, _) ← first_commit (snd (fst run));
  Some (orphan, tc_attempt_id terminal, tc_state terminal).

Lemma orphan_run_settles : committed orphan_run = Some (true, "attempt-1"%string, AttemptState.Lost).
Proof. vm_compute. reflexivity. Qed.

