(* ===== verification/Justified.v ===== *)
(** * What the calls of the engine rest on

    For every call by which the engine admits a Job, advances an Attempt or starts
    or stops a process, the answers that must have been given before it: [engine_ok].  The files
    that follow prove it of every program of the engine. *)

From S2P Require Import Prelude Text Errors Types Supervisor Platform Validation Submit Store.
From S2P Require Import Transaction Projection Lifecycle Admission Recovery Registry.
From S2P Require Import SupervisorSpec Query Effects Utf8 Engine Linux Launch Inputs Binding.
From S2P Require Import Output Evidence Observation Reconciliation Workspace Bundle Dispatching.
From S2P Require Import Passes Silence Observed ReconciliationSpec.

#[local] Open Scope Z_scope.

Section evidence.
Context `{P : Platform, C : EngineCodec}.
Context (rt : Runtime).

(** A look at the bundle that found no result file. *)
Definition no_result (attempt : AttemptRecord) (h : history) : Prop :=
  Event (PathExists (bundle_file attempt RESULT_FILE)) false ∈ h
  \/ Event (IsFile (bundle_file attempt RESULT_FILE)) false ∈ h.

(** The fact was established, and only then no result was found. *)
Definition then_no_result (attempt : AttemptRecord) (fact : history -> Prop) (h : history) : Prop :=
  exists before after, h = before ++ after /\ fact before /\ no_result attempt after.

(** What systemd and [/proc] said of the bound process of an Attempt. *)
Definition linux_observed (attempt : AttemptRecord) (observation : SupervisorObservation)
    (h : history) : Prop :=
  (exists boot_id, Event (ReadText "/proc/sys/kernel/random/boot_id") (Ok boot_id) ∈ h
     /\ so_boot_id observation = str_trim boot_id)
  /\ shown (att_unit_name attempt) (fun properties =>
       so_unit_state observation = unit_state_of properties
       /\ so_invocation_id observation = nonempty_property properties "InvocationID"
       /\ so_result observation = nonempty_property properties "Result"
       /\ so_exec_main_code observation = (properties !! "ExecMainCode" ≫= parse_i32)
       /\ so_exec_main_status observation = (properties !! "ExecMainStatus" ≫= parse_i32)) h
  /\ (so_recorded_pid_alive observation = false -> pid_gone attempt h).

(** The process that holds the job object of the Attempt does not exist. *)
Definition launcher_absent (attempt : AttemptRecord) (h : history) : Prop :=
  exists process_id creation_time image job_name start authority broker_digest observed,
    answered (GetSupervisorOwner (att_attempt_id attempt))
      (Some (WindowsLauncherV1 process_id creation_time image job_name start)) h
    /\ Event (ObserveWindowsLauncherOwner authority broker_digest process_id) (Ok observed) ∈ h
    /\ wo_process_alive observed = false.

(** The deadline of the Attempt was recorded, and then its launcher was ended or
    was gone. *)
Definition launcher_terminated (timed_out : AttemptRecord) (h : history) : Prop :=
  att_termination_intent timed_out = AttemptTerminationIntent.DeadlineExceeded
  /\ ((exists attempt_id, answered (GetAttempt attempt_id) timed_out h)
      \/ exists attempt_id at_ms, answered (RequestDeadlineTermination attempt_id at_ms) timed_out h)
  /\ exists authority broker_digest process_id creation_time disposition,
       Event (TerminateWindowsLauncherOwner authority broker_digest process_id creation_time)
         (Ok disposition) ∈ h
       /\ disposition <> WindowsDeadlineOwnerTerminationDisposition.IdentityMismatch.

(** A later record of the same Attempt. *)
Inductive later (attempt : AttemptRecord) (h : history) : AttemptRecord -> Prop :=
  | Same : later attempt h attempt
  | Read between current : later attempt h between ->
      answered (GetAttempt (att_attempt_id between)) current h -> later attempt h current
  | Published between version digest at_ms current : later attempt h between ->
      answered (MarkBundleReady (att_attempt_id between) version digest at_ms) current h ->
      later attempt h current
  | Owned between version owner at_ms current : later attempt h between ->
      answered (BindSupervisorOwner (att_attempt_id between) version owner at_ms) current h ->
      later attempt h current.

(** ** What dispatch verifies *)

(** A program ran to the result [r] somewhere in the history. *)
Definition ran {A} (p : prog A) (r : A) (h : history) : Prop :=
  exists before run after, h = before ++ run ++ after /\ follows p run r.

(** Provider, Host Dependencies and inputs were found as committed. *)
Definition verified (job_id : string) (h : history) : Prop :=
  ran (verify_committed_execution_provider rt job_id) (Ok tt) h
  /\ ran (verify_committed_host_dependencies job_id) (Ok tt) h
  /\ ran (ensure_job_input_ownership rt job_id) (Ok tt) h.

(** What these checks compare.  The file that runs executions on the target was
    read at its configured place, and has the committed digest. *)
Definition image_at (path : string) (committed : ExecutionProviderSnapshot) (h : history) : Prop :=
  exists canonical, Event (Canonicalize path) (Ok canonical) ∈ h
    /\ Event (Sha256File canonical) (Ok (eps_executable_digest committed)) ∈ h.

Definition provider_observed (target : ExecutionTarget.t) (committed : ExecutionProviderSnapshot)
    (h : history) : Prop :=
  eps_wsl_distribution committed = None
  /\ match target with
     | ExecutionTarget.LocalLinux =>
         eps_contract committed = ExecutionProviderContract.LocalLinuxRunnerV1
         /\ exists path, rt_runner_path rt = Some path /\ image_at path committed h
     | ExecutionTarget.WindowsNative =>
         eps_contract committed = ExecutionProviderContract.WindowsNativeLauncherV1
         /\ exists windows, rt_windows_config rt = Some windows
              /\ image_at (wx_launcher_path windows) committed h
     end.

(** The file was there, and had the digest that is committed to. *)
Definition dependency_observed (binding : HostDependencyBinding) (h : history) : Prop :=
  (exists kind, Event (SymlinkMetadata (hd_path binding)) (Ok kind) ∈ h /\ is_regular kind = true)
  /\ Event (Sha256File (hd_path binding)) (Ok (hd_expected_digest binding)) ∈ h.

(** Everything below a directory, with the path relative to it; [None] when a part
    of it could not be read. *)
Fixpoint entries_below (prefix : string) (walk : Walk) : option (list (string * FileKind)) :=
  match walk with
  | Unreadable _ => None
  | Listed entries => entries_of prefix entries
  end
with entries_of (prefix : string) (entries : Entries) : option (list (string * FileKind)) :=
  match entries with
  | NoMore => Some []
  | BadEntry _ _ | BadMetadata _ _ _ => None
  | Entry name kind below rest =>
      let path := if String.eqb prefix "" then name else prefix +:+ "/" +:+ name in
      match (match kind with Directory => entries_below path below | _ => Some [] end),
            entries_of prefix rest with
      | Some inside, Some others => Some ((path, kind) :: inside ++ others)
      | _, _ => None
      end
  end.

(** The directory holds directories and regular files only, the regular files
    are the given ones, and each has its digest. *)
Definition files_measured (root : string) (files : list (string * string)) (h : history) : Prop :=
  Event (SymlinkMetadata root) (Ok Directory) ∈ h
  /\ (exists walk entries, Event (WalkTree root) walk ∈ h /\ entries_below "" walk = Some entries
       /\ (forall path kind, (path, kind) ∈ entries -> kind = Directory \/ is_regular kind = true)
       /\ forall path, path ∈ files.*1 <->
            exists kind, (path, kind) ∈ entries /\ is_regular kind = true)
  /\ Forall (fun file => Event (Sha256File (path_join root file.1)) (Ok file.2) ∈ h) files.

(** The place and the digest that a plan commits an input to. *)
Definition committed_file (input : EffectiveInputBinding) : string * string :=
  (relative_text (components (ei_presentation_relative_path input)),
   to_ascii_lowercase (ei_digest input)).

(** Provider, Host Dependencies and inputs of the Job, as the Registry has them,
    are those that were measured. *)
Definition found_as_committed (job_id : string) (h : history) : Prop :=
  (exists plan provider, answered (GetExecutionPlan job_id) plan h
     /\ answered (GetExecutionProvider job_id) provider h
     /\ forall committed, provider = Some committed ->
          provider_observed (plan_execution_target plan) committed h)
  /\ (exists bindings, answered (GetHostDependencies job_id) bindings h
       /\ Forall (fun binding => dependency_observed binding h) bindings)
  /\ (exists plan, answered (GetExecutionPlan job_id) plan h
       /\ (plan_effective_inputs plan = [] /\ plan_input_set_id plan = None
           \/ exists files, Permutation files (map committed_file (plan_effective_inputs plan))
                /\ files_measured (job_input_path rt job_id) files h)).

(** One of them was not. *)
Definition drifted (job_id : string) (h : history) : Prop := exists error,
  (ran (verify_committed_execution_provider rt job_id) (Err error) h
   /\ provider_drifted (err_code error) = true)
  \/ (ran (verify_committed_host_dependencies job_id) (Err error) h
      /\ dependency_drifted (err_code error) = true)
  \/ (ran (ensure_job_input_ownership rt job_id) (Err error) h
      /\ input_drifted (err_code error) = true).

(** The start of the process was answered with a failure. *)
Definition start_refused (starting : AttemptRecord) (h : history) : Prop :=
  (exists arguments output,
     Event (SystemdRun (att_unit_name starting) arguments) (Ok output) ∈ h
     /\ out_success output = false)
  \/ exists spec error, wns_attempt_id spec = att_attempt_id starting
       /\ Event (SpawnWindowsNative spec) (Err error) ∈ h.

(** A cancel of the Job of the Attempt was recorded, and the Attempt read. *)
Definition cancel_requested (attempt : AttemptRecord) (h : history) : Prop :=
  exists job_id at_ms projection first,
    answered (RequestCancel job_id at_ms) projection h
    /\ answered (GetLatestAttempt job_id) (Some first) h /\ later first h attempt.

(** No result was found, and then neither an active unit nor the recorded
    process. *)
Definition unit_stopped (attempt : AttemptRecord) (h : history) : Prop :=
  exists before after, h = before ++ after /\ no_result attempt before
    /\ shown (att_unit_name attempt) (fun properties => unit_is_active properties = false) after
    /\ pid_gone attempt after.

(** Why an Attempt may be committed in a state without a result. *)
Inductive outcome_evidence (attempt : AttemptRecord) (state : AttemptState.t) (h : history) : Prop :=
  | Held : state = AttemptState.Orphaned -> outcome_evidence attempt state h
  | NeverDispatched target now :
      state = AttemptState.Lost ->
      no_result attempt h ->
      Event (PathExists (bundle_file attempt (start_file target))) false ∈ h ->
      shown (att_unit_name attempt) (fun properties =>
        unit_is_active properties = false /\ unit_has_pending_job properties = false) h ->
      Event NowMs (Ok now) ∈ h ->
      rt_startup_grace_ms rt <= saturating_sub now (att_created_at_ms attempt) ->
      outcome_evidence attempt state h
  | Classified expected observation :
      supervisor_identity attempt = Ok expected ->
      then_no_result attempt (linux_observed attempt observation) h ->
      classify_supervisor_recovery expected observation (intent_of attempt)
        = Ok (SupervisorRecoveryDisposition.Terminal state)
      \/ classify_supervisor_recovery expected observation (intent_of attempt)
         = Ok SupervisorRecoveryDisposition.Lost /\ state = AttemptState.Lost ->
      outcome_evidence attempt state h
  | LineageGone plan observation :
      state = AttemptState.Failed ->
      answered (GetExecutionPlan (att_job_id attempt)) plan h ->
      plan_execution_target plan = ExecutionTarget.WindowsNative ->
      att_termination_intent attempt = AttemptTerminationIntent.Natural ->
      then_no_result attempt (linux_observed attempt observation) h ->
      so_unit_state observation = SupervisorUnitState.NotFound ->
      so_recorded_pid_alive observation = false ->
      outcome_evidence attempt state h
  | LauncherGone :
      state = classify_terminal_state (intent_of attempt) None None None ->
      then_no_result attempt (launcher_absent attempt) h ->
      outcome_evidence attempt state h
  | DeadlinePassed timed_out :
      state = AttemptState.TimedOut ->
      later timed_out h attempt ->
      then_no_result attempt (launcher_terminated timed_out) h ->
      outcome_evidence attempt state h
  | PreconditionDrifted :
      state = AttemptState.Failed -> drifted (att_job_id attempt) h ->
      outcome_evidence attempt state h
  | StartRefused :
      state = AttemptState.Failed -> start_refused attempt h ->
      outcome_evidence attempt state h
  | StopRequested :
      state = AttemptState.Cancelled -> cancel_requested attempt h ->
      unit_stopped attempt h \/ then_no_result attempt (observed_dead attempt) h ->
      outcome_evidence attempt state h.

(** Why a terminal outcome may be committed: the Attempt was read and was not
    terminal, the commit is against the version that was read, and its state is
    the one of an accepted result or of an observation. *)
Inductive justified (h : history) (terminal : TerminalCommit) : Prop :=
  | FromResult attempt_id current accepted :
      answered (GetAttempt attempt_id) current h ->
      AttemptState.is_terminal (att_state current) = false ->
      accepted_result current accepted h ->
      tc_attempt_id terminal = tc_attempt_id accepted ->
      tc_expected_row_version terminal = tc_expected_row_version accepted ->
      tc_state terminal = tc_state accepted ->
      tc_result_digest terminal = tc_result_digest accepted ->
      justified h terminal
  | FromObservation attempt current :
      answered (GetAttempt (att_attempt_id attempt)) current h ->
      AttemptState.is_terminal (att_state current) = false ->
      tc_attempt_id terminal = att_attempt_id current ->
      tc_expected_row_version terminal = att_row_version current ->
      outcome_evidence attempt (tc_state terminal) h ->
      justified h terminal.

(** ** Other calls *)

(** The bytes of a file of the bundle were read back. *)
Definition read_back (attempt : AttemptRecord) (file content : string) (h : history) : Prop :=
  Event (ReadFile (path_join (att_bundle_path attempt) file)) (Ok content) ∈ h.

(** A bundle is recorded: its manifest names the committed plan and the request,
    and all three were read back from the published directory. *)
Definition bundle_verified (attempt_id : string) (version : Z) (digest : string) (h : history) : Prop :=
  exists attempt snapshot plan request token,
    let job := snap_job snapshot in
    let manifest := bundle_manifest job attempt request (plan_to_json plan) token in
    attempt_id = att_attempt_id attempt /\ version = att_row_version attempt
    /\ answered (GetJobSnapshot (att_job_id attempt)) snapshot h
    /\ plan_of_json (job_execution_plan_json job) = Ok plan
    /\ bm_plan_digest manifest = job_execution_plan_digest job
    /\ bm_launch_token_digest manifest = att_launch_token_digest attempt
    /\ digest = sha256_bytes (bundle_manifest_to_json manifest)
    /\ read_back attempt RUNNER_REQUEST_FILE request h
    /\ read_back attempt PLAN_FILE (plan_to_json plan) h
    /\ read_back attempt BUNDLE_MANIFEST_FILE (bundle_manifest_to_json manifest) h.

(** A dispatch is recorded: what was committed was verified before. *)
Definition dispatch_verified (attempt_id : string) (h : history) : Prop :=
  exists first attempt, later first h attempt /\ attempt_id = att_attempt_id attempt
    /\ verified (att_job_id first) h.

Definition dispatch_measured (attempt_id : string) (h : history) : Prop :=
  exists first attempt, later first h attempt /\ attempt_id = att_attempt_id attempt
    /\ found_as_committed (att_job_id first) h.

(** A process starts: since a dispatch of the Attempt was recorded, none was. *)
Definition starts (R : Type) (c : call R) : bool :=
  match c with SystemdRun _ _ | SpawnWindowsNative _ => true | _ => false end.

Definition no_start (h : history) : Prop :=
  Forall (fun e => match e with Event c _ => starts _ c = false end) h.

Definition just_issued (starting : AttemptRecord) (h : history) : Prop :=
  exists before attempt_id version at_ms after,
    h = before ++ Event (Registry (MarkDispatchIssued attempt_id version at_ms)) (Ok starting) :: after
    /\ no_start after.

(** A unit is stopped: the cancel of its Job is recorded, and its Runner was
    told. *)
Definition stop_recorded (unit_name : string) (h : history) : Prop :=
  exists attempt content, unit_name = att_unit_name attempt /\ cancel_requested attempt h
    /\ Event (WriteAtomic (bundle_file attempt CANCEL_FILE) content) (Ok tt) ∈ h.

(** The command is that of the committed plan. *)
Definition runs_plan (starting : AttemptRecord) (arguments : list string) (h : history) : Prop :=
  exists plan spec variables,
    answered (GetExecutionPlan (att_job_id starting)) plan h
    /\ build_systemd_run_command spec variables = Ok arguments
    /\ srs_unit_name spec = att_unit_name starting
    /\ srs_workspace_path spec = plan_workspace_path plan
    /\ srs_execution_profile spec = plan_execution_profile plan
    /\ srs_environment spec = plan_env plan
    /\ srs_budget spec = plan_budget plan.

Definition spawns_plan (starting : AttemptRecord) (spec : WindowsNativeRunSpec) (h : history) : Prop :=
  wns_attempt_id spec = att_attempt_id starting
  /\ exists plan, answered (GetExecutionPlan (att_job_id starting)) plan h
     /\ wns_executable spec = plan_executable plan /\ wns_authority spec = plan_windows_authority plan.

(** The image that the process executes was read, and it is the committed one,
    which the Runner itself has reported. *)
Definition image_read (evidence : RunnerStartEvidence) (committed : ExecutionProviderSnapshot)
    (main_pid : Z) (h : history) : Prop :=
  Event (Sha256File ("/proc/" +:+ pretty main_pid +:+ "/exe")) (Ok (eps_executable_digest committed)) ∈ h
  /\ rse_runner_executable_digest evidence = Some (eps_executable_digest committed).

(** The image could not be read, and afterwards the identifier was free or that
    of another process. *)
Definition ended_unread (main_pid : Z) (identity : string) (h : history) : Prop :=
  exists before error after answer,
    h = before ++ Event (Sha256File ("/proc/" +:+ pretty main_pid +:+ "/exe")) (Err error) :: after
    /\ Event (ReadText ("/proc/" +:+ pretty main_pid +:+ "/stat")) answer ∈ after
    /\ match answer with Ok stat => stat_start_time stat | Err _ => None end <> Some identity.

(** The main process that systemd shows for the unit executes the committed
    Runner, or ended before it could be looked at. *)
Definition image_committed (job_id : string) (evidence : RunnerStartEvidence) (main_pid : Z)
    (identity : string) (h : history) : Prop :=
  exists provider, answered (GetExecutionProvider job_id) provider h
    /\ forall committed, provider = Some committed ->
        eps_contract committed = ExecutionProviderContract.LocalLinuxRunnerV1 ->
        image_read evidence committed main_pid h \/ ended_unread main_pid identity h.

(** A Runner is bound: the start evidence names the Attempt and is in the
    bundle, systemd shows its invocation and control group for the unit of the
    Attempt, and the main process of that unit exists. *)
Definition process_identified (attempt_id : string) (version : Z) (identity : RunnerIdentity)
    (h : history) : Prop :=
  exists attempt content evidence stat boot_id,
    attempt_id = att_attempt_id attempt /\ version = att_row_version attempt
    /\ Event (ReadFile (bundle_file attempt RUNNER_START_FILE)) (Ok content) ∈ h
    /\ Event (Sha256File (bundle_file attempt RUNNER_START_FILE)) (Ok (sha256_bytes content)) ∈ h
    /\ runner_start_of_json content = Ok evidence
    /\ rse_job_id evidence = att_job_id attempt
    /\ rse_attempt_id evidence = att_attempt_id attempt
    /\ rse_launch_token_digest evidence = att_launch_token_digest attempt
    /\ rid_unit_name identity = att_unit_name attempt
    /\ rid_runner_start_digest identity = sha256_bytes content
    /\ shown (att_unit_name attempt) (fun properties =>
         properties !! "InvocationID" = Some (rid_invocation_id identity)
         /\ properties !! "ControlGroup" = Some (rid_control_group identity)
         /\ (properties !! "MainPID" ≫= parse_u32) = Some (rid_main_pid identity)) h
    /\ rid_main_pid identity <> 0
    /\ Event (ReadText ("/proc/" +:+ pretty (rid_main_pid identity) +:+ "/stat")) (Ok stat) ∈ h
    /\ stat_start_time stat = Some (rid_process_start_identity identity)
    /\ image_committed (att_job_id attempt) evidence (rid_main_pid identity)
         (rid_process_start_identity identity) h
    /\ Event (ReadText "/proc/sys/kernel/random/boot_id") (Ok boot_id) ∈ h
    /\ rid_boot_id identity = str_trim boot_id.

(** A Windows launcher is bound: evidence in the bundle names it, the Attempt
    and the committed image of the launcher. *)
Definition owner_evidenced (attempt_id : string) (version : Z) (owner : AttemptSupervisorOwner)
    (h : history) : Prop :=
  exists attempt content provider,
    attempt_id = att_attempt_id attempt /\ version = att_row_version attempt
    /\ answered (GetExecutionProvider (att_job_id attempt)) (Some provider) h
    /\ windows_provider_contract provider = true
    /\ ((exists evidence,
           Event (ReadFile (bundle_file attempt WINDOWS_LAUNCHER_START_FILE)) (Ok content) ∈ h
           /\ windows_launcher_start_of_json content = Ok evidence
           /\ wls_job_id evidence = att_job_id attempt
           /\ wls_attempt_id evidence = att_attempt_id attempt
           /\ wls_launch_token_digest evidence = att_launch_token_digest attempt
           /\ wls_launcher_image_digest evidence = eps_executable_digest provider
           /\ owner = WindowsLauncherV1 (wls_launcher_process_id evidence)
                        (wls_launcher_process_creation_time_file_time evidence)
                        (eps_executable_digest provider) (job_name_of attempt) (sha256_bytes content))
        \/ (exists evidence creation_time,
           Event (ReadFile (bundle_file attempt WINDOWS_START_FILE)) (Ok content) ∈ h
           /\ windows_start_of_json content = Ok evidence
           /\ wse_attempt_id evidence = att_attempt_id attempt
           /\ wse_launch_token_digest evidence = att_launch_token_digest attempt
           /\ wse_launcher_process_creation_time_file_time evidence = Some creation_time
           /\ creation_time <> 0
           /\ answered (GetSupervisorOwner (att_attempt_id attempt)) None h
           /\ owner = WindowsLauncherV1 (wse_launcher_process_id evidence) creation_time
                        (eps_executable_digest provider) (job_name_of attempt) (sha256_bytes content))).

(** ** What is admitted *)

(** The path lies below a configured executable root. *)
Definition below_executable_root (path : string) (h : history) : Prop :=
  exists root canonical_root, root ∈ uec_allowed_executable_roots (rt_executor rt)
    /\ Event (Canonicalize root) (Ok canonical_root) ∈ h
    /\ path_starts_with path canonical_root = true.

(** The executable and the directory it is invoked from both resolve to places
    below an executable root. *)
Definition executable_confined (executable : string) (h : history) : Prop :=
  exists canonical parent canonical_parent,
    is_absolute executable = true
    /\ Event (Canonicalize executable) (Ok canonical) ∈ h
    /\ (exists metadata, Event (Metadata canonical true) (Ok metadata) ∈ h
        /\ is_regular (md_kind metadata) = true /\ Z.land (md_mode metadata) 73 <> 0)
    /\ path_parent executable = Some parent
    /\ Event (Canonicalize parent) (Ok canonical_parent) ∈ h
    /\ below_executable_root canonical h /\ below_executable_root canonical_parent h.

(** It is confined, and has the digest. *)
Definition executable_planned (executable digest : string) (h : history) : Prop :=
  executable_confined executable h /\ Event (Sha256File executable) (Ok digest) ∈ h.

(** The directory is what some path resolves to, below the directory that the
    Workspace resolves to. *)
Definition cwd_confined (workspace cwd : string) (h : history) : Prop :=
  exists root candidate, Event (Canonicalize workspace) (Ok root) ∈ h
    /\ Event (Canonicalize candidate) (Ok cwd) ∈ h
    /\ path_starts_with cwd root = true /\ Event (IsDir cwd) true ∈ h.

Definition step_planned (workspace : string) (step : RuntimeExecutionStep) (h : history) : Prop :=
  executable_planned (step_executable step) (step_executable_digest step) h
  /\ cwd_confined workspace (step_cwd step) h.

(** The executables, working directories and the Workspace of the plan. *)
Definition planned (plan : RuntimeExecutionPlan) (h : history) : Prop := exists workspace,
  Event (Canonicalize (workspace_path (rt_executor rt) (plan_workspace_id plan))) (Ok workspace) ∈ h
  /\ Event (Canonicalize workspace) (Ok (plan_workspace_path plan)) ∈ h
  /\ executable_planned (plan_executable plan) (plan_executable_digest plan) h
  /\ cwd_confined workspace (plan_cwd plan) h
  /\ Forall (fun step => step_planned workspace step h) (plan_steps plan).

(** Inputs and credentials that a plan names were read back from the directory
    they were prepared in. *)
Definition materials_prepared (plan : RuntimeExecutionPlan) (h : history) : Prop :=
  (plan_effective_inputs plan = []
   \/ exists root inputs, ran (verify_effective_input_set root inputs)
                            (Ok (plan_effective_inputs plan)) h)
  /\ forall credential_set_id, plan_credential_set_id plan = Some credential_set_id ->
       exists root names, ran (inspect_credential_snapshot root) (Ok (credential_set_id, names)) h.

(** What these checks compare: the files that were prepared for the plan, the
    entries whose digests make up its credential set, and the provider. *)
Definition credentials_measured (root set_id : string) (h : history) : Prop :=
  Event (SymlinkMetadata root) (Ok Directory) ∈ h
  /\ exists entries, set_id = sha256_bytes (credential_snapshot_to_json entries)
     /\ Forall (fun entry => Event (Sha256File (path_join root (cse_name entry))) (Ok (cse_digest entry)) ∈ h)
          entries.

Definition materials_measured (plan : RuntimeExecutionPlan) (h : history) : Prop :=
  (plan_effective_inputs plan = []
   \/ exists root, files_measured root
        (map (fun input => (ei_presentation_relative_path input, ei_digest input))
           (plan_effective_inputs plan)) h)
  /\ forall credential_set_id, plan_credential_set_id plan = Some credential_set_id ->
       exists root, credentials_measured root credential_set_id h.

Definition admission_measured (request : SubmitRequest) (h : history) : Prop :=
  materials_measured (sub_plan request) h
  /\ exists provider, sub_execution_provider request = Some provider
     /\ provider_observed (plan_execution_target (sub_plan request)) provider h.

(** The fact was established after the lifecycle lock was taken. *)
Definition under_lock (fact : history -> Prop) (h : history) : Prop :=
  exists before after, h = before ++ after /\ Event LockLifecycle (Ok tt) ∈ before /\ fact after.

(** No Job was found for the identity of the request. *)
Definition not_found (principal client_request_id digest : string) (h : history) : Prop :=
  under_lock (fun after => exists compatible,
    answered (FindIdempotentJob principal client_request_id digest compatible) None after) h.

(** Under the lifecycle lock no Job was found for the request, and everything its
    plan rests on was looked at. *)
Definition admission_observed (request : SubmitRequest) (h : history) : Prop :=
  let plan := sub_plan request in
  (exists digest, sub_request_identity_digest request = Some digest
     /\ not_found (plan_principal plan) (sub_client_request_id request) digest h)
  /\ planned plan h
  /\ Forall (fun binding => dependency_observed binding h) (sub_host_dependencies request)
  /\ materials_prepared plan h
  /\ (exists provider, sub_execution_provider request = Some provider
      /\ ran (current_execution_provider_snapshot rt (plan_execution_target plan)) (Ok provider) h)
  /\ plan_timeout_ms plan <= uec_max_runtime_ms (rt_executor rt)
  /\ plan_stdout_limit_bytes plan <= uec_max_output_bytes (rt_executor rt)
  /\ plan_stderr_limit_bytes plan <= uec_max_output_bytes (rt_executor rt).

(** ** The condition on every call *)

Definition engine_ok (R : Type) (c : call R) (h : history) : Prop :=
  match c with
  | Registry op =>
      match op with
      | MarkBundleReady attempt_id version digest _ => bundle_verified attempt_id version digest h
      | MarkDispatchIssued attempt_id _ _ => dispatch_verified attempt_id h
      | BindRunning attempt_id version bound => process_identified attempt_id version bound h
      | BindSupervisorOwner attempt_id version owner _ => owner_evidenced attempt_id version owner h
      | RecoverOrphanedTerminal terminal => orphan_evidence h terminal
      | CommitTerminal terminal => justified h terminal
      | Submit _ _ _ request _ => admission_observed request h
      | _ => True
      end
  | SystemdRun unit_name arguments => exists starting,
      unit_name = att_unit_name starting /\ just_issued starting h /\ runs_plan starting arguments h
  | SpawnWindowsNative spec => exists starting,
      just_issued starting h /\ spawns_plan starting spec h
  | StopUnit unit_name => stop_recorded unit_name h
  | _ => True
  end.

Lemma silent_engine_ok R (c : call R) h : silent R c h -> engine_ok R c h.
Proof.
  destruct c; try done. match goal with op : registry_op _ |- _ => by destruct op end.
Qed.

Lemma orphan_engine_ok R (c : call R) h : orphan_ok R c h -> engine_ok R c h.
Proof.
  destruct c; try done. match goal with op : registry_op _ |- _ => by destruct op end.
Qed.

(** ** Evidence stays *)

Lemma no_result_app attempt h1 h2 : no_result attempt h1 \/ no_result attempt h2 ->
  no_result attempt (h1 ++ h2).
Proof. unfold no_result. intros [[? | ?] | [? | ?]]; first [left; in_history | right; in_history]. Qed.

Lemma then_no_result_app attempt fact h1 h2 :
  then_no_result attempt fact h1 -> then_no_result attempt fact (h1 ++ h2).
Proof.
  intros (before & after & -> & Hf & Hn). exists before, (after ++ h2).
  rewrite app_assoc. split; [done | ]. split; [done | ]. apply no_result_app. by left.
Qed.

Lemma later_app attempt current h1 h2 : later attempt h1 current \/ later attempt h2 current ->
  later attempt (h1 ++ h2) current.
Proof.
  intros [H | H]; induction H; [apply Same | eapply Read | eapply Published | eapply Owned
    | apply Same | eapply Read | eapply Published | eapply Owned]; try done;
    apply answered_app; first [by left | by right].
Qed.

Lemma later_trans first between current h :
  later first h between -> later between h current -> later first h current.
Proof. intros H1 H2. induction H2; [done | eapply Read | eapply Published | eapply Owned]; eauto. Qed.

Lemma ran_app {A} (p : prog A) r h1 h2 : ran p r h1 \/ ran p r h2 -> ran p r (h1 ++ h2).
Proof.
  intros [(before & run & after & -> & Hf) | (before & run & after & -> & Hf)].
  - exists before, run, (after ++ h2). by rewrite <- !app_assoc.
  - exists (h1 ++ before), run, after. by rewrite <- !app_assoc.
Qed.

Lemma verified_app job_id h1 h2 : verified job_id h1 -> verified job_id (h1 ++ h2).
Proof. intros (? & ? & ?). split_and!; apply ran_app; by left. Qed.

Lemma drifted_app job_id h1 h2 : drifted job_id h1 -> drifted job_id (h1 ++ h2).
Proof.
  intros (error & H). exists error.
  destruct H as [[? ?] | [[? ?] | [? ?]]]; [left | right; left | right; right]; split; try done;
    apply ran_app; by left.
Qed.

Lemma start_refused_app starting h1 h2 : start_refused starting h1 -> start_refused starting (h1 ++ h2).
Proof.
  intros [(arguments & output & ? & ?) | (spec & error & ? & ?)];
    [left; exists arguments, output | right; exists spec, error]; split; try done; in_history.
Qed.

Lemma cancel_requested_app attempt h1 h2 :
  cancel_requested attempt h1 -> cancel_requested attempt (h1 ++ h2).
Proof.
  intros (job_id & at_ms & projection & first & ? & ? & ?). exists job_id, at_ms, projection, first.
  split_and!; [apply answered_app; by left | apply answered_app; by left | apply later_app; by left].
Qed.

Lemma unit_stopped_app attempt h1 h2 : unit_stopped attempt h1 -> unit_stopped attempt (h1 ++ h2).
Proof.
  intros (before & after & -> & Hn & Hs & Hp). exists before, (after ++ h2).
  rewrite app_assoc. split_and!; [done | done | apply shown_app; by left | apply pid_gone_app; by left].
Qed.

Lemma outcome_evidence_app attempt state h1 h2 :
  outcome_evidence attempt state h1 -> outcome_evidence attempt state (h1 ++ h2).
Proof.
  intros [ | target now ? ? ? ? ? ? | expected observation | plan observation | | timed_out | | | Hs Hc Hg].
  - by apply Held.
  - eapply (NeverDispatched _ _ _ target now); try done; [apply no_result_app; by left | in_history |
      apply shown_app; by left | in_history].
  - eapply Classified; eauto using then_no_result_app.
  - eapply (LineageGone _ _ _ plan); eauto using then_no_result_app, answered_app.
  - eapply LauncherGone; eauto using then_no_result_app.
  - eapply (DeadlinePassed _ _ _ timed_out); eauto using then_no_result_app, later_app.
  - apply PreconditionDrifted; eauto using drifted_app.
  - apply StartRefused; eauto using start_refused_app.
  - apply StopRequested; [done | by apply cancel_requested_app | ].
    destruct Hg; [left; by apply unit_stopped_app | right; by apply then_no_result_app].
Qed.

Lemma linux_observed_app attempt observation h1 h2 :
  linux_observed attempt observation h2 -> linux_observed attempt observation (h1 ++ h2).
Proof.
  intros ((boot & Hb & Heq) & Hs & Hp). split; [exists boot; split; [in_history | done] | ].
  split; [apply shown_app; by right | ]. intros Ha. apply pid_gone_app. right. by apply Hp.
Qed.

End evidence.

(** Steps of the proofs: a part with a specification, a part that only
    observes, and the rest of a program that only observes. *)
Ltac ev_spec H :=
  apply wp_eff_bind; try apply infallible_wp; eapply spec_wp; [apply H | apply silent_engine_ok | ].
Ltac ev_quiet := apply wp_eff_bind; apply quiet_wp; [solve [quiet_auto] | apply silent_engine_ok | ].
Ltac ev_last := apply quiet_wp; [solve [quiet_auto] | apply silent_engine_ok | done].
(** A call whose error is mapped and returned, and the [?] of a value. *)
Ltac ev_try := apply wp_eff_bind; unfold try_map at 1; cbn [wp]; split; [done | ];
  intros [? | ?]; cbn [map_err]; [ | done].
Ltac ev_value r := apply wp_eff_bind; unfold of_result at 1; cbn [wp]; destruct r eqn:?; [ | done].
Ltac ev_guard := apply wp_eff_bind; unfold of_result at 1, fail_if at 1; cbn [wp];
  match goal with |- match (if ?b then _ else _) with _ => _ end => destruct b eqn:?; [done | ] end.
(** A call that is allowed, whatever it answers. *)
Ltac ev_call := apply wp_eff_bind;
  first [unfold ask at 1 | unfold registry at 1, try at 1 | unfold try at 1];
  cbn [wp]; split; [done | ].
