(* ===== verification/StartSpec.v ===== *)
(** * What binding and the bundle establish

    An identity is bound only as observed, and a bundle is recorded only as it
    can be read back. *)

From S2P Require Import Prelude Text Errors Types Supervisor Platform Validation Submit Store.
From S2P Require Import Transaction Projection Lifecycle Admission Recovery Registry Query.
From S2P Require Import Effects Utf8 Engine Linux Launch Inputs Binding Reconciliation Bundle.
From S2P Require Import Dispatching Silence Observed ReconciliationSpec Justified.

(** ** Bound identities rest on observations

    What [Binding] established before it records the identity of a process. *)

#[local] Open Scope Z_scope.

Section binding.
Context `{P : Platform, C : EngineCodec}.
Context (rt : Runtime).

(** ** Files of evidence *)

Lemma read_evidence_spec {A} attempt file what field (decode : string -> result string A) :
  spec (read_evidence attempt file what field decode) (fun r h => forall content evidence,
    r = Ok (content, evidence) ->
    Event (ReadFile (bundle_file attempt file)) (Ok content) ∈ h /\ decode content = Ok evidence).
Proof.
  unfold spec, read_evidence. ev_try. apply wp_eff_bind. unfold of_result at 1. cbn [wp].
  destruct (decode _) eqn:Hd; cbn [map_err]; [ | done].
  intros ? ? [= <- <-]. split; [in_history | done].
Qed.

Lemma unchanged_spec attempt file content what field :
  spec (unchanged_digest attempt file content what field) (fun r h => forall digest, r = Ok digest ->
    digest = sha256_bytes content
    /\ Event (Sha256File (bundle_file attempt file)) (Ok (sha256_bytes content)) ∈ h).
Proof.
  unfold spec, unchanged_digest. cbv zeta. ev_try. ev_guard. intros ? [= <-]. split; [done | ].
  match goal with H : negb (String.eqb _ _) = false |- _ =>
    apply negb_false_iff, String.eqb_eq in H as -> end. in_history.
Qed.

(** ** Linux *)

Lemma linux_provider_spec job_id :
  spec (linux_provider job_id) (fun r h => forall p, r = Ok p ->
    exists provider, answered (GetExecutionProvider job_id) provider h
      /\ forall committed, provider = Some committed ->
         eps_contract committed = ExecutionProviderContract.LocalLinuxRunnerV1 -> p = Some committed).
Proof.
  unfold spec, linux_provider. use_spec (registry_spec (GetExecutionProvider job_id) I).
  intros [provider | e] h Hp; [ | done]. intros ? [= <-]. exists provider.
  split; [by apply Hp | ]. intros committed -> Hc. simpl. by rewrite (bool_decide_true _ Hc).
Qed.

Lemma read_trimmed_spec path :
  spec (read_trimmed path) (fun r h => forall text, r = Ok text ->
    exists content, Event (ReadText path) (Ok content) ∈ h /\ text = str_trim content).
Proof. unfold spec, read_trimmed. ev_try. intros ? [= <-]. eexists. split; [in_history | done]. Qed.

Lemma process_identity_spec pid :
  spec (process_identity pid) (fun r h => forall identity, r = Some identity ->
    pid <> 0 /\ exists stat, Event (ReadText ("/proc/" +:+ pretty pid +:+ "/stat")) (Ok stat) ∈ h
                  /\ stat_start_time stat = Some identity).
Proof.
  unfold spec, process_identity, perform. destruct (pid =? 0) eqn:Hpid; [done | ]. wp_norm.
  split; [done | ]. intros [stat | e] identity H; [ | done]. split; [lia | ].
  exists stat. split; [in_history | done].
Qed.

Lemma require_property_inv properties key expected :
  require_property properties key expected = Ok tt -> properties !! key = Some expected.
Proof. unfold require_property, fail_if. destruct (_ != _) eqn:H; [done | ]. intros _. by bool_props. Qed.

Lemma main_process_spec properties evidence :
  spec (observed_main_process properties evidence) (fun r h => forall pid identity, r = Ok (pid, identity) ->
    properties !! "InvocationID" = Some (rse_invocation_id evidence)
    /\ properties !! "ControlGroup" = Some (rse_control_group evidence)
    /\ (properties !! "MainPID" ≫= parse_u32) = Some pid /\ pid <> 0
    /\ exists stat, Event (ReadText ("/proc/" +:+ pretty pid +:+ "/stat")) (Ok stat) ∈ h
         /\ stat_start_time stat = Some identity).
Proof.
  unfold spec, observed_main_process.
  ev_value (require_property properties "InvocationID" (rse_invocation_id evidence)).
  ev_value (require_property properties "ControlGroup" (rse_control_group evidence)).
  apply wp_eff_bind. unfold of_result at 1. cbn [wp].
  destruct (properties !! "MainPID" ≫= parse_u32) as [main_pid | ]; cbn [ok_or]; [ | done].
  ev_guard. use_spec process_identity_spec. intros observed h1 Hid. cbn beta iota.
  apply wp_eff_bind. unfold of_result at 1. cbn [wp]. destruct observed as [identity | ]; cbn [ok_or]; [ | done].
  destruct (Hid identity eq_refl) as (Hne & stat & Hstat & Htime). intros ? ? [= <- <-].
  repeat match goal with u : unit |- _ => destruct u end.
  split_and!; [by apply require_property_inv | by apply require_property_inv | done | done | ].
  exists stat. split; [in_history | done].
Qed.

(** What was read of a process that was looked for. *)
Lemma process_identity_read pid : pid <> 0 ->
  spec (process_identity pid) (fun r h => exists answer,
    Event (ReadText ("/proc/" +:+ pretty pid +:+ "/stat")) answer ∈ h
    /\ r = match answer with Ok stat => stat_start_time stat | Err _ => None end).
Proof.
  intros Hpid%Z.eqb_neq. unfold spec, process_identity, perform. rewrite Hpid. wp_norm.
  split; [done | ]. intros answer. exists answer. split; [in_history | done].
Qed.

Lemma ended_unread_app main_pid identity h1 h2 :
  ended_unread main_pid identity h1 \/ ended_unread main_pid identity h2 ->
  ended_unread main_pid identity (h1 ++ h2).
Proof.
  intros [(b & e & a & r & -> & Hr & Hne) | (b & e & a & r & -> & Hr & Hne)].
  - exists b, e, (a ++ h2), r. split; [by rewrite <- app_assoc | ]. split; [in_history | done].
  - exists (h1 ++ b), e, a, r. split; [by rewrite <- app_assoc | done].
Qed.

Lemma executing_image_spec evidence main_pid identity provider : main_pid <> 0 ->
  spec (check_executing_image evidence main_pid identity provider) (fun r h => r = Ok tt ->
    forall committed, provider = Some committed ->
    image_read evidence committed main_pid h \/ ended_unread main_pid identity h).
Proof.
  intros Hpid. unfold spec, check_executing_image. destruct provider as [provider | ]; [ | done].
  ev_call. intros [observed | error].
  - cbn [wp]. unfold fail_if. destruct (_ || _) eqn:Hd; cbn [of_result wp]; [done | ].
    intros _ committed [= <-]. left.
    apply orb_false_iff in Hd as [Hreported%negb_false_iff%bool_decide_eq_true Hd].
    apply negb_false_iff, String.eqb_eq in Hd. subst observed. split; [in_history | done].
  - use_spec (process_identity_read _ Hpid). intros now h1 (answer & Hread & ->). cbn beta iota.
    unfold of_result, fail_if. destruct (_ == _) eqn:Hsame; cbn [wp]; [done | ]. intros _ committed [= <-].
    right. apply bool_decide_eq_false in Hsame. exists [], error, h1, answer. done.
Qed.

Lemma bind_runner_start_wp attempt h :
  wp (engine_ok rt) (bind_runner_start attempt) h (fun _ _ => True).
Proof.
  unfold bind_runner_start. ev_spec (@read_evidence_spec RunnerStartEvidence).
  intros [[content evidence] | e] h1 Hread; [ | done]. destruct (Hread _ _ eq_refl) as [Hfile Hparse].
  ev_guard. match goal with H : negb _ = false |- _ => apply negb_false_iff in H as Hmatch end.
  ev_quiet. intros [reported | e] h2; [ | done].
  apply wp_eff_bind. unfold of_result at 1. cbn [wp].
  destruct (check_reported_image evidence reported) as [[] | e]; [ | done].
  ev_spec systemctl_show_spec. intros [properties | e] h3 Hshow; [ | done].
  specialize (Hshow _ eq_refl). ev_spec main_process_spec.
  intros [[main_pid identity] | e] h4 Hmain; [ | done].
  destruct (Hmain _ _ eq_refl) as (Hinv & Hgroup & Hpid & Hne & stat & Hstat & Htime).
  ev_spec linux_provider_spec. intros [provider | e] h5 Hprovider; [ | done].
  destruct (Hprovider _ eq_refl) as (stored & Hstored & Hlinux).
  ev_spec (executing_image_spec evidence main_pid identity provider Hne).
  intros [[] | e] h6 Himage; [ | done]. specialize (Himage eq_refl).
  ev_spec unchanged_spec. intros [digest | e] h7 Hdigest; [ | done].
  destruct (Hdigest _ eq_refl) as [-> Hsha].
  ev_spec read_trimmed_spec. intros [boot_id | e] h8 Hboot; [ | done].
  destruct (Hboot _ eq_refl) as (boot & Hbootread & ->).
  unfold registry, try. cbn [wp]. split; [ | done].
  exists attempt, content, evidence, stat, boot. unfold answered in *.
  unfold runner_start_matches in Hmatch. bool_props.
  repeat match goal with H : String.eqb _ _ = true |- _ => apply String.eqb_eq in H end.
  split_and!; try done; try in_history.
  - apply shown_app. left. apply shown_app. left. apply shown_app. left. apply shown_app. left.
    apply shown_app. left. apply shown_app. right. by apply Hshow.
  - exists stored. split; [unfold answered; in_history | ]. intros committed Hc Hcontract.
    destruct (Himage committed (Hlinux committed Hc Hcontract)) as [[Himg Hreported] | Hended].
    + left. split; [in_history | done].
    + right. apply ended_unread_app. left. apply ended_unread_app. left. apply ended_unread_app. by right.
Qed.

(** ** Windows *)

Lemma committed_provider_spec job_id :
  spec (committed_provider job_id) (fun r h => forall provider, r = Ok provider ->
    answered (GetExecutionProvider job_id) (Some provider) h).
Proof.
  unfold spec, committed_provider. use_spec (registry_spec (GetExecutionProvider job_id) I).
  intros [[provider | ] | e] h Hp; [ | done | done]. intros ? [= <-]. by apply Hp.
Qed.

Definition launcher_start_validated (attempt : AttemptRecord) (evidence : WindowsLauncherStartEvidence)
    (digest : string) (h : history) : Prop :=
  exists content provider request_digest,
    Event (ReadFile (bundle_file attempt WINDOWS_LAUNCHER_START_FILE)) (Ok content) ∈ h
    /\ windows_launcher_start_of_json content = Ok evidence
    /\ answered (GetExecutionProvider (att_job_id attempt)) (Some provider) h
    /\ launcher_start_matches attempt request_digest provider evidence = true
    /\ digest = sha256_bytes content.

Lemma launcher_start_spec attempt :
  spec (validate_windows_launcher_start_evidence rt attempt) (fun r h => forall evidence digest,
    r = Ok (evidence, digest) -> launcher_start_validated attempt evidence digest h).
Proof.
  unfold spec, validate_windows_launcher_start_evidence.
  use_spec (@read_evidence_spec WindowsLauncherStartEvidence).
  intros [[content evidence] | e] h1 Hread; [ | done]. destruct (Hread _ _ eq_refl) as [Hfile Hparse].
  use_quiet. intros [plan | e] h2; [ | done].
  apply wp_eff_bind. unfold of_result at 1. cbn [wp].
  destruct (require_windows_plan _ _ _) as [[] | e]; [ | done].
  apply wp_eff_bind. unfold of_result at 1. cbn [wp]. destruct (committed_windows rt) as [windows | e]; [ | done].
  use_spec committed_provider_spec. intros [provider | e] h3 Hprovider; [ | done].
  specialize (Hprovider _ eq_refl). ev_try. ev_guard.
  match goal with H : negb _ = false |- _ => apply negb_false_iff in H as Hmatch end.
  use_spec unchanged_spec. intros [digest | e] h4 Hdigest; [ | done].
  destruct (Hdigest _ eq_refl) as [-> _]. intros ? ? [= <- <-].
  exists content, provider. eexists. unfold answered in *.
  split_and!; [in_history | done | in_history | exact Hmatch | done].
Qed.

Definition windows_start_validated (attempt : AttemptRecord) (evidence : WindowsStartEvidence)
    (digest : string) (h : history) : Prop :=
  exists content provider,
    Event (ReadFile (bundle_file attempt WINDOWS_START_FILE)) (Ok content) ∈ h
    /\ windows_start_of_json content = Ok evidence
    /\ wse_attempt_id evidence = att_attempt_id attempt
    /\ wse_launch_token_digest evidence = att_launch_token_digest attempt
    /\ wse_job_name evidence = job_name_of attempt
    /\ answered (GetExecutionProvider (att_job_id attempt)) (Some provider) h
    /\ launcher_owner_matches provider evidence = true
    /\ digest = sha256_bytes content.

Lemma windows_start_spec attempt :
  spec (validate_windows_start_evidence rt attempt) (fun r h => forall evidence digest,
    r = Ok (evidence, digest) -> windows_start_validated attempt evidence digest h).
Proof.
  unfold spec, validate_windows_start_evidence.
  use_spec (@read_evidence_spec WindowsStartEvidence).
  intros [[content evidence] | e] h1 Hread; [ | done]. destruct (Hread _ _ eq_refl) as [Hfile Hparse].
  use_quiet. intros [plan | e] h2; [ | done].
  apply wp_eff_bind. unfold of_result at 1. cbn [wp].
  destruct (require_windows_plan _ _ _) as [[] | e]; [ | done].
  apply wp_eff_bind. unfold of_result at 1. cbn [wp]. destruct (committed_windows rt) as [windows | e]; [ | done].
  apply wp_eff_bind. unfold of_result at 1. cbn [wp].
  destruct (plan_windows_execution_context plan) as [context | ]; cbn [ok_or]; [ | done].
  ev_guard. use_quiet. intros [[] | e] h3; [ | done]. ev_try.
  destruct (first_executable plan) as [[executable image_digest] field].
  apply wp_eff_bind. unfold of_result at 1. cbn [wp].
  destruct (windows_visible_path rt executable field) as [image | e]; [ | done].
  apply wp_eff_bind. unfold of_result at 1. cbn [wp].
  destruct (expected_input_evidence plan) as [inputs | e]; [ | done].
  ev_guard. match goal with H : negb (start_matches _ _ _ _ _ _ _ _) = false |- _ =>
    apply negb_false_iff in H as Hmatch end.
  use_spec unchanged_spec. intros [digest | e] h4 Hdigest; [ | done].
  destruct (Hdigest _ eq_refl) as [-> _].
  use_spec committed_provider_spec. intros [provider | e] h5 Hprovider; [ | done].
  specialize (Hprovider _ eq_refl). ev_guard.
  match goal with H : negb (launcher_owner_matches _ _) = false |- _ =>
    apply negb_false_iff in H as Howner end.
  intros ? ? [= <- <-]. unfold start_matches in Hmatch. bool_props.
  repeat match goal with H : String.eqb _ _ = true |- _ => apply String.eqb_eq in H end.
  exists content, provider. unfold answered in *. split_and!; try done; in_history.
Qed.

Lemma bind_windows_start_wp attempt h :
  wp (engine_ok rt) (bind_windows_start rt attempt) h (fun r h' => forall current, r = Ok current ->
    later attempt h' current).
Proof.
  unfold bind_windows_start. ev_spec windows_start_spec.
  intros [[evidence digest] | e] h1 Hstart; [ | done].
  destruct (Hstart _ _ eq_refl) as (content & provider & Hfile & Hparse & Hid & Htoken & Hname & Hprovider & Howner & ->).
  apply wp_eff_bind. unfold of_result at 1. cbn [wp].
  destruct (wse_launcher_process_creation_time_file_time evidence) as [creation_time | ] eqn:Htime; [ | done].
  cbn [mbind option_bind]. destruct (creation_time =? 0) eqn:Hne; cbn [ok_or]; [done | ].
  apply wp_eff_bind. unfold of_result at 1. cbn [wp].
  destruct (wse_launcher_image_digest evidence) as [image_digest | ] eqn:Himage; cbn [ok_or]; [ | done].
  ev_spec (registry_spec (GetSupervisorOwner (att_attempt_id attempt)) I).
  intros [[existing | ] | e] h2 Hexisting; [ | | done].
  - ev_guard. unfold registry, try. cbn [wp]. split; [done | ]. intros [current | e]; [ | done].
    intros ? [= <-]. eapply Read; [apply Same | ]. unfold answered. in_history.
  - unfold registry, try. cbn [wp]. split.
    + unfold launcher_owner_matches in Howner. bool_props.
      exists attempt, content, provider. specialize (Hexisting _ eq_refl). unfold answered in *.
      split_and!; try done; [in_history | ]. right. exists evidence, creation_time.
      unfold answered. split_and!; first [done | in_history | lia | congruence].
    + intros [current | e]; [ | done]. intros ? [= <-].
      eapply Owned; [apply Same | ]. unfold answered. in_history.
Qed.

Lemma bind_dispatch_owner_wp attempt dispatch h :
  wp (engine_ok rt) (bind_native_windows_dispatch_owner rt attempt dispatch) h (fun r h' =>
    forall current, r = Ok current -> later attempt h' current).
Proof.
  unfold bind_native_windows_dispatch_owner.
  ev_quiet. intros [provider | e] h1; [ | done]. ev_guard. ev_quiet. intros [now | e] h2; [ | done].
  ev_try. ev_quiet. intros [[] | e] h3; [ | done].
  ev_spec launcher_start_spec. intros [[evidence digest] | e] h4 Hstart; [ | done].
  destruct (Hstart _ _ eq_refl) as (content & committed & rd & Hfile & Hparse & Hprovider & Hmatch & ->).
  unfold registry, try. cbn [wp]. split.
  - exists attempt, content, committed. pose proof Hmatch as Hm. unfold launcher_start_matches in Hm.
    bool_props. repeat match goal with H : String.eqb _ _ = true |- _ => apply String.eqb_eq in H end.
    unfold answered in *. split_and!; try done; [in_history | ]. left. exists evidence.
    split_and!; try done; [in_history | congruence].
  - intros [current | e]; [ | done]. intros ? [= <-].
    eapply Owned; [apply Same | ]. unfold answered. in_history.
Qed.

Lemma bind_attempt_start_wp attempt target h :
  wp (engine_ok rt) (bind_attempt_start rt attempt target) h (fun r h' => forall current,
    r = Ok current -> target = ExecutionTarget.WindowsNative -> later attempt h' current).
Proof.
  destruct target.
  - eapply wp_mono; [ | apply bind_runner_start_wp]. by intros.
  - eapply wp_mono; [ | apply bind_windows_start_wp]. eauto.
Qed.
End binding.

(** ** A recorded bundle is the one on disk

    What [Bundle] established before the Registry learns of a bundle. *)

#[local] Open Scope Z_scope.

Section bundle.
Context `{P : Platform, C : EngineCodec}.
Context (rt : Runtime).

Lemma published_file_spec path name content :
  spec (verify_published_file path (name, content)) (fun r h => r = Ok tt ->
    Event (ReadFile (path_join path name)) (Ok content) ∈ h).
Proof.
  unfold spec, verify_published_file. ev_try. ev_guard. ev_try.
  unfold of_result, fail_if. destruct (negb (String.eqb _ content)) eqn:Hd; cbn [wp]; [done | ]. intros _.
  apply negb_false_iff, String.eqb_eq in Hd as ->. in_history.
Qed.

Definition bundle_read_back (path request plan manifest : string) (h : history) : Prop :=
  Event (ReadFile (path_join path RUNNER_REQUEST_FILE)) (Ok request) ∈ h
  /\ Event (ReadFile (path_join path PLAN_FILE)) (Ok plan) ∈ h
  /\ Event (ReadFile (path_join path BUNDLE_MANIFEST_FILE)) (Ok manifest) ∈ h.

Lemma published_bundle_spec path request plan manifest :
  spec (verify_published_bundle path request plan manifest) (fun r h => r = Ok tt ->
    bundle_read_back path request plan manifest h).
Proof.
  unfold spec, verify_published_bundle. ev_try. ev_guard. cbn [fold_eff].
  use_spec published_file_spec. intros [[] | e] h1 H1; [ | done].
  use_spec published_file_spec. intros [[] | e] h2 H2; [ | done].
  use_spec published_file_spec. intros [[] | e] h3 H3; [ | done]. intros _.
  specialize (H1 eq_refl). specialize (H2 eq_refl). specialize (H3 eq_refl).
  split_and!; in_history.
Qed.

Lemma bundle_read_back_app path request plan manifest h1 h2 :
  bundle_read_back path request plan manifest h2 ->
  bundle_read_back path request plan manifest (h1 ++ h2).
Proof. intros (? & ? & ?). split_and!; in_history. Qed.

(** Published by this caller or by a faster one: the bytes were read back. *)
Lemma publish_bundle_spec attempt parent path request plan manifest :
  spec (publish_bundle attempt parent path request plan manifest) (fun r h => r = Ok tt ->
    bundle_read_back path request plan manifest h).
Proof.
  unfold spec, publish_bundle. apply wp_eff_bind. unfold ask at 1. cbn [wp]. split; [done | ]. intros uuid.
  cbv zeta. ev_try. unfold catch. apply wp_bind.
  apply (wp_mono _ _ (fun r h => r = Ok tt -> bundle_read_back path request plan manifest h)).
  - intros [[] | e] h' _ H; cbn [wp]; [by intros _; apply H | ].
    apply wp_eff_bind. unfold ask. cbn [wp]. split; [done | ]. by intros [].
  - unfold fill_and_publish. ev_try.
    do 3 (use_quiet; intros [[] | e] ?; [ | done]). ev_try.
    apply wp_eff_bind. unfold ask at 1. cbn [wp]. split; [done | ]. intros renamed.
    use_quiet. intros [[] | e] h1; [ | done].
    eapply spec_wp; [apply published_bundle_spec | by intros | ].
    intros r h2 H ->. apply bundle_read_back_app. by apply H.
Qed.

(** ** The commit *)

Lemma bundle_verified_app attempt_id version digest h1 h2 :
  bundle_verified attempt_id version digest h1 -> bundle_verified attempt_id version digest (h1 ++ h2).
Proof.
  intros (attempt & snapshot & plan & request & token & H). exists attempt, snapshot, plan, request, token.
  unfold read_back in *. cbv zeta in *. destruct H as (? & ? & ? & ? & ? & ? & ? & ? & ? & ?).
  split_and!; try done; [apply answered_app; by left | in_history..].
Qed.

Lemma commit_bundle_wp attempt digest h :
  bundle_verified (att_attempt_id attempt) (att_row_version attempt) digest h ->
  wp (engine_ok rt) (commit_bundle attempt digest) h (fun r h' => forall current, r = Ok current ->
    later attempt h' current).
Proof.
  intros Hv. unfold commit_bundle. ev_call. intros [now | e]; [ | done].
  apply wp_bind. unfold registry at 1, try. cbn [wp]. split; [by apply bundle_verified_app | ].
  intros [current | error].
  - cbn [wp]. intros ? [= <-]. eapply Published; [apply Same | ]. unfold answered. in_history.
  - destruct (err_code error == AttemptStateConflict); [ | done].
    ev_spec (registry_spec (GetAttempt (att_attempt_id attempt)) I).
    intros [current | e] h1 Hc; [ | done]. specialize (Hc _ eq_refl).
    destruct (_ == _); [ | done]. cbn [wp mret eff_mret]. intros ? [= <-].
    eapply Read; [apply Same | ]. by apply answered_app; right.
Qed.

Lemma materialize_bundle_wp attempt h :
  wp (engine_ok rt) (materialize_bundle rt attempt) h (fun r h' => forall current, r = Ok current ->
    later attempt h' current).
Proof.
  unfold materialize_bundle. ev_guard.
  ev_spec (registry_spec (GetJobSnapshot (att_job_id attempt)) I). intros [snapshot | e] h1 Hsnap; [ | done].
  specialize (Hsnap _ eq_refl). cbv zeta.
  apply wp_eff_bind. unfold of_result at 1. cbn [wp].
  destruct (snap_attempt snapshot) as [stored | ]; cbn [ok_or]; [ | done]. ev_guard.
  apply wp_eff_bind. unfold of_result at 1. cbn [wp].
  destruct (plan_of_json _) as [plan | e] eqn:Hplan; cbn [map_err]; [ | done]. ev_guard.
  ev_quiet. intros [dependencies | e] h2; [ | done]. ev_guard.
  match goal with H : _ || _ = false |- _ => apply orb_false_iff in H as [Htoken Hdigest] end.
  apply negb_false_iff, String.eqb_eq in Htoken, Hdigest.
  set (token := launch_token_of _ _) in *. set (request := runner_request_to_json _) in *.
  set (manifest := bundle_manifest _ _ _ _ _) in *.
  unfold store_bundle. apply wp_eff_bind. unfold of_result at 1. cbn [wp].
  destruct (path_parent _) as [parent | ]; cbn [ok_or]; [ | done]. ev_try.
  apply wp_eff_bind. unfold ask at 1. cbn [wp]. split; [done | ]. intros published.
  apply wp_eff_bind. apply (wp_mono _ _ (fun r h' => r = Ok tt ->
    answered (GetJobSnapshot (att_job_id attempt)) snapshot h'
    /\ bundle_read_back (att_bundle_path attempt) request (plan_to_json plan)
         (bundle_manifest_to_json manifest) h')).
  - intros [[] | e] h' _ H; [ | done]. destruct (H eq_refl) as (Hs & Hr & Hp & Hm).
    apply commit_bundle_wp.
    exists attempt, snapshot, plan, request, token. cbv zeta. unfold read_back.
    split_and!; try done.
  - destruct published; (eapply spec_wp;
      [first [apply published_bundle_spec | apply publish_bundle_spec] | apply silent_engine_ok | ]);
      intros r h' H ->; (split; [unfold answered in *; in_history | apply bundle_read_back_app; by apply H]).
Qed.
End bundle.
