(* ===== verification/DispatchSpec.v ===== *)
(** * What handling an Attempt establishes

    Conditions on the calls of reconciliation and of dispatch. *)

From S2P Require Import Prelude Text Errors Types Supervisor Platform Validation Submit Store.
From S2P Require Import Transaction Projection Lifecycle Admission Recovery Registry.
From S2P Require Import SupervisorSpec Query Effects Utf8 Engine Linux Launch Inputs Binding.
From S2P Require Import Output Evidence Observation Reconciliation Bundle Dispatching Silence.
From S2P Require Import Observed ReconciliationSpec Justified StartSpec.

(** ** The reconciliation of one Attempt rests on evidence

    Every program of [Reconciliation] satisfies [engine_ok]: what was answered
    before it commits an outcome or binds a process. *)

#[local] Open Scope Z_scope.

Section reconciliation.
Context `{P : Platform, C : EngineCodec}.
Context (rt : Runtime).

(** ** Commits *)

Lemma commit_observed_wp attempt state reason_code detail observed h :
  outcome_evidence rt attempt state h ->
  wp (engine_ok rt) (commit_observed_control_terminal rt attempt state reason_code detail observed) h
    (fun _ _ => True).
Proof.
  intros Hev. unfold commit_observed_control_terminal. cbv zeta.
  assert (Hlock : quiet (try LockControlTerminal)) by (unfold try; quiet_auto).
  assert (Hnow : quiet (try NowMs)) by (unfold try; quiet_auto).
  ev_quiet. intros [[] | e] h1; [ | done].
  ev_spec (registry_spec (GetAttempt (att_attempt_id attempt)) I). intros [current | e] h2 Hcurrent; [ | done].
  specialize (Hcurrent _ eq_refl). destruct (AttemptState.is_terminal (att_state current)) eqn:Ht;
    [ev_last | ].
  do 6 (ev_quiet; intros [? | ?] ?; [ | done]).
  ev_spec append_terminal_evidence_spec. intros [terminal | e] h3 Hext; [ | done].
  destruct (Hext terminal eq_refl) as [artifact ->]. apply wp_eff_bind. wp_norm. split.
  - eapply (FromObservation _ _ _ attempt current); [ | done | done | done | ].
    + repeat first [by apply answered_app; right | apply answered_app; left].
    + simpl. rewrite <- !app_assoc. by apply outcome_evidence_app.
  - intros [? | e]; [ | done]. ev_quiet. intros [? | ?] ?; [ | done]. ev_last.
Qed.

Lemma commit_control_wp attempt state reason_code detail h :
  outcome_evidence rt attempt state h ->
  wp (engine_ok rt) (commit_control_terminal rt attempt state reason_code detail) h (fun _ _ => True).
Proof. intros Hev. by apply commit_observed_wp. Qed.

Lemma recover_result_commit_ok attempt h :
  wp (engine_ok rt) (recover_orphaned_runner_result rt attempt) h (fun _ _ => True).
Proof. eapply wp_ok_mono; [apply orphan_engine_ok | apply recover_result_wp]. Qed.

Lemma commit_runner_result_from_wp retries : forall attempt_id current id h,
  answered (GetAttempt id) current h ->
  wp (engine_ok rt) (commit_runner_result_from rt retries attempt_id current) h (fun _ _ => True).
Proof.
  induction retries as [ | retries IH]; intros attempt_id current id h Hcurrent; cbn [commit_runner_result_from].
  all: apply wp_eff_bind; apply (wp_mono _ _ (fun _ _ => True));
    [ | by destruct (_ == _); [apply recover_result_commit_ok | ]].
  all: intros [recovered | e] h1 [h1' ->] _; [ | done]; destruct recovered; [ev_last | ].
  all: destruct (AttemptState.is_terminal (att_state current)) eqn:Ht.
  all: try by ev_quiet; intros [? | ?] ?; [ev_last | ].
  all: ev_spec prepare_runner_terminal_spec; intros [accepted | e] h2 Hacc; [ | done]; specialize (Hacc _ eq_refl).
  all: ev_spec append_terminal_evidence_spec; intros [terminal | e] h3 Hext; [ | done];
    destruct (Hext terminal eq_refl) as [artifact ->]; wp_norm; split.
  1, 3: eapply (FromResult _ _ _ id current accepted); try done;
    [by do 3 (apply answered_app; left) | by apply accepted_result_app; left; apply accepted_result_app; right].
  all: intros [? | e]; [ev_quiet; intros [? | ?] ?; [ev_last | done] | ].
  - done.
  - destruct (_ == _); [ | done]. split; [done | ]. intros [current' | e']; [ | done].
    eapply IH, answered_app. right. apply (last_event _ []).
Qed.

Lemma commit_runner_result_wp attempt h :
  wp (engine_ok rt) (commit_runner_result rt attempt) h (fun _ _ => True).
Proof.
  unfold commit_runner_result.
  ev_spec (registry_spec (GetAttempt (att_attempt_id attempt)) I). intros [current | e] h1 Hcurrent; [ | done].
  eapply commit_runner_result_from_wp, answered_app. right. by apply Hcurrent.
Qed.

Lemma reconcile_runner_result_wp attempt h :
  wp (engine_ok rt) (reconcile_runner_result rt attempt) h (fun _ _ => True).
Proof.
  unfold reconcile_runner_result, catch. apply wp_bind.
  eapply wp_mono; [ | apply commit_runner_result_wp]. intros [? | error] h' _ _; [done | ].
  destruct (quarantines _); [ | done]. apply wp_eff_bind.
  eapply wp_mono; [ | apply commit_control_wp; by apply Held]. by intros [? | ?].
Qed.

(** A commit whose answer is not looked at. *)
Lemma commit_then_done attempt state reason_code detail observed h :
  outcome_evidence rt attempt state h ->
  wp (engine_ok rt) (commit_observed_control_terminal rt attempt state reason_code detail observed ;; mret tt) h
    (fun _ _ => True).
Proof.
  intros Hev. apply wp_eff_bind. eapply wp_mono; [ | by apply commit_observed_wp]. by intros [? | ?].
Qed.

(** ** Linux *)

Lemma observe_owner_spec attempt :
  spec (observe_linux_process_owner attempt) (fun r h => forall expected observation,
    r = Ok (expected, observation) ->
    supervisor_identity attempt = Ok expected /\ linux_observed attempt observation h).
Proof.
  unfold spec, observe_linux_process_owner, of_result. apply wp_eff_bind. cbn [wp].
  destruct (supervisor_identity attempt) as [expected | e]; [ | done].
  use_spec systemctl_show_spec. intros [properties | e] h1 Hshow; [ | done]. specialize (Hshow _ eq_refl).
  unfold read_trimmed. apply wp_eff_bind. wp_norm. split; [done | ]. intros [boot_id | e]; [ | done].
  cbn [map_err prog_bind wp].
  apply wp_bind, infallible_wp. eapply spec_wp; [apply recorded_pid_alive_spec | by intros | ].
  intros alive h2 Hpid. cbn beta iota.
  assert (Hid : forall pid, quiet (identity_of pid)) by (intros []; unfold identity_of, process_identity, perform; quiet_auto).
  do 2 (apply wp_bind, infallible_wp; apply quiet_wp; [apply Hid | by intros | ]; intros ? ?; cbn beta iota).
  cbn [wp]. intros ? ? [= <- <-]. split; [done | ]. split; [ | split].
  - exists boot_id. split; [in_history | done].
  - do 4 (apply shown_app; left). apply shown_app; right. by apply Hshow.
  - simpl. intros Ha. do 2 (apply pid_gone_app; left). apply pid_gone_app. right. by apply Hpid.
Qed.

Lemma supervisor_disposition_wp attempt observation expected disposition h :
  supervisor_identity attempt = Ok expected ->
  then_no_result attempt (linux_observed attempt observation) h ->
  classify_supervisor_recovery expected observation (intent_of attempt) = Ok disposition ->
  wp (engine_ok rt) (commit_supervisor_disposition rt attempt observation disposition) h (fun _ _ => True).
Proof.
  intros Hid Hobs Hc. destruct disposition as [ | state | | reason]; cbn [commit_supervisor_disposition].
  - done.
  - apply commit_then_done. eapply Classified; eauto.
  - apply commit_then_done. eapply Classified; eauto.
  - apply wp_eff_bind. eapply wp_mono; [ | apply commit_observed_wp; by apply Held].
    intros [? | ?] h1 _ _; [ | done].
    ev_spec (registry_spec (GetAttempt (att_attempt_id attempt)) I). intros [current | e] h2 _; [ | done].
    apply wp_eff_bind. unfold ask. cbn [wp]. split; [done | ]. intros [ | ]; [ | done].
    apply wp_eff_bind. eapply wp_mono; [ | apply recover_result_commit_ok]. by intros [? | ?].
Qed.

(** ** Windows *)

(** A result that is there is committed, and the program is done. *)
Lemma result_then_done {A} attempt (a : A) h (Q : RuntimeResult A -> history -> Prop) :
  (forall r h', (forall b, r = Ok b -> b = a) -> Q r h') ->
  wp (engine_ok rt) (reconcile_runner_result rt attempt ;; mret a) h Q.
Proof.
  intros HQ. apply wp_eff_bind. eapply wp_mono; [ | apply reconcile_runner_result_wp].
  intros [? | e] h' _ _; apply HQ; [by intros b [= ->] | done].
Qed.

Lemma outer_deadline_spec attempt started_at_ms timeout_ms now :
  spec (outer_deadline_attempt attempt started_at_ms timeout_ms now) (fun r h => forall current,
    r = Ok (Some current) ->
    (exists attempt_id, answered (GetAttempt attempt_id) current h)
    \/ exists attempt_id at_ms, answered (RequestDeadlineTermination attempt_id at_ms) current h).
Proof.
  unfold spec, outer_deadline_attempt. destruct (att_termination_intent attempt); [ | done | ].
  - destruct (native_windows_outer_deadline_due _ _ _); [ | done]. wp_norm. split; [done | ].
    intros [current | e]; [ | done]. intros ? [= <-]. right. eexists _, _. apply (last_event _ []).
  - wp_norm. split; [done | ]. intros [current | e]; [ | done]. intros ? [= <-]. left.
    eexists. apply (last_event _ []).
Qed.

Lemma after_deadline_wp timed_out pre_target_start h :
  wp (engine_ok rt) (after_deadline_termination rt (att_attempt_id timed_out) pre_target_start) h
    (fun r h' => forall current, r = Ok (Some current) ->
       later timed_out h' current /\ exists after, h' = h ++ after /\ no_result current after).
Proof.
  unfold after_deadline_termination.
  ev_spec (registry_spec (GetAttempt (att_attempt_id timed_out)) I). intros [current | e] h1 Hcurrent; [ | done].
  specialize (Hcurrent _ eq_refl).
  apply wp_eff_bind. unfold ask at 1. cbn [wp]. split; [done | ]. intros [ | ].
  { apply result_then_done. intros r h' Hr ? ->. by specialize (Hr _ eq_refl). }
  set (looked := [Event (IsFile (bundle_file current RESULT_FILE)) false] : history).
  apply wp_eff_bind, quiet_wp; [solve [quiet_auto] | apply silent_engine_ok | ].
  intros [started | e] h2; [ | done]. destruct started; cbn [negb wp].
  2:{ cbn [wp mret eff_mret]. intros ? [= <-]. split.
      - apply later_app; left. apply later_app; left. apply (Read _ _ timed_out); [apply Same | ].
        by apply answered_app; right.
      - exists (h1 ++ looked ++ h2). split; [by rewrite <- !app_assoc | ]. right. unfold looked. in_history. }
  apply wp_eff_bind. eapply wp_mono; [ | apply bind_attempt_start_wp].
  intros [bound | e] h' [h3 ->] Hbound; [ | done]. specialize (Hbound _ eq_refl eq_refl).
  apply wp_eff_bind. unfold ask. cbn [wp]. split; [done | ]. intros [ | ].
  { apply result_then_done. intros r h' Hr ? ->. by specialize (Hr _ eq_refl). }
  cbn [wp mret eff_mret]. intros ? [= <-]. split.
  - apply later_app; left. eapply later_trans; [ | exact Hbound].
    do 3 (apply later_app; left). apply (Read _ _ timed_out); [apply Same | ].
    by apply answered_app; right.
  - eexists (h1 ++ looked ++ h2 ++ h3 ++ [_]). split; [by rewrite <- !app_assoc | ]. right. in_history.
Qed.

Lemma enforce_deadline_wp attempt plan started_at_ms process_id creation_time pre_target_start h :
  wp (engine_ok rt) (enforce_native_windows_outer_deadline rt attempt plan started_at_ms process_id
                  creation_time pre_target_start) h (fun _ _ => True).
Proof.
  unfold enforce_native_windows_outer_deadline.
  apply wp_eff_bind. unfold try at 1. cbn [wp]. split; [done | ]. intros [now | e]; [ | done].
  ev_spec outer_deadline_spec. intros [[timed_out | ] | e] h1 Hread; [ | done | done].
  specialize (Hread _ eq_refl). destruct (AttemptState.is_terminal _); [done | ].
  destruct (_ != _) eqn:Hintent; [done | ]. apply negb_false_iff, bool_decide_eq_true in Hintent.
  apply wp_eff_bind. unfold ask. cbn [wp]. split; [done | ].
  intros [ | ]; [by apply result_then_done | ].
  unfold require_windows, of_result, fail_if.
  apply wp_eff_bind. destruct (rt_windows rt); cbn [negb wp]; [ | done].
  apply wp_eff_bind. unfold try. cbn [wp]. split; [done | ]. intros [disposition | e]; [ | done].
  apply wp_eff_bind. eapply wp_mono; [ | apply after_deadline_wp].
  intros [[current | ] | e] h2 _ Hafter; [ | done | done].
  destruct (Hafter _ eq_refl) as (Hreread & after & -> & Hn).
  assert (Hdone : disposition <> WindowsDeadlineOwnerTerminationDisposition.IdentityMismatch ->
    outcome_evidence rt current AttemptState.TimedOut
      ((((h ++ [Event NowMs (Ok now)]) ++ h1) ++ [Event (IsFile (bundle_file timed_out RESULT_FILE)) false])
       ++ [Event (TerminateWindowsLauncherOwner (plan_windows_authority plan)
                    (expected_broker_digest plan) process_id creation_time) (Ok disposition)] ++ after)).
  { intros Hne. eapply (DeadlinePassed _ _ _ _ timed_out); [done | | ].
    - by rewrite app_assoc.
    - eexists _, after. rewrite app_assoc. split; [reflexivity | ]. split; [ | done].
      split; [done | ]. split.
      + destruct Hread as [[id Hr] | (id & at_ms & Hr)]; [left; exists id | right; exists id, at_ms];
          do 2 (apply answered_app; left); by apply answered_app; right.
      + eexists _, _, _, _, disposition. split; [in_history | done]. }
  rewrite <- app_assoc.
  destruct disposition; [ | | done]; apply wp_eff_bind; (eapply wp_mono; [ | by apply commit_control_wp, Hdone]);
    by intros [? | ?].
Qed.

Lemma native_starting_wp attempt h :
  wp (engine_ok rt) (reconcile_native_starting_without_target_evidence rt attempt) h (fun _ _ => True).
Proof.
  unfold reconcile_native_starting_without_target_evidence, require_windows, of_result, fail_if.
  ev_spec (registry_spec (GetExecutionPlan (att_job_id attempt)) I). intros [plan | e] h1 _; [ | done].
  apply wp_eff_bind. unfold ask at 1. cbn [wp]. split; [done | ]. intros [ | ].
  2:{ apply wp_eff_bind. unfold try. cbn [wp]. split; [done | ]. intros [now | e]; [ | done].
      by destruct (_ <? _). }
  ev_quiet. intros [[evidence digest] | e] h2; [ | done].
  apply wp_eff_bind. destruct (rt_windows rt); cbn [negb wp]; [ | done].
  apply wp_eff_bind. unfold try at 1. cbn [wp]. split; [done | ]. intros [observation | e]; [ | done].
  apply wp_eff_bind. unfold ask at 1. cbn [wp]. split; [done | ].
  intros [ | ]; [apply reconcile_runner_result_wp | ].
  apply wp_eff_bind. unfold ask at 1. cbn [wp]. split; [done | ]. intros [ | ].
  - apply wp_eff_bind. eapply wp_mono; [ | apply bind_attempt_start_wp].
    intros [running | e] h' _ _; [ | done]. apply wp_eff_bind. unfold ask at 1. cbn [wp]. split; [done | ].
    by intros [ | ]; [apply reconcile_runner_result_wp | ].
  - destruct (_ && _); [ | done]. apply wp_eff_bind. eapply wp_mono; [ | apply enforce_deadline_wp].
    by intros [? | ?].
Qed.

Lemma starting_without_token_wp attempt target h :
  no_result attempt h ->
  Event (PathExists (bundle_file attempt (start_file target))) false ∈ h ->
  wp (engine_ok rt) (reconcile_starting_without_token rt attempt) h (fun _ _ => True).
Proof.
  intros Hn Hstart. unfold reconcile_starting_without_token.
  ev_spec (registry_spec (GetExecutionPlan (att_job_id attempt)) I). intros [plan | e] h1 _; [ | done].
  destruct (_ && _); [apply native_starting_wp | ].
  ev_spec systemctl_show_spec. intros [properties | e] h2 Hshow; [ | done].
  specialize (Hshow _ eq_refl). apply wp_eff_bind. unfold try. cbn [wp]. split; [done | ].
  intros [now | e]; [ | done]. cbv zeta.
  destruct (_ || _) eqn:Hpending; [done | ]. apply orb_false_iff in Hpending as [Hpending _].
  destruct (unit_is_active properties) eqn:Hactive; [apply commit_then_done; by apply Held | ].
  destruct (_ <? _) eqn:Hyoung; [done | ]. apply Z.ltb_ge in Hyoung.
  apply commit_then_done. eapply (NeverDispatched _ _ _ _ target now); try done.
  - do 3 (apply no_result_app; left). done.
  - in_history.
  - apply shown_app; left. apply shown_app; right. by apply Hshow.
  - in_history.
Qed.

Lemma provider_owned_wp attempt plan owner h :
  answered (GetSupervisorOwner (att_attempt_id attempt)) (Some owner) h ->
  wp (engine_ok rt) (reconcile_provider_owned_attempt rt attempt plan owner) h (fun _ _ => True).
Proof.
  intros Howner. unfold reconcile_provider_owned_attempt, require_windows, of_result, fail_if.
  apply wp_eff_bind. destruct (_ != _); [done | ]. cbn [wp].
  apply wp_eff_bind. unfold ask at 1. cbn [wp]. split; [done | ].
  intros [ | ]; [apply reconcile_runner_result_wp | ].
  apply wp_eff_bind. destruct (rt_windows rt); cbn [negb wp]; [ | done].
  destruct owner as [process_id creation_time image job_name start].
  apply wp_eff_bind. destruct (att_started_at_ms attempt) as [started_at_ms | ]; cbn [ok_or wp]; [ | done].
  apply wp_eff_bind. eapply wp_mono; [ | apply enforce_deadline_wp].
  intros [enforced | e] h1' [h1 ->] _; [ | done]. destruct enforced; [done | ].
  apply wp_eff_bind. unfold try. cbn [wp]. split; [done | ]. intros [observation | e]; [ | done].
  apply wp_eff_bind. unfold ask at 1. cbn [wp]. split; [done | ].
  intros [ | ]; [apply reconcile_runner_result_wp | ]. apply wp_eff_bind. cbn [wp].
  pose proof (windows_classification_sound process_id creation_time image job_name start observation
                (intent_of attempt)) as Hsound. cbv zeta in Hsound.
  destruct (classify_windows_launcher_recovery _ _ _) as [[ | state | | reason] | e]; try done;
    cbn [commit_windows_disposition].
  - destruct Hsound as [Hgone ->]. apply commit_then_done, LauncherGone; [done | ].
    eexists _, [_]. split; [reflexivity | ]. split; [ | left; in_history].
    exists process_id, creation_time, image, job_name, start. eexists _, _, observation.
    split; [do 3 (apply answered_app; left); done | ]. split; [in_history | done].
  - apply commit_then_done. by apply Held.
Qed.

Lemma bound_attempt_wp attempt h :
  wp (engine_ok rt) (reconcile_bound_attempt rt attempt) h (fun _ _ => True).
Proof.
  unfold reconcile_bound_attempt.
  ev_spec (registry_spec (GetExecutionPlan (att_job_id attempt)) I). intros [plan | e] h1 Hplan; [ | done].
  specialize (Hplan _ eq_refl).
  ev_spec (registry_spec (GetSupervisorOwner (att_attempt_id attempt)) I).
  intros [[owner | ] | e] h2 Howner; [ | | done].
  { apply provider_owned_wp. apply answered_app. right. by apply Howner. }
  ev_spec observe_owner_spec. intros [[expected observation] | e] h3 Hobs; [ | done].
  destruct (Hobs _ _ eq_refl) as [Hid Hseen].
  apply wp_eff_bind. unfold ask at 1. cbn [wp]. split; [done | ].
  intros [ | ]; [apply reconcile_runner_result_wp | ].
  assert (Hthen : then_no_result attempt (linux_observed attempt observation)
    ((((h ++ h1) ++ h2) ++ h3) ++ [Event (PathExists (bundle_file attempt RESULT_FILE)) false])).
  { eexists _, [_]. split; [reflexivity | ]. split; [ | left; in_history]. by apply linux_observed_app. }
  destruct (windows_native_launcher_lineage_is_definite_failure _ _ _ _) eqn:Hlineage.
  - unfold windows_native_launcher_lineage_is_definite_failure in Hlineage. bool_props.
    apply commit_then_done. eapply (LineageGone _ _ _ _ plan observation); try done.
    do 3 (apply answered_app; left). by apply answered_app; right.
  - apply wp_eff_bind. cbn [wp]. unfold of_result. cbn [wp].
    destruct (classify_supervisor_recovery _ _ _) as [disposition | e] eqn:Hc; cbn [map_err]; [ | done].
    by eapply supervisor_disposition_wp.
Qed.

Lemma start_evidence_wp attempt target native_unbound_stopping h :
  wp (engine_ok rt) (reconcile_start_evidence rt attempt target native_unbound_stopping) h (fun _ _ => True).
Proof.
  unfold reconcile_start_evidence, catch. apply wp_bind.
  eapply wp_mono; [ | apply bind_attempt_start_wp]. intros [bound | error] h' _ _.
  - apply wp_eff_bind. unfold ask. cbn [wp]. split; [done | ].
    intros [ | ]; [apply reconcile_runner_result_wp | ].
    by destruct native_unbound_stopping; [apply bound_attempt_wp | ].
  - destruct (transient_main_pid_observation_loss error); [ | done]. unfold after_observation_loss.
    apply wp_eff_bind. unfold ask at 1. cbn [wp]. split; [done | ].
    intros [ | ]; [apply reconcile_runner_result_wp | ].
    ev_spec (registry_spec (GetAttempt (att_attempt_id attempt)) I). intros [current | e] h1 _; [ | done].
    destruct (_ || _).
    + apply wp_eff_bind. unfold ask at 1. cbn [wp]. split; [done | ].
      by intros [ | ]; [apply reconcile_runner_result_wp | ].
    + apply wp_eff_bind. unfold try. cbn [wp]. split; [done | ]. intros [now | e]; [ | done].
      by destruct (_ <? _).
Qed.

Lemma reconcile_attempt_wp attempt_id h :
  wp (engine_ok rt) (reconcile_attempt rt attempt_id) h (fun _ _ => True).
Proof.
  unfold reconcile_attempt.
  ev_spec (registry_spec (GetAttempt attempt_id) I). intros [attempt | e] h1 _; [ | done].
  destruct (AttemptState.is_terminal _); [done | ].
  apply wp_eff_bind. unfold ask at 1. cbn [wp]. split; [done | ].
  intros [ | ]; [apply reconcile_runner_result_wp | ].
  ev_spec (registry_spec (GetExecutionPlan (att_job_id attempt)) I). intros [plan | e] h2 _; [ | done].
  ev_quiet. intros [native | e] h3; [ | done]. cbv zeta.
  apply wp_eff_bind. destruct (_ || _); cbn [wp].
  2:{ cbn [wp mret eff_mret]. apply bound_attempt_wp. }
  unfold ask. cbn [wp]. split; [done | ]. intros [ | ]; [apply start_evidence_wp | ].
  apply (starting_without_token_wp attempt (plan_execution_target plan)).
  - do 3 (apply no_result_app; left). apply no_result_app. right. left. apply (last_event _ []).
  - in_history.
Qed.
End reconciliation.

(** ** Dispatch rests on what was verified

    Every program of [Dispatching] satisfies [engine_ok]: a dispatch is recorded
    only after what was committed was found again, and a process is started only
    by the caller that recorded it, once. *)

#[local] Open Scope Z_scope.

Section dispatching.
Context `{P : Platform, C : EngineCodec}.
Context (rt : Runtime).

(** ** Nothing starts in between *)

Lemma silent_no_start {A} (p : prog A) (Q : A -> history -> Prop) : forall h,
  wp silent p h Q ->
  wp silent p h (fun a h' => Q a h' /\ exists seg, h' = h ++ seg /\ no_start seg).
Proof.
  induction p as [a | R c k IH]; intros h; cbn [wp].
  - intros HQ. split; [done | ]. exists []. rewrite app_nil_r. by split; [ | constructor].
  - intros [Hc Hk]. split; [done | ]. intros r. eapply wp_mono; [ | by apply IH].
    intros a h' _ [HQ (seg & -> & Hn)]. split; [done | ]. exists (Event c r :: seg).
    rewrite <- app_assoc. split; [done | ]. constructor; [ | done]. by destruct c.
Qed.

Lemma spec_no_start {A} (p : prog A) Q : spec p Q -> spec p (fun a h => Q a h /\ no_start h).
Proof.
  intros H. eapply wp_mono; [ | by apply silent_no_start]. intros a h' _ [HQ (seg & -> & Hn)]. by split.
Qed.

Lemma just_issued_app starting h1 h2 :
  just_issued starting h1 -> no_start h2 -> just_issued starting (h1 ++ h2).
Proof.
  intros (before & id & version & at_ms & after & -> & Hn) H2.
  exists before, id, version, at_ms, (after ++ h2). rewrite <- app_assoc. split; [done | ].
  by apply Forall_app.
Qed.

(** ** Waiting for the process *)

Lemma observe_then_done attempt h (Q : RuntimeResult unit -> history -> Prop) :
  (forall r h', Q r h') -> wp (engine_ok rt) (reconcile_runner_result rt attempt) h Q.
Proof. intros HQ. eapply wp_mono; [ | apply reconcile_runner_result_wp]. auto. Qed.

(** A result that has appeared is committed, and otherwise the program goes on. *)
Lemma result_or {A} path (p q : eff A) h Q :
  (forall h', wp (engine_ok rt) p h' Q) -> (forall h', wp (engine_ok rt) q h' Q) ->
  wp (engine_ok rt) (result ← ask (PathExists path); if result : bool then p else q) h Q.
Proof. intros Hp Hq. ev_call. intros [ | ]; [apply Hp | apply Hq]. Qed.

Lemma await_loop_wp attempt target polls : forall h,
  wp (engine_ok rt) (await_loop rt attempt target polls) h (fun _ _ => True).
Proof.
  induction polls as [ | polls IH]; intros h; cbn [await_loop].
  all: apply result_or; [intros; apply reconcile_runner_result_wp | intros h1].
  all: ev_call; intros [ | ]; cbn [negb]; [ | first [apply IH | apply reconcile_attempt_wp]].
  all: unfold catch; apply wp_bind; eapply wp_mono; [ | apply bind_attempt_start_wp].
  all: intros [bound | error] h2 _ _; [done | ].
  all: destruct (transient_main_pid_observation_loss error); [ | destruct (_ == _); [ | done]].
  all: apply result_or; [intros; apply reconcile_runner_result_wp | intros h3; try done].
  all: ev_spec (registry_spec (GetAttempt (att_attempt_id attempt)) I); intros [current | e] h4 _; [ | done].
  all: destruct (_ || _); [ | first [apply IH | done]].
  all: apply result_or; [intros; apply reconcile_runner_result_wp | done].
Qed.

Lemma await_wp attempt h :
  wp (engine_ok rt) (await_launch_evidence rt attempt) h (fun _ _ => True).
Proof.
  unfold await_launch_evidence. do 3 (ev_quiet; intros [? | ?] ?; [ | done]). apply await_loop_wp.
Qed.

(** ** The start *)

Lemma start_failed_wp starting detail h :
  start_refused starting h -> wp (engine_ok rt) (start_failed rt starting detail) h (fun _ _ => True).
Proof. intros H. unfold start_failed. apply commit_then_done. by apply StartRefused. Qed.

Lemma linux_run_spec_spec starting plan bundle_path :
  spec (linux_run_spec rt starting plan bundle_path) (fun r _ => forall run, r = Ok run ->
    srs_unit_name run = att_unit_name starting
    /\ srs_workspace_path run = plan_workspace_path plan
    /\ srs_execution_profile run = plan_execution_profile plan
    /\ srs_environment run = plan_env plan /\ srs_budget run = plan_budget plan).
Proof.
  unfold spec, linux_run_spec. apply wp_eff_bind. unfold of_result at 1. cbn [wp].
  destruct (rt_runner_path rt) as [path | ]; cbn [ok_or]; [ | done].
  do 2 (use_quiet; intros [? | ?] ?; [ | done]).
  use_quiet. intros [[root names] | e] ?; [ | done]. by intros ? [= <-].
Qed.

Lemma start_linux_wp starting plan bundle_path h :
  just_issued starting h -> answered (GetExecutionPlan (att_job_id starting)) plan h ->
  wp (engine_ok rt) (start_linux rt starting plan bundle_path) h (fun _ _ => True).
Proof.
  intros Hissued Hplan. unfold start_linux, systemd_run.
  ev_spec (spec_no_start _ _ (linux_run_spec_spec starting plan bundle_path)).
  intros [run | e] h1 [Hrun Hn1]; [ | done]. destruct (Hrun _ eq_refl) as (Hunit & Hworkspace & Hprofile & Henv & Hbudget).
  apply wp_eff_bind, wp_eff_bind.
  eapply spec_wp; [apply (spec_no_start _ (fun _ _ => True)) | apply silent_engine_ok | ].
  { match goal with |- spec ?p _ => change (quiet p) end. quiet_auto. }
  intros [variables | e] h2 [_ Hn2]; [ | done].
  apply wp_eff_bind. unfold of_result at 1. cbn [wp].
  destruct (build_systemd_run_command run variables) as [arguments | e] eqn:Hbuild; [ | done].
  unfold try_map at 1. cbn [wp]. split.
  - exists starting. split; [done | ]. split; [by do 2 (apply just_issued_app; [ | done]) | ].
    exists plan, run, variables. split_and!; try done. by do 2 (apply answered_app; left).
  - intros [output | e]; cbn [map_err]; [ | done].
    destruct (out_success output) eqn:Hsuccess; cbn [negb]; [apply await_wp | ].
    apply start_failed_wp. left. exists arguments, output. rewrite <- Hunit. split; [in_history | done].
Qed.

Lemma windows_run_spec_spec starting plan bundle_path :
  spec (windows_run_spec rt starting plan bundle_path) (fun r _ => forall run, r = Ok run ->
    wns_attempt_id run = att_attempt_id starting
    /\ wns_executable run = plan_executable plan /\ wns_authority run = plan_windows_authority plan).
Proof.
  unfold spec, windows_run_spec. apply wp_eff_bind. unfold of_result at 1. cbn [wp].
  destruct (committed_windows rt) as [windows | e]; [ | done].
  do 3 (use_quiet; intros [? | ?] ?; [ | done]). by intros ? [= <-].
Qed.

Lemma start_windows_wp starting plan bundle_path h :
  just_issued starting h -> answered (GetExecutionPlan (att_job_id starting)) plan h ->
  wp (engine_ok rt) (start_windows rt starting plan bundle_path) h (fun _ _ => True).
Proof.
  intros Hissued Hplan. unfold start_windows.
  ev_spec (spec_no_start _ _ (windows_run_spec_spec starting plan bundle_path)).
  intros [run | e] h1 [Hrun Hn1]; [ | done]. destruct (Hrun _ eq_refl) as (Hid & Hexecutable & Hauthority).
  unfold catch. apply wp_bind. unfold try at 1. cbn [wp]. split.
  - exists starting. split; [by apply just_issued_app | ]. split; [done | ].
    exists plan. split_and!; try done. by apply answered_app; left.
  - intros [dispatch | error].
    + apply wp_eff_bind. eapply wp_mono; [ | apply bind_dispatch_owner_wp].
      intros [bound | e] h2 _ _; [apply await_wp | done].
    + apply start_failed_wp. right. exists run, error. split; [done | in_history].
Qed.

Lemma dispatch_attempt_wp first attempt h :
  verified rt (att_job_id first) h -> later first h attempt ->
  wp (engine_ok rt) (dispatch_attempt rt attempt) h (fun _ _ => True).
Proof.
  intros Hverified Hlater. unfold dispatch_attempt. ev_call. intros [now | e]; [ | done].
  apply wp_eff_bind. unfold registry at 1, try at 1. cbn [wp]. split.
  { exists first, attempt. split; [apply later_app; by left | ]. split; [done | by apply verified_app]. }
  intros [starting | e]; [ | done].
  ev_spec (spec_no_start _ _ (registry_spec (GetExecutionPlan (att_job_id starting)) I)).
  intros [plan | e] h1 [Hplan Hn1]; [ | done]. specialize (Hplan _ eq_refl).
  apply wp_eff_bind. unfold try_map at 1. cbn [wp]. split; [done | ].
  intros [bundle_path | e]; cbn [map_err]; [ | done].
  assert (Hissued : forall h', just_issued starting (h' ++ [Event (Registry (MarkDispatchIssued
    (att_attempt_id attempt) (att_row_version attempt) now)) (Ok starting)])).
  { intros h'. exists h', (att_attempt_id attempt), (att_row_version attempt), now, []. by split; [ | constructor]. }
  destruct (plan_execution_target plan); [apply start_linux_wp | apply start_windows_wp].
  all: first [apply answered_app; left; by apply answered_app; right
             | apply just_issued_app; [apply just_issued_app; [apply Hissued | exact Hn1] | by repeat constructor]].
Qed.

(** ** [ensure_attempt_dispatched] *)

Lemma check_wp {A} (check : eff A) h (K : RuntimeResult A -> history -> Prop) :
  quiet check -> (forall r h', ran check r (h ++ h') -> K r (h ++ h')) -> wp (engine_ok rt) check h K.
Proof.
  intros Hq HK.
  eapply wp_mono; [ | apply (wp_follows _ _ (fun _ _ => True)), quiet_wp; [exact Hq | apply silent_engine_ok | done]].
  intros r h' _ [_ (seg & -> & Hf)]. apply HK. exists h, seg, []. by rewrite app_nil_r.
Qed.

Lemma or_drift_wp check drifts reason attempt go_on h :
  quiet check ->
  (forall h' error, ran check (Err error) (h ++ h') -> drifts (err_code error) = true ->
     drifted rt (att_job_id attempt) (h ++ h')) ->
  (forall h', ran check (Ok tt) (h ++ h') -> wp (engine_ok rt) go_on (h ++ h') (fun _ _ => True)) ->
  wp (engine_ok rt) (or_drift rt check drifts reason attempt go_on) h (fun _ _ => True).
Proof.
  intros Hq Hdrift Hok. unfold or_drift, catch. apply wp_bind. apply check_wp; [done | ].
  intros [[] | error] h' Hran; [by apply Hok | ]. destruct (drifts (err_code error)) eqn:Hd; [ | done].
  apply commit_then_done. apply PreconditionDrifted; [done | by apply (Hdrift h' error)].
Qed.

Lemma materialize_or_follow_wp attempt h :
  wp (engine_ok rt) (materialize_or_follow rt attempt) h (fun r h' => forall current, r = Ok current ->
    later attempt h' current).
Proof.
  unfold materialize_or_follow, catch. apply wp_bind.
  eapply wp_mono; [ | apply materialize_bundle_wp]. intros [current | error] h' _ Hlater; [exact Hlater | ].
  destruct (err_code error == AttemptStateConflict); [ | done].
  ev_spec (registry_spec (GetAttempt (att_attempt_id attempt)) I). intros [current | e] h1 Hread; [ | done].
  assert (Hcurrent : later attempt (h' ++ h1) current).
  { eapply Read; [apply Same | ]. apply answered_app. right. by apply Hread. }
  destruct (_ && _).
  - eapply wp_mono; [ | apply materialize_bundle_wp]. intros r h2 [h3 ->] Hnext found ->.
    eapply later_trans; [ | by apply Hnext]. by apply later_app; left.
  - by cbn [wp mret eff_mret]; intros ? [= <-].
Qed.

Lemma dispatch_or_reconcile_wp first attempt h :
  verified rt (att_job_id first) h -> later first h attempt ->
  wp (engine_ok rt) (dispatch_or_reconcile rt attempt) h (fun _ _ => True).
Proof.
  intros Hverified Hlater. unfold dispatch_or_reconcile. destruct (_ == _).
  - unfold catch. apply wp_bind. eapply wp_mono; [ | by apply (dispatch_attempt_wp first)].
    intros [[] | error] h' _ _; [done | ]. destruct (_ == _); [ | done].
    ev_spec (registry_spec (GetAttempt (att_attempt_id attempt)) I). intros [current | e] h1 _; [ | done].
    destruct (in_flight _); [apply reconcile_attempt_wp | by destruct (AttemptState.is_terminal _)].
  - destruct (in_flight _); [apply reconcile_attempt_wp | done].
Qed.

Lemma ensure_dispatched_wp attempt h :
  wp (engine_ok rt) (ensure_attempt_dispatched rt attempt) h (fun _ _ => True).
Proof.
  unfold ensure_attempt_dispatched.
  apply or_drift_wp; [solve [quiet_auto] | intros h' error ? ?; exists error; by left | intros h1 Hprovider].
  apply or_drift_wp; [solve [quiet_auto] | intros h' error ? ?; exists error; right; by left | intros h2 Hdeps].
  apply or_drift_wp; [solve [quiet_auto] | intros h' error ? ?; exists error; by do 2 right | intros h3 Hinputs].
  assert (Hverified : forall h', verified rt (att_job_id attempt) ((((h ++ h1) ++ h2) ++ h3) ++ h')).
  { intros h'. split_and!; apply ran_app; left; [do 2 (apply ran_app; left) | apply ran_app; left | ]; done. }
  apply wp_eff_bind. destruct (present (att_bundle_digest attempt)).
  - cbn [wp mret eff_mret]. specialize (Hverified []). rewrite app_nil_r in Hverified.
    apply (dispatch_or_reconcile_wp attempt); [done | apply Same].
  - eapply wp_mono; [ | apply materialize_or_follow_wp].
    intros [current | e] h' [h4 ->] Hlater; [ | done].
    apply (dispatch_or_reconcile_wp attempt); [done | by apply Hlater].
Qed.

Lemma newly_admitted_wp job_id h :
  wp (engine_ok rt) (ensure_newly_admitted_job_dispatched rt job_id) h (fun _ _ => True).
Proof.
  unfold ensure_newly_admitted_job_dispatched. ev_quiet. intros [latest | e] h1; [ | done].
  apply wp_eff_bind. unfold of_result at 1. cbn [wp]. destruct latest as [attempt | ]; cbn [ok_or]; [ | done].
  destruct (_ == _); [ | done]. unfold catch. apply wp_bind.
  eapply wp_mono; [ | apply ensure_dispatched_wp]. done.
Qed.
End dispatching.
