(* ===== verification/PlanSpec.v ===== *)
(** * What a plan rests on

    The answers behind a plan that [resolve_plan] returns, behind the Host
    Dependencies that [validate_host_dependencies] accepts, and behind the inputs
    and credentials that were prepared: the facts of [admission_observed]. *)

From S2P Require Import Prelude Text Errors Types Supervisor Platform Validation Submit Store.
From S2P Require Import Transaction Projection Lifecycle Admission Recovery Registry Query.
From S2P Require Import Effects Utf8 Engine Linux Launch Inputs Binding Evidence Workspace Bundle.
From S2P Require Import Dispatching Materials Requests Planning Silence Observed Justified.

#[local] Open Scope Z_scope.

(** ** Facts that stay true as a history grows *)

Class Grows (fact : history -> Prop) : Prop := grows : forall h1 h h2, fact h -> fact (h1 ++ h ++ h2).

#[export] Instance grows_const (p : Prop) : Grows (fun _ => p).
Proof. by intros h1 h h2. Qed.
#[export] Instance grows_event e : Grows (fun h => e ∈ h).
Proof. intros h1 h h2 H. apply elem_of_app. right. apply elem_of_app. by left. Qed.
#[export] Instance grows_elem e : Grows (elem_of e).
Proof. apply grows_event. Qed.
#[export] Instance grows_and f g `{Grows f, Grows g} : Grows (fun h => f h /\ g h).
Proof. intros h1 h h2 [Hf Hg]. split; by apply grows. Qed.
#[export] Instance grows_or f g `{Grows f, Grows g} : Grows (fun h => f h \/ g h).
Proof. intros h1 h h2 [Hf | Hg]; [left | right]; by apply grows. Qed.
#[export] Instance grows_ex {A} (f : A -> history -> Prop) `{forall a, Grows (f a)} :
  Grows (fun h => exists a, f a h).
Proof. intros h1 h h2 [a Hf]. exists a. by apply (grows h1 h h2). Qed.
#[export] Instance grows_all {A} (f : A -> history -> Prop) `{forall a, Grows (f a)} :
  Grows (fun h => forall a, f a h).
Proof. intros h1 h h2 Hf a. apply (grows h1 h h2), Hf. Qed.
#[export] Instance grows_impl (p : Prop) (f : history -> Prop) `{Grows f} : Grows (fun h => p -> f h).
Proof. intros h1 h h2 Hf Hp. by apply grows, Hf. Qed.
#[export] Instance grows_forall {A} (f : A -> history -> Prop) l `{forall a, Grows (f a)} :
  Grows (fun h => Forall (fun a => f a h) l).
Proof. intros h1 h h2 Hf. eapply Forall_impl; [exact Hf | ]. intros a Ha. by apply (grows h1 h h2). Qed.
#[export] Instance grows_answered {R} (op : registry_op R) a : Grows (answered op a).
Proof. apply grows_event. Qed.
#[export] Instance grows_ran {A} (p : prog A) r : Grows (ran p r).
Proof. intros h1 h h2 H. apply ran_app. right. apply ran_app. by left. Qed.

Lemma grows_left fact `{Grows fact} h1 h2 : fact h1 -> fact (h1 ++ h2).
Proof. intros Hf. apply (grows [] h1 h2 Hf). Qed.
Lemma grows_right fact `{Grows fact} h1 h2 : fact h2 -> fact (h1 ++ h2).
Proof. intros Hf. rewrite <- (app_nil_r h2). by apply grows. Qed.

(** A fact of some earlier part of the history. *)
Ltac stays :=
  solve [assumption
        | match goal with |- ?fact (?h1 ++ ?h2) => apply (grows_left fact h1 h2); stays end
        | match goal with |- ?fact (?h1 ++ ?h2) => apply (grows_right fact h1 h2); stays end].

(** ** Programs that return a value with a fact *)

(** [p] makes silent calls only, and a value that it returns satisfies [Q]. *)
Definition ensures {E A} (p : prog (result E A)) (Q : A -> history -> Prop) : Prop :=
  spec p (fun r h => forall a, r = Ok a -> Q a h).

Lemma ensures_mono {E A} (p : prog (result E A)) (Q1 Q2 : A -> history -> Prop) :
  ensures p Q1 -> (forall a h, Q1 a h -> Q2 a h) -> ensures p Q2.
Proof. intros H HQ. eapply spec_mono; [exact H | ]. intros r h Hr a Ha. by apply HQ, Hr. Qed.

Lemma ensures_quiet {E A} (p : prog (result E A)) : quiet p -> ensures p (fun _ _ => True).
Proof. intros H. eapply spec_mono; [exact H | done]. Qed.

(** The [?] of a value, of a call, and of a program. *)
Lemma ensures_ret {E A} (a : A) (Q : A -> history -> Prop) :
  Q a [] -> ensures (Ret (Ok a) : prog (result E A)) Q.
Proof. intros H r [= <-]. exact H. Qed.

Lemma ensures_bind {A B} (p : eff A) (f : A -> eff B) (Q1 : A -> history -> Prop)
    (Q : B -> history -> Prop) :
  ensures p Q1 ->
  (forall a h1, Q1 a h1 -> ensures (f a) (fun b h2 => Q b (h1 ++ h2))) ->
  ensures (p ≫= f) Q.
Proof.
  intros Hp Hf. unfold ensures, spec. apply wp_eff_bind. eapply spec_wp; [exact Hp | by intros | ].
  intros [a | e] h1 Hq; [ | by intros]. simpl. eapply spec_wp; [apply Hf, Hq; done | by intros | ].
  intros r h2 Hr b Hb. by apply Hr.
Qed.

Lemma ensures_ubind {A B} (p : ueff A) (f : A -> ueff B) (Q1 : A -> history -> Prop)
    (Q : B -> history -> Prop) :
  ensures p Q1 ->
  (forall a h1, Q1 a h1 -> ensures (f a) (fun b h2 => Q b (h1 ++ h2))) ->
  ensures (p ≫= f) Q.
Proof.
  intros Hp Hf. unfold ensures, spec. apply wp_bind. eapply spec_wp; [exact Hp | by intros | ].
  intros [a | e] h1 Hq; [ | by intros]. simpl. eapply spec_wp; [apply Hf, Hq; done | by intros | ].
  intros r h2 Hr b Hb. by apply Hr.
Qed.

Lemma ensures_value {A E} (r : result E A) : ensures (Ret r) (fun a _ => r = Ok a).
Proof. intros a Ha. exact Ha. Qed.

Lemma ensures_guard {E} (b : bool) (e : E) : ensures (Ret (fail_if b e)) (fun _ _ => b = false).
Proof. intros a. destruct b; [discriminate | done]. Qed.

Lemma ensures_call {E R A} (c : call (result E R)) (f : E -> A) : silent _ c [] ->
  ensures (Vis c (fun r => Ret (map_err f r))) (fun a h => Event c (Ok a) ∈ h).
Proof.
  intros Hc. split; [exact Hc | ]. intros [a | e]; cbn [map_err wp]; [ | by intros].
  intros b [= <-]. apply event_here.
Qed.

Lemma ensures_try {R} (c : call (RuntimeResult R)) : silent _ c [] ->
  ensures (try c) (fun a h => Event c (Ok a) ∈ h).
Proof. intros Hc. split; [exact Hc | ]. intros r a ->. apply event_here. Qed.

Lemma ensures_ask {E R} (c : call R) : silent _ c [] ->
  ensures (Vis c (fun r => Ret (Ok r)) : prog (result E R)) (fun a h => Event c a ∈ h).
Proof. intros Hc. split; [exact Hc | ]. intros r a [= <-]. apply event_here. Qed.

Lemma ensures_with_error {A} f (p : ueff A) Q : ensures p Q -> ensures (with_error f p) Q.
Proof.
  intros H. unfold ensures, spec, with_error. apply wp_bind. eapply wp_mono; [ | exact H].
  intros [a | e] h _ Hr b Hb; [injection Hb as <-; by apply Hr | discriminate Hb].
Qed.

(** Where the returned value comes from is a run of the program. *)
Lemma ensures_ran {E A} (p : prog (result E A)) Q :
  ensures p Q -> ensures p (fun a h => Q a h /\ ran p (Ok a) h).
Proof.
  intros H. unfold ensures, spec. eapply wp_mono; [ | exact (wp_follows _ _ _ _ H)].
  intros r h _ [Hr (seg & -> & Hf)] a ->. split; [by apply Hr | ].
  exists [], seg, []. by rewrite app_nil_r.
Qed.

(** The head of a program. *)
Ltac en_bind H := first [eapply ensures_bind | eapply ensures_ubind]; [apply H | ].
Ltac en_value := en_bind ensures_value.
Ltac en_guard := first [eapply ensures_bind | eapply ensures_ubind]; [apply ensures_guard | ].
Ltac en_call := first [eapply ensures_bind | eapply ensures_ubind];
  [first [apply ensures_call; exact I | apply ensures_try; exact I | apply ensures_ask; exact I] | ].
Ltac en_quiet := first [eapply ensures_bind | eapply ensures_ubind];
  [apply ensures_quiet; solve [quiet_auto] | ].

Section specs.
Context `{P : Platform, C : EngineCodec, WC : WorkspaceCodec}.
Context (rt : Runtime).

(** ** Paths *)

Lemma canonical_directory_spec path field :
  ensures (canonical_directory path field)
    (fun canonical h => Event (Canonicalize path) (Ok canonical) ∈ h /\ Event (IsDir canonical) true ∈ h).
Proof.
  unfold canonical_directory. en_call. intros canonical h1 Hc. en_call. intros is_dir h2 Hd.
  en_guard. intros ? h3 Hg. apply ensures_ret. destruct is_dir; [ | discriminate Hg]. split.
  all: stays.
Qed.

Lemma load_record_spec workspace_id :
  ensures (load_workspace_record (rt_executor rt) workspace_id) (fun record h =>
    Event (Canonicalize (workspace_path (rt_executor rt) workspace_id)) (Ok (wr_workspace_path record)) ∈ h).
Proof.
  unfold load_workspace_record. en_quiet. intros record h1 _.
  en_bind canonical_directory_spec. intros expected h2 [Hc _]. apply ensures_ret. cbn. stays.
Qed.

#[local] Instance grows_cwd workspace cwd : Grows (cwd_confined workspace cwd).
Proof. unfold cwd_confined. apply _. Qed.

Lemma existing_path_spec record relative :
  ensures (resolve_existing_workspace_path record relative true) (fun path h =>
    exists root candidate, Event (Canonicalize (wr_workspace_path record)) (Ok root) ∈ h
      /\ Event (Canonicalize candidate) (Ok path) ∈ h /\ path_starts_with path root = true).
Proof.
  unfold resolve_existing_workspace_path. en_value. intros relative' h0 _.
  en_bind canonical_directory_spec. intros root h1 [Hroot _]. cbv zeta.
  en_call. intros kind h2 _. en_guard. intros ? h3 _. en_call. intros canonical h4 Hcanonical.
  en_quiet. intros is_dir h5 _. en_guard. intros ? h6 Hinside.
  apply ensures_ret. exists root, (path_join root relative').
  apply orb_false_iff in Hinside as [Hinside%negb_false_iff _]. split_and!; [stays | stays | exact Hinside].
Qed.

Lemma set_error_spec {A} f (p : ueff A) Q :
  ensures p Q -> ensures (prog_bind (fun r => Ret (map_err f r)) p : ueff A) Q.
Proof.
  intros H. apply wp_bind. eapply wp_mono; [ | exact H].
  intros [a | e] h _ Hr b Hb; [injection Hb as <-; by apply Hr | discriminate Hb].
Qed.

Lemma workspace_cwd_spec record relative field :
  ensures (resolve_workspace_cwd record relative field) (cwd_confined (wr_workspace_path record)).
Proof.
  unfold resolve_workspace_cwd. eapply ensures_ubind; [apply set_error_spec, existing_path_spec | ].
  intros path h1 (root & candidate & Hroot & Hpath & Hinside). en_call. intros is_dir h2 Hdir.
  en_guard. intros ? h3 Hg. apply ensures_ret. destruct is_dir; [ | discriminate Hg].
  exists root, candidate. split_and!; [stays | stays | exact Hinside | stays].
Qed.

(** ** Executables *)

#[local] Instance grows_below path : Grows (below_executable_root rt path).
Proof. unfold below_executable_root. apply _. Qed.
#[local] Instance grows_confined executable : Grows (executable_confined rt executable).
Proof. unfold executable_confined. apply _. Qed.
#[local] Instance grows_planned_executable executable digest :
  Grows (executable_planned rt executable digest).
Proof. unfold executable_planned. apply _. Qed.

Lemma collect_spec {A B} (f : A -> eff B) (fact : A -> B -> history -> Prop) l
    `{forall a b, Grows (fact a b)} :
  (forall a, ensures (f a) (fact a)) ->
  ensures (collect f l) (fun bs h => Forall (fun b => exists a, a ∈ l /\ fact a b h) bs).
Proof.
  intros Hf. unfold collect.
  assert (Hloop : forall rest acc h0, (forall a, a ∈ rest -> a ∈ l) ->
    Forall (fun b => exists a, a ∈ l /\ fact a b h0) acc ->
    ensures (fold_eff (fun acc x => y ← f x; mret (acc ++ [y])) acc rest)
      (fun bs h => Forall (fun b => exists a, a ∈ l /\ fact a b (h0 ++ h)) bs)).
  { induction rest as [ | x rest IH]; intros acc h0 Hin Hacc; cbn [fold_eff].
    - apply ensures_ret. by rewrite app_nil_r.
    - eapply ensures_bind; [eapply ensures_bind; [apply Hf | ] | ].
      + intros y h1 Hy. apply ensures_ret.
        instantiate (1 := fun bs h1 => Forall (fun b => exists a, a ∈ l /\ fact a b (h0 ++ h1)) bs).
        rewrite app_nil_r. apply Forall_app. split.
        * eapply Forall_impl; [exact Hacc | ]. intros b (a & Ha & Hb). exists a. split; [done | stays].
        * constructor; [ | done]. exists x. split; [apply Hin; left | stays].
      + intros acc' h1 Hacc'. eapply ensures_mono; [apply (IH acc' (h0 ++ h1)) | ].
        * intros a Ha. apply Hin. by right.
        * exact Hacc'.
        * intros bs h2; cbv beta; by rewrite <- app_assoc. }
  eapply ensures_mono; [apply (Hloop l [] []); done | ]. by intros bs h.
Qed.

Lemma roots_below path roots h :
  Forall (fun canonical => exists root, root ∈ uec_allowed_executable_roots (rt_executor rt)
            /\ Event (Canonicalize root) (Ok canonical) ∈ h) roots ->
  existsb (path_starts_with path) roots = true -> below_executable_root rt path h.
Proof.
  intros Hroots (canonical & Hin & Hpath)%existsb_exists.
  rewrite Forall_forall in Hroots. destruct (Hroots canonical) as (root & Hroot & He).
  { by apply list_elem_of_In. }
  exists root, canonical. done.
Qed.

Lemma executable_spec value field :
  ensures (validate_executable (rt_executor rt) value field)
    (fun executable h => executable = value /\ executable_confined rt value h).
Proof.
  unfold validate_executable. en_guard. intros ? h1 Habs%negb_false_iff.
  en_call. intros canonical h2 Hcanonical. en_call. intros metadata h3 Hmetadata.
  en_guard. intros ? h4 Hexecutable%negb_false_iff.
  eapply ensures_bind.
  { apply (collect_spec _ (fun root canonical h => Event (Canonicalize root) (Ok canonical) ∈ h)).
    - intros root b. apply _.
    - intros root. exact (ensures_call (Canonicalize root) _ I). }
  intros roots h5 Hroots. en_value. intros parent h6 Hparent.
  en_call. intros canonical_parent h7 Hcanonical_parent. en_guard.
  intros ? h8 Hconfined%negb_false_iff. apply ensures_ret. split; [done | ].
  apply andb_true_iff in Hconfined as [Hbelow1 Hbelow2].
  unfold is_executable_file in Hexecutable. apply andb_true_iff in Hexecutable as [Hreg Hmode].
  apply (roots_below _ _ h5 Hroots) in Hbelow1, Hbelow2.
  destruct (path_parent value) as [p | ] eqn:Hp; cbn [ok_or] in Hparent; [ | discriminate Hparent].
  injection Hparent as ->.
  exists canonical, parent, canonical_parent. split_and!; try done; try stays.
  exists metadata. split_and!; [stays | done | ]. apply negb_true_iff, Z.eqb_neq in Hmode. done.
Qed.

(** ** Host Dependencies *)

#[local] Instance grows_dependency binding : Grows (dependency_observed binding).
Proof. unfold dependency_observed. apply _. Qed.

Lemma dependency_spec index binding :
  ensures (observe_host_dependency index binding) (fun _ h => dependency_observed binding h).
Proof.
  unfold observe_host_dependency. cbv zeta. en_call. intros kind h1 Hkind.
  en_guard. intros ? h2 Hregular%negb_false_iff. en_call. intros observed h3 Hobserved.
  eapply ensures_mono; [apply ensures_guard | ]. intros ? h4 Heq%negb_false_iff%String.eqb_eq.
  subst observed. split; [exists kind; split; [stays | done] | stays].
Qed.

Lemma dependencies_loop_spec bindings : forall previous index,
  ensures (observe_host_dependencies previous index bindings)
    (fun _ h => Forall (fun binding => dependency_observed binding h) bindings).
Proof.
  induction bindings as [ | binding bindings IH]; intros previous index; cbn [observe_host_dependencies].
  - by apply ensures_ret.
  - en_value. intros ? h1 _. en_bind dependency_spec. intros ? h2 Hb.
    eapply ensures_mono; [apply IH | ]. intros ? h3 Hrest. constructor; [stays | ].
    eapply Forall_impl; [exact Hrest | ]. intros b Hfact. cbv beta in *. stays.
Qed.

Lemma host_dependencies_spec request :
  ensures (validate_host_dependencies request)
    (fun bindings h => Forall (fun binding => dependency_observed binding h) bindings).
Proof.
  unfold validate_host_dependencies. cbv zeta. destruct (uer_host_dependencies _) as [ | d ds].
  - by apply ensures_ret.
  - en_guard. intros ? h1 _. en_bind dependencies_loop_spec. intros ? h2 Hall.
    apply ensures_ret. eapply Forall_impl; [exact Hall | ]. intros b Hfact. cbv beta in *. stays.
Qed.

(** ** What a dispatch compares *)

(** A run of a program that ensures a lasting fact established it. *)
Lemma ensures_holds {E A} (p : prog (result E A)) Q a h `{Grows (Q a)} :
  ensures p Q -> ran p (Ok a) h -> Q a h.
Proof.
  intros Hp (before & run & after & -> & Hf). apply (grows before run after).
  exact (spec_follows _ _ _ _ Hp Hf a eq_refl).
Qed.

#[export] Instance grows_image path committed : Grows (image_at path committed).
Proof. unfold image_at. apply _. Qed.
#[export] Instance grows_provider target committed : Grows (provider_observed rt target committed).
Proof. unfold provider_observed. destruct target; apply _. Qed.
#[export] Instance grows_iff (p : Prop) : Grows (fun _ => p).
Proof. apply _. Qed.
#[export] Instance grows_files root files : Grows (files_measured root files).
Proof. unfold files_measured. apply _. Qed.

Lemma current_provider_spec target :
  ensures (current_execution_provider_snapshot rt target) (provider_observed rt target).
Proof.
  unfold current_execution_provider_snapshot. destruct target.
  - en_guard. intros ? h1 _. en_value. intros path h2 Hpath.
    eapply ensures_bind.
    { unfold validate_runner. en_call. intros ? g1 _. en_guard. intros ? g2 _.
      eapply ensures_mono; [exact (ensures_call (Canonicalize path) _ I) | ].
      intros canonical g3 Hc. instantiate (1 := fun c h => Event (Canonicalize path) (Ok c) ∈ h).
      cbv beta in *. stays. }
    intros canonical h3 Hcanonical. en_call. intros digest h4 Hdigest. apply ensures_ret.
    split; [done | ]. split; [done | ]. exists path.
    destruct (rt_runner_path rt); cbn in Hpath; [injection Hpath as -> | discriminate Hpath].
    split; [done | ]. exists canonical. cbn. split; stays.
  - en_value. intros windows h1 Hwindows. en_quiet. intros ? h2 _.
    en_call. intros canonical h3 Hcanonical. en_call. intros digest h4 Hdigest. apply ensures_ret.
    split; [done | ]. split; [done | ]. exists windows.
    destruct (rt_windows_config rt); cbn in Hwindows; [injection Hwindows as -> | discriminate Hwindows].
    split; [done | ]. exists canonical. cbn. split; stays.
Qed.

Lemma committed_image_spec job_id :
  ensures (verify_committed_execution_provider rt job_id) (fun _ h =>
    exists plan provider, answered (GetExecutionPlan job_id) plan h
      /\ answered (GetExecutionProvider job_id) provider h
      /\ forall committed, provider = Some committed ->
           provider_observed rt (plan_execution_target plan) committed h).
Proof.
  unfold verify_committed_execution_provider. en_call. intros plan h1 Hplan.
  en_call. intros expected h2 Hexpected. destruct expected as [committed | ].
  2:{ apply ensures_ret. exists plan, None. split_and!; [stays | stays | by intros]. }
  en_bind current_provider_spec. intros observed h3 Hobserved.
  eapply ensures_mono; [apply ensures_guard | ]. intros ? h4 Heq%negb_false_iff%bool_decide_eq_true.
  subst observed. exists plan, (Some committed). split_and!; [stays | stays | ].
  intros ? [= <-]. stays.
Qed.

Lemma committed_dependency_spec binding :
  ensures (verify_host_dependency binding) (fun _ h => dependency_observed binding h).
Proof.
  unfold verify_host_dependency. cbv zeta. en_call. intros kind h1 Hkind.
  en_guard. intros ? h2 Hregular%negb_false_iff. en_call. intros observed h3 Hobserved.
  eapply ensures_mono; [apply ensures_guard | ]. intros ? h4 Heq%negb_false_iff%String.eqb_eq.
  subst observed. split; [exists kind; split; [stays | done] | stays].
Qed.

Lemma committed_dependencies_spec job_id :
  ensures (verify_committed_host_dependencies job_id) (fun _ h =>
    exists bindings, answered (GetHostDependencies job_id) bindings h
      /\ Forall (fun binding => dependency_observed binding h) bindings).
Proof.
  unfold verify_committed_host_dependencies. en_call. intros bindings h1 Hbindings.
  assert (Hloop : ensures (fold_eff (fun _ binding => verify_host_dependency binding) tt bindings)
    (fun _ h => Forall (fun binding => dependency_observed binding h) bindings)).
  { clear. induction bindings as [ | binding bindings IH]; cbn [fold_eff]; [by apply ensures_ret | ].
    en_bind committed_dependency_spec. intros [] h1 Hfirst. eapply ensures_mono; [apply IH | ].
    intros ? h2 Hrest. constructor; [stays | ].
    eapply Forall_impl; [exact Hrest | ]. intros b Hfact. cbv beta in *. stays. }
  eapply ensures_mono; [exact Hloop | ]. intros ? h2 Hall. exists bindings. split; [stays | ].
  eapply Forall_impl; [exact Hall | ]. intros b Hfact. cbv beta in *. stays.
Qed.

(** The inventory of a directory. *)
Definition regular_in (entries : list (string * FileKind)) (path : string) : Prop :=
  exists kind, (path, kind) ∈ entries /\ is_regular kind = true.

Definition collected (listing : option (list (string * FileKind))) (before after : gset string) : Prop :=
  exists entries, listing = Some entries
    /\ (forall path kind, (path, kind) ∈ entries -> kind = Directory \/ is_regular kind = true)
    /\ forall path, path ∈ after <-> path ∈ before \/ regular_in entries path.

Lemma regular_in_app entries1 entries2 path :
  regular_in (entries1 ++ entries2) path <-> regular_in entries1 path \/ regular_in entries2 path.
Proof.
  unfold regular_in. split.
  - intros (k & [H | H]%elem_of_app & Hk); eauto.
  - intros [(k & H & Hk) | (k & H & Hk)]; exists k; (split; [apply elem_of_app | done]); auto.
Qed.

Lemma regular_in_cons name kind entries path :
  regular_in ((name, kind) :: entries) path
  <-> (path = name /\ is_regular kind = true) \/ regular_in entries path.
Proof.
  unfold regular_in. split.
  - intros (k & [[= -> ->] | H]%elem_of_cons & Hk); eauto.
  - intros [[-> Hk] | (k & H & Hk)]; [by exists kind; split; [left | ] | exists k; split; [by right | done]].
Qed.

Scheme walk_mut := Induction for Walk Sort Prop with entries_mut := Induction for Entries Sort Prop.
Combined Scheme walk_entries_ind from walk_mut, entries_mut.

Lemma collected_below :
  (forall walk prefix files files',
     collect_materialized_files prefix walk files = Ok files' ->
     collected (entries_below prefix walk) files files')
  /\ (forall entries prefix files files',
        Inputs.collect_entries prefix entries files = Ok files' ->
        collected (entries_of prefix entries) files files').
Proof.
  apply walk_entries_ind; cbn [collect_materialized_files Inputs.collect_entries entries_below entries_of].
  - discriminate.
  - intros entries IH prefix files files'. apply IH.
  - intros prefix files files' [= <-]. exists []. split_and!; [done | by intros ?? ?%not_elem_of_nil | ].
    intros path. split; [by left | ]. by intros [? | (k & []%not_elem_of_nil & _)].
  - discriminate.
  - discriminate.
  - intros name kind walk IHwalk entries IHentries prefix files files'. cbv zeta.
    fold (below_prefix prefix name). destruct kind as [length | | | ]; try discriminate.
    + intros (others & Hothers & Hkinds & Hiff)%IHentries. rewrite Hothers.
      eexists. split_and!; [done | | ].
      * intros path kind [[= -> ->] | Hin]%elem_of_cons; [by right | by eapply Hkinds].
      * intros path. rewrite Hiff, elem_of_union, elem_of_singleton, regular_in_cons. cbn [is_regular]. tauto.
    + destruct (collect_materialized_files _ walk files) as [files1 | e] eqn:Hwalk; [ | discriminate].
      intros (others & Hothers & Hkinds & Hiff)%IHentries. rewrite Hothers.
      destruct (IHwalk _ _ _ Hwalk) as (inside & Hinside & Hkinds1 & Hiff1). rewrite Hinside.
      eexists. split_and!; [done | | ].
      * intros path kind [[= -> ->] | [Hin | Hin]%elem_of_app]%elem_of_cons;
          [by left | by eapply Hkinds1 | by eapply Hkinds].
      * intros path. rewrite Hiff, Hiff1, regular_in_cons, regular_in_app. cbn [is_regular].
        intuition discriminate.
Qed.

Definition file_of (input : InputBindingRequest) : string * string :=
  (ibr_presentation_relative_path input, ibr_expected_digest input).

Lemma verify_inputs_spec root inputs : forall index,
  ensures (verify_inputs root index inputs) (fun effective h =>
    map (fun input => (ei_presentation_relative_path input, ei_digest input)) effective = map file_of inputs
    /\ Forall (fun file => Event (Sha256File (path_join root file.1)) (Ok file.2) ∈ h) (map file_of inputs)).
Proof.
  induction inputs as [ | input inputs IH]; intros index; cbn [verify_inputs].
  - by apply ensures_ret.
  - en_call. intros length h1 _. en_call. intros digest h2 Hdigest.
    en_guard. intros ? h3 Heq%negb_false_iff%String.eqb_eq. subst digest.
    en_bind IH. intros effective h4 [Hfiles Hall]. apply ensures_ret. cbn. split; [by rewrite Hfiles | ].
    constructor; [cbn; stays | ]. eapply Forall_impl; [exact Hall | ]. intros file Hfact. cbv beta in *. stays.
Qed.

Lemma input_set_spec root inputs :
  ensures (verify_effective_input_set root inputs) (fun effective h =>
    map (fun input => (ei_presentation_relative_path input, ei_digest input)) effective = map file_of inputs
    /\ files_measured root (map file_of inputs) h).
Proof.
  unfold verify_effective_input_set. en_call. intros kind h1 Hkind.
  en_guard. intros ? h2 Hdir%negb_false_iff. en_call. intros walk h3 Hwalk.
  en_value. intros observed h4 (entries & Hentries & Hkinds & Hiff)%(proj1 collected_below).
  en_guard. intros ? h5 Heq%negb_false_iff%bool_decide_eq_true.
  eapply ensures_mono; [apply verify_inputs_spec | ]. intros effective h6 [Hfiles Hall].
  split; [done | ]. split_and!.
  - destruct kind; try discriminate Hdir. stays.
  - exists walk, entries. split_and!; [stays | done | done | ]. intros path.
    fold (regular_in entries path). specialize (Hiff path). rewrite Heq in Hiff.
    rewrite elem_of_list_to_set in Hiff.
    replace (map file_of inputs).*1 with (map ibr_presentation_relative_path inputs)
      by (rewrite <- list_fmap_compose; done).
    rewrite Hiff, elem_of_empty. unfold regular_in. tauto.
  - eapply Forall_impl; [exact Hall | ]. intros file Hfact. cbv beta in *. stays.
Qed.

Lemma normal_path_text value field path :
  validate_normal_relative_path value field = Ok path -> path = relative_text (components value).
Proof. unfold validate_normal_relative_path. cbv zeta. intros H. by inv_ok. Qed.

Lemma canonical_inputs_files inputs : forall seen index canonical,
  canonical_inputs seen index inputs = Ok canonical ->
  map file_of canonical
  = map (fun input => (relative_text (components (ibr_presentation_relative_path input)),
                       to_ascii_lowercase (ibr_expected_digest input))) inputs.
Proof.
  induction inputs as [ | input inputs IH]; intros seen index canonical; cbn [canonical_inputs].
  - by intros [= <-].
  - cbv zeta. intros Hc. inv_ok.
    match goal with H : canonical_inputs _ _ inputs = Ok _ |- _ => apply IH in H as Hrest end.
    match goal with H : validate_normal_relative_path (ibr_presentation_relative_path _) _ = Ok _ |- _ =>
      apply normal_path_text in H end.
    subst. cbn [map]. rewrite Hrest. unfold file_of. cbn. reflexivity.
Qed.

Lemma plan_requests_files plan requests :
  effective_input_requests_from_plan plan = Ok requests ->
  Permutation (map file_of requests) (map committed_file (plan_effective_inputs plan)).
Proof.
  unfold effective_input_requests_from_plan, canonical_input_binding_requests. intros H. inv_ok. subst requests.
  rewrite order_by_Permutation.
  match goal with H : canonical_inputs _ _ _ = Ok _ |- _ => apply canonical_inputs_files in H; rewrite H end.
  by rewrite map_map.
Qed.

Lemma input_ownership_spec job_id :
  ensures (ensure_job_input_ownership rt job_id) (fun _ h =>
    exists plan, answered (GetExecutionPlan job_id) plan h
      /\ (plan_effective_inputs plan = [] /\ plan_input_set_id plan = None
          \/ exists files, Permutation files (map committed_file (plan_effective_inputs plan))
               /\ files_measured (job_input_path rt job_id) files h)).
Proof.
  unfold ensure_job_input_ownership. en_call. intros plan h1 Hplan.
  destruct (plan_effective_inputs plan) as [ | input inputs] eqn:Hinputs, (plan_input_set_id plan) as [id | ] eqn:Hid.
  1, 4: by intros ?.
  - apply ensures_ret. exists plan. rewrite Hinputs, Hid. split; [stays | by left].
  - en_value. intros requests h2 Hrequests%plan_requests_files. cbv zeta.
    en_call. intros ? h3 _. en_call. intros owned h4 _.
    destruct owned.
    + en_bind input_set_spec. intros effective h5 [_ Hfiles]. en_quiet. intros prepared h6 _.
      eapply ensures_mono; [apply ensures_quiet; destruct prepared; quiet_auto | ].
      intros ? h7 _. exists plan. split; [stays | ]. right. exists (map file_of requests). split; [done | stays].
    + do 2 (en_quiet; intros ? ? _). en_quiet. intros ? h7 _. en_quiet. intros ? h8 _.
      en_bind input_set_spec. intros effective h9 [_ Hfiles]. apply ensures_ret.
      exists plan. split; [stays | ]. right. exists (map file_of requests). split; [done | stays].
Qed.

Lemma dispatch_found attempt_id h : dispatch_verified rt attempt_id h -> dispatch_measured rt attempt_id h.
Proof.
  intros (first & attempt & Hlater & Hid & Hprovider & Hdependencies & Hinputs).
  exists first, attempt. split_and!; [done | done | ]. split_and!.
  - exact (ensures_holds _ _ tt h (committed_image_spec _) Hprovider).
  - exact (ensures_holds _ _ tt h (committed_dependencies_spec _) Hdependencies).
  - exact (ensures_holds _ _ tt h (input_ownership_spec _) Hinputs).
Qed.

(** ** What an admission compares *)

Lemma credential_entry_spec root entry :
  ensures (credential_entry root entry) (fun found h =>
    Event (Sha256File (path_join root (cse_name found))) (Ok (cse_digest found)) ∈ h).
Proof.
  unfold credential_entry. en_value. intros name h1 _. cbv zeta. en_call. intros kind h2 _.
  en_value. intros length h3 _. en_guard. intros ? h4 _. en_value. intros ? h5 _.
  en_call. intros digest h6 Hdigest. apply ensures_ret. cbn. stays.
Qed.

#[export] Instance grows_credentials root set_id : Grows (credentials_measured root set_id).
Proof. unfold credentials_measured. apply _. Qed.

Lemma credential_snapshot_spec root :
  ensures (inspect_credential_snapshot root) (fun found h => credentials_measured root found.1 h).
Proof.
  unfold inspect_credential_snapshot. en_call. intros kind h1 Hkind.
  en_guard. intros ? h2 Hdir%negb_false_iff. en_call. intros listing h3 _.
  eapply ensures_bind; [exact (collect_spec (credential_entry root) (fun _ => _) listing (credential_entry_spec root)) | ].
  intros entries h4 Hentries. cbv zeta. apply ensures_ret. split.
  - destruct kind; try discriminate Hdir. stays.
  - eexists. split; [reflexivity | ]. rewrite order_by_Permutation.
    eapply Forall_impl; [exact Hentries | ]. intros entry (? & _ & Hfact). cbv beta in *. stays.
Qed.

Lemma admission_found request h : admission_observed rt request h -> admission_measured rt request h.
Proof.
  intros (_ & _ & _ & [Hinputs Hcredentials] & (provider & Hsub & Hran) & _). split; [split | ].
  - destruct Hinputs as [? | (root & inputs & Hran')]; [by left | right]. exists root.
    destruct (ensures_holds _ _ _ h (input_set_spec root inputs) Hran') as [<- Hfiles]. exact Hfiles.
  - intros set_id Hset. destruct (Hcredentials set_id Hset) as (root & names & Hran').
    exists root. exact (ensures_holds _ _ _ h (credential_snapshot_spec root) Hran').
  - exists provider. split; [done | ]. exact (ensures_holds _ _ _ h (current_provider_spec _) Hran).
Qed.

(** ** The plan *)

#[local] Instance grows_step workspace step : Grows (step_planned rt workspace step).
Proof. unfold step_planned. apply _. Qed.

Lemma plan_step_spec record target base index step :
  ensures (resolve_plan_step rt record target base index step)
    (step_planned rt (wr_workspace_path record)).
Proof.
  unfold resolve_plan_step. cbv zeta.
  eapply ensures_bind; [apply ensures_with_error, workspace_cwd_spec | ]. intros cwd h1 Hcwd.
  en_bind executable_spec. intros executable h2 [-> Hexecutable].
  en_call. intros digest h3 Hdigest. en_value. intros env h4 _. apply ensures_ret.
  split; [split | ]; cbn; stays.
Qed.

Lemma plan_steps_spec record target base steps : forall index,
  ensures (resolve_plan_steps rt record target base index steps)
    (fun resolved h => Forall (fun step => step_planned rt (wr_workspace_path record) step h) resolved).
Proof.
  induction steps as [ | step steps IH]; intros index; cbn [resolve_plan_steps].
  - by apply ensures_ret.
  - en_bind plan_step_spec. intros resolved h1 Hstep. en_bind IH. intros others h2 Hothers.
    apply ensures_ret. constructor; [stays | ].
    eapply Forall_impl; [exact Hothers | ]. intros s Hfact. cbv beta in *. stays.
Qed.

(** What the plan takes over from the request. *)
Definition carries (request : JobRunRequest) (plan : RuntimeExecutionPlan) : Prop :=
  let execution := run_execution request in
  plan_principal plan = run_principal request
  /\ plan_execution_target plan = uer_execution_target execution
  /\ plan_timeout_ms plan = uer_timeout_ms execution
  /\ plan_stdout_limit_bytes plan = uer_stdout_limit_bytes execution
  /\ plan_stderr_limit_bytes plan = uer_stderr_limit_bytes execution.

Definition without_materials (plan : RuntimeExecutionPlan) : Prop :=
  plan_effective_inputs plan = [] /\ plan_credential_set_id plan = None.

#[local] Instance grows_planned plan : Grows (planned rt plan).
Proof. unfold planned. apply _. Qed.

Lemma resolve_plan_spec request :
  ensures (resolve_plan rt request) (fun plan h =>
    planned rt plan h /\ carries request plan /\ without_materials plan).
Proof.
  unfold resolve_plan. cbv zeta.
  eapply ensures_bind; [apply ensures_with_error, load_record_spec | ]. intros record h1 Hrecord.
  eapply ensures_bind; [apply ensures_with_error, canonical_directory_spec | ].
  intros workspace_dir h2 [Hworkspace _].
  eapply ensures_bind; [apply ensures_with_error, workspace_cwd_spec | ]. intros cwd h3 Hcwd.
  en_bind executable_spec. intros executable h4 [-> Hexecutable].
  en_quiet. intros [base context] h5 _. en_bind plan_steps_spec. intros steps h6 Hsteps.
  do 2 (eapply ensures_bind;
        [apply ensures_quiet; unfold universal; apply quiet_with_error; auto with quiet nocore | ];
        intros ? ? _).
  en_call. intros digest h9 Hdigest. en_value. intros env h10 _. apply ensures_ret.
  split; [ | by repeat split].
  exists (wr_workspace_path record). cbn. split_and!; [stays | stays | split; stays | stays | ].
  eapply Forall_impl; [exact Hsteps | ]. intros s Hfact. cbv beta in *.
  stays.
Qed.

(** ** Materials *)

Lemma materialize_spec {A} words root owned_root job_id fill (finish : string -> eff A)
    (Q : A -> history -> Prop) `{forall a, Grows (Q a)} :
  (forall staging, quiet (fill staging)) -> (forall prepared, ensures (finish prepared) Q) ->
  ensures (materialize words root owned_root job_id fill finish) Q.
Proof.
  intros Hfill Hfinish. unfold materialize. cbv zeta.
  en_call. intros ? h1 _. en_call. intros prepared h2 _. en_quiet. intros owned h3 _.
  destruct owned; [by intros r | ].
  en_call. intros ? h4 _. en_call. intros locked h5 _. destruct locked as [? | failure].
  2:{ en_quiet. intros ? h6 _. by intros r. }
  en_call. intros uuid h6 _. unfold catch, ensures, spec. apply wp_bind.
  eapply spec_wp with (Q := fun r h => forall a, r = Ok a -> Q a h); [ | by intros | ].
  - change (ensures
      (try_map (io_error (sw_staging words)) (CreateDir (path_join root ("." +:+ job_id +:+ ".staging-" +:+ uuid))) ;;
       try_map (io_error (sw_protect words)) (SetMode (path_join root ("." +:+ job_id +:+ ".staging-" +:+ uuid)) 448) ;;
       fill (path_join root ("." +:+ job_id +:+ ".staging-" +:+ uuid)) ;;
       sync_directory (path_join root ("." +:+ job_id +:+ ".staging-" +:+ uuid)) ;;
       try_map map_universal_error (RenameDurable (path_join root ("." +:+ job_id +:+ ".staging-" +:+ uuid))
         (path_join root job_id) false (sw_publish words)) ;;
       finish (path_join root job_id)) Q).
    en_call. intros ? g1 _. en_call. intros ? g2 _. en_quiet. intros ? g3 _.
    unfold sync_directory. en_call. intros ? g4 _. en_call. intros ? g5 _.
    eapply ensures_mono; [apply Hfinish | ]. intros result g6 Ha. stays.
  - intros outcome h7 Houtcome. cbn [app]. apply wp_eff_bind, quiet_wp; [quiet_auto | by intros | ].
    intros [? | e] h8; [ | by intros]. do 2 (apply wp_eff_bind, quiet_wp; [quiet_auto | by intros | ];
      intros [? | ?] ?; [ | by intros]).
    intros result ->. specialize (Houtcome result eq_refl). stays.
Qed.

Lemma input_bindings_spec request digest job_id inputs :
  ensures (materialize_input_bindings rt request digest job_id inputs) (fun prepared h =>
    exists root requests, ran (verify_effective_input_set root requests)
                            (Ok (pis_effective_inputs prepared)) h).
Proof.
  apply materialize_spec; [apply _ | | ].
  - intros staging. apply quiet_indexed. intros index input. unfold materialize_input. cbv zeta. quiet_auto.
  - intros prepared. eapply ensures_bind; [apply ensures_ran, ensures_quiet, quiet_input_set | ].
    intros effective h1 [_ Hran]. apply ensures_ret. exists prepared, inputs. cbn. stays.
Qed.

Lemma credential_bindings_spec request job_id credentials :
  ensures (materialize_credential_bindings rt request job_id credentials) (fun prepared h =>
    exists root names, ran (inspect_credential_snapshot root)
                         (Ok (pcs_credential_set_id prepared, names)) h).
Proof.
  apply materialize_spec; [apply _ | | ].
  - intros staging. apply quiet_indexed. intros index input. unfold materialize_credential. cbv zeta. quiet_auto.
  - intros prepared.
    eapply ensures_bind; [apply ensures_ran, ensures_quiet; unfold inspect_credential_snapshot; quiet_auto | ].
    intros [set_id names] h1 [_ Hran]. apply ensures_ret. exists prepared, names. cbn. stays.
Qed.
End specs.

#[export] Instance grows_under_lock fact `{Grows fact} : Grows (under_lock fact).
Proof.
  intros h1 h h2 (before & after & -> & Hlock & Hf). exists (h1 ++ before), (after ++ h2).
  rewrite <- !app_assoc. split_and!; [done | | by apply grows_left].
  apply elem_of_app. by right.
Qed.
#[export] Instance grows_not_found principal client_request_id digest :
  Grows (not_found principal client_request_id digest).
Proof. apply _. Qed.
#[export] Instance grows_planned_of `{P : Platform, C : EngineCodec} rt plan : Grows (planned rt plan).
Proof.
  unfold planned, executable_planned, executable_confined, below_executable_root, step_planned,
    executable_planned, executable_confined, below_executable_root, cwd_confined. apply _.
Qed.
#[export] Instance grows_materials `{P : Platform, C : EngineCodec} plan : Grows (materials_prepared plan).
Proof. unfold materials_prepared. apply _. Qed.
#[export] Instance grows_dependency_of binding : Grows (dependency_observed binding).
Proof. unfold dependency_observed. apply _. Qed.
