(* ===== verification/EngineSpec.v ===== *)
(** * What the entry points establish

    Conditions on the calls of a pass, of a cancel and of an admission. *)

From S2P Require Import Prelude Text Errors Types Supervisor Platform Validation Submit Store.
From S2P Require Import Transaction Projection Lifecycle Admission Recovery Registry Query.
From S2P Require Import Effects Utf8 Engine Linux Launch Inputs Binding Output Evidence.
From S2P Require Import Observation Reconciliation Workspace Bundle Dispatching Materials Passes.
From S2P Require Import Requests Planning Admitting Silence Observed ReconciliationSpec Justified.
From S2P Require Import StartSpec DispatchSpec PlanSpec.

(** ** Passes rest on evidence

    Every pass over Attempts satisfies [engine_ok], and so does [reconcile_job]. *)

#[local] Open Scope Z_scope.

Section evidence.
Context `{P : Platform, C : EngineCodec}.
Context (rt : Runtime).

Lemma candidate_wp report attempt h :
  wp (engine_ok rt) (reconcile_candidate_into rt report attempt) h (fun _ _ => True).
Proof.
  assert (Hnow : quiet (try NowMs)) by (unfold try; quiet_auto).
  assert (Hfinish : forall r h, wp (engine_ok rt) (finish_candidate attempt (count_inspected report) r) h (fun _ _ => True)).
  { intros r h'. apply quiet_wp; [ | apply silent_engine_ok | done].
    unfold finish_candidate, record_isolated_reconciliation_failure, registry, try. cbv zeta. quiet_auto. }
  unfold reconcile_candidate_into, catch. cbv zeta.
  destruct (_ == _); [ | destruct (AttemptState.is_terminal _); [ | destruct (_ == _)]].
  - apply wp_bind. eapply wp_mono; [ | eapply wp_ok_mono; [apply orphan_engine_ok | apply orphaned_attempt_wp]].
    intros r h' _ _. apply Hfinish.
  - apply wp_eff_bind. unfold try. cbn [wp]. split; [done | ]. intros [now | e]; [ | done].
    apply wp_bind. apply quiet_wp; [unfold registry, try; quiet_auto | apply silent_engine_ok | ].
    intros r h'. apply Hfinish.
  - apply wp_bind. apply wp_eff_bind. eapply wp_mono; [ | apply ensure_dispatched_wp].
    intros [? | ?] h' _ _; apply Hfinish.
  - apply wp_bind. apply wp_eff_bind. eapply wp_mono; [ | apply reconcile_attempt_wp].
    intros [? | ?] h' _ _; apply Hfinish.
Qed.

Lemma candidates_wp attempts : forall report h,
  wp (engine_ok rt) (reconcile_candidates_into rt attempts report) h (fun _ _ => True).
Proof.
  unfold reconcile_candidates_into. induction attempts as [ | attempt attempts IH]; intros report h; [done | ].
  cbn [fold_eff]. apply wp_eff_bind. eapply wp_mono; [ | apply candidate_wp].
  intros [report' | e] h' _ _; [apply IH | done].
Qed.

Lemma recoverable_orphans_wp report h :
  wp (engine_ok rt) (reconcile_recoverable_orphans_into rt report) h (fun _ _ => True).
Proof.
  unfold reconcile_recoverable_orphans_into, registry, try.
  do 3 (ev_quiet; intros [? | ?] ?; [ | done]). apply candidates_wp.
Qed.

Lemma workspace_wp workspace_id h :
  wp (engine_ok rt) (reconcile_workspace rt workspace_id) h (fun _ _ => True).
Proof. unfold reconcile_workspace, registry, try. ev_quiet. intros [attempts | e] h2; [apply candidates_wp | done]. Qed.

Lemma job_wp job_id h : wp (engine_ok rt) (reconcile_job rt job_id) h (fun _ _ => True).
Proof.
  unfold reconcile_job, registry, try. ev_quiet. intros [snapshot | e] h1; [ | done].
  destruct (job_resolution _).
  - destruct (snap_attempt snapshot) as [attempt | ]; [ | done]. destruct (_ == _); [ | done].
    apply wp_eff_bind. eapply wp_mono; [ | eapply wp_ok_mono; [apply orphan_engine_ok | apply orphaned_attempt_wp]].
    by intros [? | ?].
  - apply wp_eff_bind. destruct (snap_attempt snapshot) as [attempt | ]; cbn [ok_or of_result wp]; [ | done].
    destruct (_ == _); [apply ensure_dispatched_wp | apply reconcile_attempt_wp].
Qed.

Lemma observe_loop_wp request polls : forall initial h,
  wp (engine_ok rt) (observe_loop rt request initial polls) h (fun _ _ => True).
Proof.
  assert (Hsnapshot : forall snapshot, quiet (observation_from_snapshot snapshot request))
    by (intros; unfold observation_from_snapshot; quiet_auto).
  induction polls as [ | polls IH]; intros initial h; cbn [observe_loop].
  all: apply wp_eff_bind; eapply wp_mono; [ | apply job_wp]; intros [? | e] h1 _ _; [ | done].
  all: unfold registry, try; ev_quiet; intros [snapshot | e'] h2; [ | done].
  all: apply wp_eff_bind, quiet_wp; [unfold job_activity_signature; quiet_auto | apply silent_engine_ok | ].
  all: intros [signature | e''] h3; [ | done]; cbv zeta; destruct (_ || _).
  all: first [apply IH | apply quiet_wp; [apply Hsnapshot | apply silent_engine_ok | done]].
Qed.

Lemma observe_job_wp request h : wp (engine_ok rt) (observe_job rt request) h (fun _ _ => True).
Proof.
  unfold observe_job, of_result, ask. apply wp_eff_bind. destruct (validate_observe_request request); [ | done].
  cbn [wp]. apply wp_eff_bind. cbn [wp]. split; [done | ]. intros polls. apply observe_loop_wp.
Qed.
End evidence.

(** ** Cancelling rests on evidence

    [cancel_job] satisfies [engine_ok]: it stops a unit when the cancel is
    recorded and the Runner told, and commits on what it saw. *)

#[local] Open Scope Z_scope.

Section cancelling.
Context `{P : Platform, C : EngineCodec}.
Context (rt : Runtime).

(** The observation of a commit is handed on. *)
Lemma observed_some {A} (p : eff A) (f : A -> NativePoll) h :
  wp (engine_ok rt) p h (fun _ _ => True) ->
  wp (engine_ok rt) (observation ← p; mret (f observation)) h (fun _ _ => True).
Proof. intros Hp. apply wp_eff_bind. eapply wp_mono; [ | exact Hp]. by intros [? | ?]. Qed.

Lemma poll_linux_wp attempt output h :
  cancel_requested attempt h ->
  wp (engine_ok rt) (poll_linux rt attempt output) h (fun _ _ => True).
Proof.
  intros Hc. unfold poll_linux. ev_call. intros [ | ].
  { apply wp_eff_bind. eapply wp_mono; [ | apply commit_runner_result_wp]. by intros [? | ?]. }
  ev_spec systemctl_show_spec. intros [properties | e] h1 Hshow; [ | done]. specialize (Hshow _ eq_refl).
  ev_spec recorded_pid_alive_spec. intros alive h2 Hpid. cbn beta iota.
  destruct (_ && _) eqn:Hgone; [ | done].
  apply andb_true_iff in Hgone as [Ha%negb_true_iff Hg%negb_true_iff].
  apply wp_eff_bind. eapply wp_mono; [ | apply commit_control_wp, StopRequested; [done | | ]].
  - by intros [? | ?].
  - do 3 (apply cancel_requested_app). done.
  - left. eexists _, (h1 ++ h2). rewrite app_assoc. split_and!; [reflexivity | left; in_history | | ].
    + apply shown_app. left. by apply Hshow.
    + apply pid_gone_app. right. by apply Hpid.
Qed.

Lemma linux_cancel_loop_wp attempt output polls : forall h,
  cancel_requested attempt h ->
  wp (engine_ok rt) (linux_cancel_loop rt attempt output polls) h (fun _ _ => True).
Proof.
  induction polls as [ | polls IH]; intros h Hc; cbn [linux_cancel_loop];
    apply wp_eff_bind; (eapply wp_mono; [ | by apply poll_linux_wp]).
  - by intros [[? | ] | ?].
  - intros [[? | ] | ?] h' [h1 ->] _; [done | | done]. apply IH. by apply cancel_requested_app.
Qed.

Lemma stop_linux_wp job_id attempt content h :
  cancel_requested attempt h ->
  Event (WriteAtomic (bundle_file attempt CANCEL_FILE) content) (Ok tt) ∈ h ->
  wp (engine_ok rt) (stop_linux_attempt rt job_id attempt) h (fun _ _ => True).
Proof.
  intros Hc Hw. unfold stop_linux_attempt, stop_unit_no_block.
  apply wp_eff_bind. unfold try_map at 1. cbn [wp]. split; [by exists attempt, content | ].
  intros [output | e]; cbn [map_err]; [ | done].
  ev_call. intros polls. apply wp_eff_bind. eapply wp_mono; [ | apply linux_cancel_loop_wp].
  - intros [[? | ] | ?] h' _ _; [done | | done]. apply wp_eff_bind.
    eapply wp_mono; [ | apply reconcile_attempt_wp]. intros [? | ?] h'' _ _; [ | done]. ev_last.
  - by do 2 apply cancel_requested_app.
Qed.

(** ** Windows *)

Lemma poll_unbound_wp plan current h :
  wp (engine_ok rt) (poll_unbound_native rt plan current) h (fun _ _ => True).
Proof.
  unfold poll_unbound_native, require_windows. ev_call. intros [ | ].
  - apply wp_eff_bind. eapply wp_mono; [ | apply bind_attempt_start_wp]. by intros [? | ?].
  - ev_last.
Qed.

Lemma poll_native_wp plan attempt h :
  cancel_requested attempt h ->
  wp (engine_ok rt) (poll_native rt plan attempt) h (fun _ _ => True).
Proof.
  intros (job_id & at_ms & projection & first & Hreq & Hlatest & Hlater). unfold poll_native.
  ev_spec (registry_spec (GetAttempt (att_attempt_id attempt)) I). intros [current | e] h1 Hcurrent; [ | done].
  specialize (Hcurrent _ eq_refl). ev_call.
  intros [ | ]; [by apply observed_some, commit_runner_result_wp | ].
  ev_quiet. intros [owner | e] h2; [ | done].
  destruct (present owner); [ | apply poll_unbound_wp].
  ev_spec orphan_process_tree_alive_spec. intros [alive | e] h3 Hdead; [ | done].
  destruct alive; [done | ]. specialize (Hdead eq_refl).
  ev_call. intros [ | ]; [by apply observed_some, commit_runner_result_wp | ].
  apply observed_some, commit_control_wp, StopRequested; [done | | ].
  - do 4 apply cancel_requested_app. exists job_id, at_ms, projection, first. split_and!.
    + by apply answered_app; left.
    + by apply answered_app; left.
    + apply (Read _ _ attempt); [by apply later_app; left | by apply answered_app; right].
  - right. eexists _, [_]. split_and!; [reflexivity | by apply observed_dead_app; right | left; in_history].
Qed.

Lemma native_cancel_loop_wp plan attempt polls : forall h,
  cancel_requested attempt h ->
  wp (engine_ok rt) (native_cancel_loop rt plan attempt polls) h (fun _ _ => True).
Proof.
  induction polls as [ | polls IH]; intros h Hc; cbn [native_cancel_loop];
    apply wp_eff_bind; (eapply wp_mono; [ | by apply poll_native_wp]).
  - intros [[observation | | | ] | e] h' _ _; done.
  - intros [[observation | | | ] | e] h' [h1 ->] _; try done.
    + apply IH. by apply cancel_requested_app.
    + ev_call. intros remaining. destruct (_ =? 0)%nat; [done | ]. apply IH. by do 2 apply cancel_requested_app.
Qed.

Lemma cancel_native_wp job_id attempt h :
  cancel_requested attempt h ->
  wp (engine_ok rt) (cancel_native_windows_attempt rt job_id attempt) h (fun _ _ => True).
Proof.
  intros Hc. unfold cancel_native_windows_attempt.
  ev_spec (registry_spec (GetExecutionPlan job_id) I). intros [plan | e] h1 _; [ | done].
  ev_call. intros polls. apply wp_eff_bind. eapply wp_mono; [ | apply native_cancel_loop_wp].
  - intros [[? | ] | ?] h' _ _; [done | | done]. unfold catch. apply wp_bind.
    eapply wp_mono; [ | apply reconcile_attempt_wp]. intros [? | error] h'' _ _; [ev_last | ].
    destruct (is_launch_identity_mismatch error); [ev_last | done].
  - by do 2 apply cancel_requested_app.
Qed.

(** ** The Job *)

Lemma cancel_orphaned_wp job_id attempt h :
  wp (engine_ok rt) (cancel_orphaned rt job_id attempt) h (fun _ _ => True).
Proof.
  unfold cancel_orphaned. ev_call. intros is_file. apply wp_eff_bind.
  apply (wp_mono _ _ (fun _ _ => True)).
  2:{ destruct is_file; [apply recover_result_commit_ok | done]. }
  intros [[ | ] | e] h1 _ _; [ev_last | | done].
  ev_call. intros [now | e]; [ | done].
  ev_spec (registry_spec (RequestCancel job_id now) I). intros [projection | e] h2 Hreq; [ | done].
  ev_spec (registry_spec (GetAttempt (att_attempt_id attempt)) I). intros [current | e] h3 Hcurrent; [ | done].
  specialize (Hreq _ eq_refl). specialize (Hcurrent _ eq_refl).
  ev_spec orphan_process_tree_alive_spec. intros [alive | e] h4 Hdead; [ | done].
  apply wp_eff_bind. apply (wp_mono _ _ (fun _ _ => True)); [intros [? | ?] ? _ _; [ev_last | done] | ].
  destruct alive; [done | ]. specialize (Hdead eq_refl). apply wp_eff_bind. cbn [wp]. split; [done | ].
  intros [ | ].
  - apply wp_eff_bind. eapply wp_mono; [ | apply recover_result_commit_ok]. by intros [? | ?].
  - eapply wp_ok_mono; [apply orphan_engine_ok | ]. apply resolve_absent_commit.
    intros terminal h' Hid Hv Hs _.
    eapply (CancelRecorded _ _ (att_attempt_id attempt) job_id now projection current _ ([_] ++ h')).
    + do 2 (apply answered_app; left). by apply answered_app; right.
    + apply answered_app; left. by apply answered_app; right.
    + by rewrite app_assoc.
    + by apply observed_dead_app; right.
    + in_history.
    + done.
    + done.
    + done.
Qed.

Lemma mismatch_absent_quiet attempt : quiet (launch_identity_mismatch_cancel_target_absent attempt).
Proof.
  unfold launch_identity_mismatch_cancel_target_absent. quiet_auto.
Qed.

Lemma before_cancel_wp job_id snapshot native_direct h :
  wp (engine_ok rt) (reconcile_before_cancel rt job_id snapshot native_direct) h (fun _ _ => True).
Proof.
  unfold reconcile_before_cancel, catch. apply wp_bind. eapply wp_mono; [ | apply job_wp].
  intros [? | error] h1 _ _; [done | ]. destruct (is_launch_identity_mismatch error); [ | done].
  destruct native_direct; [done | ]. apply wp_eff_bind.
  destruct (snap_attempt snapshot) as [attempt | ]; cbn [ok_or of_result wp]; [ | done].
  apply quiet_wp; [ | apply silent_engine_ok | done].
  apply quiet_bind; [apply mismatch_absent_quiet | intros []; quiet_auto].
Qed.

Lemma cancel_unresolved_wp job_id snapshot h :
  wp (engine_ok rt) (cancel_unresolved rt job_id snapshot) h (fun _ _ => True).
Proof.
  unfold cancel_unresolved.
  ev_spec (registry_spec (GetExecutionPlan job_id) I). intros [plan | e] h1 _; [ | done]. cbv zeta.
  apply wp_eff_bind. eapply wp_mono; [ | apply before_cancel_wp]. intros [? | e] h2 _ _; [ | done].
  ev_call. intros [now | e]; [ | done].
  ev_spec (registry_spec (RequestCancel job_id now) I). intros [projection | e] h3 Hreq; [ | done].
  specialize (Hreq _ eq_refl). destruct (jp_result_available projection); [ev_last | ].
  ev_spec (registry_spec (GetLatestAttempt job_id) I). intros [[attempt | ] | e] h4 Hlatest; [ | done | done].
  specialize (Hlatest _ eq_refl). apply wp_eff_bind. cbn [ok_or of_result wp].
  ev_call. intros [noticed | e]; [ | done].
  apply wp_eff_bind. unfold try_map at 1. cbn [wp]. split; [done | ]. intros [[] | e]; cbn [map_err]; [ | done].
  assert (Hc : cancel_requested attempt (((h2 ++ [Event NowMs (Ok now)]) ++ h3) ++ h4)).
  { exists job_id, now, projection, attempt. split_and!; [ | by apply answered_app; right | apply Same].
    apply answered_app; left. by apply answered_app; right. }
  destruct (_ && _).
  - apply cancel_native_wp. by do 2 apply cancel_requested_app.
  - eapply stop_linux_wp; [by do 2 apply cancel_requested_app | in_history].
Qed.

Lemma cancel_job_wp request h : wp (engine_ok rt) (cancel_job rt request) h (fun _ _ => True).
Proof.
  unfold cancel_job. ev_guard. ev_quiet. intros [snapshot | e] h1; [ | done].
  destruct (job_resolution _) as [[] | ]; try apply cancel_unresolved_wp.
  destruct (snap_attempt snapshot); [apply cancel_orphaned_wp | apply cancel_unresolved_wp].
Qed.
End cancelling.

(** ** Admissions rest on observation

    The programs of [Admitting] satisfy [engine_ok]: whatever they submit was
    looked up, planned and checked before. *)

#[local] Open Scope Z_scope.

Section admitting.
Context `{P : Platform, C : EngineCodec, WC : WorkspaceCodec, IC : IdentityCodec}.
Context (rt : Runtime).

#[local] Abbreviation allowed p h := (wp (engine_ok rt) p h (fun _ _ => True)).

(** ** Sequencing with a fact *)

Lemma then_allowed {A B} fact (p : eff A) (f : A -> eff B) h :
  fact h -> allowed p h -> Grows fact -> (forall a h', fact h' -> allowed (f a) h') -> allowed (p ≫= f) h.
Proof.
  intros Hfact Hp Hgrows Hf. apply wp_eff_bind. eapply wp_mono; [ | exact Hp].
  intros [a | e] h' [h1 ->] _; [ | done]. apply Hf. stays.
Qed.

Lemma then_ensured {A B} fact (p : eff A) (f : A -> eff B) Q h :
  fact h -> ensures p Q -> Grows fact -> (forall a, Grows (Q a)) ->
  (forall a h', fact h' /\ Q a h' -> allowed (f a) h') -> allowed (p ≫= f) h.
Proof.
  intros Hfact Hp Hgrows Hgrows' Hf. apply wp_eff_bind. eapply spec_wp; [exact Hp | apply silent_engine_ok | ].
  intros [a | e] h1 Hq; [ | done]. apply Hf. split; [stays | by apply grows_right, Hq].
Qed.

Lemma then_value {A B} (r : RuntimeResult A) (f : A -> eff B) h :
  (forall a, r = Ok a -> allowed (f a) h) -> allowed (of_result r ≫= f) h.
Proof. intros Hf. destruct r as [a | e]; [by apply (Hf a) | done]. Qed.

Lemma quiet_allowed {A} (p : prog A) h : quiet p -> allowed p h.
Proof. intros Hp. apply quiet_wp; [exact Hp | apply silent_engine_ok | done]. Qed.

(** A step of an admission: what was known stays known. *)
Ltac exact_fact H := cbv beta in H; match goal with |- ?fact ?h => pattern h in H; exact H end.
Ltac admit_after H program := eapply then_allowed; [exact_fact H | apply program | apply _ | ].
Ltac admit_ensured H program :=
  eapply then_ensured; [exact_fact H | apply program | apply _ | apply _ | ].
Ltac admit_quiet H := eapply then_ensured;
  [exact_fact H | apply ensures_quiet; solve [quiet_auto] | apply _ | apply _ | ].
Ltac admit_last := eapply (then_allowed (fun _ => True)); [done | | apply _ | done].

(** ** Submission *)

#[local] Instance grows_admission request : Grows (admission_observed rt request).
Proof. unfold admission_observed. apply _. Qed.

Lemma submit_with_wp request ids h :
  admission_observed rt request h -> allowed (submit_with rt request ids) h.
Proof.
  intros Hobserved. unfold submit_with. ev_call. intros now. ev_call. intros fence.
  unfold registry, try. cbn [wp]. split; [ | done].
  change (admission_observed rt request ((h ++ [Event NowMs now]) ++ [Event AdmissionFence fence])).
  stays.
Qed.

Lemma submit_wp request h : admission_observed rt request h -> allowed (submit rt request) h.
Proof.
  intros Hobserved. unfold submit, fresh_admission_ids.
  admit_quiet Hobserved.
  intros ids h' [Hobs _]. by apply submit_with_wp.
Qed.

Lemma submit_prepared_wp request ids adopt discard h :
  admission_observed rt request h -> (forall job_id, quiet (adopt job_id)) -> quiet discard ->
  allowed (submit_prepared rt request ids adopt discard) h.
Proof.
  intros Hobserved Hadopt Hdiscard. unfold submit_prepared, catch. apply wp_bind.
  eapply wp_mono; [ | by apply submit_with_wp]. intros [[created | job] | e] h' _ _.
  - apply quiet_allowed. cbv zeta. repeat first [apply quiet_prog_bind | apply Hadopt | progress quiet_auto].
  - apply quiet_allowed. repeat first [apply Hdiscard | progress quiet_auto].
  - apply quiet_allowed. repeat first [apply Hdiscard | progress quiet_auto].
Qed.

Lemma before_admission_wp workspace_id h : allowed (reconcile_before_admission rt workspace_id) h.
Proof.
  unfold reconcile_before_admission.
  eapply (then_allowed (fun _ => True)); [done | apply recoverable_orphans_wp | apply _ | ].
  intros report h1 _. admit_last. apply workspace_wp.
Qed.

(** ** The policy of the operator *)

Definition within_policy (execution : UniversalExecutionRequest) : Prop :=
  uer_timeout_ms execution <= uec_max_runtime_ms (rt_executor rt)
  /\ uer_stdout_limit_bytes execution <= uec_max_output_bytes (rt_executor rt)
  /\ uer_stderr_limit_bytes execution <= uec_max_output_bytes (rt_executor rt).

Lemma policy_bounds request : admission_policy rt request = Ok tt -> within_policy (run_execution request).
Proof.
  unfold admission_policy, validate_new_admission_policy, within_policy, fail_if.
  destruct (_ <? uer_timeout_ms _) eqn:?; [intros Hok; discriminate Hok | ].
  destruct (_ <? uer_stdout_limit_bytes _) eqn:?; [intros Hok; discriminate Hok | ].
  destruct (_ <? uer_stderr_limit_bytes _) eqn:?; [intros Hok; discriminate Hok | ]. lia.
Qed.

(** A plan of the request, as it is submitted. *)
Lemma observed_of_plan request plan digest provider release dependencies h :
  carries request plan -> within_policy (run_execution request) ->
  planned rt plan h -> materials_prepared plan h ->
  Forall (fun binding => dependency_observed binding h) dependencies ->
  not_found (run_principal request) (run_client_request_id request) digest h ->
  ran (current_execution_provider_snapshot rt (uer_execution_target (run_execution request)))
    (Ok provider) h ->
  admission_observed rt
    (submit_request (run_client_request_id request) digest (run_global_limit request) provider release
       dependencies plan) h.
Proof.
  intros (Hp & Ht & H1 & H2 & H3) (? & ? & ?) Hplanned Hmaterials Hdeps Hfound Hran.
  unfold admission_observed. cbn. rewrite Hp, Ht, H1, H2, H3.
  split_and!; try done; [by exists digest | by exists provider].
Qed.

Lemma no_materials plan h : without_materials plan -> materials_prepared plan h.
Proof. intros [Hi Hc]. split; [by left | ]. intros id. by rewrite Hc. Qed.

Lemma provider_spec target :
  ensures (current_execution_provider_snapshot rt target) (fun provider h =>
    ran (current_execution_provider_snapshot rt target) (Ok provider) h).
Proof.
  eapply ensures_mono; [apply ensures_ran, ensures_quiet, quiet_snapshot | ]. by intros provider h [_ Hran].
Qed.

(** ** New Jobs *)

Lemma admit_new_job_wp request digest h :
  not_found (run_principal request) (run_client_request_id request) digest h ->
  within_policy (run_execution request) -> allowed (admit_new_job rt request digest) h.
Proof.
  intros Hfound Hpolicy. unfold admit_new_job. cbv zeta.
  admit_after Hfound before_admission_wp. intros _ h1 H1.
  admit_ensured H1 host_dependencies_spec.
  intros dependencies h2 H2.
  admit_ensured H2 resolve_plan_spec.
  intros plan h3 H3.
  admit_ensured H3 provider_spec.
  intros provider h4 [[[Hf Hd] (Hplanned & Hcarries & Hnone)] Hran].
  admit_last. apply submit_wp, observed_of_plan; try done. by apply no_materials.
Qed.

Lemma set_value_planned name value steps workspace h :
  Forall (fun step => step_planned rt workspace step h) steps ->
  Forall (fun step => step_planned rt workspace step h) (map (set_step_value name value) steps).
Proof. intros H. apply Forall_map. eapply Forall_impl; [exact H | done]. Qed.

Lemma present_inputs_planned prepared root plan h :
  planned rt plan h -> planned rt (present_inputs prepared root plan) h.
Proof.
  intros (workspace & ? & ? & ? & ? & Hsteps). exists workspace. cbn.
  split_and!; try done. by apply set_value_planned.
Qed.

Lemma admit_with_inputs_wp request digest inputs h :
  not_found (run_principal request) (run_client_request_id request) digest h ->
  allowed (admit_new_job_with_inputs rt request digest inputs) h.
Proof.
  intros Hfound. unfold admit_new_job_with_inputs. cbv zeta.
  apply then_value. intros _ _. apply then_value. intros [] Hpolicy%policy_bounds.
  admit_after Hfound before_admission_wp. intros _ h1 H1.
  admit_ensured H1 resolve_plan_spec.
  intros plan h2 H2. unfold fresh_admission_ids.
  admit_quiet H2.
  intros ids h3 [H3 _].
  admit_ensured H3 input_bindings_spec.
  intros prepared h4 H4. apply then_value. intros root _.
  admit_ensured H4 provider_spec.
  intros provider h5 [[[Hf (Hplanned & Hcarries & [_ Hnone])] Hinputs] Hran].
  apply submit_prepared_wp.
  - apply observed_of_plan; try done; [by apply present_inputs_planned | ].
    split; [right; exact Hinputs | ]. intros id. cbn. by rewrite Hnone.
  - intros. apply quiet_input_ownership.
  - unfold discard_prepared_input_set. quiet_auto.
Qed.

Lemma admit_with_credentials_wp request digest credentials h :
  not_found (run_principal request) (run_client_request_id request) digest h ->
  allowed (admit_new_job_with_credentials rt request digest credentials) h.
Proof.
  intros Hfound. unfold admit_new_job_with_credentials. cbv zeta.
  apply then_value. intros _ _. apply then_value. intros [] Hpolicy%policy_bounds.
  admit_after Hfound before_admission_wp. intros _ h1 H1.
  admit_ensured H1 resolve_plan_spec.
  intros plan h2 H2. unfold fresh_admission_ids.
  admit_quiet H2.
  intros ids h3 [H3 _].
  admit_ensured H3 credential_bindings_spec.
  intros prepared h4 H4.
  admit_ensured H4 provider_spec.
  intros provider h5 [[[Hf (Hplanned & Hcarries & [Hnone _])] Hset] Hran].
  apply submit_prepared_wp.
  - apply observed_of_plan; try done. split; [by left | ]. intros id [= <-]. exact Hset.
  - intros. apply quiet_credential_ownership.
  - unfold discard_prepared_credential_set. quiet_auto.
Qed.

(** ** Proposals *)

Lemma resolved_request proposal :
  run_principal (resolve_proposal rt proposal) = prop_principal proposal
  /\ run_client_request_id (resolve_proposal rt proposal) = prop_client_request_id proposal.
Proof. done. Qed.

(** What is found under the lock, and not there. *)
Lemma locked_lookup {A} principal client_request_id digest compatible
    (f : option RuntimeJobRecord -> eff A) h :
  (forall job h', allowed (f (Some job)) h') ->
  (forall h', not_found principal client_request_id digest h' -> allowed (f None) h') ->
  allowed (try LockLifecycle ;;
           existing ← registry (FindIdempotentJob principal client_request_id digest compatible);
           f existing) h.
Proof.
  intros Hsome Hnone. ev_call. intros [[] | e]; [ | done]. ev_call.
  intros [[job | ] | e]; [apply Hsome | | done]. apply Hnone.
  exists (h ++ [Event LockLifecycle (Ok tt)]),
    [Event (Registry (FindIdempotentJob principal client_request_id digest compatible)) (Ok None)].
  split_and!; [done | in_history | ]. exists compatible. apply event_here.
Qed.

Lemma find_or_admit_wp proposal digest compatible admission h :
  (forall h', not_found (prop_principal proposal) (prop_client_request_id proposal) digest h' ->
     allowed (admission (resolve_proposal rt proposal)) h') ->
  allowed (find_or_admit rt proposal digest compatible admission) h.
Proof.
  intros Hadmit. unfold find_or_admit. apply (locked_lookup (A := string * bool)); [done | ].
  intros h' Hfound. cbv zeta. apply then_value. intros _ _.
  admit_last. by apply Hadmit.
Qed.

Lemma observe_admitted_wp job_id proposal h : allowed (observe_admitted_job rt job_id proposal) h.
Proof.
  unfold observe_admitted_job, catch. apply wp_bind. eapply wp_mono; [ | apply observe_job_wp].
  done.
Qed.

Lemma run_proposal_wp proposal h : allowed (run_job_proposal rt proposal) h.
Proof.
  unfold run_job_proposal. cbv zeta. apply then_value. intros _ _.
  eapply (then_allowed (fun _ => True)); [done | apply find_or_admit_wp | apply _ | ].
  - intros h' Hfound. apply then_value. intros [] Hpolicy%policy_bounds. by apply admit_new_job_wp.
  - intros [job_id created] h1 _. eapply (then_allowed (fun _ => True)); [done | | apply _ | ].
    + destruct created; [apply newly_admitted_wp | done].
    + intros _ h2 _. apply observe_admitted_wp.
Qed.

Lemma run_inputs_wp proposal inputs h : allowed (run_job_proposal_with_inputs rt proposal inputs) h.
Proof.
  unfold run_job_proposal_with_inputs. do 2 (apply then_value; intros ? _). cbv zeta.
  eapply (then_allowed (fun _ => True)); [done | apply find_or_admit_wp; intros; by apply admit_with_inputs_wp | apply _ | ].
  intros [job_id created] h1 _. apply observe_admitted_wp.
Qed.

Lemma run_credentials_wp proposal credentials h :
  allowed (run_job_proposal_with_credentials rt proposal credentials) h.
Proof.
  unfold run_job_proposal_with_credentials. do 3 (apply then_value; intros ? _). cbv zeta.
  eapply (then_allowed (fun _ => True));
    [done | apply find_or_admit_wp; intros; by apply admit_with_credentials_wp | apply _ | ].
  intros [job_id created] h1 _. apply observe_admitted_wp.
Qed.

(** ** Releases *)

Lemma quiet_projection job_id binding : quiet (runtime_release_projection job_id binding).
Proof.
  assert (Hjson : forall path, quiet (release_receipt_json path)).
  { intros path. unfold release_receipt_json, perform. quiet_auto. }
  unfold runtime_release_projection, inspect_runtime_release_receipt, perform. cbv zeta.
  repeat first [apply Hjson | progress quiet_auto].
Qed.

Lemma quiet_replayed missing job request : quiet (replayed_release missing job request).
Proof. unfold replayed_release. repeat first [apply quiet_projection | progress quiet_auto]. Qed.

Lemma admit_release_wp request proposal receipt_path h :
  validate_release_proposal request proposal receipt_path = Ok tt ->
  not_found (rrq_principal request) (rrq_client_request_id request)
    (runtime_release_request_identity_digest request) h ->
  allowed (admit_release rt request proposal (release_binding request receipt_path)) h.
Proof.
  intros Hvalid Hfound.
  assert (prop_client_request_id proposal = rrq_client_request_id request
    /\ prop_principal proposal = rrq_principal request) as [Hid Hprincipal].
  { unfold validate_release_proposal in Hvalid.
    destruct (validate_runtime_release_request request); [ | discriminate Hvalid].
    destruct (validate_run_proposal_structure proposal); [ | discriminate Hvalid].
    destruct (String.eqb (prop_client_request_id proposal) _) eqn:H1; [ | discriminate Hvalid].
    destruct (String.eqb (prop_principal proposal) _) eqn:H2; [ | discriminate Hvalid].
    by apply String.eqb_eq in H1, H2. }
  unfold admit_release. cbv zeta. apply then_value. intros _ _. apply then_value.
  intros [] Hpolicy%policy_bounds.
  admit_after Hfound before_admission_wp. intros _ h1 H1.
  admit_ensured H1 resolve_plan_spec. intros plan h2 H2.
  admit_ensured H2 provider_spec. intros provider h3 [[Hf (Hplanned & Hcarries & Hnone)] Hran].
  eapply (then_allowed (fun _ => True)); [done | | apply _ | ].
  - apply submit_wp. rewrite <- Hid.
    apply (observed_of_plan (resolve_proposal rt proposal)); try done; [by apply no_materials | ].
    destruct (resolved_request proposal) as [-> ->]. by rewrite Hid, Hprincipal.
  - intros outcome h4 _. apply quiet_allowed. repeat first [apply quiet_projection | progress quiet_auto].
Qed.

Lemma admit_release_effect_wp request proposal receipt_path h :
  allowed (admit_runtime_release_effect rt request proposal receipt_path) h.
Proof.
  unfold admit_runtime_release_effect. apply then_value. intros [] Hvalid. unfold find_release.
  apply (locked_lookup (A := RuntimeReleaseAdmission)).
  - intros job h'. apply quiet_allowed, quiet_replayed.
  - intros h' Hfound. by apply admit_release_wp.
Qed.
End admitting.
