(* ===== verification/CommitEvidence.v ===== *)
(** * What the engine does rests on evidence

    Every program by which the engine reconciles and dispatches satisfies
    [engine_ok], and what follows of its terminal commits, its dispatches, the
    processes it starts, the identities it binds and the bundles it records. *)

From S2P Require Import Prelude Text Errors Types Supervisor Platform TestPlatform Validation.
From S2P Require Import Submit Store Transaction Projection Lifecycle Admission Recovery Registry.
From S2P Require Import Scenario SupervisorSpec Query Effects Utf8 Engine Linux Launch Inputs.
From S2P Require Import Binding Output Evidence Observation Reconciliation Workspace Bundle.
From S2P Require Import Dispatching Passes Requests Planning Admitting Silence Observed TestWorld.
From S2P Require Import Worlds ReconciliationSpec Justified StartSpec DispatchSpec PlanSpec.
From S2P Require Import EngineSpec.

#[local] Open Scope Z_scope.

Section evidence.
Context `{P : Platform, C : EngineCodec, WC : WorkspaceCodec, IC : IdentityCodec}.
Context (rt : Runtime).

(** The programs that admit, reconcile, dispatch and cancel. *)
Inductive reconciles : forall {A}, prog A -> Prop :=
  | ReconcileAttempt attempt_id : reconciles (reconcile_attempt rt attempt_id)
  | ReconcileOrphaned attempt : reconciles (reconcile_orphaned_attempt rt attempt)
  | ReconcileOrphans : reconciles (reconcile_recoverable_orphans rt)
  | ReconcileAll : reconciles (reconcile_all rt)
  | ReconcileWorkspace workspace_id : reconciles (reconcile_workspace rt workspace_id)
  | ReconcileMaintenance limit : reconciles (reconcile_maintenance_batch rt limit)
  | ReconcileJob job_id : reconciles (reconcile_job rt job_id)
  | ObserveJob request : reconciles (observe_job rt request)
  | EnsureDispatched attempt : reconciles (ensure_attempt_dispatched rt attempt)
  | EnsureNewlyAdmitted job_id : reconciles (ensure_newly_admitted_job_dispatched rt job_id)
  | CancelJob request : reconciles (cancel_job rt request)
  | RunProposal proposal : reconciles (run_job_proposal rt proposal)
  | RunWithInputs proposal inputs : reconciles (run_job_proposal_with_inputs rt proposal inputs)
  | RunWithCredentials proposal credentials :
      reconciles (run_job_proposal_with_credentials rt proposal credentials)
  | AdmitRelease request proposal receipt_path :
      reconciles (admit_runtime_release_effect rt request proposal receipt_path).

Lemma reconciles_wp {A} (p : prog A) h : reconciles p -> wp (engine_ok rt) p h (fun _ _ => True).
Proof.
  intros [attempt_id | attempt | | | workspace_id | limit | job_id | request
    | attempt | job_id | request | proposal | proposal inputs | proposal credentials
    | request proposal receipt_path].
  - apply reconcile_attempt_wp.
  - eapply wp_ok_mono; [apply orphan_engine_ok | apply orphaned_attempt_wp].
  - apply recoverable_orphans_wp.
  - unfold reconcile_all. apply wp_eff_bind. eapply wp_mono; [ | apply recoverable_orphans_wp].
    intros [report | e] h1 _ _; [ | done]. unfold registry, try. ev_quiet.
    intros [attempts | e] h2; [apply candidates_wp | done].
  - apply workspace_wp.
  - unfold reconcile_maintenance_batch, registry, try. do 2 (ev_quiet; intros [? | ?] ?; [ | done]).
    apply candidates_wp.
  - apply job_wp.
  - apply observe_job_wp.
  - apply ensure_dispatched_wp.
  - apply newly_admitted_wp.
  - apply cancel_job_wp.
  - apply run_proposal_wp.
  - apply run_inputs_wp.
  - apply run_credentials_wp.
  - apply admit_release_effect_wp.
Qed.

(** Every call of a run was allowed when it was made. *)
Lemma reconciles_calls {A} (p : prog A) d h o d' h1 R (c : call R) r h2 :
  reconciles p -> runs p d h o d' -> h = h1 ++ Event c r :: h2 -> engine_ok rt R c h1.
Proof.
  intros Hp Hrun. destruct (wp_runs (engine_ok rt) _ _ [] d h o d' (reconciles_wp p [] Hp) Hrun) as [Hok _].
  apply Hok.
Qed.






(** C15: a unit is stopped for a recorded cancel.  Before [systemctl stop] is run
    for a unit, the cancel of a Job was answered by the Registry, the unit is
    that of the latest Attempt of the Job, and its Runner has been told by the
    file it polls: the bundle then holds the cancel notice. *)
Theorem stop_follows_recorded_cancel {A} (p : prog A) d h o d' h1 unit_name r h2 :
  reconciles p -> runs p d h o d' ->
  h = h1 ++ Event (StopUnit unit_name) r :: h2 -> stop_recorded unit_name h1.
Proof. exact (reconciles_calls p d h o d' h1 _ (StopUnit unit_name) r h2). Qed.

(** a recorded bundle is on disk.  Before the engine records the digest of
    a bundle, it has read back from the published directory the manifest of that
    digest, the committed plan and the request; the manifest names the digests
    of the other two and of the launch token. *)
Theorem recorded_bundle_is_on_disk {A} (p : prog A) d h o d' h1 attempt_id version digest at_ms r h2 :
  reconciles p -> runs p d h o d' ->
  h = h1 ++ Event (Registry (MarkBundleReady attempt_id version digest at_ms)) r :: h2 ->
  bundle_verified attempt_id version digest h1.
Proof.
  exact (reconciles_calls p d h o d' h1 _ (Registry (MarkBundleReady attempt_id version digest at_ms)) r h2).
Qed.
End evidence.

(** ** Witnesses *)

(** Attempt 1 was running; its unit and its process are gone without a result. *)
Lemma lost_run_commits :
  committed (play gone_world (reconcile_attempt bare_runtime "attempt-1") running_db)
  = Some (false, "attempt-1"%string, AttemptState.Lost).
Proof. vm_compute. reflexivity. Qed.


(** The launches of [Worlds]. *)
Lemma launch_reconciles : reconciles launch_runtime launch.
Proof. apply EnsureDispatched. Qed.

Lemma committed_reconciles : reconciles launch_runtime committed_launch.
Proof. apply EnsureDispatched. Qed.




Lemma recorded_bundle_is_on_disk_witness : exists h1 version digest,
  bundle_verified "attempt-1" version digest h1.
Proof.
  destruct (launch_reaches (BundleRecorded "attempt-1")) as (h & o & d' & h1 & e & h2 & Hrun & Heq & He);
    [vm_compute; reflexivity | ].
  destruct (milestone_inv _ _ He) as (version & digest & t & r & ->). exists h1, version, digest.
  exact (recorded_bundle_is_on_disk launch_runtime _ _ _ _ _ _ _ _ _ _ _ _ launch_reconciles Hrun Heq).
Defined.


Lemma stop_follows_recorded_cancel_witness : exists h1,
  stop_recorded "ordivon-attempt-1.service" h1.
Proof.
  destruct cancel_stops as (h & o & d' & h1 & unit_name & r & h2 & Hrun & Heq & Hunit).
  exists h1. rewrite <- Hunit.
  exact (stop_follows_recorded_cancel bare_runtime _ _ _ _ _ _ _ _ _ (CancelJob _ cancel_request) Hrun Heq).
Defined.
