(* ===== verification/Concurrency.v ===== *)
(** * Callers that interleave

    Threads of one Runtime process, its processes before and after a crash, and
    other processes on the same store all run programs of the engine against one
    database.  A configuration is the callers and the database; a step is a call
    of one of them, with what the outside answers.  A caller that is killed is
    one that never steps again; a later process adds callers. *)

From S2P Require Import Prelude Text Errors Types Supervisor Platform TestPlatform Validation.
From S2P Require Import Submit Store Transaction Projection Lifecycle Admission Preservation.
From S2P Require Import Recovery AdminRepair Registry StoreInvariant Scenario History Query.
From S2P Require Import Effects Engine Workspace Dispatching Requests TestWorld Worlds Justified.
From S2P Require Import CommitEvidence.

#[local] Open Scope Z_scope.

(** ** Unit names *)

(** The unit of an Attempt. *)
Definition unit_of (attempt_id : string) : string := "ordivon-" +:+ attempt_id +:+ ".service".

Lemma append_cancel_r (s1 s2 t : string) : s1 +:+ t = s2 +:+ t -> s1 = s2.
Proof.
  intros H. apply (f_equal String.list_ascii_of_string) in H.
  assert (Happ : forall a b, String.list_ascii_of_string (a +:+ b)
            = String.list_ascii_of_string a ++ String.list_ascii_of_string b).
  { intros a b. induction a as [ | x a IH]; simpl; [done | by rewrite IH]. }
  rewrite !Happ in H. apply app_inv_tail in H.
  apply (f_equal String.string_of_list_ascii) in H.
  by rewrite !String.string_of_list_ascii_of_string in H.
Qed.

#[export] Instance unit_of_inj : Inj (=) (=) unit_of.
Proof. intros k1 k2 H. unfold unit_of in H. simpl in H. injection H as H. by eapply append_cancel_r. Qed.

Definition units_named (d : Db) : Prop :=
  forall k row, db_attempts d !! k = Some row -> att_unit_name (row_attempt row) = unit_of k.

Definition units_rel (d d' : Db) : Prop := units_named d -> units_named d'.

#[export] Instance units_rel_preorder : PreOrder units_rel.
Proof. split; [by intros d ? | ]. intros d1 d2 d3 H1 H2 H. by apply H2, H1. Qed.

#[export] Instance units_rel_frame : Frame units_rel.
Proof. split; [apply _ | ]. intros d d' _ Ha _ H k row. rewrite Ha. apply H. Qed.

Section units.
Context `{P : Platform}.

Lemma tx_units_update_attempts ctx k w s :
  (forall row, att_unit_name (row_attempt (s row)) = att_unit_name (row_attempt row)) ->
  tx_rel units_rel (update_attempts ctx k w s).
Proof.
  intros Hs. apply tx_rel_update_attempts; [apply _ | ]. intros d row Hk _ _ Hd k' r. simpl.
  rewrite lookup_insert_Some. intros [[<- <-] | [_ Hr]]; [rewrite Hs | ]; by apply Hd.
Qed.

Lemma tx_units_update_jobs ctx k w s : tx_rel units_rel (update_jobs ctx k w s).
Proof. apply tx_rel_update_jobs; [apply _ | ]. by intros d job _ _ _ Hd. Qed.

Lemma tx_units_append j a ty o ps ns rc dt at_ms :
  tx_rel units_rel (append_event j a ty o ps ns rc dt at_ms).
Proof. intros d u d' H Hd. apply append_event_inv in H as ->. exact Hd. Qed.

Lemma tx_units_insert_attempt a :
  att_unit_name a = unit_of (att_attempt_id a) -> tx_rel units_rel (insert_attempt a).
Proof.
  intros Ha d u d' H Hd. unfold insert_attempt in H. apply insert_unless_inv in H as [_ ->].
  intros k r. simpl. rewrite lookup_insert_Some. intros [[<- <-] | [_ Hr]]; [done | by apply Hd].
Qed.

Lemma tx_units_insert_job job : tx_rel units_rel (insert_job job).
Proof. intros d u d' H Hd. unfold insert_job in H. apply insert_unless_inv in H as [_ ->]. exact Hd. Qed.

Hint Resolve tx_units_update_jobs tx_units_append tx_units_insert_job : ordivon.
Hint Extern 1 (tx_rel units_rel (insert_attempt _)) =>
  apply tx_units_insert_attempt; reflexivity : ordivon.
Hint Extern 1 (tx_rel units_rel (update_attempts _ _ _ _)) =>
  apply tx_units_update_attempts; by intros row : ordivon.

Lemma registry_body_units d d' : registry_body d d' -> units_rel d d'.
Proof. intros Hb. destruct Hb; try destruct operation; registry_body_auto. Qed.

Lemma reachable_units d : registry_reachable d -> units_named d.
Proof.
  apply reachable_invariant.
  - intros k row. simpl. by rewrite lookup_empty.
  - intros d1 d2 H Hb. by apply (registry_body_units d1 d2).
Qed.

(** ** Dispatches are never forgotten *)

Lemma mark_dispatch_issued_counts k version at_ms d f d' :
  mark_dispatch_issued_tx k version at_ms d = Ok (f, d') ->
  (exists ctx, f = commit_or_fail ctx (query (load_attempt k)))
  /\ forall k', dispatches k' d' = (dispatches k' d + if String.eqb k k' then 1 else 0)%nat.
Proof.
  intros H. unfold mark_dispatch_issued_tx in H. inv_update. bool_props. simplify_eq.
  split; [by eexists | ]. intros k'. unfold dispatches. simpl.
  rewrite List.filter_app, length_app. f_equal. simpl. unfold is_dispatch. simpl.
  destruct (String.eqb_spec k k') as [-> | Hne].
  - by rewrite bool_decide_eq_true_2.
  - by rewrite bool_decide_eq_false_2 by congruence.
Qed.

Definition keeps_dispatches (d d' : Db) : Prop :=
  forall k, (dispatches k d <= dispatches k d')%nat.

#[export] Instance keeps_dispatches_preorder : PreOrder keeps_dispatches.
Proof. split; [by intros d k | ]. intros d1 d2 d3 H1 H2 k. etrans; [apply H1 | apply H2]. Qed.

Lemma run_keeps_dispatches d d' : rtc registry_step d d' -> keeps_dispatches d d'.
Proof.
  induction 1 as [ | d1 d2 d3 Hs _ IH]; [done | ]. etrans; [ | exact IH].
  apply (step_rel keeps_dispatches); [ | done]. intros e1 e2 Hb k.
  destruct (registry_body_dispatch _ _ Hb) as [(k' & v & t & f & H) | Hrel].
  - rewrite (proj2 (mark_dispatch_issued_counts _ _ _ _ _ _ H)). lia.
  - by rewrite (proj1 (Hrel k)).
Qed.

(** A dispatch that is answered with a record was committed. *)
Lemma mark_dispatch_issued_ok io k version at_ms d a d' :
  mark_dispatch_issued io k version at_ms d = (Ok a, d') ->
  (exists row, db_attempts d' !! k = Some row /\ row_attempt row = a)
  /\ forall k', dispatches k' d' = (dispatches k' d + if String.eqb k k' then 1 else 0)%nat.
Proof.
  intros H. unfold mark_dispatch_issued, immediate, with_tx in H.
  destruct (io_open io); [done | ]. destruct (io_begin io); [done | ].
  destruct (mark_dispatch_issued_tx k version at_ms d) as [[f d1] | e] eqn:Hb; [ | done].
  destruct (mark_dispatch_issued_counts _ _ _ _ _ _ Hb) as [[ctx ->] Hcount].
  simpl in H. destruct (io_commit io); try done. injection H as Hq <-. split; [ | done].
  unfold query in Hq. destruct (load_attempt k d1) as [[a' d2] | e] eqn:Hl; [ | done].
  injection Hq as ->. apply load_attempt_inv in Hl as (row & ? & ? & _). eauto.
Qed.
End units.

(** ** Counting calls *)

(** A dispatch of Attempt [k] that was answered with a record. *)
Definition issued (k : string) (e : event) : bool :=
  match e with
  | Event c r =>
      match c in call R return R -> bool with
      | Registry op =>
          match op in registry_op R return RuntimeResult R -> bool with
          | MarkDispatchIssued id _ _ => fun r =>
              match r with Ok _ => String.eqb id k | Err _ => false end
          | _ => fun _ => false
          end
      | _ => fun _ => false
      end r
  end.

(** The start of a process of Attempt [k], whatever it was answered. *)
Definition started (k : string) (e : event) : bool :=
  match e with
  | Event c _ =>
      match c with
      | SystemdRun unit_name _ => String.eqb unit_name (unit_of k)
      | SpawnWindowsNative spec => String.eqb (wns_attempt_id spec) k
      | _ => false
      end
  end.

Definition count (f : event -> bool) (h : history) : nat := length (List.filter f h).

Lemma count_app f h1 h2 : count f (h1 ++ h2) = (count f h1 + count f h2)%nat.
Proof. unfold count. by rewrite List.filter_app, length_app. Qed.

Lemma count_one f e : count f [e] = if f e then 1%nat else 0%nat.
Proof. unfold count. simpl. by destruct (f e). Qed.

Lemma no_start_count k h : no_start h -> count (started k) h = 0%nat.
Proof.
  induction 1 as [ | [R c r] h Hc _ IH]; [done | ].
  rewrite (count_app _ [Event c r] h), count_one, IH. by destruct c.
Qed.

(** ** Callers *)

Section concurrency.
Context `{P : Platform, C : EngineCodec, WC : WorkspaceCodec, IC : IdentityCodec}.
Context (rt : Runtime).

(** A caller: the calls it has made and what it still does. *)
Inductive caller : Type :=
  | Caller {A} (made : history) (rest : prog A).

Definition past (c : caller) : history := match c with Caller h _ => h end.

Definition configuration : Type := list caller * Db.

Inductive concurrent_step : configuration -> configuration -> Prop :=
  (** a caller makes its next call *)
  | Calls before after A R h (c : call R) (k : R -> prog A) r d d' :
      answers c d r d' ->
      concurrent_step (before ++ Caller h (Vis c k) :: after, d)
        (before ++ Caller (h ++ [Event c r]) (k r) :: after, d')
  (** a thread or a process enters the engine *)
  | Enters A (p : prog A) callers d :
      reconciles rt p -> concurrent_step (callers, d) (Caller [] p :: callers, d)
  (** an operation of the Registry that no program of the engine issues *)
  | Elsewhere callers d d' :
      registry_step d d' -> concurrent_step (callers, d) (callers, d').

(** From the empty store. *)
Definition concurrent_reachable (callers : list caller) (d : Db) : Prop :=
  rtc concurrent_step ([], empty_db) (callers, d).

Definition total (f : event -> bool) (callers : list caller) : nat :=
  sum_list_with (fun c => count f (past c)) callers.

(** ** One caller starts no more than it dispatched *)

(** Every call was allowed when it was made. *)
Inductive calls_ok : history -> Prop :=
  | NoCalls : calls_ok []
  | OneMore h R (c : call R) r : calls_ok h -> engine_ok rt R c h -> calls_ok (h ++ [Event c r]).

Lemma calls_ok_prefix h1 h2 : calls_ok (h1 ++ h2) -> calls_ok h1.
Proof.
  induction h2 as [ | e h2 IH] using rev_ind; [by rewrite app_nil_r | ].
  rewrite app_assoc. intros H. apply IH. inversion H as [Heq | h R c r Hh Hc Heq].
  - destruct (h1 ++ h2); discriminate.
  - by apply app_inj_tail in Heq as [<- _].
Qed.

(** The record of an answered dispatch is of its Attempt. *)
Definition named (e : event) : Prop :=
  match e with
  | Event c r =>
      match c in call R return R -> Prop with
      | Registry op =>
          match op in registry_op R return RuntimeResult R -> Prop with
          | MarkDispatchIssued id _ _ => fun r =>
              match r with
              | Ok a => att_attempt_id a = id /\ att_unit_name a = unit_of id
              | Err _ => True
              end
          | _ => fun _ => True
          end
      | _ => fun _ => True
      end r
  end.

Lemma started_after_issue k R (c : call R) r h :
  engine_ok rt R c h -> Forall named h -> started k (Event c r) = true ->
  exists before e after, h = before ++ e :: after /\ issued k e = true /\ no_start (e :: after).
Proof.
  intros Hok Hnamed Hs.
  assert (exists starting, just_issued starting h /\
    (att_unit_name starting = unit_of k \/ att_attempt_id starting = k)) as (starting & Hj & Hk).
  { destruct c; try discriminate Hs; simpl in Hs; apply String.eqb_eq in Hs.
    - destruct Hok as (starting & -> & Hj & _). eauto.
    - destruct Hok as (starting & Hj & Hid & _). exists starting. split; [done | right; congruence]. }
  destruct Hj as (before & id & version & at_ms & after & -> & Hn).
  apply Forall_app in Hnamed as [_ Hnamed]. apply Forall_cons in Hnamed as [[Hid Hunit] _].
  eexists before, _, after. split; [done | ]. split; [ | by constructor].
  simpl. apply String.eqb_eq. destruct Hk as [Hk | Hk]; [ | congruence].
  apply (inj unit_of). congruence.
Qed.

Lemma started_issued k h :
  calls_ok h -> Forall named h -> (count (started k) h <= count (issued k) h)%nat.
Proof.
  remember (length h) as n eqn:Hlen. revert h Hlen.
  induction n as [n IH] using lt_wf_ind. intros h -> Hok Hnamed.
  destruct Hok as [ | h R c r Hok Hc]; [done | ].
  apply Forall_app in Hnamed as [Hnamed _]. rewrite !count_app, !count_one.
  destruct (started k (Event c r)) eqn:Hs.
  - destruct (started_after_issue k R c r h Hc Hnamed Hs) as (before & e & after & -> & Hi & Hn).
    assert (Hbefore : (count (started k) before <= count (issued k) before)%nat).
    { apply (IH (length before)); [rewrite !length_app; simpl; lia | done | by eapply calls_ok_prefix | ].
      by apply Forall_app in Hnamed as [? _]. }
    rewrite (count_app (started k)), (no_start_count k (e :: after)) by done.
    change (e :: after) with ([e] ++ after). rewrite !(count_app (issued k)), count_one, Hi. lia.
  - assert (count (started k) h <= count (issued k) h)%nat; [ | lia].
    apply (IH (length h)); [rewrite length_app; simpl; lia | done | done | done].
Qed.

(** ** Answers and the database *)

Lemma answers_named {R} (c : call R) d r d' :
  registry_reachable d -> answers c d r d' -> named (Event c r).
Proof.
  intros Hr Ha. pose proof (answers_steps _ _ _ _ Ha) as Hsteps.
  assert (Hr' : registry_reachable d') by (unfold registry_reachable in *; by etrans).
  destruct c; try exact I. match goal with op : registry_op _ |- _ => destruct op end; try exact I.
  destruct r as [a | e]; [ | exact I].
  destruct Ha as (io & d0 & d1 & _ & _ & Happ). simpl in Happ.
  destruct (mark_dispatch_issued_ok _ _ _ _ _ _ _ Happ) as [(row & Hrow & <-) _]. split.
  - by destruct (wf_attempts _ (reachable_wf _ Hr') _ _ Hrow).
  - by apply (reachable_units _ Hr').
Qed.

Lemma answers_counts {R} (c : call R) d r d' k :
  answers c d r d' ->
  (dispatches k d + (if issued k (Event c r) then 1 else 0) <= dispatches k d')%nat.
Proof.
  intros Ha. destruct (issued k (Event c r)) eqn:Hi.
  - destruct c; try discriminate Hi. match goal with op : registry_op _ |- _ => destruct op end; try discriminate Hi.
    destruct r as [a | e]; [ | discriminate Hi]. simpl in Hi.
    destruct Ha as (io & d0 & d1 & H0 & H1 & Happ). simpl in Happ.
    destruct (mark_dispatch_issued_ok _ _ _ _ _ _ _ Happ) as [_ Hcount]. rewrite Hcount, Hi.
    pose proof (run_keeps_dispatches _ _ H0 k). pose proof (run_keeps_dispatches _ _ H1 k). lia.
  - pose proof (run_keeps_dispatches _ _ (answers_steps _ _ _ _ Ha) k). lia.
Qed.

(** ** All callers *)

Definition caller_ok (c : caller) : Prop :=
  match c with
  | Caller h p => calls_ok h /\ Forall named h /\ wp (engine_ok rt) p h (fun _ _ => True)
  end.

Definition configuration_ok (s : configuration) : Prop :=
  registry_reachable s.2 /\ Forall caller_ok s.1
  /\ forall k, (total (issued k) s.1 <= dispatches k s.2)%nat.

Lemma total_app f c1 c2 : total f (c1 ++ c2) = (total f c1 + total f c2)%nat.
Proof. apply sum_list_with_app. Qed.

Lemma total_cons f A h (p : prog A) callers :
  total f (Caller h p :: callers) = (count f h + total f callers)%nat.
Proof. done. Qed.

Lemma concurrent_step_ok s s' : concurrent_step s s' -> configuration_ok s -> configuration_ok s'.
Proof.
  intros [before after A R h c k r d d' Ha | A p callers d Hp | callers d d' Hs] (Hr & Hok & Hcount);
    unfold configuration_ok in *; simpl in *.
  - pose proof (answers_steps _ _ _ _ Ha) as Hsteps.
    apply Forall_app in Hok as [Hb Hok]. apply Forall_cons in Hok as [(Hcalls & Hnamed & Hwp) Haf].
    destruct Hwp as [Hc Hk]. split; [unfold registry_reachable in *; by etrans | ]. split.
    + apply Forall_app. split; [done | ]. constructor; [ | done]. simpl.
      split; [by constructor | ]. split; [ | apply Hk].
      apply Forall_app. split; [done | ]. constructor; [by eapply answers_named | constructor].
    + intros k'. pose proof (answers_counts c d r d' k' Ha) as Hi. specialize (Hcount k').
      rewrite total_app, total_cons in *. rewrite count_app, count_one. lia.
  - split; [done | ]. split; [ | done]. constructor; [ | done].
    split; [constructor | ]. split; [constructor | by apply reconciles_wp].
  - split; [by eapply rtc_r | ]. split; [done | ]. intros k. etrans; [apply Hcount | ].
    apply run_keeps_dispatches. by apply rtc_once.
Qed.

Lemma concurrent_reachable_ok callers d : concurrent_reachable callers d -> configuration_ok (callers, d).
Proof.
  intros H. unfold concurrent_reachable in H.
  assert (H0 : configuration_ok ([], empty_db)).
  { split; [constructor | ]. split; [constructor | ]. intros k. simpl. apply Nat.le_0_l. }
  revert H0. induction H as [ | s1 s2 s3 Hs _ IH]; [done | ]. intros H1.
  by apply IH, (concurrent_step_ok s1).
Qed.

(** A whole run of one caller, and Registry operations of others. *)
Lemma elsewhere_steps callers d d' :
  rtc registry_step d d' -> rtc concurrent_step (callers, d) (callers, d').
Proof. induction 1 as [ | d1 d2 d3 Hs _ IH]; [done | ]. eapply rtc_l; [by apply Elsewhere | exact IH]. Qed.

Lemma runs_concurrently {A} (p : prog A) callers : forall made d h a d',
  runs p d h (Some a) d' ->
  rtc concurrent_step (Caller made p :: callers, d) (Caller (made ++ h) (Ret a) :: callers, d').
Proof.
  induction p as [b | R c k IH]; intros made d h a d' [(_ & Ho & _) | Hrun]; try done.
  - destruct Hrun as (-> & [= <-] & Hs). rewrite app_nil_r. by apply elsewhere_steps.
  - destruct Hrun as (r & d1 & h1 & -> & Ha & Hk). eapply rtc_l; [by apply (Calls [] callers) | ].
    change (Event c r :: h1) with ([Event c r] ++ h1). rewrite app_assoc. by apply IH.
Qed.

(** C3: however callers interleave and wherever they are killed, at most one
    process is ever started for an Attempt.  The callers are threads, processes
    and restarted processes that run the programs of the engine that admit,
    dispatch, reconcile, observe and cancel on one store; the answers of the file system, of systemd and of
    the Windows launcher are arbitrary; other Registry operations come in
    between.  Among all calls of all callers, the starts of a unit
    [ordivon-<attempt>.service] and of a native launcher for the Attempt together
    are no more than the committed dispatches of the Attempt, and those are at
    most one. *)
Theorem process_started_at_most_once callers d k :
  concurrent_reachable callers d ->
  (total (started k) callers <= dispatches k d)%nat /\ (dispatches k d <= 1)%nat.
Proof.
  intros H. destruct (concurrent_reachable_ok _ _ H) as (Hr & Hok & Hcount). simpl in *.
  split; [ | by apply (reachable_dispatch_inv d Hr k)]. etrans; [ | apply Hcount].
  clear Hcount Hr H. induction Hok as [ | [A h p] callers (Hcalls & Hnamed & _) _ IH]; [done | ].
  rewrite !total_cons. pose proof (started_issued k h Hcalls Hnamed). lia.
Qed.
End concurrency.

(** ** Witness *)

(** Two callers hold the record of the Attempt as it was admitted, and both
    dispatch it. *)
Definition second_run : RuntimeResult unit * history * Db :=
  play launch_world launch (snd launch_run).

Lemma both_callers_started :
  (count (started "attempt-1") (snd (fst second_run))
   + count (started "attempt-1") (snd (fst launch_run)))%nat = 1%nat
  /\ fst (fst second_run) = Ok tt.
Proof. vm_compute. done. Qed.

Lemma process_started_at_most_once_witness : exists callers d,
  length callers = 2%nat /\ total (started "attempt-1") callers = 1%nat
  /\ dispatches "attempt-1" d = 1%nat.
Proof.
  pose proof both_callers_started as [Hcount _]. unfold second_run in Hcount.
  destruct launch_run as [[r1 h1] d1] eqn:Hrun1. cbn [fst snd] in Hcount.
  destruct (play launch_world launch d1) as [[r2 h2] d2] eqn:Hrun2. cbn [fst snd] in Hcount.
  apply play_runs in Hrun1, Hrun2.
  assert (Hreach : concurrent_reachable launch_runtime [Caller h2 (Ret r2); Caller h1 (Ret r1)] d2).
  { unfold concurrent_reachable.
    transitivity (([], submitted_db) : configuration); [apply elsewhere_steps, submitted_reachable | ].
    eapply rtc_l; [apply (Enters _ _ launch), launch_reconciles | ].
    etrans; [by apply (runs_concurrently launch_runtime launch [] []) | ]. simpl.
    eapply rtc_l; [apply (Enters _ _ launch), launch_reconciles | ].
    by apply (runs_concurrently launch_runtime launch _ []). }
  assert (Htotal : total (started "attempt-1") [Caller h2 (Ret r2); Caller h1 (Ret r1)] = 1%nat).
  { rewrite !total_cons. rewrite Nat.add_0_r. exact Hcount. }
  exists [Caller h2 (Ret r2); Caller h1 (Ret r1)], d2. split; [done | ]. split; [exact Htotal | ].
  destruct (process_started_at_most_once launch_runtime _ _ "attempt-1" Hreach) as [H1 H2]. lia.
Defined.
