(* ===== verification/Drift.v ===== *)
(** * Two races

    A provider that changes while an Attempt runs, and a unit that is stopped
    while its processes remain. *)

From S2P Require Import Prelude Text Errors Types Supervisor Platform TestPlatform Validation.
From S2P Require Import Submit Store Transaction Projection Lifecycle Admission Recovery Registry.
From S2P Require Import Scenario Query Effects Utf8 Engine Linux Launch Inputs Binding Output.
From S2P Require Import Evidence Observation Reconciliation Bundle Dispatching Passes TestWorld.
From S2P Require Import Worlds.

(** ** A precondition that drifts after dispatch

    [ensure_attempt_dispatched] verifies the committed preconditions on a record
    of the Attempt that was read earlier, and fails the Attempt when one of them
    has drifted.  [commit_control_terminal] reads the Attempt again, but refuses
    only a terminal one.  If another caller has dispatched the Attempt meanwhile
    and the drift is later than its start, the running Attempt is failed. *)

#[local] Open Scope Z_scope.

(** A request that commits the image of the Runner. *)
Definition provider_request : SubmitRequest := {|
  sub_schema_version := RUNTIME_SCHEMA_VERSION;
  sub_client_request_id := "request-1";
  sub_request_identity_digest := None;
  sub_execution_provider := Some {|
    eps_contract := ExecutionProviderContract.LocalLinuxRunnerV1;
    eps_executable_digest := sample_digest;
    eps_wsl_distribution := None |};
  sub_runtime_release_effect := None;
  sub_host_dependencies := [];
  sub_plan := sample_plan;
  sub_global_limit := 4 |}.

Definition admitted_provider_db : Db :=
  snd (submit_preallocated io_ok sample_config FenceAcquired (Ok 10) provider_request sample_ids
         empty_db).

(** Another caller has dispatched it and its Runner is bound. *)
Definition running_provider_db : Db :=
  snd (bind_running io_ok "attempt-1" 2 sample_identity
    (snd (mark_dispatch_issued io_ok "attempt-1" 1 20
       (snd (mark_bundle_ready io_ok "attempt-1" 0 sample_digest 15 admitted_provider_db))))).

(** The image of the Runner was replaced; unit, main process and control group
    of the Attempt are as they were when it was bound. *)
Definition replaced_world (R : Type) (c : call R) : R :=
  match c in call R return R with
  | Sha256File _ => Ok other_digest
  | FileLen _ | FileModifiedMs _ => Ok 10
  | IsFile path => String.eqb path "/sys/fs/cgroup/ordivon/cgroup.events"
  | ReadText path => unit_world "active" true _ (ReadText path)
  | other => launch_world _ other
  end.

Definition reservation_state_of (k : string) (d : Db) : option ReservationState.t :=
  (fun row => res_state (row_reservation row)) <$> db_reservations d !! k.

Definition stale_run : RuntimeResult unit * history * Db :=
  play_from (fun _ => replaced_world) []
    (ensure_attempt_dispatched launch_runtime (attempt_of admitted_provider_db)) running_provider_db.

(** What the answers say of the Attempt: the [ActiveState] that systemd shows,
    whether a file of its control group shows processes in it, and whether the
    process that was bound is the one that has its identifier. *)
Definition said_state (e : event) : option string :=
  match e with
  | Event c r =>
      match c in call R return R -> option string with
      | Systemctl _ => fun r =>
          match show_properties r with Ok properties => properties !! "ActiveState" | Err _ => None end
      | _ => fun _ => None
      end r
  end.

Definition said_populated (e : event) : option bool :=
  let of_group path answer :=
    if starts_with "/sys/fs/cgroup/ordivon" path then Some (answer : bool) else None in
  match e with
  | Event c r =>
      match c in call R return R -> option bool with
      | IsFile path | PathExists path | IsDir path => fun r => of_group path r
      | ReadText path => fun r => of_group path
          match r with Ok content => parse_cgroup_populated content == Ok true | Err _ => false end
      | ReadFile path => fun _ => of_group path false
      | ReadDir path => fun _ => of_group path false
      | _ => fun _ => None
      end r
  end.

Definition said_process (e : event) : option bool :=
  match e with
  | Event c r =>
      match c in call R return R -> option bool with
      | ReadText path => fun r =>
          if String.eqb path "/proc/42/stat"
          then Some (match r with Ok stat => stat_start_time stat | Err _ => None end
                     == Some (rid_process_start_identity sample_identity))
          else None
      | _ => fun _ => None
      end r
  end.

(** It was asked for, and every answer was this one. *)
Definition all_say {A} `{EqDecision A} (f : event -> option A) (a : A) (h : history) : bool :=
  match omap f h with [] => false | answers => forallb (fun b => b == a) answers end.

(** A process is started or stopped. *)
Definition starts_or_stops (e : event) : bool :=
  match e with
  | Event (SystemdRun _ _) _ | Event (SpawnWindowsNative _) _ | Event (StopUnit _) _ => true
  | Event (TerminateWindowsLauncherOwner _ _ _ _) _ => true
  | _ => false
  end.

(** The commit that was answered, and what was asked before and after it. *)
Definition commit_answered (h : history)
    : option (history * TerminalCommit * JobProjection * history) :=
  match first_commit h with
  | Some (before, Event c r, _, _, after) =>
      match c in call R return R -> option (history * TerminalCommit * JobProjection * history) with
      | Registry op => fun r =>
          match op in registry_op R return RuntimeResult R -> _ with
          | CommitTerminal terminal => fun r =>
              match r with Ok projection => Some (before, terminal, projection, after) | Err _ => None end
          | _ => fun _ => None
          end r
      | _ => fun _ => None
      end r
  | None => None
  end.

Lemma commit_answered_split h before terminal projection after :
  commit_answered h = Some (before, terminal, projection, after) ->
  h = before ++ Event (Registry (CommitTerminal terminal)) (Ok projection) :: after.
Proof.
  unfold commit_answered. destruct (first_commit h) as [[[[[h1 e] orphan] t] h2] | ] eqn:Hf; [ | done].
  apply first_commit_split in Hf as [-> _]. destruct e as [R c r].
  destruct c; try done. match goal with op : registry_op _ |- _ => destruct op; try done end.
  destruct r; [ | done]. by intros [= -> -> -> ->].
Qed.

(** C23: a stale record fails a running Attempt.  A caller that still holds the
    record of the Attempt as it was accepted verifies the Runner image after
    another caller has dispatched the Attempt and the image was then replaced.
    In a run of [ensure_attempt_dispatched] beside which nobody writes, that
    caller's own call commits the running Attempt as failed for a precondition
    that has drifted, and releases its reservation.  Before it commits, the same
    run has read that the bound process exists; afterwards systemd shows the unit
    active; no answer of the run says otherwise, and the run starts and stops nothing. *)
Theorem stale_record_fails_a_running_attempt :
  registry_reachable running_provider_db
  /\ attempt_state_of "attempt-1" running_provider_db = Some AttemptState.Running
  /\ attempt_state_of "attempt-1" admitted_provider_db = Some AttemptState.Accepted
  /\ exists before terminal projection after d',
       let h := before ++ Event (Registry (CommitTerminal terminal)) (Ok projection) :: after in
       alone (ensure_attempt_dispatched launch_runtime (attempt_of admitted_provider_db))
         running_provider_db h (Ok tt) d'
       /\ tc_attempt_id terminal = "attempt-1"%string
       /\ tc_state terminal = AttemptState.Failed
       /\ tc_reason_code terminal = "EXECUTION_PROVIDER_PRECONDITION_DRIFT"%string
       /\ all_say said_process true before = true /\ all_say said_process true h = true
       /\ all_say said_state "active"%string h = true
       /\ existsb starts_or_stops h = false
       /\ attempt_state_of "attempt-1" d' = Some AttemptState.Failed
       /\ reservation_state_of "attempt-1" d' = Some ReservationState.Released.
Proof.
  split; [ | split; [by vm_compute | split; [by vm_compute | ]]].
  { unfold registry_reachable. do 4 (eapply rtc_r; [ | constructor]). constructor. }
  assert (Hrun : fst (fst stale_run) = Ok tt
    /\ attempt_state_of "attempt-1" (snd stale_run) = Some AttemptState.Failed
    /\ reservation_state_of "attempt-1" (snd stale_run) = Some ReservationState.Released
    /\ match commit_answered (snd (fst stale_run)) with
       | Some (before, terminal, _, _) =>
           (tc_attempt_id terminal, tc_state terminal, tc_reason_code terminal,
            all_say said_process true before)
           = ("attempt-1", AttemptState.Failed, "EXECUTION_PROVIDER_PRECONDITION_DRIFT", true)%string
       | None => False
       end
    /\ (all_say said_process true (snd (fst stale_run)),
        all_say said_state "active"%string (snd (fst stale_run)),
        existsb starts_or_stops (snd (fst stale_run))) = (true, true, false)) by (vm_compute; done).
  destruct stale_run as [[r h] d'] eqn:Hplay. apply play_from_alone in Hplay. cbn [fst snd] in Hrun.
  destruct Hrun as (-> & Hs & Hres & Hcommit & Hall).
  destruct (commit_answered h) as [[[[before terminal] projection] after] | ] eqn:Hc; [ | done].
  apply commit_answered_split in Hc as ->. injection Hcommit as ? ? ? ?. injection Hall as ? ? ?.
  by exists before, terminal, projection, after, d'.
Qed.

(** ** A unit that is still stopping

    [systemctl --no-block stop] returns at once; systemd then shows the unit as
    deactivating until every process of its control group is gone, for up to the
    two seconds of [TimeoutStopSec].  [cancel_job] takes a unit that is not
    active and a main process that is gone for a process tree that is gone. *)

#[local] Open Scope Z_scope.

(** The stop that was answered, and what was asked before and after it. *)
Definition stop_of (e : event) : option (string * CommandOutput) :=
  match e with
  | Event c r =>
      match c in call R return R -> option (string * CommandOutput) with
      | StopUnit unit_name => fun r => match r with Ok output => Some (unit_name, output) | Err _ => None end
      | _ => fun _ => None
      end r
  end.

Definition stop_answered (h : history) : option (history * string * CommandOutput * history) :=
  '(before, e, after) ← split_at_event is_stop h;
  '(unit_name, output) ← stop_of e;
  Some (before, unit_name, output, after).

Lemma stop_answered_split h before unit_name output after :
  stop_answered h = Some (before, unit_name, output, after) ->
  h = before ++ Event (StopUnit unit_name) (Ok output) :: after.
Proof.
  unfold stop_answered. destruct (split_at_event is_stop h) as [[[h1 e] h2] | ] eqn:Hs; [ | done].
  apply split_at_event_split in Hs as [-> _]. cbn. destruct e as [R c r]. destruct c; try done.
  cbn. destruct r; [ | done]. by intros [= -> -> -> ->].
Qed.

(** C16: a Job is cancelled while its processes remain.  The Attempt runs; its
    Job is cancelled; systemd begins to stop the unit and the main process ends
    first.  In a run of [cancel_job] beside which nobody writes, the engine tells
    systemd to stop the unit, and then itself commits the Attempt as cancelled
    with the reason that its process tree is gone, and releases its Workspace.
    Between the stop and the commit the run has read that the control group of the
    Attempt still has processes, and no answer before the commit says otherwise;
    systemd has shown the unit as deactivating, and nothing else. *)
Theorem cancelled_while_processes_remain :
  registry_reachable running_db
  /\ attempt_state_of "attempt-1" running_db = Some AttemptState.Running
  /\ exists before output between terminal projection after observation d',
       alone (cancel_job bare_runtime cancel_request) running_db
         (before ++ Event (StopUnit "ordivon-attempt-1.service") (Ok output)
          :: between ++ Event (Registry (CommitTerminal terminal)) (Ok projection) :: after)
         (Ok observation) d'
       /\ out_success output = true
       /\ tc_attempt_id terminal = "attempt-1"%string
       /\ tc_state terminal = AttemptState.Cancelled
       /\ tc_reason_code terminal = "STOP_REQUESTED_PROCESS_TREE_GONE"%string
       /\ all_say said_populated true between = true
       /\ all_say said_populated true (before ++ between) = true
       /\ all_say said_state "deactivating"%string between = true
       /\ attempt_state_of "attempt-1" d' = Some AttemptState.Cancelled
       /\ reservation_state_of "attempt-1" d' = Some ReservationState.Released.
Proof.
  split; [exact running_reachable | ]. split; [by vm_compute | ].
  assert (Hrun : is_ok (fst (fst cancel_run)) = true
    /\ attempt_state_of "attempt-1" (snd cancel_run) = Some AttemptState.Cancelled
    /\ reservation_state_of "attempt-1" (snd cancel_run) = Some ReservationState.Released
    /\ match stop_answered (snd (fst cancel_run)) with
       | Some (before, unit_name, output, rest) =>
           match commit_answered rest with
           | Some (between, terminal, _, _) =>
               (unit_name, out_success output, tc_attempt_id terminal, tc_state terminal,
                tc_reason_code terminal, all_say said_populated true between,
                all_say said_populated true (before ++ between),
                all_say said_state "deactivating"%string between)
               = ("ordivon-attempt-1.service", true, "attempt-1", AttemptState.Cancelled,
                  "STOP_REQUESTED_PROCESS_TREE_GONE", true, true, true)%string
           | None => False
           end
       | None => False
       end) by (vm_compute; done).
  destruct cancel_run as [[[observation | e] h] d'] eqn:Hplay; [ | by destruct Hrun].
  apply play_from_alone in Hplay. destruct Hrun as (_ & Hs & Hres & Hcommit). cbn [fst snd] in *.
  destruct (stop_answered h) as [[[[before unit_name] output] rest] | ] eqn:Hstop; [ | done].
  apply stop_answered_split in Hstop as ->.
  destruct (commit_answered rest) as [[[[between terminal] projection] after] | ] eqn:Hc; [ | done].
  apply commit_answered_split in Hc as ->. injection Hcommit as -> ? ? ? ? ? ? ?.
  by exists before, output, between, terminal, projection, after, observation, d'.
Qed.
