(* ===== verification/ReportSpec.v ===== *)
(** * Reports of reconciliation

    A pass goes through all its Attempts, whatever becomes of each: the report
    accounts for every one of them, and only an error of the Registry as a
    whole, or of the bookkeeping between two Attempts, ends it early. *)

From S2P Require Import Prelude Text Errors Types Supervisor Platform Validation Submit Store.
From S2P Require Import Transaction Projection Lifecycle Admission Recovery Registry Query Effects.
From S2P Require Import Engine Observation Reconciliation Bundle Dispatching Passes TestPlatform Scenario TestWorld.

#[local] Open Scope Z_scope.

Section report.
Context `{P : Platform, C : EngineCodec}.
Context (rt : Runtime).

Definition anything (R : Type) (c : call R) (h : history) : Prop := True.

(** The counters of a report add up. *)
Definition adds_up (report : ReconciliationReport) : Prop :=
  rep_inspected report
    = rep_reconciled report + rep_recovered_orphans report + rep_quarantined report
      + rep_unchanged report + rep_failed report
  /\ rep_failed report = Z.of_nat (length (rep_failures report)).

(** The error answered a call of the bookkeeping: the clock, the record of a
    failure or its removal, or the second look at the Attempt. *)
Definition bookkeeping (e : RuntimeError) (h : history) : Prop :=
  exists before, h = before ++ [Event NowMs (Err e)]
    \/ (exists attempt_id, h = before ++ [Event (Registry (GetAttempt attempt_id)) (Err e)])
    \/ (exists attempt error at_ms,
          h = before ++ [Event (Registry (RecordReconciliationFailure attempt error at_ms)) (Err e)])
    \/ (exists attempt_id at_ms,
          h = before ++ [Event (Registry (ClearReconciliationFailure attempt_id at_ms)) (Err e)]).

Definition stopped_early (e : RuntimeError) (h : history) : Prop :=
  is_reconciliation_fatal e = true \/ bookkeeping e h.

(** The report after one more Attempt. *)
Definition one_more (attempt : AttemptRecord) (report report' : ReconciliationReport) : Prop :=
  rep_inspected report' = rep_inspected report + 1
  /\ (adds_up report -> adds_up report')
  /\ (rep_failures report' = rep_failures report
      \/ exists failure, rep_failures report' = rep_failures report ++ [failure]
           /\ rf_attempt_id failure = att_attempt_id attempt
           /\ rf_job_id failure = att_job_id attempt).

Lemma count_outcome_one_more attempt before current changed report :
  one_more attempt report (count_outcome before current changed (count_inspected report)).
Proof.
  unfold one_more, adds_up, count_outcome. destruct (_ && (_ || _)); [ | destruct (_ && _); [ | destruct (_ || _)]];
    simpl; (split; [lia | split; [lia | by left]]).
Qed.

Lemma finish_candidate_wp attempt report r h :
  wp anything (finish_candidate attempt (count_inspected report) r) h (fun r' h' =>
    match r' with Ok report' => one_more attempt report report' | Err e => stopped_early e h' end).
Proof.
  unfold finish_candidate, record_isolated_reconciliation_failure. destruct r as [changed | error].
  - wp_norm. split; [done | ]. intros [current | e].
    2:{ right. exists h. right. left. by eexists. }
    destruct (_ || _); cbn [prog_bind wp].
    + split; [done | ]. intros [now | e]; cbn [prog_bind wp]; [ | right; eexists; by left].
      split; [done | ]. intros [[] | e]; cbn [prog_bind wp]; [apply count_outcome_one_more | ].
      right. eexists. right. right. right. by eexists _, _.
    + apply count_outcome_one_more.
  - destruct (is_reconciliation_fatal error) eqn:Hfatal; [by left | ].
    wp_norm. split; [done | ]. intros [now | e]; cbn [prog_bind wp]; [ | right; eexists; by left].
    split; [done | ]. intros [[] | e]; cbn [prog_bind wp].
    + unfold one_more, adds_up. simpl. rewrite length_app. simpl.
      split; [lia | ]. split; [lia | ]. right. eexists. repeat split.
    + right. eexists. right. right. left. by eexists _, _, _.
Qed.

Lemma candidate_one_more report attempt h :
  wp anything (reconcile_candidate_into rt report attempt) h (fun r h' =>
    match r with Ok report' => one_more attempt report report' | Err e => stopped_early e h' end).
Proof.
  unfold reconcile_candidate_into, catch. cbv zeta.
  assert (Hcatch : forall A (p : eff A) (f : RuntimeResult A -> eff ReconciliationReport) h,
    (forall r h, wp anything (f r) h (fun r h' =>
       match r with Ok report' => one_more attempt report report' | Err e => stopped_early e h' end)) ->
    wp anything (prog_bind f p) h (fun r h' =>
       match r with Ok report' => one_more attempt report report' | Err e => stopped_early e h' end)).
  { intros A p f h' Hf. apply wp_bind. eapply wp_mono; [ | apply wp_true]. intros r h1 _ _. apply Hf. }
  destruct (_ == _); [ | destruct (AttemptState.is_terminal _); [ | destruct (_ == _)]].
  2: apply wp_eff_bind; unfold try; cbn [wp]; split; [done | ]; intros [now | e];
     [ | right; eexists; by left].
  all: apply Hcatch; intros; apply finish_candidate_wp.
Qed.

(** The report after the Attempts of a list. *)
Definition accounts (attempts : list AttemptRecord) (report report' : ReconciliationReport) : Prop :=
  rep_inspected report' = rep_inspected report + Z.of_nat (length attempts)
  /\ (adds_up report -> adds_up report')
  /\ exists failures, rep_failures report' = rep_failures report ++ failures
       /\ map (fun f => (rf_attempt_id f, rf_job_id f)) failures
          `sublist_of` map (fun a => (att_attempt_id a, att_job_id a)) attempts.

Lemma candidates_account attempts : forall report h,
  wp anything (reconcile_candidates_into rt attempts report) h (fun r h' =>
    match r with Ok report' => accounts attempts report report' | Err e => stopped_early e h' end).
Proof.
  unfold reconcile_candidates_into. induction attempts as [ | attempt attempts IH]; intros report h.
  - unfold accounts. simpl. split; [lia | ]. split; [done | ]. exists []. by rewrite app_nil_r.
  - cbn [fold_eff]. apply wp_eff_bind. eapply wp_mono; [ | apply candidate_one_more].
    intros [report1 | e] h1 _; [ | done]. intros (Hi1 & Hs1 & Hf1).
    eapply wp_mono; [ | apply IH]. intros [report2 | e] h2 _; [ | done].
    intros (Hi2 & Hs2 & failures & Hf2 & Hsub). split; [simpl; lia | ]. split; [auto | ].
    destruct Hf1 as [Hf1 | (failure & Hf1 & Hid & Hjob)]; rewrite Hf1 in Hf2.
    + exists failures. split; [done | ]. simpl. by apply sublist_cons.
    + exists (failure :: failures). split; [by rewrite Hf2, <- app_assoc | ]. simpl.
      rewrite Hid, Hjob. by apply sublist_skip.
Qed.

(** a pass accounts for every Attempt.  Whatever is answered, when
    [reconcile_candidates_into] ends with a report, each of the Attempts was
    inspected and counted once, as reconciled, recovered, quarantined, unchanged
    or failed; every failure that was counted is listed, in the order of the
    Attempts, under the Attempt it happened to.  It ends with an error only if
    the error is fatal for the Registry or answered the bookkeeping: a failure
    of one Attempt does not stop the others. *)
Theorem pass_accounts_for_every_attempt attempts d h r d' :
  runs (reconcile_candidates_into rt attempts empty_report) d h (Some r) d' ->
  match r with
  | Ok report =>
      rep_inspected report = Z.of_nat (length attempts)
      /\ rep_inspected report
         = rep_reconciled report + rep_recovered_orphans report + rep_quarantined report
           + rep_unchanged report + rep_failed report
      /\ rep_failed report = Z.of_nat (length (rep_failures report))
      /\ map (fun f => (rf_attempt_id f, rf_job_id f)) (rep_failures report)
         `sublist_of` map (fun a => (att_attempt_id a, att_job_id a)) attempts
  | Err e => stopped_early e h
  end.
Proof.
  intros Hrun. destruct (wp_runs anything _ _ [] d h (Some r) d' (candidates_account attempts empty_report []) Hrun)
    as [_ Hret]. specialize (Hret r eq_refl). destruct r as [report | e]; [ | exact Hret].
  destruct Hret as (Hi & Hs & failures & Hf & Hsub). simpl in Hi, Hf. subst failures.
  destruct Hs as [Hsum Hlen]; [by split | ]. done.
Qed.
End report.

(** ** Witness *)

(** An orphan whose end cannot be recorded, twice: the pass goes on. *)
Definition failing_pass : RuntimeResult ReconciliationReport * history * Db :=
  match get_attempt io_ok "attempt-1" orphaned_db with
  | Ok attempt =>
      play (@empty_world) (reconcile_candidates_into bare_runtime
                             [attempt; attempt] empty_report) orphaned_db
  | Err e => (Err e, [], orphaned_db)
  end.

Lemma failing_pass_fails :
  (fun report => map rf_code (rep_failures report)) <$> fst (fst failing_pass)
  = Ok [InvalidRequest; InvalidRequest].
Proof. vm_compute. reflexivity. Qed.

Lemma pass_accounts_for_every_attempt_witness :
  exists report, fst (fst failing_pass) = Ok report
    /\ rep_inspected report = 2 /\ rep_failed report = 2.
Proof.
  pose proof failing_pass_fails as Hfail. unfold failing_pass in *.
  destruct (get_attempt io_ok "attempt-1" orphaned_db) as [attempt | e]; [ | discriminate Hfail].
  destruct (play _ _ _) as [[r h] d'] eqn:Hplay. apply play_runs in Hplay. cbn [fst] in *.
  pose proof (pass_accounts_for_every_attempt _ _ _ _ _ _ Hplay) as Hacc.
  destruct r as [report | e]; [ | discriminate Hfail]. injection Hfail as Hf.
  destruct Hacc as (Hi & _ & Hlen & _). exists report. split; [reflexivity | ]. split; [exact Hi | ].
  rewrite Hlen. apply (f_equal length) in Hf. rewrite length_map in Hf. rewrite Hf. reflexivity.
Defined.
