(* ===== verification/OutputSpec.v ===== *)
(** * Following the output of a process

    A client reads output in windows, each from the [next_offset] of the one
    before, while the process may still be writing.  The text it collects is
    the output, character by character; on a finished output a loop of windows
    of four bytes or more reads all of it. *)

From S2P Require Import Prelude Text Errors Types Supervisor Platform TestPlatform Validation Submit.
From S2P Require Import Store Transaction Projection Admission Recovery Registry Query Effects Utf8.
From S2P Require Import Engine Output TestWorld.

#[local] Open Scope Z_scope.

(** A position between two characters. *)
Definition boundary (content : string) (offset : Z) : Prop :=
  0 <= offset <= str_len content /\ utf8 (str_drop (Z.to_nat offset) content).

Definition slice (content : string) (from to : Z) : string :=
  str_take (Z.to_nat (to - from)) (str_drop (Z.to_nat from) content).

(** The file holds a beginning of [content], whenever it is looked at: no
    length is more than [content]'s, and a read gets bytes that stand there. *)
Definition faithful (path content : string) (h : history) : Prop :=
  (forall len, Event (FileLen path) (Ok len) ∈ h -> 0 <= len <= str_len content)
  /\ (forall offset limit read, Event (ReadUpTo path offset limit) (Ok read) ∈ h ->
        exists n, (n <= Z.to_nat limit)%nat
                  /\ read = str_take n (str_drop (Z.to_nat offset) content)).

Section window.
Context (content : string).
Context (Hutf8 : utf8 content).
Context (Hfits : str_len content <= u64_max).

Lemma boundary_start : boundary content 0.
Proof. split; [unfold str_len; lia | done]. Qed.

Lemma slice_app a b c : 0 <= a -> a <= b -> b <= c ->
  (slice content a b +:+ slice content b c)%string = slice content a c.
Proof.
  intros Ha Hab Hbc. unfold slice. replace (Z.to_nat (c - a)) with (Z.to_nat (b - a) + Z.to_nat (c - b))%nat by lia.
  rewrite str_take_plus, str_drop_drop. by replace (Z.to_nat a + Z.to_nat (b - a))%nat with (Z.to_nat b) by lia.
Qed.

Lemma slice_all : slice content 0 (str_len content) = content.
Proof. unfold slice, str_len. apply str_take_all. simpl. lia. Qed.

(** What [text_range] makes of bytes of the content. *)
Lemma text_range_exact offset available terminal fields n :
  boundary content offset ->
  let rest := str_drop (Z.to_nat offset) content in
  exists next, offset <= next <= offset + Z.of_nat n /\ boundary content next
    /\ ((4 <= n)%nat \/ str_len rest <= Z.of_nat n -> rest <> ""%string -> offset < next)
    /\ (offset < next \/ str_take n rest = ""%string ->
        text_range offset available terminal fields (str_take n rest)
        = Ok {| tr_content := slice content offset next; tr_next_offset := next |})
    /\ (forall r, text_range offset available terminal fields (str_take n rest) = Ok r ->
        r = {| tr_content := slice content offset next; tr_next_offset := next |}).
Proof.
  intros [Hoff Hb] rest. destruct (utf8_window rest n Hb) as (v & Hvn & Hvl & Herr & Htake & Hdrop & Hprog).
  unfold rest in Hvl. rewrite str_drop_length in Hvl. unfold str_len in *.
  set (safe := match from_utf8_error (str_take n rest) with
               | None => String.length (str_take n rest)
               | Some e => match error_len e with None => valid_up_to e | Some _ => String.length (str_take n rest) end
               end).
  assert (Hsafe : safe = v).
  { unfold safe. destruct (from_utf8_error _) as [e | ]; [by rewrite Herr | ].
    rewrite str_take_length, Herr. unfold rest. by rewrite str_drop_length. }
  assert (Hhead : ((0 <? offset) && match bytes (str_take n rest) with b :: _ => continuation b | [] => false end) = false).
  { apply andb_false_iff. right. rewrite bytes_take. destruct n as [ | n]; [done | ].
    destruct (bytes rest) as [ | b bs] eqn:Hbytes; [done | ]. simpl. apply (utf8_head rest); [done | by rewrite Hbytes]. }
  assert (Hcontent : from_utf8_lossy (str_take v (str_take n rest)) = slice content offset (offset + Z.of_nat v)).
  { rewrite str_take_take, Nat.min_l by lia. rewrite from_utf8_lossy_id by done.
    unfold slice. by replace (Z.to_nat (offset + Z.of_nat v - offset)) with v by lia. }
  assert (Hadd : saturating_add offset (Z.of_nat v) = offset + Z.of_nat v) by (unfold saturating_add; lia).
  exists (offset + Z.of_nat v). split; [lia | ]. split; [ | split; [ | split]].
  - split; [unfold str_len; lia | ].
    replace (Z.to_nat (offset + Z.of_nat v)) with (Z.to_nat offset + v)%nat by lia. by rewrite <- str_drop_drop.
  - intros Hn Hne. enough (0 < v)%nat by lia. apply Hprog; [ | done]. lia.
  - intros Hcase. unfold text_range. rewrite Hhead. simpl. fold safe. rewrite Hsafe, Hcontent, Hadd.
    destruct (v =? 0)%nat eqn:Hv0; [ | done]. apply Nat.eqb_eq in Hv0.
    destruct Hcase as [? | ->]; [lia | done].
  - intros r. unfold text_range. rewrite Hhead. simpl. fold safe. rewrite Hsafe, Hcontent, Hadd.
    destruct ((v =? 0)%nat && _) eqn:Hv0; [ | by intros [= <-]].
    apply andb_true_iff in Hv0 as [Hv0 _]. apply Nat.eqb_eq in Hv0.
    destruct (negb terminal && _); [ | done]. intros [= <-]. rewrite Hv0, Z.add_0_r. f_equal.
    unfold slice. by rewrite Z.sub_diag.
Qed.
End window.

Section runs.
Context `{P : Platform}.
Context (path content : string).
Context (Hutf8 : utf8 content).
Context (Hfits : str_len content <= u64_max).

(** What a window promises: a slice of the content between two boundaries, and
    the end only at a position past every length that was seen. *)
Definition window_ok (offset : Z) (view : OutputView) : Prop :=
  exists next, offset <= next /\ boundary content next
    /\ ov_offset view = Some offset /\ ov_next_offset view = Some next
    /\ ov_content view = slice content offset next.

Lemma window_ok_stay offset available eof :
  boundary content offset ->
  window_ok offset {| ov_content := ""; ov_offset := Some offset; ov_next_offset := Some offset;
                      ov_available_bytes := available; ov_eof := eof |}.
Proof.
  intros Hb. exists offset. split; [lia | ]. split; [done | ]. repeat split.
  simpl. unfold slice. by rewrite Z.sub_diag.
Qed.

Lemma window_ok_range offset available terminal fields n r seen eof :
  boundary content offset ->
  text_range offset available terminal fields (str_take n (str_drop (Z.to_nat offset) content)) = Ok r ->
  window_ok offset {| ov_content := tr_content r; ov_offset := Some offset;
                      ov_next_offset := Some (tr_next_offset r);
                      ov_available_bytes := seen; ov_eof := eof |}.
Proof.
  intros Hb Hr.
  destruct (text_range_exact content Hfits offset available terminal fields n Hb)
    as (next & Hnext & Hb' & _ & _ & Hexact).
  apply Hexact in Hr as ->. exists next. split; [lia | ]. by split.
Qed.

Lemma read_output_text_wp offset max_bytes terminal field1 field2 h :
  boundary content offset ->
  wp (fun _ _ _ => True) (read_output_text path (Some offset) max_bytes terminal field1 field2) h
    (fun r h' => faithful path content h' -> forall view, r = Ok view -> window_ok offset view).
Proof.
  intros Hb. unfold read_output_text, read_utf8_range. wp_norm.
  repeat wp_step; try done.
  all: wp_answers.
  all: try by apply window_ok_stay.
  all: match goal with Hf : faithful _ _ _ |- _ => destruct (proj2 Hf _ _ _ (last_event _ _)) as (n & _ & ->) end.
  all: by eapply window_ok_range.
Qed.

(** ** Following *)

(** Windows read one after the other, each from the end of the last, whatever
    happens in between and however long they are. *)
Inductive following : Z -> list OutputView -> Z -> Prop :=
  | following_nil offset : following offset [] offset
  | following_cons offset max_bytes terminal field1 field2 d h d' view next views final :
      runs (read_output_text path (Some offset) max_bytes terminal field1 field2) d h
        (Some (Ok view)) d' ->
      faithful path content h ->
      ov_next_offset view = Some next ->
      following next views final ->
      following offset (view :: views) final.

Lemma following_window offset max_bytes terminal field1 field2 d h d' view :
  boundary content offset ->
  runs (read_output_text path (Some offset) max_bytes terminal field1 field2) d h
    (Some (Ok view)) d' ->
  faithful path content h -> window_ok offset view.
Proof.
  intros Hb Hrun Hf.
  destruct (wp_runs (fun _ _ _ => True) _ _ [] d h _ d'
              (read_output_text_wp offset max_bytes terminal field1 field2 [] Hb) Hrun) as [_ Hret].
  by apply (Hret _ eq_refl Hf).
Qed.

Lemma following_exact offset views final :
  following offset views final -> boundary content offset ->
  offset <= final /\ boundary content final
  /\ join "" (map ov_content views) = slice content offset final.
Proof.
  induction 1 as [offset | offset max_bytes terminal f1 f2 d h d' view next views final Hrun Hf Hnext _ IH];
    intros Hb.
  - split; [lia | ]. split; [done | ]. unfold slice. by rewrite Z.sub_diag.
  - destruct (following_window _ _ _ _ _ _ _ _ _ Hb Hrun Hf) as (n & Hn & Hbn & _ & Hview & Hc).
    simplify_eq. destruct (IH Hbn) as (Hle & Hbf & Hrest). split; [lia | ]. split; [done | ].
    rewrite <- (slice_app content offset next final), <- Hrest, <- Hc by (destruct Hb; lia).
    simpl. destruct views; simpl; [by rewrite string_app_nil_r | done].
Qed.

(** C32: the output is followed exactly.  Let an output file hold, whenever it is
    looked at, a beginning of a content that is UTF-8 and not longer than a 64-bit
    length: no length it reports is more than the content's, and a read gets bytes
    that stand there, as many as it likes.  Whoever reads windows of it with
    [read_output_text], the first from the start and each next one from the
    [next_offset] of the one before, with any sizes, while the file grows, short reads
    happen and the Attempt ends, then has a position that is a boundary between
    characters, and the texts of the windows, one after the other, are the content
    up to that position: nothing is lost, repeated or cut. *)
Theorem output_followed_exactly views final :
  following 0 views final ->
  boundary content final /\ join "" (map ov_content views) = slice content 0 final.
Proof. intros H. by apply following_exact in H as (_ & Hb & ->); [ | apply boundary_start]. Qed.

(** ** Reading to the end *)

(** The file holds all of [content] and can be read. *)
Definition answered_by_file (e : event) : Prop :=
  match e with
  | Event c r =>
      match c in call R return R -> Prop with
      | PathExists p => fun r => p = path -> r = true
      | FileLen p => fun r => p = path -> r = Ok (str_len content)
      | OpenFile p => fun r => p = path -> r = Ok tt
      | SeekFile p _ => fun r => p = path -> r = Ok tt
      | ReadUpTo p offset limit => fun r => p = path ->
          r = Ok (str_take (Z.to_nat limit) (str_drop (Z.to_nat offset) content))
      | _ => fun _ => True
      end r
  end.

Definition complete (h : history) : Prop := Forall answered_by_file h.

Lemma complete_faithful h : complete h -> faithful path content h.
Proof.
  intros Hc. unfold complete in Hc. rewrite Forall_forall in Hc. split.
  - intros len Hin. specialize (Hc _ Hin eq_refl) as [= ->]. unfold str_len. lia.
  - intros offset limit read Hin. specialize (Hc _ Hin eq_refl) as [= ->].
    by exists (Z.to_nat limit).
Qed.

Lemma complete_prefix h1 h2 : h1 `prefix_of` h2 -> complete h2 -> complete h1.
Proof. intros [l ->] Hc. unfold complete in *. by apply Forall_app in Hc as [? _]. Qed.

(** A client that reads windows until the end is reported. *)
Fixpoint drain (fuel : nat) (offset max_bytes : Z) : eff string :=
  match fuel with
  | O => throw (invalid "out of fuel" "fuel")
  | S fuel' =>
      view ← read_output_text path (Some offset) max_bytes true "stdoutOffset" "stdoutTailBytes";
      match ov_eof view, ov_next_offset view with
      | Some false, Some next =>
          rest ← drain fuel' next max_bytes;
          mret (ov_content view +:+ rest)%string
      | _, _ => mret (ov_content view)
      end
  end.

(** A full read of four bytes or more, or to the end, makes progress. *)
Lemma text_range_progress offset max_bytes fields :
  boundary content offset -> 4 <= max_bytes ->
  let limit := Z.min max_bytes (saturating_sub (str_len content) offset) in
  exists next, offset <= next /\ boundary content next
    /\ (offset < str_len content -> offset < next)
    /\ text_range offset (str_len content) true fields
         (str_take (Z.to_nat limit) (str_drop (Z.to_nat offset) content))
       = Ok {| tr_content := slice content offset next; tr_next_offset := next |}.
Proof.
  intros Hb Hmax limit. pose proof Hb as [Hoff _]. set (rest := str_drop (Z.to_nat offset) content).
  assert (Hrest : str_len rest = str_len content - offset).
  { unfold str_len in *. unfold rest. rewrite str_drop_length. lia. }
  assert (Hlimit : limit = Z.min max_bytes (str_len rest)) by (unfold limit, saturating_sub; lia).
  destruct (text_range_exact content Hfits offset (str_len content) true fields (Z.to_nat limit) Hb)
    as (next & Hnext & Hbn & Hprog & Hok & _). fold rest in Hprog, Hok.
  exists next. split; [lia | ]. split; [done | ].
  assert (Hmove : offset < str_len content -> offset < next).
  { intros Hlt. apply Hprog; [lia | ]. intros He. rewrite He in Hrest. unfold str_len in *. simpl in Hrest. lia. }
  split; [done | ]. apply Hok. destruct (decide (offset < str_len content)); [left; auto | right].
  destruct rest as [ | c rest']; [by destruct (Z.to_nat limit) | unfold str_len in *; simpl in Hrest; lia].
Qed.

Lemma read_output_text_complete offset max_bytes field1 field2 h :
  boundary content offset -> 4 <= max_bytes ->
  wp (fun _ _ _ => True) (read_output_text path (Some offset) max_bytes true field1 field2) h
    (fun r h' => complete h' -> exists view next, r = Ok view /\ offset <= next
       /\ boundary content next /\ ov_content view = slice content offset next
       /\ ov_next_offset view = Some next /\ ov_eof view = Some (str_len content <=? next)
       /\ (offset < str_len content -> offset < next)).
Proof.
  intros Hb Hmax. pose proof Hb as [Hoff _]. unfold read_output_text, read_utf8_range. wp_norm.
  repeat wp_step; try done.
  all: match goal with Hc : complete _ |- _ =>
    unfold complete in Hc; repeat rewrite Forall_app in Hc; repeat rewrite Forall_singleton in Hc end; destruct_and?; simpl in *;
    repeat match goal with Hp : path = path -> _ |- _ => specialize (Hp eq_refl) end; simplify_eq/=.
  all: repeat match goal with Hf : fail_if _ _ = Err _ |- _ =>
         unfold fail_if in Hf; destruct (str_len content <? offset) eqn:Hlt; [apply Z.ltb_lt in Hlt; lia | done] end.
  1: apply Z.eqb_eq in Heqb0; lia.
  1: { apply Z.eqb_eq in Heqb2. subst offset. eexists _, (str_len content).
       repeat split; try done; try lia; try apply Hb. simpl. unfold slice. by rewrite Z.sub_diag. }
  all: destruct (text_range_progress offset max_bytes
                   {| rf_offset := field1; rf_max_bytes := field2 |} Hb Hmax)
         as (next & Hle & Hbn & Hmove & Hok);
    revert Hok; match goal with Ht : text_range _ _ _ _ _ = _ |- _ => rewrite Ht end; intros Hok; simplify_eq.
  eexists _, next. do 6 (split; [done | ]). exact Hmove.
Qed.

(** C33: a finished output is read to its end.  Let the file hold a content that is
    UTF-8 and not longer than a 64-bit length, let every look at it succeed and every
    read get all the bytes asked for that there are.  A client that reads windows of at
    least four bytes, each from the [next_offset] of the one before, until one says that
    it is the last, gets exactly the content; it needs no more windows than the content
    has bytes, and one.  (Of a content that is not UTF-8,
    [malformed_output_refuses_next_offset] shows that this can fail.) *)
Theorem output_read_to_end fuel max_bytes d h r d' :
  4 <= max_bytes -> str_len content < Z.of_nat fuel ->
  runs (drain fuel 0 max_bytes) d h (Some r) d' -> complete h -> r = Ok content.
Proof.
  intros Hmax Hfuel Hrun Hc.
  enough (Hwp : forall fuel offset h, boundary content offset ->
            str_len content - offset < Z.of_nat fuel ->
            wp (fun _ _ _ => True) (drain fuel offset max_bytes) h
              (fun r h' => complete h' -> r = Ok (slice content offset (str_len content)))).
  { destruct (wp_runs _ _ _ [] d h _ d' (Hwp fuel 0 [] (boundary_start content Hutf8) ltac:(lia)) Hrun)
      as [_ Hret]. rewrite (Hret r eq_refl Hc). by rewrite slice_all. }
  clear - Hmax Hfits Hutf8. induction fuel as [ | fuel IH]; intros offset h Hb Hfuel.
  { destruct Hb as [[_ Hoff] _]. simpl in Hfuel. lia. }
  cbn [drain]. apply wp_eff_bind. eapply wp_mono; [ | by apply read_output_text_complete].
  intros r h1 _ Hr. cbv beta in Hr.
  destruct r as [view | e]; [ | intros Hc; by destruct (Hr Hc) as (? & ? & ? & _)].
  apply wp_assume; [done | apply complete_prefix | ]. intros Hc1.
  destruct (Hr Hc1) as (view' & next & [= <-] & Hle & Hbn & Hcontent & Hnext & Heof & Hmove).
  rewrite Heof, Hnext, Hcontent. pose proof Hbn as [Hn _]. destruct (str_len content <=? next) eqn:Hend.
  - apply Z.leb_le in Hend. intros _. by replace next with (str_len content) by lia.
  - apply Z.leb_gt in Hend. apply wp_eff_bind. eapply wp_mono; [ | apply IH; [done | lia]].
    intros r h2 _ Hrest. destruct r as [rest | e]; [ | intros Hc2; by specialize (Hrest Hc2)].
    intros Hc2. specialize (Hrest Hc2) as [= ->]. by rewrite slice_app by (destruct Hb; lia).
Qed.
End runs.

(** ** Output that is not UTF-8 *)

(** On a readable file a window is what [text_range] makes of the bytes there. *)
Lemma read_output_text_file `{P : Platform} path content offset max_bytes field1 field2 h :
  0 <= offset < str_len content -> 0 < max_bytes ->
  wp (fun _ _ _ => True) (read_output_text path (Some offset) max_bytes true field1 field2) h
    (fun r h' => complete path content h' ->
       r = (fun range => {| ov_content := tr_content range; ov_offset := Some offset;
                            ov_next_offset := Some (tr_next_offset range);
                            ov_available_bytes := Some (str_len content);
                            ov_eof := Some (str_len content <=? tr_next_offset range) |}) <$>
           text_range offset (str_len content) true
             {| rf_offset := field1; rf_max_bytes := field2 |}
             (str_take (Z.to_nat (Z.min max_bytes (saturating_sub (str_len content) offset)))
                (str_drop (Z.to_nat offset) content))).
Proof.
  intros Hoff Hmax. unfold read_output_text, read_utf8_range. wp_norm. repeat wp_step; try done.
  all: match goal with Hc : complete _ _ _ |- _ =>
    unfold complete in Hc; repeat rewrite Forall_app in Hc; repeat rewrite Forall_singleton in Hc end;
    destruct_and?; simpl in *;
    repeat match goal with Hp : ?p = ?p -> _ |- _ => specialize (Hp eq_refl) end; simplify_eq/=.
  all: repeat match goal with Hf : fail_if _ _ = Err _ |- _ =>
         unfold fail_if in Hf; destruct (str_len content <? offset) eqn:Hlt; [apply Z.ltb_lt in Hlt; lia | done] end.
  all: try (apply Z.eqb_eq in Heqb0; lia).
  all: try (apply Z.eqb_eq in Heqb2; lia).
  all: match goal with Ht : text_range _ _ _ _ _ = _ |- _ => by rewrite Ht end.
Qed.

Lemma file_run `{P : Platform} path content offset max_bytes field1 field2 d h r d' :
  0 <= offset < str_len content -> 0 < max_bytes -> complete path content h ->
  runs (read_output_text path (Some offset) max_bytes true field1 field2) d h (Some r) d' ->
  r = (fun range => {| ov_content := tr_content range; ov_offset := Some offset;
                       ov_next_offset := Some (tr_next_offset range);
                       ov_available_bytes := Some (str_len content);
                       ov_eof := Some (str_len content <=? tr_next_offset range) |}) <$>
      text_range offset (str_len content) true
        {| rf_offset := field1; rf_max_bytes := field2 |}
        (str_take (Z.to_nat (Z.min max_bytes (saturating_sub (str_len content) offset)))
           (str_drop (Z.to_nat offset) content)).
Proof.
  intros Hoff Hmax Hc Hrun.
  destruct (wp_runs (fun _ _ _ => True) _ _ [] d h _ d'
              (read_output_text_file path content offset max_bytes field1 field2 [] Hoff Hmax) Hrun)
    as [_ Hret]. by apply (Hret r eq_refl).
Qed.

(** C34: a follower can be refused the offset it was given.  Let a finished output be a
    text, not empty, and after it bytes that begin with a continuation byte, and let
    every look at the file succeed.  The window of the length of the text returns the
    text and, as [next_offset], the place after it, and says that more is to come; a
    request for the window at that place is refused as invalid. *)
Theorem malformed_output_refuses_next_offset `{P : Platform} path text bad field1 field2 max_bytes
    d1 h1 r1 d1' d2 h2 r2 d2' :
  utf8 text -> text <> ""%string -> str_len text <= u64_max ->
  match bytes bad with b :: _ => continuation b | [] => false end = true ->
  0 < max_bytes ->
  complete path (text +:+ bad) (h1 ++ h2) ->
  runs (read_output_text path (Some 0) (str_len text) true field1 field2) d1 h1 (Some r1) d1' ->
  runs (read_output_text path (Some (str_len text)) max_bytes true field1 field2) d2 h2 (Some r2) d2' ->
  (exists view, r1 = Ok view /\ ov_content view = text /\ ov_next_offset view = Some (str_len text)
     /\ ov_eof view = Some false)
  /\ (exists e, r2 = Err e /\ err_code e = InvalidRequest).
Proof.
  intros Hu Hne Hfits Hbad Hmax Hc Hrun1 Hrun2. unfold complete in Hc. apply Forall_app in Hc as [Hc1 Hc2].
  assert (Hbytes : bad <> ""%string) by (by intros ->).
  assert (Hlen : str_len (text +:+ bad) = str_len text + str_len bad)
    by (unfold str_len; rewrite string_length_app; lia).
  assert (Hpos : 0 < str_len text /\ 0 < str_len bad).
  { unfold str_len. destruct text, bad; simpl; lia || done. }
  split.
  - apply (file_run path (text +:+ bad)) in Hrun1; [ | lia | lia | done]. subst r1.
    replace (Z.to_nat (Z.min _ _)) with (String.length text) by (unfold saturating_sub, str_len in *; lia).
    simpl str_drop. rewrite str_take_app, str_take_all by lia. unfold text_range. simpl.
    rewrite Hu. destruct (String.length text =? 0)%nat eqn:H0;
      [apply Nat.eqb_eq in H0; unfold str_len in *; lia | ].
    simpl. eexists. split; [done | ]. simpl. rewrite str_take_all, from_utf8_lossy_id by done.
    replace (saturating_add 0 _) with (str_len text) by (unfold saturating_add, str_len in *; lia).
    repeat split. f_equal. apply Z.leb_gt. lia.
  - apply (file_run path (text +:+ bad)) in Hrun2; [ | lia | lia | done]. subst r2.
    rewrite str_drop_app, str_drop_all by (unfold str_len; lia). change ("" +:+ bad)%string with bad.
    set (limit := Z.to_nat _). assert (Hlimit : (0 < limit)%nat) by (unfold limit, saturating_sub; lia).
    unfold text_range. rewrite bytes_take. destruct limit as [ | limit]; [lia | ].
    destruct (bytes bad) as [ | b bs]; [done | ]. rewrite (proj2 (Z.ltb_lt 0 _)) by lia.
    cbn [take andb]. rewrite Hbad.
    simpl. by eexists.
Qed.

(** ** Witnesses *)

Definition greeting : string := "grüße, Welt".

(** The steps of a run in which the file is all there. *)
Ltac file_complete := unfold complete; vm_compute; repeat (apply Forall_cons; split; [intros; reflexivity | ]); apply Forall_nil_2.

Section witnesses.
Definition first_window : eff OutputView :=
  read_output_text "out" (Some 0) 4 true "stdoutOffset" "stdoutTailBytes".
Definition second_window : eff OutputView :=
  read_output_text "out" (Some 4) 4 true "stdoutOffset" "stdoutTailBytes".
Definition played {A} (content : string) (p : prog A) : A * history * Db :=
  play (file_world content) p empty_db.

Lemma played_runs {A} content (p : prog A) :
  runs p empty_db (snd (fst (played content p))) (Some (fst (fst (played content p))))
    (snd (played content p)).
Proof. eapply play_runs. rewrite <- !surjective_pairing. reflexivity. Qed.

Lemma output_followed_exactly_witness :
  exists view1 view2 final, join "" (map ov_content [view1; view2]) = slice greeting 0 final /\ final = 8.
Proof.
  destruct (fst (fst (played greeting first_window))) as [view1 | e] eqn:H1; [ | vm_compute in H1; discriminate H1].
  destruct (fst (fst (played greeting second_window))) as [view2 | e] eqn:H2; [ | vm_compute in H2; discriminate H2].
  exists view1, view2, 8. split; [ | reflexivity].
  refine (proj2 (output_followed_exactly "out" greeting _ _ [view1; view2] 8 _)).
  - vm_compute. reflexivity.
  - vm_compute. discriminate.
  - eapply following_cons.
    + pose proof (played_runs greeting first_window) as Hr. rewrite H1 in Hr. exact Hr.
    + apply complete_faithful. file_complete.
    + vm_compute in H1. injection H1 as <-. reflexivity.
    + eapply following_cons.
      * pose proof (played_runs greeting second_window) as Hr. rewrite H2 in Hr. exact Hr.
      * apply complete_faithful. file_complete.
      * vm_compute in H2. injection H2 as <-. reflexivity.
      * apply following_nil.
Defined.

Lemma output_read_to_end_witness :
  (fst (fst (played greeting (drain "out" 14 0 4)))) = Ok greeting.
Proof.
  refine (output_read_to_end "out" greeting _ _ 14 4 empty_db
            (snd (fst (played greeting (drain "out" 14 0 4)))) _
            (snd (played greeting (drain "out" 14 0 4))) _ _ _ _).
  - vm_compute. reflexivity.
  - vm_compute. discriminate.
  - lia.
  - vm_compute. reflexivity.
  - exact (played_runs greeting (drain "out" 14 0 4)).
  - file_complete.
Defined.

(** Four ASCII characters, then a byte that begins nothing. *)
Definition malformed : string := "abcd" +:+ String (Ascii.ascii_of_N 128) EmptyString.

Lemma malformed_output_refuses_next_offset_witness :
  exists e, fst (fst (played malformed second_window)) = Err e /\ err_code e = InvalidRequest.
Proof.
  refine (proj2 (malformed_output_refuses_next_offset "out" "abcd"
            (String (Ascii.ascii_of_N 128) EmptyString) "stdoutOffset" "stdoutTailBytes" 4
            empty_db (snd (fst (played malformed first_window))) _ _
            empty_db (snd (fst (played malformed second_window))) _ _ _ _ _ _ _ _
            (played_runs malformed first_window) (played_runs malformed second_window))).
  - vm_compute. reflexivity.
  - discriminate.
  - vm_compute. discriminate.
  - vm_compute. reflexivity.
  - lia.
  - file_complete.
Defined.
End witnesses.
