(* ===== verification/PathWatch.v ===== *)
(** * The witness of path drift

    [PathDriftWatch] of [universal/runner.rs]: while a target runs, inotify
    watches its executable and the Host Dependencies, and every directory above
    them; a change near one of these paths is an error.  The bytes that the
    kernel hands out are decoded as the code decodes them, on a little-endian
    machine.  inotify itself is a call. *)

From S2P Require Import Prelude Text Errors Types Supervisor Platform Validation Submit Store.
From S2P Require Import Transaction Projection Admission Recovery Registry Query Effects Utf8.
From S2P Require Import Engine Linux Workspace.

#[local] Open Scope Z_scope.

(** ** Constants of [libc] *)

Definition IN_MODIFY : Z := 2.
Definition IN_ATTRIB : Z := 4.
Definition IN_CLOSE_WRITE : Z := 8.
Definition IN_MOVED_FROM : Z := 64.
Definition IN_MOVED_TO : Z := 128.
Definition IN_CREATE : Z := 256.
Definition IN_DELETE : Z := 512.
Definition IN_DELETE_SELF : Z := 1024.
Definition IN_MOVE_SELF : Z := 2048.
Definition IN_UNMOUNT : Z := 8192.
Definition IN_Q_OVERFLOW : Z := 16384.
Definition IN_IGNORED : Z := 32768.
Definition S_IFMT : Z := 61440.

(** [a | b | ..], and [mask & bits != 0] *)
Definition flags (l : list Z) : Z := foldr Z.lor 0 l.
Definition has_any (mask bits : Z) : bool := negb (Z.land mask bits =? 0).

(** ** A [BTreeMap] by path *)

Definition component_rank (c : Component) : nat :=
  match c with RootDir => 0 | CurDir => 1 | ParentDir => 2 | Normal _ => 3 end.

Definition component_compare (c d : Component) : comparison :=
  match c, d with
  | Normal s, Normal t => String.compare s t
  | _, _ => Nat.compare (component_rank c) (component_rank d)
  end.

(** [Ord] of [Path] *)
Fixpoint components_compare (l m : list Component) : comparison :=
  match l, m with
  | [], [] => Eq
  | [], _ :: _ => Lt
  | _ :: _, [] => Gt
  | c :: l, d :: m => match component_compare c d with Eq => components_compare l m | o => o end
  end.

Definition path_compare (p q : string) : comparison := components_compare (components p) (components q).

Definition path_map (A : Type) : Type := list (string * A).

(** [f(map.entry(path).or_default())] *)
Fixpoint at_path {A} (path : string) (empty : A) (f : A -> A) (m : path_map A) : path_map A :=
  match m with
  | [] => [(path, f empty)]
  | (q, a) :: rest =>
      match path_compare path q with
      | Eq => (q, f a) :: rest
      | Lt => (path, f empty) :: m
      | Gt => (q, a) :: at_path path empty f rest
      end
  end.

(** [map.get(path)] *)
Fixpoint path_lookup {A} (path : string) (m : path_map A) : option A :=
  match m with
  | [] => None
  | (q, a) :: rest => if path_eq path q then Some a else path_lookup path rest
  end.

(** ** The witness *)

Module PathDriftKind.
Inductive t : Type := HostDependency | Executable.
End PathDriftKind.

Record PathObjectIdentity : Type := {
  poi_device : Z;
  poi_inode : Z;
  poi_file_type : Z;
}.

#[export] Instance path_object_identity_eq_dec : EqDecision PathObjectIdentity.
Proof. solve_decision. Defined.

Record PathDriftWatchPlan : Type := {
  pwp_direct : bool;
  pwp_children : gmap string string;
}.

Record PathDriftWatchSpec : Type := {
  pws_path : string;
  pws_direct : bool;
  pws_children : gmap string string;
}.

Record PathDriftWatch : Type := {
  pdw_fd : Z;
  pdw_specs : gmap Z PathDriftWatchSpec;
  pdw_identities : path_map PathObjectIdentity;
  pdw_direct_paths : list string;
  pdw_kind : PathDriftKind.t;
}.

Definition path_drift_infrastructure_error (kind : PathDriftKind.t) (message : string) : UniversalExecError :=
  match kind with
  | PathDriftKind.HostDependency =>
      universal_new UniversalExecErrorCode.HostDependencyRuntimeDrift message (Some "hostDependencies"%string) false
  | PathDriftKind.Executable =>
      universal_new UniversalExecErrorCode.ExecutableRuntimeDrift message (Some "executable"%string) false
  end.

(** [{:x}] of a [u32] *)
Definition hex_digit (n : Z) : string :=
  String (Ascii.ascii_of_N (Z.to_N (if n <? 10 then 48 + n else 87 + n))) "".

Fixpoint hex_digits (digits : nat) (n : Z) (acc : string) : string :=
  match digits with
  | O => acc
  | S digits =>
      let acc := hex_digit (n mod 16) +:+ acc in
      if n <? 16 then acc else hex_digits digits (n / 16) acc
  end.

Definition path_runtime_drift (kind : PathDriftKind.t) (path : string) (mask : Z) : UniversalExecError :=
  let subject := match kind with
                 | PathDriftKind.HostDependency => "declared Host Dependency"
                 | PathDriftKind.Executable => "target executable"
                 end%string in
  path_drift_infrastructure_error kind
    (subject +:+ " path topology or bytes changed during execution near " +:+ path
     +:+ " (inotify mask 0x" +:+ hex_digits 8 mask "" +:+ ")").

(** [PathObjectIdentity::observe] *)
Definition observe (path : string) (kind : PathDriftKind.t) : ueff PathObjectIdentity :=
  metadata ← utry_map (fun error => path_drift_infrastructure_error kind
    ("cannot remeasure path identity for " +:+ path +:+ ": " +:+ io_text error)) (Metadata path false);
  mret {| poi_device := md_dev metadata; poi_inode := md_ino metadata;
          poi_file_type := Z.land (md_mode metadata) S_IFMT |}.

(** ** Opening it *)

Definition no_plan : PathDriftWatchPlan := {| pwp_direct := false; pwp_children := ∅ |}.
Definition set_direct (plan : PathDriftWatchPlan) : PathDriftWatchPlan :=
  {| pwp_direct := true; pwp_children := pwp_children plan |}.
Definition insert_child (name path : string) (plan : PathDriftWatchPlan) : PathDriftWatchPlan :=
  {| pwp_direct := pwp_direct plan; pwp_children := <[name := path]> (pwp_children plan) |}.

(** The [while let]: every directory above [current] has the next one below it as
    a child.  [fuel] is enough when it is the number of the components. *)
Fixpoint plan_parents (fuel : nat) (current : string) (plans : path_map PathDriftWatchPlan)
    : path_map PathDriftWatchPlan :=
  match fuel with
  | O => plans
  | S fuel =>
      match path_parent current, file_name current with
      | Some parent, Some name =>
          let plans := at_path parent no_plan (insert_child name current) plans in
          if path_eq parent "/" then plans else plan_parents fuel parent plans
      | _, _ => plans
      end
  end.

Definition plan_path (plans : path_map PathDriftWatchPlan) (path : string) : path_map PathDriftWatchPlan :=
  plan_parents (length (components path)) path (at_path path no_plan set_direct plans).

Definition watch_plans (paths : list string) : path_map PathDriftWatchPlan := foldl plan_path [] paths.

Definition watch_mask (plan : PathDriftWatchPlan) : Z :=
  flags ([IN_ATTRIB; IN_CLOSE_WRITE; IN_DELETE_SELF; IN_MOVE_SELF; IN_UNMOUNT]
         ++ (if pwp_direct plan then [IN_MODIFY] else [])
         ++ (if bool_decide (pwp_children plan = ∅) then []
             else [IN_CREATE; IN_DELETE; IN_MOVED_FROM; IN_MOVED_TO; IN_MODIFY])).

Fixpoint add_watches (kind : PathDriftKind.t) (fd : Z) (plans : path_map PathDriftWatchPlan)
    (specs : gmap Z PathDriftWatchSpec) : ueff (gmap Z PathDriftWatchSpec) :=
  match plans with
  | [] => mret specs
  | (path, plan) :: rest =>
      uresult (fail_if (contains_nul path)
        (path_drift_infrastructure_error kind "path drift watch contains NUL")) ;;
      wd ← utry_map (fun error => path_drift_infrastructure_error kind
             ("cannot watch path " +:+ path +:+ ": " +:+ io_text error))
             (InotifyAddWatch fd path (watch_mask plan));
      add_watches kind fd rest
        (<[wd := {| pws_path := path; pws_direct := pwp_direct plan; pws_children := pwp_children plan |}]> specs)
  end.

Fixpoint observe_all (kind : PathDriftKind.t) (paths : list string)
    : ueff (path_map PathObjectIdentity) :=
  match paths with
  | [] => mret []
  | path :: rest =>
      identity ← observe path kind;
      identities ← observe_all kind rest;
      mret ((path, identity) :: identities)
  end.

(** [PathDriftWatch::new] *)
Definition path_drift_watch (paths : list string) (kind : PathDriftKind.t) : ueff PathDriftWatch :=
  fd ← utry_map (fun error => path_drift_infrastructure_error kind
         ("cannot create path drift witness: " +:+ io_text error)) InotifyInit;
  let plans := watch_plans paths in
  specs ← add_watches kind fd plans ∅;
  identities ← observe_all kind (map fst plans);
  mret {| pdw_fd := fd; pdw_specs := specs; pdw_identities := identities;
          pdw_direct_paths := paths; pdw_kind := kind |}.

Definition new_host_dependencies (dependencies : list RunnerHostDependencyCommitment)
    : ueff (option PathDriftWatch) :=
  match dependencies with
  | [] => mret None
  | _ =>
      watch ← path_drift_watch (map rhd_path dependencies) PathDriftKind.HostDependency;
      mret (Some watch)
  end.

Definition new_executable (path : string) : ueff PathDriftWatch :=
  path_drift_watch [path] PathDriftKind.Executable.

(** ** Asking it *)

(** [inotify_event]: [wd: i32], [mask: u32], [cookie: u32], [len: u32], and the
    name, padded with NUL to [len]. *)
Definition EVENT_SIZE : nat := 16.

Definition le_u32 (s : string) : Z := foldr (fun b n => b + 256 * n) 0 (bytes (str_take 4 s)).
Definition le_i32 (s : string) : Z := let n := le_u32 s in if n <? 2 ^ 31 then n else n - 2 ^ 32.

Record InotifyEvent : Type := {
  ie_wd : Z;
  ie_mask : Z;
  ie_len : Z;
  ie_name : string;
}.

Fixpoint until_nul (s : string) : string :=
  match s with
  | EmptyString => EmptyString
  | String c s => if byte_of c =? 0 then EmptyString else String c (until_nul s)
  end.

Definition event_at (s : string) : InotifyEvent :=
  let len := le_u32 (str_drop 12 s) in
  {| ie_wd := le_i32 s; ie_mask := le_u32 (str_drop 4 s); ie_len := len;
     ie_name := until_nul (str_take (Z.to_nat len) (str_drop EVENT_SIZE s)) |}.

Section watch.
Context (watch : PathDriftWatch).

Definition drift (path : string) (mask : Z) : UniversalExecError :=
  path_runtime_drift (pdw_kind watch) path mask.

Definition path_identity_unchanged (path : string) : ueff bool :=
  expected ← uresult (ok_or (path_drift_infrastructure_error (pdw_kind watch)
    ("path drift witness has no baseline identity for " +:+ path))
    (path_lookup path (pdw_identities watch)));
  observed ← observe path (pdw_kind watch);
  mret (observed == expected).

(** [direct || !self.path_identity_unchanged(path)?] is an error. *)
Definition unless_unchanged (direct : bool) (path : string) (mask : Z) : ueff unit :=
  if direct then uthrow (drift path mask)
  else
    unchanged ← path_identity_unchanged path;
    uresult (fail_if (negb unchanged) (drift path mask)).

Definition METADATA_MASK : Z := flags [IN_ATTRIB; IN_CLOSE_WRITE; IN_MODIFY].
Definition STRONG_SELF_MASK : Z := flags [IN_DELETE_SELF; IN_MOVE_SELF; IN_UNMOUNT; IN_IGNORED].
Definition STRONG_CHILD_MASK : Z := flags [IN_CREATE; IN_DELETE; IN_MOVED_FROM; IN_MOVED_TO].

Definition is_direct_path (path : string) : bool := existsb (path_eq path) (pdw_direct_paths watch).

Definition handle_child (child_path : string) (mask : Z) : ueff unit :=
  uresult (fail_if (has_any mask STRONG_CHILD_MASK) (drift child_path mask)) ;;
  if has_any mask METADATA_MASK then unless_unchanged (is_direct_path child_path) child_path mask
  else mret tt.

Definition handle_event (event : InotifyEvent) : ueff unit :=
  match pdw_specs watch !! ie_wd event with
  | None => mret tt
  | Some spec =>
      uresult (fail_if (has_any (ie_mask event) STRONG_SELF_MASK) (drift (pws_path spec) (ie_mask event))) ;;
      (if (ie_len event =? 0) && has_any (ie_mask event) METADATA_MASK
       then unless_unchanged (pws_direct spec) (pws_path spec) (ie_mask event)
       else mret tt) ;;
      if 0 <? ie_len event
      then match pws_children spec !! ie_name event with
           | Some child_path => handle_child child_path (ie_mask event)
           | None => mret tt
           end
      else mret tt
  end.

(** The [while offset + size_of::<inotify_event>() <= read] on what is left of the
    buffer.  [fuel] is enough when it is the length. *)
Fixpoint handle_events (fuel : nat) (rest : string) : ueff unit :=
  match fuel with
  | O => mret tt
  | S fuel =>
      if (String.length rest <? EVENT_SIZE)%nat then mret tt
      else
        let event := event_at rest in
        uresult (fail_if (str_len rest <? Z.of_nat EVENT_SIZE + ie_len event)
          (path_drift_infrastructure_error (pdw_kind watch) "path drift witness emitted a malformed event")) ;;
        uresult (fail_if (has_any (ie_mask event) IN_Q_OVERFLOW)
          (path_drift_infrastructure_error (pdw_kind watch) "path drift witness queue overflowed")) ;;
        handle_event event ;;
        handle_events fuel (str_drop (EVENT_SIZE + Z.to_nat (ie_len event)) rest)
  end.

Fixpoint handle_reads (reads : list (result (option IoFailure) string)) : ueff unit :=
  match reads with
  | [] | Err None :: _ | Ok EmptyString :: _ => mret tt
  | Err (Some error) :: _ =>
      uthrow (path_drift_infrastructure_error (pdw_kind watch)
        ("cannot read path drift witness: " +:+ io_text error))
  | Ok buffer :: rest => handle_events (String.length buffer) buffer ;; handle_reads rest
  end.

(** [PathDriftWatch::check] *)
Definition check : ueff unit :=
  reads ← uask (InotifyReads (pdw_fd watch));
  handle_reads reads.
End watch.

(** [if let Some(watch) = watch.as_mut() { watch.check()?; }] *)
Definition check_if_some (watch : option PathDriftWatch) : ueff unit :=
  match watch with Some watch => check watch | None => mret tt end.
