(* ===== verification/Runner.v ===== *)
(** * The Runner

    [universal/runner.rs]: the process that systemd starts for an Attempt.  It
    reads the request from the bundle, tells how it was started, checks what was
    committed to, runs the steps one after the other, and leaves its result.
    The two threads that capture the output of a target are run where they are
    joined: they touch nothing but the output files and the pipes. *)

From S2P Require Import Prelude Text Errors Types Supervisor Platform Validation Submit Store.
From S2P Require Import Transaction Projection Admission Recovery Registry Query Effects Utf8.
From S2P Require Import Engine Linux Launch Inputs Binding Workspace Passes PathWatch.

#[local] Open Scope Z_scope.

Definition SYSTEMD_CREDENTIALS_DIRECTORY_ENV : string := "CREDENTIALS_DIRECTORY".
Definition TRUSTED_BUILD_TARGET_PRESENTATION_FD : Z := 198.

(** [serde_json] on the records of the Runner, and [{:?}] of a list of paths. *)
Class RunnerCodec : Type := {
  runner_request_of_json : string -> result string RunnerRequest;
  runner_result_to_json : RunnerResult -> string;
  runner_progress_to_json : RunnerProgress -> string;
  runner_start_to_json : RunnerStartEvidence -> string;
  paths_debug : list string -> string;
}.

Definition runner_error (message : string) : UniversalExecError :=
  universal_new UniversalExecErrorCode.MetadataCorrupt message None false.

Definition input_mismatch (message field : string) : UniversalExecError :=
  universal_new UniversalExecErrorCode.InputStateMismatch message (Some field) false.

Definition tool_failed_error (message : string) : UniversalExecError :=
  universal_new UniversalExecErrorCode.ToolFailed message None false.

Definition plain_io_error (operation : string) (error : IoFailure) : UniversalExecError :=
  universal_new UniversalExecErrorCode.IoError (operation +:+ ": " +:+ io_text error) None false.

(** The Workspace as the Runner sees it. *)
Definition workspace_view (request : RunnerRequest) : string :=
  match rq_payload request with
  | Some payload => rpc_workspace_view payload
  | None => rq_workspace_path request
  end.

(** ** The structure of a request *)

Definition absolute_and_nul_free (path : string) : bool := is_absolute path && negb (contains_nul path).

(** The digest checks of [validate_request_identity]. *)
Definition check_digest (valid : Z -> bool) (digest prefix_message hex_message : string)
    : result UniversalExecError unit :=
  match strip_prefix "sha256:" digest with
  | None => Err (runner_error prefix_message)
  | Some hex =>
      fail_if (negb ((str_len hex =? 64) && forallb valid (bytes hex))) (runner_error hex_message)
  end.

Definition check_input_commitment (root : option string) (index : nat) (input : RunnerInputCommitment)
    : result UniversalExecError unit :=
  let field := field_at "inputCommitments" index in
  fail_if (negb (absolute_and_nul_free (ric_presentation_path input)))
    (runner_error (field +:+ ".presentationPath must be an absolute NUL-free path")) ;;
  match root with
  | Some root =>
      fail_if (negb (path_starts_with (ric_presentation_path input) root))
        (runner_error (field +:+ ".presentationPath must remain inside inputPresentationRoot"))
  | None => Ok tt
  end ;;
  check_digest is_ascii_hexdigit (ric_digest input) (field +:+ ".digest must use sha256:<hex>")
    (field +:+ ".digest must be 32-byte SHA-256 hex").

Definition check_dependency_commitment (previous : option string) (index : nat)
    (dependency : RunnerHostDependencyCommitment) : result UniversalExecError unit :=
  let field := field_at "hostDependencies" index in
  fail_if (negb (absolute_and_nul_free (rhd_path dependency)))
    (runner_error (field +:+ ".path must be an absolute NUL-free path")) ;;
  check_digest lowercase_hex (rhd_digest dependency) (field +:+ ".digest must use sha256:<hex>")
    (field +:+ ".digest must be lowercase 32-byte SHA-256 hex") ;;
  fail_if (match previous with Some p => negb (str_lt p (rhd_path dependency)) | None => false end)
    (runner_error "hostDependencies must be sorted by unique path").

Fixpoint check_dependency_commitments (previous : option string) (index : nat)
    (dependencies : list RunnerHostDependencyCommitment) : result UniversalExecError unit :=
  match dependencies with
  | [] => Ok tt
  | dependency :: rest =>
      check_dependency_commitment previous index dependency ;;
      check_dependency_commitments (Some (rhd_path dependency)) (S index) rest
  end.

Definition check_payload (payload : RunnerPayloadConfig) : result UniversalExecError unit :=
  fail_if ((rpc_uid payload =? 0) || (rpc_gid payload =? 0))
    (runner_error "payload identity must be non-root") ;;
  for_each (fun '(field, value) =>
      fail_if (negb (absolute_and_nul_free value))
        (runner_error (field +:+ " must be an absolute NUL-free path")))
    [("payload.workspaceView"%string, rpc_workspace_view payload);
     ("payload.cwdView"%string, rpc_cwd_view payload);
     ("payload.runtimeView"%string, rpc_runtime_view payload);
     ("payload.cacheView"%string, rpc_cache_view payload)].

(** The Cargo target of an environment is the stable presentation. *)
Definition uses_stable_target (env : gmap string string) : bool :=
  env !! "CARGO_TARGET_DIR"%string == Some TRUSTED_BUILD_TARGET_PRESENTATION.

Section runner.
Context `{P : Platform, WC : WorkspaceCodec, RC : RunnerCodec}.

Definition validate_request_identity (request : RunnerRequest) : result UniversalExecError unit :=
  fail_if (rq_schema_version request != UNIVERSAL_EXEC_SCHEMA_VERSION)
    (runner_error "unsupported runner request schema") ;;
  validate_id (rq_task_id request) "taskId" ;;
  validate_id (rq_workspace_id request) "workspaceId" ;;
  validate_exec_payload (rq_args request) (rq_env request) "execution" ;;
  match rq_input_presentation_root request, rq_input_commitments request with
  | None, [] => Ok tt
  | Some root, _ :: _ =>
      fail_if (negb (absolute_and_nul_free root))
        (runner_error "inputPresentationRoot must be an absolute NUL-free path exactly when input commitments exist")
  | _, _ =>
      Err (runner_error "inputPresentationRoot must be an absolute NUL-free path exactly when input commitments exist")
  end ;;
  let uses := uses_stable_target (rq_env request)
              || existsb (fun step => uses_stable_target (res_env step)) (rq_steps request) in
  fail_if (negb match rq_build_target_backing request with
                | None => negb uses
                | Some backing =>
                    uses && negb (present (rq_payload request)) && absolute_and_nul_free backing
                end)
    (runner_error "buildTargetBacking must be an absolute NUL-free path exactly for trusted stable Cargo target presentation") ;;
  for_each_i (check_input_commitment (rq_input_presentation_root request)) 0 (rq_input_commitments request) ;;
  check_dependency_commitments None 0 (rq_host_dependencies request) ;;
  match rq_payload request with
  | Some payload => check_payload payload
  | None => Ok tt
  end.

Definition load_request (task_dir : string) : ueff RunnerRequest :=
  content ← utry_map (fun error => runner_error ("cannot read runner request: " +:+ io_text error))
              (ReadFile (path_join task_dir RUNNER_REQUEST_FILE));
  uresult (map_err (fun error => runner_error ("invalid runner request: " +:+ error))
    (runner_request_of_json content)).

(** ** What was committed to *)

Definition observe_workspace_source (request : RunnerRequest) : ueff (option string) :=
  match rq_workspace_source_digest request with
  | None => mret None
  | Some _ =>
      workspace ← canonical_directory (workspace_view request) "workspacePath";
      digest ← workspace_source_state_digest_at workspace;
      mret (Some digest)
  end.

Definition validate_workspace_source_commitment (request : RunnerRequest) (observed : option string)
    : result UniversalExecError unit :=
  match rq_workspace_source_digest request, observed with
  | None, None => Ok tt
  | Some expected, Some observed =>
      fail_if (negb (String.eqb expected observed))
        (universal_new UniversalExecErrorCode.WorkspaceStateMismatch
           "Workspace source state changed after operation admission"
           (Some "workspaceSourceDigest"%string) false)
  | _, _ =>
      Err (runner_error "Workspace source observation is inconsistent with the Runner request")
  end.

(** The entries of one directory of the tree: its files, and its directories
    with what is below them. *)
Fixpoint tree_entries (prefix : string) (entries : Entries)
    : result UniversalExecError (list string * list (string * Walk)) :=
  match entries with
  | NoMore => Ok ([], [])
  | BadEntry error _ =>
      Err (input_mismatch ("cannot read immutable input tree entry: " +:+ io_text error) "inputPresentationRoot")
  | BadMetadata _ error _ =>
      Err (input_mismatch ("cannot inspect immutable input tree entry: " +:+ io_text error) "inputPresentationRoot")
  | Entry name kind below rest =>
      let path := path_join prefix name in
      match kind with
      | Symlink => Err (input_mismatch ("immutable input tree contains symlink " +:+ path) "inputPresentationRoot")
      | OtherKind =>
          Err (input_mismatch ("immutable input tree contains unsupported filesystem object " +:+ path)
                 "inputPresentationRoot")
      | Directory => '(files, directories) ← tree_entries prefix rest; Ok (files, (path, below) :: directories)
      | RegularFile _ => '(files, directories) ← tree_entries prefix rest; Ok (path :: files, directories)
      end
  end.

(** How many directories a tree has. *)
Fixpoint directories_in (walk : Walk) : nat :=
  match walk with
  | Unreadable _ => 1
  | Listed entries => S (directories_below entries)
  end
with directories_below (entries : Entries) : nat :=
  match entries with
  | NoMore => 0
  | BadEntry _ rest | BadMetadata _ _ rest => directories_below rest
  | Entry _ Directory below rest => directories_in below + directories_below rest
  | Entry _ _ _ rest => directories_below rest
  end.

(** The loop over [pending], the last directory first.  [fuel] is enough when
    it is the number of the directories. *)
Fixpoint scan_tree (fuel : nat) (pending : list (string * Walk)) (files directories : list string)
    : result UniversalExecError (list string * list string) :=
  match pending, fuel with
  | [], _ => Ok (files, directories)
  | _, O => Err (runner_error "")
  | (directory, Unreadable error) :: _, S _ =>
      Err (input_mismatch ("cannot enumerate immutable input presentation tree " +:+ directory +:+ ": "
                           +:+ io_text error) "inputPresentationRoot")
  | (directory, Listed entries) :: rest, S fuel =>
      '(found, below) ← tree_entries directory entries;
      scan_tree fuel (rev below ++ rest) (files ++ found) (directories ++ map fst below)
  end.

(** A path below the root, as the text of its components. *)
Definition below_root (root path : string) : option string :=
  relative_text <$> components_strip_prefix (components root) (components path).

Definition expected_file (root : string) (input : RunnerInputCommitment)
    : result UniversalExecError string :=
  ok_or (input_mismatch ("immutable input " +:+ ric_presentation_path input
                         +:+ " is outside presentation root " +:+ root) "inputPresentationRoot")
    (below_root root (ric_presentation_path input)).

(** The directories above a relative path. *)
Definition directories_above (path : string) : list string :=
  let names := components path in
  map (fun n => relative_text (take n names)) (seq 1 (length names - 1)).

Fixpoint map_result {E A B} (f : A -> result E B) (l : list A) : result E (list B) :=
  match l with
  | [] => Ok []
  | x :: rest => y ← f x; ys ← map_result f rest; Ok (y :: ys)
  end.

Definition path_set (paths : list string) : gset string := list_to_set paths.

(** [observed.difference(&expected)], in the order of paths *)
Definition difference_text (a b : gset string) : string :=
  paths_debug (order_by (fun p q => path_compare p q != Gt) (elements (a ∖ b))).

Definition validate_input_tree_exact (root : string) (commitments : list RunnerInputCommitment) : ueff unit :=
  kind ← utry_map (fun error => input_mismatch ("immutable input presentation root is unavailable: "
                                   +:+ io_text error) "inputPresentationRoot") (SymlinkMetadata root);
  uresult (fail_if (negb (is_directory kind))
    (input_mismatch "immutable input presentation root is not a non-symlink directory" "inputPresentationRoot")) ;;
  expected ← uresult (map_result (expected_file root) commitments);
  walk ← uask (WalkTree root);
  '(files, directories) ← uresult (scan_tree (directories_in walk) [(root, walk)] [] []);
  let relative paths := path_set (map (fun path => default path (below_root root path)) paths) in
  let observed_files := relative files in
  let observed_directories := relative directories in
  let expected_files := path_set expected in
  let expected_directories := path_set (concat (map directories_above expected)) in
  uresult (fail_if ((observed_files != expected_files) || (observed_directories != expected_directories))
    (input_mismatch ("immutable input presentation tree differs from committed closure: unexpectedFiles="
       +:+ difference_text observed_files expected_files +:+ ", missingFiles="
       +:+ difference_text expected_files observed_files +:+ ", unexpectedDirectories="
       +:+ difference_text observed_directories expected_directories +:+ ", missingDirectories="
       +:+ difference_text expected_directories observed_directories) "inputPresentationRoot")).

Definition validate_input_commitment (index : nat) (input : RunnerInputCommitment) : ueff unit :=
  let field := field_at "inputCommitments" index in
  let path := ric_presentation_path input in
  kind ← utry_map (fun error => input_mismatch ("immutable input " +:+ path
           +:+ " is unavailable at target-spawn boundary: " +:+ io_text error) (field +:+ ".presentationPath"))
           (SymlinkMetadata path);
  length ← uresult (match kind with
                    | RegularFile length => Ok length
                    | _ => Err (input_mismatch ("immutable input " +:+ path
                                  +:+ " is not a regular non-symlink file") (field +:+ ".presentationPath"))
                    end);
  uresult (fail_if (length != ric_byte_length input)
    (input_mismatch ("immutable input " +:+ path +:+ " byte length changed after admission: expected "
       +:+ pretty (ric_byte_length input) +:+ ", observed " +:+ pretty length) (field +:+ ".byteLength"))) ;;
  observed ← utry (Sha256File path);
  uresult (fail_if (negb (String.eqb observed (ric_digest input)))
    (input_mismatch ("immutable input " +:+ path +:+ " digest changed after admission: expected "
       +:+ ric_digest input +:+ ", observed " +:+ observed) (field +:+ ".digest"))).

Definition validate_dependency_commitment (index : nat) (dependency : RunnerHostDependencyCommitment)
    : ueff unit :=
  let field := field_at "hostDependencies" index in
  let path := rhd_path dependency in
  kind ← utry_map (fun error => input_mismatch ("declared Host Dependency " +:+ path
           +:+ " is unavailable at target-spawn boundary: " +:+ io_text error) (field +:+ ".path"))
           (SymlinkMetadata path);
  uresult (fail_if (negb (is_regular kind))
    (input_mismatch ("declared Host Dependency " +:+ path +:+ " is not a regular non-symlink file")
       (field +:+ ".path"))) ;;
  observed ← utry (Sha256File path);
  uresult (fail_if (negb (String.eqb observed (rhd_digest dependency)))
    (input_mismatch ("declared Host Dependency " +:+ path +:+ " changed after admission: expected "
       +:+ rhd_digest dependency +:+ ", observed " +:+ observed) (field +:+ ".digest"))).

(** [for (index, x) in l.iter().enumerate() { f(index, x)?; }] *)
Fixpoint each_indexed {A} (f : nat -> A -> ueff unit) (index : nat) (l : list A) : ueff unit :=
  match l with
  | [] => mret tt
  | x :: rest => f index x ;; each_indexed f (S index) rest
  end.

Definition validate_input_commitments (request : RunnerRequest) : ueff unit :=
  match rq_input_presentation_root request with
  | Some root => validate_input_tree_exact root (rq_input_commitments request)
  | None => mret tt
  end ;;
  each_indexed validate_input_commitment 0 (rq_input_commitments request).

Definition validate_host_dependency_commitments (request : RunnerRequest) : ueff unit :=
  each_indexed validate_dependency_commitment 0 (rq_host_dependencies request).

(** ** How the Runner was started *)

Definition runner_read_trimmed (path : string) : ueff string :=
  content ← utry_map (fun error => runner_error ("cannot read " +:+ path +:+ ": " +:+ io_text error))
              (ReadText path);
  mret (str_trim content).

Definition read_self_cgroup : ueff string :=
  text ← runner_read_trimmed "/proc/self/cgroup";
  uresult (ok_or (runner_error "cannot identify cgroup v2 path")
    (path ← head (omap (strip_prefix "0::") (lines text));
     if starts_with "/" path then Some path else None)).

Definition read_process_start_identity (pid : Z) : ueff string :=
  stat ← runner_read_trimmed ("/proc/" +:+ pretty pid +:+ "/stat");
  uresult (match rev (split_on (Ascii.ascii_of_N 41) stat) with
           | after :: _ :: _ =>
               ok_or (runner_error "proc stat omitted process starttime") (split_whitespace after !! 19%nat)
           | _ => Err (runner_error "invalid proc stat format")
           end).

Definition runner_start (request : RunnerRequest) (job_id attempt_id launch_token unit_name : string)
    (observed_source : option string) (observed_unix_ms : Z) : ueff RunnerStartEvidence :=
  uresult (fail_if (negb (String.eqb (rq_task_id request) attempt_id))
    (runner_error "runtime taskId must equal attemptId")) ;;
  uresult (validate_id job_id "jobId") ;;
  uresult (validate_id attempt_id "attemptId") ;;
  uresult (fail_if (negb (ends_with ".service" unit_name))
    (runner_error "runtime unitName must identify a service")) ;;
  invocation ← uask (EnvironmentVariable "INVOCATION_ID");
  invocation ← uresult (ok_or (runner_error "systemd INVOCATION_ID is unavailable") invocation);
  control_group ← read_self_cgroup;
  pid ← uask ProcessId;
  identity ← read_process_start_identity pid;
  executable ← utry (Sha256File "/proc/self/exe");
  mret {| rse_schema_version := UNIVERSAL_EXEC_SCHEMA_VERSION;
          rse_job_id := job_id;
          rse_attempt_id := attempt_id;
          rse_launch_token_digest := sha256_bytes launch_token;
          rse_unit_name := unit_name;
          rse_invocation_id := invocation;
          rse_control_group := control_group;
          rse_namespace_pid := pid;
          rse_namespace_process_start_identity := identity;
          rse_payload_uid := rpc_uid <$> rq_payload request;
          rse_payload_gid := rpc_gid <$> rq_payload request;
          rse_observed_workspace_source_digest := observed_source;
          rse_runner_executable_digest := Some executable;
          rse_observed_unix_ms := observed_unix_ms |}.

Definition write_runner_start (task_dir : string) (request : RunnerRequest)
    (observed_source : option string) (observed_unix_ms : Z) : ueff unit :=
  match rq_job_id request, rq_attempt_id request, rq_launch_token request, rq_unit_name request with
  | None, None, None, None => mret tt
  | Some job_id, Some attempt_id, Some launch_token, Some unit_name =>
      evidence ← runner_start request job_id attempt_id launch_token unit_name observed_source observed_unix_ms;
      utry (WriteAtomic (path_join task_dir RUNNER_START_FILE) (runner_start_to_json evidence))
  | _, _, _, _ => uthrow (runner_error "Runner identity fields must appear together")
  end.

(** ** Output

    The reads of a pipe end where one gives nothing. *)
Fixpoint append_reads (path : string) (limit retained_before : Z)
    (reads : list (result IoFailure string)) (retained dropped : Z) : ueff (Z * Z) :=
  match reads with
  | [] | Ok EmptyString :: _ => mret (retained, dropped)
  | Err error :: _ => uthrow (plain_io_error "cannot read target output" error)
  | Ok chunk :: rest =>
      let read := str_len chunk in
      let remaining := saturating_sub limit (saturating_add retained_before retained) in
      let write_len := Z.min read remaining in
      (if 0 <? write_len
       then utry_map (plain_io_error "cannot persist target output")
              (WriteAll path (str_take (Z.to_nat write_len) chunk))
       else mret tt) ;;
      append_reads path limit retained_before rest
        (saturating_add retained write_len) (saturating_add dropped (read - write_len))
  end.

Definition capture_stream_append (pid : Z) (stdout : bool) (path : string) (limit retained_before : Z)
    : ueff (Z * Z) :=
  utry_map (plain_io_error ("cannot open " +:+ path +:+ " for append")) (OpenAppend path) ;;
  reads ← uask (PipeReads pid stdout);
  counts ← append_reads path limit retained_before reads 0 0;
  utry_map (plain_io_error "cannot sync target output") (SyncFile path) ;;
  mret counts.

Definition output_file_name (stdout : bool) : string := if stdout then STDOUT_FILE else STDERR_FILE.
Definition output_suffix (stdout : bool) : string := if stdout then "stdout" else "stderr".

Definition initialize_output_file (path : string) : ueff unit :=
  utry_map (plain_io_error ("cannot create " +:+ path)) (CreateNew path) ;;
  utry_map (plain_io_error ("cannot create " +:+ path)) (SyncFile path).

Definition captured_output_from_file (task_dir : string) (request : RunnerRequest) (stdout : bool)
    (retained dropped : Z) : ueff CapturedOutput :=
  let file_name := output_file_name stdout in
  let path := path_join task_dir file_name in
  actual ← utry_map (fun error => runner_error ("cannot inspect " +:+ file_name +:+ ": " +:+ io_text error))
             (FileLen path);
  uresult (fail_if (actual != retained)
    (runner_error ("captured " +:+ file_name +:+ " length " +:+ pretty actual
       +:+ " does not match retained count " +:+ pretty retained))) ;;
  digest ← utry (Sha256File path);
  mret {| co_artifact_id := rq_task_id request +:+ "." +:+ output_suffix stdout;
          co_file_name := file_name;
          co_digest := digest;
          co_retained_bytes := retained;
          co_dropped_bytes := dropped;
          co_truncated := 0 <? dropped |}.

Definition capture_empty_if_missing (task_dir task_id : string) (stdout : bool) : ueff CapturedOutput :=
  let file_name := output_file_name stdout in
  let path := path_join task_dir file_name in
  there ← uask (PathExists path);
  (if negb there
   then utry_map (plain_io_error "cannot create empty output") (CreateFile path) ;;
        utry_map (plain_io_error "cannot create empty output") (SyncFile path)
   else mret tt) ;;
  retained ← utry_map (plain_io_error "cannot inspect output") (FileLen path);
  digest ← utry (Sha256File path);
  mret {| co_artifact_id := task_id +:+ "." +:+ output_suffix stdout;
          co_file_name := file_name;
          co_digest := digest;
          co_retained_bytes := retained;
          co_dropped_bytes := 0;
          co_truncated := false |}.

Definition empty_output (task_id : string) (stdout : bool) : CapturedOutput :=
  {| co_artifact_id := task_id +:+ "." +:+ output_suffix stdout;
     co_file_name := output_file_name stdout;
     co_digest := sha256_bytes "";
     co_retained_bytes := 0;
     co_dropped_bytes := 0;
     co_truncated := false |}.

(** ** One step *)

(** [PreparedExecutable]: the path and the witness. *)
Record PreparedExecutable : Type := {
  pe_path : string;
  pe_watch : PathDriftWatch;
}.

Definition prepare_executable_realization (executable expected_digest field : string)
    : ueff PreparedExecutable :=
  let invalid_executable operation error :=
    universal_new UniversalExecErrorCode.InvalidRequest
      ("cannot " +:+ operation +:+ " target executable: " +:+ io_text error) (Some field) false in
  watch ← new_executable executable;
  canonical ← utry_map (invalid_executable "canonicalize") (Canonicalize executable);
  metadata ← utry_map (invalid_executable "inspect") (Metadata canonical true);
  uresult (fail_if (negb (is_regular (md_kind metadata)) || (Z.land (md_mode metadata) 73 =? 0))
    (runner_error "target must resolve to an executable file")) ;;
  observed_digest ← utry (Sha256File canonical);
  check watch ;;
  uresult (fail_if (negb (String.eqb observed_digest expected_digest))
    (input_mismatch ("target executable bytes changed before realization: expected "
       +:+ expected_digest +:+ ", observed " +:+ observed_digest) field)) ;;
  mret {| pe_path := executable; pe_watch := watch |}.

(** The directory that the target sees as its Cargo target directory. *)
Definition configure_build_target_presentation (backing : string) : ueff string :=
  backing ← canonical_directory backing "buildTargetBacking";
  utry_map (fun error => universal_new UniversalExecErrorCode.IoError
      ("cannot open private Cargo target backing " +:+ backing +:+ ": " +:+ io_text error)
      (Some "buildTargetBacking"%string) false) (OpenFile backing) ;;
  mret backing.

Definition build_target_of (request : RunnerRequest) (step : RunnerExecutionStep) : ueff (option string) :=
  if uses_stable_target (res_env step) then
    backing ← uresult (ok_or (runner_error "stable Cargo target presentation has no private backing")
                (rq_build_target_backing request));
    backing ← configure_build_target_presentation backing;
    mret (Some backing)
  else mret None.

Definition apply_systemd_credential_environment (env : gmap string string)
    (credentials_directory : option string) : gmap string string :=
  match credentials_directory with
  | Some directory => <[SYSTEMD_CREDENTIALS_DIRECTORY_ENV := directory]> env
  | None => env
  end.

Definition payload_environment (payload : RunnerPayloadConfig) (env : gmap string string)
    : gmap string string :=
  <["ORDIVON_PAYLOAD_GID" := pretty (rpc_gid payload)]>
    (<["ORDIVON_PAYLOAD_UID" := pretty (rpc_uid payload)]>
      (<["TMPDIR" := rpc_runtime_view payload]>
        (<["XDG_CACHE_HOME" := rpc_cache_view payload]>
          (<["HOME" := rpc_runtime_view payload]> env)))).

Definition target_command (request : RunnerRequest) (step : RunnerExecutionStep)
    (executable : PreparedExecutable) (credentials_directory build_target : option string)
    (cwd : string) : TargetCommand :=
  let env := apply_systemd_credential_environment (res_env step) credentials_directory in
  {| tgt_program := pe_path executable;
     tgt_arg0 := res_executable step;
     tgt_args := res_args step;
     tgt_clear_environment := negb (rq_inherit_host_environment request);
     tgt_environment := match rq_payload request with
                        | Some payload => payload_environment payload env
                        | None => env
                        end;
     tgt_build_target := build_target;
     tgt_identity := (fun payload => (rpc_uid payload, rpc_gid payload)) <$> rq_payload request;
     tgt_cwd := cwd |}.

Definition step_cwd_text (request : RunnerRequest) (step : RunnerExecutionStep) : string :=
  match rq_payload request with
  | Some payload =>
      path_join (rpc_workspace_view payload)
        (default "."%string (below_root (rq_workspace_path request) (res_cwd step)))
  | None => res_cwd step
  end.

(** The process that was started. *)
Record Target : Type := {
  tg_pid : Z;
  tg_step : RunnerExecutionStep;
  tg_executable : PreparedExecutable;
  tg_dependencies : option PathDriftWatch;
}.

(** [Result] as a value: what an [if let Err(error) = ..] looks at. *)
Definition outcome_of {A} (p : ueff A) : ueff (result UniversalExecError A) := prog_bind (fun a => Ret (Ok a)) p.

Definition start_step (request : RunnerRequest) (workspace : string) (step : RunnerExecutionStep)
    (dependencies : option PathDriftWatch) : ueff Target :=
  cwd ← canonical_directory (step_cwd_text request step) "cwd";
  uresult (fail_if (negb (path_starts_with cwd workspace)) (runner_error "runner cwd escaped workspace")) ;;
  uresult (validate_exec_payload (res_args step) (res_env step) "steps") ;;
  check_if_some dependencies ;;
  executable ← prepare_executable_realization (res_executable step) (res_executable_digest step) "executable";
  credentials_directory ← uask (EnvironmentVariable SYSTEMD_CREDENTIALS_DIRECTORY_ENV);
  build_target ← build_target_of request step;
  uresult (fail_if (present (rq_payload request) && contains_nul cwd)
    (runner_error "payload cwd contains NUL")) ;;
  pid ← utry_map (fun error => universal_new UniversalExecErrorCode.ToolFailed
            ("cannot start step " +:+ res_id step +:+ ": " +:+ io_text error)
            (Some "steps.executable"%string) false)
          (SpawnTarget (target_command request step executable credentials_directory build_target cwd));
  mret {| tg_pid := pid; tg_step := step; tg_executable := executable; tg_dependencies := dependencies |}.

Definition i32_max : Z := 2 ^ 31 - 1.

Definition terminate_process_group (pid : Z) (step_id : string) : ueff unit :=
  uresult (fail_if (i32_max <? pid)
    (tool_failed_error ("timed-out step " +:+ step_id +:+ " has an invalid process identity"))) ;;
  killed ← uask (KillProcessGroup pid);
  uresult (match killed with
           | Ok _ | Err None => Ok tt
           | Err (Some error) =>
               Err (tool_failed_error ("cannot terminate process group for timed-out step " +:+ step_id
                                       +:+ ": " +:+ io_text error))
           end).

Definition reap (target : Target) (what : string) : ueff ExitStatus :=
  utry_map (fun error => tool_failed_error ("cannot reap " +:+ what +:+ " step " +:+ res_id (tg_step target)
                                            +:+ ": " +:+ io_text error))
    (WaitTarget (tg_pid target)).

(** The target is ended because something drifted. *)
Definition end_drifted (target : Target) (what : string) (error : UniversalExecError)
    : ueff (ExitStatus * bool * option UniversalExecError) :=
  outcome_of (terminate_process_group (tg_pid target) (res_id (tg_step target))) ;;
  status ← reap target what;
  mret (status, false, Some error).

(** The [loop] that waits for the target: its status, whether it timed out, and
    what drifted. *)
Fixpoint wait_for_target (target : Target) (polls : nat)
    : ueff (ExitStatus * bool * option UniversalExecError) :=
  executable ← outcome_of (check (pe_watch (tg_executable target)));
  match executable with
  | Err error => end_drifted target "executable-drifted" error
  | Ok _ =>
      dependencies ← outcome_of (check_if_some (tg_dependencies target));
      match dependencies with
      | Err error => end_drifted target "drifted" error
      | Ok _ =>
          status ← utry_map (fun error => tool_failed_error ("cannot observe step "
                     +:+ res_id (tg_step target) +:+ ": " +:+ io_text error)) (TryWaitTarget (tg_pid target));
          match status, polls with
          | Some status, _ => mret (status, false, None)
          | None, O =>
              terminate_process_group (tg_pid target) (res_id (tg_step target)) ;;
              status ← reap target "timed-out";
              mret (status, true, None)
          | None, S polls => wait_for_target target polls
          end
      end
  end.

(** [Instant::checked_add(Duration::from_millis(ms))]: an [Instant] of Linux counts
    its seconds in an [i64]. *)
Definition instant_after (now timeout_ms : Z) : option Z :=
  let instant := now + timeout_ms * 1000000 in
  if instant / 1000000000 <? 2 ^ 63 then Some instant else None.

Record StepOutcome : Type := {
  sto_status : ExitStatus;
  sto_timed_out : bool;
  sto_stdout_retained : Z;
  sto_stderr_retained : Z;
  sto_stdout_dropped : Z;
  sto_stderr_dropped : Z;
}.

(** [StepExecutionContext] *)
Record StepExecutionContext : Type := {
  sec_overall_deadline : Z;
  sec_stdout_retained_before : Z;
  sec_stderr_retained_before : Z;
  sec_host_dependency_watch : option PathDriftWatch;
}.

(** The checks after the target has ended, unless something drifted before. *)
Definition last_checks (target : Target) (runtime_drift : option UniversalExecError) : ueff unit :=
  match runtime_drift with
  | Some error => uthrow error
  | None => check (pe_watch (tg_executable target)) ;; check_if_some (tg_dependencies target)
  end.

Definition execute_step (task_dir : string) (request : RunnerRequest) (workspace : string)
    (step : RunnerExecutionStep) (context : StepExecutionContext) : ueff StepOutcome :=
  target ← start_step request workspace step (sec_host_dependency_watch context);
  now ← uask InstantNow;
  step_deadline ← uresult (ok_or (runner_error "step timeout exceeds platform monotonic clock range")
                    (instant_after now (res_timeout_ms step)));
  polls ← uask (PollsBefore (Z.min step_deadline (sec_overall_deadline context)));
  '(status, timed_out, runtime_drift) ← wait_for_target target polls;
  '(stdout_retained, stdout_dropped) ← capture_stream_append (tg_pid target) true
    (path_join task_dir STDOUT_FILE) (rq_stdout_limit_bytes request) (sec_stdout_retained_before context);
  '(stderr_retained, stderr_dropped) ← capture_stream_append (tg_pid target) false
    (path_join task_dir STDERR_FILE) (rq_stderr_limit_bytes request) (sec_stderr_retained_before context);
  last_checks target runtime_drift ;;
  mret {| sto_status := status; sto_timed_out := timed_out;
          sto_stdout_retained := stdout_retained; sto_stderr_retained := stderr_retained;
          sto_stdout_dropped := stdout_dropped; sto_stderr_dropped := stderr_dropped |}.

(** ** The steps *)

(** [write_progress]: what it writes, and the revision it counts up to. *)
Definition write_progress (task_dir : string) (request : RunnerRequest) (revision : Z) (status : string)
    (completed_steps total_steps : Z) (current_step_id : option string) (current_step_index : option Z)
    (current_step_started_unix_ms : option Z) (failed_step_id : option string)
    (failed_step_index : option Z) : ueff Z :=
  let revision := saturating_add revision 1 in
  now ← utry UnixMs;
  utry (WriteAtomic (path_join task_dir PROGRESS_FILE) (runner_progress_to_json
    {| rp_schema_version := UNIVERSAL_EXEC_SCHEMA_VERSION;
       rp_task_id := rq_task_id request;
       rp_revision := revision;
       rp_status := status;
       rp_completed_steps := completed_steps;
       rp_total_steps := total_steps;
       rp_current_step_id := current_step_id;
       rp_current_step_index := current_step_index;
       rp_current_step_started_unix_ms := current_step_started_unix_ms;
       rp_failed_step_id := failed_step_id;
       rp_failed_step_index := failed_step_index;
       rp_updated_unix_ms := now |})) ;;
  mret revision.

(** The variables of [execute_request]. *)
Record RunState : Type := {
  rs_revision : Z;
  rs_completed_steps : Z;
  rs_step_results : list RunnerStepResult;
  rs_failed_step_id : option string;
  rs_failed_step_index : option Z;
  rs_first_failure_exit : option Z;
  rs_any_timed_out : bool;
  rs_stdout_retained : Z;
  rs_stderr_retained : Z;
  rs_stdout_dropped : Z;
  rs_stderr_dropped : Z;
  rs_cancelled : bool;
}.

Definition initial_state (revision : Z) : RunState :=
  {| rs_revision := revision; rs_completed_steps := 0; rs_step_results := [];
     rs_failed_step_id := None; rs_failed_step_index := None; rs_first_failure_exit := None;
     rs_any_timed_out := false; rs_stdout_retained := 0; rs_stderr_retained := 0;
     rs_stdout_dropped := 0; rs_stderr_dropped := 0; rs_cancelled := false |}.

Definition set_revision (revision : Z) (s : RunState) : RunState :=
  {| rs_revision := revision; rs_completed_steps := rs_completed_steps s;
     rs_step_results := rs_step_results s; rs_failed_step_id := rs_failed_step_id s;
     rs_failed_step_index := rs_failed_step_index s; rs_first_failure_exit := rs_first_failure_exit s;
     rs_any_timed_out := rs_any_timed_out s; rs_stdout_retained := rs_stdout_retained s;
     rs_stderr_retained := rs_stderr_retained s; rs_stdout_dropped := rs_stdout_dropped s;
     rs_stderr_dropped := rs_stderr_dropped s; rs_cancelled := rs_cancelled s |}.

Definition set_cancelled (s : RunState) : RunState :=
  {| rs_revision := rs_revision s; rs_completed_steps := rs_completed_steps s;
     rs_step_results := rs_step_results s; rs_failed_step_id := rs_failed_step_id s;
     rs_failed_step_index := rs_failed_step_index s; rs_first_failure_exit := rs_first_failure_exit s;
     rs_any_timed_out := rs_any_timed_out s; rs_stdout_retained := rs_stdout_retained s;
     rs_stderr_retained := rs_stderr_retained s; rs_stdout_dropped := rs_stdout_dropped s;
     rs_stderr_dropped := rs_stderr_dropped s; rs_cancelled := true |}.

(** The overall deadline has passed after the step. *)
Definition deadline_passed (step : RunnerExecutionStep) (index : Z) (s : RunState) : RunState :=
  {| rs_revision := rs_revision s; rs_completed_steps := rs_completed_steps s;
     rs_step_results := rs_step_results s;
     rs_failed_step_id :=
       match rs_failed_step_id s with None => Some (res_id step) | Some id => Some id end;
     rs_failed_step_index :=
       match rs_failed_step_id s with None => Some index | Some _ => rs_failed_step_index s end;
     rs_first_failure_exit := rs_first_failure_exit s;
     rs_any_timed_out := true; rs_stdout_retained := rs_stdout_retained s;
     rs_stderr_retained := rs_stderr_retained s; rs_stdout_dropped := rs_stdout_dropped s;
     rs_stderr_dropped := rs_stderr_dropped s; rs_cancelled := rs_cancelled s |}.

(** [ExitStatus::success] *)
Definition exited_zero (status : ExitStatus) : bool := status == Some 0.

Definition step_succeeded (outcome : StepOutcome) (was_cancelled : bool) : bool :=
  exited_zero (sto_status outcome) && negb (sto_timed_out outcome) && negb was_cancelled.

Definition step_status (outcome : StepOutcome) (was_cancelled : bool) : string :=
  if was_cancelled then "cancelled"
  else if sto_timed_out outcome then "timed_out"
  else if exited_zero (sto_status outcome) then "succeeded"
  else "failed".

Definition step_continued (step : RunnerExecutionStep) (outcome : StepOutcome) (was_cancelled : bool) : bool :=
  negb (step_succeeded outcome was_cancelled) && negb was_cancelled && negb (sto_timed_out outcome)
  && res_continue_on_error step.

(** A step has ended. *)
Definition record_outcome (step : RunnerExecutionStep) (index started finished : Z)
    (outcome : StepOutcome) (was_cancelled : bool) (s : RunState) : RunState :=
  let succeeded := step_succeeded outcome was_cancelled in
  let first_failure := negb succeeded && negb (present (rs_failed_step_id s)) in
  {| rs_revision := rs_revision s;
     rs_completed_steps :=
       if succeeded then Z.min u32_max (rs_completed_steps s + 1) else rs_completed_steps s;
     rs_step_results := rs_step_results s ++
       [{| rsr_id := res_id step; rsr_index := index;
           rsr_status := step_status outcome was_cancelled;
           rsr_exit_code := sto_status outcome;
           rsr_timed_out := sto_timed_out outcome;
           rsr_continued := step_continued step outcome was_cancelled;
           rsr_started_unix_ms := started; rsr_finished_unix_ms := finished |}];
     rs_failed_step_id := if first_failure then Some (res_id step) else rs_failed_step_id s;
     rs_failed_step_index := if first_failure then Some index else rs_failed_step_index s;
     rs_first_failure_exit := if first_failure then sto_status outcome else rs_first_failure_exit s;
     rs_any_timed_out := rs_any_timed_out s || sto_timed_out outcome;
     rs_stdout_retained := saturating_add (rs_stdout_retained s) (sto_stdout_retained outcome);
     rs_stderr_retained := saturating_add (rs_stderr_retained s) (sto_stderr_retained outcome);
     rs_stdout_dropped := saturating_add (rs_stdout_dropped s) (sto_stdout_dropped outcome);
     rs_stderr_dropped := saturating_add (rs_stderr_dropped s) (sto_stderr_dropped outcome);
     rs_cancelled := rs_cancelled s |}.

(** [steps], or the one that the request itself describes *)
Definition effective_steps (request : RunnerRequest) : list RunnerExecutionStep :=
  match rq_steps request with
  | [] => [{| res_id := "command";
              res_executable := rq_executable request;
              res_executable_digest := rq_executable_digest request;
              res_args := rq_args request;
              res_cwd := rq_cwd request;
              res_env := rq_env request;
              res_timeout_ms := rq_timeout_ms request;
              res_continue_on_error := false |}]
  | steps => steps
  end.

Section steps.
Context (task_dir : string) (request : RunnerRequest) (workspace : string).
Context (overall_deadline : Z) (total_steps : Z) (dependencies : option PathDriftWatch).

Definition progress (s : RunState) (status : string) (current : option (string * Z * Z)) : ueff RunState :=
  revision ← write_progress task_dir request (rs_revision s) status (rs_completed_steps s) total_steps
    ((fun c => fst (fst c)) <$> current) ((fun c => snd (fst c)) <$> current) (snd <$> current)
    (rs_failed_step_id s) (rs_failed_step_index s);
  mret (set_revision revision s).

(** A step that is started, and whether the loop breaks after it. *)
Definition run_step (step : RunnerExecutionStep) (index : Z) (s : RunState) : ueff (RunState * bool) :=
  started ← utry UnixMs;
  s ← progress s "working" (Some (res_id step, index, started));
  outcome ← execute_step task_dir request workspace step
    {| sec_overall_deadline := overall_deadline;
       sec_stdout_retained_before := rs_stdout_retained s;
       sec_stderr_retained_before := rs_stderr_retained s;
       sec_host_dependency_watch := dependencies |};
  finished ← utry UnixMs;
  was_cancelled ← uask (PathExists (path_join task_dir CANCEL_FILE));
  let s := record_outcome step index started finished outcome was_cancelled s in
  let succeeded := step_succeeded outcome was_cancelled in
  let continued := step_continued step outcome was_cancelled in
  s ← progress s (if succeeded || continued then "working"%string else step_status outcome was_cancelled) None;
  mret (if was_cancelled then set_cancelled s else s,
        was_cancelled || (negb succeeded && (negb continued || sto_timed_out outcome))).

(** The [for] loop. *)
Fixpoint run_steps (index : nat) (steps : list RunnerExecutionStep) (s : RunState) : ueff RunState :=
  match steps with
  | [] => mret s
  | step :: rest =>
      cancel ← uask (PathExists (path_join task_dir CANCEL_FILE));
      if (cancel : bool) then (mret (set_cancelled s) : ueff RunState)
      else
        let index_u32 := Z.min u32_max (Z.of_nat index) in
        '(s, stop) ← run_step step index_u32 s;
        if (stop : bool) then (mret s : ueff RunState)
        else
          now ← uask InstantNow;
          if overall_deadline <=? now then (mret (deadline_passed step index_u32 s) : ueff RunState)
          else run_steps (S index) rest s
  end.
End steps.

Definition terminal_status (s : RunState) : RunnerTerminalStatus.t :=
  if rs_cancelled s then RunnerTerminalStatus.Cancelled
  else if present (rs_failed_step_id s) || rs_any_timed_out s then RunnerTerminalStatus.Failed
  else RunnerTerminalStatus.Completed.

Definition terminal_progress (s : RunState) : string :=
  match terminal_status s with
  | RunnerTerminalStatus.Completed => "succeeded"
  | RunnerTerminalStatus.Cancelled => "cancelled"
  | RunnerTerminalStatus.Failed => if rs_any_timed_out s then "timed_out" else "failed"
  end.

(** The result after the steps. *)
Definition result_of_run (request : RunnerRequest) (started finished : Z) (s : RunState)
    (stdout stderr : CapturedOutput) : RunnerResult :=
  {| rr_schema_version := UNIVERSAL_EXEC_SCHEMA_VERSION;
     rr_task_id := rq_task_id request;
     rr_job_id := rq_job_id request;
     rr_attempt_id := rq_attempt_id request;
     rr_launch_token_digest := sha256_bytes <$> rq_launch_token request;
     rr_payload_uid := rpc_uid <$> rq_payload request;
     rr_payload_gid := rpc_gid <$> rq_payload request;
     rr_status := terminal_status s;
     rr_exit_code := match rs_first_failure_exit s with
                     | Some code => Some code
                     | None => last (rs_step_results s) ≫= rsr_exit_code
                     end;
     rr_timed_out := rs_any_timed_out s;
     rr_infrastructure_error_code := None;
     rr_infrastructure_error := None;
     rr_started_unix_ms := started;
     rr_finished_unix_ms := finished;
     rr_steps := rs_step_results s;
     rr_failed_step_id := rs_failed_step_id s;
     rr_failed_step_index := rs_failed_step_index s;
     rr_stdout := stdout;
     rr_stderr := stderr |}.

Definition finish_request (task_dir : string) (request : RunnerRequest) (started total_steps : Z)
    (dependencies : option PathDriftWatch) (s : RunState) : ueff RunnerResult :=
  check_if_some dependencies ;;
  s ← progress task_dir request total_steps s (terminal_progress s) None;
  stdout ← captured_output_from_file task_dir request true (rs_stdout_retained s) (rs_stdout_dropped s);
  stderr ← captured_output_from_file task_dir request false (rs_stderr_retained s) (rs_stderr_dropped s);
  finished ← utry UnixMs;
  mret (result_of_run request started finished s stdout stderr).

Definition execute_request (task_dir : string) (request : RunnerRequest) (started_unix_ms : Z)
    (dependencies : option PathDriftWatch) : ueff RunnerResult :=
  uresult (validate_request_identity request) ;;
  workspace ← canonical_directory (workspace_view request) "workspacePath";
  initialize_output_file (path_join task_dir STDOUT_FILE) ;;
  initialize_output_file (path_join task_dir STDERR_FILE) ;;
  let steps := effective_steps request in
  let total_steps := Z.min u32_max (Z.of_nat (length steps)) in
  now ← uask InstantNow;
  overall_deadline ← uresult (ok_or (runner_error "task timeout exceeds platform monotonic clock range")
                       (instant_after now (rq_timeout_ms request)));
  s ← progress task_dir request total_steps (initial_state 0) "working" None;
  s ← run_steps task_dir request workspace overall_deadline total_steps dependencies 0 steps s;
  finish_request task_dir request started_unix_ms total_steps dependencies s.

(** ** The run *)

(** A result that tells of a failure of the Runner. *)
Definition infrastructure_result (request : RunnerRequest) (started finished : Z)
    (infrastructure_error_code message : string) (stdout stderr : CapturedOutput) : RunnerResult :=
  {| rr_schema_version := UNIVERSAL_EXEC_SCHEMA_VERSION;
     rr_task_id := rq_task_id request;
     rr_job_id := rq_job_id request;
     rr_attempt_id := rq_attempt_id request;
     rr_launch_token_digest := sha256_bytes <$> rq_launch_token request;
     rr_payload_uid := rpc_uid <$> rq_payload request;
     rr_payload_gid := rpc_gid <$> rq_payload request;
     rr_status := RunnerTerminalStatus.Failed;
     rr_exit_code := None;
     rr_timed_out := false;
     rr_infrastructure_error_code := Some infrastructure_error_code;
     rr_infrastructure_error := Some message;
     rr_started_unix_ms := started;
     rr_finished_unix_ms := finished;
     rr_steps := [];
     rr_failed_step_id := None;
     rr_failed_step_index := None;
     rr_stdout := stdout;
     rr_stderr := stderr |}.

Definition failure_result (task_dir : string) (request : RunnerRequest) (started_unix_ms : Z)
    (infrastructure_error_code message : string) : ueff RunnerResult :=
  finished ← utry UnixMs;
  stdout ← capture_empty_if_missing task_dir (rq_task_id request) true;
  stderr ← capture_empty_if_missing task_dir (rq_task_id request) false;
  mret (infrastructure_result request started_unix_ms finished infrastructure_error_code message stdout stderr).

(** [validate_request_identity(&request).and_then(..)] *)
Definition checked_execution (task_dir : string) (request : RunnerRequest) (started_unix_ms : Z)
    : ueff RunnerResult :=
  uresult (validate_request_identity request) ;;
  observed ← observe_workspace_source request;
  write_runner_start task_dir request observed started_unix_ms ;;
  uresult (validate_workspace_source_commitment request observed) ;;
  validate_input_commitments request ;;
  dependencies ← new_host_dependencies (rq_host_dependencies request);
  validate_host_dependency_commitments request ;;
  check_if_some dependencies ;;
  execute_request task_dir request started_unix_ms dependencies.

(** [execution.unwrap_or_else(..)] *)
Definition result_or_failure (task_dir : string) (request : RunnerRequest) (started_unix_ms : Z)
    (execution : result UniversalExecError RunnerResult) : ueff RunnerResult :=
  match execution with
  | Ok result => mret result
  | Err error =>
      let code := UniversalExecErrorCode.as_str (ue_code error) in
      failure ← outcome_of (failure_result task_dir request started_unix_ms code
                  (universal_error_to_string error));
      match failure with
      | Ok result => mret result
      | Err secondary =>
          mret (infrastructure_result request started_unix_ms started_unix_ms code
            ("runner failure: " +:+ universal_error_to_string error +:+ "; result construction failure: "
             +:+ universal_error_to_string secondary)
            (empty_output (rq_task_id request) true) (empty_output (rq_task_id request) false))
      end
  end.

Definition run_job_runner (task_dir : string) : ueff unit :=
  uresult (fail_if (negb (is_absolute task_dir)) (runner_error "task directory must be absolute")) ;;
  task_dir ← canonical_directory task_dir "taskDir";
  request ← load_request task_dir;
  started_unix_ms ← utry UnixMs;
  execution ← outcome_of (checked_execution task_dir request started_unix_ms);
  result ← result_or_failure task_dir request started_unix_ms execution;
  utry (WriteAtomic (path_join task_dir RESULT_FILE) (runner_result_to_json result)).
End runner.
