(* ===== verification/RunnerSpec.v ===== *)
(** * What a run of the Runner is worth

    A target is started only as the next step of the request, after everything
    that was committed to has been measured; the result that is written tells
    the truth about the processes that were started, is the one that the engine
    takes for the Attempt's own, and is always written; what is kept of the
    output is its beginning; and a change near a watched path is noticed. *)

From S2P Require Import Prelude Text Errors Types Supervisor Platform Validation Submit Store.
From S2P Require Import SubmitSpec Transaction Projection Lifecycle Admission Recovery Registry Query.
From S2P Require Import Effects Utf8 Engine Linux Launch Inputs Binding Evidence Workspace Bundle.
From S2P Require Import Dispatching Passes Silence Observed TestPlatform Scenario TestWorld Worlds Justified.
From S2P Require Import PlanSpec PathWatch Runner.

#[local] Open Scope Z_scope.
#[local] Arguments String.append !_ _ /.

(** ** What starts no target *)

Section quiet.
Context `{P : Platform, WC : WorkspaceCodec, RC : RunnerCodec}.

Lemma quiet_outcome_of {A} (p : ueff A) : quiet p -> quiet (outcome_of p).
Proof. intros Hp. by apply quiet_prog_bind. Qed.
#[local] Hint Resolve quiet_outcome_of quiet_canonical : quiet.

Lemma quiet_observe path kind : quiet (observe path kind).
Proof. unfold observe. quiet_auto. Qed.
#[local] Hint Resolve quiet_observe : quiet.
Lemma quiet_add_watches kind fd plans : forall specs, quiet (add_watches kind fd plans specs).
Proof. induction plans as [ | [path plan] rest IH]; intros specs; cbn [add_watches]; quiet_auto. Qed.
Lemma quiet_observe_all kind paths : quiet (observe_all kind paths).
Proof. induction paths; cbn [observe_all]; quiet_auto. Qed.
#[local] Hint Resolve quiet_add_watches quiet_observe_all : quiet.
Lemma quiet_path_drift_watch paths kind : quiet (path_drift_watch paths kind).
Proof. unfold path_drift_watch. cbv zeta. quiet_auto. Qed.
#[local] Hint Resolve quiet_path_drift_watch : quiet.
Lemma quiet_new_host_dependencies l : quiet (new_host_dependencies l).
Proof. unfold new_host_dependencies. quiet_auto. Qed.

Lemma quiet_handle_event watch event : quiet (handle_event watch event).
Proof. unfold handle_event, handle_child, unless_unchanged, path_identity_unchanged. quiet_auto. Qed.
#[local] Hint Resolve quiet_handle_event : quiet.
Lemma quiet_handle_events watch fuel : forall rest, quiet (handle_events watch fuel rest).
Proof. induction fuel; intros rest; cbn [handle_events]; cbv zeta; quiet_auto. Qed.
#[local] Hint Resolve quiet_handle_events : quiet.
Lemma quiet_handle_reads watch reads : quiet (handle_reads watch reads).
Proof. induction reads; cbn [handle_reads]; quiet_auto. Qed.
#[local] Hint Resolve quiet_handle_reads : quiet.
Lemma quiet_check watch : quiet (check watch).
Proof. unfold check. quiet_auto. Qed.
#[local] Hint Resolve quiet_check : quiet.
Lemma quiet_check_if_some watch : quiet (check_if_some watch).
Proof. unfold check_if_some. quiet_auto. Qed.
#[local] Hint Resolve quiet_check_if_some : quiet.

Lemma quiet_workspace_source request : quiet (observe_workspace_source request).
Proof.
  unfold observe_workspace_source. destruct (rq_workspace_source_digest request); [ | apply quiet_ret].
  apply quiet_ubind; [apply quiet_canonical | ]. intros workspace.
  apply quiet_ubind; [exact (quiet_source_below PATH_MAX _) | ]. intros digest. apply quiet_ret.
Qed.
Lemma quiet_each_indexed {A} (f : nat -> A -> ueff unit) l :
  (forall i x, quiet (f i x)) -> forall i, quiet (each_indexed f i l).
Proof. intros Hf. induction l; intros i; cbn [each_indexed]; quiet_auto. Qed.
Lemma quiet_input_commitments request : quiet (validate_input_commitments request).
Proof.
  unfold validate_input_commitments, validate_input_tree_exact.
  repeat first [apply quiet_each_indexed; intros; unfold validate_input_commitment; cbv zeta | progress quiet_auto].
Qed.
Lemma quiet_dependency_commitments request : quiet (validate_host_dependency_commitments request).
Proof.
  unfold validate_host_dependency_commitments.
  repeat first [apply quiet_each_indexed; intros; unfold validate_dependency_commitment; cbv zeta | progress quiet_auto].
Qed.
Lemma quiet_runner_start task_dir request observed at_ms :
  quiet (write_runner_start task_dir request observed at_ms).
Proof.
  unfold write_runner_start, runner_start, read_self_cgroup, read_process_start_identity, runner_read_trimmed.
  quiet_auto.
Qed.

Lemma quiet_append_reads path limit before reads : forall retained dropped,
  quiet (append_reads path limit before reads retained dropped).
Proof. induction reads; intros retained dropped; cbn [append_reads]; cbv zeta; quiet_auto. Qed.
#[local] Hint Resolve quiet_append_reads : quiet.
Lemma quiet_capture pid stdout path limit before : quiet (capture_stream_append pid stdout path limit before).
Proof. unfold capture_stream_append. quiet_auto. Qed.
Lemma quiet_captured_output task_dir request stdout retained dropped :
  quiet (captured_output_from_file task_dir request stdout retained dropped).
Proof. unfold captured_output_from_file. quiet_auto. Qed.
Lemma quiet_failure_result task_dir request started code message :
  quiet (failure_result task_dir request started code message).
Proof. unfold failure_result, capture_empty_if_missing. quiet_auto. Qed.
Lemma quiet_initialize path : quiet (initialize_output_file path).
Proof. unfold initialize_output_file. quiet_auto. Qed.
Lemma quiet_prepare executable digest field : quiet (prepare_executable_realization executable digest field).
Proof. unfold prepare_executable_realization, new_executable. cbv zeta. quiet_auto. Qed.
Lemma quiet_build_target request step : quiet (build_target_of request step).
Proof. unfold build_target_of, configure_build_target_presentation. quiet_auto. Qed.
Lemma quiet_terminate pid id : quiet (terminate_process_group pid id).
Proof. unfold terminate_process_group. quiet_auto. Qed.
#[local] Hint Resolve quiet_terminate : quiet.
Lemma quiet_wait target polls : quiet (wait_for_target target polls).
Proof. induction polls; cbn [wait_for_target]; unfold end_drifted, reap; quiet_auto. Qed.
Lemma quiet_last_checks target drift : quiet (last_checks target drift).
Proof. unfold last_checks. quiet_auto. Qed.
Lemma quiet_progress task_dir request total s status current :
  quiet (progress task_dir request total s status current).
Proof. unfold progress, write_progress. cbv zeta. quiet_auto. Qed.
Lemma quiet_load_request task_dir : quiet (load_request task_dir).
Proof. unfold load_request. quiet_auto. Qed.
End quiet.
#[export] Hint Resolve quiet_outcome_of quiet_canonical quiet_check quiet_check_if_some
  quiet_path_drift_watch quiet_append_reads quiet_new_host_dependencies quiet_workspace_source quiet_input_commitments quiet_dependency_commitments
  quiet_runner_start quiet_capture quiet_captured_output quiet_failure_result quiet_initialize quiet_prepare
  quiet_build_target quiet_terminate quiet_wait quiet_last_checks quiet_progress quiet_load_request : quiet.

(** ** What a run establishes *)

(** The targets that were started, the first one first. *)
Definition started (e : event) : option TargetCommand :=
  match e with Event (SpawnTarget command) _ => Some command | _ => None end.
Definition targets (h : history) : list TargetCommand := omap started h.

Lemma targets_app h1 h2 : targets (h1 ++ h2) = targets h1 ++ targets h2.
Proof. apply omap_app. Qed.

Lemma silent_targets {A} (p : prog A) Q : forall h,
  wp silent p h Q -> wp silent p h (fun a h' => Q a h' /\ exists seg, h' = h ++ seg /\ targets seg = []).
Proof.
  induction p as [a | R c k IH]; intros h; cbn [wp].
  - intros HQ. split; [done | ]. exists []. by rewrite app_nil_r.
  - intros [Hc Hk]. split; [done | ]. intros r. eapply wp_mono; [ | by apply IH].
    intros a h' _ [HQ (seg & -> & Ht)]. split; [done | ]. exists (Event c r :: seg).
    rewrite <- app_assoc. split; [done | ]. unfold targets in *. cbn [omap list_omap]. by destruct c.
Qed.

(** [returns ok p h Q]: every call of [p] satisfies [ok], and a value that it
    returns satisfies [Q]. *)
Definition returns (ok : forall R, call R -> history -> Prop) {A} (p : ueff A) (h : history)
    (Q : A -> history -> Prop) : Prop :=
  wp ok p h (fun r h' => forall a, r = Ok a -> Q a h').

Section returns.
Context (ok : forall R, call R -> history -> Prop).
Context (Hok : forall R (c : call R) h, silent R c h -> ok R c h).

Lemma returns_ret {A} (a : A) (Q : A -> history -> Prop) h : Q a h -> returns ok (mret a) h Q.
Proof. intros HQ b [= <-]. exact HQ. Qed.

Lemma returns_mono {A} (p : ueff A) (Q1 Q2 : A -> history -> Prop) h :
  returns ok p h Q1 -> (forall a h', Q1 a h' -> Q2 a h') -> returns ok p h Q2.
Proof. intros H HQ. eapply wp_mono; [ | exact H]. intros r h' _ Hr a Ha. by apply HQ, Hr. Qed.

Lemma returns_bind {A B} (p : ueff A) (f : A -> ueff B) Q h :
  returns ok p h (fun a h' => returns ok (f a) h' Q) -> returns ok (p ≫= f) h Q.
Proof.
  intros H. apply wp_bind. eapply wp_mono; [ | exact H].
  intros [a | e] h' _ Hr; [by apply Hr | intros b Hb; discriminate Hb].
Qed.

Lemma returns_ensures {A B} (p : ueff A) (f : A -> ueff B) F Q h :
  ensures p F ->
  (forall a seg, F a seg -> targets seg = [] -> returns ok (f a) (h ++ seg) Q) ->
  returns ok (p ≫= f) h Q.
Proof.
  intros Hp Hf. apply wp_bind. eapply spec_wp; [exact (silent_targets _ _ _ Hp) | exact Hok | ].
  intros [a | e] seg [HF (seg' & -> & Ht)]; [ | intros b Hb; discriminate Hb].
  apply Hf; [by apply HF | exact Ht].
Qed.

Lemma returns_guard {B} (b : bool) (e : UniversalExecError) (f : unit -> ueff B) Q h :
  (b = false -> returns ok (f tt) h Q) -> returns ok (uresult (fail_if b e) ≫= f) h Q.
Proof. intros H. destruct b; [intros x Hx; discriminate Hx | by apply H]. Qed.

Lemma returns_value {A B} (r : result UniversalExecError A) (f : A -> ueff B) Q h :
  (forall a, r = Ok a -> returns ok (f a) h Q) -> returns ok (uresult r ≫= f) h Q.
Proof. intros H. destruct r; [by apply H | intros x Hx; discriminate Hx]. Qed.
End returns.

(** One more program that starts nothing. *)
Lemma returns_quiet ok {A B} (p : ueff A) (f : A -> ueff B) Q h :
  (forall R (c : call R) h, silent R c h -> ok R c h) -> quiet p ->
  (forall a seg, targets seg = [] -> returns ok (f a) (h ++ seg) Q) ->
  returns ok (p ≫= f) h Q.
Proof.
  intros Hok Hp Hf. eapply returns_ensures; [exact Hok | by apply ensures_quiet | ]. intros a seg _. apply Hf.
Qed.

Lemma ensures_utry {E R} (c : call (result E R)) : silent _ c [] ->
  ensures (Vis c Ret) (fun a h => Event c (Ok a) ∈ h).
Proof. intros Hc. split; [exact Hc | ]. intros r a ->. apply event_here. Qed.
Ltac en_utry := eapply ensures_ubind; [apply ensures_utry; exact I | ].

(** ** Facts *)

Section facts.
Context `{P : Platform, WC : WorkspaceCodec, RC : RunnerCodec}.
Context (task_dir : string) (request : RunnerRequest).

Definition input_measured (input : RunnerInputCommitment) (h : history) : Prop :=
  Event (SymlinkMetadata (ric_presentation_path input)) (Ok (RegularFile (ric_byte_length input))) ∈ h
  /\ Event (Sha256File (ric_presentation_path input)) (Ok (ric_digest input)) ∈ h.

Definition dependency_measured (dependency : RunnerHostDependencyCommitment) (h : history) : Prop :=
  (exists length, Event (SymlinkMetadata (rhd_path dependency)) (Ok (RegularFile length)) ∈ h)
  /\ Event (Sha256File (rhd_path dependency)) (Ok (rhd_digest dependency)) ∈ h.

Definition source_measured (digest : string) (h : history) : Prop :=
  exists workspace, Event (Canonicalize (workspace_view request)) (Ok workspace) ∈ h
    /\ ran (workspace_source_state_digest_at workspace) (Ok digest) h.

(** Everything that the request commits to was found as committed. *)
Definition measured (h : history) : Prop :=
  (forall digest, rq_workspace_source_digest request = Some digest -> source_measured digest h)
  /\ Forall (fun input => input_measured input h) (rq_input_commitments request)
  /\ Forall (fun dependency => dependency_measured dependency h) (rq_host_dependencies request).

Definition executable_measured (step : RunnerExecutionStep) (h : history) : Prop :=
  exists canonical metadata,
    Event (Canonicalize (res_executable step)) (Ok canonical) ∈ h
    /\ Event (Metadata canonical true) (Ok metadata) ∈ h
    /\ is_regular (md_kind metadata) = true /\ Z.land (md_mode metadata) 73 <> 0
    /\ Event (Sha256File canonical) (Ok (res_executable_digest step)) ∈ h.

(** The command is the step's, in a directory of the Workspace. *)
Definition command_of (step : RunnerExecutionStep) (command : TargetCommand) : Prop :=
  exists workspace watch credentials_directory build_target cwd,
    command = target_command request step {| pe_path := res_executable step; pe_watch := watch |}
                credentials_directory build_target cwd
    /\ path_starts_with cwd workspace = true.

(** What must have been established before a target is started: it is the next
    step's, what was committed to was measured, and since the last target the
    executable was measured. *)
Definition starts_next (command : TargetCommand) (h : history) : Prop :=
  exists step before after,
    effective_steps request !! length (targets h) = Some step
    /\ command_of step command /\ measured h
    /\ h = before ++ after /\ targets after = [] /\ executable_measured step after.

Definition target_ok (R : Type) (c : call R) (h : history) : Prop :=
  match c with SpawnTarget command => starts_next command h | _ => True end.

Lemma silent_target_ok R (c : call R) h : silent R c h -> target_ok R c h.
Proof. by destruct c. Qed.

(** A step ended as its result says: its target was started, and its status is
    what the kernel told of that process. *)
Definition step_ran (h : history) (step : RunnerExecutionStep) (result : RunnerStepResult) : Prop :=
  rsr_id result = res_id step
  /\ (exists command pid,
        command_of step command /\ Event (SpawnTarget command) (Ok pid) ∈ h
        /\ (Event (TryWaitTarget pid) (Ok (Some (rsr_exit_code result))) ∈ h
            \/ Event (WaitTarget pid) (Ok (rsr_exit_code result)) ∈ h)
        /\ (rsr_timed_out result = true -> Event (KillProcessGroup pid) (Ok tt) ∈ h
                                         \/ Event (KillProcessGroup pid) (Err None) ∈ h))
  /\ (rsr_status result = "succeeded"%string -> rsr_exit_code result = Some 0 /\ rsr_timed_out result = false).

#[local] Instance grows_step_ran step result : Grows (fun h => step_ran h step result).
Proof. unfold step_ran. apply _. Qed.
#[local] Instance grows_measured : Grows measured.
Proof. unfold measured, source_measured, input_measured, dependency_measured. apply _. Qed.

Lemma step_ran_mono h1 h2 step result : step_ran h1 step result -> step_ran (h1 ++ h2) step result.
Proof. apply (grows_left (fun h => step_ran h step result)). Qed.

(** ** What is measured *)

Lemma workspace_source_spec :
  ensures (observe_workspace_source request) (fun observed h =>
    match rq_workspace_source_digest request with
    | Some _ => exists digest, observed = Some digest /\ source_measured digest h
    | None => observed = None
    end).
Proof.
  unfold observe_workspace_source. destruct (rq_workspace_source_digest request); [ | by apply ensures_ret].
  en_bind canonical_directory_spec. intros workspace h1 [Hc _].
  eapply ensures_ubind; [apply ensures_ran, ensures_quiet; exact (quiet_source_below PATH_MAX _) | ].
  intros digest h2 [_ Hran]. apply ensures_ret. exists digest. split; [done | ]. exists workspace. split; stays.
Qed.

Lemma source_commitment_spec observed h digest :
  validate_workspace_source_commitment request observed = Ok tt ->
  match rq_workspace_source_digest request with
  | Some _ => exists digest, observed = Some digest /\ source_measured digest h
  | None => observed = None
  end ->
  rq_workspace_source_digest request = Some digest -> source_measured digest h.
Proof.
  unfold validate_workspace_source_commitment. intros Hv Hobs Hd. rewrite Hd in *.
  destruct Hobs as (found & -> & Hm). apply fail_if_Ok in Hv.
  apply negb_false_iff, String.eqb_eq in Hv as ->. exact Hm.
Qed.

Lemma each_indexed_spec {A} (f : nat -> A -> ueff unit) (fact : A -> history -> Prop) l :
  (forall x, Grows (fact x)) -> (forall i x, ensures (f i x) (fun _ h => fact x h)) ->
  forall i, ensures (each_indexed f i l) (fun _ h => Forall (fun x => fact x h) l).
Proof.
  intros Hg Hf. induction l as [ | x l IH]; intros i; cbn [each_indexed]; [by apply ensures_ret | ].
  en_bind Hf. intros [] h1 Hx. eapply ensures_mono; [apply IH | ]. intros [] h2 Hl.
  constructor; [stays | ]. eapply Forall_impl; [exact Hl | ]. intros y Hy. stays.
Qed.

Lemma input_commitment_spec index input :
  ensures (validate_input_commitment index input) (fun _ h => input_measured input h).
Proof.
  unfold validate_input_commitment. cbv zeta. en_call. intros kind h1 Hk. en_value. intros length h2 Hl.
  destruct kind as [len | | | ]; try discriminate Hl. injection Hl as <-.
  en_guard. intros u h3 Hlen. en_utry. intros observed h4 Hd.
  eapply ensures_mono; [apply ensures_guard | ]. intros u' h5 Heq. cbn beta in Heq.
  apply negb_false_iff, bool_decide_eq_true in Hlen. apply negb_false_iff, String.eqb_eq in Heq.
  subst. split; stays.
Qed.

Lemma dependency_commitment_spec index dependency :
  ensures (validate_dependency_commitment index dependency) (fun _ h => dependency_measured dependency h).
Proof.
  unfold validate_dependency_commitment. cbv zeta. en_call. intros kind h1 Hk. en_guard. intros u h2 Hr.
  destruct kind as [len | | | ]; try discriminate Hr. en_utry. intros observed h3 Hd.
  eapply ensures_mono; [apply ensures_guard | ]. intros u' h4 Heq. cbn beta in Heq.
  apply negb_false_iff, String.eqb_eq in Heq. subst. split; [exists len | ]; stays.
Qed.

Lemma input_commitments_spec :
  ensures (validate_input_commitments request) (fun _ h =>
    Forall (fun input => input_measured input h) (rq_input_commitments request)).
Proof.
  unfold validate_input_commitments. eapply ensures_ubind with (Q1 := fun _ _ => True).
  - destruct (rq_input_presentation_root request); [ | by apply ensures_ret].
    apply ensures_quiet. unfold validate_input_tree_exact. quiet_auto.
  - intros [] h1 _. eapply ensures_mono; [apply each_indexed_spec; [ | apply input_commitment_spec] | ].
    + intros input. unfold input_measured. apply _.
    + intros [] h2 Hl. eapply Forall_impl; [exact Hl | ]. intros input Hi.
      apply (grows_right (input_measured input) (H := ltac:(unfold input_measured; apply _))). exact Hi.
Qed.

Lemma dependency_commitments_spec :
  ensures (validate_host_dependency_commitments request) (fun _ h =>
    Forall (fun dependency => dependency_measured dependency h) (rq_host_dependencies request)).
Proof.
  apply each_indexed_spec; [ | apply dependency_commitment_spec].
  intros dependency. unfold dependency_measured. apply _.
Qed.

Lemma prepare_spec step :
  ensures (prepare_executable_realization (res_executable step) (res_executable_digest step) "executable")
    (fun executable h => pe_path executable = res_executable step /\ executable_measured step h).
Proof.
  unfold prepare_executable_realization, new_executable. cbv zeta. en_quiet. intros watch h1 _.
  en_call. intros canonical h2 Hc. en_call. intros metadata h3 Hm. en_guard. intros u h4 Hx. cbn beta in Hx.
  en_utry. intros observed h5 Hd. en_quiet. intros u' h6 _. en_guard. intros u'' h7 Heq.
  apply ensures_ret. split; [done | ]. apply orb_false_iff in Hx as [Hr%negb_false_iff Hmode%Z.eqb_neq].
  apply negb_false_iff, String.eqb_eq in Heq. subst.
  exists canonical, metadata. split_and!; try done; stays.
Qed.

(** ** Waiting and capturing *)

Definition waited (pid : Z) (outcome : ExitStatus * bool * option UniversalExecError) (h : history) : Prop :=
  let '(status, timed_out, _) := outcome in
  (Event (TryWaitTarget pid) (Ok (Some status)) ∈ h \/ Event (WaitTarget pid) (Ok status) ∈ h)
  /\ (timed_out = true -> Event (KillProcessGroup pid) (Ok tt) ∈ h
                          \/ Event (KillProcessGroup pid) (Err None) ∈ h).

#[local] Instance grows_waited pid outcome : Grows (waited pid outcome).
Proof. destruct outcome as [[status timed_out] drifted]. unfold waited. apply _. Qed.

Lemma reap_spec target what :
  ensures (reap target what) (fun status h => Event (WaitTarget (tg_pid target)) (Ok status) ∈ h).
Proof. unfold reap, utry_map. by apply ensures_call. Qed.

Lemma end_drifted_spec target what error :
  ensures (end_drifted target what error) (waited (tg_pid target)).
Proof.
  unfold end_drifted. en_quiet. intros r h1 _. en_bind reap_spec. intros status h2 Hw.
  apply ensures_ret. split; [right; stays | done].
Qed.

Lemma terminate_spec pid id :
  ensures (terminate_process_group pid id) (fun _ h =>
    Event (KillProcessGroup pid) (Ok tt) ∈ h \/ Event (KillProcessGroup pid) (Err None) ∈ h).
Proof.
  unfold terminate_process_group. en_guard. intros u h1 _. en_call. intros killed h2 Hk.
  eapply ensures_mono; [apply ensures_value | ]. intros [] h3 Hr.
  destruct killed as [[] | [error | ]]; [left | discriminate Hr | right]; stays.
Qed.

Lemma wait_spec target polls : ensures (wait_for_target target polls) (waited (tg_pid target)).
Proof.
  induction polls as [ | polls IH]; cbn [wait_for_target].
  all: en_quiet; intros executable h1 _; destruct executable as [[] | error];
    [ | eapply ensures_mono; [apply end_drifted_spec | intros o h Ho; stays]].
  all: en_quiet; intros dependencies h2 _; destruct dependencies as [[] | error];
    [ | eapply ensures_mono; [apply end_drifted_spec | intros o h Ho; stays]].
  all: en_call; intros [status | ] h3 Ht; [apply ensures_ret; split; [left; stays | done] | ].
  - en_bind terminate_spec. intros [] h4 Hk. en_bind reap_spec. intros status h5 Hw. apply ensures_ret.
    split; [right; stays | intros _]. destruct Hk as [Hk | Hk]; [left | right]; stays.
  - eapply ensures_mono; [apply IH | ]. intros o h Ho. stays.
Qed.

(** What a pipe gives until its end, and what was written to a file. *)
Fixpoint pipe_data (reads : list (result IoFailure string)) : string :=
  match reads with
  | [] | Ok EmptyString :: _ | Err _ :: _ => ""
  | Ok chunk :: rest => chunk +:+ pipe_data rest
  end.

Definition written_by (path : string) (e : event) : string :=
  match e with
  | Event (WriteAll p content) _ => if String.eqb p path then content else ""
  | _ => ""
  end.
Definition written (path : string) (h : history) : string := foldr (fun e text => written_by path e +:+ text) "" h.

Lemma str_append_nil s : s +:+ "" = s.
Proof. induction s as [ | c s IH]; [done | ]. simpl. by rewrite IH. Qed.
Lemma str_append_assoc s t u : (s +:+ t) +:+ u = s +:+ (t +:+ u).
Proof. induction s as [ | c s IH]; [done | ]. simpl. by rewrite IH. Qed.
Lemma str_length_append s t : String.length (s +:+ t) = (String.length s + String.length t)%nat.
Proof. induction s as [ | c s IH]; [done | ]. simpl. by rewrite IH. Qed.

Lemma written_app path h1 h2 : written path (h1 ++ h2) = written path h1 +:+ written path h2.
Proof.
  induction h1 as [ | e h1 IH]; [done | ]. cbn [written foldr app]. fold (written path h1) (written path (h1 ++ h2)).
  by rewrite IH, str_append_assoc.
Qed.

(** What is kept of two texts within a room. *)
Lemma take_split room s t :
  str_take (Nat.min (String.length s) room) s
    +:+ str_take (Nat.min (String.length t) (room - Nat.min (String.length s) room)) t
  = str_take (Nat.min (String.length (s +:+ t)) room) (s +:+ t).
Proof.
  rewrite str_length_append. destruct (Nat.le_gt_cases (String.length s) room) as [Hle | Hgt].
  - rewrite (Nat.min_l (String.length s)) by lia.
    replace (Nat.min (String.length s + String.length t) room)
      with (String.length s + Nat.min (String.length t) (room - String.length s))%nat by lia.
    rewrite str_take_plus, str_take_app, str_drop_app by lia.
    by rewrite !str_take_all, (str_drop_all _ s) by lia.
  - rewrite (Nat.min_r (String.length s)) by lia.
    replace (Nat.min (String.length s + String.length t) room) with room by lia.
    replace (Nat.min (String.length t) (room - room)) with 0%nat by lia.
    rewrite str_take_app by lia. apply str_append_nil.
Qed.

(** What a capture has kept and dropped of the data. *)
Definition kept_beginning (limit before : Z) (data : string) (counts : Z * Z) (text : string) : Prop :=
  fst counts = Z.min (str_len data) (limit - before)
  /\ snd counts = str_len data - fst counts
  /\ text = str_take (Z.to_nat (fst counts)) data.

Lemma kept_nothing limit before x y : before <= limit -> kept_beginning limit before "" (x - x, y - y) "".
Proof.
  intros H. rewrite !Z.sub_diag. unfold kept_beginning. cbn [fst snd].
  change (str_len "") with 0. split_and!; [lia | done | done].
Qed.

Lemma append_reads_spec path limit before reads : forall retained dropped,
  limit <= u64_max -> 0 <= before -> 0 <= retained -> before + retained <= limit -> 0 <= dropped ->
  dropped + str_len (pipe_data reads) <= u64_max ->
  ensures (append_reads path limit before reads retained dropped) (fun counts h =>
    kept_beginning limit (before + retained) (pipe_data reads)
      (fst counts - retained, snd counts - dropped) (written path h)).
Proof.
  induction reads as [ | read reads IH]; intros retained dropped Hl Hb Hr Hroom Hd Hfit; cbn [append_reads].
  { apply ensures_ret. by apply kept_nothing. }
  destruct read as [[ | c chunk] | error]; [ | | intros x Hx; discriminate Hx].
  { apply ensures_ret. by apply kept_nothing. }
  cbn [pipe_data] in Hfit |- *. set (text := String c chunk) in *. cbv zeta.
  assert (Hlen : str_len (text +:+ pipe_data reads) = str_len text + str_len (pipe_data reads))
    by (unfold str_len; rewrite str_length_append; lia).
  assert (Hpos : 0 < str_len text) by (unfold str_len, text; cbn [String.length]; lia).
  assert (Hrest : 0 <= str_len (pipe_data reads)) by (unfold str_len; lia).
  rewrite Hlen in Hfit. set (room := saturating_sub limit (saturating_add before retained)).
  assert (Hroomeq : room = limit - (before + retained))
    by (unfold room, saturating_sub, saturating_add; lia).
  set (write_len := Z.min (str_len text) room).
  eapply ensures_ubind with (Q1 := fun _ h => written path h = str_take (Z.to_nat write_len) text).
  { destruct (0 <? write_len) eqn:Hw; [ | apply ensures_ret].
    - split; [exact I | ]. intros [[] | e]; [ | intros a Ha; discriminate Ha]. intros a _.
      unfold written. cbn [foldr app written_by]. rewrite String.eqb_refl. apply str_append_nil.
    - apply Z.ltb_ge in Hw. by replace (Z.to_nat write_len) with 0%nat by lia. }
  intros [] h1 Hw1. assert (saturating_add retained write_len = retained + write_len) as ->
    by (unfold saturating_add; lia).
  assert (saturating_add dropped (str_len text - write_len) = dropped + (str_len text - write_len)) as ->
    by (unfold saturating_add; lia).
  eapply ensures_mono; [apply IH; lia | ]. intros [r d] h2 (Hkept & Hdrop & Htext). cbn [fst snd] in *.
  unfold kept_beginning. cbn [fst snd]. rewrite Hlen, written_app, Hw1, Htext.
  split_and!; [lia | lia | ].
  pose proof (take_split (Z.to_nat room) text (pipe_data reads)) as Htake.
  unfold str_len in *. etrans; [ | etrans; [exact Htake | ]].
  - do 2 f_equal; [lia | ]. f_equal. lia.
  - f_equal. rewrite str_length_append. lia.
Qed.

Lemma capture_spec pid stdout path limit before :
  0 <= before -> before <= limit -> limit <= u64_max ->
  ensures (capture_stream_append pid stdout path limit before) (fun counts h =>
    exists reads, Event (PipeReads pid stdout) reads ∈ h
      /\ (str_len (pipe_data reads) <= u64_max ->
          kept_beginning limit before (pipe_data reads) counts (written path h))).
Proof.
  intros Hb Hle Hl. unfold capture_stream_append.
  eapply ensures_ubind with (Q1 := fun _ h => written path h = ""%string).
  { split; [exact I | ]. by intros [u | e] a. }
  intros [] h1 H1. eapply ensures_ubind with (Q1 := fun reads h => h = [Event (PipeReads pid stdout) reads]).
  { split; [exact I | ]. by intros r a [= <-]. }
  intros reads h2 ->. destruct (Z.le_gt_cases (str_len (pipe_data reads)) u64_max) as [Hfit | Hbig].
  - eapply ensures_ubind; [apply append_reads_spec; lia | ]. intros [r d] h3 Hkept.
    eapply ensures_ubind with (Q1 := fun _ h => written path h = ""%string).
    { split; [exact I | ]. by intros [u | e] a. }
    intros [] h4 H4. apply ensures_ret. exists reads. split; [in_history | intros _].
    rewrite !written_app, H1, H4. cbn [written foldr written_by]. rewrite !str_append_nil.
    unfold kept_beginning in *. cbn [fst snd] in Hkept. rewrite Z.add_0_r, !Z.sub_0_r in Hkept. exact Hkept.
  - en_quiet. intros counts h3 _. en_quiet. intros u h4 _. apply ensures_ret. exists reads. split; [in_history | lia].
Qed.

(** ** One step *)

#[local] Abbreviation run_returns := (returns target_ok).

Lemma run_ensures {A B} (p : ueff A) (f : A -> ueff B) F Q h :
  ensures p F ->
  (forall a seg, F a seg -> targets seg = [] -> run_returns (f a) (h ++ seg) Q) ->
  run_returns (p ≫= f) h Q.
Proof. apply returns_ensures, silent_target_ok. Qed.

Lemma run_quiet {A B} (p : ueff A) (f : A -> ueff B) Q h :
  quiet p -> (forall a seg, targets seg = [] -> run_returns (f a) (h ++ seg) Q) -> run_returns (p ≫= f) h Q.
Proof. apply returns_quiet, silent_target_ok. Qed.

(** Before a step: what was committed to was measured, and the step is next. *)
Definition next (step : RunnerExecutionStep) (h : history) : Prop :=
  measured h /\ effective_steps request !! length (targets h) = Some step.

(** The target of a step was started after [h]. *)
Definition step_started (step : RunnerExecutionStep) (h : history) (target : Target) (h' : history) : Prop :=
  tg_step target = step
  /\ exists command seg, command_of step command /\ h' = h ++ seg /\ targets seg = [command]
       /\ Event (SpawnTarget command) (Ok (tg_pid target)) ∈ seg.

Lemma start_step_returns workspace step dependencies h :
  next step h ->
  run_returns (start_step request workspace step dependencies) h (step_started step h).
Proof.
  intros [Hmeasured Hnext]. unfold start_step.
  apply run_quiet; [quiet_auto | ]. intros cwd h1 Ht1.
  apply returns_guard. intros Hcwd%negb_false_iff. apply returns_value. intros [] _.
  apply run_quiet; [quiet_auto | ]. intros [] h2 Ht2.
  eapply run_ensures; [apply prepare_spec | ]. intros executable h3 [Hpath Hexecutable] Ht3.
  apply run_quiet; [quiet_auto | ]. intros credentials h4 Ht4.
  apply run_quiet; [quiet_auto | ]. intros build_target h5 Ht5.
  apply returns_guard. intros _.
  set (command := target_command request step executable credentials build_target cwd).
  assert (Hcommand : command_of step command).
  { exists workspace, (pe_watch executable), credentials, build_target, cwd. split; [ | done].
    unfold command. rewrite <- Hpath. by destruct executable. }
  assert (Hnone : targets (h1 ++ h2 ++ h3 ++ h4 ++ h5) = []) by by rewrite !targets_app, Ht1, Ht2, Ht3, Ht4, Ht5.
  rewrite <- !app_assoc. split.
  - exists step, h, (h1 ++ h2 ++ h3 ++ h4 ++ h5). split_and!; try done.
    + rewrite targets_app, Hnone, app_nil_r. exact Hnext.
    + by apply (grows_left measured).
    + unfold executable_measured in *. destruct Hexecutable as (canonical & metadata & ? & ? & ? & ? & ?).
      exists canonical, metadata. split_and!; try done; stays.
  - intros [pid | error]; [ | intros a Ha; discriminate Ha]. intros target [= <-]. split; [done | ].
    exists command, ((h1 ++ h2 ++ h3 ++ h4 ++ h5) ++ [Event (SpawnTarget command) (Ok pid)]).
    split_and!; [exact Hcommand | by rewrite <- !app_assoc | by rewrite targets_app, Hnone | apply last_event].
Qed.

Definition within (limit before : Z) (retained dropped : Z) : Prop :=
  0 <= retained /\ before + retained <= limit /\ 0 <= dropped.

Lemma capture_within pid stdout path limit before :
  0 <= before -> before <= limit -> limit <= u64_max ->
  ensures (capture_stream_append pid stdout path limit before)
    (fun counts _ => within limit before (fst counts) (snd counts)).
Proof.
  intros Hb Hle Hl. unfold capture_stream_append. en_quiet. intros u h1 _. en_quiet. intros reads h2 _.
  eapply ensures_ubind with (Q1 := fun counts _ => within limit before (fst counts) (snd counts));
    [ | intros counts h3 Hw; en_quiet; intros u' h4 _; by apply ensures_ret].
  enough (Hgo : forall retained dropped, 0 <= retained -> before + retained <= limit -> 0 <= dropped ->
            ensures (append_reads path limit before reads retained dropped)
              (fun counts _ => within limit before (fst counts) (snd counts))) by (apply Hgo; lia).
  clear h1 h2. induction reads as [ | [[ | c chunk] | error] reads IH]; intros retained dropped Hr Hroom Hd;
    cbn [append_reads]; try (by apply ensures_ret); [ | intros x Hx; discriminate Hx].
  cbv zeta. en_quiet. intros u' h _.
  assert (0 <= str_len (String c chunk)) by (unfold str_len; lia).
  eapply ensures_mono; [apply IH | done]; unfold saturating_add, saturating_sub; lia.
Qed.

(** The outcome of a step is that of its process, and its output fits. *)
Definition step_outcome (step : RunnerExecutionStep) (h : history) (context : StepExecutionContext)
    (outcome : StepOutcome) (h' : history) : Prop :=
  exists command pid seg, command_of step command /\ h' = h ++ seg /\ targets seg = [command]
    /\ Event (SpawnTarget command) (Ok pid) ∈ seg
    /\ waited pid (sto_status outcome, sto_timed_out outcome, None) seg
    /\ within (rq_stdout_limit_bytes request) (sec_stdout_retained_before context)
         (sto_stdout_retained outcome) (sto_stdout_dropped outcome)
    /\ within (rq_stderr_limit_bytes request) (sec_stderr_retained_before context)
         (sto_stderr_retained outcome) (sto_stderr_dropped outcome).

Definition room (limit before : Z) : Prop := 0 <= before /\ before <= limit /\ limit <= u64_max.

Lemma execute_step_returns workspace step context h :
  next step h ->
  room (rq_stdout_limit_bytes request) (sec_stdout_retained_before context) ->
  room (rq_stderr_limit_bytes request) (sec_stderr_retained_before context) ->
  run_returns (execute_step task_dir request workspace step context) h (step_outcome step h context).
Proof.
  intros Hnext (? & ? & ?) (? & ? & ?). unfold execute_step.
  apply returns_bind. eapply returns_mono; [by apply start_step_returns | ].
  intros target h' (Hstep & command & seg & Hcommand & -> & Ht & Hspawn).
  apply run_quiet; [quiet_auto | ]. intros now h1 Ht1. apply returns_value. intros deadline _.
  apply run_quiet; [quiet_auto | ]. intros polls h2 Ht2.
  eapply run_ensures; [apply wait_spec | ]. intros [[status timed_out] drifted] h3 Hwaited Ht3. cbv beta iota.
  eapply run_ensures; [by apply capture_within | ]. intros [out out_dropped] h4 Hout Ht4. cbv beta iota.
  eapply run_ensures; [by apply capture_within | ]. intros [err err_dropped] h5 Herr Ht5. cbv beta iota.
  apply run_quiet; [quiet_auto | ]. intros [] h6 Ht6. apply returns_ret.
  exists command, (tg_pid target), (seg ++ h1 ++ h2 ++ h3 ++ h4 ++ h5 ++ h6).
  rewrite <- !app_assoc. split_and!; try done; [ | stays | ].
  - by rewrite !targets_app, Ht, Ht1, Ht2, Ht3, Ht4, Ht5, Ht6.
  - change (waited (tg_pid target) (status, timed_out, None) (seg ++ h1 ++ h2 ++ h3 ++ h4 ++ h5 ++ h6)).
    assert (Hw : waited (tg_pid target) (status, timed_out, None) h3) by exact Hwaited. stays.
Qed.

(** ** The steps *)

(** Limits of a request are [u64]. *)
Definition limits_typed : Prop :=
  0 <= rq_stdout_limit_bytes request <= u64_max /\ 0 <= rq_stderr_limit_bytes request <= u64_max.

#[local] Abbreviation steps := (effective_steps request).

Definition fits (limit retained dropped : Z) : Prop := 0 <= retained <= limit /\ 0 <= dropped.

(** What the variables say of the first [n] steps. *)
Record consistent (n : nat) (s : RunState) (h : history) : Prop := {
  co_targets : length (targets h) = n;
  co_ran : Forall2 (step_ran h) (take n steps) (rs_step_results s);
  co_clean : rs_failed_step_id s = None ->
    Forall (fun result => rsr_status result = "succeeded"%string) (rs_step_results s)
    /\ rs_first_failure_exit s = None /\ rs_any_timed_out s = false;
  co_stdout : fits (rq_stdout_limit_bytes request) (rs_stdout_retained s) (rs_stdout_dropped s);
  co_stderr : fits (rq_stderr_limit_bytes request) (rs_stderr_retained s) (rs_stderr_dropped s);
}.

Definition cancel_seen (s : RunState) (h : history) : Prop :=
  rs_cancelled s = true -> Event (PathExists (path_join task_dir CANCEL_FILE)) true ∈ h.

Lemma consistent_quiet n s h seg : consistent n s h -> targets seg = [] -> consistent n s (h ++ seg).
Proof.
  intros [Ht Hran Hclean Hout Herr] Hs. constructor; try done.
  - by rewrite targets_app, Hs, app_nil_r.
  - eapply Forall2_impl; [exact Hran | ]. intros. by apply step_ran_mono.
Qed.

Lemma consistent_revision n s h revision : consistent n s h -> consistent n (set_revision revision s) h.
Proof. by intros []. Qed.

Lemma consistent_cancelled n s h : consistent n s h -> consistent n (set_cancelled s) h.
Proof. by intros []. Qed.

Lemma progress_spec total s status current :
  ensures (progress task_dir request total s status current) (fun s' _ => exists revision, s' = set_revision revision s).
Proof.
  unfold progress, write_progress. cbv zeta. en_quiet. intros revision h1 _. apply ensures_ret. by exists revision.
Qed.

Lemma step_succeeded_status outcome was_cancelled :
  step_succeeded outcome was_cancelled = true -> step_status outcome was_cancelled = "succeeded"%string
    /\ sto_timed_out outcome = false.
Proof.
  unfold step_succeeded, step_status. destruct was_cancelled, (sto_timed_out outcome), (exited_zero _); done.
Qed.

Lemma step_status_succeeded outcome was_cancelled :
  step_status outcome was_cancelled = "succeeded"%string ->
  sto_status outcome = Some 0 /\ sto_timed_out outcome = false.
Proof.
  unfold step_status. destruct was_cancelled, (sto_timed_out outcome); try done.
  unfold exited_zero. case_bool_decide; done.
Qed.

Lemma fits_saturating limit retained dropped more more_dropped :
  limit <= u64_max -> fits limit retained dropped -> within limit retained more more_dropped ->
  fits limit (saturating_add retained more) (saturating_add dropped more_dropped).
Proof. unfold fits, within, saturating_add, u64_max. lia. Qed.

(** A step that ended, recorded. *)
Lemma consistent_step n step index started_ms finished_ms context outcome was_cancelled s h h' :
  limits_typed -> consistent n s h -> steps !! n = Some step ->
  sec_stdout_retained_before context = rs_stdout_retained s ->
  sec_stderr_retained_before context = rs_stderr_retained s ->
  step_outcome step h context outcome h' ->
  consistent (S n) (record_outcome step index started_ms finished_ms outcome was_cancelled s) h'.
Proof.
  intros [[_ Hlo] [_ Hle]] [Ht Hran Hclean Hout Herr] Hn Hbo Hbe
    (command & pid & seg & Hcommand & -> & Hts & Hspawn & Hwaited & Hwo & Hwe).
  rewrite Hbo in Hwo. rewrite Hbe in Hwe. constructor; cbn [record_outcome rs_step_results rs_failed_step_id
    rs_first_failure_exit rs_any_timed_out rs_stdout_retained rs_stdout_dropped rs_stderr_retained rs_stderr_dropped].
  - rewrite targets_app, length_app, Hts. cbn. lia.
  - rewrite (take_S_r _ _ _ Hn). apply Forall2_app.
    + eapply Forall2_impl; [exact Hran | ]. intros. by apply step_ran_mono.
    + constructor; [ | constructor]. apply (grows_right (fun h => step_ran h step _)).
      destruct Hwaited as [Hstatus Hkill]. split_and!; [done | | apply step_status_succeeded].
      exists command, pid. split_and!; [exact Hcommand | exact Hspawn | exact Hstatus | exact Hkill].
  - destruct (step_succeeded outcome was_cancelled) eqn:Hs; cbn [negb andb].
    + intros Hf. destruct (Hclean Hf) as (Hall & Hexit & Htimed).
      destruct (step_succeeded_status _ _ Hs) as [Hst Hto].
      split_and!; [ | exact Hexit | by rewrite Htimed, Hto]. apply Forall_app. split; [exact Hall | ].
      by repeat constructor.
    + destruct (rs_failed_step_id s); done.
  - by apply fits_saturating.
  - by apply fits_saturating.
Qed.

Section loop.
Context (workspace : string) (overall_deadline total_steps : Z) (dependencies : option PathDriftWatch).
Context (Htyped : limits_typed).

(** After a step. *)
Definition after_step (n : nat) (answer : RunState * bool) (h : history) : Prop :=
  consistent (S n) (fst answer) h /\ measured h /\ cancel_seen (fst answer) h
  /\ (snd answer = true -> rs_cancelled (fst answer) = true \/ rs_failed_step_id (fst answer) <> None)
  /\ (snd answer = false -> rs_cancelled (fst answer) = false).

Lemma stopped_failed step index started_ms finished_ms outcome was_cancelled s :
  step_succeeded outcome was_cancelled = false ->
  rs_failed_step_id (record_outcome step index started_ms finished_ms outcome was_cancelled s) <> None.
Proof. intros Hs. cbn [record_outcome rs_failed_step_id]. rewrite Hs. by destruct (rs_failed_step_id s). Qed.

Lemma run_step_returns n step index s h :
  consistent n s h -> measured h -> rs_cancelled s = false -> steps !! n = Some step ->
  run_returns (run_step task_dir request workspace overall_deadline total_steps dependencies step index s) h
    (after_step n).
Proof.
  intros Hco Hm Hcancel Hn. unfold run_step. apply run_quiet; [quiet_auto | ]. intros started_ms h1 Ht1.
  eapply run_ensures; [apply progress_spec | ]. intros s1 h2 [revision ->] Ht2.
  rewrite <- app_assoc. set (h0 := h ++ h1 ++ h2). set (s1 := set_revision revision s).
  assert (Hq : targets (h1 ++ h2) = []) by by rewrite targets_app, Ht1, Ht2.
  assert (Hco1 : consistent n s1 h0) by (by apply consistent_revision, consistent_quiet).
  assert (Hm1 : measured h0) by (by apply (grows_left measured)).
  apply returns_bind. eapply returns_mono.
  { apply execute_step_returns; [split; [exact Hm1 | by rewrite (co_targets _ _ _ Hco1)] | | ].
    - destruct Htyped as [[? ?] _], (co_stdout _ _ _ Hco1) as [[? ?] _]. done.
    - destruct Htyped as [_ [? ?]], (co_stderr _ _ _ Hco1) as [[? ?] _]. done. }
  intros outcome h' Hout. apply run_quiet; [quiet_auto | ]. intros finished_ms h3 Ht3.
  eapply run_ensures; [by apply ensures_ask | ]. intros was_cancelled h4 Hseen Ht4. cbv zeta.
  assert (Hm2 : measured h') by (destruct Hout as (? & ? & ? & _ & -> & _); by apply (grows_left measured)).
  assert (Hco2 : consistent (S n) (record_outcome step index started_ms finished_ms outcome was_cancelled s1) h')
    by (refine (consistent_step n step index started_ms finished_ms _ outcome was_cancelled s1 h0 h'
                  Htyped Hco1 Hn _ _ Hout); reflexivity).
  set (s2 := record_outcome _ _ _ _ _ _ _) in *. assert (Hc2 : rs_cancelled s2 = false) by exact Hcancel.
  eapply run_ensures; [apply progress_spec | ]. intros s3 h5 [revision' ->] Ht5. apply returns_ret.
  rewrite <- !app_assoc.
  assert (Hco3 : consistent (S n) (set_revision revision' s2) (h' ++ h3 ++ h4 ++ h5))
    by (apply consistent_revision, consistent_quiet; [done | by rewrite !targets_app, Ht3, Ht4, Ht5]).
  assert (Hm3 : measured (h' ++ h3 ++ h4 ++ h5)) by by apply (grows_left measured).
  unfold after_step. cbn [fst snd]. destruct was_cancelled.
  - split_and!; [by apply consistent_cancelled | exact Hm3 | intros _; stays | by left | done].
  - split_and!; [exact Hco3 | exact Hm3 | intros Hx; by rewrite (Hc2 : rs_cancelled (set_revision revision' s2) = false) in Hx | | done].
    cbn [orb]. intros Hstop%andb_true_iff. right. apply stopped_failed. destruct Hstop as [Hs%negb_true_iff _].
    exact Hs.
Qed.

(** Where the steps end: all have run, or a reason to stop was found. *)
Definition steps_ended (s : RunState) (h : history) : Prop :=
  exists n, consistent n s h /\ measured h /\ cancel_seen s h
    /\ (rs_cancelled s = true \/ rs_failed_step_id s <> None \/ n = length steps).

Lemma run_steps_returns rest : forall n s h,
  rest = drop n steps -> consistent n s h -> measured h -> rs_cancelled s = false ->
  (n <= length steps)%nat ->
  run_returns (run_steps task_dir request workspace overall_deadline total_steps dependencies n rest s) h
    steps_ended.
Proof.
  induction rest as [ | step rest IH]; intros n s h Hrest Hco Hm Hc Hle; cbn [run_steps].
  { apply returns_ret. exists n. split_and!; try done; [by intros Hx; rewrite Hc in Hx | ]. do 2 right.
    pose proof (f_equal length Hrest) as Hlen. rewrite length_drop in Hlen. cbn in Hlen. lia. }
  assert (Hn : steps !! n = Some step)
    by (rewrite <- (Nat.add_0_r n), <- lookup_drop, <- Hrest; done).
  assert (Hrest' : rest = drop (S n) steps)
    by (rewrite <- (drop_drop steps 1 n), <- Hrest || (rewrite <- Nat.add_1_r, <- drop_drop, <- Hrest); done).
  eapply run_ensures; [by apply ensures_ask | ]. intros cancel h1 Hseen Ht1.
  pose proof (consistent_quiet _ _ _ _ Hco Ht1) as Hco1.
  assert (Hm1 : measured (h ++ h1)) by by apply (grows_left measured).
  destruct cancel; cbv beta iota.
  { apply returns_ret. exists n. split_and!; [by apply consistent_cancelled | done | intros _; stays | by left]. }
  cbv zeta. apply returns_bind. eapply returns_mono; [by apply run_step_returns | ].
  intros [s2 stop] h2 (Hco2 & Hm2 & Hseen2 & Hstop & Hgo). cbn [fst snd] in *. destruct stop.
  { apply returns_ret. exists (S n). split_and!; try done. destruct (Hstop eq_refl); auto. }
  apply run_quiet; [quiet_auto | ]. intros now h3 Ht3. pose proof (consistent_quiet _ _ _ _ Hco2 Ht3) as Hco3.
  assert (Hm3 : measured (h2 ++ h3)) by by apply (grows_left measured).
  destruct (overall_deadline <=? now).
  - apply returns_ret. exists (S n). split_and!; [ | done | | ].
    + destruct Hco3 as [Ht Hran Hclean Hout Herr]. constructor; try done.
      cbn [deadline_passed rs_failed_step_id]. by destruct (rs_failed_step_id s2).
    + intros Hx. cbn in Hx. rewrite (Hgo eq_refl) in Hx. discriminate Hx.
    + right. left. cbn [deadline_passed rs_failed_step_id]. by destruct (rs_failed_step_id s2).
  - apply IH; try done; [by apply Hgo | ]. apply lookup_lt_Some in Hn. lia.
Qed.
End loop.

(** ** The result *)

(** The result names what the request names, and the output files. *)
Definition output_named (stdout : bool) (output : CapturedOutput) : Prop :=
  co_artifact_id output = rq_task_id request +:+ "." +:+ output_suffix stdout
  /\ co_file_name output = output_file_name stdout.

Definition identity_kept (result : RunnerResult) : Prop :=
  rr_task_id result = rq_task_id request /\ rr_job_id result = rq_job_id request
  /\ rr_attempt_id result = rq_attempt_id request
  /\ rr_launch_token_digest result = sha256_bytes <$> rq_launch_token request
  /\ rr_payload_uid result = rpc_uid <$> rq_payload request
  /\ rr_payload_gid result = rpc_gid <$> rq_payload request
  /\ output_named true (rr_stdout result) /\ output_named false (rr_stderr result).

(** The output file had the length and the digest that the result tells. *)
Definition output_observed (stdout : bool) (limit : Z) (output : CapturedOutput) (h : history) : Prop :=
  Event (FileLen (path_join task_dir (output_file_name stdout))) (Ok (co_retained_bytes output)) ∈ h
  /\ Event (Sha256File (path_join task_dir (output_file_name stdout))) (Ok (co_digest output)) ∈ h
  /\ fits limit (co_retained_bytes output) (co_dropped_bytes output)
  /\ co_truncated output = (0 <? co_dropped_bytes output).

(** What a result that blames no infrastructure says is true: it tells of every
    target that was started, in order; it says Completed only if every step of the
    request exited with zero, and Cancelled only if the cancel notice was seen. *)
Definition truthful (result : RunnerResult) (h : history) : Prop :=
  measured h
  /\ Forall2 (step_ran h) (take (length (targets h)) steps) (rr_steps result)
  /\ (rr_status result = RunnerTerminalStatus.Completed ->
      length (targets h) = length steps
      /\ Forall (fun step => rsr_status step = "succeeded"%string) (rr_steps result)
      /\ rr_exit_code result = Some 0 /\ rr_failed_step_id result = None /\ rr_timed_out result = false)
  /\ (rr_status result = RunnerTerminalStatus.Cancelled ->
      Event (PathExists (path_join task_dir CANCEL_FILE)) true ∈ h)
  /\ output_observed true (rq_stdout_limit_bytes request) (rr_stdout result) h
  /\ output_observed false (rq_stderr_limit_bytes request) (rr_stderr result) h.

#[local] Instance grows_observed stdout limit output : Grows (output_observed stdout limit output).
Proof. unfold output_observed. apply _. Qed.

Lemma captured_output_spec stdout limit retained dropped :
  fits limit retained dropped ->
  ensures (captured_output_from_file task_dir request stdout retained dropped) (fun output h =>
    output_named stdout output /\ output_observed stdout limit output h).
Proof.
  intros Hf. unfold captured_output_from_file. cbv zeta. en_call. intros actual h1 Hlen.
  en_guard. intros u h2 Hactual. en_utry. intros digest h3 Hd. apply ensures_ret.
  apply negb_false_iff, bool_decide_eq_true in Hactual. subst actual.
  split; [done | ]. split_and!; [stays | stays | exact Hf | done].
Qed.

Lemma truthful_quiet result h seg : truthful result h -> targets seg = [] -> truthful result (h ++ seg).
Proof.
  intros (Hm & Hran & Hcompleted & Hcancelled & Hout & Herr) Ht. unfold truthful.
  rewrite targets_app, Ht, app_nil_r. split_and!; try done.
  - by apply (grows_left measured).
  - eapply Forall2_impl; [exact Hran | ]. intros. by apply step_ran_mono.
  - intros Hc. specialize (Hcancelled Hc). stays.
  - stays.
  - stays.
Qed.

Lemma steps_nonempty : steps <> [].
Proof. unfold effective_steps. by destruct (rq_steps request). Qed.

Lemma completed_exit n s h :
  consistent n s h -> n = length steps -> rs_failed_step_id s = None ->
  match rs_first_failure_exit s with
  | Some code => Some code
  | None => last (rs_step_results s) ≫= rsr_exit_code
  end = Some 0.
Proof.
  intros Hco -> Hf. destruct (co_clean _ _ _ Hco Hf) as (Hall & -> & _).
  pose proof (co_ran _ _ _ Hco) as Hran. rewrite firstn_all in Hran.
  destruct (rs_step_results s) as [ | r l _] using rev_ind.
  - apply Forall2_nil_inv_r in Hran. by apply steps_nonempty in Hran.
  - rewrite last_snoc. cbn. apply Forall2_app_inv_r in Hran as (l1 & l2 & _ & Hlast & _).
    apply Forall2_cons_inv_r in Hlast as (step & l2' & (_ & _ & Hok) & _).
    apply Forall_app in Hall as [_ Hr%Forall_inv]. by destruct (Hok Hr).
Qed.

Lemma finish_request_returns started_ms total_steps dependencies s h :
  limits_typed -> steps_ended s h ->
  run_returns (finish_request task_dir request started_ms total_steps dependencies s) h
    (fun result h' => identity_kept result /\ truthful result h' /\ rr_infrastructure_error_code result = None).
Proof.
  intros Htyped (n & Hco & Hm & Hseen & Hend). unfold finish_request.
  apply run_quiet; [quiet_auto | ]. intros [] h1 Ht1.
  eapply run_ensures; [apply progress_spec | ]. intros s' h2 [revision ->] Ht2.
  eapply run_ensures; [apply captured_output_spec, (co_stdout _ _ _ Hco) | ]. intros out h3 [Hn1 Ho1] Ht3.
  eapply run_ensures; [apply captured_output_spec, (co_stderr _ _ _ Hco) | ]. intros err h4 [Hn2 Ho2] Ht4.
  apply run_quiet; [quiet_auto | ]. intros finished h5 Ht5. apply returns_ret.
  rewrite <- !app_assoc. set (seg := h1 ++ h2 ++ h3 ++ h4 ++ h5).
  assert (Hseg : targets seg = []) by (unfold seg; by rewrite !targets_app, Ht1, Ht2, Ht3, Ht4, Ht5).
  pose proof (consistent_quiet _ _ _ _ Hco Hseg) as Hco'.
  split; [by split_and! | ]. split; [ | done].
  unfold truthful, result_of_run. cbn [rr_steps rr_status rr_exit_code rr_failed_step_id rr_timed_out
    rr_stdout rr_stderr set_revision rs_step_results rs_failed_step_id rs_first_failure_exit rs_any_timed_out].
  split_and!.
  - by apply (grows_left measured).
  - rewrite (co_targets _ _ _ Hco'). exact (co_ran _ _ _ Hco').
  - unfold terminal_status. cbn [set_revision rs_cancelled rs_failed_step_id rs_any_timed_out].
    destruct (rs_cancelled s) eqn:Hc; [done | ]. destruct (rs_failed_step_id s) eqn:Hf; [done | ].
    destruct Hend as [Hx | [Hx | ->]]; [done | done | ].
    destruct (co_clean _ _ _ Hco' Hf) as (Hall & Hexit & Htimed). intros _.
    split_and!; [by rewrite (co_targets _ _ _ Hco') | exact Hall | | done | exact Htimed].
    by apply (completed_exit (length steps) s (h ++ seg)).
  - unfold terminal_status. cbn [set_revision rs_cancelled rs_failed_step_id rs_any_timed_out].
    destruct (rs_cancelled s) eqn:Hc; [intros _; specialize (Hseen Hc); stays | ].
    destruct (_ || _); done.
  - unfold seg. stays.
  - unfold seg. stays.
Qed.

Lemma execute_request_returns started_ms dependencies h :
  limits_typed -> measured h -> targets h = [] ->
  run_returns (execute_request task_dir request started_ms dependencies) h
    (fun result h' => identity_kept result /\ truthful result h' /\ rr_infrastructure_error_code result = None).
Proof.
  intros Htyped Hm Ht. unfold execute_request. apply returns_value. intros [] _.
  apply run_quiet; [quiet_auto | ]. intros workspace h1 Ht1.
  apply run_quiet; [quiet_auto | ]. intros [] h2 Ht2. apply run_quiet; [quiet_auto | ]. intros [] h3 Ht3.
  cbv zeta. apply run_quiet; [quiet_auto | ]. intros now h4 Ht4. apply returns_value. intros deadline _.
  eapply run_ensures; [apply progress_spec | ]. intros s0 h5 [revision ->] Ht5.
  apply returns_bind. eapply returns_mono; [ | intros s h'; by apply finish_request_returns].
  rewrite <- !app_assoc. apply run_steps_returns; [done | done | | by apply (grows_left measured) | done | lia].
  apply consistent_quiet; [ | by rewrite !targets_app, Ht1, Ht2, Ht3, Ht4, Ht5].
  apply consistent_revision. destruct Htyped as [[? ?] [? ?]].
  constructor; cbn [initial_state rs_step_results rs_failed_step_id rs_first_failure_exit rs_any_timed_out
    rs_stdout_retained rs_stdout_dropped rs_stderr_retained rs_stderr_dropped]; [by rewrite Ht | constructor | done | | ];
    unfold fits; lia.
Qed.

Lemma checked_execution_returns started_ms h :
  limits_typed -> targets h = [] ->
  run_returns (checked_execution task_dir request started_ms) h
    (fun result h' => identity_kept result /\ truthful result h' /\ rr_infrastructure_error_code result = None).
Proof.
  intros Htyped Ht. unfold checked_execution. apply returns_value. intros [] _.
  eapply run_ensures; [apply workspace_source_spec | ]. intros observed h1 Hobserved Ht1.
  apply run_quiet; [quiet_auto | ]. intros [] h2 Ht2. apply returns_value. intros [] Hsource.
  eapply run_ensures; [apply input_commitments_spec | ]. intros [] h3 Hinputs Ht3.
  apply run_quiet; [quiet_auto | ]. intros dependencies h4 Ht4.
  eapply run_ensures; [apply dependency_commitments_spec | ]. intros [] h5 Hdependencies Ht5.
  apply run_quiet; [quiet_auto | ]. intros [] h6 Ht6.
  apply execute_request_returns; [exact Htyped | | by rewrite !targets_app, Ht, Ht1, Ht2, Ht3, Ht4, Ht5, Ht6].
  rewrite <- !app_assoc. apply (grows_right measured). split_and!.
  - intros digest Hd. pose proof (source_commitment_spec _ h1 _ Hsource Hobserved Hd) as Hm.
    apply (grows_left (source_measured digest) (H := ltac:(unfold source_measured; apply _))). exact Hm.
  - eapply Forall_impl; [exact Hinputs | ]. intros input [Hi1 Hi2]. split; stays.
  - eapply Forall_impl; [exact Hdependencies | ]. intros dependency [[len Hd1] Hd2].
    split; [exists len | ]; stays.
Qed.
End facts.

(** ** The whole run *)

(** [serde_json] on the records of the Runner: limits decode into [u64]. *)
Class RunnerCodecLaws `{RC : RunnerCodec} : Prop := {
  decoded_limits content request :
    runner_request_of_json content = Ok request -> limits_typed request;
}.

Section run.
Context `{P : Platform, WC : WorkspaceCodec, RC : RunnerCodec, RL : !RunnerCodecLaws}.

(** The request that was read from the bundle. *)
Definition loaded (task_dir : string) (request : RunnerRequest) (h : history) : Prop :=
  exists content, Event (ReadFile (path_join task_dir RUNNER_REQUEST_FILE)) (Ok content) ∈ h
    /\ runner_request_of_json content = Ok request.

#[local] Instance grows_loaded task_dir request : Grows (loaded task_dir request).
Proof. unfold loaded. apply _. Qed.

Definition runner_ok (R : Type) (c : call R) (h : history) : Prop :=
  match c with
  | SpawnTarget command => exists task_dir request, loaded task_dir request h /\ starts_next request command h
  | _ => True
  end.

(** The Runner ended without a request: nothing was started. *)
Definition not_begun (r : result UniversalExecError unit) (h : history) : Prop :=
  targets h = [] /\ exists error, r = Err error.

(** The last thing the Runner did was to write its result. *)
Definition reported (r : result UniversalExecError unit) (h : history) : Prop :=
  exists task_dir request result before,
    h = before ++ [Event (WriteAtomic (path_join task_dir RESULT_FILE) (runner_result_to_json result)) r]
    /\ loaded task_dir request before /\ identity_kept request result
    /\ match rr_infrastructure_error_code result with
       | None => truthful task_dir request result before
       | Some _ => rr_status result = RunnerTerminalStatus.Failed /\ rr_steps result = []
                   /\ rr_exit_code result = None
       end.

Lemma load_request_spec task_dir :
  ensures (load_request task_dir) (fun request h => loaded task_dir request h).
Proof.
  unfold load_request. en_call. intros content h1 Hread.
  eapply ensures_mono; [apply ensures_value | ]. intros request h2 Hdecode. cbn beta in Hdecode.
  exists content. split; [stays | ]. by apply map_err_Ok_inv in Hdecode.
Qed.

Lemma capture_empty_named task_dir request stdout :
  ensures (capture_empty_if_missing task_dir (rq_task_id request) stdout) (fun output _ => output_named request stdout output).
Proof.
  unfold capture_empty_if_missing. cbv zeta. en_quiet. intros there h1 _. en_quiet. intros u h2 _.
  en_quiet. intros retained h3 _. en_quiet. intros digest h4 _. by apply ensures_ret.
Qed.

Definition blames_infrastructure (request : RunnerRequest) (result : RunnerResult) : Prop :=
  identity_kept request result /\ rr_infrastructure_error_code result <> None
  /\ rr_status result = RunnerTerminalStatus.Failed /\ rr_steps result = [] /\ rr_exit_code result = None.

Lemma failure_result_spec task_dir request started_ms code message :
  ensures (failure_result task_dir request started_ms code message)
    (fun result _ => blames_infrastructure request result).
Proof.
  unfold failure_result. en_quiet. intros finished h1 _.
  en_bind capture_empty_named. intros out h2 Ho. en_bind capture_empty_named. intros err h3 He.
  apply ensures_ret. by split_and!.
Qed.

(** There is always a result. *)
Lemma result_or_failure_spec task_dir request started_ms execution :
  spec (result_or_failure task_dir request started_ms execution) (fun r _ => exists result, r = Ok result
    /\ match execution with Ok ran => result = ran | Err _ => blames_infrastructure request result end).
Proof.
  destruct execution as [ran | error]; cbn [result_or_failure]; [by exists ran | ]. cbv zeta.
  set (code := UniversalExecErrorCode.as_str (ue_code error)). unfold spec, outcome_of.
  apply wp_bind, wp_bind. eapply wp_mono; [ | apply (failure_result_spec task_dir request started_ms code)].
  intros [result | secondary] h _ Hr; cbn [wp].
  - exists result. split; [done | by apply Hr].
  - eexists. split; [done | ]. by split_and!.
Qed.

Lemma wp_prefix ok {A B} (p : ueff A) (f : A -> ueff B) F Q h :
  (forall R (c : call R) h, silent R c h -> ok R c h) -> ensures p F ->
  (forall a seg, F a seg -> targets seg = [] -> wp ok (f a) (h ++ seg) Q) ->
  (forall e seg, targets seg = [] -> Q (Err e) (h ++ seg)) ->
  wp ok (p ≫= f) h Q.
Proof.
  intros Hok Hp Hf He. apply wp_bind. eapply spec_wp; [exact (silent_targets _ _ _ Hp) | exact Hok | ].
  intros [a | e] seg [HF (seg' & -> & Ht)]; [apply Hf; [by apply HF | exact Ht] | by apply He].
Qed.

Lemma silent_runner_ok R (c : call R) h : silent R c h -> runner_ok R c h.
Proof. by destruct c. Qed.

Lemma run_job_runner_wp task_dir :
  wp runner_ok (run_job_runner task_dir) [] (fun r h => not_begun r h \/ reported r h).
Proof.
  unfold run_job_runner.
  destruct (negb (is_absolute task_dir)); [by left; split; [ | eexists] | ].
  apply wp_bind. cbn [uresult fail_if wp].
  eapply (wp_prefix _ _ _ (fun _ _ => True) _ []); [apply silent_runner_ok | by apply ensures_quiet, quiet_canonical
    | | by intros e seg Ht; left; split; [ | eexists]].
  intros dir h1 _ Ht1. cbn [app]. eapply wp_prefix; [apply silent_runner_ok | apply load_request_spec
    | | by intros e seg Ht; left; split; [by rewrite targets_app, Ht1, Ht | eexists]].
  intros request h2 Hloaded Ht2. eapply wp_prefix; [apply silent_runner_ok | by apply ensures_utry
    | | by intros e seg Ht; left; split; [by rewrite !targets_app, Ht1, Ht2, Ht | eexists]].
  intros started_ms h3 _ Ht3. rewrite <- !app_assoc. set (h0 := h1 ++ h2 ++ h3).
  assert (Ht0 : targets h0 = []) by (unfold h0; by rewrite !targets_app, Ht1, Ht2, Ht3).
  assert (Hl0 : loaded dir request h0) by (unfold h0; stays).
  assert (Htyped : limits_typed request) by (destruct Hloaded as (content & _ & Hd); by eapply decoded_limits).
  unfold outcome_of. apply wp_bind, wp_bind. rewrite <- (app_nil_r h0).
  eapply (wp_shift (target_ok request) runner_ok _ _ _ [] h0 h0).
  - rewrite app_nil_r. by apply checked_execution_returns.
  - intros R c h' Hc. destruct c; try exact I. exists dir, request. split; [by apply (grows_left (loaded dir request)) | exact Hc].
  - intros execution h4 Hexecution. cbn [wp]. apply wp_bind.
    eapply spec_wp; [exact (silent_targets _ _ _ (result_or_failure_spec dir request started_ms execution))
      | apply silent_runner_ok | ].
    intros r h5 [(result & -> & Hresult) (h6 & Heq & Ht6)]. cbn [app] in Heq. subst h6.
    split; [exact I | ]. intros answer. right. exists dir, request, result, ((h0 ++ h4) ++ h5).
    assert (Hl : loaded dir request ((h0 ++ h4) ++ h5)) by (rewrite <- app_assoc; by apply (grows_left (loaded dir request))).
    split; [done | ]. split; [exact Hl | ]. destruct execution as [ran | error].
    + subst ran. destruct (Hexecution _ eq_refl) as (Hid & Htruth & ->). split; [exact Hid | ].
      by apply truthful_quiet.
    + destruct Hresult as (Hid & Hcode & Hrest). split; [exact Hid | ].
      by destruct (rr_infrastructure_error_code result).
Qed.

Lemma wp_follow ok {A} (p : prog A) (Q : A -> history -> Prop) : forall h seg a,
  wp ok p h Q -> follows p seg a -> Q a (h ++ seg).
Proof.
  induction p as [b | R c k IH]; intros h seg a; cbn [wp follows].
  - intros HQ [-> ->]. by rewrite app_nil_r.
  - intros [_ Hk] (r & seg' & -> & Hf). specialize (IH r (h ++ [Event c r]) seg' a (Hk r) Hf).
    by rewrite <- app_assoc in IH.
Qed.

Lemma run_reports task_dir d h r d' :
  runs (run_job_runner task_dir) d h (Some r) d' -> not_begun r h \/ reported r h.
Proof.
  intros Hrun. destruct (wp_runs runner_ok _ _ [] _ _ _ _ (run_job_runner_wp task_dir) Hrun) as [_ H]. by apply H.
Qed.

(** C8: Every target that a run of the Runner starts is the command of the next
    step of the request it read: as many targets were started before as there are
    steps before it, so each step is started at most once and in order.  Before it,
    Workspace source, inputs and Host Dependencies were found as the request commits
    to, and since the last target the step's executable was. *)
Theorem targets_follow_commitments task_dir d h o d' h1 command r h2 :
  runs (run_job_runner task_dir) d h o d' -> h = h1 ++ Event (SpawnTarget command) r :: h2 ->
  exists dir request, loaded dir request h1 /\ starts_next request command h1.
Proof.
  intros Hrun Heq. destruct (wp_runs runner_ok _ _ [] _ _ _ _ (run_job_runner_wp task_dir) Hrun) as [H _].
  exact (H _ _ _ _ _ Heq).
Qed.

(** C9: A run of the Runner that ends has started nothing, because it never got its
    request, or the last thing it did was to write a result under the identity of
    the request.  A result that blames the infrastructure is a failure without steps;
    any other tells the truth: of every target that was started, with the status that
    the kernel told, Completed only if all steps exited with zero, Cancelled only if
    the notice was seen, and the output as the files had it, within the limits. *)
Theorem runner_result_truthful task_dir d h r d' :
  runs (run_job_runner task_dir) d h (Some r) d' -> not_begun r h \/ reported r h.
Proof. apply run_reports. Qed.
End run.

(** ** The engine reads it *)

Section composition.
Context `{P : Platform, WC : WorkspaceCodec, C : EngineCodec, RC : RunnerCodec, RL : !RunnerCodecLaws}.

(** What one side writes the other reads. *)
Class CodecsAgree : Prop := {
  request_read_back request : limits_typed request ->
    runner_request_of_json (runner_request_to_json request) = Ok request;
  result_read_back result : runner_result_of_json (runner_result_to_json result) = Ok result;
}.

Context {CA : CodecsAgree}.
Context (rt : Runtime) (job : RuntimeJobRecord) (attempt : AttemptRecord) (plan : RuntimeExecutionPlan).
Context (launch_token : string) (bindings : list HostDependencyBinding).

#[local] Abbreviation request := (runner_request rt job attempt plan launch_token bindings).

(** The bundle of the Attempt is the one the Runner found. *)
Definition bundle_of_attempt (h : history) : Prop :=
  att_job_id attempt = job_job_id job /\ att_launch_token_digest attempt = sha256_bytes launch_token
  /\ limits_typed request
  /\ forall dir content, Event (ReadFile (path_join dir RUNNER_REQUEST_FILE)) (Ok content) ∈ h ->
       content = runner_request_to_json request.

Lemma loaded_request dir found h1 h2 :
  bundle_of_attempt (h1 ++ h2) -> loaded dir found h1 -> found = request.
Proof.
  intros (_ & _ & Htyped & Hbundle) (content & Hread & Hdecode).
  rewrite (Hbundle dir content) in Hdecode by (apply elem_of_app; by left).
  rewrite request_read_back in Hdecode by done. by injection Hdecode.
Qed.

Lemma identity_accepted result h :
  bundle_of_attempt h -> identity_kept request result -> result_identity_matches attempt result = true.
Proof.
  intros (Hjob & Htoken & _) (Ht & Hj & Ha & Hl & Hu & Hg & _). unfold result_identity_matches.
  rewrite Ht, Hj, Ha, Hl, Hu, Hg. cbn. rewrite String.eqb_refl, Hjob, Htoken. by rewrite !bool_decide_eq_true_2.
Qed.

(** The registration of an output file as the result tells of it. *)
Definition registration_of (stdout : bool) (output : CapturedOutput) : ArtifactRegistration :=
  {| areg_artifact_id := att_attempt_id attempt +:+ "." +:+ output_suffix stdout;
     areg_kind := output_suffix stdout;
     areg_relative_path := output_file_name stdout;
     areg_digest := co_digest output;
     areg_media_type := "text/plain; charset=utf-8";
     areg_byte_length := co_retained_bytes output;
     areg_truncated := co_truncated output |}.

Definition output_answers (stdout : bool) (output : CapturedOutput) : history :=
  [Event (FileLen (bundle_file attempt (output_file_name stdout))) (Ok (co_retained_bytes output));
   Event (Sha256File (bundle_file attempt (output_file_name stdout))) (Ok (co_digest output))].

Lemma output_accepted stdout output :
  output_named request stdout output ->
  follows (validate_captured_output attempt output stdout) (output_answers stdout output)
    (Ok (registration_of stdout output)).
Proof.
  intros [Hid Hname]. unfold validate_captured_output. rewrite Hid, Hname.
  destruct stdout; cbv beta iota zeta; cbn [output_file_name output_suffix rq_task_id runner_request];
    rewrite !String.eqb_refl; cbn [negb orb fail_if].
  all: eexists _, _; split; [reflexivity | ]; eexists _, _; split; [reflexivity | ].
  all: cbn; rewrite String.eqb_refl, Z.eqb_refl; by split.
Qed.

Lemma follows_bind {A B} (p : eff A) (f : A -> eff B) h1 h2 a r :
  follows p h1 (Ok a) -> follows (f a) h2 r -> follows (p ≫= f) (h1 ++ h2) r.
Proof.
  unfold mbind, eff_mbind. revert h1. induction p as [x | R c k IH]; intros h1 Hp Hf.
  - destruct Hp as [-> <-]. exact Hf.
  - destruct Hp as (answer & h' & -> & Hp). exists answer, (h' ++ h2). split; [done | ]. by apply IH.
Qed.

(** The result file of the Attempt, and the answers about its output files. *)
Definition result_file (content : string) : event :=
  Event (ReadFile (bundle_file attempt RESULT_FILE)) (Ok content).

Lemma result_accepted result content h :
  bundle_of_attempt h -> identity_kept request result -> runner_result_of_json content = Ok result ->
  follows (prepare_runner_terminal_from_bundle attempt)
    (result_file content :: output_answers true (rr_stdout result) ++ output_answers false (rr_stderr result))
    (Ok (runner_terminal_commit attempt content result (registration_of true (rr_stdout result))
           (registration_of false (rr_stderr result)))).
Proof.
  intros Hbundle Hid Hdecode. unfold prepare_runner_terminal_from_bundle.
  apply (follows_bind _ _ [_] _ content); [by eexists _, [] | ].
  apply (follows_bind _ _ [] _ result); [by rewrite Hdecode | ].
  apply (follows_bind _ _ [] _ tt); [by rewrite (identity_accepted result h Hbundle Hid) | ].
  destruct Hid as (_ & _ & _ & _ & _ & _ & Hout & Herr).
  apply (follows_bind _ _ (output_answers true (rr_stdout result)) _ _ _ (output_accepted _ _ Hout)).
  apply (follows_bind _ _ (output_answers false (rr_stderr result)) [] _ _ (output_accepted _ _ Herr)). by split.
Qed.

Lemma follows_bind_inv {A B} (p : eff A) (f : A -> eff B) h b :
  follows (p ≫= f) h (Ok b) -> exists a h1 h2, h = h1 ++ h2 /\ follows p h1 (Ok a) /\ follows (f a) h2 (Ok b).
Proof.
  unfold mbind, eff_mbind. revert h. induction p as [[a | e] | R c k IH]; intros h Hf.
  - exists a, [], h. by split_and!.
  - by destruct Hf as [_ Hf].
  - destruct Hf as (answer & h' & -> & Hf). destruct (IH _ _ Hf) as (a & h1 & h2 & -> & Hp & Hf2).
    exists a, (Event c answer :: h1), h2. split_and!; [done | by exists answer, h1 | done].
Qed.

(** What a read answered. *)
Definition read_answer (e : event) : option (result IoFailure string) :=
  match e with Event (ReadFile _) answer => Some answer | _ => None end.

Lemma prepared_from_result content ending commit result :
  runner_result_of_json content = Ok result ->
  follows (prepare_runner_terminal_from_bundle attempt) (result_file content :: ending) (Ok commit) ->
  tc_state commit = fst (runner_disposition attempt result).
Proof.
  intros Hdecode Hf. unfold prepare_runner_terminal_from_bundle in Hf.
  apply follows_bind_inv in Hf as (text & h1 & h2 & Heq & (answer & h' & -> & Hanswer & Htext) & Hf).
  assert (text = content) as ->.
  { subst h'. apply (f_equal (fun l => head l ≫= read_answer)) in Heq. cbn in Heq. injection Heq as <-.
    cbn in Htext. by injection Htext. }
  clear Heq Hanswer Htext. apply follows_bind_inv in Hf as (result' & h3 & h4 & _ & [_ Hr] & Hf).
  rewrite Hdecode in Hr. injection Hr as <-.
  apply follows_bind_inv in Hf as (u & h5 & h6 & _ & _ & Hf).
  apply follows_bind_inv in Hf as (stdout & h7 & h8 & _ & _ & Hf).
  apply follows_bind_inv in Hf as (stderr & h9 & h10 & _ & _ & [_ Hf]). by injection Hf as ->.
Qed.

Lemma disposition_succeeded result :
  fst (runner_disposition attempt result) = AttemptState.Succeeded ->
  rr_status result = RunnerTerminalStatus.Completed.
Proof.
  unfold runner_disposition. destruct (rr_status result); [done | | done]. by destruct (rr_timed_out result).
Qed.

(** C10: For every result that the Runner leaves for the bundle of an Attempt, there is
    a commit that the engine prepares from it, when the output files still have the
    length and digest that the result tells: the identity that the Runner writes is
    the one the engine looks for. *)
Theorem engine_takes_runner_result task_dir d h r d' :
  runs (run_job_runner task_dir) d h (Some r) d' -> bundle_of_attempt h ->
  not_begun r h \/ exists dir content result before,
    h = before ++ [Event (WriteAtomic (path_join dir RESULT_FILE) content) r]
    /\ runner_result_of_json content = Ok result
    /\ follows (prepare_runner_terminal_from_bundle attempt)
         (result_file content :: output_answers true (rr_stdout result) ++ output_answers false (rr_stderr result))
         (Ok (runner_terminal_commit attempt content result (registration_of true (rr_stdout result))
                (registration_of false (rr_stderr result)))).
Proof.
  intros Hrun Hbundle.
  destruct (run_reports _ _ _ _ _ Hrun) as [Hnot | (dir & found & result & before & -> & Hloaded & Hid & _)];
    [by left | ].
  right. assert (found = request) as -> by by eapply loaded_request.
  exists dir, (runner_result_to_json result), result, before.
  split_and!; [done | apply result_read_back | ]. eapply result_accepted; [exact Hbundle | exact Hid | apply result_read_back].
Qed.

(** What was written. *)
Definition written_content (e : event) : option string :=
  match e with Event (WriteAtomic _ content) _ => Some content | _ => None end.

(** C7: An Attempt that the engine commits as Succeeded from what the Runner wrote ran
    every step of its plan: each was started once, in order, and its process exited
    with zero, and all that the Job was admitted with had been found unchanged. *)
Theorem succeeded_attempt_ran_every_step task_dir d h d' dir content before ending commit :
  runs (run_job_runner task_dir) d h (Some (Ok tt)) d' -> bundle_of_attempt h ->
  h = before ++ [Event (WriteAtomic (path_join dir RESULT_FILE) content) (Ok tt)] ->
  follows (prepare_runner_terminal_from_bundle attempt) (result_file content :: ending) (Ok commit) ->
  tc_state commit = AttemptState.Succeeded ->
  exists results,
    Forall2 (step_ran request before) (effective_steps request) results
    /\ Forall (fun result => rsr_exit_code result = Some 0 /\ rsr_timed_out result = false) results
    /\ length (targets before) = length (effective_steps request)
    /\ measured request before.
Proof.
  intros Hrun Hbundle Hlast Hf Hstate.
  destruct (run_reports _ _ _ _ _ Hrun) as [[_ (error & Herror)] | (dir' & found & result & before' & Heq & Hloaded & Hid & Htruth)];
    [discriminate Herror | ].
  subst h. apply app_inj_tail in Heq as [<- Heq]. apply (f_equal written_content) in Heq. cbn in Heq.
  injection Heq as ->. assert (found = request) as -> by by eapply loaded_request.
  rewrite (prepared_from_result _ _ _ _ (result_read_back result) Hf) in Hstate.
  apply disposition_succeeded in Hstate.
  destruct (rr_infrastructure_error_code result); [destruct Htruth as [Hs _]; by rewrite Hs in Hstate | ].
  destruct Htruth as (Hm & Hran & Hcompleted & _). destruct (Hcompleted Hstate) as (Hlen & Hall & _).
  rewrite Hlen, firstn_all in Hran. exists (rr_steps result). split_and!; try done.
  apply Forall_forall. intros r Hr. apply list_elem_of_lookup in Hr as [i Hi].
  destruct (Forall2_lookup_r _ _ _ _ _ Hran Hi) as (step & _ & _ & _ & Hok). apply Hok.
  by eapply (Forall_lookup_1 _ _ _ _ Hall).
Qed.
End composition.

(** ** What is kept of the output *)

(** Of what a target writes to a stream, the file keeps the beginning that fits
    into what is left of the limit, in order and without a gap; the counts are exact:
    retained is the length of what was written, and dropped is all the rest. *)
Theorem capture_keeps_the_beginning pid stdout path limit before h counts :
  0 <= before <= limit -> limit <= u64_max ->
  follows (capture_stream_append pid stdout path limit before) h (Ok counts) ->
  exists reads, Event (PipeReads pid stdout) reads ∈ h
    /\ (str_len (pipe_data reads) <= u64_max ->
        kept_beginning limit before (pipe_data reads) counts (written path h)).
Proof.
  intros [Hb Hle] Hl Hf.
  pose proof (wp_follow _ _ _ [] _ _ (capture_spec pid stdout path limit before Hb Hle Hl) Hf) as H. by apply H.
Qed.

(** ** What the witness of path drift notices *)

(** The events in a buffer, and in all the buffers that were read. *)
Fixpoint events_in (fuel : nat) (rest : string) : list InotifyEvent :=
  match fuel with
  | O => []
  | S fuel =>
      if (String.length rest <? EVENT_SIZE)%nat then []
      else event_at rest :: events_in fuel (str_drop (EVENT_SIZE + Z.to_nat (ie_len (event_at rest))) rest)
  end.

Fixpoint delivered (reads : list (result (option IoFailure) string)) : list InotifyEvent :=
  match reads with
  | [] | Err _ :: _ | Ok EmptyString :: _ => []
  | Ok buffer :: rest => events_in (String.length buffer) buffer ++ delivered rest
  end.

(** An event that stands for a change: events were lost, a watched object is gone or
    moved, a watched file itself was written or had its attributes changed, or a name
    on the way to a watched file was created, removed or renamed. *)
Inductive alarming (watch : PathDriftWatch) (event : InotifyEvent) : Prop :=
  | Overflow : has_any (ie_mask event) IN_Q_OVERFLOW = true -> alarming watch event
  | Gone spec : pdw_specs watch !! ie_wd event = Some spec ->
      has_any (ie_mask event) STRONG_SELF_MASK = true -> alarming watch event
  | Written spec : pdw_specs watch !! ie_wd event = Some spec -> pws_direct spec = true ->
      ie_len event = 0 -> has_any (ie_mask event) METADATA_MASK = true -> alarming watch event
  | ChildReplaced spec child : pdw_specs watch !! ie_wd event = Some spec -> 0 < ie_len event ->
      pws_children spec !! ie_name event = Some child ->
      has_any (ie_mask event) STRONG_CHILD_MASK = true -> alarming watch event
  | ChildWritten spec child : pdw_specs watch !! ie_wd event = Some spec -> 0 < ie_len event ->
      pws_children spec !! ie_name event = Some child -> is_direct_path watch child = true ->
      has_any (ie_mask event) METADATA_MASK = true -> alarming watch event.

Lemma follows_ubind_inv {A B} (p : ueff A) (f : A -> ueff B) h b :
  follows (p ≫= f) h (Ok b) -> exists a h1 h2, h = h1 ++ h2 /\ follows p h1 (Ok a) /\ follows (f a) h2 (Ok b).
Proof.
  unfold mbind, ueff_mbind. revert h. induction p as [[a | e] | R c k IH]; intros h Hf.
  - exists a, [], h. by split_and!.
  - by destruct Hf as [_ Hf].
  - destruct Hf as (answer & h' & -> & Hf). destruct (IH _ _ Hf) as (a & h1 & h2 & -> & Hp & Hf2).
    exists a, (Event c answer :: h1), h2. split_and!; [done | by exists answer, h1 | done].
Qed.

Lemma follows_guard {B} (b : bool) (e : UniversalExecError) (f : unit -> ueff B) h r :
  follows (uresult (fail_if b e) ≫= f) h (Ok r) -> b = false /\ follows (f tt) h (Ok r).
Proof. destruct b; [by intros [_ Hf] | done]. Qed.

(** The attributes of a path were touched that is not watched for its own sake: of a
    directory above a watched file, or of another name in it. *)
Inductive disturbed (watch : PathDriftWatch) (event : InotifyEvent) : string -> Prop :=
  | Touched spec : pdw_specs watch !! ie_wd event = Some spec -> ie_len event = 0 ->
      has_any (ie_mask event) METADATA_MASK = true -> disturbed watch event (pws_path spec)
  | ChildTouched spec child : pdw_specs watch !! ie_wd event = Some spec -> 0 < ie_len event ->
      pws_children spec !! ie_name event = Some child ->
      has_any (ie_mask event) METADATA_MASK = true -> disturbed watch event child.

(** The path was measured again, and is the object it was when the watch was opened. *)
Definition measured_again (watch : PathDriftWatch) (path : string) (h : history) : Prop :=
  exists metadata identity, Event (Metadata path false) (Ok metadata) ∈ h
    /\ path_lookup path (pdw_identities watch) = Some identity
    /\ poi_device identity = md_dev metadata /\ poi_inode identity = md_ino metadata
    /\ poi_file_type identity = Z.land (md_mode metadata) S_IFMT.

(** The event raises no alarm, and what it disturbed was measured again. *)
Definition passed (watch : PathDriftWatch) (h : history) (event : InotifyEvent) : Prop :=
  ~ alarming watch event /\ forall path, disturbed watch event path -> measured_again watch path h.

Lemma passed_app watch h1 h2 event :
  passed watch h1 event \/ passed watch h2 event -> passed watch (h1 ++ h2) event.
Proof.
  intros [[Ha Hm] | [Ha Hm]]; (split; [exact Ha | ]); intros path Hp;
    destruct (Hm path Hp) as (metadata & identity & Hin & Hrest); exists metadata, identity;
    (split; [apply elem_of_app; auto | exact Hrest]).
Qed.

Lemma unless_unchanged_calm watch direct path mask h :
  follows (unless_unchanged watch direct path mask) h (Ok tt) -> direct = false /\ measured_again watch path h.
Proof.
  unfold unless_unchanged. destruct direct; [by intros [_ Hf] | ]. intros Hf. split; [done | ].
  apply follows_ubind_inv in Hf as (unchanged & h1 & h2 & -> & Hf & Hg).
  unfold path_identity_unchanged in Hf. apply follows_ubind_inv in Hf as (expected & g1 & g2 & -> & He & Hf).
  apply follows_ubind_inv in Hf as (observed & g3 & g4 & -> & Ho & [-> [= ->]]).
  destruct (path_lookup path (pdw_identities watch)) as [identity | ] eqn:Hlookup; [ | by destruct He].
  destruct He as [-> [= ->]]. unfold observe in Ho.
  apply follows_ubind_inv in Ho as (metadata & k1 & k2 & -> & Hm & [-> [= ->]]).
  destruct Hm as ([m | e] & k & -> & [-> [= ->]]).
  destruct Hg as [-> Hg]. destruct (_ == _) eqn:Heq in Hg; [ | discriminate Hg].
  apply bool_decide_eq_true in Heq. exists m, identity. subst identity. cbn. split; [ | done].
  by left.
Qed.

Lemma handle_event_calm watch event h :
  has_any (ie_mask event) IN_Q_OVERFLOW = false ->
  follows (handle_event watch event) h (Ok tt) -> passed watch h event.
Proof.
  intros Hq Hf. unfold handle_event in Hf.
  destruct (pdw_specs watch !! ie_wd event) as [spec | ] eqn:Hspec.
  2:{ split; [intros [] | intros path []]; congruence. }
  apply follows_guard in Hf as [Hself Hf]. apply follows_ubind_inv in Hf as ([] & h1 & h2 & -> & H1 & H2).
  assert (Hself' : ie_len event = 0 -> has_any (ie_mask event) METADATA_MASK = true ->
            pws_direct spec = false /\ measured_again watch (pws_path spec) h1).
  { intros Hlen Hx. rewrite Hlen, Hx in H1. by apply unless_unchanged_calm in H1. }
  assert (Hchild : forall child, 0 < ie_len event -> pws_children spec !! ie_name event = Some child ->
            has_any (ie_mask event) STRONG_CHILD_MASK = false
            /\ (has_any (ie_mask event) METADATA_MASK = true ->
                is_direct_path watch child = false /\ measured_again watch child h2)).
  { intros child Hlen Hc. apply Z.ltb_lt in Hlen. rewrite Hlen, Hc in H2. unfold handle_child in H2.
    apply follows_guard in H2 as [Hx H2]. split; [exact Hx | ]. intros Hm. rewrite Hm in H2.
    by apply unless_unchanged_calm in H2. }
  split.
  - intros [H | ? H Hx | ? H Hdirect Hlen Hx | ? child H Hlen Hc Hx | ? child H Hlen Hc Hdirect Hx];
      simplify_eq; try congruence.
    + by destruct (Hself' Hlen Hx); congruence.
    + by destruct (Hchild child Hlen Hc); congruence.
    + destruct (Hchild child Hlen Hc) as [_ [? _]]; [done | congruence].
  - intros path [? H Hlen Hx | ? child H Hlen Hc Hx]; simplify_eq.
    + destruct (Hself' Hlen Hx) as [_ (m & identity & Hin & Hrest)]. exists m, identity.
      split; [apply elem_of_app; by left | exact Hrest].
    + destruct (Hchild child Hlen Hc) as [_ Hm]. destruct (Hm Hx) as [_ (m & identity & Hin & Hrest)].
      exists m, identity. split; [apply elem_of_app; by right | exact Hrest].
Qed.

Lemma handle_events_calm watch fuel : forall rest h,
  follows (handle_events watch fuel rest) h (Ok tt) -> Forall (passed watch h) (events_in fuel rest).
Proof.
  induction fuel as [ | fuel IH]; intros rest h Hf; cbn [handle_events events_in] in *; [constructor | ].
  destruct (String.length rest <? EVENT_SIZE)%nat; [constructor | ]. cbv zeta in Hf.
  apply follows_guard in Hf as [_ Hf]. apply follows_guard in Hf as [Hq Hf].
  apply follows_ubind_inv in Hf as ([] & h1 & h2 & -> & H1 & H2).
  constructor; [apply passed_app; left; by apply handle_event_calm | ].
  eapply Forall_impl; [by apply IH | ]. intros event He. apply passed_app. by right.
Qed.

Lemma handle_reads_calm watch reads : forall h,
  follows (handle_reads watch reads) h (Ok tt) -> Forall (passed watch h) (delivered reads).
Proof.
  induction reads as [ | [[ | c buffer] | error] reads IH]; intros h Hf; cbn [handle_reads delivered] in *;
    try constructor.
  apply follows_ubind_inv in Hf as ([] & h1 & h2 & -> & H1 & H2).
  apply Forall_app. split; (eapply Forall_impl; [first [by eapply handle_events_calm | by eapply IH] | ]);
    intros event He; apply passed_app; auto.
Qed.

(** C19: A check of the witness never passes over a change: if among the events that
    the kernel delivered there is one that stands for a change near a watched path,
    or that events were lost, the check fails, whatever came before it.  And if it
    does not fail, every other path whose attributes an event touched (a directory on
    the way to a watched file, say) was measured again, and has the device, the inode
    and the file type it had when the watch was opened. *)
Theorem path_change_noticed watch reads h answer :
  follows (check watch) (Event (InotifyReads (pdw_fd watch)) reads :: h) answer ->
  (Exists (alarming watch) (delivered reads) -> exists error, answer = Err error)
  /\ (answer = Ok tt ->
      Forall (fun event => forall path, disturbed watch event path -> measured_again watch path h)
        (delivered reads)).
Proof.
  intros Hf.
  assert (Hcalm : answer = Ok tt -> Forall (passed watch h) (delivered reads)).
  { intros ->. destruct Hf as (r & h' & Heq & Hf).
    assert (r = reads) as ->.
    { apply (f_equal (fun l => head l ≫= fun e => match e with
        Event (InotifyReads _) answer => Some answer | _ => None end)) in Heq. cbn in Heq. by injection Heq. }
    injection Heq as ->. by apply handle_reads_calm in Hf. }
  split.
  - intros Hex. destruct answer as [[] | error]; [exfalso | by exists error].
    apply Exists_exists in Hex as (event & Hin & Halarm). specialize (Hcalm eq_refl).
    rewrite Forall_forall in Hcalm. by destruct (Hcalm event Hin).
  - intros Ha. eapply Forall_impl; [by apply Hcalm | ]. by intros event [_ Hm].
Qed.

(** ** What the engine materialises *)

Section materialised.
Context `{P : Platform, WC : WorkspaceCodec, C : EngineCodec, RC : RunnerCodec}.

Lemma absolute_join a b : is_absolute a = true -> is_absolute (path_join a b) = true.
Proof.
  intros Ha. unfold path_join. destruct (is_absolute b) eqn:Hb; [done | ].
  destruct (String.eqb_spec a "") as [-> | Hne]; [done | ].
  destruct (ends_with "/" a); by rewrite is_absolute_app.
Qed.

Lemma bytes_append a b : bytes (a +:+ b) = bytes a ++ bytes b.
Proof. induction a as [ | c a IH]; [done | ]. cbn. by rewrite IH. Qed.

Lemma nul_free_join a b :
  contains_nul a = false -> contains_nul b = false -> contains_nul (path_join a b) = false.
Proof.
  unfold contains_nul, path_join. intros Ha Hb. repeat case_match; try done.
  all: rewrite ?bytes_append, ?existsb_app, ?Ha, ?Hb; done.
Qed.

Lemma safe_join a b :
  absolute_and_nul_free a = true -> contains_nul b = false -> absolute_and_nul_free (path_join a b) = true.
Proof.
  unfold absolute_and_nul_free. intros [Ha Hn%negb_true_iff]%andb_true_iff Hb.
  by rewrite absolute_join, nul_free_join.
Qed.

Lemma exec_payload_field args env f1 f2 :
  validate_exec_payload args env f1 = Ok tt -> validate_exec_payload args env f2 = Ok tt.
Proof.
  unfold validate_exec_payload. intros H. apply seq_Ok in H as [-> H]. apply seq_Ok in H as [-> H].
  cbn [mbind result_bind] in *. repeat match goal with
  | H : (?m ≫= _) = Ok _ |- _ => let a := fresh in let Ha := fresh in
      apply bind_Ok_inv in H as (a & Ha & H);
      first [rewrite Ha | apply ok_or_Ok_inv in Ha; rewrite Ha | idtac]; cbn [mbind result_bind ok_or]
  end.
  apply fail_if_Ok in H. by rewrite H.
Qed.

Context (rt : Runtime) (job : RuntimeJobRecord) (attempt : AttemptRecord) (submission : SubmitRequest).
Context (launch_token : string).

#[local] Abbreviation plan := (sub_plan submission).
#[local] Abbreviation request := (runner_request rt job attempt plan launch_token (sub_host_dependencies submission)).

#[local] Abbreviation uses := (presents_build_target (plan_env plan)
  || existsb (fun step => presents_build_target (step_env step)) (plan_steps plan)).

Context (Haccepted : validate_submit submission = Ok tt).
Context (Hlinux : plan_execution_target plan = ExecutionTarget.LocalLinux).

(** What the Runner asks of a request beyond what [validate_submit] does: that the
    Workspace and the Attempt have identifiers of the Runtime's shape, that no place
    of an input has a NUL byte, that expected digests of Host Dependencies are in lower
    case, and that the stable Cargo target is used by trusted executions only, in a
    store that is an absolute path. *)
Record runner_demands : Prop := {
  rd_workspace_id : workspace_id_valid (plan_workspace_id plan) = true;
  rd_attempt_id : workspace_id_valid (att_attempt_id attempt) = true;
  rd_inputs : Forall (fun input => contains_nul (ei_presentation_relative_path input) = false)
                (plan_effective_inputs plan);
  rd_dependencies : Forall (fun binding => forall hex,
      strip_prefix "sha256:" (hd_expected_digest binding) = Some hex -> forallb lowercase_hex (bytes hex) = true)
    (sub_host_dependencies submission);
  rd_trusted : uses = true -> plan_execution_profile plan = ExecutionProfile.TrustedLocal;
  rd_store : uses = true -> absolute_and_nul_free (uec_store_root (rt_executor rt)) = true;
}.

Lemma digest_checked valid digest m1 m2 :
  digest_valid digest = true ->
  (forall hex, strip_prefix "sha256:" digest = Some hex -> forallb valid (bytes hex) = true) ->
  check_digest valid digest m1 m2 = Ok tt.
Proof.
  unfold digest_valid, check_digest. intros Hd Hv. destruct (strip_prefix "sha256:" digest) as [hex | ]; [ | done].
  apply andb_true_iff in Hd as [-> _]. by rewrite Hv.
Qed.

Lemma digest_hex digest hex :
  digest_valid digest = true -> strip_prefix "sha256:" digest = Some hex ->
  forallb is_ascii_hexdigit (bytes hex) = true.
Proof. unfold digest_valid. intros Hd Hs. rewrite Hs in Hd. by apply andb_true_iff in Hd as [_ Hd]. Qed.

Lemma input_checked index input :
  input_ok input -> contains_nul (ei_presentation_relative_path input) = false ->
  check_input_commitment (Some CONTAINED_INPUT_ROOT) index
    {| ric_presentation_path := path_join CONTAINED_INPUT_ROOT (ei_presentation_relative_path input);
       ric_digest := ei_digest input; ric_byte_length := ei_byte_length input |} = Ok tt.
Proof.
  intros Hok Hn. unfold check_input_commitment. cbn [ric_presentation_path ric_digest].
  apply seq_Ok. split; [by rewrite fail_if_Ok, safe_join | ]. apply seq_Ok. split.
  - rewrite fail_if_Ok. apply negb_false_iff, path_starts_with_prefix.
    destruct Hok as (_ & Hc & _). rewrite confined_join by done. by eexists.
  - destruct Hok as (? & _ & ?). apply digest_checked; [done | ]. intros hex. by apply digest_hex.
Qed.

Lemma dependencies_checked bindings : forall previous index,
  Forall dependency_ok bindings -> StronglySorted dependency_lt bindings ->
  Forall (fun binding => forall hex, strip_prefix "sha256:" (hd_expected_digest binding) = Some hex ->
            forallb lowercase_hex (bytes hex) = true) bindings ->
  (forall p, previous = Some p -> Forall (fun b => str_lt p (hd_path b) = true) bindings) ->
  check_dependency_commitments previous index
    (map (fun binding => {| rhd_path := hd_path binding; rhd_digest := hd_expected_digest binding |}) bindings)
  = Ok tt.
Proof.
  induction bindings as [ | b rest IH]; intros previous index Hok Hsorted Hlower Hprev; [done | ].
  apply Forall_cons in Hok as [(Habs & Hnul & Hdigest) Hok]. apply StronglySorted_inv in Hsorted as [Hsorted Hb].
  apply Forall_cons in Hlower as [Hhex Hlower]. cbn [map check_dependency_commitments].
  apply seq_Ok. split; [ | by apply IH; [ | | | intros p [= <-]]].
  unfold check_dependency_commitment, absolute_and_nul_free. cbn [rhd_path rhd_digest]. rewrite Habs, Hnul.
  apply seq_Ok. split; [done | ]. apply seq_Ok. split; [by apply digest_checked | ].
  rewrite fail_if_Ok. destruct previous as [p | ]; [ | done].
  by rewrite (Forall_inv (Hprev p eq_refl)).
Qed.

Lemma backing_checked :
  runner_demands -> contains_nul (plan_workspace_id plan) = false ->
  match build_target_backing rt plan with
  | None => uses = false
  | Some backing => uses = true /\ absolute_and_nul_free backing = true
  end.
Proof.
  intros Hrd Hid. unfold build_target_backing. rewrite Hlinux, bool_decide_eq_true_2 by done.
  destruct uses eqn:Huses; [ | by rewrite andb_false_r].
  rewrite (rd_trusted Hrd Huses), bool_decide_eq_true_2 by done. cbn [andb]. split; [done | ].
  apply safe_join; [ | done]. unfold workspace_build_cache_path, build_caches_root, cache_root.
  apply safe_join; [ | done]. apply safe_join; [ | done]. apply safe_join; [exact (rd_store Hrd Huses) | done].
Qed.

(** The other way: what a safe path is joined from is safe. *)
Lemma safe_join_inv a b :
  absolute_and_nul_free (path_join a b) = true -> is_absolute b = false -> absolute_and_nul_free a = true.
Proof.
  unfold absolute_and_nul_free. intros [Ha Hn%negb_true_iff]%andb_true_iff Hb. unfold path_join in *.
  rewrite Hb in *. destruct (String.eqb_spec a "") as [-> | Hne]; [congruence | ].
  destruct (ends_with "/" a); rewrite is_absolute_app in Ha by done; rewrite Ha; cbn [andb];
    apply negb_true_iff; unfold contains_nul in *; rewrite bytes_append, existsb_app in Hn;
    apply orb_false_iff in Hn as [Hn _]; exact Hn.
Qed.

Lemma nul_free_join_inv a b : contains_nul (path_join a b) = false -> contains_nul b = false.
Proof.
  unfold contains_nul, path_join. repeat case_match; try done.
  all: rewrite ?bytes_append, ?existsb_app; intros; by repeat match goal with
       | H : (_ || _) = false |- _ => apply orb_false_iff in H as [? H] end.
Qed.

Lemma workspace_id_relative value : workspace_id_valid value = true -> is_absolute value = false.
Proof.
  destruct value as [ | c rest]; [done | ]. unfold is_absolute, starts_with. cbn [String.prefix].
  case_match; [subst c; discriminate | done].
Qed.

Lemma digest_checked_inv valid digest m1 m2 hex :
  check_digest valid digest m1 m2 = Ok tt -> strip_prefix "sha256:" digest = Some hex ->
  forallb valid (bytes hex) = true.
Proof. unfold check_digest. intros H Hs. rewrite Hs, fail_if_Ok in H. by bool_props. Qed.

Lemma dependencies_checked_inv bindings : forall previous index,
  check_dependency_commitments previous index
    (map (fun binding => {| rhd_path := hd_path binding; rhd_digest := hd_expected_digest binding |}) bindings)
  = Ok tt ->
  Forall (fun binding => forall hex, strip_prefix "sha256:" (hd_expected_digest binding) = Some hex ->
            forallb lowercase_hex (bytes hex) = true) bindings.
Proof.
  induction bindings as [ | b rest IH]; intros previous index H; [done | ].
  cbn [map check_dependency_commitments] in H. apply seq_Ok in H as [H Hrest].
  unfold check_dependency_commitment in H. apply seq_Ok in H as [_ H]. apply seq_Ok in H as [H _].
  constructor; [ | by eapply IH]. intros hex. by eapply digest_checked_inv.
Qed.

Lemma backing_checked_inv :
  workspace_id_valid (plan_workspace_id plan) = true ->
  match build_target_backing rt plan with
  | None => uses = false
  | Some backing => absolute_and_nul_free backing = true
  end ->
  uses = true -> plan_execution_profile plan = ExecutionProfile.TrustedLocal
    /\ absolute_and_nul_free (uec_store_root (rt_executor rt)) = true.
Proof.
  intros Hid H Huses. unfold build_target_backing in H. rewrite Huses, andb_true_r in H.
  rewrite Hlinux, bool_decide_eq_true_2 in H by done. cbn [andb] in H.
  case_bool_decide as Hprofile; [ | congruence]. split; [done | ].
  apply safe_join_inv in H; [ | done]. unfold workspace_build_cache_path, build_caches_root, cache_root in H.
  apply safe_join_inv in H; [ | by apply workspace_id_relative]. do 2 (apply safe_join_inv in H; [ | done]). done.
Qed.

(** The check of the stable Cargo target, on the request that is materialised. *)
Lemma uses_of_request :
  uses_stable_target (rq_env request)
  || existsb (fun step => uses_stable_target (res_env step)) (rq_steps request) = uses.
Proof.
  assert (Hsteps : forall l, existsb (fun step => uses_stable_target (res_env step)) (map runner_step l)
            = existsb (fun step => presents_build_target (step_env step)) l)
    by (intros l; induction l as [ | x l IH]; [done | cbn; by rewrite IH]).
  cbn [rq_env rq_steps runner_request]. by rewrite Hsteps.
Qed.

Lemma backing_of_request : rq_build_target_backing request = build_target_backing rt plan.
Proof. reflexivity. Qed.

Lemma demands_suffice : runner_demands -> validate_request_identity request = Ok tt.
Proof.
  intros Hrd. pose proof (submission_safe _ Haccepted) as Hsafe.
  destruct (safe_dependencies _ Hsafe) as [Hdeps Hsorted].
  assert (Hnul : contains_nul (plan_workspace_id plan) = false).
  { pose proof Haccepted as H. unfold validate_submit in H. apply seq_Ok in H as [H _].
    unfold validate_submit_header in H. do 4 apply seq_Ok in H as [_ H]. apply seq_Ok in H as [H _].
    apply fail_if_Ok in H. by bool_props. }
  unfold validate_request_identity. cbv zeta. rewrite uses_of_request, backing_of_request.
  apply seq_Ok. split; [done | ].
  apply seq_Ok. split; [unfold validate_id; cbn [rq_task_id runner_request]; by rewrite (rd_attempt_id Hrd) | ].
  apply seq_Ok. split; [unfold validate_id; cbn [rq_workspace_id runner_request]; by rewrite (rd_workspace_id Hrd) | ].
  apply seq_Ok. split.
  { pose proof (safe_payload _ Hsafe) as H. rewrite Hlinux in H. cbn in H. apply map_err_Ok in H.
    by eapply exec_payload_field. }
  unfold runner_request, on_linux. cbn [rq_input_presentation_root rq_input_commitments
    rq_payload rq_host_dependencies]. rewrite Hlinux, bool_decide_eq_true_2 by done.
  apply seq_Ok. split; [by destruct (plan_effective_inputs plan) | ].
  apply seq_Ok. split.
  { pose proof (backing_checked Hrd Hnul) as Hb. rewrite fail_if_Ok. apply negb_false_iff.
    destruct (build_target_backing rt plan) as [backing | ]; [ | by rewrite Hb].
    destruct Hb as [-> ->]. done. }
  apply seq_Ok. split.
  { apply for_each_i_Ok. intros k commitment Hk. apply list_lookup_fmap_Some in Hk as (input & -> & Hinput).
    destruct (plan_effective_inputs plan) eqn:Hl; [done | ]. rewrite <- Hl in Hinput.
    apply input_checked.
    - pose proof (safe_inputs _ Hsafe) as Hok. by eapply Forall_lookup_1.
    - pose proof (rd_inputs Hrd) as Hin. by eapply (Forall_lookup_1 _ _ _ _ Hin). }
  apply seq_Ok. split; [ | done]. by apply dependencies_checked; [ | | apply (rd_dependencies Hrd) | ].
Qed.

Lemma demands_necessary : validate_request_identity request = Ok tt -> runner_demands.
Proof.
  unfold validate_request_identity. cbv zeta. rewrite uses_of_request, backing_of_request. intros H.
  apply seq_Ok in H as [_ H]. apply seq_Ok in H as [Hattempt H]. apply seq_Ok in H as [Hworkspace H].
  apply seq_Ok in H as [_ H]. apply seq_Ok in H as [_ H]. apply seq_Ok in H as [Hbacking H].
  apply seq_Ok in H as [Hinputs H]. apply seq_Ok in H as [Hdependencies _].
  unfold validate_id in Hattempt, Hworkspace. apply fail_if_Ok, negb_false_iff in Hattempt, Hworkspace.
  assert (Hb : uses = true -> plan_execution_profile plan = ExecutionProfile.TrustedLocal
    /\ absolute_and_nul_free (uec_store_root (rt_executor rt)) = true).
  { apply backing_checked_inv; [exact Hworkspace | ]. apply fail_if_Ok, negb_false_iff in Hbacking.
    destruct (build_target_backing rt plan); [by bool_props | by apply negb_true_iff]. }
  split; [done | done | | by eapply dependencies_checked_inv | apply Hb | apply Hb].
  apply Forall_lookup. intros k input Hk. rewrite for_each_i_Ok in Hinputs.
  specialize (Hinputs k). unfold runner_request, on_linux in Hinputs.
  cbn [rq_input_presentation_root rq_input_commitments] in Hinputs.
  rewrite Hlinux, bool_decide_eq_true_2, list_lookup_fmap, Hk in Hinputs by done.
  specialize (Hinputs _ eq_refl). unfold check_input_commitment in Hinputs.
  apply seq_Ok in Hinputs as [Hpath _]. apply fail_if_Ok, negb_false_iff in Hpath.
  unfold absolute_and_nul_free in Hpath. cbn [ric_presentation_path] in Hpath.
  apply andb_true_iff in Hpath as [_ Hpath%negb_true_iff]. by eapply nul_free_join_inv.
Qed.

(** C18: The request that the engine materialises for a Linux Job, and what the Runner
    takes.  For every submission that [validate_submit] accepts and whose plan is for
    [LocalLinux], the Runner's [validate_request_identity] accepts the materialised
    request exactly when the identifiers of the Workspace and of the Attempt have the
    Runtime's shape, no presentation path of an input holds a NUL byte, the expected
    digests of the Host Dependencies are in lower case, and, if the environment of the
    plan or of a step presents the stable Cargo target, the profile is the trusted one
    and the root of the store is an absolute path without NUL.  These are all it asks
    for: everything else the Runner checks of the structure follows from
    [validate_submit].  That alone does not ensure them: it accepts an upper-case
    digest, for instance, which the Runner refuses. *)
Theorem materialised_request_well_formed :
  validate_request_identity request = Ok tt <-> runner_demands.
Proof. split; [apply demands_necessary | apply demands_suffice]. Qed.
End materialised.

(** ** A run *)

#[local] Instance coded_input_commitment : Coded RunnerInputCommitment :=
  coded_via (fun x => (ric_presentation_path x, ric_digest x, ric_byte_length x))
    (fun '(f0, f1, f2) => Some
      {| ric_presentation_path := f0; ric_digest := f1; ric_byte_length := f2 |}) ltac:(by intros []).
#[local] Instance coded_dependency_commitment : Coded RunnerHostDependencyCommitment :=
  coded_via (fun x => (rhd_path x, rhd_digest x))
    (fun '(f0, f1) => Some {| rhd_path := f0; rhd_digest := f1 |}) ltac:(by intros []).
#[local] Instance coded_payload : Coded RunnerPayloadConfig :=
  coded_via (fun x => (rpc_uid x, rpc_gid x, rpc_workspace_view x, rpc_cwd_view x, rpc_runtime_view x,
                       rpc_cache_view x))
    (fun '(f0, f1, f2, f3, f4, f5) => Some
      {| rpc_uid := f0; rpc_gid := f1; rpc_workspace_view := f2; rpc_cwd_view := f3;
         rpc_runtime_view := f4; rpc_cache_view := f5 |}) ltac:(by intros []).
#[local] Instance coded_execution_step : Coded RunnerExecutionStep :=
  coded_via (fun x => (res_id x, res_executable x, res_executable_digest x, res_args x, res_cwd x,
                       res_env x, res_timeout_ms x, res_continue_on_error x))
    (fun '(f0, f1, f2, f3, f4, f5, f6, f7) => Some
      {| res_id := f0; res_executable := f1; res_executable_digest := f2; res_args := f3; res_cwd := f4;
         res_env := f5; res_timeout_ms := f6; res_continue_on_error := f7 |}) ltac:(by intros []).
#[local] Instance coded_runner_request : Coded RunnerRequest :=
  coded_via (fun x =>
    (((rq_schema_version x, rq_job_id x, rq_attempt_id x, rq_launch_token x, rq_unit_name x, rq_payload x,
       rq_inherit_host_environment x, rq_task_id x),
      (rq_workspace_id x, rq_workspace_path x, rq_workspace_source_digest x, rq_build_target_backing x,
       rq_input_presentation_root x, rq_input_commitments x, rq_host_dependencies x, rq_executable x)),
     (rq_executable_digest x, rq_args x, rq_cwd x, rq_env x, rq_steps x, rq_timeout_ms x,
      rq_stdout_limit_bytes x, rq_stderr_limit_bytes x)))
    (fun '(((f0, f1, f2, f3, f4, f5, f6, f7), (g0, g1, g2, g3, g4, g5, g6, g7)),
           (k0, k1, k2, k3, k4, k5, k6, k7)) => Some
      {| rq_schema_version := f0; rq_job_id := f1; rq_attempt_id := f2; rq_launch_token := f3;
         rq_unit_name := f4; rq_payload := f5; rq_inherit_host_environment := f6; rq_task_id := f7;
         rq_workspace_id := g0; rq_workspace_path := g1; rq_workspace_source_digest := g2;
         rq_build_target_backing := g3; rq_input_presentation_root := g4; rq_input_commitments := g5;
         rq_host_dependencies := g6; rq_executable := g7; rq_executable_digest := k0; rq_args := k1;
         rq_cwd := k2; rq_env := k3; rq_steps := k4; rq_timeout_ms := k5; rq_stdout_limit_bytes := k6;
         rq_stderr_limit_bytes := k7 |}) ltac:(by intros []).

(** A [u64] is decoded only in its range. *)
Definition u64_limits (request : RunnerRequest) : bool :=
  (0 <=? rq_stdout_limit_bytes request) && (rq_stdout_limit_bytes request <=? u64_max)
  && (0 <=? rq_stderr_limit_bytes request) && (rq_stderr_limit_bytes request <=? u64_max).

Lemma u64_limits_typed request : u64_limits request = true <-> limits_typed request.
Proof. unfold u64_limits, limits_typed. rewrite !andb_true_iff, !Z.leb_le. tauto. Qed.

#[local] Instance test_runner_codec : RunnerCodec := {
  runner_request_of_json text :=
    request ← of_text text; if u64_limits request then Ok request else Err "limit out of range"%string;
  runner_result_to_json := to_text;
  runner_progress_to_json p := join "|" [rp_task_id p; rp_status p; pretty (rp_revision p)];
  runner_start_to_json := to_text;
  paths_debug := join ", ";
}.

#[local] Instance test_runner_laws : RunnerCodecLaws.
Proof.
  constructor. intros content request H. apply bind_Ok_inv in H as (found & _ & H).
  destruct (u64_limits found) eqn:Hu; [ | discriminate H]. injection H as <-. by apply u64_limits_typed.
Qed.

(** [test_codec], but the request can be read back. *)
#[local] Instance test_request_codec : EngineCodec := {
  runner_result_of_json := of_text;
  runner_progress_of_json := runner_progress_of_json (EngineCodec := test_codec);
  control_evidence_to_json := control_evidence_to_json (EngineCodec := test_codec);
  control_evidence_of_json := control_evidence_of_json (EngineCodec := test_codec);
  terminal_evidence_to_json := terminal_evidence_to_json (EngineCodec := test_codec);
  runner_start_of_json := of_text;
  windows_start_of_json := windows_start_of_json (EngineCodec := test_codec);
  windows_launcher_start_of_json := windows_launcher_start_of_json (EngineCodec := test_codec);
  windows_launcher_start_to_json := windows_launcher_start_to_json (EngineCodec := test_codec);
  runner_request_to_json := to_text;
  bundle_manifest_to_json := bundle_manifest_to_json (EngineCodec := test_codec);
  credential_snapshot_to_json := credential_snapshot_to_json (EngineCodec := test_codec);
  json_to_string_pretty := json_to_string;
}.

#[local] Instance test_codecs_agree : CodecsAgree.
Proof.
  constructor.
  - intros request Ht%u64_limits_typed. cbn [runner_request_of_json test_runner_codec].
    cbn [runner_request_to_json test_request_codec]. rewrite of_text_to_text. cbn. by rewrite Ht.
  - intros result. apply of_text_to_text.
Qed.

(** Two steps, and a Host Dependency. *)
Definition sample_step (id : string) : RuntimeExecutionStep := {|
  step_id := id; step_executable := "/usr/bin/true"; step_executable_digest := sample_digest;
  step_args := ["-v"]; step_cwd := "/srv/ws-1/src"; step_env := ∅; step_timeout_ms := 1000;
  step_continue_on_error := false |}.

Definition two_steps : RuntimeExecutionPlan :=
  let p := sample_plan in {|
  plan_schema_version := plan_schema_version p; plan_workspace_id := plan_workspace_id p;
  plan_workspace_path := plan_workspace_path p; plan_source_revision := plan_source_revision p;
  plan_workspace_source_digest := None; plan_workspace_git_common_dir := None;
  plan_executable := plan_executable p; plan_executable_digest := plan_executable_digest p;
  plan_args := plan_args p; plan_cwd := plan_cwd p; plan_env := ∅; plan_timeout_ms := 1000;
  plan_stdout_limit_bytes := 4; plan_stderr_limit_bytes := 4;
  plan_steps := [sample_step "build"; sample_step "test"]; plan_budget := plan_budget p;
  plan_execution_profile := plan_execution_profile p; plan_execution_target := plan_execution_target p;
  plan_windows_authority := plan_windows_authority p; plan_windows_execution_context := None;
  plan_foreign_references := []; plan_input_set_id := None; plan_effective_inputs := [];
  plan_credential_set_id := None; plan_principal := plan_principal p |}.

Definition sample_job : RuntimeJobRecord := new_job sample_request sample_ids sample_digest 0.
Definition sample_attempt : AttemptRecord := new_attempt sample_config sample_ids sample_digest 0.
Definition sample_launch_token : string := launch_token_of (att_attempt_id sample_attempt) sample_digest.
Definition sample_bindings : list HostDependencyBinding :=
  [{| hd_path := "/lib/a.so"; hd_expected_digest := sample_digest |}].

Definition two_step_request : RunnerRequest :=
  runner_request launch_runtime sample_job sample_attempt two_steps sample_launch_token sample_bindings.

(** Both steps exit with zero; the first prints six bytes, the second none. *)
Definition runner_world (R : Type) (c : call R) : R :=
  match c in call R return R with
  | ReadFile _ => Ok (to_text two_step_request)
  | IsDir _ => true
  | EnvironmentVariable name => if String.eqb name "INVOCATION_ID" then Some "invocation"%string else None
  | ReadText path =>
      if String.eqb path "/proc/self/cgroup" then Ok "0::/ordivon"%string
      else Ok "1 (runner) S 1 1 1 0 -1 0 0 0 0 0 0 0 0 0 20 0 1 0 777 0 0"%string
  | Sha256File _ => Ok sample_digest
  | SymlinkMetadata _ => Ok (RegularFile 10)
  | Metadata _ _ => Ok plain_file
  | SpawnTarget _ => Ok 100
  | TryWaitTarget _ => Ok (Some (Some 0))
  | PipeReads _ stdout => if stdout then [Ok "abc"%string] else []
  | FileLen path => if ends_with STDOUT_FILE path then Ok 4 else Ok 0
  | other => empty_world other
  end.

Definition runner_run : result UniversalExecError unit * history * Db :=
  play runner_world (run_job_runner "/bundle") submitted_db.

Lemma runner_run_runs :
  runs (run_job_runner "/bundle") submitted_db (snd (fst runner_run)) (Some (fst (fst runner_run))) (snd runner_run).
Proof. apply (play_runs runner_world). unfold runner_run. by destruct (play _ _ _) as [[a h] d]. Qed.

Lemma target_at h : forall n command, targets h !! n = Some command ->
  exists h1 r h2, h = h1 ++ Event (SpawnTarget command) r :: h2 /\ length (targets h1) = n.
Proof.
  induction h as [ | e h IH]; intros n command Hn; [done | ].
  unfold targets in Hn. cbn [omap list_omap] in Hn. fold (targets h) in Hn.
  destruct (started e) as [first | ] eqn:He.
  - assert (exists r, e = Event (SpawnTarget first) r) as [r ->]
      by (destruct e as [R c r]; destruct c; try discriminate He; injection He as <-; by exists r).
    destruct n as [ | n]; [injection Hn as <-; by exists [], r, h | ].
    destruct (IH n command Hn) as (h1 & r' & h2 & -> & Hlen).
    exists (Event (SpawnTarget first) r :: h1), r', h2. split; [done | ]. cbn. by f_equal.
  - destruct (IH n command Hn) as (h1 & r' & h2 & -> & Hlen). exists (e :: h1), r', h2. split; [done | ].
    unfold targets. cbn [omap list_omap]. by rewrite He.
Qed.

(** What the first bytes of the history say, computed. *)
Definition request_bytes_read (h : history) : bool :=
  forallb (fun e => match read_answer e with
    | Some (Ok content) => String.eqb content (to_text two_step_request)
    | _ => true
    end) h.

Definition status_written (h : history) : option RunnerTerminalStatus.t :=
  content ← last h ≫= written_content;
  match runner_result_of_json content with Ok result => Some (rr_status result) | Err _ => None end.

Lemma status_of_result before path result r :
  status_written (before ++ [Event (WriteAtomic path (runner_result_to_json result)) r]) = Some (rr_status result).
Proof.
  unfold status_written. rewrite last_snoc. cbn [mbind option_bind written_content].
  by rewrite (result_read_back result).
Qed.

Lemma runner_run_computed :
  fst (fst runner_run) = Ok tt /\ length (targets (snd (fst runner_run))) = 2%nat
  /\ request_bytes_read (snd (fst runner_run)) = true
  /\ status_written (snd (fst runner_run)) = Some RunnerTerminalStatus.Completed.
Proof. vm_compute. by split_and!. Qed.

#[local] Abbreviation bundled :=
  (bundle_of_attempt launch_runtime sample_job sample_attempt two_steps sample_launch_token sample_bindings).

(** The request that was read is the one of the bundle. *)
Lemma bytes_read_bundle h : request_bytes_read h = true -> bundled h.
Proof.
  intros Hreads. split_and!; [done | vm_compute; reflexivity | apply u64_limits_typed; vm_compute; reflexivity | ].
  intros dir content Hin. unfold request_bytes_read in Hreads. rewrite forallb_forall in Hreads.
  apply list_elem_of_In, Hreads in Hin. cbn [read_answer] in Hin. by apply String.eqb_eq in Hin.
Qed.

Lemma a_runner_run : exists h d',
  runs (run_job_runner "/bundle") submitted_db h (Some (Ok tt)) d' /\ length (targets h) = 2%nat /\ bundled h
  /\ status_written h = Some RunnerTerminalStatus.Completed.
Proof.
  destruct runner_run_computed as (Hok & Hlen & Hbytes & Hstatus). pose proof runner_run_runs as Hrun.
  rewrite Hok in Hrun. exists (snd (fst runner_run)), (snd runner_run).
  split_and!; [exact Hrun | exact Hlen | by apply bytes_read_bundle | exact Hstatus].
Qed.

Lemma targets_follow_commitments_witness : exists h1 command dir request,
  length (targets h1) = 1%nat /\ loaded dir request h1 /\ starts_next request command h1.
Proof.
  destruct a_runner_run as (h & d' & Hrun & Htwo & _).
  destruct (lookup_lt_is_Some_2 (targets h) 1) as [command Hcommand]; [rewrite Htwo; lia | ].
  destruct (target_at _ _ _ Hcommand) as (h1 & r & h2 & Heq & Hlen).
  destruct (targets_follow_commitments _ _ _ _ _ _ _ _ _ Hrun Heq) as (dir & request & H).
  by exists h1, command, dir, request.
Defined.

Lemma runner_result_truthful_witness : exists h,
  length (targets h) = 2%nat /\ reported (Ok tt) h.
Proof.
  destruct a_runner_run as (h & d' & Hrun & Htwo & _). exists h. split; [exact Htwo | ].
  destruct (runner_result_truthful _ _ _ _ _ Hrun) as [[_ [error Herror]] | H]; [discriminate Herror | exact H].
Defined.

Lemma engine_takes_runner_result_witness : exists h content result,
  length (targets h) = 2%nat /\ runner_result_of_json content = Ok result
  /\ follows (prepare_runner_terminal_from_bundle sample_attempt)
       (result_file sample_attempt content :: output_answers sample_attempt true (rr_stdout result)
          ++ output_answers sample_attempt false (rr_stderr result))
       (Ok (runner_terminal_commit sample_attempt content result
              (registration_of sample_attempt true (rr_stdout result))
              (registration_of sample_attempt false (rr_stderr result)))).
Proof.
  destruct a_runner_run as (h & d' & Hrun & Htwo & Hbundle & _).
  destruct (engine_takes_runner_result _ _ _ _ _ _ _ _ _ _ _ Hrun Hbundle)
    as [[_ [error Herror]] | (dir & content & result & before & Heq & Hread & Hfollows)]; [discriminate Herror | ].
  exists h, content, result. split; [exact Htwo | ]. split; [exact Hread | exact Hfollows].
Defined.

Lemma succeeded_attempt_ran_every_step_witness : exists before results,
  Forall2 (step_ran two_step_request before) (effective_steps two_step_request) results
  /\ Forall (fun result => rsr_exit_code result = Some 0 /\ rsr_timed_out result = false) results.
Proof.
  destruct a_runner_run as (h & d' & Hrun & _ & Hbundle & Hstatus).
  destruct (run_reports _ _ _ _ _ Hrun) as [[_ [error Herror]] | (dir & found & result & before & Heq & Hl & Hid & _)];
    [discriminate Herror | ].
  rewrite Heq in Hbundle. rewrite (loaded_request _ _ _ _ _ _ _ _ _ _ Hbundle Hl) in Hid.
  assert (Hstate : fst (runner_disposition sample_attempt result) = AttemptState.Succeeded).
  { rewrite Heq, status_of_result in Hstatus. injection Hstatus as Hstatus.
    unfold runner_disposition. by rewrite Hstatus. }
  rewrite <- Heq in Hbundle.
  destruct (succeeded_attempt_ran_every_step _ _ _ _ _ _ _ _ _ _ _ _ _ _ _ Hrun Hbundle Heq
              (result_accepted _ _ _ _ _ _ result _ _ Hbundle Hid (result_read_back result)) Hstate)
    as (results & Hran & Hall & _).
  by exists before, results.
Defined.

(** ** The other parts *)

(** Three bytes fit after the one that is there. *)
Lemma capture_keeps_the_beginning_witness : exists data counts text,
  kept_beginning 4 1 data counts text /\ counts = (3, 3) /\ data = "abcdef"%string.
Proof.
  set (h := [Event (OpenAppend "/o") (Ok tt); Event (PipeReads 100 true) [Ok "abc"%string; Ok "def"%string];
             Event (WriteAll "/o" "abc") (Ok tt); Event (SyncFile "/o") (Ok tt)] : history).
  assert (Hf : follows (capture_stream_append 100 true "/o" 4 1) h (Ok (3, 3)))
    by (repeat (eexists _, _; split; [reflexivity | ]); by split).
  destruct (capture_keeps_the_beginning 100 true "/o" 4 1 h (3, 3) ltac:(lia) ltac:(vm_compute; congruence) Hf)
    as (reads & Hin & Hkept).
  exists "abcdef"%string, (3, 3), (written "/o" h). split; [ | by split].
  assert (reads = [Ok "abc"%string; Ok "def"%string]) as ->.
  { unfold h in Hin. repeat (apply elem_of_cons in Hin as [Hin | Hin];
      [apply (f_equal (fun e => match e with Event (PipeReads _ _) reads => Some reads | _ => None end)) in Hin;
       first [discriminate Hin | by injection Hin] | ]). by apply elem_of_nil in Hin. }
  apply Hkept. vm_compute. congruence.
Defined.

(** A file is moved over the executable. *)
Definition moved_event : string :=
  fold_right (fun n s => String (Ascii.ascii_of_N n) s) EmptyString
    [1; 0; 0; 0; 128; 0; 0; 0; 0; 0; 0; 0; 4; 0; 0; 0; 120; 0; 0; 0]%N.

Definition sample_watch : PathDriftWatch :=
  {| pdw_fd := 3;
     pdw_specs := {[1 := {| pws_path := "/d"; pws_direct := false; pws_children := {["x"%string := "/d/x"%string]} |}]};
     pdw_identities := []; pdw_direct_paths := ["/d/x"%string]; pdw_kind := PathDriftKind.Executable |}.

Lemma path_change_noticed_witness : exists answer error,
  follows (check sample_watch) [Event (InotifyReads 3) [Ok moved_event]] answer /\ answer = Err error.
Proof.
  exists (Err (drift sample_watch "/d/x" 128)).
  assert (Hf : follows (check sample_watch) [Event (InotifyReads 3) [Ok moved_event]]
                 (Err (drift sample_watch "/d/x" 128))) by (eexists _, _; split; [reflexivity | ]; vm_compute; by split).
  destruct (path_change_noticed sample_watch _ _ _ Hf) as [Halarm _].
  destruct Halarm as [error Herror]; [ | by exists error].
  apply Exists_cons_hd. by eapply ChildReplaced; vm_compute.
Defined.

Lemma materialised_request_well_formed_witness :
  validate_request_identity (runner_request launch_runtime sample_job sample_attempt (sub_plan inputs_request)
    sample_launch_token (sub_host_dependencies inputs_request)) = Ok tt.
Proof.
  apply materialised_request_well_formed; [by vm_compute | by vm_compute | ]. split; try (intros; vm_compute; reflexivity).
  - repeat constructor.
  - repeat constructor; intros hex Hhex; vm_compute in Hhex; injection Hhex as <-; vm_compute; reflexivity.
Defined.
