(* ===== verification/Doctor.v ===== *)
(** * Doctor

    [doctor.rs]: what an operator sees of a Registry that may be damaged.  One
    read-only connection with one read snapshot gives the violations of the
    invariants; each Attempt they name becomes a case with a proposal, which
    looks at the result file in the bundle.  The report carries a fingerprint
    of everything but the time. *)

From S2P Require Import Prelude Text Errors Types Supervisor Platform Validation Submit Store.
From S2P Require Import Transaction Migrations Projection Admission Lifecycle Recovery AdminRepair.
From S2P Require Import Query Effects Engine Evidence Workspace.

#[local] Open Scope Z_scope.

Definition RUNTIME_DOCTOR_SCHEMA_VERSION : Z := 2.
Definition MAX_DOCTOR_CAPACITY_HOLDERS : nat := 50.

Record RuntimeDoctorConfig : Type := {
  dc_db_path : string;
  dc_store_root : string;
  dc_busy_timeout_ms : Z;
}.

Record RuntimeDoctorCapacityHolder : Type := {
  dch_job_id : string;
  dch_workspace_id : string;
  dch_attempt_id : string;
  dch_attempt_state : AttemptState.t;
  dch_reservation_state : ReservationState.t;
  dch_recovery_required : bool;
}.

Record RuntimeDoctorSummary : Type := {
  dsm_status : string;
  dsm_jobs_total : Z;
  dsm_unresolved_jobs : Z;
  dsm_attempts_by_state : gmap string Z;
  dsm_reservations_by_state : gmap string Z;
  dsm_recovery_required_attempts : Z;
  dsm_artifacts_total : Z;
  dsm_artifact_bytes : Z;
  dsm_capacity_holders : list RuntimeDoctorCapacityHolder;
  dsm_capacity_holders_truncated : bool;
}.

Record RuntimeDoctorJobState : Type := {
  djs_job_id : string;
  djs_workspace_id : string;
  djs_resolution : option JobResolution.t;
  djs_current_attempt_id : option string;
  djs_row_version : Z;
}.

Record RuntimeDoctorAttemptState : Type := {
  das_attempt_id : string;
  das_state : AttemptState.t;
  das_termination_intent : AttemptTerminationIntent.t;
  das_result_digest : option string;
  das_exit_code : option Z;
  das_finished_at_ms : option Z;
  das_row_version : Z;
}.

Record RuntimeDoctorReservationState : Type := {
  drs_reservation_id : string;
  drs_state : ReservationState.t;
  drs_released_at_ms : option Z;
  drs_release_reason : option string;
}.

Inductive RuntimeDoctorProposal : Type :=
  | RecoverRunnerResult (terminal : TerminalCommit)
  | ReleaseTerminalReservation
  | NoRepairNeeded
  | ManualReview (reasons : list string).

Record RuntimeDoctorCase : Type := {
  dcs_job : RuntimeDoctorJobState;
  dcs_attempt : RuntimeDoctorAttemptState;
  dcs_reservation : RuntimeDoctorReservationState;
  dcs_violation_codes : list string;
  dcs_runner_result_present : bool;
  dcs_control_result_present : bool;
  dcs_fingerprint : string;
  dcs_proposal : RuntimeDoctorProposal;
}.

Record RuntimeDoctorReport : Type := {
  drp_schema_version : Z;
  drp_generated_at_ms : Z;
  drp_database_path : string;
  drp_store_root : string;
  drp_migration_version : Z;
  drp_integrity_check : string;
  drp_fingerprint : string;
  drp_summary : RuntimeDoctorSummary;
  drp_violation_count : nat;
  drp_violations : list RuntimeInvariantViolation;
  drp_cases : list RuntimeDoctorCase;
}.

(** ** The state of a row as the report shows it *)

Definition doctor_job_state (job : RuntimeJobRecord) : RuntimeDoctorJobState :=
  {| djs_job_id := job_job_id job;
     djs_workspace_id := job_workspace_id job;
     djs_resolution := job_resolution job;
     djs_current_attempt_id := job_current_attempt_id job;
     djs_row_version := job_row_version job |}.

Definition doctor_attempt_state (attempt : AttemptRecord) : RuntimeDoctorAttemptState :=
  {| das_attempt_id := att_attempt_id attempt;
     das_state := att_state attempt;
     das_termination_intent := att_termination_intent attempt;
     das_result_digest := att_result_digest attempt;
     das_exit_code := att_exit_code attempt;
     das_finished_at_ms := att_finished_at_ms attempt;
     das_row_version := att_row_version attempt |}.

Definition doctor_reservation_state (reservation : ReservationRecord)
    : RuntimeDoctorReservationState :=
  {| drs_reservation_id := res_reservation_id reservation;
     drs_state := res_state reservation;
     drs_released_at_ms := res_released_at_ms reservation;
     drs_release_reason := res_release_reason reservation |}.

(** ** The summary *)

Definition all_attempts (d : Db) : list AttemptRow := map snd (map_to_list (db_attempts d)).
Definition all_reservations (d : Db) : list ReservationRecord :=
  map (fun kv => row_reservation kv.2) (map_to_list (db_reservations d)).

Definition count_where {A} (f : A -> bool) (rows : list A) : Z :=
  Z.of_nat (length (List.filter f rows)).

(** [SELECT state,COUNT( * ) ... GROUP BY state] *)
Definition grouped_counts (states : list string) : gmap string Z :=
  foldr (fun state counts => <[state := default 0 (counts !! state) + 1]> counts) ∅ states.

(** [recovery_required=1], with [COALESCE(recovery_required,0)] *)
Definition recovery_required (row : AttemptRow) : bool :=
  match row_recovery row with Some recovery => rec_required recovery | None => false end.

(** What is told of the Attempts that need recovery: the column, or in an
    older database the Attempts with such a condition, which [retired] lists. *)
Definition needs_recovery (retired : option (list string)) (row : AttemptRow) : bool :=
  match retired with
  | None => recovery_required row
  | Some attempt_ids => bool_decide (att_attempt_id (row_attempt row) ∈ attempt_ids)
  end.

Definition recovery_count (retired : option (list string)) (d : Db) : Z :=
  match retired with
  | None => count_where recovery_required (all_attempts d)
  | Some attempt_ids => Z.of_nat (length attempt_ids)
  end.

(** Reservations that hold capacity, joined with their Attempts and Jobs. *)
Definition holder_rows (d : Db) : list (ReservationRecord * (AttemptRow * RuntimeJobRecord)) :=
  omap (fun reservation =>
          row ← db_attempts d !! res_attempt_id reservation;
          job ← db_jobs d !! att_job_id (row_attempt row);
          Some (reservation, (row, job)))
    (List.filter live_reservation (all_reservations d)).

(** [ORDER BY r.acquired_at_ms, j.job_id LIMIT 51] *)
Definition doctor_capacity_holders (retired : option (list string)) (d : Db)
    : list RuntimeDoctorCapacityHolder :=
  map (fun '(reservation, (row, job)) =>
         {| dch_job_id := job_job_id job;
            dch_workspace_id := job_workspace_id job;
            dch_attempt_id := att_attempt_id (row_attempt row);
            dch_attempt_state := att_state (row_attempt row);
            dch_reservation_state := res_state reservation;
            dch_recovery_required := needs_recovery retired row |})
    (take (S MAX_DOCTOR_CAPACITY_HOLDERS)
       (order_by (fun x y => holder_le (x.1, x.2.2) (y.1, y.2.2)) (holder_rows d))).

Definition inspect_summary (retired : option (list string)) (d : Db) : RuntimeDoctorSummary :=
  let jobs := map snd (map_to_list (db_jobs d)) in
  let artifacts := map snd (map_to_list (db_artifacts d)) in
  let holders := doctor_capacity_holders retired d in
  {| dsm_status := "";
     dsm_jobs_total := Z.of_nat (length jobs);
     dsm_unresolved_jobs := count_where (fun job => job_resolution job == None) jobs;
     dsm_attempts_by_state :=
       grouped_counts (map (fun row => AttemptState.as_db (att_state (row_attempt row)))
                         (all_attempts d));
     dsm_reservations_by_state :=
       grouped_counts (map (fun r => ReservationState.as_db (res_state r)) (all_reservations d));
     dsm_recovery_required_attempts := recovery_count retired d;
     dsm_artifacts_total := Z.of_nat (length artifacts);
     dsm_artifact_bytes := foldr (fun a total => art_byte_length a + total) 0 artifacts;
     dsm_capacity_holders := take MAX_DOCTOR_CAPACITY_HOLDERS holders;
     dsm_capacity_holders_truncated :=
       bool_decide (MAX_DOCTOR_CAPACITY_HOLDERS < length holders)%nat |}.

Definition with_status (status : string) (summary : RuntimeDoctorSummary) : RuntimeDoctorSummary :=
  {| dsm_status := status;
     dsm_jobs_total := dsm_jobs_total summary;
     dsm_unresolved_jobs := dsm_unresolved_jobs summary;
     dsm_attempts_by_state := dsm_attempts_by_state summary;
     dsm_reservations_by_state := dsm_reservations_by_state summary;
     dsm_recovery_required_attempts := dsm_recovery_required_attempts summary;
     dsm_artifacts_total := dsm_artifacts_total summary;
     dsm_artifact_bytes := dsm_artifact_bytes summary;
     dsm_capacity_holders := dsm_capacity_holders summary;
     dsm_capacity_holders_truncated := dsm_capacity_holders_truncated summary |}.

Definition doctor_status (violations : list RuntimeInvariantViolation)
    (summary : RuntimeDoctorSummary) : string :=
  if (violations == []) && (dsm_recovery_required_attempts summary =? 0)
     && (default 0 (dsm_reservations_by_state summary !! "held_orphaned"%string) =? 0)
  then "healthy" else "attention".

(** ** The order of the violations and the cases *)

(** [Option<&str>]: [None] comes first. *)
Definition opt_leb (a b : option string) : bool :=
  match a, b with
  | None, _ => true
  | Some _, None => false
  | Some a, Some b => String.leb a b
  end.

Definition violation_le (x y : RuntimeInvariantViolation) : bool :=
  if riv_job_id x == riv_job_id y then
    if riv_attempt_id x == riv_attempt_id y then String.leb (riv_code x) (riv_code y)
    else opt_leb (riv_attempt_id x) (riv_attempt_id y)
  else opt_leb (riv_job_id x) (riv_job_id y).

(** The elements of a [BTreeSet<String>], in order. *)
Definition sorted_set (l : list string) : list string := order_by String.leb (distinct [] l).

Definition violating_attempts (violations : list RuntimeInvariantViolation) : list string :=
  sorted_set (omap riv_attempt_id violations).

Definition codes_of (attempt_id : string) (violations : list RuntimeInvariantViolation)
    : list string :=
  sorted_set (map riv_code (List.filter (fun v => riv_attempt_id v == Some attempt_id) violations)).

(** ** Proposals *)

(** [resolution_for_state] of [doctor.rs] *)
Definition doctor_resolution_for_state (state : AttemptState.t) : option JobResolution.t :=
  match state with
  | AttemptState.Succeeded => Some JobResolution.Succeeded
  | AttemptState.Failed => Some JobResolution.Failed
  | AttemptState.TimedOut => Some JobResolution.TimedOut
  | AttemptState.Cancelled => Some JobResolution.Cancelled
  | AttemptState.Lost => Some JobResolution.Lost
  | AttemptState.Orphaned => Some JobResolution.Orphaned
  | _ => None
  end.

Definition reservation_target (state : AttemptState.t) : ReservationState.t :=
  if state == AttemptState.Orphaned then ReservationState.HeldOrphaned
  else ReservationState.Released.

Definition terminal_matches (job : RuntimeJobRecord) (attempt : AttemptRecord)
    (terminal : TerminalCommit) : bool :=
  (att_state attempt == tc_state terminal)
  && (att_result_digest attempt == Some (tc_result_digest terminal))
  && (att_finished_at_ms attempt == Some (tc_finished_at_ms terminal))
  && (att_exit_code attempt == tc_exit_code terminal)
  && (job_resolution job == doctor_resolution_for_state (tc_state terminal))
  && (job_current_attempt_id job == None).

(** The proposal for an Attempt with a result file that stands for [terminal]. *)
Definition propose_from_result (job : RuntimeJobRecord) (attempt : AttemptRecord)
    (reservation : ReservationRecord) (terminal : TerminalCommit) : RuntimeDoctorProposal :=
  if terminal_matches job attempt terminal then
    if res_state reservation == reservation_target (tc_state terminal) then NoRepairNeeded
    else ReleaseTerminalReservation
  else RecoverRunnerResult terminal.

Definition evidence_complete (job : RuntimeJobRecord) (attempt : AttemptRecord) : bool :=
  AttemptState.is_terminal (att_state attempt)
  && (att_result_digest attempt != None)
  && (att_finished_at_ms attempt != None)
  && (job_resolution job == doctor_resolution_for_state (att_state attempt))
  && (job_current_attempt_id job == None).

Definition reason_if (condition : bool) (reason : string) : list string :=
  if condition then [reason] else [].

Definition review_reasons (job : RuntimeJobRecord) (attempt : AttemptRecord) : list string :=
  reason_if (negb (AttemptState.is_terminal (att_state attempt))) "Attempt is not terminal"
  ++ reason_if (att_result_digest attempt == None) "terminal result digest is missing"
  ++ reason_if (att_finished_at_ms attempt == None) "terminal finish time is missing"
  ++ reason_if (job_resolution job != doctor_resolution_for_state (att_state attempt))
       "Job resolution does not match Attempt state"
  ++ reason_if (job_current_attempt_id job != None) "resolved Job still retains current_attempt_id"
  ++ ["Runner result bundle is absent"%string].

(** The proposal for an Attempt without a result file. *)
Definition propose_without_result (job : RuntimeJobRecord) (attempt : AttemptRecord)
    (reservation : ReservationRecord) : RuntimeDoctorProposal :=
  if evidence_complete job attempt then
    if res_state reservation == reservation_target (att_state attempt) then NoRepairNeeded
    else ReleaseTerminalReservation
  else ManualReview (review_reasons job attempt).

(** ** The text of what is fingerprinted *)

Section doctor.
Context `{P : Platform, C : EngineCodec}.

(** A JSON array, by its text. *)
Definition json_array (values : list Json) : Json :=
  JOther ("[" +:+ String.concat "," (map json_to_string values) +:+ "]").

(** Fields that are skipped if there is nothing to tell. *)
Definition opt_field (key : string) (value : option Json) : list (string * Json) :=
  match value with Some v => [(key, v)] | None => [] end.

Definition artifact_json (a : ArtifactRegistration) : Json :=
  obj [("artifactId", JStr (areg_artifact_id a)); ("kind", JStr (areg_kind a));
       ("relativePath", JStr (areg_relative_path a)); ("digest", JStr (areg_digest a));
       ("mediaType", JStr (areg_media_type a)); ("byteLength", JNum (areg_byte_length a));
       ("truncated", JBool (areg_truncated a))]%string.

Definition terminal_json (terminal : TerminalCommit) : Json :=
  obj ([("attemptId", JStr (tc_attempt_id terminal));
        ("expectedRowVersion", JNum (tc_expected_row_version terminal));
        ("state", JStr (AttemptState.as_db (tc_state terminal)));
        ("resultDigest", JStr (tc_result_digest terminal))]%string
       ++ opt_field "exitCode" (JNum <$> tc_exit_code terminal)
       ++ opt_field "infrastructureErrorDigest" (JStr <$> tc_infrastructure_error_digest terminal)
       ++ [("finishedAtMs", JNum (tc_finished_at_ms terminal));
           ("artifacts", json_array (map artifact_json (tc_artifacts terminal)));
           ("reasonCode", JStr (tc_reason_code terminal))]%string).

Definition proposal_json (proposal : RuntimeDoctorProposal) : Json :=
  match proposal with
  | RecoverRunnerResult terminal =>
      obj [("kind", JStr "recoverRunnerResult"); ("terminal", terminal_json terminal)]
  | ReleaseTerminalReservation => obj [("kind", JStr "releaseTerminalReservation")]
  | NoRepairNeeded => obj [("kind", JStr "noRepairNeeded")]
  | ManualReview reasons =>
      obj [("kind", JStr "manualReview"); ("reasons", json_array (map JStr reasons))]
  end%string.

Definition job_state_json (job : RuntimeDoctorJobState) : Json :=
  obj [("jobId", JStr (djs_job_id job)); ("workspaceId", JStr (djs_workspace_id job));
       ("resolution", opt_str (JobResolution.as_db <$> djs_resolution job));
       ("currentAttemptId", opt_str (djs_current_attempt_id job));
       ("rowVersion", JNum (djs_row_version job))]%string.

Definition attempt_state_json (attempt : RuntimeDoctorAttemptState) : Json :=
  obj [("attemptId", JStr (das_attempt_id attempt));
       ("state", JStr (AttemptState.as_db (das_state attempt)));
       ("terminationIntent", JStr (AttemptTerminationIntent.as_db (das_termination_intent attempt)));
       ("resultDigest", opt_str (das_result_digest attempt));
       ("exitCode", opt_num (das_exit_code attempt));
       ("finishedAtMs", opt_num (das_finished_at_ms attempt));
       ("rowVersion", JNum (das_row_version attempt))]%string.

Definition reservation_state_json (reservation : RuntimeDoctorReservationState) : Json :=
  obj [("reservationId", JStr (drs_reservation_id reservation));
       ("state", JStr (ReservationState.as_db (drs_state reservation)));
       ("releasedAtMs", opt_num (drs_released_at_ms reservation));
       ("releaseReason", opt_str (drs_release_reason reservation))]%string.

Definition case_fingerprint (job : RuntimeDoctorJobState) (attempt : RuntimeDoctorAttemptState)
    (reservation : RuntimeDoctorReservationState) (violation_codes : list string)
    (runner_result_present control_result_present : bool) (proposal : RuntimeDoctorProposal)
    : string :=
  sha256_bytes (json_to_string (obj
    [("job", job_state_json job); ("attempt", attempt_state_json attempt);
     ("reservation", reservation_state_json reservation);
     ("violationCodes", json_array (map JStr violation_codes));
     ("runnerResultPresent", JBool runner_result_present);
     ("controlResultPresent", JBool control_result_present);
     ("proposal", proposal_json proposal)]%string)).

Definition counts_json (counts : gmap string Z) : Json :=
  obj (map (fun kv => (kv.1, JNum kv.2)) (map_to_list counts)).

Definition holder_json (holder : RuntimeDoctorCapacityHolder) : Json :=
  obj [("jobId", JStr (dch_job_id holder)); ("workspaceId", JStr (dch_workspace_id holder));
       ("attemptId", JStr (dch_attempt_id holder));
       ("attemptState", JStr (AttemptState.as_db (dch_attempt_state holder)));
       ("reservationState", JStr (ReservationState.as_db (dch_reservation_state holder)));
       ("recoveryRequired", JBool (dch_recovery_required holder))]%string.

Definition summary_json (summary : RuntimeDoctorSummary) : Json :=
  obj [("status", JStr (dsm_status summary)); ("jobsTotal", JNum (dsm_jobs_total summary));
       ("unresolvedJobs", JNum (dsm_unresolved_jobs summary));
       ("attemptsByState", counts_json (dsm_attempts_by_state summary));
       ("reservationsByState", counts_json (dsm_reservations_by_state summary));
       ("recoveryRequiredAttempts", JNum (dsm_recovery_required_attempts summary));
       ("artifactsTotal", JNum (dsm_artifacts_total summary));
       ("artifactBytes", JNum (dsm_artifact_bytes summary));
       ("capacityHolders", json_array (map holder_json (dsm_capacity_holders summary)));
       ("capacityHoldersTruncated", JBool (dsm_capacity_holders_truncated summary))]%string.

Definition violation_json (violation : RuntimeInvariantViolation) : Json :=
  obj ([("code", JStr (riv_code violation))]%string
       ++ opt_field "jobId" (JStr <$> riv_job_id violation)
       ++ opt_field "attemptId" (JStr <$> riv_attempt_id violation)
       ++ [("detail", JStr (riv_detail violation))]%string).

Definition report_fingerprint (config : RuntimeDoctorConfig) (migration_version : Z)
    (integrity_check : string) (summary : RuntimeDoctorSummary)
    (violations : list RuntimeInvariantViolation) (cases : list RuntimeDoctorCase) : string :=
  sha256_bytes (json_to_string (obj
    [("schemaVersion", JNum RUNTIME_DOCTOR_SCHEMA_VERSION);
     ("databasePath", JStr (dc_db_path config)); ("storeRoot", JStr (dc_store_root config));
     ("migrationVersion", JNum migration_version); ("integrityCheck", JStr integrity_check);
     ("summary", summary_json summary);
     ("violations", json_array (map violation_json violations));
     ("cases", json_array (map (fun case => JStr (dcs_fingerprint case)) cases))]%string)).

(** ** The inspection *)

Definition propose_repair (job : RuntimeJobRecord) (attempt : AttemptRecord)
    (reservation : ReservationRecord) (result_present : bool) : prog RuntimeDoctorProposal :=
  if result_present then
    prepared ← (prepare_runner_terminal_from_bundle attempt : prog (RuntimeResult TerminalCommit));
    mret match prepared with
         | Ok terminal => propose_from_result job attempt reservation terminal
         | Err error =>
             ManualReview [Errors.as_str (err_code error) +:+ ": " +:+ err_message error]
         end
  else mret (propose_without_result job attempt reservation).

(** [RegistryConfig::validate] *)
Definition validate_registry_config (db_path store_root : string) (busy_timeout_ms : Z)
    : RuntimeResult unit :=
  fail_if (negb (is_absolute db_path)) (invalid "database path must be absolute" "dbPath") ;;
  fail_if (negb (is_absolute store_root)) (invalid "store root must be absolute" "storeRoot") ;;
  fail_if (busy_timeout_ms =? 0) (invalid "busy timeout must be positive" "busyTimeoutMs").

Definition validate_config (config : RuntimeDoctorConfig) : eff unit :=
  of_result (validate_registry_config (dc_db_path config) (dc_store_root config)
               (dc_busy_timeout_ms config)) ;;
  found ← ask (IsFile (dc_db_path config));
  of_result (fail_if (negb found)
    (invalid "database must be an existing regular file" "database")).

(** A statement on a read-only connection. *)
Definition sql {R} (path : string) (statement : sql_read R) (context : string) : eff R :=
  try_map (fun error => from_sql error context) (Sql path statement).

Definition corrupt (message : string) : RuntimeError :=
  error_new RegistryCorrupt message None false.

Definition doctor_case (config : RuntimeDoctorConfig) (d : Db)
    (violations : list RuntimeInvariantViolation) (attempt_id : string) : eff RuntimeDoctorCase :=
  attempt ← of_result (query (load_attempt attempt_id) d);
  job ← of_result (query (load_job (att_job_id attempt)) d);
  reservation ← of_result (query (load_reservation attempt_id) d);
  let expected_bundle :=
    path_join (path_join (dc_store_root config) "attempts") (att_attempt_id attempt) in
  let bundle_path_trusted := path_eq (att_bundle_path attempt) expected_bundle in
  runner_result_present ←
    and_then bundle_path_trusted (ask (IsFile (path_join expected_bundle RESULT_FILE)));
  control_result_present ←
    and_then bundle_path_trusted (ask (IsFile (path_join expected_bundle CONTROL_RESULT_FILE)));
  proposal ← (if bundle_path_trusted
              then infallible (propose_repair job attempt reservation runner_result_present)
              else mret (ManualReview
                     ["Attempt bundle path is outside the canonical Registry store"%string]));
  let job := doctor_job_state job in
  let attempt := doctor_attempt_state attempt in
  let reservation := doctor_reservation_state reservation in
  let violation_codes := codes_of attempt_id violations in
  mret {| dcs_job := job;
          dcs_attempt := attempt;
          dcs_reservation := reservation;
          dcs_violation_codes := violation_codes;
          dcs_runner_result_present := runner_result_present;
          dcs_control_result_present := control_result_present;
          dcs_fingerprint :=
            case_fingerprint job attempt reservation violation_codes runner_result_present
              control_result_present proposal;
          dcs_proposal := proposal |}.

Fixpoint doctor_cases (config : RuntimeDoctorConfig) (d : Db)
    (violations : list RuntimeInvariantViolation) (attempt_ids : list string)
    : eff (list RuntimeDoctorCase) :=
  match attempt_ids with
  | [] => mret []
  | attempt_id :: rest =>
      case ← doctor_case config d violations attempt_id;
      cases ← doctor_cases config d violations rest;
      mret (case :: cases)
  end.

(** The connection, down to the beginning of its read transaction: what it
    then reads. *)
Definition doctor_connection (config : RuntimeDoctorConfig) : eff Db :=
  let path := dc_db_path config in
  sql path SqlOpen "cannot open Runtime Registry read-only" ;;
  sql path (SqlBusyTimeout (dc_busy_timeout_ms config)) "cannot set Doctor busy timeout" ;;
  sql path (SqlPragma "query_only" true) "cannot enable Doctor query-only mode" ;;
  sql path (SqlPragma "trusted_schema" false) "cannot disable trusted schema" ;;
  registry (ReadSnapshot "cannot begin Doctor read snapshot").

Definition inspect_runtime (config : RuntimeDoctorConfig) : eff RuntimeDoctorReport :=
  validate_config config ;;
  let path := dc_db_path config in
  d ← doctor_connection config;
  integrity_check ← sql path SqlIntegrityCheck "cannot run Registry integrity check";
  of_result (fail_if (negb (String.eqb integrity_check "ok"))
    (corrupt ("Registry integrity check returned " +:+ integrity_check))) ;;
  foreign_key_problem ← sql path SqlForeignKeyCheck "cannot run Registry foreign key check";
  of_result match foreign_key_problem with
            | Some table => Err (corrupt ("Registry foreign key violation in " +:+ table))
            | None => Ok tt
            end ;;
  migration_version ← sql path SqlMigrationVersion "cannot read Registry migration version";
  of_result (fail_if (MAX_MIGRATION_VERSION <? migration_version)
    (error_new SchemaVersionUnsupported
       ("Registry schema " +:+ pretty migration_version +:+ " is newer than supported "
        +:+ pretty MAX_MIGRATION_VERSION) None false)) ;;
  let violations := order_by violation_le (inspect_runtime_invariants_connection d) in
  cases ← doctor_cases config d violations (violating_attempts violations);
  retired ← (if mig_version CONDITION_RETIREMENT_MIGRATION <=? migration_version then mret None
             else Some <$> sql path SqlRecoveryConditions "count recovery-required Attempts");
  let summary := inspect_summary retired d in
  let summary := with_status (doctor_status violations summary) summary in
  let fingerprint :=
    report_fingerprint config migration_version integrity_check summary violations cases in
  generated_at_ms ← try NowMs;
  mret {| drp_schema_version := RUNTIME_DOCTOR_SCHEMA_VERSION;
          drp_generated_at_ms := generated_at_ms;
          drp_database_path := dc_db_path config;
          drp_store_root := dc_store_root config;
          drp_migration_version := migration_version;
          drp_integrity_check := integrity_check;
          drp_fingerprint := fingerprint;
          drp_summary := summary;
          drp_violation_count := length violations;
          drp_violations := violations;
          drp_cases := cases |}.
End doctor.
