(* ===== verification/Repair.v ===== *)
(** * Repair by an operator

    [repair.rs]: the plan of the Doctor is carried out in one batch, and an
    Attempt whose process tree is gone, but whose start could not be identified,
    is cancelled.  Both begin with a report of the Doctor and a verified backup
    that holds the same rows. *)

From S2P Require Import Prelude Text Errors Types Supervisor Platform Validation Submit Store.
From S2P Require Import Transaction Migrations Projection Admission Lifecycle Recovery AdminRepair.
From S2P Require Import Query Effects Engine Linux Evidence Passes Doctor.

#[local] Open Scope Z_scope.

Definition RUNTIME_REPAIR_SCHEMA_VERSION : Z := 1.

Record RuntimeRepairRequest : Type := {
  rrq_expected_fingerprint : string;
  rrq_snapshot_path : string;
  rrq_principal : string;
  rrq_finalize_lost_attempt_ids : gset string;
}.

Record RuntimeStaleCancelRequest : Type := {
  scq_snapshot_path : string;
  scq_principal : string;
  scq_attempt_id : string;
}.

Record RuntimeStaleCancelReport : Type := {
  scr_schema_version : Z;
  scr_applied_at_ms : Z;
  scr_doctor_fingerprint_before : string;
  scr_snapshot_path : string;
  scr_snapshot_digest : string;
  scr_principal : string;
  scr_job_id : string;
  scr_attempt_id : string;
  scr_previous_state : AttemptState.t;
  scr_new_state : AttemptState.t;
  scr_process_tree_absence_proven : bool;
  scr_before : RuntimeDoctorReport;
  scr_after : RuntimeDoctorReport;
}.

Record RecoveryState : Type := {
  rcs_required : bool;
  rcs_reason_code : option string;
  rcs_evidence_digest : option string;
  rcs_observed_at_ms : option Z;
}.

#[export] Instance recovery_state_eq_dec : EqDecision RecoveryState.
Proof. solve_decision. Defined.

Inductive RuntimeRepairActionKind : Type :=
  | RecoverRunnerResultAction
  | ReleaseTerminalReservationAction
  | FinalizeLostAction.

Record RuntimeRepairAction : Type := {
  rra_job_id : string;
  rra_attempt_id : string;
  rra_case_fingerprint : string;
  rra_kind : RuntimeRepairActionKind;
  rra_previous_state : AttemptState.t;
  rra_new_state : AttemptState.t;
}.

Record RuntimeRepairReport : Type := {
  rrp_schema_version : Z;
  rrp_applied_at_ms : Z;
  rrp_expected_fingerprint : string;
  rrp_snapshot_path : string;
  rrp_snapshot_digest : string;
  rrp_principal : string;
  rrp_actions : list RuntimeRepairAction;
  rrp_before : RuntimeDoctorReport;
  rrp_after : RuntimeDoctorReport;
}.

Record AdminRepairReceipt : Type := {
  arr_schema_version : Z;
  arr_report_fingerprint : string;
  arr_case_fingerprint : string;
  arr_snapshot_path : string;
  arr_snapshot_digest : string;
  arr_principal : string;
  arr_action : string;
  arr_job_id : string;
  arr_attempt_id : string;
  arr_observed_at_ms : Z;
}.

Record BackupFile : Type := {
  bf_path : string;
  bf_bytes : Z;
  bf_digest : string;
}.

Record BackupManifest : Type := { bk_files : list BackupFile }.

(** [serde_json] on the derived types. *)
Class RepairCodec : Type := {
  backup_manifest_of_json : string -> result string BackupManifest;
  (** [to_vec_pretty] *)
  admin_receipt_to_json : AdminRepairReceipt -> string;
}.

(** ** Requests *)

Definition validate_snapshot_principal (snapshot_path principal : string) : RuntimeResult unit :=
  fail_if (negb (is_absolute snapshot_path))
    (invalid "snapshot path must be absolute" "snapshotPath") ;;
  fail_if ((trim (chars principal) == []) || (256 <? str_len principal)
           || existsb is_control (chars principal))
    (invalid "principal must contain 1..=256 non-control characters" "principal").

Definition is_sha256_digest (value : string) : bool :=
  (str_len value =? 71) && starts_with "sha256:" value
  && forallb is_ascii_hexdigit (bytes (str_drop 7 value)).

Definition validate_repair_identity (expected_fingerprint snapshot_path principal : string)
    : RuntimeResult unit :=
  fail_if (negb (is_sha256_digest expected_fingerprint))
    (invalid "expected fingerprint must be a canonical sha256 Digest" "expectedFingerprint") ;;
  validate_snapshot_principal snapshot_path principal.

(** [validate_request] *)
Definition validate_repair_request (request : RuntimeRepairRequest) : RuntimeResult unit :=
  validate_repair_identity (rrq_expected_fingerprint request) (rrq_snapshot_path request)
    (rrq_principal request).

(** [map_universal_error] of [repair.rs] *)
Definition repair_universal_error (error : UniversalExecError) : RuntimeError :=
  error_new IoError (ue_message error) (ue_field error) (ue_retryable error).

Definition reconcile_first (message : string) (field : option string) : RuntimeError :=
  error_new ReconciliationRequired message field false.

(** ** Backups *)

Definition backup_corrupt (message : string) : RuntimeError :=
  error_new RegistryCorrupt message (Some "snapshotPath") false.

Definition unsafe_backup_path (path : string) : bool :=
  String.eqb path "" || is_absolute path
  || existsb (fun component => match component with Normal _ => false | _ => true end)
       (components path).

Definition REGISTRY_FILE : string := "registry.sqlite3".

Section repair.
Context `{P : Platform, C : EngineCodec, RC : RepairCodec}.

(** One file of the manifest: its digest as it was measured. *)
Definition verify_backup_file (snapshot_path : string) (file : BackupFile) : eff string :=
  of_result (fail_if (unsafe_backup_path (bf_path file))
    (backup_corrupt ("backup manifest contains unsafe path " +:+ bf_path file))) ;;
  let path := path_join snapshot_path (bf_path file) in
  kind ← try_map (fun error => backup_corrupt ("cannot inspect backup file " +:+ bf_path file
                                               +:+ ": " +:+ io_text error))
    (SymlinkMetadata path);
  of_result (fail_if (negb match kind with
                           | RegularFile len => len =? bf_bytes file
                           | _ => false
                           end)
    (backup_corrupt ("backup file " +:+ bf_path file
                     +:+ " is missing, non-regular, or has the wrong size"))) ;;
  observed ← try_map repair_universal_error (Sha256File path);
  of_result (fail_if (negb (String.eqb observed (bf_digest file)))
    (backup_corrupt ("backup file " +:+ bf_path file +:+ " Digest does not match manifest"))) ;;
  mret observed.

(** The loop over the manifest, with [database_digest]. *)
Fixpoint verify_backup_files (snapshot_path : string) (database_digest : option string)
    (files : list BackupFile) : eff (option string) :=
  match files with
  | [] => mret database_digest
  | file :: rest =>
      observed ← verify_backup_file snapshot_path file;
      verify_backup_files snapshot_path
        (if String.eqb (bf_path file) REGISTRY_FILE then Some observed else database_digest) rest
  end.

Definition verify_snapshot (snapshot_path : string) : eff string :=
  text ← try_map (io_error "read backup manifest")
    (ReadFile (path_join snapshot_path "manifest.json"));
  manifest ← of_result (map_err (fun error => backup_corrupt ("invalid backup manifest: " +:+ error))
                          (backup_manifest_of_json text));
  database_digest ← verify_backup_files snapshot_path None (bk_files manifest);
  observed ← of_result (ok_or (backup_corrupt "backup manifest does not contain registry.sqlite3")
                          database_digest);
  let database := path_join snapshot_path REGISTRY_FILE in
  sql database SqlOpen "cannot open backup Registry" ;;
  sql database (SqlBusyTimeout 5000) "cannot set backup busy timeout" ;;
  integrity ← sql database SqlIntegrityCheck "cannot verify backup Registry";
  of_result (fail_if (negb (String.eqb integrity "ok"))
    (backup_corrupt ("backup Registry integrity check returned " +:+ integrity))) ;;
  mret observed.

(** The rows of a case, loaded from a database, show the state of the report. *)
Definition case_matches (case : RuntimeDoctorCase) (job : RuntimeJobRecord)
    (attempt : AttemptRecord) (reservation : ReservationRecord) : bool :=
  let j := dcs_job case in
  let a := dcs_attempt case in
  let r := dcs_reservation case in
  (job_job_id job == djs_job_id j)
  && (job_workspace_id job == djs_workspace_id j)
  && (job_resolution job == djs_resolution j)
  && (job_current_attempt_id job == djs_current_attempt_id j)
  && (job_row_version job == djs_row_version j)
  && (att_attempt_id attempt == das_attempt_id a)
  && (att_state attempt == das_state a)
  && (att_termination_intent attempt == das_termination_intent a)
  && (att_result_digest attempt == das_result_digest a)
  && (att_exit_code attempt == das_exit_code a)
  && (att_finished_at_ms attempt == das_finished_at_ms a)
  && (att_row_version attempt == das_row_version a)
  && (res_reservation_id reservation == drs_reservation_id r)
  && (res_state reservation == drs_state r)
  && (res_released_at_ms reservation == drs_released_at_ms r)
  && (res_release_reason reservation == drs_release_reason r).

Definition verify_snapshot_case (d : Db) (case : RuntimeDoctorCase) : RuntimeResult unit :=
  job ← query (load_job (djs_job_id (dcs_job case))) d;
  attempt ← query (load_attempt (das_attempt_id (dcs_attempt case))) d;
  reservation ← query (load_reservation (das_attempt_id (dcs_attempt case))) d;
  fail_if (negb (case_matches case job attempt reservation))
    (reconcile_first ("backup does not contain the exact Doctor state for Attempt "
                      +:+ das_attempt_id (dcs_attempt case)) (Some "snapshotPath")).

Definition verify_snapshot_cases (snapshot_path : string) (cases : list RuntimeDoctorCase)
    : eff unit :=
  let database := path_join snapshot_path REGISTRY_FILE in
  sql database SqlOpen "cannot open backup Registry for plan validation" ;;
  sql database (SqlBusyTimeout 5000) "cannot set backup plan busy timeout" ;;
  d ← try (BackupRows database);
  of_result (for_each (verify_snapshot_case d) cases).

(** The row of an Attempt, without the decoding of the rest. *)
Definition recovery_state (row : AttemptRow) : RecoveryState :=
  {| rcs_required := recovery_required row;
     rcs_reason_code := rec_reason_code <$> row_recovery row;
     rcs_evidence_digest := rec_evidence_digest <$> row_recovery row;
     rcs_observed_at_ms := rec_observed_at_ms <$> row_recovery row |}.

Definition select_recovery_state (attempt_id context : string) (d : Db)
    : RuntimeResult RecoveryState :=
  map_err (fun error => from_sql error context)
    (recovery_state <$> ok_or (OtherSqlError "Query returned no rows") (db_attempts d !! attempt_id)).

Definition read_recovery_state (database_path attempt_id : string) : eff RecoveryState :=
  sql database_path SqlOpen "cannot open Registry recovery state read-only" ;;
  sql database_path (SqlBusyTimeout 5000) "cannot set recovery-state busy timeout" ;;
  d ← registry (ReadSnapshot "cannot read Attempt recovery state");
  of_result (select_recovery_state attempt_id "cannot read Attempt recovery state" d).

(** The rows of the backup are those that were read of the Registry. *)
Definition stale_cancel_target_matches (live_job job : RuntimeJobRecord)
    (live_attempt attempt : AttemptRecord) (live_reservation reservation : ReservationRecord)
    (live_recovery recovery : RecoveryState) : bool :=
  (job_job_id job == job_job_id live_job)
  && (job_workspace_id job == job_workspace_id live_job)
  && (job_resolution job == job_resolution live_job)
  && (job_current_attempt_id job == job_current_attempt_id live_job)
  && (job_row_version job == job_row_version live_job)
  && (att_attempt_id attempt == att_attempt_id live_attempt)
  && (att_state attempt == att_state live_attempt)
  && (att_termination_intent attempt == att_termination_intent live_attempt)
  && (att_result_digest attempt == att_result_digest live_attempt)
  && (att_finished_at_ms attempt == att_finished_at_ms live_attempt)
  && (att_row_version attempt == att_row_version live_attempt)
  && (res_reservation_id reservation == res_reservation_id live_reservation)
  && (res_state reservation == res_state live_reservation)
  && (res_released_at_ms reservation == res_released_at_ms live_reservation)
  && (res_release_reason reservation == res_release_reason live_reservation)
  && (recovery == live_recovery).

Definition verify_stale_cancel_rows (live_job : RuntimeJobRecord) (live_attempt : AttemptRecord)
    (live_reservation : ReservationRecord) (live_recovery : RecoveryState) (d : Db)
    : RuntimeResult unit :=
  job ← query (load_job (job_job_id live_job)) d;
  attempt ← query (load_attempt (att_attempt_id live_attempt)) d;
  reservation ← query (load_reservation (att_attempt_id live_attempt)) d;
  recovery ← select_recovery_state (att_attempt_id live_attempt)
               "cannot read backup Attempt recovery state" d;
  fail_if (negb (stale_cancel_target_matches live_job job live_attempt attempt live_reservation
                   reservation live_recovery recovery))
    (reconcile_first ("backup does not contain the exact stale-cancellation state for Attempt "
                      +:+ att_attempt_id live_attempt) (Some "snapshotPath")).

Definition verify_snapshot_stale_cancel_target (snapshot_path : string)
    (live_job : RuntimeJobRecord) (live_attempt : AttemptRecord)
    (live_reservation : ReservationRecord) (live_recovery : RecoveryState) : eff unit :=
  let database := path_join snapshot_path REGISTRY_FILE in
  sql database SqlOpen "cannot open backup Registry for stale cancellation validation" ;;
  sql database (SqlBusyTimeout 5000) "cannot set backup stale-cancel busy timeout" ;;
  d ← try (BackupRows database);
  of_result (verify_stale_cancel_rows live_job live_attempt live_reservation live_recovery d).

(** ** Receipts *)

(** [fs::create_dir_all] of the bundle, [write_json_atomic], and the file as an
    Artifact. *)
Definition write_receipt (store_root attempt_id relative_path suffix context_create
    context_inspect text : string) : eff ArtifactRegistration :=
  let bundle := path_join (path_join store_root "attempts") attempt_id in
  try_map (io_error context_create) (CreateDirAll bundle) ;;
  let path := path_join bundle relative_path in
  try_map repair_universal_error (WriteAtomic path text) ;;
  byte_length ← try_map (io_error context_inspect) (FileLen path);
  digest ← try_map repair_universal_error (Sha256File path);
  mret {| areg_artifact_id := attempt_id +:+ suffix;
          areg_kind := "admin_repair";
          areg_relative_path := relative_path;
          areg_digest := digest;
          areg_media_type := "application/json";
          areg_byte_length := byte_length;
          areg_truncated := false |}.

Definition write_admin_receipt (store_root : string) (case : RuntimeDoctorCase)
    (audit : AdminRepairAudit) : eff ArtifactRegistration :=
  write_receipt store_root (das_attempt_id (dcs_attempt case)) "admin-repair.json" ".admin-repair"
    "create repair Bundle" "inspect repair receipt"
    (admin_receipt_to_json
       {| arr_schema_version := RUNTIME_REPAIR_SCHEMA_VERSION;
          arr_report_fingerprint := aud_report_fingerprint audit;
          arr_case_fingerprint := aud_case_fingerprint audit;
          arr_snapshot_path := aud_snapshot_path audit;
          arr_snapshot_digest := aud_snapshot_digest audit;
          arr_principal := aud_principal audit;
          arr_action := aud_action audit;
          arr_job_id := djs_job_id (dcs_job case);
          arr_attempt_id := das_attempt_id (dcs_attempt case);
          arr_observed_at_ms := aud_observed_at_ms audit |}).

Definition recovery_json (recovery : RecoveryState) : Json :=
  obj [("required", JBool (rcs_required recovery));
       ("reasonCode", opt_str (rcs_reason_code recovery));
       ("evidenceDigest", opt_str (rcs_evidence_digest recovery));
       ("observedAtMs", opt_num (rcs_observed_at_ms recovery))]%string.

Definition STALE_CANCEL_REASON : string := "ADMIN_CANCELLED_RECOVERY_REQUIRED_PROCESS_TREE_GONE".

Definition write_stale_cancel_receipt (store_root : string) (attempt : AttemptRecord)
    (request : RuntimeStaleCancelRequest) (report_fingerprint snapshot_digest : string)
    (recovery : RecoveryState) (observed_at_ms : Z) : eff ArtifactRegistration :=
  write_receipt store_root (att_attempt_id attempt) "admin-stale-cancel.json" ".admin-stale-cancel"
    "create stale-cancel Bundle" "inspect stale-cancel receipt"
    (json_to_string_pretty (obj
       [("schemaVersion", JNum RUNTIME_REPAIR_SCHEMA_VERSION);
        ("kind", JStr "ordivon.runtime-admin-stale-cancel");
        ("reportFingerprint", JStr report_fingerprint);
        ("snapshotPath", JStr (scq_snapshot_path request));
        ("snapshotDigest", JStr snapshot_digest);
        ("principal", JStr (scq_principal request));
        ("jobId", JStr (att_job_id attempt));
        ("attemptId", JStr (att_attempt_id attempt));
        ("previousState", JStr (AttemptState.as_db (att_state attempt)));
        ("terminationIntent",
           JStr (AttemptTerminationIntent.as_db (att_termination_intent attempt)));
        ("recovery", recovery_json recovery);
        ("processTreeAbsenceProven", JBool true);
        ("reasonCode", JStr STALE_CANCEL_REASON);
        ("observedAtMs", JNum observed_at_ms);
        ("truthRole",
           JStr "operator-cancellation-after-proven-execution-absence-not-original-outcome")]%string)).

(** ** The batch *)

Definition selected (request : RuntimeRepairRequest) (case : RuntimeDoctorCase) : bool :=
  bool_decide (das_attempt_id (dcs_attempt case) ∈ rrq_finalize_lost_attempt_ids request).

Definition action_name (request : RuntimeRepairRequest) (case : RuntimeDoctorCase)
    : RuntimeResult string :=
  match dcs_proposal case with
  | RecoverRunnerResult _ => Ok "recover_runner_result"%string
  | ReleaseTerminalReservation => Ok "release_terminal_reservation"%string
  | ManualReview _ =>
      if selected request case then Ok "finalize_lost"%string
      else Err (reconcile_first "manual-review Attempt was not explicitly selected"
                  (Some "finalizeLostAttemptIds"))
  | NoRepairNeeded => Ok "no_repair"%string
  end.

Definition repair_audit (request : RuntimeRepairRequest) (report : RuntimeDoctorReport)
    (snapshot_digest : string) (applied_at_ms : Z) (case : RuntimeDoctorCase) (action : string)
    : AdminRepairAudit :=
  {| aud_report_fingerprint := drp_fingerprint report;
     aud_case_fingerprint := dcs_fingerprint case;
     aud_snapshot_path := rrq_snapshot_path request;
     aud_snapshot_digest := snapshot_digest;
     aud_principal := rrq_principal request;
     aud_action := action;
     aud_observed_at_ms := applied_at_ms;
     aud_expected_job_row_version := djs_row_version (dcs_job case);
     aud_expected_current_attempt_id := djs_current_attempt_id (dcs_job case);
     aud_expected_reservation_state := drs_state (dcs_reservation case) |}.

Definition final_lost_terminal (case : RuntimeDoctorCase) (audit : AdminRepairAudit)
    (receipt : ArtifactRegistration) : TerminalCommit :=
  {| tc_attempt_id := das_attempt_id (dcs_attempt case);
     tc_expected_row_version := das_row_version (dcs_attempt case);
     tc_state := AttemptState.Lost;
     tc_result_digest := areg_digest receipt;
     tc_exit_code := None;
     tc_infrastructure_error_digest :=
       Some (sha256_bytes "admin confirmed lost: Runner result unavailable");
     tc_finished_at_ms := aud_observed_at_ms audit;
     tc_artifacts := [receipt];
     tc_reason_code := "ADMIN_CONFIRMED_LOST_NO_RUNNER_RESULT" |}.

Definition prepare_final_lost_terminal (store_root : string) (case : RuntimeDoctorCase)
    (audit : AdminRepairAudit) : eff TerminalCommit :=
  of_result (fail_if ((das_state (dcs_attempt case) != AttemptState.Lost)
                      || dcs_runner_result_present case
                      || (djs_resolution (dcs_job case) != Some JobResolution.Lost))
    (error_new OrphanRemediationDenied
       "finalize-lost requires an existing Lost record without Runner result"
       (Some "attemptId") false)) ;;
  receipt ← write_admin_receipt store_root case audit;
  mret (final_lost_terminal case audit receipt).

Definition repair_action (case : RuntimeDoctorCase) (kind : RuntimeRepairActionKind)
    (new_state : AttemptState.t) : RuntimeRepairAction :=
  {| rra_job_id := djs_job_id (dcs_job case);
     rra_attempt_id := das_attempt_id (dcs_attempt case);
     rra_case_fingerprint := dcs_fingerprint case;
     rra_kind := kind;
     rra_previous_state := das_state (dcs_attempt case);
     rra_new_state := new_state |}.

(** The evidence of the commit is appended to the Attempt as it is now. *)
Definition with_terminal_evidence (case : RuntimeDoctorCase) (terminal : TerminalCommit)
    : eff TerminalCommit :=
  attempt ← registry (GetAttempt (das_attempt_id (dcs_attempt case)));
  append_terminal_evidence attempt terminal.

(** The body of the loop over the cases. *)
Definition plan_case (store_root : string) (request : RuntimeRepairRequest)
    (report : RuntimeDoctorReport) (snapshot_digest : string) (applied_at_ms : Z)
    (case : RuntimeDoctorCase) : eff (list (AdminRepairOperation * RuntimeRepairAction)) :=
  action ← of_result (action_name request case);
  let audit := repair_audit request report snapshot_digest applied_at_ms case action in
  match dcs_proposal case with
  | RecoverRunnerResult terminal =>
      receipt ← write_admin_receipt store_root case audit;
      terminal ← with_terminal_evidence case (push_artifact receipt terminal);
      mret [(Terminal terminal audit,
             repair_action case RecoverRunnerResultAction (tc_state terminal))]
  | ReleaseTerminalReservation =>
      mret [(Reservation (das_attempt_id (dcs_attempt case)) (das_row_version (dcs_attempt case))
               audit,
             repair_action case ReleaseTerminalReservationAction (das_state (dcs_attempt case)))]
  | ManualReview _ =>
      terminal ← prepare_final_lost_terminal store_root case audit;
      terminal ← with_terminal_evidence case terminal;
      mret [(Terminal terminal audit, repair_action case FinalizeLostAction AttemptState.Lost)]
  | NoRepairNeeded => mret []
  end.

Fixpoint plan_cases (store_root : string) (request : RuntimeRepairRequest)
    (report : RuntimeDoctorReport) (snapshot_digest : string) (applied_at_ms : Z)
    (cases : list RuntimeDoctorCase) : eff (list (AdminRepairOperation * RuntimeRepairAction)) :=
  match cases with
  | [] => mret []
  | case :: rest =>
      planned ← plan_case store_root request report snapshot_digest applied_at_ms case;
      later ← plan_cases store_root request report snapshot_digest applied_at_ms rest;
      mret (planned ++ later)
  end.

Definition schema_required (what : string) (report : RuntimeDoctorReport) : RuntimeResult unit :=
  fail_if (negb (drp_migration_version report =? MAX_MIGRATION_VERSION))
    (error_new SchemaVersionUnsupported
       ("Runtime " +:+ what +:+ " requires schema " +:+ pretty MAX_MIGRATION_VERSION
        +:+ ", observed " +:+ pretty (drp_migration_version report))
       (Some "migrationVersion") false).

Definition is_manual (case : RuntimeDoctorCase) : bool :=
  match dcs_proposal case with ManualReview _ => true | _ => false end.

Definition unproposed (case : RuntimeDoctorCase) : bool :=
  negb (dcs_violation_codes case == [])
  && match dcs_proposal case with NoRepairNeeded => true | _ => false end.

Definition manual_attempts (report : RuntimeDoctorReport) : gset string :=
  list_to_set (map (fun case => das_attempt_id (dcs_attempt case))
                 (List.filter is_manual (drp_cases report))).

(** The ids of a [BTreeSet], in order. *)
Definition in_order (ids : gset string) : list string := order_by String.leb (elements ids).

(** Whether the report can be carried out as the operator asks. *)
Definition check_report (request : RuntimeRepairRequest) (report : RuntimeDoctorReport)
    : RuntimeResult unit :=
  schema_required "repair" report ;;
  fail_if (negb (String.eqb (drp_fingerprint report) (rrq_expected_fingerprint request)))
    (reconcile_first ("Doctor fingerprint changed: expected " +:+ rrq_expected_fingerprint request
                      +:+ ", observed " +:+ drp_fingerprint report)
       (Some "expectedFingerprint")) ;;
  fail_if (negb (bool_decide (sum_list (map (fun case => length (dcs_violation_codes case))
                                          (drp_cases report)) = drp_violation_count report)))
    (reconcile_first
       "Doctor report contains invariant violations without an actionable Attempt Case"
       (Some "violations")) ;;
  fail_if (existsb unproposed (drp_cases report))
    (reconcile_first "Doctor report contains a violating Case without a repair proposal"
       (Some "cases")).

Definition check_selection (request : RuntimeRepairRequest) (report : RuntimeDoctorReport)
    : RuntimeResult unit :=
  for_each (fun attempt_id =>
      fail_if (negb (bool_decide (attempt_id ∈ manual_attempts report)))
        (invalid (attempt_id +:+ " is not a current manual-review Attempt")
           "finalizeLostAttemptIds"))
    (in_order (rrq_finalize_lost_attempt_ids request)) ;;
  let unselected := in_order (manual_attempts report ∖ rrq_finalize_lost_attempt_ids request) in
  fail_if (negb (unselected == []))
    (reconcile_first ("manual-review Attempts require explicit --finalize-lost selection: "
                      +:+ String.concat "," unselected) (Some "finalizeLostAttemptIds")).

Definition initialize_registry (config : RuntimeDoctorConfig) : eff unit :=
  try (InitializeRegistry (dc_db_path config) (dc_store_root config) (dc_busy_timeout_ms config)).

(** The report after the change must be clean. *)
Definition inspect_after (config : RuntimeDoctorConfig) (what : string) : eff RuntimeDoctorReport :=
  after ← inspect_runtime config;
  of_result (fail_if (negb (bool_decide (drp_violation_count after = 0%nat)))
    (reconcile_first (what +:+ " committed but " +:+ pretty (drp_violation_count after)
                      +:+ " invariant violations remain") None)) ;;
  mret after.

Definition apply_runtime_repair (config : RuntimeDoctorConfig) (request : RuntimeRepairRequest)
    : eff RuntimeRepairReport :=
  of_result (validate_repair_request request) ;;
  before ← inspect_runtime config;
  of_result (check_report request before) ;;
  snapshot_digest ← verify_snapshot (rrq_snapshot_path request);
  verify_snapshot_cases (rrq_snapshot_path request) (drp_cases before) ;;
  of_result (check_selection request before) ;;
  initialize_registry config ;;
  applied_at_ms ← try NowMs;
  planned ← plan_cases (dc_store_root config) request before snapshot_digest applied_at_ms
              (drp_cases before);
  registry (RepairAdminBatch (map fst planned)) ;;
  after ← inspect_after config "Runtime repair";
  mret {| rrp_schema_version := RUNTIME_REPAIR_SCHEMA_VERSION;
          rrp_applied_at_ms := applied_at_ms;
          rrp_expected_fingerprint := rrq_expected_fingerprint request;
          rrp_snapshot_path := rrq_snapshot_path request;
          rrp_snapshot_digest := snapshot_digest;
          rrp_principal := rrq_principal request;
          rrp_actions := map snd planned;
          rrp_before := before;
          rrp_after := after |}.

(** ** Cancelling a stale Attempt *)

Definition stale_cancel_target (attempt_id : string) (attempt : AttemptRecord)
    (job : RuntimeJobRecord) (reservation : ReservationRecord) (recovery : RecoveryState) : bool :=
  negb (AttemptState.is_terminal (att_state attempt))
  && (job_resolution job == None)
  && (job_current_attempt_id job == Some attempt_id)
  && (res_state reservation == ReservationState.Active)
  && rcs_required recovery
  && (rcs_reason_code recovery == Some "LAUNCH_IDENTITY_MISMATCH"%string).

Definition stale_cancel_denied (message : string) : RuntimeError :=
  error_new OrphanRemediationDenied message (Some "attemptId") false.

Definition validate_stale_cancel_request (request : RuntimeStaleCancelRequest)
    : RuntimeResult unit :=
  validate_snapshot_principal (scq_snapshot_path request) (scq_principal request) ;;
  fail_if ((trim (chars (scq_attempt_id request)) == [])
           || existsb is_control (chars (scq_attempt_id request)))
    (invalid "attempt id must be non-empty and control-free" "attemptId").

(** No result file, and nothing that runs: else the error. *)
Definition require_absent (attempt : AttemptRecord) (result_message : string)
    (running : RuntimeError) : eff unit :=
  result_present ← ask (IsFile (bundle_file attempt RESULT_FILE));
  of_result (fail_if result_present (reconcile_first result_message (Some "attemptId"))) ;;
  absent ← launch_identity_mismatch_cancel_target_absent attempt;
  of_result (fail_if (negb absent) running).

Definition stale_cancel_terminal (current : AttemptRecord) (recovery : RecoveryState)
    (applied_at_ms : Z) (receipt : ArtifactRegistration) : TerminalCommit :=
  {| tc_attempt_id := att_attempt_id current;
     tc_expected_row_version := att_row_version current;
     tc_state := AttemptState.Cancelled;
     tc_result_digest := areg_digest receipt;
     tc_exit_code := None;
     tc_infrastructure_error_digest :=
       match rcs_evidence_digest recovery with
       | Some digest => Some digest
       | None => Some (sha256_bytes "recovery-required stale cancellation")
       end;
     tc_finished_at_ms := applied_at_ms;
     tc_artifacts := [receipt];
     tc_reason_code := STALE_CANCEL_REASON |}.

(** The rows of the Attempt that is to be cancelled, and what the Registry
    knows of its recovery. *)
Definition load_stale_cancel_target (config : RuntimeDoctorConfig)
    (request : RuntimeStaleCancelRequest) : eff (AttemptRecord * RuntimeJobRecord * RecoveryState) :=
  attempt ← registry (GetAttempt (scq_attempt_id request));
  job ← registry (GetJob (att_job_id attempt));
  reservation ← registry (GetReservation (scq_attempt_id request));
  recovery ← read_recovery_state (dc_db_path config) (scq_attempt_id request);
  of_result (fail_if (negb (stale_cancel_target (scq_attempt_id request) attempt job reservation
                              recovery))
    (stale_cancel_denied "stale cancellation requires the current active recovery-required LAUNCH_IDENTITY_MISMATCH Attempt on an unresolved Job")) ;;
  verify_snapshot_stale_cancel_target (scq_snapshot_path request) job attempt reservation recovery ;;
  mret (attempt, job, recovery).

(** The cancel intent, and the Attempt with it. *)
Definition record_stale_cancel (request : RuntimeStaleCancelRequest) (job : RuntimeJobRecord)
    (applied_at_ms : Z) : eff AttemptRecord :=
  registry (RequestCancel (job_job_id job) applied_at_ms) ;;
  current ← registry (GetAttempt (scq_attempt_id request));
  of_result (fail_if (AttemptState.is_terminal (att_state current))
    (reconcile_first "Attempt became terminal after cancel intent; inspect current truth instead of overwriting it"
       (Some "attemptId"))) ;;
  mret current.

(** From the cancel intent to the terminal commit. *)
Definition commit_stale_cancel (config : RuntimeDoctorConfig) (request : RuntimeStaleCancelRequest)
    (before : RuntimeDoctorReport) (snapshot_digest : string) (job : RuntimeJobRecord)
    (recovery : RecoveryState) (applied_at_ms : Z) : eff JobProjection :=
  current ← record_stale_cancel request job applied_at_ms;
  require_absent current
    "Runner result appeared after cancel intent; reconcile it instead of administratively cancelling the Attempt"
    (reconcile_first "execution ownership changed after cancel intent; retain the cancellation intent and reconcile current evidence"
       (Some "attemptId")) ;;
  receipt ← write_stale_cancel_receipt (dc_store_root config) current request
              (drp_fingerprint before) snapshot_digest recovery applied_at_ms;
  terminal ← append_terminal_evidence current
               (stale_cancel_terminal current recovery applied_at_ms receipt);
  registry (CommitTerminal terminal).

Definition cancel_stale_recovery_required_attempt (config : RuntimeDoctorConfig)
    (request : RuntimeStaleCancelRequest) : eff RuntimeStaleCancelReport :=
  of_result (validate_stale_cancel_request request) ;;
  before ← inspect_runtime config;
  of_result (schema_required "stale cancellation" before) ;;
  of_result (fail_if (negb (bool_decide (drp_violation_count before = 0%nat)))
    (reconcile_first "stale cancellation requires a Doctor-clean invariant surface"
       (Some "violations"))) ;;
  snapshot_digest ← verify_snapshot (scq_snapshot_path request);
  initialize_registry config ;;
  '(attempt, job, recovery) ← load_stale_cancel_target config request;
  require_absent attempt
    "Runner result exists; reconcile it instead of administratively cancelling the Attempt"
    (stale_cancel_denied "stale cancellation denied because the unit, recorded process identity, or cgroup may still own live execution") ;;
  applied_at_ms ← try NowMs;
  commit_stale_cancel config request before snapshot_digest job recovery applied_at_ms ;;
  registry (ClearReconciliationFailure (scq_attempt_id request) applied_at_ms) ;;
  after ← inspect_after config "stale cancellation";
  mret {| scr_schema_version := RUNTIME_REPAIR_SCHEMA_VERSION;
          scr_applied_at_ms := applied_at_ms;
          scr_doctor_fingerprint_before := drp_fingerprint before;
          scr_snapshot_path := scq_snapshot_path request;
          scr_snapshot_digest := snapshot_digest;
          scr_principal := scq_principal request;
          scr_job_id := job_job_id job;
          scr_attempt_id := scq_attempt_id request;
          scr_previous_state := att_state attempt;
          scr_new_state := AttemptState.Cancelled;
          scr_process_tree_absence_proven := true;
          scr_before := before;
          scr_after := after |}.
End repair.
