(* ===== verification/DoctorSpec.v ===== *)
(** * What a report of the Doctor is worth

    The cases of a report are rows of one snapshot, each with a proposal that
    its evidence supports; a plan that only releases reservations can be carried
    out, except for one kind of case. *)

From S2P Require Import Prelude Text Errors Types Supervisor Platform TestPlatform Validation.
From S2P Require Import Submit Store Transaction Migrations Projection Lifecycle Admission.
From S2P Require Import Preservation Recovery AdminRepair Registry Scenario Safety LifecycleSpec.
From S2P Require Import RecoverySpec Query Effects Engine Evidence Workspace Silence Observed.
From S2P Require Import TestWorld Doctor Repair.

#[local] Open Scope Z_scope.

(** ** Sets as sorted lists *)

Lemma elem_of_sorted_set x l : x ∈ sorted_set l <-> x ∈ l.
Proof.
  unfold sorted_set. rewrite order_by_Permutation, elem_of_distinct.
  split; [by intros [? _] | ]. intros H. split; [done | apply not_elem_of_nil].
Qed.

Lemma NoDup_sorted_set l : NoDup (sorted_set l).
Proof. unfold sorted_set. rewrite order_by_Permutation. apply NoDup_distinct. Qed.

Lemma elem_of_codes_of a code violations :
  code ∈ codes_of a violations <->
  exists v, v ∈ violations /\ riv_attempt_id v = Some a /\ riv_code v = code.
Proof.
  unfold codes_of. rewrite elem_of_sorted_set, list_elem_of_In, in_map_iff.
  split; intros (v & H1 & H2).
  - apply filter_In in H2 as [H2 Hv]. apply bool_decide_eq_true in Hv.
    exists v. rewrite list_elem_of_In. auto.
  - destruct H2 as [Ha Hc]. exists v. split; [done | ]. apply filter_In.
    rewrite <- list_elem_of_In, bool_decide_eq_true. auto.
Qed.

Lemma elem_of_violating_attempts a violations :
  a ∈ violating_attempts violations <-> exists v, v ∈ violations /\ riv_attempt_id v = Some a.
Proof.
  unfold violating_attempts. rewrite elem_of_sorted_set, list_elem_of_omap. naive_solver.
Qed.

(** ** A report with a code for each violation *)

Definition names_attempt (a : string) (v : RuntimeInvariantViolation) : bool :=
  riv_attempt_id v == Some a.

Lemma codes_of_length a violations :
  (length (codes_of a violations) <= length (List.filter (names_attempt a) violations))%nat.
Proof.
  unfold codes_of, sorted_set. rewrite (Permutation_length (order_by_Permutation _ _)).
  rewrite <- (length_map riv_code (List.filter (names_attempt a) violations)).
  assert (Hd : forall (l seen : list string), (length (distinct seen l) <= length l)%nat).
  { induction l as [ | x l IH]; intros seen; cbn [distinct]; [done | ].
    case_bool_decide; simpl; [etrans; [apply IH | lia] | apply le_n_S, IH]. }
  apply Hd.
Qed.

(** Violations counted by the Attempts they name. *)
Lemma filter_count attempts violations :
  NoDup attempts ->
  (sum_list (map (fun a => length (List.filter (names_attempt a) violations)) attempts)
   <= length (List.filter (fun v => bool_decide (riv_attempt_id v <> None)) violations))%nat.
Proof.
  intros Hnodup. induction violations as [ | v violations IH]; simpl.
  - clear Hnodup. induction attempts; simpl; lia.
  - assert (Hsum : (sum_list (map (fun a => length (if names_attempt a v
                       then v :: List.filter (names_attempt a) violations
                       else List.filter (names_attempt a) violations)) attempts)
                 <= sum_list (map (fun a => length (List.filter (names_attempt a) violations)) attempts)
                    + if bool_decide (riv_attempt_id v <> None) then 1 else 0)%nat).
    { clear IH. unfold names_attempt. destruct (riv_attempt_id v) as [b | ] eqn:Hb; simpl.
      - induction Hnodup as [ | a attempts Ha Hnodup IH]; simpl; [lia | ].
        destruct (decide (a = b)) as [-> | Hne].
        + rewrite bool_decide_true by done. simpl.
          assert (Hsame : forall l, b ∉ l ->
            sum_list (map (fun a => length (if Some b == Some a
                       then v :: List.filter (names_attempt a) violations
                       else List.filter (names_attempt a) violations)) l)
            = sum_list (map (fun a => length (List.filter (names_attempt a) violations)) l)).
          { induction l as [ | c l IHl]; intros Hc; [done | ]. apply not_elem_of_cons in Hc as [Hc Hl]. simpl.
            rewrite bool_decide_false by congruence. by rewrite (IHl Hl). }
          specialize (Hsame attempts Ha). unfold names_attempt in Hsame. rewrite Hsame. lia.
        + rewrite (bool_decide_false (Some b = Some a)) by congruence. lia.
      - clear Hnodup. induction attempts as [ | a attempts IH]; simpl; [lia | ]. lia. }
    destruct (bool_decide (riv_attempt_id v <> None)); simpl; lia.
Qed.

(** If every violation counts as a code of a case, none is without Attempt. *)
Lemma all_scoped violations v :
  sum_list (map (fun a => length (codes_of a violations)) (violating_attempts violations))
    = length violations ->
  v ∈ violations -> riv_attempt_id v <> None.
Proof.
  intros Hsum Hin Hnone.
  assert (Hle : (sum_list (map (fun a => length (codes_of a violations)) (violating_attempts violations))
                 <= sum_list (map (fun a => length (List.filter (names_attempt a) violations))
                               (violating_attempts violations)))%nat).
  { generalize (violating_attempts violations) as l. induction l as [ | a l IH]; simpl; [done | ].
    pose proof (codes_of_length a violations). lia. }
  pose proof (filter_count _ violations (NoDup_sorted_set (omap riv_attempt_id violations))) as Hf.
  fold (violating_attempts violations) in Hf.
  assert (Hlt : (length (List.filter (fun v => bool_decide (riv_attempt_id v <> None)) violations)
                 < length violations)%nat).
  { clear Hsum Hle Hf. apply list_elem_of_In in Hin.
    induction violations as [ | w violations IH]; simpl in *; [done | ].
    destruct Hin as [-> | Hin].
    - rewrite Hnone, bool_decide_false by (intros H; by apply H). simpl.
      pose proof (filter_length_le (fun v => bool_decide (riv_attempt_id v <> None)) violations). lia.
    - specialize (IH Hin). destruct (bool_decide (riv_attempt_id w <> None)); simpl; lia. }
  lia.
Qed.

(** ** References

    The keys of the tables, and the reference of a Job to its current Attempt.  That
    the Attempt exists is what [foreign_key_check] tells; that it is an Attempt of
    this Job is told by nothing, and is assumed of the databases that
    [release_plan_exact] speaks of. *)
Record references_hold (d : Db) : Prop := {
  ref_attempts : forall k row, db_attempts d !! k = Some row -> att_attempt_id (row_attempt row) = k;
  ref_jobs : forall k job, db_jobs d !! k = Some job -> job_job_id job = k;
  ref_current : forall k job a, db_jobs d !! k = Some job -> job_current_attempt_id job = Some a ->
    exists row, db_attempts d !! a = Some row /\ att_job_id (row_attempt row) = k;
}.

(** The two queries of reservations, and the other five. *)
Definition reservation_part (d : Db) : list RuntimeInvariantViolation :=
  collect (reservation_mismatch conclusive ReservationState.Released d)
    "TERMINAL_ATTEMPT_HOLDS_RESERVATION" "non-orphan terminal Attempt must release its reservation"
  ++ collect (reservation_mismatch (fun s => s == AttemptState.Orphaned)
                ReservationState.HeldOrphaned d)
       "ORPHAN_RESERVATION_NOT_HELD" "orphaned Attempt must hold its reservation".

Definition other_part (d : Db) : list RuntimeInvariantViolation :=
  collect (unresolved_without_current d) "UNRESOLVED_JOB_WITHOUT_CURRENT_ATTEMPT"
    "unresolved Job must reference its current Attempt"
  ++ collect (resolved_with_current d) "RESOLVED_JOB_WITH_CURRENT_ATTEMPT"
       "resolved Job must not retain current_attempt_id"
  ++ collect (unresolved_on_terminal d) "UNRESOLVED_JOB_POINTS_TO_TERMINAL_ATTEMPT"
       "unresolved Job must not reference a terminal Attempt"
  ++ collect (resolution_mismatch d) "JOB_RESOLUTION_ATTEMPT_STATE_MISMATCH"
       "resolved Job must agree with its latest terminal Attempt"
  ++ collect (terminal_without_evidence d) "TERMINAL_ATTEMPT_MISSING_EVIDENCE"
       "terminal Attempt must retain result digest and finish time".

Lemma inspect_parts d v :
  v ∈ inspect_runtime_invariants_connection d <-> v ∈ other_part d \/ v ∈ reservation_part d.
Proof. unfold inspect_runtime_invariants_connection, other_part, reservation_part. rewrite !elem_of_app. tauto. Qed.

(** A reservation that is not where its terminal Attempt wants it. *)
Definition misplaced (a : string) (d : Db) : Prop :=
  exists row res, db_attempts d !! a = Some row /\ db_reservations d !! a = Some res
    /\ AttemptState.is_terminal (att_state (row_attempt row)) = true
    /\ res_state (row_reservation res) <> reservation_target (att_state (row_attempt row)).

Lemma elem_of_collect v rows code detail :
  v ∈ collect rows code detail ->
  exists attempt job, (attempt, job) ∈ rows /\ riv_attempt_id v = job /\ riv_job_id v = attempt
    /\ riv_code v = code.
Proof.
  unfold collect. rewrite list_elem_of_In, in_map_iff. intros ([x y] & <- & Hin).
  exists x, y. by rewrite list_elem_of_In.
Qed.

Lemma doctor_resolution_matches s r :
  doctor_resolution_for_state s = Some r -> resolution_matches r s = true.
Proof. by destruct s; intros [= <-]. Qed.

Lemma doctor_resolution_is s r :
  doctor_resolution_for_state s = Some r <-> resolution_for_state s = Ok r.
Proof. destruct s; split; by intros [= <-]. Qed.

Lemma evidence_complete_true job attempt :
  evidence_complete job attempt = true <->
  AttemptState.is_terminal (att_state attempt) = true /\ att_result_digest attempt <> None
  /\ att_finished_at_ms attempt <> None
  /\ job_resolution job = doctor_resolution_for_state (att_state attempt)
  /\ job_current_attempt_id job = None.
Proof.
  unfold evidence_complete. rewrite !andb_true_iff, !negb_true_iff, !bool_decide_eq_false,
    !bool_decide_eq_true. tauto.
Qed.

Lemma terminal_resolved s : AttemptState.is_terminal s = true -> exists r, doctor_resolution_for_state s = Some r.
Proof. destruct s; try done; eauto. Qed.

Lemma reservation_mismatch_misplaced d f expected x a :
  references_hold d -> (x, Some a) ∈ reservation_mismatch f expected d ->
  (forall s, f s = true -> AttemptState.is_terminal s = true /\ reservation_target s = expected) ->
  misplaced a d.
Proof.
  intros Href Hin Hf. unfold reservation_mismatch in Hin.
  apply list_elem_of_omap in Hin as (y & Hy & Hin).
  apply elem_of_attempts_where in Hy as (k & row & Hk & <- & Hs).
  rewrite (ref_attempts d Href _ _ Hk) in Hin.
  destruct (db_reservations d !! k) as [res | ] eqn:Hres; [ | done].
  simpl in Hin. case_bool_decide as Hst; [done | ]. injection Hin as _ <-.
  destruct (Hf _ Hs) as [Ht Hx]. exists row, res. by rewrite Hx.
Qed.

Lemma reservation_part_misplaced d v :
  references_hold d -> v ∈ reservation_part d ->
  exists a, riv_attempt_id v = Some a /\ misplaced a d.
Proof.
  intros Href Hv. unfold reservation_part in Hv. apply elem_of_app in Hv as [Hv | Hv];
    apply elem_of_collect in Hv as (x & y & Hin & Hy & _).
  all: assert (exists a, y = Some a) as (a & ->) by
    (unfold reservation_mismatch in Hin; apply list_elem_of_omap in Hin as (z & _ & Hin);
     destruct (db_reservations d !! _); [ | done]; simpl in Hin; case_bool_decide; [done | ];
     injection Hin as _ <-; eauto).
  all: exists a; split; [done | ]; eapply reservation_mismatch_misplaced; [done | exact Hin | ].
  - intros s Hs. by destruct s.
  - intros s Hs%bool_decide_eq_true. by subst.
Qed.

Lemma misplaced_violation d a :
  references_hold d -> misplaced a d ->
  exists v, v ∈ inspect_runtime_invariants_connection d /\ riv_attempt_id v = Some a.
Proof.
  intros Href (row & res & Hrow & Hres & Hterm & Hne).
  assert (Hin : forall f expected,
    f (att_state (row_attempt row)) = true -> expected = reservation_target (att_state (row_attempt row)) ->
    (Some (att_job_id (row_attempt row)), Some a) ∈ reservation_mismatch f expected d).
  { intros f expected Hf ->. unfold reservation_mismatch. apply list_elem_of_omap.
    exists (row_attempt row). split.
    - unfold attempts_where. rewrite list_elem_of_In, filter_In. split; [ | done].
      apply in_map_iff. exists (a, row). split; [done | ]. by apply list_elem_of_In, elem_of_map_to_list.
    - rewrite (ref_attempts d Href _ _ Hrow), Hres. simpl. by rewrite bool_decide_false. }
  assert (Hcollect : forall rows code detail x, (x, Some a) ∈ rows ->
    exists v, v ∈ collect rows code detail /\ riv_attempt_id v = Some a).
  { intros rows code detail x Hx. eexists. split.
    - unfold collect. apply list_elem_of_In, in_map_iff. exists (x, Some a).
      split; [reflexivity | by apply list_elem_of_In].
    - done. }
  destruct (decide (att_state (row_attempt row) = AttemptState.Orphaned)) as [Ho | Ho].
  - specialize (Hin (fun s => s == AttemptState.Orphaned) ReservationState.HeldOrphaned).
    rewrite Ho in Hin. specialize (Hin eq_refl eq_refl).
    destruct (Hcollect _ "ORPHAN_RESERVATION_NOT_HELD"%string
      "orphaned Attempt must hold its reservation"%string _ Hin) as (v & Hv & Ha).
    exists v. split; [ | done]. apply inspect_parts. right. unfold reservation_part.
    rewrite elem_of_app. by right.
  - specialize (Hin conclusive ReservationState.Released).
    assert (H1 : conclusive (att_state (row_attempt row)) = true) by (by destruct (att_state (row_attempt row))).
    assert (H2 : ReservationState.Released = reservation_target (att_state (row_attempt row)))
      by (by destruct (att_state (row_attempt row))).
    destruct (Hcollect _ "TERMINAL_ATTEMPT_HOLDS_RESERVATION"%string
      "non-orphan terminal Attempt must release its reservation"%string _ (Hin H1 H2)) as (v & Hv & Ha).
    exists v. split; [ | done]. apply inspect_parts. right. unfold reservation_part.
    rewrite elem_of_app. by left.
Qed.

(** An Attempt with complete evidence is only ever named for its reservation. *)
Lemma complete_not_other d a row job v :
  references_hold d -> db_attempts d !! a = Some row ->
  db_jobs d !! att_job_id (row_attempt row) = Some job ->
  evidence_complete job (row_attempt row) = true ->
  riv_attempt_id v = Some a -> v ∉ other_part d.
Proof.
  intros Href Hrow Hjob Hcomplete Ha Hin.
  apply evidence_complete_true in Hcomplete as (Hterm & Hdigest & Hfinish & Hres & Hcur).
  assert (Hown : forall k j, db_jobs d !! k = Some j -> job_current_attempt_id j <> Some a).
  { intros k j Hj Hc. destruct (ref_current d Href k j a Hj Hc) as (row' & Hrow' & Hk).
    rewrite Hrow in Hrow'. injection Hrow' as <-. rewrite <- Hk, Hjob in Hj. congruence. }
  assert (Hsame : forall k row', db_attempts d !! k = Some row' ->
    Some (att_attempt_id (row_attempt row')) = Some a -> row' = row).
  { intros k row' Hk [= He]. rewrite (ref_attempts d Href _ _ Hk) in He. by simplify_eq. }
  unfold other_part in Hin. rewrite !elem_of_app in Hin.
  destruct Hin as [H | [H | [H | [H | H]]]];
    apply elem_of_collect in H as (j & b & Hin & Hb & _ & _); rewrite Ha in Hb; subst b.
  - unfold unresolved_without_current in Hin. apply list_elem_of_fmap in Hin as (x & [=] & _).
  - unfold resolved_with_current in Hin. apply list_elem_of_fmap in Hin as (x & [= _ Hc] & Hx).
    apply elem_of_jobs_where in Hx as (k & Hk & _). by destruct (Hown k x Hk).
  - unfold unresolved_on_terminal in Hin. apply list_elem_of_omap in Hin as (x & Hx & Hf).
    apply elem_of_jobs_where in Hx as (k & Hk & _).
    destruct (job_current_attempt_id x) as [c | ] eqn:Hc; [ | done]. simpl in Hf.
    destruct (db_attempts d !! c); [ | done]. simpl in Hf. case_match; [ | done].
    injection Hf as _ <-. by destruct (Hown k x Hk).
  - unfold resolution_mismatch in Hin. apply list_elem_of_omap in Hin as (x & Hx & Hf).
    apply elem_of_attempts_where in Hx as (k & row' & Hk & <- & _).
    destruct (db_jobs d !! att_job_id (row_attempt row')) as [job' | ] eqn:Hj'; [ | done]. simpl in Hf.
    destruct (job_resolution job') as [r | ] eqn:Hr; [ | done]. simpl in Hf.
    destruct (is_latest _ _ && _) eqn:Hm; [ | done]. injection Hf as _ Hf.
    rewrite (Hsame k row' Hk (f_equal Some Hf)) in *. simplify_eq.
    rewrite Hres in Hr. apply doctor_resolution_matches in Hr. by rewrite Hr, andb_false_r in Hm.
  - unfold terminal_without_evidence in Hin. apply list_elem_of_fmap in Hin as (x & [= _ He] & Hx).
    apply elem_of_attempts_where in Hx as (k & row' & Hk & <- & Hs).
    rewrite (Hsame k row' Hk (f_equal Some (eq_sym He))) in *.
    apply andb_true_iff in Hs as [_ Hs]. apply orb_true_iff in Hs as [Hs | Hs];
      by apply bool_decide_eq_true in Hs.
Qed.

Lemma complete_violation d a row job v :
  references_hold d -> db_attempts d !! a = Some row ->
  db_jobs d !! att_job_id (row_attempt row) = Some job ->
  evidence_complete job (row_attempt row) = true ->
  v ∈ inspect_runtime_invariants_connection d -> riv_attempt_id v = Some a -> misplaced a d.
Proof.
  intros Href Hrow Hjob Hc [Hin | Hin]%inspect_parts Ha.
  - by destruct (complete_not_other _ _ _ _ _ Href Hrow Hjob Hc Ha Hin).
  - destruct (reservation_part_misplaced _ _ Href Hin) as (a' & Ha' & Hm). by simplify_eq.
Qed.

(** ** The report and the snapshot *)

Section report.
Context `{P : Platform, C : EngineCodec}.

(** A proposal follows from the rows, and from the result file if there is one. *)
Definition supported (job : RuntimeJobRecord) (attempt : AttemptRecord)
    (reservation : ReservationRecord) (case : RuntimeDoctorCase) (h : history) : Prop :=
  match dcs_proposal case with
  | RecoverRunnerResult terminal =>
      dcs_runner_result_present case = true /\ accepted_result attempt terminal h
      /\ terminal_matches job attempt terminal = false
  | ReleaseTerminalReservation =>
      evidence_complete job attempt = true
      /\ res_state reservation <> reservation_target (att_state attempt)
  | NoRepairNeeded =>
      evidence_complete job attempt = true
      /\ res_state reservation = reservation_target (att_state attempt)
  | ManualReview _ => True
  end.

(** The rows of a case. *)
Record rows_of (d : Db) (a : string) (row : AttemptRow) (job : RuntimeJobRecord)
    (res : ReservationRow) : Prop := {
  of_attempt : db_attempts d !! a = Some row;
  of_job : db_jobs d !! att_job_id (row_attempt row) = Some job;
  of_reservation : db_reservations d !! a = Some res;
}.

Definition case_of (d : Db) (violations : list RuntimeInvariantViolation) (h : history) (a : string)
    (case : RuntimeDoctorCase) : Prop :=
  exists row job res, rows_of d a row job res
    /\ dcs_job case = doctor_job_state job
    /\ dcs_attempt case = doctor_attempt_state (row_attempt row)
    /\ dcs_reservation case = doctor_reservation_state (row_reservation res)
    /\ dcs_violation_codes case = codes_of a violations
    /\ supported job (row_attempt row) (row_reservation res) case h.

Definition report_of (d : Db) (report : RuntimeDoctorReport) (h : history) : Prop :=
  drp_violations report = order_by violation_le (inspect_runtime_invariants_connection d)
  /\ drp_violation_count report = length (drp_violations report)
  /\ Forall2 (case_of d (drp_violations report) h)
       (violating_attempts (drp_violations report)) (drp_cases report).

Lemma supported_app job attempt reservation case h1 h2 :
  supported job attempt reservation case h1 \/ supported job attempt reservation case h2 ->
  supported job attempt reservation case (h1 ++ h2).
Proof.
  unfold supported. destruct (dcs_proposal case); try tauto.
  intros [(? & ? & ?) | (? & ? & ?)]; eauto using accepted_result_app.
Qed.

Lemma case_of_app d violations h1 h2 a case :
  case_of d violations h1 a case \/ case_of d violations h2 a case ->
  case_of d violations (h1 ++ h2) a case.
Proof.
  intros [(row & job & res & Hr & H1 & H2 & H3 & H4 & Hs) | (row & job & res & Hr & H1 & H2 & H3 & H4 & Hs)];
    exists row, job, res; repeat (split; [done | ]); apply supported_app; auto.
Qed.

Lemma runner_disposition_terminal attempt result :
  AttemptState.is_terminal (fst (runner_disposition attempt result)) = true.
Proof. unfold runner_disposition. by repeat case_match. Qed.

(** A terminal commit of a result file that agrees with the rows is complete
    evidence. *)
Lemma matching_result_complete job attempt terminal h :
  accepted_result attempt terminal h -> terminal_matches job attempt terminal = true ->
  evidence_complete job attempt = true /\ tc_state terminal = att_state attempt.
Proof.
  intros (text & result & _ & _ & _ & _ & _ & _ & _ & Hd & _) Hm.
  unfold terminal_matches in Hm. rewrite !andb_true_iff, !bool_decide_eq_true in Hm.
  destruct Hm as [[[[[Hs Hr] Hf] _] Hj] Hc].
  assert (Ht : AttemptState.is_terminal (tc_state terminal) = true).
  { apply (f_equal fst) in Hd. simpl in Hd. rewrite Hd. apply runner_disposition_terminal. }
  split; [ | done]. apply evidence_complete_true. rewrite Hs, Hr, Hf. by repeat split.
Qed.

Lemma propose_repair_spec job attempt reservation present :
  spec (propose_repair job attempt reservation present) (fun proposal h => forall case,
    dcs_proposal case = proposal -> dcs_runner_result_present case = present ->
    supported job attempt reservation case h).
Proof.
  unfold spec, propose_repair, supported. destruct present.
  - unfold mbind, prog_mbind. apply wp_bind. eapply spec_wp; [apply prepare_from_bundle_spec | by intros | ].
    intros [terminal | e] h Hres case; cbn [mret prog_mret wp]; intros Hp Hpr; rewrite Hp; [ | done].
    simpl in Hres. specialize (Hres terminal eq_refl). unfold propose_from_result in *.
    destruct (terminal_matches job attempt terminal) eqn:Hm; [ | by rewrite ?Hpr].
    destruct (matching_result_complete _ _ _ _ Hres Hm) as [Hc Hs]. rewrite Hs in *.
    case_bool_decide; done.
  - cbn [mret prog_mret wp]. intros case Hp Hpr. rewrite Hp. unfold propose_without_result.
    destruct (evidence_complete job attempt); [ | done]. case_bool_decide; done.
Qed.

Lemma query_load_attempt a d attempt :
  query (load_attempt a) d = Ok attempt <-> exists row, db_attempts d !! a = Some row /\ row_attempt row = attempt.
Proof.
  unfold query, load_attempt. destruct (db_attempts d !! a) as [row | ]; simpl; split; try done;
    [intros [= <-]; eauto | by intros (? & [= <-] & <-) | by intros (? & ? & ?)].
Qed.

Lemma query_load_job k d job : query (load_job k) d = Ok job <-> db_jobs d !! k = Some job.
Proof. unfold query, load_job. destruct (db_jobs d !! k); simpl; split; congruence. Qed.

Lemma query_load_reservation a d reservation :
  query (load_reservation a) d = Ok reservation
  <-> exists res, db_reservations d !! a = Some res /\ row_reservation res = reservation.
Proof.
  unfold query, load_reservation. destruct (db_reservations d !! a) as [res | ]; simpl; split; try done;
    [intros [= <-]; eauto | by intros (? & [= <-] & <-) | by intros (? & ? & ?)].
Qed.

Lemma doctor_case_spec config d violations a :
  spec (doctor_case config d violations a) (fun r h => forall case, r = Ok case ->
    case_of d violations h a case).
Proof.
  unfold spec, doctor_case, of_result, and_then.
  apply wp_eff_bind. cbn [wp]. destruct (query (load_attempt a) d) as [attempt | e] eqn:Hattempt; [ | done].
  apply wp_eff_bind. cbn [wp]. destruct (query (load_job (att_job_id attempt)) d) as [job | e] eqn:Hjob; [ | done].
  apply wp_eff_bind. cbn [wp]. destruct (query (load_reservation a) d) as [reservation | e] eqn:Hres; [ | done].
  apply query_load_attempt in Hattempt as (row & Hrow & <-). apply query_load_job in Hjob.
  apply query_load_reservation in Hres as (res & Hres & <-). cbv zeta.
  set (trusted := path_eq _ _). clearbody trusted.
  use_quiet. intros [present | e] h1; [ | done].
  use_quiet. intros [control | e] h2; [ | done].
  apply wp_eff_bind.
  destruct trusted; cbn [mret eff_mret prog_mret wp].
  - apply infallible_wp. eapply spec_wp; [apply propose_repair_spec | by intros | ].
    intros proposal h3 Hs case [= <-]. exists row, job, res. split; [done | ].
    repeat (split; [done | ]). apply supported_app. right. by apply Hs.
  - intros case [= <-]. exists row, job, res. split; [done | ]. by repeat (split; [done | ]).
Qed.

Lemma doctor_cases_spec config d violations attempts :
  spec (doctor_cases config d violations attempts) (fun r h => forall cases, r = Ok cases ->
    Forall2 (case_of d violations h) attempts cases).
Proof.
  induction attempts as [ | a attempts IH]; unfold spec; cbn [doctor_cases].
  - cbn. intros cases [= <-]. constructor.
  - apply wp_eff_bind. eapply spec_wp; [apply doctor_case_spec | by intros | ].
    intros [case | e] h1 Hcase; [ | done]. specialize (Hcase case eq_refl).
    apply wp_eff_bind. eapply spec_wp; [apply IH | by intros | ].
    intros [cases | e] h2 Hcases; [ | done]. specialize (Hcases cases eq_refl).
    cbn. intros cases' [= <-]. constructor; [apply case_of_app; auto | ].
    eapply Forall2_impl; [exact Hcases | ]. intros x y Hxy. apply case_of_app. auto.
Qed.

#[local] Abbreviation begins := (ReadSnapshot "cannot begin Doctor read snapshot").

Lemma quiet_sql {R} path (statement : sql_read R) context : quiet (sql path statement context).
Proof. by apply quiet_try_map. Qed.
#[local] Hint Resolve quiet_sql : quiet.

Lemma doctor_connection_spec config :
  spec (doctor_connection config) (fun r h => forall d, r = Ok d -> answered begins d h).
Proof.
  unfold spec, doctor_connection. cbv zeta.
  do 4 (use_quiet; intros [[] | e] ?; [ | done]).
  eapply spec_wp; [apply (registry_spec begins I) | by intros | ].
  intros r h H d Hd. apply answered_app. auto.
Qed.

Lemma inspect_runtime_spec config :
  spec (inspect_runtime config) (fun r h => forall report, r = Ok report ->
    exists d, answered begins d h /\ report_of d report h).
Proof.
  unfold spec, inspect_runtime.
  use_quiet. intros [[] | e] h1; [ | done]. cbv zeta.
  apply wp_eff_bind. eapply spec_wp; [apply doctor_connection_spec | by intros | ].
  intros [d | e] h2 Hd; [ | done]. specialize (Hd d eq_refl).
  do 2 (use_quiet; intros [? | e] ?; [ | done]).
  use_quiet. intros [? | e] ?; [ | done].
  use_quiet. intros [? | e] ?; [ | done].
  use_quiet. intros [? | e] ?; [ | done].
  use_quiet. intros [? | e] ?; [ | done].
  apply wp_eff_bind. eapply spec_wp; [apply doctor_cases_spec | by intros | ].
  intros [cases | e] h9 Hcases; [ | done]. specialize (Hcases cases eq_refl).
  use_quiet. intros [retired | e] h10; [ | done].
  use_quiet. intros [at_ms | e] h11; [ | done].
  cbn. intros report [= <-]. exists d. split; [unfold answered in *; in_history | ].
  split; [done | ]. split; [done | ]. cbn [drp_violations drp_cases].
  eapply Forall2_impl; [exact Hcases | ]. intros x y Hxy. repeat (apply case_of_app; first [by right | left]).
Qed.

Lemma Forall2_in_l {A B} (R : A -> B -> Prop) l k x :
  Forall2 R l k -> x ∈ l -> exists y, y ∈ k /\ R x y.
Proof.
  intros H [i Hi]%list_elem_of_lookup. destruct (Forall2_lookup_l _ _ _ _ _ H Hi) as (y & Hy & Hr).
  exists y. split; [by eapply list_elem_of_lookup_2 | done].
Qed.
Lemma Forall2_in_r {A B} (R : A -> B -> Prop) l k y :
  Forall2 R l k -> y ∈ k -> exists x, x ∈ l /\ R x y.
Proof. intros H Hy. apply Forall2_flip in H. by destruct (Forall2_in_l _ _ _ _ H Hy) as (x & Hx & Hr); eauto. Qed.

(** The case of a violation, and the other way. *)
Lemma report_case d report h case :
  report_of d report h -> case ∈ drp_cases report ->
  exists a, a ∈ violating_attempts (drp_violations report) /\ case_of d (drp_violations report) h a case.
Proof.
  intros (_ & _ & Hcases) Hin.
  destruct (Forall2_in_r _ _ _ _ Hcases Hin) as (a & Ha & Hcase). eauto.
Qed.

Lemma report_violation d report h v a :
  report_of d report h -> v ∈ inspect_runtime_invariants_connection d -> riv_attempt_id v = Some a ->
  exists case, case ∈ drp_cases report /\ case_of d (drp_violations report) h a case.
Proof.
  intros (Hv & _ & Hcases) Hin Ha.
  assert (Hviol : a ∈ violating_attempts (drp_violations report)).
  { apply elem_of_violating_attempts. exists v. rewrite Hv, order_by_Permutation. done. }
  destruct (Forall2_in_l _ _ _ _ Hcases Hviol) as (case & Hc & Hcase). eauto.
Qed.

(** every violation has a proposal.  In a report on a database whose
    references hold, no case says that no repair is needed: a case exists because
    an invariant is violated, and the proposals see what the inspection sees. *)
Theorem violating_case_has_proposal config h report :
  follows (inspect_runtime config) h (Ok report) ->
  exists d, answered begins d h
    /\ (references_hold d -> Forall (fun case => dcs_proposal case <> NoRepairNeeded) (drp_cases report)).
Proof.
  intros Hf. destruct (spec_follows _ _ _ _ (inspect_runtime_spec config) Hf report eq_refl) as (d & Hd & Hrep).
  exists d. split; [done | ]. intros Href. apply Forall_forall. intros case Hin Hp.
  destruct (report_case _ _ _ _ Hrep Hin) as (a & Ha & row & job & res & [Hrow Hjob Hres] & _ & _ & _ & _ & Hs).
  unfold supported in Hs. rewrite Hp in Hs. destruct Hs as [Hcomplete Htarget].
  apply elem_of_violating_attempts in Ha as (v & Hv & Ha).
  rewrite (proj1 Hrep), order_by_Permutation in Hv.
  destruct (complete_violation _ _ _ _ _ Href Hrow Hjob Hcomplete Hv Ha)
    as (row' & res' & Hrow' & Hres' & _ & Hne). by simplify_eq.
Qed.

(** ** Plans that release *)

Definition target_of (row : AttemptRow) : ReservationState.t :=
  reservation_target (att_state (row_attempt row)).

(** A reservation that was given up although the Attempt is orphaned. *)
Definition given_up (case : RuntimeDoctorCase) : bool :=
  (das_state (dcs_attempt case) == AttemptState.Orphaned)
  && (drs_state (dcs_reservation case) == ReservationState.Released).

Definition settled_reservation (row : AttemptRow) (at_ms : Z) (res : ReservationRow) : ReservationRow :=
  settled_row (target_of row == ReservationState.HeldOrphaned) at_ms "ADMIN_RUNTIME_REPAIR" res.

Lemma terminal_target row job :
  evidence_complete job (row_attempt row) = true ->
  terminal_reservation_target (row_attempt row) job = Ok (target_of row).
Proof.
  intros Hc. apply evidence_complete_true in Hc as (Ht & Hd & Hf & Hr & Hcur).
  destruct (terminal_resolved _ Ht) as (r & Hr'). unfold terminal_reservation_target.
  rewrite Ht. cbn [negb fail_if mbind result_bind].
  rewrite (proj1 (doctor_resolution_is _ _) Hr'). cbn [mbind result_bind].
  rewrite Hr, Hr', Hcur, (bool_decide_false _ Hd), (bool_decide_false _ Hf).
  by rewrite (bool_decide_true (Some r = _)), (bool_decide_true (None = _)).
Qed.

Lemma settled_state row at_ms res :
  res_state (row_reservation (settled_reservation row at_ms res)) = target_of row.
Proof.
  unfold settled_reservation, target_of, reservation_target.
  by destruct (att_state (row_attempt row)).
Qed.

Lemma hold_refused k at_ms reason d row :
  db_reservations d !! k = Some row -> live_reservation (row_reservation row) = false ->
  hold_orphaned_reservation k at_ms reason d
  = Err (error_new ReservationStateConflict "orphaned Attempt has no active reservation"
           (Some "attemptId") false).
Proof.
  intros Hk Hl. unfold hold_orphaned_reservation, update_reservations, mbind, tx_bind.
  rewrite Hk, Hl. reflexivity.
Qed.

(** The operation of a case against the rows that the case shows. *)
Lemma release_run_exact d a row job res audit :
  rows_of d a row job res -> evidence_complete job (row_attempt row) = true ->
  res_state (row_reservation res) <> target_of row ->
  aud_expected_job_row_version audit = job_row_version job ->
  aud_expected_current_attempt_id audit = job_current_attempt_id job ->
  aud_expected_reservation_state audit = res_state (row_reservation res) ->
  if live_reservation (row_reservation res)
  then exists events, repair_operation (Reservation a (att_row_version (row_attempt row)) audit) d
         = Ok (tt, set_db_events events (set_db_reservations
                     (<[a := settled_reservation row (aud_observed_at_ms audit) res]> (db_reservations d)) d))
  else exists e, repair_operation (Reservation a (att_row_version (row_attempt row)) audit) d = Err e.
Proof.
  intros [Hrow Hjob Hres] Hc Hne Hv1 Hv2 Hv3.
  cbn [repair_operation]. unfold repair_terminal_reservation_admin_transaction, load_attempt, load_job, load_reservation.
  unfold mbind, tx_bind. rewrite Hrow, Hjob, Hres. unfold reject_if at 1.
  rewrite Hv1, Hv2, Hv3, !bool_decide_true by done. cbn [negb orb].
  change (reject_if false plan_changed d) with (Ok (tt, d) : RuntimeResult (unit * Db)).
  unfold mret, tx_ret, lift. rewrite (terminal_target _ _ Hc).
  rewrite (bool_decide_false (target_of row = _)) by congruence.
  unfold settled_reservation, apply_reservation_target.
  destruct (live_reservation (row_reservation res)) eqn:Hlive.
  - case_bool_decide as Ht.
    + rewrite (hold_run _ _ _ _ _ Hres Hlive). eexists. reflexivity.
    + rewrite (release_run _ _ _ _ _ Hres Hlive). eexists. reflexivity.
  - assert (Hreleased : res_state (row_reservation res) = ReservationState.Released).
    { unfold live_reservation in Hlive. by destruct (res_state (row_reservation res)). }
    assert (Ht : target_of row = ReservationState.HeldOrphaned).
    { rewrite Hreleased in Hne. clear -Hne. unfold target_of, reservation_target in *.
      by destruct (att_state (row_attempt row)). }
    rewrite bool_decide_true by done. eexists.
    by rewrite (hold_refused _ _ _ _ _ Hres Hlive).
Qed.

End report.

Section releasing.
Context `{P : Platform, C : EngineCodec, RC : RepairCodec}.

(** What [plan_case] makes of a case that releases. *)
Definition release_operation (request : RuntimeRepairRequest) (report : RuntimeDoctorReport)
    (digest : string) (at_ms : Z) (case : RuntimeDoctorCase) : AdminRepairOperation :=
  Reservation (das_attempt_id (dcs_attempt case)) (das_row_version (dcs_attempt case))
    (repair_audit request report digest at_ms case "release_terminal_reservation").

Definition releases (case : RuntimeDoctorCase) : Prop :=
  dcs_proposal case = ReleaseTerminalReservation.

Lemma plan_releases root request report digest at_ms cases : Forall releases cases ->
  exists planned, plan_cases root request report digest at_ms cases = mret planned
    /\ map fst planned = map (release_operation request report digest at_ms) cases.
Proof.
  induction 1 as [ | case cases Hcase _ (planned & IH & Hmap)]; [by exists [] | ]. cbn [plan_cases].
  unfold plan_case, action_name. rewrite Hcase, IH.
  eexists. split; [reflexivity | ]. cbn. by rewrite Hmap.
Qed.

Lemma given_up_not_live row job res case h :
  dcs_attempt case = doctor_attempt_state (row_attempt row) ->
  dcs_reservation case = doctor_reservation_state (row_reservation res) ->
  supported job (row_attempt row) (row_reservation res) case h -> releases case ->
  live_reservation (row_reservation res) = negb (given_up case).
Proof.
  unfold supported, given_up, live_reservation. intros Ha Hr Hs Hp. rewrite Hp in Hs. destruct Hs as [_ Hne].
  rewrite Ha, Hr. cbn [das_state doctor_attempt_state drs_state doctor_reservation_state].
  unfold reservation_target in Hne.
  by destruct (res_state (row_reservation res)), (att_state (row_attempt row)).
Qed.

(** The rows of the Attempts to come are still as in the report. *)
Definition same_rows (attempts : list string) (d d1 : Db) : Prop :=
  db_attempts d1 = db_attempts d /\ db_jobs d1 = db_jobs d
  /\ forall a, a ∈ attempts -> db_reservations d1 !! a = db_reservations d !! a.

Definition all_settled (attempts : list string) (d d1 d' : Db) : Prop :=
  db_attempts d' = db_attempts d /\ db_jobs d' = db_jobs d
  /\ (forall a, a ∉ attempts -> db_reservations d' !! a = db_reservations d1 !! a)
  /\ (forall a, a ∈ attempts -> exists row res, db_attempts d !! a = Some row
        /\ db_reservations d' !! a = Some res /\ res_state (row_reservation res) = target_of row).

Lemma repair_releases request report digest at_ms d violations h attempts cases :
  references_hold d -> Forall2 (case_of d violations h) attempts cases ->
  Forall releases cases -> NoDup attempts -> forall d1, same_rows attempts d d1 ->
  let operations := map (release_operation request report digest at_ms) cases in
  if existsb given_up cases then exists e, repair_operations operations d1 = Err e
  else exists d', repair_operations operations d1 = Ok (tt, d') /\ all_settled attempts d d1 d'.
Proof.
  intros Href Hcases. induction Hcases as [ | a case attempts cases Hcase _ IH]; intros Hrel Hnodup d1 (Ha & Hj & Hr).
  { exists d1. split; [done | ]. split; [done | split; [done | split; [done | ]]]. intros a Hin.
    by apply not_elem_of_nil in Hin. }
  apply Forall_cons in Hrel as [Hp Hrel]. apply NoDup_cons in Hnodup as [Hfresh Hnodup].
  destruct Hcase as (row & job & res & [Hrow Hjob Hres] & Hcj & Hca & Hcr & _ & Hs).
  pose proof (given_up_not_live _ _ _ _ _ Hca Hcr Hs Hp) as Hlive.
  unfold supported in Hs. rewrite Hp in Hs. destruct Hs as [Hc Hne].
  cbv zeta. cbn [map existsb repair_operations].
  assert (Hop : release_operation request report digest at_ms case
    = Reservation a (att_row_version (row_attempt row))
        (repair_audit request report digest at_ms case "release_terminal_reservation")).
  { unfold release_operation. rewrite Hca. cbn [das_attempt_id das_row_version doctor_attempt_state].
    by rewrite (ref_attempts d Href _ _ Hrow). }
  rewrite Hop. clear Hop.
  assert (Hrows : rows_of d1 a row job res).
  { split; [by rewrite Ha | by rewrite Hj | ]. rewrite Hr by apply elem_of_cons, or_introl, eq_refl. done. }
  pose proof (release_run_exact d1 a row job res
    (repair_audit request report digest at_ms case "release_terminal_reservation") Hrows Hc Hne) as Hrun.
  cbn [aud_expected_job_row_version aud_expected_current_attempt_id aud_expected_reservation_state
       aud_observed_at_ms repair_audit] in Hrun.
  rewrite Hcj, Hcr in Hrun. specialize (Hrun eq_refl eq_refl eq_refl). rewrite Hlive in Hrun.
  destruct (given_up case); cbn [negb orb] in *.
  - destruct Hrun as (e & Hrun). exists e. unfold mbind, tx_bind. by rewrite Hrun.
  - destruct Hrun as (events & Hrun). unfold mbind, tx_bind. rewrite Hrun.
    set (d2 := set_db_events events _).
    assert (Hsame : same_rows attempts d d2).
    { split; [exact Ha | split; [exact Hj | ]]. intros b Hb. cbn.
      rewrite lookup_insert_ne by (intros ->; contradiction). apply Hr. by apply elem_of_cons, or_intror. }
    specialize (IH Hrel Hnodup d2 Hsame). cbv zeta in IH. destruct (existsb given_up cases).
    + destruct IH as (e & IH). exists e. exact IH.
    + destruct IH as (d' & IH & Ha' & Hj' & Hout & Hin). exists d'. split; [exact IH | ].
      split; [done | split; [done | split]].
      * intros b [Hb Hbs]%not_elem_of_cons. rewrite (Hout b Hbs). cbn. by rewrite lookup_insert_ne by congruence.
      * intros b [-> | Hb]%elem_of_cons; [ | by apply Hin].
        exists row, (settled_reservation row at_ms res). split; [done | ]. split; [ | apply settled_state].
        rewrite (Hout a Hfresh). cbn. by rewrite lookup_insert_eq.
Qed.

(** ** The inspection afterwards *)

Lemma inspect_nil d :
  (forall v, v ∈ inspect_runtime_invariants_connection d -> False) ->
  inspect_runtime_invariants_connection d = [].
Proof. intros H. destruct (inspect_runtime_invariants_connection d) as [ | v l]; [done | ]. destruct (H v). by left. Qed.

(** When all violations are those of reservations that are then settled, none
    is left. *)
Lemma settled_clean attempts d d' :
  references_hold d -> all_settled attempts d d d' ->
  (forall v, v ∉ other_part d) -> (forall a, misplaced a d -> a ∈ attempts) ->
  inspect_runtime_invariants_connection d' = [].
Proof.
  intros Href (Ha & Hj & Hout & Hin) Hother Hmis. apply inspect_nil. intros v [Hv | Hv]%inspect_parts.
  - apply (Hother v). revert Hv. unfold other_part, unresolved_without_current, resolved_with_current,
      unresolved_on_terminal, resolution_mismatch, terminal_without_evidence, jobs_where, attempts_where, is_latest.
    by rewrite Ha, Hj.
  - assert (Href' : references_hold d') by (destruct Href; split; rewrite ?Ha, ?Hj; assumption).
    destruct (reservation_part_misplaced _ _ Href' Hv) as (a & _ & row & res & Hrow & Hres & Hterm & Hne).
    rewrite Ha in Hrow. destruct (decide (a ∈ attempts)) as [Hi | Hi].
    + destruct (Hin a Hi) as (row' & res' & Hrow' & Hres' & Ht). by simplify_eq.
    + apply Hi, Hmis. exists row, res. rewrite <- (Hout a Hi). done.
Qed.

(** What the check of the report asks of the violations. *)
Lemma checked_scoped request d report h :
  report_of d report h -> check_report request report = Ok tt ->
  forall v, v ∈ inspect_runtime_invariants_connection d -> exists a, riv_attempt_id v = Some a.
Proof.
  intros (Hv & Hn & Hcases) Hcheck v Hin. unfold check_report in Hcheck.
  apply bind_Ok_inv in Hcheck as (? & _ & Hcheck). apply bind_Ok_inv in Hcheck as (? & _ & Hcheck).
  apply bind_Ok_inv in Hcheck as (? & Hsum & _). apply fail_if_Ok_inv, negb_false_iff, bool_decide_eq_true in Hsum.
  assert (Hcodes : map (fun case => length (dcs_violation_codes case)) (drp_cases report)
    = map (fun a => length (codes_of a (drp_violations report))) (violating_attempts (drp_violations report))).
  { clear -Hcases. induction Hcases as [ | a case attempts cases Hc _ IH]; [done | ]. simpl.
    destruct Hc as (? & ? & ? & _ & _ & _ & _ & -> & _). by rewrite IH. }
  rewrite Hcodes, Hn in Hsum.
  destruct (riv_attempt_id v) as [a | ] eqn:Ha; [eauto | ].
  assert (Hin' : v ∈ drp_violations report) by (by rewrite Hv, order_by_Permutation).
  by destruct (all_scoped _ _ Hsum Hin').
Qed.

(** C22: what the Doctor proposes to release can be released, with one exception.
    Take any report that passes the check of the operator's request and only
    proposes to release reservations, and its plan.  The report was made of one
    snapshot of the database.  Suppose the references of that snapshot hold: Attempts
    and Jobs stand under their own identifiers, and the current Attempt that a Job
    names exists and is an Attempt of that Job.  Then, on this database, the batch is
    carried out and leaves nothing for the inspection to find, Jobs and Attempts
    untouched; but if one of the Attempts is orphaned and its reservation was given
    up, the whole batch is refused, and nothing changes.  The last assumption is
    enforced neither by the schema nor by the report: where an unresolved Job names
    the Attempt of another one, a batch that only releases can be refused. *)
Theorem release_plan_exact config request h report digest at_ms planned :
  follows (inspect_runtime config) h (Ok report) ->
  check_report request report = Ok tt ->
  Forall releases (drp_cases report) ->
  follows (plan_cases (dc_store_root config) request report digest at_ms (drp_cases report)) []
    (Ok planned) ->
  exists d, answered (ReadSnapshot "cannot begin Doctor read snapshot") d h
    /\ (references_hold d ->
        let '(answer, d') := repair_admin_batch io_ok (map fst planned) d in
        if existsb given_up (drp_cases report) then is_ok answer = false /\ d' = d
        else answer = Ok tt /\ inspect_runtime_invariants_connection d' = []
             /\ db_jobs d' = db_jobs d /\ db_attempts d' = db_attempts d).
Proof.
  intros Hf Hcheck Hrel Hplan.
  destruct (spec_follows _ _ _ _ (inspect_runtime_spec config) Hf report eq_refl) as (d & Hd & Hrep).
  exists d. split; [done | ]. intros Href.
  destruct (plan_releases (dc_store_root config) request report digest at_ms _ Hrel) as (l & Hl & Hmap).
  rewrite Hl in Hplan. destruct Hplan as [_ [= ->]]. rewrite Hmap.
  pose proof (proj2 (proj2 Hrep)) as Hcases.
  pose proof (repair_releases request report digest at_ms d _ h _ _ Href Hcases Hrel
    (NoDup_sorted_set _) d) as Hrun.
  specialize (Hrun (conj eq_refl (conj eq_refl (fun _ _ => eq_refl)))). cbv zeta in Hrun.
  unfold repair_admin_batch, immediate, with_tx, repair_admin_batch_tx. cbn [io_open io_begin io_ok].
  unfold mbind, tx_bind. destruct (existsb given_up (drp_cases report)).
  { destruct Hrun as (e & ->). done. }
  destruct Hrun as (d' & -> & Hsettled). cbn [read].
  assert (Hclean : inspect_runtime_invariants_connection d' = []).
  { apply (settled_clean _ d d' Href Hsettled).
    - intros v Hv. assert (Hin : v ∈ inspect_runtime_invariants_connection d) by (apply inspect_parts; by left).
      destruct (checked_scoped _ _ _ _ Hrep Hcheck v Hin) as (a & Ha).
      destruct (report_violation _ _ _ _ _ Hrep Hin Ha)
        as (case & Hc & row & job & res & [Hrow Hjob Hres] & _ & _ & _ & _ & Hs).
      rewrite Forall_forall in Hrel. unfold supported in Hs. rewrite (Hrel case Hc) in Hs.
      by apply (complete_not_other _ _ _ _ _ Href Hrow Hjob (proj1 Hs) Ha).
    - intros a (v & Hv & Ha)%misplaced_violation; [ | done].
      apply elem_of_violating_attempts. exists v. by rewrite (proj1 Hrep), order_by_Permutation. }
  rewrite Hclean. cbn. destruct Hsettled as (Ha & Hj & _). done.
Qed.
End releasing.

(** ** Two damaged databases *)

#[export] Instance test_repair_codec : RepairCodec := {
  backup_manifest_of_json text :=
    Ok {| bk_files := [{| bf_path := REGISTRY_FILE; bf_bytes := str_len text;
                          bf_digest := sha256_bytes "/backup/registry.sqlite3" |}] |};
  admin_receipt_to_json receipt := join "|" [arr_action receipt; arr_attempt_id receipt];
}.

Definition doctor_config : RuntimeDoctorConfig := {|
  dc_db_path := "/var/lib/ordivon/registry.sqlite3"; dc_store_root := "/var/lib/ordivon";
  dc_busy_timeout_ms := 5000 |}.

(** The database is sound as a file, and there is no result file. *)
Definition sound_file {R} (statement : sql_read R) : result SqlError R :=
  match statement with
  | SqlOpen | SqlBusyTimeout _ | SqlPragma _ _ => Ok tt
  | SqlIntegrityCheck => Ok "ok"%string
  | SqlForeignKeyCheck => Ok None
  | SqlMigrationVersion => Ok MAX_MIGRATION_VERSION
  | SqlRecoveryConditions => Ok []
  end.

Definition doctor_world (R : Type) (c : call R) : R :=
  match c in call R return R with
  | Sql _ statement => sound_file statement
  | IsFile path => String.eqb path (dc_db_path doctor_config)
  | other => dead_world _ other
  end.

(** The report on a database. *)
Definition doctor_play (d : Db) := play doctor_world (inspect_runtime doctor_config) d.

(** An orphaned Attempt whose reservation was given up. *)
Definition given_up_db : Db := set_db_reservations (db_reservations finished_db) orphaned_db.

Definition repair_request (report : RuntimeDoctorReport) : RuntimeRepairRequest := {|
  rrq_expected_fingerprint := drp_fingerprint report; rrq_snapshot_path := "/backup";
  rrq_principal := "operator"; rrq_finalize_lost_attempt_ids := ∅ |}.

Lemma play_follows outside {A} (p : prog A) : forall d a h d',
  play outside p d = (a, h, d') -> follows p h a.
Proof.
  induction p as [x | R c k IH]; intros d a h d' H; simpl in *; [by injection H as <- <- <- | ].
  destruct (reply outside c d) as [r d1]. destruct (play outside (k r) d1) as [[b g] d2] eqn:Hp.
  injection H as <- <- <-. eauto 10.
Qed.

(** What the witness computes of a report: the violations, whether it is checked,
    whether every proposal is a release, and whether a reservation was given up. *)
Definition report_facts (answer : RuntimeResult RuntimeDoctorReport)
    : option (list string * bool * bool * bool) :=
  match answer with
  | Ok report =>
      Some (map riv_code (drp_violations report),
            is_ok (check_report (repair_request report) report),
            forallb (fun case => match dcs_proposal case with ReleaseTerminalReservation => true
                                 | _ => false end) (drp_cases report),
            existsb given_up (drp_cases report))
  | Err _ => None
  end.

Lemma report_facts_inv answer codes b :
  report_facts answer = Some (codes, true, true, b) ->
  exists report, answer = Ok report /\ check_report (repair_request report) report = Ok tt
    /\ Forall releases (drp_cases report) /\ existsb given_up (drp_cases report) = b.
Proof.
  destruct answer as [report | e]; [ | done]. intros [= _ Hcheck Hrel Hup]. exists report.
  split; [done | ]. split; [by destruct (check_report _ _) as [[] | ] | ]. split; [ | done].
  apply Forall_forall. intros case Hin. rewrite forallb_forall in Hrel.
  specialize (Hrel case (proj1 (list_elem_of_In _ _) Hin)). unfold releases. by destruct (dcs_proposal case).
Qed.

(** What was read of the Registry. *)
Definition snapshot_of (e : event) : option Db :=
  match e with
  | Event c answer =>
      match c in call R return R -> option Db with
      | Registry op =>
          match op in registry_op R return RuntimeResult R -> option Db with
          | ReadSnapshot _ => fun answer => match answer with Ok d => Some d | Err _ => None end
          | _ => fun _ => None
          end
      | _ => fun _ => None
      end answer
  end.

Lemma only_snapshot context d d' h :
  omap snapshot_of h = [d] -> answered (ReadSnapshot context) d' h -> d' = d.
Proof.
  intros Hh Hin. assert (H : d' ∈ omap snapshot_of h).
  { apply list_elem_of_omap. by exists (Event (Registry (ReadSnapshot context)) (Ok d')). }
  rewrite Hh in H. by apply list_elem_of_singleton in H.
Qed.

(** The references, by evaluation. *)
Definition references_hold_b (d : Db) : bool :=
  forallb (fun kv => String.eqb (att_attempt_id (row_attempt kv.2)) kv.1) (map_to_list (db_attempts d))
  && forallb (fun kv => String.eqb (job_job_id kv.2) kv.1
       && match job_current_attempt_id kv.2 with
          | Some a => match db_attempts d !! a with
                      | Some row => String.eqb (att_job_id (row_attempt row)) kv.1
                      | None => false
                      end
          | None => true
          end) (map_to_list (db_jobs d)).

Lemma references_hold_true d : references_hold_b d = true -> references_hold d.
Proof.
  unfold references_hold_b. rewrite andb_true_iff, !forallb_forall. intros [Ha Hj].
  assert (Hjob : forall k job, db_jobs d !! k = Some job -> In (k, job) (map_to_list (db_jobs d))).
  { intros k job H. by apply list_elem_of_In, elem_of_map_to_list. }
  split.
  - intros k row H. apply String.eqb_eq, (Ha (k, row)). by apply list_elem_of_In, elem_of_map_to_list.
  - intros k job H. specialize (Hj _ (Hjob k job H)). apply andb_true_iff in Hj as [Hj _]. by apply String.eqb_eq.
  - intros k job a H Hc. specialize (Hj _ (Hjob k job H)). apply andb_true_iff in Hj as [_ Hj]. simpl in Hj.
    rewrite Hc in Hj. destruct (db_attempts d !! a) as [row | ]; [ | done]. exists row.
    split; [done | by apply String.eqb_eq].
Qed.

(** The batch of a database whose report has the given facts. *)
Definition batch_answer (d : Db) (operations : list AdminRepairOperation) :=
  repair_admin_batch io_ok operations d.

Lemma release_plan_exact_witness :
  (exists operations d', batch_answer leaked_db operations = (Ok tt, d')
     /\ inspect_runtime_invariants_connection d' = [])
  /\ (exists operations, is_ok (fst (batch_answer given_up_db operations)) = false
     /\ operations <> []).
Proof.
  split.
  - destruct (doctor_play leaked_db) as [[answer h] d1] eqn:Hplay.
    assert (Hfacts : report_facts answer
              = Some (["TERMINAL_ATTEMPT_HOLDS_RESERVATION"%string], true, true, false)
            /\ omap snapshot_of h = [leaked_db]).
    { split; [change answer with (fst (fst (answer, h, d1))) | change h with (snd (fst (answer, h, d1)))];
        rewrite <- Hplay; vm_compute; reflexivity. }
    destruct Hfacts as [Hfacts Hsnap].
    destruct (report_facts_inv _ _ _ Hfacts) as (report & -> & Hcheck & Hrel & Hup).
    pose proof (play_follows _ _ _ _ _ _ Hplay) as Hf.
    destruct (plan_releases (dc_store_root doctor_config) (repair_request report) report sample_digest 95 _ Hrel)
      as (planned & Hplan & _).
    destruct (release_plan_exact doctor_config (repair_request report) h report sample_digest 95 planned
      Hf Hcheck Hrel) as (d & Hd & H); [rewrite Hplan; exact (conj eq_refl eq_refl) | ].
    rewrite (only_snapshot _ _ _ _ Hsnap Hd) in H.
    assert (Href : references_hold leaked_db) by (apply references_hold_true; vm_compute; reflexivity).
    specialize (H Href). rewrite Hup in H. exists (map fst planned). unfold batch_answer.
    destruct (repair_admin_batch io_ok (map fst planned) leaked_db) as [a d']. exists d'.
    destruct H as (-> & Hclean & _). split; [reflexivity | exact Hclean].
  - destruct (doctor_play given_up_db) as [[answer h] d1] eqn:Hplay.
    assert (Hfacts : report_facts answer = Some (["ORPHAN_RESERVATION_NOT_HELD"%string], true, true, true)
            /\ omap snapshot_of h = [given_up_db]).
    { split; [change answer with (fst (fst (answer, h, d1))) | change h with (snd (fst (answer, h, d1)))];
        rewrite <- Hplay; vm_compute; reflexivity. }
    destruct Hfacts as [Hfacts Hsnap].
    destruct (report_facts_inv _ _ _ Hfacts) as (report & -> & Hcheck & Hrel & Hup).
    pose proof (play_follows _ _ _ _ _ _ Hplay) as Hf.
    destruct (plan_releases (dc_store_root doctor_config) (repair_request report) report sample_digest 95 _ Hrel)
      as (planned & Hplan & Hmap).
    destruct (release_plan_exact doctor_config (repair_request report) h report sample_digest 95 planned
      Hf Hcheck Hrel) as (d & Hd & H); [rewrite Hplan; exact (conj eq_refl eq_refl) | ].
    rewrite (only_snapshot _ _ _ _ Hsnap Hd) in H.
    assert (Href : references_hold given_up_db) by (apply references_hold_true; vm_compute; reflexivity).
    specialize (H Href). rewrite Hup in H. exists (map fst planned). unfold batch_answer. split.
    + destruct (repair_admin_batch io_ok (map fst planned) given_up_db) as [a d']. exact (proj1 H).
    + intros Hnil. rewrite Hmap in Hnil. apply map_eq_nil in Hnil. by rewrite Hnil in Hup.
Defined.

Lemma violating_case_has_proposal_witness : exists h report,
  follows (inspect_runtime doctor_config) h (Ok report) /\ drp_violation_count report = 1%nat
  /\ Forall (fun case => dcs_proposal case <> NoRepairNeeded) (drp_cases report).
Proof.
  destruct (doctor_play leaked_db) as [[answer h] d1] eqn:Hplay.
  assert (Hfacts : option_map drp_violation_count (match answer with Ok r => Some r | Err _ => None end)
            = Some 1%nat /\ omap snapshot_of h = [leaked_db]).
  { split; [change answer with (fst (fst (answer, h, d1))) | change h with (snd (fst (answer, h, d1)))];
      rewrite <- Hplay; vm_compute; reflexivity. }
  destruct Hfacts as [Hcount Hsnap]. destruct answer as [report | e]; [ | discriminate Hcount].
  injection Hcount as Hcount. pose proof (play_follows _ _ _ _ _ _ Hplay) as Hf.
  destruct (violating_case_has_proposal doctor_config h report Hf) as (d & Hd & H).
  exists h, report. split; [exact Hf | ]. split; [exact Hcount | ]. apply H.
  rewrite (only_snapshot _ _ _ _ Hsnap Hd). apply references_hold_true. vm_compute. reflexivity.
Defined.
