(* ===== verification/RepairSpec.v ===== *)
(** * What an operator's change rests on

    A batch of repairs carries out a report that the operator has seen and that
    the verified backup holds, case by case; an Attempt is cancelled by hand only
    when nothing of it runs, before and after the cancel intent is recorded. *)

From S2P Require Import Prelude Text Errors Types Supervisor Platform TestPlatform Validation.
From S2P Require Import Submit Store Transaction Migrations Projection Lifecycle Admission.
From S2P Require Import Preservation Recovery AdminRepair Registry Scenario RecoverySpec Query Effects Engine Linux.
From S2P Require Import Evidence Passes Silence Observed TestWorld ReconciliationSpec.
From S2P Require Import Doctor Repair DoctorSpec.

#[local] Open Scope Z_scope.

#[local] Abbreviation begins := (ReadSnapshot "cannot begin Doctor read snapshot").

Section repair.
Context `{P : Platform, C : EngineCodec, RC : RepairCodec}.

(** ** Backups *)

(** A file of the backup has the size and the digest of the manifest. *)
Definition file_verified (root : string) (h : history) (file : BackupFile) : Prop :=
  unsafe_backup_path (bf_path file) = false
  /\ Event (SymlinkMetadata (path_join root (bf_path file))) (Ok (RegularFile (bf_bytes file))) ∈ h
  /\ Event (Sha256File (path_join root (bf_path file))) (Ok (bf_digest file)) ∈ h.

Definition backup_verified (root : string) (h : history) : Prop :=
  exists text manifest,
    Event (ReadFile (path_join root "manifest.json")) (Ok text) ∈ h
    /\ backup_manifest_of_json text = Ok manifest
    /\ Forall (file_verified root h) (bk_files manifest)
    /\ exists file, file ∈ bk_files manifest /\ bf_path file = REGISTRY_FILE.

(** A case shows rows of the backup. *)
Definition in_backup (backup : Db) (case : RuntimeDoctorCase) : Prop :=
  exists row job res,
    db_attempts backup !! das_attempt_id (dcs_attempt case) = Some row
    /\ db_jobs backup !! djs_job_id (dcs_job case) = Some job
    /\ db_reservations backup !! das_attempt_id (dcs_attempt case) = Some res
    /\ dcs_job case = doctor_job_state job
    /\ dcs_attempt case = doctor_attempt_state (row_attempt row)
    /\ dcs_reservation case = doctor_reservation_state (row_reservation res).

Lemma file_verified_app root h1 h2 file :
  file_verified root h1 file \/ file_verified root h2 file -> file_verified root (h1 ++ h2) file.
Proof. unfold file_verified. intros [(? & ? & ?) | (? & ? & ?)]; repeat split; try done; in_history. Qed.

Lemma backup_verified_app root h1 h2 :
  backup_verified root h1 \/ backup_verified root h2 -> backup_verified root (h1 ++ h2).
Proof.
  intros [(t & m & H1 & H2 & H3 & H4) | (t & m & H1 & H2 & H3 & H4)]; exists t, m;
    (split; [in_history | split; [done | split; [ | done]]]);
    (eapply Forall_impl; [exact H3 | ]; intros f Hf; apply file_verified_app; auto).
Qed.

Lemma verify_backup_file_spec root file :
  spec (verify_backup_file root file) (fun r h => forall digest, r = Ok digest -> file_verified root h file).
Proof.
  spec_start. unfold verify_backup_file. cbv zeta. wp_norm.
  destruct (unsafe_backup_path (bf_path file)) eqn:Hsafe; cbn [fail_if prog_bind wp]; [done | ].
  split; [done | ]. intros [kind | e]; cbn [map_err prog_bind wp]; [ | done].
  destruct kind as [len | | | ]; cbn [negb fail_if prog_bind wp]; try done.
  destruct (len =? bf_bytes file) eqn:Hlen; cbn [negb fail_if prog_bind wp]; [ | done].
  split; [done | ]. intros [observed | e]; cbn [map_err prog_bind wp]; [ | done].
  destruct (String.eqb_spec observed (bf_digest file)) as [-> | _]; cbn [negb fail_if prog_bind wp]; [ | done].
  intros digest _. apply Z.eqb_eq in Hlen as ->. unfold file_verified. split; [done | ]. split; in_history.
Qed.

Lemma verify_backup_files_spec root files : forall found,
  spec (verify_backup_files root found files) (fun r h => forall digest, r = Ok (Some digest) ->
    Forall (file_verified root h) files
    /\ (found = None -> exists file, file ∈ files /\ bf_path file = REGISTRY_FILE)).
Proof.
  induction files as [ | file rest IH]; intros found; unfold spec; cbn [verify_backup_files].
  - cbn. intros digest [= ->]. split; [constructor | done].
  - apply wp_eff_bind. eapply spec_wp; [apply verify_backup_file_spec | by intros | ].
    intros [observed | e] h1 H1; [ | done]. specialize (H1 observed eq_refl).
    eapply spec_wp; [apply IH | by intros | ]. intros r h2 H2 digest Hr.
    destruct (H2 digest Hr) as [Hrest Hfound]. split.
    + constructor; [apply file_verified_app; auto | ].
      eapply Forall_impl; [exact Hrest | ]. intros f Hf. apply file_verified_app. auto.
    + intros ->. destruct (String.eqb_spec (bf_path file) REGISTRY_FILE) as [He | _].
      * exists file. split; [by left | done].
      * destruct (Hfound eq_refl) as (f & Hf & Hp). exists f. split; [by right | done].
Qed.

Lemma quiet_sql' {R} path (statement : sql_read R) context : quiet (sql path statement context).
Proof. by apply quiet_try_map. Qed.
#[local] Hint Resolve quiet_sql' : quiet.

Lemma verify_snapshot_spec root :
  spec (verify_snapshot root) (fun r h => forall digest, r = Ok digest -> backup_verified root h).
Proof.
  unfold spec, verify_snapshot. cbv zeta.
  apply wp_eff_bind. unfold try_map. cbn [wp]. split; [done | ]. intros [text | e]; cbn [map_err]; [ | done].
  apply wp_eff_bind. unfold of_result at 1. cbn [wp].
  destruct (backup_manifest_of_json text) as [manifest | e] eqn:Hm; cbn [map_err]; [ | done].
  apply wp_eff_bind. eapply spec_wp; [apply verify_backup_files_spec | by intros | ].
  intros [found | e] h1 H1; [ | done].
  apply wp_eff_bind. unfold of_result at 1. cbn [wp]. destruct found as [observed | ]; cbn [ok_or]; [ | done].
  destruct (H1 observed eq_refl) as [Hfiles Hdb].
  do 4 (use_quiet; intros [? | e] ?; [ | done]).
  cbn [mret eff_mret wp]. intros digest _. exists text, manifest. split; [in_history | ]. split; [done | ].
  split; [ | by apply Hdb]. eapply Forall_impl; [exact Hfiles | ]. intros f Hf.
  repeat (apply file_verified_app; first [by right | left]).
Qed.

Lemma case_matches_true case job attempt reservation :
  case_matches case job attempt reservation = true ->
  dcs_job case = doctor_job_state job /\ dcs_attempt case = doctor_attempt_state attempt
  /\ dcs_reservation case = doctor_reservation_state reservation.
Proof.
  unfold case_matches. rewrite !andb_true_iff, !bool_decide_eq_true.
  destruct case as [[] [] [] ? ? ? ? ?]. cbn. intros H. destruct_and!. by subst.
Qed.

Lemma verify_snapshot_case_inv backup case :
  verify_snapshot_case backup case = Ok tt -> in_backup backup case.
Proof.
  unfold verify_snapshot_case. intros H.
  apply bind_Ok_inv in H as (job & Hj & H). apply bind_Ok_inv in H as (attempt & Ha & H).
  apply bind_Ok_inv in H as (reservation & Hr & H).
  apply fail_if_Ok_inv, negb_false_iff, case_matches_true in H as (H1 & H2 & H3).
  apply query_load_job in Hj. apply query_load_attempt in Ha as (row & Ha & <-).
  apply query_load_reservation in Hr as (res & Hr & <-).
  exists row, job, res. done.
Qed.

Lemma verify_snapshot_cases_spec root cases :
  spec (verify_snapshot_cases root cases) (fun r h => r = Ok tt -> exists backup,
    Event (BackupRows (path_join root REGISTRY_FILE)) (Ok backup) ∈ h /\ Forall (in_backup backup) cases).
Proof.
  unfold spec, verify_snapshot_cases. cbv zeta.
  do 2 (use_quiet; intros [[] | e] ?; [ | done]).
  apply wp_eff_bind. unfold try. cbn [wp]. split; [done | ]. intros [backup | e]; [ | done].
  unfold of_result. cbn [wp]. intros Hcases. exists backup. split; [in_history | ].
  apply for_each_Ok in Hcases. eapply Forall_impl; [exact Hcases | ]. intros case. apply verify_snapshot_case_inv.
Qed.

(** ** The plan *)

Definition same_outcome (terminal base : TerminalCommit) : Prop :=
  tc_attempt_id terminal = tc_attempt_id base
  /\ tc_expected_row_version terminal = tc_expected_row_version base
  /\ tc_state terminal = tc_state base /\ tc_result_digest terminal = tc_result_digest base
  /\ tc_exit_code terminal = tc_exit_code base
  /\ tc_finished_at_ms terminal = tc_finished_at_ms base.

(** The audit of an operation is that of the case. *)
Definition audit_of (request : RuntimeRepairRequest) (report : RuntimeDoctorReport)
    (case : RuntimeDoctorCase) (audit : AdminRepairAudit) : Prop :=
  aud_report_fingerprint audit = drp_fingerprint report
  /\ aud_case_fingerprint audit = dcs_fingerprint case
  /\ aud_principal audit = rrq_principal request
  /\ aud_expected_job_row_version audit = djs_row_version (dcs_job case)
  /\ aud_expected_current_attempt_id audit = djs_current_attempt_id (dcs_job case)
  /\ aud_expected_reservation_state audit = drs_state (dcs_reservation case).

(** The operator has given up on an Attempt without result. *)
Definition confirmed_lost (request : RuntimeRepairRequest) (case : RuntimeDoctorCase) : Prop :=
  das_attempt_id (dcs_attempt case) ∈ rrq_finalize_lost_attempt_ids request
  /\ das_state (dcs_attempt case) = AttemptState.Lost
  /\ djs_resolution (dcs_job case) = Some JobResolution.Lost
  /\ dcs_runner_result_present case = false.

Definition planned_from (request : RuntimeRepairRequest) (report : RuntimeDoctorReport)
    (case : RuntimeDoctorCase) (operation : AdminRepairOperation) : Prop :=
  audit_of request report case (operation_audit operation)
  /\ match operation with
     | Terminal terminal _ =>
         (exists base, dcs_proposal case = RecoverRunnerResult base /\ same_outcome terminal base)
         \/ (confirmed_lost request case /\ tc_state terminal = AttemptState.Lost
             /\ tc_attempt_id terminal = das_attempt_id (dcs_attempt case)
             /\ tc_expected_row_version terminal = das_row_version (dcs_attempt case))
     | Reservation attempt_id version _ =>
         dcs_proposal case = ReleaseTerminalReservation
         /\ attempt_id = das_attempt_id (dcs_attempt case)
         /\ version = das_row_version (dcs_attempt case)
     end.

Lemma extends_same base terminal : extends base terminal -> same_outcome terminal base.
Proof. intros (artifact & ->). done. Qed.

Lemma same_outcome_trans a b c : same_outcome a b -> same_outcome b c -> same_outcome a c.
Proof. unfold same_outcome. intros H1 H2. destruct_and!. repeat split; congruence. Qed.

Lemma with_terminal_evidence_spec case terminal :
  spec (with_terminal_evidence case terminal) (fun r _ => forall terminal', r = Ok terminal' ->
    same_outcome terminal' terminal).
Proof.
  unfold spec, with_terminal_evidence, append_terminal_evidence. use_quiet. intros [attempt | e] h1; [ | done].
  eapply spec_wp; [apply append_terminal_evidence_spec | by intros | ].
  intros r h2 H terminal' Hr. by apply extends_same, H.
Qed.

Lemma plan_case_spec root request report digest at_ms case :
  spec (plan_case root request report digest at_ms case) (fun r _ => forall planned, r = Ok planned ->
    Forall (planned_from request report case) (map fst planned)).
Proof.
  unfold spec, plan_case. apply wp_eff_bind. unfold of_result. cbn [wp]. unfold action_name.
  destruct (dcs_proposal case) as [base | | | reasons] eqn:Hp; cbv zeta.
  - use_quiet. intros [receipt | e] h1; [ | done].
    apply wp_eff_bind. eapply spec_wp; [apply with_terminal_evidence_spec | by intros | ].
    intros [terminal | e] h2 Hsame; [ | done]. specialize (Hsame terminal eq_refl).
    cbn [mret eff_mret wp]. intros planned [= <-]. constructor; [ | constructor].
    split; [done | ]. left. exists base. split; [done | ]. exact Hsame.
  - cbn [mret eff_mret wp]. intros planned [= <-]. constructor; [ | constructor]. by split.
  - cbn [mret eff_mret wp]. intros planned [= <-]. constructor.
  - destruct (selected request case) eqn:Hsel; [ | done].
    unfold prepare_final_lost_terminal. apply wp_eff_bind, wp_eff_bind. unfold of_result. cbn [wp].
    destruct (_ || _) eqn:Hlost; cbn [fail_if]; [done | ]. bool_props.
    use_quiet. intros [receipt | e] h1; [ | done]. cbn [mret eff_mret wp].
    apply wp_eff_bind. eapply spec_wp; [apply with_terminal_evidence_spec | by intros | ].
    intros [terminal | e] h2 Hsame; [ | done]. destruct (Hsame terminal eq_refl) as (Hs1 & Hs2 & Hs3 & _).
    cbn [mret eff_mret wp]. intros planned [= <-]. constructor; [ | constructor].
    split; [done | ]. right. split; [ | by rewrite Hs1, Hs2, Hs3].
    unfold selected in Hsel. apply bool_decide_eq_true in Hsel. done.
Qed.

Lemma plan_cases_spec root request report digest at_ms cases :
  spec (plan_cases root request report digest at_ms cases) (fun r _ => forall planned, r = Ok planned ->
    Forall (fun operation => exists case, case ∈ cases /\ planned_from request report case operation)
      (map fst planned)).
Proof.
  induction cases as [ | case rest IH]; unfold spec; cbn [plan_cases].
  - cbn. intros planned [= <-]. constructor.
  - apply wp_eff_bind. eapply spec_wp; [apply plan_case_spec | by intros | ].
    intros [planned | e] h1 H1; [ | done]. specialize (H1 planned eq_refl).
    apply wp_eff_bind. eapply spec_wp; [apply IH | by intros | ].
    intros [later | e] h2 H2; [ | done]. specialize (H2 later eq_refl).
    cbn [mret eff_mret wp]. intros all [= <-]. rewrite map_app. apply Forall_app. split.
    + eapply Forall_impl; [exact H1 | ]. intros x Hx. exists case. split; [by left | done].
    + eapply Forall_impl; [exact H2 | ]. intros x (c & Hc & Hx). exists c. split; [by right | done].
Qed.

(** ** The batch follows the diagnosis *)

(** The report that a batch carries out, and the rows and answers behind it. *)
Definition diagnosed (request : RuntimeRepairRequest) (report : RuntimeDoctorReport) (d backup : Db)
    (h : history) : Prop :=
  answered begins d h /\ report_of d report h
  /\ drp_fingerprint report = rrq_expected_fingerprint request
  /\ backup_verified (rrq_snapshot_path request) h
  /\ Event (BackupRows (path_join (rrq_snapshot_path request) REGISTRY_FILE)) (Ok backup) ∈ h
  /\ Forall (in_backup backup) (drp_cases report)
  /\ Forall (fun case => dcs_violation_codes case <> [] -> dcs_proposal case <> NoRepairNeeded)
       (drp_cases report)
  /\ Forall (fun case => is_manual case = true ->
        das_attempt_id (dcs_attempt case) ∈ rrq_finalize_lost_attempt_ids request) (drp_cases report).

Definition batch_founded (request : RuntimeRepairRequest) (operations : list AdminRepairOperation)
    (h : history) : Prop :=
  exists report d backup, diagnosed request report d backup h
    /\ Forall (fun operation => exists case, case ∈ drp_cases report
                 /\ planned_from request report case operation) operations.

(** Nothing is called that changes anything, except a founded batch. *)
Definition repair_ok (request : RuntimeRepairRequest) (T : Type) (c : call T) (h : history) : Prop :=
  match c with
  | Registry op =>
      match op with
      | RepairAdminBatch operations => batch_founded request operations h
      | op => if advances op then False else True
      end
  | SystemdRun _ _ | SpawnWindowsNative _ | StopUnit _ | SpawnTarget _ => False
  | _ => True
  end.

Lemma silent_repair_ok request T (c : call T) h : silent T c h -> repair_ok request T c h.
Proof. destruct c; try done. match goal with op : registry_op _ |- _ => by destruct op end. Qed.

Lemma check_report_inv request report : check_report request report = Ok tt ->
  drp_fingerprint report = rrq_expected_fingerprint request
  /\ Forall (fun case => dcs_violation_codes case <> [] -> dcs_proposal case <> NoRepairNeeded)
       (drp_cases report).
Proof.
  unfold check_report. intros H. apply bind_Ok_inv in H as (_ & _ & H).
  apply bind_Ok_inv in H as ([] & Hf & H). apply bind_Ok_inv in H as (_ & _ & H).
  apply fail_if_Ok_inv in Hf, H. apply negb_false_iff, String.eqb_eq in Hf. split; [done | ].
  apply existsb_false_Forall in H. eapply Forall_impl; [exact H | ]. intros case Hc Hne Hp.
  unfold unproposed in Hc. rewrite Hp, andb_true_r in Hc. apply negb_false_iff, bool_decide_eq_true in Hc. done.
Qed.

Lemma check_selection_inv request report : check_selection request report = Ok tt ->
  Forall (fun case => is_manual case = true ->
    das_attempt_id (dcs_attempt case) ∈ rrq_finalize_lost_attempt_ids request) (drp_cases report).
Proof.
  unfold check_selection. intros H. apply bind_Ok_inv in H as (_ & _ & H).
  apply fail_if_Ok_inv, negb_false_iff, bool_decide_eq_true in H.
  apply Forall_forall. intros case Hin Hm.
  destruct (decide (das_attempt_id (dcs_attempt case) ∈ rrq_finalize_lost_attempt_ids request)) as [ | Hno]; [done | ].
  exfalso. assert (Hd : das_attempt_id (dcs_attempt case)
    ∈ in_order (manual_attempts report ∖ rrq_finalize_lost_attempt_ids request)).
  { unfold in_order. rewrite order_by_Permutation. apply elem_of_elements, elem_of_difference. split; [ | done].
    unfold manual_attempts. apply elem_of_list_to_set, list_elem_of_fmap. exists case. split; [done | ].
    apply list_elem_of_In, filter_In. rewrite <- list_elem_of_In. done. }
  rewrite H in Hd. by apply not_elem_of_nil in Hd.
Qed.

Lemma quiet_inspect config : quiet (inspect_runtime config).
Proof. eapply spec_mono; [apply inspect_runtime_spec | done]. Qed.
#[local] Hint Resolve quiet_inspect : quiet.

Lemma quiet_inspect_after config what : quiet (inspect_after config what).
Proof. unfold inspect_after. quiet_auto. Qed.

Lemma apply_runtime_repair_wp config request :
  wp (repair_ok request) (apply_runtime_repair config request) [] (fun _ _ => True).
Proof.
  unfold apply_runtime_repair.
  apply wp_eff_bind. unfold of_result at 1. cbn [wp]. destruct (validate_repair_request request) as [[] | e]; [ | done].
  apply wp_eff_bind. eapply spec_wp; [apply inspect_runtime_spec | apply silent_repair_ok | ].
  intros [report | e] h1 Hrep; [ | done]. destruct (Hrep report eq_refl) as (d & Hd & Hreport). clear Hrep.
  apply wp_eff_bind. unfold of_result at 1. cbn [wp].
  destruct (check_report request report) as [[] | e] eqn:Hcheck; [ | done].
  apply wp_eff_bind. eapply spec_wp; [apply verify_snapshot_spec | apply silent_repair_ok | ].
  intros [digest | e] h2 Hbackup; [ | done]. specialize (Hbackup digest eq_refl).
  apply wp_eff_bind. eapply spec_wp; [apply verify_snapshot_cases_spec | apply silent_repair_ok | ].
  intros [[] | e] h3 Hcases; [ | done]. destruct (Hcases eq_refl) as (backup & Hrows & Hin). clear Hcases.
  apply wp_eff_bind. unfold of_result at 1. cbn [wp].
  destruct (check_selection request report) as [[] | e] eqn:Hsel; [ | done].
  apply wp_eff_bind. apply quiet_wp; [unfold initialize_registry; quiet_auto | apply silent_repair_ok | ].
  intros [[] | e] h4; [ | done].
  apply wp_eff_bind. apply quiet_wp; [quiet_auto | apply silent_repair_ok | ].
  intros [at_ms | e] h5; [ | done].
  apply wp_eff_bind. eapply spec_wp; [apply plan_cases_spec | apply silent_repair_ok | ].
  intros [planned | e] h6 Hplan; [ | done]. specialize (Hplan planned eq_refl).
  apply wp_eff_bind. unfold registry, try. cbn [wp]. split.
  - destruct (check_report_inv _ _ Hcheck) as [Hfp Hprop].
    exists report, d, backup. split; [ | exact Hplan].
    split; [unfold answered in *; in_history | ]. split.
    + destruct Hreport as (Hv & Hn & Hc). split; [done | ]. split; [done | ].
      eapply Forall2_impl; [exact Hc | ]. intros x y Hxy.
      repeat (apply case_of_app; first [by right | left]).
    + split; [done | ]. split; [repeat (apply backup_verified_app; first [by right | left]) | ].
      split; [in_history | ]. split; [done | ]. split; [done | ]. by apply check_selection_inv.
  - intros [[] | e]; [ | done].
    apply quiet_wp; [ | apply silent_repair_ok | done].
    apply quiet_bind; [apply quiet_inspect_after | ]. intros after. apply quiet_ret.
Qed.


(** ** Cancelling a stale Attempt *)

(** Nothing of the Attempt runs: not the unit, not the recorded process, and
    nothing in the control group; and there is no result file. *)
Definition nothing_runs (attempt : AttemptRecord) (h : history) : Prop :=
  Event (IsFile (bundle_file attempt RESULT_FILE)) false ∈ h
  /\ shown (att_unit_name attempt) (fun properties => unit_is_active properties = false) h
  /\ pid_gone attempt h
  /\ match att_control_group attempt with
     | Some control_group => cgroup_empty control_group h
     | None => True
     end.

Lemma nothing_runs_app attempt h1 h2 :
  nothing_runs attempt h1 \/ nothing_runs attempt h2 -> nothing_runs attempt (h1 ++ h2).
Proof.
  unfold nothing_runs. destruct (att_control_group attempt);
    intros [(? & ? & ? & ?) | (? & ? & ? & ?)]; (split; [in_history | ]);
    eauto 10 using shown_app, pid_gone_app, cgroup_empty_app.
Qed.

Lemma target_absent_spec attempt :
  spec (launch_identity_mismatch_cancel_target_absent attempt) (fun r h => r = Ok true ->
    shown (att_unit_name attempt) (fun properties => unit_is_active properties = false) h
    /\ pid_gone attempt h
    /\ match att_control_group attempt with
       | Some control_group => cgroup_empty control_group h
       | None => True
       end).
Proof.
  unfold spec, launch_identity_mismatch_cancel_target_absent, cancel_after_launch_identity_mismatch_is_safe.
  use_spec systemctl_show_spec. intros [properties | e] h1 Hshow; [ | done].
  specialize (Hshow properties eq_refl).
  use_spec recorded_pid_alive_spec. intros alive h2 Hpid. simpl in Hpid.
  destruct (att_control_group attempt) as [control_group | ].
  - use_spec cgroup_has_processes_spec. intros [cgroup_alive | e] h3 Hempty; [ | done].
    wp_norm. intros [= [[Hu%negb_true_iff ->%negb_true_iff]%andb_true_iff ->%negb_true_iff]%andb_true_iff].
    eauto 20 using shown_app, pid_gone_app, cgroup_empty_app.
  - wp_norm. intros [= [[Hu%negb_true_iff ->%negb_true_iff]%andb_true_iff _]%andb_true_iff].
    eauto 20 using shown_app, pid_gone_app.
Qed.

Lemma require_absent_spec attempt message running :
  spec (require_absent attempt message running) (fun r h => r = Ok tt -> nothing_runs attempt h).
Proof.
  unfold spec, require_absent. apply wp_eff_bind. unfold ask. cbn [wp]. split; [done | ].
  intros [ | ]; (apply wp_eff_bind; unfold of_result at 1; cbn [fail_if wp]); [done | ].
  use_spec target_absent_spec. intros [absent | e] h1 Habsent; [ | done].
  unfold of_result. cbn [wp]. destruct absent; cbn [negb fail_if]; [ | done].
  intros _. destruct (Habsent eq_refl) as (H1 & H2 & H3). unfold nothing_runs.
  split; [in_history | ]. split; [apply shown_app; by right | ]. split; [apply pid_gone_app; by right | ].
  destruct (att_control_group attempt); [ | done]. apply cgroup_empty_app. by right.
Qed.

(** The rows of the target, as the Registry answered them and as the backup
    holds them. *)
Definition stale_target (request : RuntimeStaleCancelRequest) (attempt : AttemptRecord)
    (job : RuntimeJobRecord) (recovery : RecoveryState) (h : history) : Prop :=
  exists reservation d backup,
    answered (GetAttempt (scq_attempt_id request)) attempt h
    /\ answered (GetJob (att_job_id attempt)) job h
    /\ answered (GetReservation (scq_attempt_id request)) reservation h
    /\ answered (ReadSnapshot "cannot read Attempt recovery state") d h
    /\ recovery_state <$> db_attempts d !! scq_attempt_id request = Some recovery
    /\ stale_cancel_target (scq_attempt_id request) attempt job reservation recovery = true
    /\ Event (BackupRows (path_join (scq_snapshot_path request) REGISTRY_FILE)) (Ok backup) ∈ h
    /\ verify_stale_cancel_rows job attempt reservation recovery backup = Ok tt.

Lemma stale_target_app request attempt job recovery h1 h2 :
  stale_target request attempt job recovery h1 \/ stale_target request attempt job recovery h2 ->
  stale_target request attempt job recovery (h1 ++ h2).
Proof.
  intros [(r & d & b & H1 & H2 & H3 & H4 & H5 & H6 & H7 & H8) | (r & d & b & H1 & H2 & H3 & H4 & H5 & H6 & H7 & H8)];
    exists r, d, b; unfold answered in *; (repeat split); first [done | in_history].
Qed.

Lemma read_recovery_state_spec path attempt_id :
  spec (read_recovery_state path attempt_id) (fun r h => forall recovery, r = Ok recovery -> exists d,
    answered (ReadSnapshot "cannot read Attempt recovery state") d h
    /\ recovery_state <$> db_attempts d !! attempt_id = Some recovery).
Proof.
  unfold spec, read_recovery_state. do 2 (use_quiet; intros [[] | e] ?; [ | done]).
  use_spec (registry_spec (ReadSnapshot "cannot read Attempt recovery state") I).
  intros [d | e] h3 Hd; [ | done]. specialize (Hd d eq_refl).
  unfold of_result, select_recovery_state. cbn [wp]. intros recovery Hr. exists d.
  split; [apply answered_app; right; done | ].
  apply map_err_Ok_inv, fmap_Ok_inv in Hr as (row & Hrow & ->). apply ok_or_Ok_inv in Hrow. by rewrite Hrow.
Qed.

Lemma load_stale_cancel_target_spec config request :
  spec (load_stale_cancel_target config request) (fun r h => forall attempt job recovery,
    r = Ok (attempt, job, recovery) -> stale_target request attempt job recovery h).
Proof.
  unfold spec, load_stale_cancel_target.
  use_spec (registry_spec (GetAttempt (scq_attempt_id request)) I).
  intros [attempt | e] h1 H1; [ | done]. specialize (H1 attempt eq_refl).
  use_spec (registry_spec (GetJob (att_job_id attempt)) I).
  intros [job | e] h2 H2; [ | done]. specialize (H2 job eq_refl).
  use_spec (registry_spec (GetReservation (scq_attempt_id request)) I).
  intros [reservation | e] h3 H3; [ | done]. specialize (H3 reservation eq_refl).
  use_spec read_recovery_state_spec. intros [recovery | e] h4 H4; [ | done].
  destruct (H4 recovery eq_refl) as (d & Hd & Hrec).
  apply wp_eff_bind. unfold of_result at 1. cbn [wp].
  destruct (stale_cancel_target _ attempt job reservation recovery) eqn:Htarget; cbn [negb fail_if]; [ | done].
  apply wp_eff_bind. unfold verify_snapshot_stale_cancel_target. cbv zeta.
  do 2 (use_quiet; intros [[] | e] ?; [ | done]).
  apply wp_eff_bind. unfold try. cbn [wp]. split; [done | ]. intros [backup | e]; [ | done].
  unfold of_result. cbn [wp]. destruct (verify_stale_cancel_rows _ _ _ _ backup) as [[] | e] eqn:Hrows; [ | done].
  cbn [mret eff_mret wp]. intros attempt' job' recovery' [= <- <- <-].
  exists reservation, d, backup. unfold answered in *. (repeat split); first [done | in_history].
Qed.

(** What must have been answered before the Attempt is committed as cancelled. *)
Definition cancel_founded (request : RuntimeStaleCancelRequest) (terminal : TerminalCommit)
    (h : history) : Prop :=
  exists attempt job recovery current at_ms projection h1 h2,
    h = h1 ++ Event (Registry (RequestCancel (job_job_id job) at_ms)) (Ok projection) :: h2
    /\ backup_verified (scq_snapshot_path request) h1
    /\ stale_target request attempt job recovery h1 /\ nothing_runs attempt h1
    /\ answered (GetAttempt (scq_attempt_id request)) current h2
    /\ AttemptState.is_terminal (att_state current) = false /\ nothing_runs current h2
    /\ tc_attempt_id terminal = att_attempt_id current
    /\ tc_expected_row_version terminal = att_row_version current
    /\ tc_state terminal = AttemptState.Cancelled.

Definition stale_ok (request : RuntimeStaleCancelRequest) (T : Type) (c : call T) (h : history) : Prop :=
  match c with
  | Registry op =>
      match op with
      | CommitTerminal terminal => cancel_founded request terminal h
      | op => if advances op then False else True
      end
  | SystemdRun _ _ | SpawnWindowsNative _ | StopUnit _ | SpawnTarget _ => False
  | _ => True
  end.

Lemma silent_stale_ok request T (c : call T) h : silent T c h -> stale_ok request T c h.
Proof. destruct c; try done. match goal with op : registry_op _ |- _ => by destruct op end. Qed.

(** From the cancel intent on; [h1] is what was answered before. *)
Lemma cancel_recorded_wp config request report digest attempt job recovery at_ms h1 :
  backup_verified (scq_snapshot_path request) h1 -> stale_target request attempt job recovery h1 ->
  nothing_runs attempt h1 ->
  wp (stale_ok request) (commit_stale_cancel config request report digest job recovery at_ms)
    h1 (fun _ _ => True).
Proof.
  intros Hbackup Htarget Hnothing. unfold commit_stale_cancel, record_stale_cancel.
  apply wp_eff_bind, wp_eff_bind. unfold registry at 1, try at 1. cbn [wp]. split; [done | ].
  intros [projection | e]; [ | done].
  apply wp_eff_bind. eapply spec_wp; [apply (registry_spec (GetAttempt (scq_attempt_id request)) I) | apply silent_stale_ok | ].
  intros [current | e] h2 Hcurrent; [ | done]. specialize (Hcurrent current eq_refl).
  apply wp_eff_bind. unfold of_result at 1. cbn [wp].
  destruct (AttemptState.is_terminal (att_state current)) eqn:Hterm; cbn [fail_if mret eff_mret wp]; [done | ].
  apply wp_eff_bind. eapply spec_wp; [apply require_absent_spec | apply silent_stale_ok | ].
  intros [[] | e] h3 Habsent; [ | done]. specialize (Habsent eq_refl).
  apply wp_eff_bind. apply quiet_wp; [unfold write_stale_cancel_receipt, write_receipt; quiet_auto | apply silent_stale_ok | ].
  intros [receipt | e] h4; [ | done].
  apply wp_eff_bind. unfold append_terminal_evidence.
  eapply spec_wp; [apply append_terminal_evidence_spec | apply silent_stale_ok | ].
  intros [terminal | e] h5 Hsame; [ | done]. destruct (extends_same _ _ (Hsame terminal eq_refl)) as (Hs1 & Hs2 & Hs3 & _).
  unfold registry, try. cbn [wp]. split; [ | done].
  exists attempt, job, recovery, current, at_ms, projection, h1, (h2 ++ h3 ++ h4 ++ h5).
  split; [by rewrite <- !app_assoc | ]. split; [done | ]. split; [done | ]. split; [done | ].
  split; [unfold answered in *; in_history | ]. split; [done | ].
  split; [apply nothing_runs_app; right; apply nothing_runs_app; by left | ].
  by rewrite Hs1, Hs2, Hs3.
Qed.

Lemma cancel_stale_wp config request :
  wp (stale_ok request) (cancel_stale_recovery_required_attempt config request) [] (fun _ _ => True).
Proof.
  unfold cancel_stale_recovery_required_attempt.
  apply wp_eff_bind. unfold of_result at 1. cbn [wp]. destruct (validate_stale_cancel_request request) as [[] | e]; [ | done].
  apply wp_eff_bind. apply quiet_wp; [apply quiet_inspect | apply silent_stale_ok | ].
  intros [report | e] h1; [ | done].
  apply wp_eff_bind. unfold of_result at 1. cbn [wp]. destruct (schema_required _ report) as [[] | e]; [ | done].
  apply wp_eff_bind. unfold of_result at 1. cbn [wp]. destruct (fail_if _ _) as [[] | e]; [ | done].
  apply wp_eff_bind. eapply spec_wp; [apply verify_snapshot_spec | apply silent_stale_ok | ].
  intros [digest | e] h2 Hbackup; [ | done]. specialize (Hbackup digest eq_refl).
  apply wp_eff_bind. apply quiet_wp; [unfold initialize_registry; quiet_auto | apply silent_stale_ok | ].
  intros [[] | e] h3; [ | done].
  apply wp_eff_bind. eapply spec_wp; [apply load_stale_cancel_target_spec | apply silent_stale_ok | ].
  intros [[[attempt job] recovery] | e] h4 Htarget; [ | done]. specialize (Htarget attempt job recovery eq_refl).
  apply wp_eff_bind. eapply spec_wp; [apply require_absent_spec | apply silent_stale_ok | ].
  intros [[] | e] h5 Hnothing; [ | done]. specialize (Hnothing eq_refl).
  apply wp_eff_bind. apply quiet_wp; [quiet_auto | apply silent_stale_ok | ].
  intros [at_ms | e] h6; [ | done].
  apply wp_eff_bind. eapply wp_mono; [ | apply (cancel_recorded_wp config request report digest attempt job recovery at_ms)].
  - intros [projection | e] h7 _ _; [ | done].
    apply quiet_wp; [ | apply silent_stale_ok | done].
    apply quiet_bind; [quiet_auto | ]. intros []. apply quiet_bind; [apply quiet_inspect_after | ].
    intros after. apply quiet_ret.
  - repeat (apply backup_verified_app; first [by right | left]).
  - repeat (apply stale_target_app; first [by right | left]).
  - repeat (apply nothing_runs_app; first [by right | left]).
Qed.

(** C21: an operator cancels only what does not run.  Whatever the outside answers
    and wherever it is stopped: before [cancel_stale_recovery_required_attempt]
    commits an Attempt as cancelled, the backup was measured and holds the rows of
    the Attempt, its Job, its reservation and its recovery mark as the Registry
    answered them; the Attempt was the current one of an unresolved Job, held its
    capacity, and was marked for a start that could not be identified; its unit,
    its recorded process and its control group were all seen dead and no result
    file was there; only then was the cancel intent recorded, the Attempt read
    again as not terminal, and everything seen dead once more.  What is committed
    is Cancelled, against the version that was read after the intent. *)
Theorem stale_cancel_follows_absence config request d0 h o d' :
  runs (cancel_stale_recovery_required_attempt config request) d0 h o d' ->
  forall h1 terminal r h2, h = h1 ++ Event (Registry (CommitTerminal terminal)) r :: h2 ->
  cancel_founded request terminal h1.
Proof.
  intros Hrun h1 terminal r h2 Heq.
  destruct (wp_runs _ _ _ [] _ _ _ _ (cancel_stale_wp config request) Hrun) as [Hcalls _].
  exact (Hcalls h1 _ _ r h2 Heq).
Qed.
End repair.

(** ** Two runs *)

(** The outside of [doctor_world], with a backup that holds [backup]. *)
Definition backup_world (backup : Db) (R : Type) (c : call R) : R :=
  match c in call R return R with
  | ReadFile _ => Ok "manifest"%string
  | SymlinkMetadata _ => Ok (RegularFile 8)
  | BackupRows _ => Ok backup
  | other => doctor_world _ other
  end.

(** The operator names the report on the leak. *)
Definition leak_request : option RuntimeRepairRequest :=
  match fst (fst (doctor_play leaked_db)) with
  | Ok report => Some (repair_request report)
  | Err _ => None
  end.

(** The batch of an event, and the first one of a history. *)
Definition batch_of (e : event) : option (list AdminRepairOperation) :=
  match e with
  | Event (Registry op) _ =>
      match op with RepairAdminBatch operations => Some operations | _ => None end
  | _ => None
  end.

Lemma batch_of_inv e operations : batch_of e = Some operations ->
  exists r, e = Event (Registry (RepairAdminBatch operations)) r.
Proof.
  destruct e as [T c r]. destruct c; try done.
  match goal with op : registry_op _ |- _ => destruct op; try done end. intros [= <-]. by exists r.
Qed.

Fixpoint first_batch (h : history) : option (history * event * list AdminRepairOperation * history) :=
  match h with
  | [] => None
  | e :: rest =>
      match batch_of e with
      | Some operations => Some ([], e, operations, rest)
      | None => '(h1, e', operations, h2) ← first_batch rest; Some (e :: h1, e', operations, h2)
      end
  end.

Lemma first_batch_split h : forall h1 e operations h2,
  first_batch h = Some (h1, e, operations, h2) -> h = h1 ++ e :: h2 /\ batch_of e = Some operations.
Proof.
  induction h as [ | e rest IH]; intros h1 e' operations h2 H; [done | ].
  simpl in H. destruct (batch_of e) as [l | ] eqn:He; [by injection H as <- <- <- <- | ].
  destruct (first_batch rest) as [[[[g1 x] b] g2] | ]; [ | done].
  injection H as <- <- <- <-. destruct (IH _ _ _ _ eq_refl) as [-> ?]. done.
Qed.


(** The start of Attempt 1 could not be identified, and nothing of it runs. *)
Definition stale_db : Db :=
  match db_attempts dispatched_db !! "attempt-1"%string with
  | Some row => snd (record_reconciliation_failure io_ok (row_attempt row)
                       (error_new LaunchIdentityMismatch "identity" None false) 40 dispatched_db dispatched_db)
  | None => dispatched_db
  end.

Definition stale_request : RuntimeStaleCancelRequest := {|
  scq_snapshot_path := "/backup"; scq_principal := "operator"; scq_attempt_id := "attempt-1" |}.

Lemma stale_cancel_commits :
  committed (play (backup_world stale_db)
    (cancel_stale_recovery_required_attempt doctor_config stale_request) stale_db)
  = Some (false, "attempt-1"%string, AttemptState.Cancelled).
Proof. vm_compute. reflexivity. Qed.

Lemma stale_cancel_follows_absence_witness : exists h1 terminal,
  cancel_founded stale_request terminal h1 /\ tc_attempt_id terminal = "attempt-1"%string.
Proof.
  pose proof stale_cancel_commits as Hcommits.
  destruct (play _ _ _) as [[o h] d'] eqn:Hplay. apply play_runs in Hplay.
  unfold committed in Hcommits. cbn [fst snd] in Hcommits.
  destruct (first_commit h) as [[[[[h1 e] orphan] terminal] h2] | ] eqn:Hs; [ | discriminate Hcommits].
  injection Hcommits as -> Hid Hstate. exists h1, terminal. split; [ | exact Hid].
  destruct (first_commit_split _ _ _ _ _ _ Hs) as [Heq Hc]. destruct (commit_of_inv _ _ _ Hc) as [r ->].
  exact (stale_cancel_follows_absence doctor_config stale_request stale_db h (Some o) d' Hplay
           h1 terminal r h2 Heq).
Defined.
